(* ===== verification/_CoqProject ===== *)
-Q . S2P
Prelude.v
Types.v
Float32.v
FloatBounds.v
Paths.v
Edges.v
Storage.v
BinaryHeap.v
DeallocatingVector.v
DynamicGraph.v
Contractor.v
WitnessSearch.v
Independence.v
ContractionRound.v
Hierarchy.v
Rounds.v
Renumbering.v
Flush.v
ContractorRun.v
ContractorInput.v
ContractorTheorems.v
StaticGraph.v
Text.v
Geometry.v
Trigonometry.v
Hilbert.v
Json.v
RequestParser.v
RouteParameters.v
Server.v
Routing.v
QuerySearch.v
DistanceTable.v
Hsgr.v
EndToEnd.v
Unpacking.v
ShortestPath.v
RouteSearch.v
RouteLeg.v
AlternativeRoutes.v
AlternativeSearch.v
AlternativeTheorems.v
Restrictions.v
GeometryCompressor.v
NodeBasedGraph.v
EdgeExpansion.v
Turns.v
Compression.v
RoadGraph.v
Names.v
Extraction.v
Import.v
RoadImport.v
RestrictionImport.v
RTree.v
RTreeSearch.v
NearestRoads.v
RouteGeometry.v
Descriptors.v
Plugins.v
