(* ===== verification/Prelude.v ===== *)
(** * OSRM backend: verification library

    OSRM answers shortest path queries on road networks. A first program
    extracts the roads and turn restrictions of a map into files. A second one
    reads them, builds a graph of the crossings, compresses chains of road
    pieces, expands the graph so that its nodes are road pieces and its edges
    are turns, contracts the expanded graph into a hierarchy, packs the road
    pieces into an R-tree, and writes the files of the server. The server
    loads the files, parses HTTP requests, finds the roads near the requested
    coordinates in the R-tree, runs bidirectional searches on the hierarchy and
    describes the routes it finds.

    ** How the code is modelled

    C++ functions are Rocq functions with explicit state. [None] is what the
    code must not do: an index out of range, signed overflow, a loop that does
    not end, a failed [.at]. So a theorem that an operation returns [Some] is a
    theorem about memory safety and termination. Unsigned values are [N] with
    the wrap-around written out, [int] is [Z] with checked operations
    (Prelude, Types), [float] and [double] are IEEE numbers of the standard
    library (Float32). Vectors are lists, hashed containers are finite maps and
    sets. A loop over a range is [fold_m] over [irange]; any other loop has
    fuel, and its lemma shows that the fuel passed by the caller is enough (the
    length of the list, the number of nodes not settled yet, or the size of the
    heap bounds the number of steps). Sorting routines, the priority queues of
    the standard library, the order in which threads take work, uninitialised
    memory, the Lua turn function, the functions of the C math library (the
    record [c_math] of Geometry) and hash functions of the build are arguments,
    with what the code relies on as hypotheses.

    ** Files and the code they model (under src/)

    - Prelude, Types, Float32, FloatBounds: machine integers, vectors,
      typedefs.h, Range.h, binary32 and binary64 arithmetic and its rounding.
    - Paths: walks and distances in weighted graphs, the language of the
      specifications.
    - Edges: DataStructures/ImportEdge, QueryEdge.
    - Storage, BinaryHeap: DataStructures/BinaryHeap.h, XORFastHash.h,
      XORFastHashStorage.h; the class [IndexStorageLaws] is what the heap needs
      of an index storage, with an instance for each storage.
    - DeallocatingVector, DynamicGraph, StaticGraph: the containers of the
      same names.
    - Contractor: Contractor/Contractor.h, all of it. WitnessSearch,
      Independence, ContractionRound, Hierarchy, Rounds, Renumbering, Flush,
      ContractorRun and ContractorInput prove its parts; ContractorTheorems
      has the properties.
    - Text, Json, RequestParser, RouteParameters, Server: Util/StringUtil.h,
      DataStructures/Coordinate.cpp, JSONContainer.h, Util/cast.hpp,
      Server/RequestParser.cpp, RouteParameters.cpp, Reply.cpp,
      RequestHandler.cpp, Connection.cpp, Library/OSRM_impl.cpp.
    - Geometry, Trigonometry, Hilbert: the distances and bearings of
      Coordinate.cpp, Util/MercatorUtil.h, TrigonometryTables.h,
      compute_angle.cpp, Azimuth.h, DataStructures/HilbertValue.cpp.
    - Routing, QuerySearch, DistanceTable: RoutingAlgorithms/
      BasicRoutingInterface.h, ManyToManyRouting.h, PhantomNodes.h, the
      accessors of InternalDataFacade.h.
    - ShortestPath, RouteSearch, RouteLeg, Unpacking: ShortestPathRouting.h,
      SearchEngineData, RawRouteData, the unpacking of paths and shortcuts.
    - AlternativeRoutes, AlternativeSearch, AlternativeTheorems:
      AlternativePathRouting.h, sort_unique_resize of Util/container.hpp.
    - Hsgr, EndToEnd: the hierarchy file of Contractor/Prepare.cpp, its reader
      in Util/GraphLoader.h, Util/FingerPrint, and the composition of the
      contraction, the file and the distance table.
    - Restrictions: DataStructures/Restriction.h, RestrictionMap.
    - GeometryCompressor: Contractor/GeometryCompressor and the loader of its
      file.
    - NodeBasedGraph, RoadGraph: DataStructures/NodeBasedGraph.h.
    - EdgeExpansion, Turns, Compression: Contractor/EdgeBasedGraphFactory,
      Algorithms/BFSComponentExplorer.h, EdgeBasedNode.h, OriginalEdgeData.h,
      TurnInstructions.h and the loader of the turn file.
    - Names: DataStructures/RangeTable.h and the file of street names.
    - Extraction: Extractor/ExtractorCallbacks.cpp, ExtractionContainers.cpp
      and the records of the extractor. Import: Util/GraphLoader.h and the
      steps of Prepare.cpp that read the files. RoadImport and
      RestrictionImport prove what the files carry over.
    - RTree, RTreeSearch, NearestRoads: DataStructures/StaticRTree.h, its
      construction, its three searches and their properties.
    - RouteGeometry, Descriptors: Algorithms/PolylineCompressor.cpp,
      DouglasPeucker.cpp, ExtractRouteNames.h, SegmentInformation.h, all of
      Descriptors/.
    - Plugins: all of Plugins/, against a record of the operations of the data
      facade, which [internal_facade] builds for InternalDataFacade.h.

    ** What the theorems show

    - Data structures: the heap refines a priority queue over any lawful
      storage, the hash storage keeps the last write of a key, the dynamic
      graph simulates a list of adjacency lists, the deallocating vector a
      list, and the static graph holds the edges it is built from.
    - Extraction: the callbacks store well-formed edges that lead where the
      accepted ways do; the nodes, roads, restrictions and names that are
      written to files are the ones the next program reads, and the graph built
      from them has an edge exactly where an extracted edge leads.
    - Preprocessing: the graph of the roads has the lightest road of every pair
      of nodes; the compression keeps every road on exactly one chain and the
      chain's nodes as geometry; the edge expansion makes one edge per permitted
      turn; the restriction index answers as the list of restrictions; the
      files of geometries and turns are read back as they were written.
    - Contraction: a witness search never reports a path that is not there, a
      set of independent nodes can be contracted in parallel, every round and
      the whole run keep all distances, the renumbering of the flush keeps all
      arcs, and a pair of nodes with a bad tie break never ends.
    - Queries: the distance table has the shortest distances of the graph that
      was contracted, also after the hierarchy went through its file; a route
      of two points has the least length and its unpacked edges are edges of the
      input; shortcuts unpack completely; a query for alternatives returns the
      same shortest route, and an alternative that is a path of the length
      reported for it.
    - Nearest roads: the R-tree holds exactly the road pieces, in rectangles
      that contain them; the incremental query returns what a scan of all road
      pieces by distance selects. The Hilbert code is injective.
    - Descriptions: an encoded polyline decodes to the points that were kept,
      the simplification keeps what it must and nothing it need not, the
      durations of the instructions add up, and a table request is answered
      with the shortest distances.
    - Server: the request parser accepts exactly its grammar and does not
      depend on how a request is cut into packets; the renderers of JSON agree
      and can be read back; replies have the right length; parameters stay in
      range.
    - Counterexamples: where the code does something its authors did not
      intend, a theorem shows it on a concrete input.

    ** Not modelled

    The parsers of OpenStreetMap data (protobuf, XML, Lua profiles) and the API
    grammar, which are written in the languages of external libraries; the
    analysis of strongly connected components; the base64 text of hints and the checksum, made by Boost and by a processor
    instruction; shared memory and its processes; the command line programs,
    logging and benchmarks. The reading constructors of the R-tree map a file
    into memory; its search with distances calls a member that does not exist
    and is never instantiated. *)

From stdpp Require Export base numbers list gmap option sets sorting.
From Stdlib Require Export NArith ZArith Lia.

#[global] Set Default Proof Using "Type".

(** ** Machine integers

    [unsigned], [NodeID], [EdgeID] and [std::size_t] values are [N]; 32-bit
    wrap-around is written with [u32]. [int] values are [Z]; signed overflow
    is undefined behaviour and is an error value of the checked operations. *)

Declare Scope cxx_scope.
Delimit Scope cxx_scope with cxx.

Definition u32 (x : N) : N := (x mod 4294967296)%N.

Definition u16 (x : N) : N := (x mod 65536)%N.

Definition u8 (x : N) : N := (x mod 256)%N.

Definition UINT_MAX : N := 4294967295%N.

Definition INT_MAX : Z := 2147483647%Z.

Definition INT_MIN : Z := (-2147483648)%Z.

(** Unsigned 32-bit addition and subtraction. *)
Definition uadd (x y : N) : N := u32 (x + y).

Definition usub (x y : N) : N := u32 (x + 4294967296 - y).

Definition in_i32 (z : Z) : bool := ((INT_MIN <=? z) && (z <=? INT_MAX))%Z.

(** A signed result: [None] when it leaves the range of [int]. *)
Definition i32 (z : Z) : option Z := if in_i32 z then Some z else None.

Definition iadd (x y : Z) : option Z := i32 (x + y)%Z.

Definition isub (x y : Z) : option Z := i32 (x - y)%Z.

(** Conversion of an unsigned value to [int] (two's complement). *)
Definition to_int (x : N) : Z :=
  if (u32 x <? 2147483648)%N then Z.of_N (u32 x) else (Z.of_N (u32 x) - 4294967296)%Z.

(** Conversion of an [int] to [unsigned]. *)
Definition of_int (z : Z) : N := Z.to_N (z mod 4294967296)%Z.

(** ** Vectors

    A [std::vector] is a list; an access out of range is undefined
    behaviour and is the error value [None] of the option monad. *)

Definition vsize {A} (l : list A) : N := N.of_nat (length l).

Definition vget {A} (l : list A) (i : N) : option A :=
  if (i <? vsize l)%N then l !! N.to_nat i else None.

Definition vset {A} (l : list A) (i : N) (x : A) : option (list A) :=
  if (i <? vsize l)%N then Some (<[N.to_nat i := x]> l) else None.

(** [l[i] = f(l[i])]. *)
Definition vupd {A} (l : list A) (i : N) (f : A -> A) : option (list A) :=
  x ← vget l i; vset l i (f x).

(** [l.back()] and [l.pop_back()]. *)
Definition vback {A} (l : list A) : option A := last l.

Definition vpop {A} (l : list A) : list A := take (length l - 1) l.

(** [l.resize(n, x)]. *)
Definition vresize {A} (l : list A) (n : N) (x : A) : list A :=
  take (N.to_nat n) l ++ replicate (N.to_nat n - length l) x.

(** A [for] loop over [l] with loop state [s]. *)
Fixpoint fold_m {S A} (f : S -> A -> option S) (s : S) (l : list A) : option S :=
  match l with
  | [] => Some s
  | x :: l' => s' ← f s x; fold_m f s' l'
  end.

(** [std::unique] and [erase]: drop an element equal to its predecessor. *)
Fixpoint unique (l : list N) : list N :=
  match l with
  | x :: ((y :: _) as l') => if (x =? y)%N then unique l' else x :: unique l'
  | _ => l
  end.

(** [std::sort] on node ids: equal elements are indistinguishable. *)
Definition sort_ids (l : list N) : list N := merge_sort N.le l.

(** ** Tactics *)

Ltac unfold_ints :=
  unfold uadd, usub, u32, u16, u8, UINT_MAX, INT_MAX, INT_MIN in *.

(** Break the goal's or a hypothesis' [option] binds one at a time. *)
Ltac inv_bind H :=
  repeat match type of H with
  | (?o ≫= _) = Some _ =>
      let x := fresh "x" in let E := fresh "E" in
      destruct o as [x|] eqn:E; cbn in H; [|discriminate H]
  | Some _ = Some _ => injection H as H
  end.

Ltac case_ltb :=
  match goal with
  | |- context [(?a <? ?b)%N] => destruct (N.ltb_spec a b)
  | H : context [(?a <? ?b)%N] |- _ => destruct (N.ltb_spec a b)
  | |- context [(?a <=? ?b)%N] => destruct (N.leb_spec a b)
  | H : context [(?a <=? ?b)%N] |- _ => destruct (N.leb_spec a b)
  | |- context [(?a =? ?b)%N] => destruct (N.eqb_spec a b)
  | H : context [(?a =? ?b)%N] |- _ => destruct (N.eqb_spec a b)
  | |- context [(?a <? ?b)%Z] => destruct (Z.ltb_spec a b)
  | H : context [(?a <? ?b)%Z] |- _ => destruct (Z.ltb_spec a b)
  | |- context [(?a <=? ?b)%Z] => destruct (Z.leb_spec a b)
  | H : context [(?a <=? ?b)%Z] |- _ => destruct (Z.leb_spec a b)
  | |- context [(?a =? ?b)%Z] => destruct (Z.eqb_spec a b)
  | H : context [(?a =? ?b)%Z] |- _ => destruct (Z.eqb_spec a b)
  end.

(** Prove a permutation by an equality. *)
Ltac perm_eq :=
  match goal with |- ?a ≡ₚ ?b =>
    let H := fresh in enough (a = b) as H by (rewrite H; reflexivity) end.

Create HintDb cxx.
Create Rewrite HintDb cxx.

(** ** Lemmas on machine integers *)

Lemma u32_small x : (x < 4294967296)%N -> u32 x = x.
Proof. apply N.mod_small. Qed.

Lemma u32_lt x : (u32 x < 4294967296)%N.
Proof. by apply N.mod_lt. Qed.

Lemma uadd_small x y : (x + y < 4294967296)%N -> uadd x y = (x + y)%N.
Proof. apply u32_small. Qed.

Lemma usub_small x y : (y <= x)%N -> (x < 4294967296)%N -> usub x y = (x - y)%N.
Proof.
  intros ??. unfold usub, u32.
  replace (x + 4294967296 - y)%N with ((x - y) + 1 * 4294967296)%N by lia.
  rewrite N.Div0.mod_add. apply N.mod_small. lia.
Qed.

Lemma i32_Some z : (INT_MIN <= z <= INT_MAX)%Z -> i32 z = Some z.
Proof.
  intros ?. unfold i32, in_i32. repeat case_ltb; simpl; try done; lia.
Qed.

Lemma i32_inv z y : i32 z = Some y -> y = z /\ (INT_MIN <= z <= INT_MAX)%Z.
Proof.
  unfold i32, in_i32. repeat case_ltb; simpl; naive_solver lia.
Qed.

Lemma iadd_Some x y : (INT_MIN <= x + y <= INT_MAX)%Z -> iadd x y = Some (x + y)%Z.
Proof. apply i32_Some. Qed.

Lemma iadd_inv x y z : iadd x y = Some z -> z = (x + y)%Z /\ (INT_MIN <= z <= INT_MAX)%Z.
Proof. intros [-> ?]%i32_inv. done. Qed.

(** ** Lemmas on vectors *)

Section vectors.
  Context {A : Type}.
  Implicit Types l : list A.

Lemma vget_lookup l i : vget l i = l !! N.to_nat i.
Proof.
  unfold vget, vsize. case_ltb; [done|].
  symmetry. apply lookup_ge_None. lia.
Qed.

Lemma vget_Some_lt l i x : vget l i = Some x -> (i < vsize l)%N.
Proof. unfold vget. case_ltb; [done|discriminate]. Qed.

Lemma vget_lt l i : (i < vsize l)%N -> is_Some (vget l i).
Proof. intros ?. rewrite vget_lookup. apply lookup_lt_is_Some. unfold vsize in *. lia. Qed.

Lemma vset_lt l i x : (i < vsize l)%N -> vset l i x = Some (<[N.to_nat i := x]> l).
Proof. intros ?. unfold vset. case_ltb; [done|lia]. Qed.

Lemma vset_Some l i x l' :
  vset l i x = Some l' -> (i < vsize l)%N /\ l' = <[N.to_nat i := x]> l.
Proof. unfold vset. case_ltb; naive_solver. Qed.

Lemma vupd_lookup l i f x :
  l !! N.to_nat i = Some x -> vupd l i f = Some (<[N.to_nat i := f x]> l).
Proof.
  intros Hl. unfold vupd. rewrite vget_lookup, Hl. simpl. apply vset_lt.
  apply lookup_lt_Some in Hl. unfold vsize. lia.
Qed.

Lemma vsize_insert l i x : vsize (<[i := x]> l) = vsize l.
Proof. unfold vsize. by rewrite length_insert. Qed.

Lemma vsize_app l1 l2 : vsize (l1 ++ l2) = (vsize l1 + vsize l2)%N.
Proof. unfold vsize. rewrite length_app. lia. Qed.

Lemma lookup_insert_nat l i j x :
  <[i := x]> l !! j = if decide (i = j ∧ j < length l) then Some x else l !! j.
Proof.
  case_decide as Hd.
  - destruct Hd as [-> ?]. by apply list_lookup_insert_eq.
  - destruct (decide (i = j)) as [->|].
    + rewrite list_insert_ge; [done|]. naive_solver lia.
    + by apply list_lookup_insert_ne.
Qed.
End vectors.

#[export] Hint Rewrite @vget_lookup @vsize_insert @vsize_app @length_insert : cxx.

Section vector_access.
  Context {A : Type}.
  Implicit Types l : list A.

Lemma vupd_lt l i f :
  (i < vsize l)%N -> vupd l i f = Some (alter f (N.to_nat i) l).
Proof.
  intros Hi. destruct (vget_lt l i Hi) as [x Hx]. rewrite vget_lookup in Hx.
  rewrite (vupd_lookup l i f x Hx). f_equal.
  apply list_eq. intros j. rewrite lookup_insert_nat. apply lookup_lt_Some in Hx as Hlt.
  destruct (decide (N.to_nat i = j)) as [<-|Hne].
  - rewrite list_lookup_alter_eq, Hx. by case_decide; [|lia].
  - rewrite list_lookup_alter_ne by done. by case_decide; [lia|].
Qed.

Lemma vget_insert l i j x :
  vget (<[N.to_nat i := x]> l) j = if decide (i = j ∧ (j < vsize l)%N) then Some x else vget l j.
Proof.
  rewrite !vget_lookup, lookup_insert_nat. unfold vsize.
  repeat case_decide; try done; lia.
Qed.

Lemma vget_alter l i j f :
  vget (alter f (N.to_nat i) l) j = if decide (i = j) then f <$> vget l j else vget l j.
Proof.
  rewrite !vget_lookup. case_decide as Hd.
  - subst. apply list_lookup_alter_eq.
  - apply list_lookup_alter_ne. lia.
Qed.

Lemma vsize_alter l i f : vsize (alter f i l) = vsize l.
Proof. unfold vsize. by rewrite length_alter. Qed.

Lemma vget_app l1 l2 i :
  vget (l1 ++ l2) i = if decide (i < vsize l1)%N then vget l1 i else vget l2 (i - vsize l1).
Proof.
  rewrite !vget_lookup. unfold vsize. case_decide.
  - apply lookup_app_l. lia.
  - rewrite lookup_app_r by lia. f_equal. lia.
Qed.

Lemma vget_snoc l x i :
  vget (l ++ [x]) i = if decide (i = vsize l) then Some x else vget l i.
Proof.
  rewrite vget_app. repeat case_decide; try lia; try done.
  - subst. by replace (vsize l - vsize l)%N with 0%N by lia.
  - rewrite !vget_lookup. unfold vsize in *.
    rewrite !(proj2 (lookup_ge_None _ _)); [done|lia|simpl; lia].
Qed.

Lemma list_eq_vget l l' : (forall i, vget l i = vget l' i) -> l = l'.
Proof.
  intros Hi. apply list_eq. intros i. specialize (Hi (N.of_nat i)).
  by rewrite !vget_lookup, Nat2N.id in Hi.
Qed.

#[export] Instance vsize_proper : Proper (Permutation ==> eq) (@vsize A).
Proof. intros l l' Hp. unfold vsize. by rewrite Hp. Qed.

Lemma alter_self l i f x : vget l i = Some x -> f x = x -> alter f (N.to_nat i) l = l.
Proof.
  rewrite vget_lookup. intros Hl Hf. apply list_eq. intros j.
  destruct (decide (N.to_nat i = j)) as [<-|Hne].
  - by rewrite list_lookup_alter_eq, Hl; simpl; rewrite Hf.
  - by rewrite list_lookup_alter_ne.
Qed.

Lemma insert_alter l i f x :
  vget l i = Some x -> <[N.to_nat i := f x]> l = alter f (N.to_nat i) l.
Proof.
  rewrite vget_lookup. intros Hl. apply lookup_lt_Some in Hl as Hlt. apply list_eq. intros j.
  destruct (decide (N.to_nat i = j)) as [<-|Hne].
  - by rewrite list_lookup_alter_eq, Hl, list_lookup_insert_eq.
  - by rewrite list_lookup_alter_ne, list_lookup_insert_ne.
Qed.

Lemma vget_nil i : vget (@nil A) i = None.
Proof. by rewrite vget_lookup, lookup_nil. Qed.

Lemma vget_None l i : (vsize l <= i)%N -> vget l i = None.
Proof. intros ?. unfold vget. case_ltb; [lia|done]. Qed.
End vector_access.

Lemma vget_fmap {A B} (f : A -> B) l i : vget (f <$> l) i = f <$> vget l i.
Proof. rewrite !vget_lookup. apply list_lookup_fmap. Qed.

Create Rewrite HintDb vec.
#[export] Hint Rewrite @vget_insert @vget_alter @vsize_insert @vsize_alter @vsize_app : vec.

(** ** Loops *)

Section loops.
  Context {S A : Type}.

Lemma fold_m_app (f : S -> A -> option S) s l1 l2 :
  fold_m f s (l1 ++ l2) = (s' ← fold_m f s l1; fold_m f s' l2).
Proof.
  revert s. induction l1 as [|x l1 IH]; intros s; [done|]. simpl.
  destruct (f s x); simpl; [apply IH|done].
Qed.

(** A loop invariant [P] over the elements already handled. *)
Lemma fold_m_ind (f : S -> A -> option S) (P : list A -> S -> Prop) l s0 :
  P [] s0 ->
  (forall pre x post s, l = pre ++ x :: post -> P pre s ->
     exists s', f s x = Some s' /\ P (pre ++ [x]) s') ->
  exists s', fold_m f s0 l = Some s' /\ P l s'.
Proof.
  intros H0 Hstep. assert (forall pre post s, l = pre ++ post -> P pre s ->
    exists s', fold_m f s post = Some s' /\ P l s') as Hgen.
  { intros pre post. revert pre. induction post as [|x post IH]; intros pre s Hl HP.
    - exists s. rewrite app_nil_r in Hl. by subst.
    - destruct (Hstep pre x post s Hl HP) as (s1 & Hf & HP1). cbn [fold_m]. rewrite Hf.
      cbn [mbind option_bind]. apply (IH (pre ++ [x])); [|done]. by rewrite <- app_assoc. }
  by apply (Hgen [] l s0).
Qed.

(** An invariant over the elements still to come. *)
Lemma fold_m_partial (f : S -> A -> option S) (P : list A -> S -> Prop) l : forall s s',
  P l s -> (forall x post s s', P (x :: post) s -> f s x = Some s' -> P post s') ->
  fold_m f s l = Some s' -> P [] s'.
Proof.
  induction l as [|x l IH]; intros s s' HP Hf; cbn [fold_m]; [by intros [= <-]|].
  destruct (f s x) as [s1|] eqn:E; [|done]. cbn [mbind option_bind]. apply IH; [by eapply Hf|done].
Qed.

(** A loop that keeps a property as long as it runs. *)
Lemma fold_m_inv (f : S -> A -> option S) (P : S -> Prop) l s s' :
  P s -> (forall x s s', x ∈ l -> P s -> f s x = Some s' -> P s') -> fold_m f s l = Some s' -> P s'.
Proof.
  intros HP Hf. apply (fold_m_partial f (fun post s => P s /\ (forall x, x ∈ post -> x ∈ l)) l s s').
  - done.
  - intros x post s1 s2 [HP1 Hin] Hrun. split; [eapply Hf; [|done|done]; apply Hin; by left|].
    intros y Hy. apply Hin. by right.
Qed.

Lemma fold_m_Forall2 {B} (R : A -> B -> Prop) (f : S -> A -> option S) (f' : S -> B -> option S) l l' :
  Forall2 R l l' -> (forall s x y, R x y -> f s x = f' s y) -> forall s, fold_m f s l = fold_m f' s l'.
Proof.
  intros HR Hf. induction HR as [|x y l l' Hxy HR IH]; intros s; [done|].
  cbn [fold_m]. rewrite (Hf s x y Hxy). destruct (f' s y); [apply IH|done].
Qed.
End loops.

(** ** Sorted ids *)

Lemma elem_of_unique x l : x ∈ unique l <-> x ∈ l.
Proof.
  induction l as [|y l IH]; [done|]. destruct l as [|z l]; [done|]. cbn [unique].
  destruct (N.eqb_spec y z) as [->|Hne].
  - rewrite IH. set_solver.
  - rewrite !elem_of_cons in *. tauto.
Qed.

Lemma elem_of_sort_ids x l : x ∈ sort_ids l <-> x ∈ l.
Proof. unfold sort_ids. by rewrite merge_sort_Permutation. Qed.

Lemma length_unique l : (length (unique l) <= length l)%nat.
Proof.
  induction l as [|y l IH]; [done|]. destruct l as [|z l]; [done|].
  change (unique (y :: z :: l)) with (if (y =? z)%N then unique (z :: l) else y :: unique (z :: l)).
  destruct (y =? z)%N; cbn [length] in *; lia.
Qed.

(** Distinct numbers below a bound. *)
Lemma NoDup_bounded (l : list N) n : NoDup l -> (forall x, x ∈ l -> (x < n)%N) -> (vsize l <= n)%N.
Proof.
  intros Hnd Hlt. assert (length l <= length (N.of_nat <$> seq 0 (N.to_nat n)))%nat as Hlen.
  { apply NoDup_incl_length; [by apply NoDup_ListNoDup|]. intros x Hx%list_elem_of_In. apply list_elem_of_In, list_elem_of_fmap.
    exists (N.to_nat x). rewrite elem_of_seq. specialize (Hlt x Hx). split; lia. }
  rewrite length_fmap, length_seq in Hlen. unfold vsize. lia.
Qed.
