(* ===== verification/Types.v ===== *)
(** * Shared types of the backend

    The identifier constants of typedefs.h and the integer ranges of
    DataStructures/Range.h, which every loop over edges or nodes uses. *)

From S2P Require Import Prelude.

(** ** typedefs.h *)

Definition SPECIAL_NODEID : N := UINT_MAX.

Definition SPECIAL_EDGEID : N := UINT_MAX.

Definition INVALID_NAMEID : N := UINT_MAX.

Definition INVALID_EDGE_WEIGHT : Z := INT_MAX.

(** ** osrm::range

    A range is its own iterator: it holds the current value [r_iter] and the
    end [r_last]; the loop condition is [r_iter < r_last]. *)

Record range := Range { r_iter : N; r_last : N }.

Definition range_ne (r : range) : bool := (r_iter r <? r_last r)%N.

Definition range_incr (r : range) : range := Range (u32 (r_iter r + 1)) (r_last r).

Definition range_front (r : range) : N := r_iter r.

Definition range_back (r : range) : N := usub (r_last r) 1.

(** The values a range-based [for] loop visits. [fuel] bounds the number of
    iterations; [r_last - r_iter] of them are always enough. *)
Fixpoint range_loop (fuel : nat) (r : range) : list N :=
  match fuel with
  | O => []
  | S fuel' => if range_ne r then r_iter r :: range_loop fuel' (range_incr r) else []
  end.

Definition range_list (r : range) : list N :=
  range_loop (N.to_nat (r_last r - r_iter r)) r.

Definition irange (first last_ : N) : list N := range_list (Range first last_).

(** ** Lemmas on ranges *)

Lemma range_loop_lookup fuel a b k :
  (b < 4294967296)%N ->
  range_loop fuel (Range a b) !! k =
    if decide (k < fuel ∧ (a + N.of_nat k < b)%N) then Some (a + N.of_nat k)%N else None.
Proof.
  intros Hb. revert a k. induction fuel as [|fuel IH]; intros a k; cbn [range_loop].
  { case_decide; [lia|done]. }
  unfold range_ne, range_incr. cbn [r_iter r_last]. case_ltb.
  - destruct k as [|k]; cbn [lookup list_lookup].
    + case_decide; [f_equal; lia|lia].
    + rewrite u32_small by lia. rewrite IH. repeat case_decide; try lia; try done. f_equal; lia.
  - case_decide; [lia|done].
Qed.

Lemma irange_lookup a b k :
  (b < 4294967296)%N ->
  irange a b !! k = if decide (a + N.of_nat k < b)%N then Some (a + N.of_nat k)%N else None.
Proof.
  intros Hb. unfold irange, range_list. rewrite range_loop_lookup by done. cbn [r_iter r_last].
  repeat case_decide; try lia; done.
Qed.

Lemma length_irange a b : (b < 4294967296)%N -> length (irange a b) = N.to_nat (b - a).
Proof.
  intros Hb. apply Nat.le_antisymm; apply Nat.nlt_ge; intros Hlt.
  - apply lookup_lt_is_Some in Hlt as [x Hx]. rewrite irange_lookup in Hx by done.
    case_decide; [lia|done].
  - destruct (irange a b !! length (irange a b)) as [x|] eqn:E.
    + apply lookup_lt_Some in E. lia.
    + rewrite irange_lookup in E by done. case_decide; [done|lia].
Qed.

Lemma elem_of_irange a b i :
  (b < 4294967296)%N -> i ∈ irange a b <-> (a <= i < b)%N.
Proof.
  intros Hb. rewrite list_elem_of_lookup. split.
  - intros [k Hk]. rewrite irange_lookup in Hk by done. case_decide; naive_solver lia.
  - intros ?. exists (N.to_nat (i - a)). rewrite irange_lookup by done.
    case_decide; [f_equal; lia|lia].
Qed.

Lemma irange_nil a b : (b <= a)%N -> irange a b = [].
Proof. intros ?. unfold irange, range_list. simpl. by replace (b - a)%N with 0%N by lia. Qed.

Lemma irange_cons a b :
  (a < b)%N -> (b < 4294967296)%N -> irange a b = a :: irange (a + 1) b.
Proof.
  intros ??. apply list_eq. intros [|k]; simpl; rewrite ?irange_lookup by done.
  - case_decide; [f_equal; lia|lia].
  - repeat case_decide; try lia; [|done]. f_equal; lia.
Qed.

Lemma NoDup_irange a b : (b < 4294967296)%N -> NoDup (irange a b).
Proof.
  intros ?. apply NoDup_alt. intros i j x. rewrite !irange_lookup by done.
  repeat case_decide; intros [=] [=]; lia.
Qed.

Lemma to_int_small x : (x < 2147483648)%N -> to_int x = Z.of_N x.
Proof. intros ?. unfold to_int. rewrite u32_small by lia. case_ltb; [done|lia]. Qed.

Lemma of_int_nonneg z : (0 <= z < 4294967296)%Z -> of_int z = Z.to_N z.
Proof. intros ?. unfold of_int. by rewrite Z.mod_small by lia. Qed.

Lemma to_int_of_int z : (INT_MIN <= z <= INT_MAX)%Z -> to_int (of_int z) = z.
Proof.
  unfold to_int, of_int, INT_MIN, INT_MAX, u32. intros Hz. rewrite N.mod_small by (pose proof (Z.mod_pos_bound z 4294967296); lia).
  destruct (decide (0 <= z)%Z).
  - rewrite Z.mod_small by lia. destruct (N.ltb_spec (Z.to_N z) 2147483648); lia.
  - replace (z mod 4294967296)%Z with (z + 4294967296)%Z by (rewrite <- (Z.mod_add z 1) by lia; rewrite Z.mod_small; lia).
    destruct (N.ltb_spec (Z.to_N (z + 4294967296)) 2147483648); lia.
Qed.

(** A loop over a range, with an invariant for the counter. *)
Lemma fold_m_irange {S} (f : S -> N -> option S) (P : N -> S -> Prop) a b s : (a <= b)%N -> (b < 4294967296)%N -> P a s ->
  (forall k s, (a <= k < b)%N -> P k s -> exists s', f s k = Some s' /\ P (k + 1)%N s') ->
  exists s', fold_m f s (irange a b) = Some s' /\ P b s'.
Proof.
  intros Hab Hb Ha Hstep. assert (forall n k s, (a <= k <= b)%N -> N.to_nat (b - k) = n -> P k s ->
    exists s', fold_m f s (irange k b) = Some s' /\ P b s') as H; [|by apply (H (N.to_nat (b - a)) a); [lia|done|]].
  intros n. induction n as [|n IH]; intros k s0 Hk Hn Hs.
  - assert (k = b) as -> by lia. rewrite irange_nil by lia. by exists s0.
  - rewrite irange_cons by lia. cbn [fold_m]. destruct (Hstep k s0 ltac:(lia) Hs) as (s1 & -> & H1). cbn [mbind option_bind].
    apply IH; [lia|lia|done].
Qed.
