(* ===== verification/Float32.v ===== *)
(** * Floating point numbers

    [float] and [double] with the operations the code uses, as the IEEE 754
    numbers of the Standard Library. *)

From Stdlib Require Import Floats.SpecFloat.
From S2P Require Import Prelude.

(** [float] is binary32: precision 24 and maximal exponent 128. *)
Abbreviation float := spec_float.
Definition fadd : float -> float -> float := SFadd 24 128.
Definition fsub : float -> float -> float := SFsub 24 128.
Definition fmul : float -> float -> float := SFmul 24 128.
Definition fdiv : float -> float -> float := SFdiv 24 128.
Definition fltb : float -> float -> bool := SFltb.

(** The conversion from [int]. *)
Definition float_of_int (z : Z) : float := binary_normalize 24 128 z 0 false.

(** [std::numeric_limits<float>::epsilon()], 2^-23. *)
Definition float_epsilon : float := S754_finite false 8388608 (-46).

(** [double] is binary64. *)
Abbreviation double := spec_float.
Definition dmul : double -> double -> double := SFmul 53 1024.
Definition dadd : double -> double -> double := SFadd 53 1024.
Definition dsub : double -> double -> double := SFsub 53 1024.
Definition ddiv : double -> double -> double := SFdiv 53 1024.
Definition double_of_int (z : Z) : double := binary_normalize 53 1024 z 0 false.
Definition dzero : double := S754_zero false.

(** [std::numeric_limits<double>::epsilon()], 2^-52, and the largest [float]. *)
Definition double_epsilon : double := S754_finite false 4503599627370496 (-104).
Definition float_max : float := S754_finite false 16777215 104.

(** A [float] as a [double], and the rounding of a [double] to a [float]. *)
Definition to_double (x : float) : double :=
  match x with S754_finite s m e => binary_normalize 53 1024 (if s then Z.neg m else Z.pos m) e s | _ => x end.

Definition to_float (x : double) : float :=
  match x with S754_finite s m e => binary_normalize 24 128 (if s then Z.neg m else Z.pos m) e s | _ => x end.

(** [std::isnan], [std::min] and [std::max]. *)
Definition is_nan (x : spec_float) : bool := match x with S754_nan => true | _ => false end.
Definition fmin (a b : spec_float) : spec_float := if SFltb b a then b else a.
Definition fmax (a b : spec_float) : spec_float := if SFltb a b then b else a.

(** [static_cast<int>] of a floating point number: towards zero, undefined
    outside the range of [int]. *)
Definition truncate (f : spec_float) : option Z :=
  match f with
  | S754_zero _ => Some 0%Z
  | S754_finite s m e =>
      let a := Z.shiftl (Z.pos m) e in
      i32 (if s then (- a)%Z else a)
  | _ => None
  end.

(** [(int)std::floor(x)]. *)
Definition floor_int (x : double) : option Z :=
  match x with
  | S754_zero _ => Some 0%Z
  | S754_finite s m e => i32 (Z.shiftl (if s then Z.neg m else Z.pos m) e)
  | _ => None
  end.

(** [round]: to the nearest integer, halves away from zero. *)
Definition round_away (prec emax : Z) (x : spec_float) : spec_float :=
  match x with
  | S754_finite s m e =>
      if (0 <=? e)%Z then x
      else let z := ((Z.pos m + 2 ^ (- e - 1)) / 2 ^ (- e))%Z in binary_normalize prec emax (if s then (- z)%Z else z) 0 s
  | _ => x
  end.
Definition fround : float -> float := round_away 24 128.
Definition dround : double -> double := round_away 53 1024.

(** [static_cast<unsigned>] of a floating point number. *)
Definition to_unsigned (x : spec_float) : option N :=
  match x with
  | S754_zero _ => Some 0%N
  | S754_finite s m e =>
      let a := Z.shiftl (Z.pos m) e in
      if s then (if (a =? 0)%Z then Some 0%N else None) else if (a <? 4294967296)%Z then Some (Z.to_N a) else None
  | _ => None
  end.

(** ** The order *)

(** The numbers in their order; a NaN is not in it. *)
Definition rank (x : spec_float) : Z * Z * Z :=
  match x with
  | S754_zero _ => (0, 0, 0)%Z
  | S754_infinity s => (if s then -2 else 2, 0, 0)%Z
  | S754_nan => (3, 0, 0)%Z
  | S754_finite s m e => if s then (-1, - e, Z.neg m)%Z else (1, e, Z.pos m)%Z
  end.

Definition rank_le (x y : spec_float) : Prop :=
  let '(a, b, c) := rank x in let '(a', b', c') := rank y in (a < a' \/ a = a' /\ (b < b' \/ b = b' /\ c <= c'))%Z.

#[export] Instance rank_le_dec x y : Decision (rank_le x y).
Proof. unfold rank_le. destruct (rank x) as [[a b] c], (rank y) as [[a' b'] c']. apply _. Defined.

#[export] Instance rank_le_trans : Transitive rank_le.
Proof. intros x y z. unfold rank_le. destruct (rank x) as [[a b] c], (rank y) as [[a' b'] c'], (rank z) as [[a2 b2] c2]. lia. Qed.

#[export] Instance rank_le_total : Total rank_le.
Proof. intros x y. unfold rank_le. destruct (rank x) as [[a b] c], (rank y) as [[a' b'] c']. lia. Qed.

Lemma SFcompare_rank x y : is_nan x = false -> is_nan y = false ->
  match SFcompare x y with
  | Some Lt => rank_le x y /\ ~ rank_le y x
  | Some Eq => rank_le x y /\ rank_le y x
  | Some Gt => ~ rank_le x y /\ rank_le y x
  | None => False
  end.
Proof.
  intros Hx Hy. destruct x as [[]|[]| |[] m e], y as [[]|[]| |[] m' e']; try done; unfold rank_le; cbn; try lia;
    change (Pos.compare_cont Eq m m') with (Pos.compare m m');
    destruct (Z.compare_spec e e'); try lia; destruct (Pos.compare_spec m m'); cbn; lia.
Qed.

Lemma SFltb_rank x y : SFltb x y = true <-> is_nan x = false /\ is_nan y = false /\ ~ rank_le y x.
Proof.
  destruct (is_nan x) eqn:Hx; [destruct x; try done; split; [by destruct y|by intros [? _]]|].
  destruct (is_nan y) eqn:Hy; [destruct y; try done; split; [by destruct x as [| | |[]]|by intros (_ & ? & _)]|].
  unfold SFltb. pose proof (SFcompare_rank x y Hx Hy). destruct (SFcompare x y) as [[]|]; intuition congruence.
Qed.

Lemma SFleb_rank x y : SFleb x y = true <-> is_nan x = false /\ is_nan y = false /\ rank_le x y.
Proof.
  destruct (is_nan x) eqn:Hx; [destruct x; try done; split; [by destruct y|by intros [? _]]|].
  destruct (is_nan y) eqn:Hy; [destruct y; try done; split; [by destruct x as [| | |[]]|by intros (_ & ? & _)]|].
  unfold SFleb. pose proof (SFcompare_rank x y Hx Hy). destruct (SFcompare x y) as [[]|]; intuition congruence.
Qed.
