(* ===== verification/FloatBounds.v ===== *)
(** * Bounds on floating point numbers

    An [int] is a [double] exactly, and the quotient of an [int] and a number
    of at least 1 + 2^-50 is truncated to an [int] that is not larger. *)

From Stdlib Require Import Floats.SpecFloat.
From S2P Require Import Prelude Float32.

(** ** Digits *)

Lemma digits_size p : digits2_pos p = Pos.size p.
Proof. induction p as [p IH|p IH|]; cbn; by rewrite ?IH. Qed.

Lemma digits_upper m k : (0 <= k -> 0 <= m < 2 ^ k -> Zdigits2 m <= k)%Z.
Proof.
  intros Hk [Hm Hlt]. destruct m as [|p|p]; [done| |lia]. cbn [Zdigits2]. rewrite digits_size. pose proof (Pos.size_le p) as Hs.
  apply Z.lt_succ_r, (Z.pow_lt_mono_r_iff 2); [lia|lia|]. apply Pos2Z.pos_le_pos in Hs. rewrite Pos2Z.inj_pow in Hs.
  rewrite Z.pow_succ_r by done. lia.
Qed.

Lemma digits_lower m k : (0 < k -> 2 ^ (k - 1) <= m -> k <= Zdigits2 m)%Z.
Proof.
  intros Hk Hle. assert (0 < 2 ^ (k - 1))%Z by (apply Z.pow_pos_nonneg; lia). destruct m as [|p|p]; [lia| |lia]. cbn [Zdigits2]. rewrite digits_size.
  pose proof (Pos.size_gt p) as Hs. apply Pos2Z.pos_lt_pos in Hs. rewrite Pos2Z.inj_pow in Hs.
  assert (k - 1 < Z.pos (Pos.size p))%Z; [|lia]. apply (Z.pow_lt_mono_r_iff 2); lia.
Qed.

Lemma iter_double p n : Z.pos (Pos.iter xO p n) = (Z.pos p * 2 ^ Z.pos n)%Z.
Proof.
  revert p. induction n as [|n IH] using Pos.peano_ind; intros p; [cbn; lia|]. rewrite Pos.iter_succ, Pos2Z.inj_succ, Z.pow_succ_r by lia.
  change (Z.pos (Pos.iter xO p n)~0) with (2 * Z.pos (Pos.iter xO p n))%Z. rewrite IH. lia.
Qed.

(** ** Exact conversion *)

Lemma round_aux_exact s m e : (2 ^ 52 <= Z.pos m < 2 ^ 53)%Z -> (-1074 <= e <= 971)%Z -> binary_round_aux 53 1024 s (Z.pos m) e loc_Exact = S754_finite s m e.
Proof.
  intros Hm He. assert (Zdigits2 (Z.pos m) = 53%Z) as Hd by (apply Z.le_antisymm; [apply digits_upper; lia|apply digits_lower; lia]).
  assert (shr_fexp 53 1024 (Z.pos m) e loc_Exact = (shr_record_of_loc (Z.pos m) loc_Exact, e)) as Hs.
  { unfold shr_fexp. rewrite Hd. unfold fexp, SpecFloat.emin. replace (Z.max (53 + e - 53) (3 - 1024 - 53) - e)%Z with 0%Z by lia. done. }
  unfold binary_round_aux. rewrite Hs. cbn [shr_record_of_loc shr_m loc_of_shr_record round_nearest_even]. rewrite Hs. cbn [shr_record_of_loc shr_m].
  destruct (Z.leb_spec e (1024 - 53)); [done|lia].
Qed.

Lemma round_pos s p : (Z.pos p <= 2147483648)%Z -> exists m e, binary_round 53 1024 s p 0 = S754_finite s m e /\
  (2 ^ 52 <= Z.pos m < 2 ^ 53)%Z /\ (-52 <= e <= -21)%Z /\ Z.pos m = (Z.pos p * 2 ^ (- e))%Z.
Proof.
  intros Hp. set (d := Z.pos (digits2_pos p)). assert (1 <= d <= 32)%Z as Hd by (split; [lia|apply (digits_upper (Z.pos p)); lia]).
  assert (2 ^ (d - 1) <= Z.pos p < 2 ^ d)%Z as Hpd.
  { unfold d. rewrite digits_size. pose proof (Pos.size_gt p) as Hs. apply Pos2Z.pos_lt_pos in Hs. rewrite Pos2Z.inj_pow in Hs.
    pose proof (Pos.size_le p) as Hl. apply Pos2Z.pos_le_pos in Hl. rewrite Pos2Z.inj_pow in Hl. split; [|done].
    apply (Z.mul_le_mono_pos_l _ _ 2); [lia|]. rewrite <- Z.pow_succ_r by lia. replace (Z.succ (Z.pos (Pos.size p) - 1)) with (Z.pos (Pos.size p)) by lia. lia. }
  unfold binary_round. fold d. unfold fexp, SpecFloat.emin. replace (Z.max (d + 0 - 53) (3 - 1024 - 53)) with (d - 53)%Z by lia.
  unfold shl_align. destruct (d - 53 - 0)%Z as [|k|k] eqn:Ek; [lia|lia|].
  exists (Pos.iter xO p k), (d - 53)%Z. assert (Z.pos (Pos.iter xO p k) = Z.pos p * 2 ^ (53 - d))%Z as Hm.
  { rewrite iter_double. do 2 f_equal. lia. }
  assert (2 ^ 52 <= Z.pos (Pos.iter xO p k) < 2 ^ 53)%Z as Hrange.
  { rewrite Hm. replace (2 ^ 52)%Z with (2 ^ (d - 1) * 2 ^ (53 - d))%Z by (rewrite <- Z.pow_add_r by lia; f_equal; lia).
    replace (2 ^ 53)%Z with (2 ^ d * 2 ^ (53 - d))%Z by (rewrite <- Z.pow_add_r by lia; f_equal; lia).
    assert (0 < 2 ^ (53 - d))%Z by (apply Z.pow_pos_nonneg; lia). split; [apply Z.mul_le_mono_pos_r|apply Z.mul_lt_mono_pos_r]; lia. }
  split; [apply round_aux_exact; lia|]. split; [done|]. split; [lia|]. rewrite Hm. do 2 f_equal. lia.
Qed.

(** ** Rounding *)

Lemma iter_shr p : forall mrs, (0 <= shr_m mrs)%Z ->
  (0 <= shr_m (SpecFloat.iter_pos shr_1 p mrs) /\ shr_m (SpecFloat.iter_pos shr_1 p mrs) * 2 ^ Z.pos p <= shr_m mrs)%Z.
Proof.
  assert (forall mrs, 0 <= shr_m mrs -> 0 <= shr_m (shr_1 mrs) /\ shr_m (shr_1 mrs) * 2 <= shr_m mrs)%Z as Hone.
  { intros [m r t] Hm. cbn in Hm. destruct m as [|[q|q|]|]; cbn; lia. }
  induction p as [p IH|p IH|]; intros mrs Hm; cbn [SpecFloat.iter_pos].
  - destruct (Hone mrs Hm) as [H1 H1']. destruct (IH _ H1) as [H2 H2']. destruct (IH _ H2) as [H3 H3']. split; [done|].
    replace (Z.pos p~1) with (Z.pos p + Z.pos p + 1)%Z by lia. rewrite !Z.pow_add_r by lia. nia.
  - destruct (IH _ Hm) as [H2 H2']. destruct (IH _ H2) as [H3 H3']. split; [done|].
    replace (Z.pos p~0) with (Z.pos p + Z.pos p)%Z by lia. rewrite !Z.pow_add_r by lia. nia.
  - apply Hone, Hm.
Qed.

Lemma shr_m_record m l : shr_m (shr_record_of_loc m l) = m.
Proof. by destruct l as [|[]]. Qed.

(** What is shifted out to have 53 digits. *)
Lemma shr_fexp_le m e l : (0 <= m)%Z -> (-1074 <= e)%Z -> exists mrs k, shr_fexp 53 1024 m e l = (mrs, e + k)%Z /\
  (0 <= k <= Z.max 0 (Zdigits2 m - 53))%Z /\ (0 <= shr_m mrs)%Z /\ (shr_m mrs * 2 ^ k <= m)%Z.
Proof.
  intros Hm He. unfold shr_fexp, shr, fexp, SpecFloat.emin. destruct (Z.max (Zdigits2 m + e - 53) (3 - 1024 - 53) - e)%Z as [|p|p] eqn:Ek.
  1,3: exists (shr_record_of_loc m l), 0%Z; (split; [f_equal; lia|]); rewrite shr_m_record; change (2 ^ 0)%Z with 1%Z; lia.
  destruct (iter_shr p (shr_record_of_loc m l)) as [H0 H1]; [by rewrite shr_m_record|]. rewrite shr_m_record in H1.
  exists (SpecFloat.iter_pos shr_1 p (shr_record_of_loc m l)), (Z.pos p). split; [done|lia].
Qed.

Lemma round_aux_le s m e l : (0 <= m < 2 ^ 54)%Z -> (-1074 <= e <= 900)%Z ->
  binary_round_aux 53 1024 s m e l = S754_zero s \/
  exists M k, binary_round_aux 53 1024 s m e l = S754_finite s M (e + k) /\ (0 <= k <= 3)%Z /\ (Z.pos M * 2 ^ k <= m + 2)%Z.
Proof.
  intros Hm He. unfold binary_round_aux. destruct (shr_fexp_le m e l) as (r1 & k1 & -> & Hk1 & H1 & Hle1); [lia|lia|].
  pose proof (digits_upper m 54 ltac:(lia) Hm). assert (k1 = 0 \/ k1 = 1)%Z as Hcase by lia.
  set (m2 := round_nearest_even (shr_m r1) (loc_of_shr_record r1)).
  assert (shr_m r1 <= m2 <= shr_m r1 + 1)%Z as Hm2 by (unfold m2; destruct (loc_of_shr_record r1) as [|[]]; cbn; try destruct (Z.even (shr_m r1)); lia).
  assert (0 <= m2 < 2 ^ 55 /\ m2 * 2 ^ k1 <= m + 2)%Z as [Hr2 Hle2] by (destruct Hcase as [-> | ->]; cbn in *; lia).
  destruct (shr_fexp_le m2 (e + k1) loc_Exact) as (r2 & k2 & -> & Hk2 & H2 & Hle3); [lia|lia|]. pose proof (digits_upper m2 55 ltac:(lia) Hr2).
  destruct (shr_m r2) as [|M|M] eqn:EM; [by left| |lia]. right. exists M, (k1 + k2)%Z.
  destruct (Z.leb_spec (e + k1 + k2) (1024 - 53)); [|lia]. split; [by rewrite Z.add_assoc|]. split; [lia|].
  rewrite Z.pow_add_r by lia. assert (0 < 2 ^ k1)%Z by (apply Z.pow_pos_nonneg; lia). nia.
Qed.

(** ** Quotients *)

Section quotient.
  Context (c : positive).
  Hypothesis c_large : (2 ^ 52 + 4 <= Z.pos c < 2 ^ 53)%Z.
  #[local] Set Default Proof Using "All".

Lemma div_exact_le (s : bool) m e p : (2 ^ 52 <= Z.pos m < 2 ^ 53)%Z -> (-52 <= e <= -21)%Z -> Z.pos m = (Z.pos p * 2 ^ (- e))%Z ->
  (if s then Z.pos p <= 2147483648 else Z.pos p <= INT_MAX)%Z ->
  exists y, truncate (ddiv (S754_finite s m e) (S754_finite false c (-52))) = Some (if s then - y else y)%Z /\ (0 <= y <= Z.pos p)%Z.
Proof.
  intros Hm He Hp Hs. assert (forall x, 2 ^ 52 <= Z.pos x < 2 ^ 53 -> Zdigits2 (Z.pos x) = 53)%Z as Hdig.
  { intros x Hx. apply Z.le_antisymm; [apply digits_upper; lia|apply digits_lower; lia]. }
  unfold ddiv, SFdiv, SFdiv_core_binary. rewrite (Hdig m Hm), (Hdig c) by lia. unfold fexp, SpecFloat.emin.
  replace (Z.min (Z.max (53 + e - (53 + -52) - 53) (3 - 1024 - 53)) (e - -52))%Z with (e - 1)%Z by lia.
  replace (e - -52 - (e - 1))%Z with 53%Z by lia. rewrite Z.shiftl_mul_pow2 by lia.
  pose proof (Z.div_eucl_eq (Z.pos m * 2 ^ 53) (Z.pos c) ltac:(done)) as Heq. pose proof (Z.mod_pos_bound (Z.pos m * 2 ^ 53) (Z.pos c) ltac:(lia)) as Hmod.
  unfold Z.modulo in Hmod. destruct (Z.div_eucl (Z.pos m * 2 ^ 53) (Z.pos c)) as [q r]. rewrite xorb_false_r.
  assert (0 <= q)%Z as Hq0 by nia. assert (q + 2 <= 2 * Z.pos m)%Z as Hq by nia.
  destruct (round_aux_le s q (e - 1) (new_location (Z.pos c) r)) as [-> |(M & k & -> & Hk & HM)]; [lia|lia| |].
  { exists 0%Z. split; [by destruct s|lia]. }
  cbn [truncate]. assert (0 <= Z.shiftl (Z.pos M) (e - 1 + k) <= Z.pos p)%Z as Hy.
  { replace (e - 1 + k)%Z with (- (1 - e - k))%Z by lia. rewrite Z.shiftl_opp_r, Z.shiftr_div_pow2 by lia. assert (0 < 2 ^ (1 - e - k))%Z by (apply Z.pow_pos_nonneg; lia).
    split; [apply Z.div_pos; lia|]. apply Z.div_le_upper_bound; [lia|]. assert (0 < 2 ^ k)%Z by (apply Z.pow_pos_nonneg; lia).
    apply (Z.mul_le_mono_pos_r _ _ (2 ^ k)); [done|]. transitivity (2 * Z.pos m)%Z; [lia|]. rewrite Hp.
    rewrite (Z.mul_comm (2 ^ (1 - e - k))), <- Z.mul_assoc, <- Z.pow_add_r by lia. replace (1 - e - k + k)%Z with (1 + - e)%Z by lia. rewrite Z.pow_add_r by lia. lia. }
  exists (Z.shiftl (Z.pos M) (e - 1 + k)). split; [|done]. apply i32_Some. unfold INT_MIN, INT_MAX in *. destruct s; lia.
Qed.

(** The quotient of an [int] is truncated to an [int] between it and zero. *)
Lemma div_int_le x : (INT_MIN <= x <= INT_MAX)%Z ->
  exists y, truncate (ddiv (double_of_int x) (S754_finite false c (-52))) = Some y /\ (Z.min 0 x <= y <= Z.max 0 x)%Z.
Proof.
  unfold INT_MIN. intros Hx. destruct x as [|p|p]; unfold double_of_int; cbn [binary_normalize].
  - exists 0%Z. split; [done|lia].
  - destruct (round_pos false p) as (m & e & -> & Hm & He & Hp); [unfold INT_MAX in *; lia|]. destruct (div_exact_le false m e p Hm He Hp) as (y & -> & Hy); [lia|].
    exists y. split; [done|lia].
  - destruct (round_pos true p) as (m & e & -> & Hm & He & Hp); [lia|]. destruct (div_exact_le true m e p Hm He Hp) as (y & -> & Hy); [lia|].
    exists (- y)%Z. split; [done|lia].
Qed.
End quotient.
