(* ===== verification/Paths.v ===== *)
(** * Weighted paths and contraction

    The graph theory behind the contraction hierarchy, independent of the
    code: paths of positive weight, and the theorem that removing a set of
    nodes no two of which are adjacent or share a neighbour preserves the
    distances of the remaining nodes, if every two-arc path through a removed
    node is covered by a shortcut or by a path that avoids that node. *)

From S2P Require Import Prelude.

(** An arc relation: [E u v w] is an arc from [u] to [v] of weight [w]. *)
Definition arcs := N -> N -> N -> Prop.

Inductive path (E : arcs) : N -> N -> N -> Prop :=
  | path_nil u : path E u u 0
  | path_cons u v t w l : E u v w -> path E v t l -> path E u t (w + l).

(** A path of length at most [d]. *)
Definition within (E : arcs) (u t d : N) : Prop := exists l, (l <= d)%N /\ path E u t l.

(** The arcs that do not touch [x]. *)
Definition avoid (x : N) (E : arcs) : arcs := fun u v w => E u v w /\ u <> x /\ v <> x.

Definition positive (E : arcs) : Prop := forall u v w, E u v w -> (0 < w)%N.

Create HintDb paths.
#[export] Hint Constructors path : paths.

Lemma path_arc E u v w : E u v w -> path E u v w.
Proof. intros H. replace w with (w + 0)%N by lia. eauto with paths. Qed.

Lemma path_app E u v t l1 l2 : path E u v l1 -> path E v t l2 -> path E u t (l1 + l2).
Proof.
  induction 1 as [u|u v x w l He Hp IH]; intros H2; [done|].
  rewrite <- N.add_assoc. eauto with paths.
Qed.

Lemma path_snoc E u v t l w : path E u v l -> E v t w -> path E u t (l + w).
Proof. intros H1 H2. eapply path_app; [done|]. by apply path_arc. Qed.

Lemma path_mono (E E' : arcs) u v l : (forall a b w, E a b w -> E' a b w) -> path E u v l -> path E' u v l.
Proof. intros HE. induction 1; eauto with paths. Qed.

Lemma path_snoc_inv E u t l :
  path E u t l -> u = t /\ l = 0%N \/ exists v l' w, path E u v l' /\ E v t w /\ l = (l' + w)%N.
Proof.
  induction 1 as [u|u v t w l He Hp IH]; [by left|]. right.
  destruct IH as [[-> ->]|(x & l' & w' & Hp' & He' & ->)].
  - exists u, 0%N, w. split_and!; [constructor|done|lia].
  - exists x, (w + l')%N, w'. split_and!; [eauto with paths|done|lia].
Qed.

Lemma path_zero E u t : positive E -> path E u t 0 -> u = t.
Proof.
  intros Hpos. remember 0%N as l eqn:Hl. induction 1 as [u|u v t w l He Hp IH]; [done|].
  apply Hpos in He. lia.
Qed.

Lemma within_mono E u t d d' : (d <= d')%N -> within E u t d -> within E u t d'.
Proof. intros Hd (l & Hl & Hp). exists l. split; [lia|done]. Qed.

Lemma within_app E u v t d1 d2 : within E u v d1 -> within E v t d2 -> within E u t (d1 + d2).
Proof. intros (l1 & ? & ?) (l2 & ? & ?). exists (l1 + l2)%N. split; [lia|]. by eapply path_app. Qed.

Lemma within_refl E u d : within E u u d.
Proof. exists 0%N. split; [lia|constructor]. Qed.

Lemma within_arc E u v w d : E u v w -> (w <= d)%N -> within E u v d.
Proof. intros ??. exists w. split; [done|]. by apply path_arc. Qed.

(** Replacing every arc by a path that is not longer. *)
Lemma path_subst (E E' : arcs) u t l :
  (forall a b w, E a b w -> within E' a b w) -> path E u t l -> within E' u t l.
Proof.
  intros HE. induction 1 as [u|u v t w l He Hp IH]; [apply within_refl|].
  eapply within_app; eauto.
Qed.

Lemma path_avoid_end E x u t l : path (avoid x E) u t l -> u <> x -> t <> x.
Proof. induction 1 as [u|u v t w l [_ [_ Hv]] Hp IH]; [done|]. intros _. by apply IH. Qed.

(** Reversing all arcs. *)
Definition flip (E : arcs) : arcs := fun u v w => E v u w.

Lemma path_flip E u t l : path E u t l -> path (flip E) t u l.
Proof.
  induction 1 as [u|u v t w l He Hp IH]; [constructor|].
  rewrite N.add_comm. by eapply path_snoc.
Qed.

(** ** Contraction of an independent set *)

Section contraction.
  Context (E E' : arcs) (I : N -> Prop).
  Context `{I_dec : forall x, Decision (I x)}.

(** No two nodes of [I] are adjacent or have a common neighbour. *)
Definition adjacent (u v : N) : Prop := exists w, E u v w \/ E v u w.

Definition independent : Prop :=
  (forall x y, I x -> I y -> ~ adjacent x y) /\
  (forall x y a, I x -> I y -> adjacent a x -> adjacent a y -> x = y).

(** Every two-arc path through a node of [I] is covered. *)
Definition covered : Prop :=
  forall x a b w1 w2, I x -> E a x w1 -> E x b w2 -> a <> b ->
    (exists w, (w <= w1 + w2)%N /\ E' a b w) \/ within (avoid x E) a b (w1 + w2).

  Hypothesis E_pos : positive E.
  Hypothesis I_ind : independent.
  Hypothesis I_cov : covered.
  Hypothesis E_kept : forall u v w, E u v w -> ~ I u -> ~ I v -> exists w', (w' <= w)%N /\ E' u v w'.
  #[local] Set Default Proof Using "Type E_pos I_ind I_cov E_kept I_dec".

(** A path between remaining nodes, given that all two-arc paths through [I]
    up to the length [W] have a replacement. *)
Lemma replace_hops W u t l :
  (forall x a b w1 w2, I x -> E a x w1 -> E x b w2 -> (w1 + w2 <= W)%N -> within E' a b (w1 + w2)) ->
  (l <= W)%N -> ~ I u -> ~ I t -> path E u t l -> within E' u t l.
Proof.
  intros Hhop. revert u. induction l as [l IH] using (well_founded_induction N.lt_wf_0).
  intros u Hl Hu Ht Hp. inversion Hp as [|? v ? w l' He Hp']; subst; [apply within_refl|].
  pose proof (E_pos _ _ _ He) as Hw.
  destruct (decide (I v)) as [Hv|Hv].
  - inversion Hp' as [|? b ? w2 l'' He2 Hp'']; subst; [done|].
    pose proof (E_pos _ _ _ He2) as Hw2.
    assert (~ I b) as Hb by (intros Hb; eapply (proj1 I_ind v b); eauto; exists w2; by left).
    replace (w + (w2 + l''))%N with ((w + w2) + l'')%N by lia. eapply within_app.
    + eapply Hhop; [exact Hv|done|done|lia].
    + apply IH; [lia|lia|done|done|done].
  - destruct (E_kept _ _ _ He Hu Hv) as (w' & Hw' & He'). eapply within_app.
    + by eapply within_arc.
    + apply IH; [lia|lia|done|done|done].
Qed.

(** Every two-arc path through [I] has a replacement. A witness path avoids
    its own node, so a hop through another node of [I] is strictly shorter:
    otherwise both nodes would have a common neighbour. *)
Lemma hop_replaced W : forall x a b w1 w2,
  I x -> E a x w1 -> E x b w2 -> (w1 + w2 <= W)%N -> within E' a b (w1 + w2).
Proof.
  induction W as [W IH] using (well_founded_induction N.lt_wf_0).
  intros x a b w1 w2 Hx H1 H2 HW.
  destruct (decide (a = b)) as [->|Hab]; [apply within_refl|].
  assert (adjacent a x) as Hax by (exists w1; by left).
  assert (~ I a) as Ha.
  { intros Ha. by apply (proj1 I_ind a x). }
  assert (~ I b) as Hb.
  { intros Hb. apply (proj1 I_ind x b); [done|done|]. exists w2. by left. }
  destruct (I_cov x a b w1 w2 Hx H1 H2 Hab) as [(w & Hw & He)|(l & Hl & Hp)].
  { by eapply within_arc. }
  inversion Hp as [|? v ? w l' [He [_ Hv]] Hp']; subst; [done|].
  pose proof (E_pos _ _ _ He) as Hw. pose proof (E_pos _ _ _ H1) as Hw1.
  pose proof (E_pos _ _ _ H2) as Hw2.
  assert (forall u t d, path (avoid x E) u t d -> path E u t d) as Hplain.
  { intros u t d. apply path_mono. by intros ??? [? _]. }
  (* the first arc leads to a remaining node: the rest is shorter *)
  assert (~ I v) as Hnv.
  { intros HIv. apply Hv. apply (proj2 I_ind v x a); [done|done| |done]. exists w. by left. }
  destruct (E_kept _ _ _ He Ha Hnv) as (w' & Hw' & He').
  apply (within_mono _ _ _ (w + l')%N); [done|]. eapply within_app.
  - by eapply within_arc.
  - apply (replace_hops l'); [|lia|done|done|by apply Hplain].
    intros y c d v1 v2 Hy Hc Hd Hle. by apply (IH l' ltac:(lia) y).
Qed.

Lemma contraction_complete u t l :
  ~ I u -> ~ I t -> path E u t l -> within E' u t l.
Proof.
  intros Hu Ht Hp. apply (replace_hops l); [|lia|done|done|done].
  intros x a b w1 w2 Hx H1 H2 Hle. by eapply hop_replaced.
Qed.
End contraction.
