(* ===== verification/Edges.v ===== *)
(** * DataStructures/ImportEdge.{h,cpp} and DataStructures/QueryEdge.h

    The edge records that travel between the stages: node based edges of the
    extractor, edge based edges of the graph factory, and the edges of the
    query graph, whose fields are bit fields. *)

From S2P Require Import Prelude Types.

(** A bit field of [w] bits: unsigned values are reduced, signed values wrap. *)
Definition ubits (w : N) (x : N) : N := (x mod 2 ^ w)%N.

Definition sbits (w : Z) (z : Z) : Z := ((z + 2 ^ (w - 1)) mod 2 ^ w - 2 ^ (w - 1))%Z.

Record NodeBasedEdge := MkNodeBasedEdge {
  nb_source : N; nb_target : N; nb_name_id : N; nb_weight : Z;
  nb_forward : bool; nb_backward : bool; nb_roundabout : bool; nb_in_tiny_cc : bool;
  nb_access_restricted : bool; nb_is_split : bool; nb_travel_mode : N }.

(** The constructor; the travel mode is a field of four bits. *)
Definition NodeBasedEdge_make (source target name_id : N) (weight : Z)
    (forward backward roundabout in_tiny_cc access_restricted : bool) (travel_mode : N)
    (is_split : bool) : NodeBasedEdge :=
  MkNodeBasedEdge source target name_id weight forward backward roundabout in_tiny_cc
    access_restricted is_split (ubits 4 travel_mode).

Definition NodeBasedEdge_lt (e other : NodeBasedEdge) : bool :=
  if (nb_source e =? nb_source other)%N then
    if (nb_target e =? nb_target other)%N then
      if (nb_weight e =? nb_weight other)%Z then
        nb_forward e && nb_backward e && (negb (nb_forward other) || negb (nb_backward other))
      else (nb_weight e <? nb_weight other)%Z
    else (nb_target e <? nb_target other)%N
  else (nb_source e <? nb_source other)%N.

Record EdgeBasedEdge := MkEdgeBasedEdge {
  eb_source : N; eb_target : N; eb_edge_id : N; eb_weight : Z;
  eb_forward : bool; eb_backward : bool }.

(** The weight is a signed field of 30 bits. *)
Definition EdgeBasedEdge_make (source target edge_id : N) (weight : Z) (forward backward : bool)
    : EdgeBasedEdge :=
  MkEdgeBasedEdge source target edge_id (sbits 30 weight) forward backward.

Definition EdgeBasedEdge_default : EdgeBasedEdge := EdgeBasedEdge_make 0 0 0 0 false false.

Definition EdgeBasedEdge_lt (e other : EdgeBasedEdge) : bool :=
  if (eb_source e =? eb_source other)%N then
    if (eb_target e =? eb_target other)%N then
      if (eb_weight e =? eb_weight other)%Z then
        eb_forward e && eb_backward e && (negb (eb_forward other) || negb (eb_backward other))
      else (eb_weight e <? eb_weight other)%Z
    else (eb_target e <? eb_target other)%N
  else (eb_source e <? eb_source other)%N.

(** [QueryEdge::EdgeData]: a 31-bit id and a signed 30-bit distance. *)
Record QueryEdgeData := MkQueryEdgeData {
  qd_id : N; qd_shortcut : bool; qd_distance : Z; qd_forward : bool; qd_backward : bool }.

Definition QueryEdgeData_default : QueryEdgeData := MkQueryEdgeData 0 false 0 false false.

(** Assignment of the fields from a value with wider ones. *)
Definition QueryEdgeData_from (distance : Z) (shortcut : bool) (id : N) (forward backward : bool)
    : QueryEdgeData :=
  MkQueryEdgeData (ubits 31 id) shortcut (sbits 30 distance) forward backward.

Record QueryEdge := MkQueryEdge { qe_source : N; qe_target : N; qe_data : QueryEdgeData }.

Definition QueryEdge_default : QueryEdge := MkQueryEdge SPECIAL_NODEID SPECIAL_NODEID QueryEdgeData_default.

Definition QueryEdge_lt (e right : QueryEdge) : bool :=
  if negb (qe_source e =? qe_source right)%N then (qe_source e <? qe_source right)%N
  else (qe_target e <? qe_target right)%N.

Definition QueryEdge_eq (e right : QueryEdge) : bool :=
  (qe_source e =? qe_source right)%N && (qe_target e =? qe_target right)%N &&
  (qd_distance (qe_data e) =? qd_distance (qe_data right))%Z &&
  Bool.eqb (qd_shortcut (qe_data e)) (qd_shortcut (qe_data right)) &&
  Bool.eqb (qd_forward (qe_data e)) (qd_forward (qe_data right)) &&
  Bool.eqb (qd_backward (qe_data e)) (qd_backward (qe_data right)) &&
  (qd_id (qe_data e) =? qd_id (qe_data right))%N.

(** ** Lemmas *)

Lemma ubits_small w x : (x < 2 ^ w)%N -> ubits w x = x.
Proof. apply N.mod_small. Qed.

Lemma sbits_small w z : (0 < w)%Z -> (- 2 ^ (w - 1) <= z < 2 ^ (w - 1))%Z -> sbits w z = z.
Proof.
  intros Hw Hz. unfold sbits. assert (2 ^ w = 2 * 2 ^ (w - 1))%Z as Hp.
  { rewrite <- Z.pow_succ_r by lia. f_equal. lia. }
  rewrite Z.mod_small; lia.
Qed.

(** A strict weak order: irreflexive, transitive, and incomparability is
    transitive. *)
Definition strict_weak {A} (lt : A -> A -> bool) : Prop :=
  (forall a, lt a a = false) /\
  (forall a b c, lt a b = true -> lt b c = true -> lt a c = true) /\
  (forall a b c, lt a b = false -> lt b a = false -> lt b c = false -> lt c b = false ->
     lt a c = false /\ lt c a = false).

(** The lexicographic order the comparison stands for. *)
Definition eb_before (e other : EdgeBasedEdge) : Prop :=
  let k x := if eb_forward x && eb_backward x then 0%Z else 1%Z in
  (eb_source e < eb_source other)%N \/ eb_source e = eb_source other /\
  ((eb_target e < eb_target other)%N \/ eb_target e = eb_target other /\
  ((eb_weight e < eb_weight other)%Z \/ eb_weight e = eb_weight other /\ (k e < k other)%Z)).

Lemma eb_lt_before e other : EdgeBasedEdge_lt e other = true <-> eb_before e other.
Proof.
  unfold EdgeBasedEdge_lt, eb_before.
  destruct (N.eqb_spec (eb_source e) (eb_source other)); [|rewrite N.ltb_lt; lia].
  destruct (N.eqb_spec (eb_target e) (eb_target other)); [|rewrite N.ltb_lt; lia].
  destruct (Z.eqb_spec (eb_weight e) (eb_weight other)); [|rewrite Z.ltb_lt; lia].
  destruct (eb_forward e), (eb_backward e), (eb_forward other), (eb_backward other); simpl;
    split; intros; try done; lia.
Qed.

(** [operator<] of the edge based edges, by which the contractor's input
    is sorted, is a strict weak order, as std::sort requires: the edges of one
    source, target and weight put the bidirectional ones first. *)
Theorem edge_based_edge_order : strict_weak EdgeBasedEdge_lt.
Proof.
  assert (forall e o, EdgeBasedEdge_lt e o = false <-> ~ eb_before e o) as Hf.
  { intros e o. rewrite <- eb_lt_before. by destruct (EdgeBasedEdge_lt e o). }
  split_and!; intros *; rewrite ?eb_lt_before, ?Hf; unfold eb_before; lia.
Qed.
