(* ===== verification/Storage.v ===== *)
(** * Index storages of the binary heap

    DataStructures/BinaryHeap.h takes the table that maps a node to its slot
    as a template argument. This file models the interface the heap relies
    on ([IndexStorage], with its laws [IndexStorageLaws]), the storages of
    BinaryHeap.h ([ArrayStorage], [UnorderedMapStorage]) and
    the timestamped open-addressing table of XORFastHashStorage.h over the
    tabulation hash of XORFastHash.h. *)

From S2P Require Import Prelude Types.

(** ** The interface

    [st_read n s] is the value of [node_index[n]] converted to a key,
    together with the table after the access (an access may create or claim
    a cell). [st_write n k s] is [node_index[n] = k]. *)

Class IndexStorage (S : Type) := {
  st_read : N -> S -> option (N * S);
  st_write : N -> N -> S -> option S;
  st_clear : S -> S;
}.

(** [st_rep X c s m]: the table [s] holds the bindings [m] written since the
    last [Clear], it serves accesses to the nodes of [X], and it can be
    cleared [c] more times. A node without a binding reads as an arbitrary
    key. *)
Class IndexStorageLaws (S : Type) `{IndexStorage S} := {
  st_rep : gset N -> N -> S -> gmap N N -> Prop;
  st_read_ok X c s m n :
    st_rep X c s m -> n ∈ X ->
    exists k s', st_read n s = Some (k, s') /\ st_rep X c s' m /\
      forall k', m !! n = Some k' -> k = k';
  st_write_ok X c s m n k :
    st_rep X c s m -> n ∈ X ->
    exists s', st_write n k s = Some s' /\ st_rep X c s' (<[n := k]> m);
  st_clear_ok X c s m :
    st_rep X (c + 1) s m -> st_rep X c (st_clear s) ∅;
  st_weaken X c c' s m :
    (c' <= c)%N -> st_rep X c s m -> st_rep X c' s m;
}.

(** ** ArrayStorage *)

(** The constructor allocates [size] keys and zeroes them. *)
Definition ArrayStorage_make (size : N) : list N := replicate (N.to_nat size) 0%N.

Definition ArrayStorage_index (node : N) (positions : list N) : option N := vget positions node.

Definition ArrayStorage_assign (node key : N) (positions : list N) : option (list N) :=
  vset positions node key.

(** [Clear] has an empty body: old positions stay readable. *)
Definition ArrayStorage_Clear (positions : list N) : list N := positions.

Abbreviation array_storage := (list N).

#[export] Instance array_index_storage : IndexStorage array_storage := {|
  st_read n s := k ← ArrayStorage_index n s; Some (k, s);
  st_write := ArrayStorage_assign;
  st_clear := ArrayStorage_Clear;
|}.

(** ** UnorderedMapStorage

    [operator[]] of [std::unordered_map] creates the entry of a missing key
    with the value 0. ([MapStorage] has the same operations on [std::map].) *)

Definition UnorderedMapStorage_make : gmap N N := ∅.

Definition UnorderedMapStorage_index (node : N) (nodes : gmap N N) : N * gmap N N :=
  match nodes !! node with
  | Some k => (k, nodes)
  | None => (0%N, <[node := 0%N]> nodes)
  end.

(** The const overload dereferences the iterator [find] returns, which is
    undefined when the node is missing. *)
Definition UnorderedMapStorage_index_const (node : N) (nodes : gmap N N) : option N := nodes !! node.

Definition UnorderedMapStorage_assign (node key : N) (nodes : gmap N N) : gmap N N := <[node := key]> nodes.

Definition UnorderedMapStorage_Clear (_ : gmap N N) : gmap N N := ∅.

Abbreviation map_storage := (gmap N N).

#[export] Instance map_index_storage : IndexStorage map_storage := {|
  st_read n s := Some (UnorderedMapStorage_index n s);
  st_write n k s := Some (UnorderedMapStorage_assign n k s);
  st_clear := UnorderedMapStorage_Clear;
|}.

(** ** XORFastHash.h *)

Record XORFastHash := MkXORFastHash { xf_table1 : list N; xf_table2 : list N }.

(** The constructor fills both tables with [i] stored as [unsigned short] and
    shuffles them; the two shuffles are arguments. *)
Definition XORFastHash_make (shuffle1 shuffle2 : list N -> list N) : XORFastHash :=
  let filled := u16 <$> irange 0 131072 in
  MkXORFastHash (shuffle1 filled) (shuffle2 filled).

Definition XORFastHash_apply (h : XORFastHash) (originalValue : N) : option N :=
  let lsb := u16 (N.land originalValue 65535) in
  let msb := u16 (N.land (N.shiftr originalValue 16) 65535) in
  a ← vget (xf_table1 h) lsb;
  b ← vget (xf_table2 h) msb;
  Some (u16 (N.lxor a b)).

Record XORMiniHash := MkXORMiniHash {
  xm_table1 : list N; xm_table2 : list N; xm_table3 : list N; xm_table4 : list N }.

Definition XORMiniHash_make (shuffle1 shuffle2 shuffle3 shuffle4 : list N -> list N)
    : XORMiniHash :=
  let filled := u8 <$> irange 0 256 in
  MkXORMiniHash (shuffle1 filled) (shuffle2 filled) (shuffle3 filled) (shuffle4 filled).

Definition XORMiniHash_apply (h : XORMiniHash) (originalValue : N) : option N :=
  let byte1 := u8 (N.land originalValue 255) in
  let byte2 := u8 (N.land (N.shiftr originalValue 8) 255) in
  let byte3 := u8 (N.land (N.shiftr originalValue 16) 255) in
  let byte4 := u8 (N.land (N.shiftr originalValue 24) 255) in
  a ← vget (xm_table1 h) byte1;
  b ← vget (xm_table2 h) byte2;
  c ← vget (xm_table3 h) byte3;
  d ← vget (xm_table4 h) byte4;
  Some (u8 (N.lxor (N.lxor (N.lxor a b) c) d)).

(** ** XORFastHashStorage.h *)

Record HashCell := MkHashCell { hc_key : N; hc_id : N; hc_time : N }.

Definition HashCell_default : HashCell := MkHashCell UINT_MAX UINT_MAX UINT_MAX.

(** [2 << 16], the number of cells. *)
Definition table_cells : nat := N.to_nat 131072.

Record XORFastHashStorage := MkXORFastHashStorage {
  positions : list HashCell;
  fast_hasher : XORFastHash;
  current_timestamp : N;
}.

Definition XORFastHashStorage_make (h : XORFastHash) : XORFastHashStorage :=
  MkXORFastHashStorage (replicate table_cells HashCell_default) h 0.

(** The number of values of an [unsigned short], as probing fuel. *)
Definition ring_size : nat := N.to_nat 65536.

(** [++position %= (2 << 16)] on an [unsigned short]. *)
Definition next_position (position : N) : N := u16 (u16 (position + 1) mod 131072).

(** The probing loop of [operator[]]. The cells do not change during the
    loop, so it terminates only if one of the first 65536 iterations leaves
    it; [None] after 65536 iterations stands for the endless loop. *)
Fixpoint probe (fuel : nat) (cells : list HashCell) (timestamp node position : N) : option N :=
  match fuel with
  | O => None
  | S fuel' =>
      cell ← vget cells position;
      if ((hc_time cell =? timestamp) && negb (hc_id cell =? node))%N
      then probe fuel' cells timestamp node (next_position position)
      else Some position
  end.

(** [operator[]]: the position of the cell of [node] and the table in which
    the cell is claimed. *)
Definition XORFastHashStorage_index (node : N) (s : XORFastHashStorage)
    : option (N * XORFastHashStorage) :=
  start ← XORFastHash_apply (fast_hasher s) node;
  position ← probe ring_size (positions s) (current_timestamp s) node start;
  cell ← vget (positions s) position;
  cells ← vset (positions s) position (MkHashCell (hc_key cell) node (current_timestamp s));
  Some (position, MkXORFastHashStorage cells (fast_hasher s) (current_timestamp s)).

(** Conversion of the returned cell to a key. *)
Definition XORFastHashStorage_read (node : N) (s : XORFastHashStorage)
    : option (N * XORFastHashStorage) :=
  '(position, s') ← XORFastHashStorage_index node s;
  cell ← vget (positions s') position;
  Some (hc_key cell, s').

(** Assignment of a key to the returned cell. *)
Definition XORFastHashStorage_write (node key : N) (s : XORFastHashStorage)
    : option XORFastHashStorage :=
  '(position, s') ← XORFastHashStorage_index node s;
  cells ← vupd (positions s') position (fun c => MkHashCell key (hc_id c) (hc_time c));
  Some (MkXORFastHashStorage cells (fast_hasher s') (current_timestamp s')).

Definition XORFastHashStorage_Clear (s : XORFastHashStorage) : XORFastHashStorage :=
  let timestamp := u32 (current_timestamp s + 1) in
  if (UINT_MAX =? timestamp)%N
  then MkXORFastHashStorage (replicate table_cells HashCell_default) (fast_hasher s) timestamp
  else MkXORFastHashStorage (positions s) (fast_hasher s) timestamp.

#[export] Instance xor_index_storage : IndexStorage XORFastHashStorage := {|
  st_read := XORFastHashStorage_read;
  st_write := XORFastHashStorage_write;
  st_clear := XORFastHashStorage_Clear;
|}.

(** ** The laws of the simple storages *)

#[export] Program Instance array_storage_laws : IndexStorageLaws array_storage := {|
  st_rep X _ s m :=
    (forall n, n ∈ X -> (n < vsize s)%N) /\ (forall n k, m !! n = Some k -> vget s n = Some k)
|}.
Next Obligation.
  intros X c s m n [HX Hm] Hn. destruct (vget_lt s n) as [k Hk]; [by apply HX|].
  exists k, s. simpl. unfold ArrayStorage_index. rewrite Hk. simpl. split_and!; try done.
  intros k' Hk'. apply Hm in Hk'. congruence.
Qed.
Next Obligation.
  intros X c s m n k [HX Hm] Hn. simpl. unfold ArrayStorage_assign.
  rewrite vset_lt by auto. eexists. split; [done|]. rewrite vsize_insert. split; [done|].
  intros n' k' [[<- <-]|[Hne Hk']]%lookup_insert_Some; rewrite vget_lookup, lookup_insert_nat.
  - case_decide; [done|]. apply HX in Hn. unfold vsize in *. lia.
  - case_decide; [lia|]. rewrite <- vget_lookup. by apply Hm.
Qed.
Next Obligation.
  intros X c s m [HX _]. split; [done|]. intros n k. by rewrite lookup_empty.
Qed.
Next Obligation. intros X c c' s m _ Hs. exact Hs. Qed.

#[export] Program Instance map_storage_laws : IndexStorageLaws map_storage := {|
  st_rep _ _ (s : gmap N N) m := forall n k, m !! n = Some k -> s !! n = Some k
|}.
Next Obligation.
  intros X c s m n Hm Hn. simpl. unfold UnorderedMapStorage_index.
  destruct (s !! n) as [k|] eqn:E; eexists _, _; (split; [done|]); split.
  - done.
  - intros k' Hk'. apply Hm in Hk'. congruence.
  - intros n' k' Hk'. apply Hm in Hk'.
    rewrite lookup_insert_ne; [done|congruence].
  - intros k' Hk'. apply Hm in Hk'. congruence.
Qed.
Next Obligation.
  intros X c s m n k Hm Hn. simpl. eexists. split; [done|].
  unfold UnorderedMapStorage_assign.
  intros n' k' [[<- <-]|[Hne Hk']]%lookup_insert_Some.
  - apply lookup_insert_eq.
  - rewrite lookup_insert_ne by done. by apply Hm.
Qed.
Next Obligation.
  intros X c s m _ n k. by rewrite lookup_empty.
Qed.
Next Obligation. intros X c c' s m _ Hs. exact Hs. Qed.

Lemma ring_size_N : N.of_nat ring_size = 65536%N.
Proof. apply N2Nat.id. Qed.

Lemma table_cells_N : N.of_nat table_cells = 131072%N.
Proof. apply N2Nat.id. Qed.

#[global] Opaque ring_size table_cells.

(** ** The tabulation hash is total and yields 16-bit values *)

Definition xor_hash_wf (h : XORFastHash) : Prop :=
  vsize (xf_table1 h) = 131072%N /\ vsize (xf_table2 h) = 131072%N.

Lemma u16_lt x : (u16 x < 65536)%N.
Proof. by apply N.mod_lt. Qed.

Lemma XORFastHash_apply_total h v :
  xor_hash_wf h -> exists p, XORFastHash_apply h v = Some p /\ (p < 65536)%N.
Proof.
  intros [H1 H2]. unfold XORFastHash_apply.
  pose proof (u16_lt (N.land v 65535)). pose proof (u16_lt (N.land (N.shiftr v 16) 65535)).
  destruct (vget_lt (xf_table1 h) (u16 (N.land v 65535))) as [a ->]; [lia|].
  destruct (vget_lt (xf_table2 h) (u16 (N.land (N.shiftr v 16) 65535))) as [b ->]; [lia|].
  eexists. split; [reflexivity|]. apply u16_lt.
Qed.

Lemma XORFastHash_make_wf shuffle1 shuffle2 :
  (forall l, shuffle1 l ≡ₚ l) -> (forall l, shuffle2 l ≡ₚ l) ->
  xor_hash_wf (XORFastHash_make shuffle1 shuffle2).
Proof.
  intros Hs1 Hs2. unfold xor_hash_wf, XORFastHash_make, vsize. cbn [xf_table1 xf_table2].
  rewrite Hs1, Hs2, length_fmap, length_irange by done. lia.
Qed.

(** ** The probing loop *)

(** The loop passes over a cell claimed in this epoch by another node. *)
Definition busy (cells : list HashCell) (timestamp node position : N) : Prop :=
  exists cell, vget cells position = Some cell /\ hc_time cell = timestamp /\ hc_id cell <> node.

#[export] Instance busy_dec cells timestamp node position :
  Decision (busy cells timestamp node position).
Proof.
  unfold busy. destruct (vget cells position) as [cell|].
  - destruct (decide (hc_time cell = timestamp ∧ hc_id cell <> node)) as [Hd|Hd].
    + left. exists cell. tauto.
    + right. intros (c & [= <-] & ?). tauto.
  - right. by intros (c & [=] & _).
Defined.

Definition ring_pos (start d : N) : N := ((start + d) mod 65536)%N.

Lemma ring_pos_lt start d : (ring_pos start d < 65536)%N.
Proof. by apply N.mod_lt. Qed.

Lemma next_position_ring start d : next_position (ring_pos start d) = ring_pos start (d + 1).
Proof.
  unfold next_position, ring_pos, u16.
  rewrite (N.mod_small (_ mod 65536) 131072).
  2: { pose proof (N.mod_lt ((start + d) mod 65536 + 1) 65536). lia. }
  rewrite N.Div0.mod_mod, N.Div0.add_mod_idemp_l. f_equal. lia.
Qed.

Lemma probe_finds cells timestamp node start fuel d :
  vsize cells = 131072%N ->
  (exists e, (d <= e < d + N.of_nat fuel)%N /\ ~ busy cells timestamp node (ring_pos start e)) ->
  exists e, (d <= e < d + N.of_nat fuel)%N /\
    probe fuel cells timestamp node (ring_pos start d) = Some (ring_pos start e) /\
    ~ busy cells timestamp node (ring_pos start e) /\
    (forall j, (d <= j < e)%N -> busy cells timestamp node (ring_pos start j)).
Proof.
  intros Hsz. revert d. induction fuel as [|fuel IH]; intros d [e [He Hnb]]; [lia|].
  cbn [probe]. destruct (vget_lt cells (ring_pos start d)) as [cell Hcell].
  { rewrite Hsz. pose proof (ring_pos_lt start d). lia. }
  rewrite Hcell. cbn [mbind option_bind].
  destruct (decide (busy cells timestamp node (ring_pos start d))) as [Hb|Hnb'].
  - assert (d <> e) by congruence.
    replace ((hc_time cell =? timestamp)%N && negb (hc_id cell =? node)%N) with true.
    2: { destruct Hb as (cell' & Hc' & ? & ?). simplify_eq. repeat case_ltb; simpl; done. }
    rewrite next_position_ring.
    destruct (IH (d + 1)%N) as (e' & ? & ? & ? & Hbetween).
    { exists e. split; [lia|done]. }
    exists e'. split_and!; try done; try lia.
    intros j Hj. destruct (decide (j = d)) as [->|]; [done|]. apply Hbetween. lia.
  - replace ((hc_time cell =? timestamp)%N && negb (hc_id cell =? node)%N) with false.
    2: { repeat case_ltb; simpl; try done. exfalso. apply Hnb'. by exists cell. }
    exists d. split_and!; try done; lia.
Qed.

(** ** The representation relation of XORFastHashStorage *)

(** Within an epoch no cell is released, so the cells between the hash of a
    node and the cell it claimed stay claimed by other nodes. *)
Record xor_rep (X : gset N) (c : N) (s : XORFastHashStorage) (m : gmap N N) : Prop := {
  xr_hash : xor_hash_wf (fast_hasher s);
  xr_cells : vsize (positions s) = 131072%N;
  xr_time : (current_timestamp s + c < UINT_MAX)%N;
  xr_room : (size X <= ring_size)%nat;
  xr_old p cell : vget (positions s) p = Some cell ->
    (hc_time cell <= current_timestamp s)%N \/ hc_time cell = UINT_MAX;
  xr_path p cell : vget (positions s) p = Some cell -> hc_time cell = current_timestamp s ->
    hc_id cell ∈ X /\
    exists start d, XORFastHash_apply (fast_hasher s) (hc_id cell) = Some start /\
      (d < 65536)%N /\ p = ring_pos start d /\
      (forall j, (j < d)%N ->
         busy (positions s) (current_timestamp s) (hc_id cell) (ring_pos start j));
  xr_map n k : m !! n = Some k ->
    exists p cell, vget (positions s) p = Some cell /\
      hc_time cell = current_timestamp s /\ hc_id cell = n /\ hc_key cell = k;
}.

Lemma xor_rep_unique X c s m p1 p2 cell1 cell2 :
  xor_rep X c s m ->
  vget (positions s) p1 = Some cell1 -> hc_time cell1 = current_timestamp s ->
  vget (positions s) p2 = Some cell2 -> hc_time cell2 = current_timestamp s ->
  hc_id cell1 = hc_id cell2 -> p1 = p2.
Proof.
  intros HR H1 T1 H2 T2 Hid.
  destruct (xr_path _ _ _ _ HR _ _ H1 T1) as (_ & st1 & d1 & Hh1 & ? & -> & Hb1).
  destruct (xr_path _ _ _ _ HR _ _ H2 T2) as (_ & st2 & d2 & Hh2 & ? & -> & Hb2).
  rewrite Hid in Hh1. assert (st1 = st2) as -> by congruence.
  destruct (N.lt_trichotomy d1 d2) as [Hlt|[->|Hlt]]; [|done|].
  - apply Hb2 in Hlt as (cell & ? & ? & ?). congruence.
  - apply Hb1 in Hlt as (cell & ? & ? & ?). congruence.
Qed.

(** If every cell of the ring were claimed by a node other than [n], the
    table would hold 65536 distinct nodes of [X] besides [n]. *)
Lemma xor_rep_free X c s m n start :
  xor_rep X c s m -> n ∈ X ->
  exists e, (e < 65536)%N /\ ~ busy (positions s) (current_timestamp s) n (ring_pos start e).
Proof.
  intros HR Hn.
  set (P := fun e => ~ busy (positions s) (current_timestamp s) n (ring_pos start e)).
  destruct (decide (Exists P (irange 0 65536))) as [Hex|Hall].
  { apply Exists_exists in Hex as (e & He & HP). apply elem_of_irange in He; [|done].
    exists e. split; [lia|done]. }
  exfalso.
  assert (forall e, (e < 65536)%N -> busy (positions s) (current_timestamp s) n (ring_pos start e))
    as Hbusy.
  { intros e He. apply dec_stable. intros Hnb. apply Hall, Exists_exists.
    exists e. split; [apply elem_of_irange; [done|lia]|done]. }
  clear Hall P.
  set (id_at := fun e => default n (hc_id <$> vget (positions s) (ring_pos start e))).
  set (ids := id_at <$> irange 0 65536).
  assert (NoDup (n :: ids)) as Hnd.
  { constructor.
    - intros Hin. apply list_elem_of_fmap in Hin as (e & Heq & He).
      apply elem_of_irange in He; [|done]. destruct (Hbusy e) as (cell & Hc & _ & Hid); [lia|].
      unfold id_at in Heq. rewrite Hc in Heq. simpl in Heq. congruence.
    - apply NoDup_fmap_2_strong.
      + intros e1 e2 He1 He2 Heq.
        apply elem_of_irange in He1; [|done]. apply elem_of_irange in He2; [|done].
        destruct (Hbusy e1) as (c1 & Hc1 & Ht1 & _); [lia|].
        destruct (Hbusy e2) as (c2 & Hc2 & Ht2 & _); [lia|].
        unfold id_at in Heq. rewrite Hc1, Hc2 in Heq. simpl in Heq.
        assert (ring_pos start e1 = ring_pos start e2) as Hr by (eapply xor_rep_unique; eauto).
        unfold ring_pos in Hr. pose proof (N.div_mod (start + e1) 65536).
        pose proof (N.div_mod (start + e2) 65536). lia.
      + by apply NoDup_irange. }
  assert (n :: ids ⊆+ elements X) as Hsub.
  { apply NoDup_submseteq; [done|]. intros x [->|Hin]%elem_of_cons; apply elem_of_elements; [done|].
    apply list_elem_of_fmap in Hin as (e & -> & He). apply elem_of_irange in He; [|done].
    destruct (Hbusy e) as (cell & Hc & Ht & _); [lia|].
    unfold id_at. rewrite Hc. simpl. by apply (xr_path _ _ _ _ HR) in Hc as [? _]. }
  apply submseteq_length in Hsub. cbn [length] in Hsub. unfold ids in Hsub.
  rewrite length_fmap, length_irange in Hsub by done.
  pose proof (xr_room _ _ _ _ HR) as Hroom. unfold size, set_size in Hroom. simpl in Hroom.
  pose proof ring_size_N. lia.
Qed.

(** Writing the cell that probing finds for [n]. *)
Lemma xor_rep_claim X c s m m' n key start e cell :
  xor_rep X c s m -> n ∈ X ->
  XORFastHash_apply (fast_hasher s) n = Some start -> (e < 65536)%N ->
  vget (positions s) (ring_pos start e) = Some cell ->
  ~ busy (positions s) (current_timestamp s) n (ring_pos start e) ->
  (forall j, (j < e)%N -> busy (positions s) (current_timestamp s) n (ring_pos start j)) ->
  (forall n' k', m' !! n' = Some k' -> if decide (n' = n) then k' = key else m !! n' = Some k') ->
  xor_rep X c (MkXORFastHashStorage
     (<[N.to_nat (ring_pos start e) := MkHashCell key n (current_timestamp s)]> (positions s))
     (fast_hasher s) (current_timestamp s)) m'.
Proof.
  intros HR Hn Hstart He Hcell Hnb Hbefore Hm'.
  set (p := ring_pos start e) in *.
  assert (p < vsize (positions s))%N as Hp by (by eapply vget_Some_lt).
  assert (forall q, vget (<[N.to_nat p := MkHashCell key n (current_timestamp s)]> (positions s)) q =
    if decide (q = p) then Some (MkHashCell key n (current_timestamp s)) else vget (positions s) q)
    as Hget.
  { intros q. rewrite !vget_lookup, lookup_insert_nat. unfold vsize in Hp.
    repeat case_decide; try lia; done. }
  assert (forall n' q, busy (positions s) (current_timestamp s) n' q -> n' <> n \/ q <> p ->
    busy (<[N.to_nat p := MkHashCell key n (current_timestamp s)]> (positions s))
      (current_timestamp s) n' q) as Hbusy.
  { intros n' q (cell' & Hc' & Ht' & Hid') Hor. unfold busy. rewrite Hget.
    case_decide as Hd; [|by exists cell']. eexists. split; [done|]. simpl. split; [done|].
    destruct Hor; [done|congruence]. }
  destruct HR as [R1 R2 R3 R4 R5 R6 R7]. constructor; cbn; try done.
  - by rewrite vsize_insert.
  - intros q cell'. rewrite Hget. case_decide; [|apply R5]. intros [= <-]. simpl. lia.
  - intros q cell'. rewrite Hget. case_decide as Hd.
    + intros [= <-] _. cbn. split; [done|]. exists start, e. split_and!; try done.
      intros j Hj. apply Hbusy; [by apply Hbefore|]. right.
      intros Heq. apply Hnb. fold p. rewrite <- Heq. by apply Hbefore.
    + intros Hq Ht. destruct (R6 q cell' Hq Ht) as (HX & st & d & Hst & Hd' & -> & Hpath).
      split; [done|]. exists st, d. split_and!; try done.
      intros j Hj. apply Hbusy; [by apply Hpath|].
      destruct (decide (hc_id cell' = n)) as [Heq|]; [|by left]. right.
      intros Heqp. apply Hnb. rewrite <- Heqp. rewrite <- Heq. by apply Hpath.
  - intros n' k' Hk'. apply Hm' in Hk'. case_decide as Hd.
    + subst. exists p. eexists. rewrite Hget, decide_True by done. split; done.
    + destruct (R7 n' k' Hk') as (q & cell' & Hq & Ht & Hid & Hk). exists q, cell'.
      rewrite Hget. case_decide; [|done]. subst q. exfalso. apply Hnb. exists cell'.
      split_and!; congruence.
Qed.

Lemma xor_index_eq s n start p cell :
  XORFastHash_apply (fast_hasher s) n = Some start ->
  probe ring_size (positions s) (current_timestamp s) n start = Some p ->
  vget (positions s) p = Some cell ->
  XORFastHashStorage_index n s = Some (p,
    MkXORFastHashStorage
      (<[N.to_nat p := MkHashCell (hc_key cell) n (current_timestamp s)]> (positions s))
      (fast_hasher s) (current_timestamp s)).
Proof.
  unfold XORFastHashStorage_index. generalize ring_size. intros fuel -> Hp Hc.
  cbn [mbind option_bind]. rewrite Hp. cbn [mbind option_bind]. rewrite Hc.
  cbn [mbind option_bind]. rewrite vset_lt by (by eapply vget_Some_lt). done.
Qed.

(** [operator[]] finds a cell for [n] and claims it, keeping its key. *)
Lemma xor_index_ok X c s m n :
  xor_rep X c s m -> n ∈ X ->
  exists start e cell,
    XORFastHash_apply (fast_hasher s) n = Some start /\ (e < 65536)%N /\
    vget (positions s) (ring_pos start e) = Some cell /\
    ~ busy (positions s) (current_timestamp s) n (ring_pos start e) /\
    (forall j, (j < e)%N -> busy (positions s) (current_timestamp s) n (ring_pos start j)) /\
    XORFastHashStorage_index n s = Some (ring_pos start e,
      MkXORFastHashStorage
        (<[N.to_nat (ring_pos start e) := MkHashCell (hc_key cell) n (current_timestamp s)]>
           (positions s))
        (fast_hasher s) (current_timestamp s)).
Proof.
  intros HR Hn.
  destruct (XORFastHash_apply_total (fast_hasher s) n) as (start & Hstart & Hlt);
    [by apply HR|].
  destruct (xor_rep_free X c s m n start HR Hn) as (e0 & He0 & Hfree).
  destruct (probe_finds (positions s) (current_timestamp s) n start ring_size 0)
    as (e & He & Hprobe & Hnb & Hbefore); [apply HR|exists e0; rewrite ring_size_N; split; [lia|done]|].
  rewrite ring_size_N in He.
  destruct (vget_lt (positions s) (ring_pos start e)) as [cell Hcell].
  { rewrite (xr_cells _ _ _ _ HR). pose proof (ring_pos_lt start e). lia. }
  exists start, e, cell. split_and!; try done; try lia.
  { intros j Hj. apply Hbefore. lia. }
  eapply xor_index_eq; try done. rewrite <- Hprobe. f_equal.
  unfold ring_pos. rewrite N.add_0_r. symmetry. by apply N.mod_small.
Qed.

Lemma xor_key_of X c s m n k start e cell :
  xor_rep X c s m -> XORFastHash_apply (fast_hasher s) n = Some start -> (e < 65536)%N ->
  vget (positions s) (ring_pos start e) = Some cell ->
  ~ busy (positions s) (current_timestamp s) n (ring_pos start e) ->
  (forall j, (j < e)%N -> busy (positions s) (current_timestamp s) n (ring_pos start j)) ->
  m !! n = Some k -> hc_key cell = k.
Proof.
  intros HR Hst He Hcell Hnb Hbefore Hk.
  destruct (xr_map _ _ _ _ HR n k Hk) as (q & cell' & Hq & Ht & Hid & <-).
  destruct (xr_path _ _ _ _ HR q cell' Hq Ht) as (_ & st & d & Hst' & Hd & -> & Hpath).
  rewrite Hid in *. assert (st = start) as -> by congruence.
  destruct (N.lt_trichotomy d e) as [Hlt|[->|Hlt]].
  - apply Hbefore in Hlt as (c' & ? & ? & ?). congruence.
  - congruence.
  - exfalso. apply Hnb. by apply Hpath.
Qed.

Lemma xor_read_ok X c s m n :
  xor_rep X c s m -> n ∈ X ->
  exists k s', XORFastHashStorage_read n s = Some (k, s') /\ xor_rep X c s' m /\
    forall k', m !! n = Some k' -> k = k'.
Proof.
  intros HR Hn. destruct (xor_index_ok X c s m n HR Hn) as
    (start & e & cell & Hst & He & Hcell & Hnb & Hbefore & Hidx).
  unfold XORFastHashStorage_read. rewrite Hidx. cbn [mbind option_bind positions].
  rewrite vget_lookup, list_lookup_insert_eq.
  2: { apply vget_Some_lt in Hcell. unfold vsize in Hcell. lia. }
  cbn [mbind option_bind hc_key]. eexists _, _. split; [done|]. split.
  - eapply xor_rep_claim; eauto. intros n' k' Hk'. case_decide; [subst|done].
    symmetry. by eapply xor_key_of.
  - intros k' Hk'. by eapply xor_key_of.
Qed.

Lemma xor_write_ok X c s m n k :
  xor_rep X c s m -> n ∈ X ->
  exists s', XORFastHashStorage_write n k s = Some s' /\ xor_rep X c s' (<[n := k]> m).
Proof.
  intros HR Hn. destruct (xor_index_ok X c s m n HR Hn) as
    (start & e & cell & Hst & He & Hcell & Hnb & Hbefore & Hidx).
  unfold XORFastHashStorage_write. rewrite Hidx. cbn [mbind option_bind positions].
  erewrite vupd_lookup.
  2: { apply list_lookup_insert_eq. apply vget_Some_lt in Hcell. unfold vsize in Hcell. lia. }
  cbn [mbind option_bind hc_id hc_time fast_hasher current_timestamp].
  rewrite list_insert_insert_eq.
  eexists. split; [done|]. eapply xor_rep_claim; eauto.
  intros n' k'. rewrite lookup_insert. repeat case_decide; naive_solver.
Qed.

Lemma xor_clear_eq s :
  (current_timestamp s + 1 < UINT_MAX)%N ->
  XORFastHashStorage_Clear s =
    MkXORFastHashStorage (positions s) (fast_hasher s) (current_timestamp s + 1).
Proof.
  intros Ht. unfold XORFastHashStorage_Clear. unfold UINT_MAX in *.
  rewrite u32_small by lia. case_ltb; [lia|done].
Qed.

Lemma xor_clear_ok X c s m :
  xor_rep X (c + 1) s m -> xor_rep X c (XORFastHashStorage_Clear s) ∅.
Proof.
  intros [R1 R2 R3 R4 R5 R6 R7]. unfold UINT_MAX in *.
  rewrite xor_clear_eq by (unfold UINT_MAX; lia).
  constructor; cbn [positions fast_hasher current_timestamp]; try done; unfold UINT_MAX.
  - lia.
  - intros p cell Hp. destruct (R5 p cell Hp); [left; lia|by right].
  - intros p cell Hp Ht. destruct (R5 p cell Hp); lia.
Qed.

Lemma xor_make_ok X c h :
  xor_hash_wf h -> (size X <= ring_size)%nat -> (c < UINT_MAX)%N ->
  xor_rep X c (XORFastHashStorage_make h) ∅.
Proof.
  intros Hh HX Hc.
  assert (forall p cell, vget (positions (XORFastHashStorage_make h)) p = Some cell ->
            cell = HashCell_default) as Hdef.
  { intros p cell. rewrite vget_lookup. unfold XORFastHashStorage_make. cbn [positions].
    intros [-> _]%lookup_replicate. done. }
  constructor.
  - exact Hh.
  - unfold vsize, XORFastHashStorage_make. cbn [positions].
    rewrite length_replicate. apply table_cells_N.
  - exact Hc.
  - exact HX.
  - intros p cell ->%Hdef. by right.
  - intros p cell ->%Hdef. done.
  - intros n k. by rewrite lookup_empty.
Qed.

Lemma xor_weaken X c c' s m : (c' <= c)%N -> xor_rep X c s m -> xor_rep X c' s m.
Proof. intros Hc []. constructor; try done. lia. Qed.

#[export] Instance xor_storage_laws : IndexStorageLaws XORFastHashStorage := {|
  st_rep := xor_rep;
  st_read_ok := xor_read_ok;
  st_write_ok := xor_write_ok;
  st_clear_ok := xor_clear_ok;
  st_weaken := xor_weaken;
|}.

(** ** Sequences of accesses *)

Inductive storage_op :=
  | OpRead (n : N)
  | OpWrite (n k : N)
  | OpClear.

Definition storage_step {St} `{IndexStorage St} (s : St) (o : storage_op) : option St :=
  match o with
  | OpRead n => snd <$> st_read n s
  | OpWrite n k => st_write n k s
  | OpClear => Some (st_clear s)
  end.

Fixpoint storage_run {St} `{IndexStorage St} (s : St) (ops : list storage_op) : option St :=
  match ops with
  | [] => Some s
  | o :: ops' => s' ← storage_step s o; storage_run s' ops'
  end.

(** The bindings a sequence of accesses leaves. *)
Fixpoint map_run (m : gmap N N) (ops : list storage_op) : gmap N N :=
  match ops with
  | [] => m
  | OpRead _ :: ops' => map_run m ops'
  | OpWrite n k :: ops' => map_run (<[n := k]> m) ops'
  | OpClear :: ops' => map_run ∅ ops'
  end.

Definition op_in (X : gset N) (o : storage_op) : Prop :=
  match o with OpRead n | OpWrite n _ => n ∈ X | OpClear => True end.

Fixpoint clears (ops : list storage_op) : N :=
  match ops with
  | [] => 0
  | OpClear :: ops' => clears ops' + 1
  | _ :: ops' => clears ops'
  end.

(** Any storage that obeys the laws behaves like the map of the bindings
    written since the last [Clear]. *)
Lemma storage_run_ok `{IndexStorageLaws St} X c ops : forall (s : St) m,
  st_rep X (c + clears ops) s m -> Forall (op_in X) ops ->
  exists s', storage_run s ops = Some s' /\ st_rep X c s' (map_run m ops).
Proof.
  induction ops as [|[n|n k|] ops IH]; intros s m Hs Hops; simpl in *.
  - rewrite N.add_0_r in Hs. eauto.
  - apply Forall_cons in Hops as [Hn Hops].
    destruct (st_read_ok X _ s m n Hs Hn) as (k & s1 & -> & Hs1 & _). simpl. by apply IH.
  - apply Forall_cons in Hops as [Hn Hops].
    destruct (st_write_ok X _ s m n k Hs Hn) as (s1 & -> & Hs1). simpl. by apply IH.
  - apply Forall_cons in Hops as [_ Hops]. apply IH; [|done].
    rewrite N.add_assoc in Hs. by eapply st_clear_ok.
Qed.

(** C28: a node of the table reads back the last key written for it since the
    last [Clear], for every sequence of reads, writes and clears on a freshly
    built XORFastHashStorage that touches at most 65536 nodes and clears
    fewer than UINT_MAX times: every probing loop terminates, and a stale
    cell of an earlier epoch is never taken for a current one. *)
Theorem xor_storage_last_write h X ops n :
  xor_hash_wf h -> (size X <= ring_size)%nat -> (clears ops < UINT_MAX)%N ->
  Forall (op_in X) ops -> n ∈ X ->
  exists s k s', storage_run (XORFastHashStorage_make h) ops = Some s /\
    XORFastHashStorage_read n s = Some (k, s') /\
    forall k', map_run ∅ ops !! n = Some k' -> k = k'.
Proof.
  intros Hh HX Hc Hops Hn.
  destruct (storage_run_ok X 0 ops (XORFastHashStorage_make h) ∅) as (s & Hrun & Hs); try done.
  { by apply xor_make_ok. }
  destruct (xor_read_ok X 0 s _ n Hs Hn) as (k & s' & Hread & _ & Hk). eauto 10.
Qed.

Lemma xor_storage_last_write_witness :
  exists s k s',
    storage_run (XORFastHashStorage_make (XORFastHash_make reverse (fun l => l)))
      [OpWrite 7 3; OpWrite 9 4; OpClear; OpWrite 7 5; OpRead 9] = Some s /\
    XORFastHashStorage_read 7 s = Some (k, s') /\ k = 5%N.
Proof.
  destruct (xor_storage_last_write (XORFastHash_make reverse (fun l => l)) {[7%N; 9%N]}
    [OpWrite 7 3; OpWrite 9 4; OpClear; OpWrite 7 5; OpRead 9] 7) as (s & k & s' & Hrun & Hread & Hk).
  - apply XORFastHash_make_wf; intros l; [apply reverse_Permutation|reflexivity].
  - transitivity (1 + 1); [|pose proof ring_size_N; lia].
    rewrite (size_union_alt {[7%N]} {[9%N]}), size_singleton. reflexivity.
  - reflexivity.
  - repeat constructor; set_solver.
  - set_solver.
  - exists s, k, s'. split; [exact Hrun|]. split; [exact Hread|]. apply Hk. reflexivity.
Defined.

Lemma probe_default_cells fuel cnt n p :
  n <> UINT_MAX -> probe fuel (replicate cnt HashCell_default) UINT_MAX n p = None.
Proof.
  intros Hn. revert p. induction fuel as [|fuel IH]; intros p; [done|]. cbn [probe].
  destruct (vget _ p) as [cell|] eqn:E; [|done]. cbn [mbind option_bind].
  rewrite vget_lookup in E. apply lookup_replicate in E as [-> _].
  cbn [hc_time hc_id HashCell_default]. rewrite N.eqb_refl.
  destruct (N.eqb_spec UINT_MAX n); [congruence|]. cbn [negb andb]. apply IH.
Qed.

Lemma xor_index_diverges s n start :
  XORFastHash_apply (fast_hasher s) n = Some start ->
  probe ring_size (positions s) (current_timestamp s) n start = None ->
  XORFastHashStorage_index n s = None.
Proof.
  unfold XORFastHashStorage_index. generalize ring_size. intros fuel -> Hp.
  cbn [mbind option_bind]. by rewrite Hp.
Qed.

Lemma xor_clear_wrap_eq s :
  current_timestamp s = (UINT_MAX - 1)%N ->
  XORFastHashStorage_Clear s =
    MkXORFastHashStorage (replicate table_cells HashCell_default) (fast_hasher s) UINT_MAX.
Proof.
  unfold XORFastHashStorage_Clear. generalize table_cells. intros cnt ->. reflexivity.
Qed.

(** The clear that makes the timestamp reach UINT_MAX resets the cells to
    a default whose time stamp equals the current one, so every cell counts
    as claimed and [operator[]] does not terminate for any node id. *)
Theorem xor_storage_clear_wraparound s n :
  xor_hash_wf (fast_hasher s) -> current_timestamp s = (UINT_MAX - 1)%N -> n <> UINT_MAX ->
  XORFastHashStorage_index n (XORFastHashStorage_Clear s) = None.
Proof.
  intros Hh Ht Hn. rewrite xor_clear_wrap_eq by done.
  destruct (XORFastHash_apply_total (fast_hasher s) n Hh) as (start & Hstart & _).
  eapply xor_index_diverges; [exact Hstart|]. by apply probe_default_cells.
Qed.

Lemma xor_storage_clear_wraparound_witness :
  XORFastHashStorage_index 12 (XORFastHashStorage_Clear (MkXORFastHashStorage
    [] (XORFastHash_make (fun l => l) (fun l => l)) (UINT_MAX - 1))) = None.
Proof.
  apply xor_storage_clear_wraparound; [|reflexivity|discriminate].
  by apply XORFastHash_make_wf.
Defined.
