(* ===== verification/BinaryHeap.v ===== *)
(** * DataStructures/BinaryHeap.h

    The addressable binary heap every search uses: [heap] is the array with a
    sentinel at index 0, [inserted_nodes] remembers every node inserted since
    the last [Clear], and [node_index] maps a node to its slot there. The
    index table is any [IndexStorage]. *)

From S2P Require Import Prelude Types Storage.

#[local] Ltac Zify.zify_post_hook ::= Z.to_euclidean_division_equations.

Record HeapNode {D : Type} := MkHeapNode {
  hn_node : N; hn_key : N; hn_weight : Z; hn_data : D }.
Arguments HeapNode : clear implicits.
Arguments MkHeapNode {D}.

Record HeapElement := MkHeapElement { he_index : N; he_weight : Z }.

Record BinaryHeap {D St : Type} := MkBinaryHeap {
  inserted_nodes : list (HeapNode D);
  heap : list HeapElement;
  node_index : St;
}.
Arguments BinaryHeap : clear implicits.
Arguments MkBinaryHeap {D St}.

Definition set_key {D} (k : N) (n : HeapNode D) : HeapNode D :=
  MkHeapNode (hn_node n) k (hn_weight n) (hn_data n).

Definition set_weight {D} (w : Z) (n : HeapNode D) : HeapNode D :=
  MkHeapNode (hn_node n) (hn_key n) w (hn_data n).

Definition set_data {D} (d : D) (n : HeapNode D) : HeapNode D :=
  MkHeapNode (hn_node n) (hn_key n) (hn_weight n) d.

Definition set_he_weight (w : Z) (e : HeapElement) : HeapElement := MkHeapElement (he_index e) w.

Section operations.
  Context {D St : Type} `{IndexStorage St}.

(** [heap.resize(1); heap[0].weight = numeric_limits<Weight>::min()]. *)
Definition reset_heap (h : list HeapElement) : list HeapElement :=
  alter (set_he_weight INT_MIN) 0%nat (vresize h 1 (MkHeapElement 0 0)).

Definition Clear (h : BinaryHeap D St) : BinaryHeap D St :=
  MkBinaryHeap [] (reset_heap (heap h)) (st_clear (node_index h)).

(** The constructor, given the freshly built index table. *)
Definition BinaryHeap_make (s : St) : BinaryHeap D St := Clear (MkBinaryHeap [] [] s).

Definition Size (h : BinaryHeap D St) : N := (vsize (heap h) - 1)%N.

Definition Empty (h : BinaryHeap D St) : bool := (0 =? Size h)%N.

(** The loop of [Upheap], with the hole at [key]. At most [key] iterations
    are needed, and [key] is below the size of the heap. *)
Fixpoint upheap_loop (fuel : nat) (hp : list HeapElement) (ins : list (HeapNode D))
    (risingIndex : N) (weight : Z) (key nextKey : N)
    : option (list HeapElement * list (HeapNode D)) :=
  match fuel with
  | O => None
  | S fuel' =>
      e ← vget hp nextKey;
      if (weight <? he_weight e)%Z then
        hp' ← vset hp key e;
        ins' ← vupd ins (he_index e) (set_key key);
        upheap_loop fuel' hp' ins' risingIndex weight nextKey (N.shiftr nextKey 1)
      else
        hp' ← vset hp key (MkHeapElement risingIndex weight);
        ins' ← vupd ins risingIndex (set_key key);
        Some (hp', ins')
  end.

Definition Upheap (key : N) (h : BinaryHeap D St) : option (BinaryHeap D St) :=
  e ← vget (heap h) key;
  '(hp, ins) ← upheap_loop (S (length (heap h))) (heap h) (inserted_nodes h)
                 (he_index e) (he_weight e) key (N.shiftr key 1);
  Some (MkBinaryHeap ins hp (node_index h)).

(** The loop of [Downheap]: the smaller child moves up while it is lighter. *)
Fixpoint downheap_loop (fuel : nat) (hp : list HeapElement) (ins : list (HeapNode D))
    (droppingIndex : N) (weight : Z) (key nextKey : N)
    : option (list HeapElement * list (HeapNode D)) :=
  let finish :=
    hp' ← vset hp key (MkHeapElement droppingIndex weight);
    ins' ← vupd ins droppingIndex (set_key key);
    Some (hp', ins') in
  match fuel with
  | O => None
  | S fuel' =>
      if (nextKey <? u32 (vsize hp))%N then
        let nextKeyOther := uadd nextKey 1 in
        child ← vget hp nextKey;
        nextKey' ←
          (if (nextKeyOther <? u32 (vsize hp))%N then
             other ← vget hp nextKeyOther;
             Some (if (he_weight other <? he_weight child)%Z then nextKeyOther else nextKey)
           else Some nextKey);
        e ← vget hp nextKey';
        if (weight <=? he_weight e)%Z then finish
        else
          hp' ← vset hp key e;
          ins' ← vupd ins (he_index e) (set_key key);
          downheap_loop fuel' hp' ins' droppingIndex weight nextKey' (u32 (N.shiftl nextKey' 1))
      else finish
  end.

Definition Downheap (key : N) (h : BinaryHeap D St) : option (BinaryHeap D St) :=
  e ← vget (heap h) key;
  '(hp, ins) ← downheap_loop (S (length (heap h))) (heap h) (inserted_nodes h)
                 (he_index e) (he_weight e) key (u32 (N.shiftl key 1));
  Some (MkBinaryHeap ins hp (node_index h)).

Definition Insert (node : N) (weight : Z) (data : D) (h : BinaryHeap D St)
    : option (BinaryHeap D St) :=
  let index := u32 (vsize (inserted_nodes h)) in
  let key := u32 (vsize (heap h)) in
  let hp := heap h ++ [MkHeapElement index weight] in
  let ins := inserted_nodes h ++ [MkHeapNode node key weight data] in
  s ← st_write node index (node_index h);
  Upheap key (MkBinaryHeap ins hp s).

(** [inserted_nodes[node_index[node]]], with the table after the access. *)
Definition slot (node : N) (h : BinaryHeap D St) : option (N * HeapNode D * BinaryHeap D St) :=
  '(index, s) ← st_read node (node_index h);
  hn ← vget (inserted_nodes h) index;
  Some (index, hn, MkBinaryHeap (inserted_nodes h) (heap h) s).

Definition GetData (node : N) (h : BinaryHeap D St) : option (D * BinaryHeap D St) :=
  '(_, hn, h') ← slot node h; Some (hn_data hn, h').

(** Assignment through the reference [GetData] returns. *)
Definition AssignData (node : N) (f : D -> D) (h : BinaryHeap D St) : option (BinaryHeap D St) :=
  '(index, hn, h') ← slot node h;
  ins ← vset (inserted_nodes h') index (set_data (f (hn_data hn)) hn);
  Some (MkBinaryHeap ins (heap h') (node_index h')).

Definition GetKey (node : N) (h : BinaryHeap D St) : option (Z * BinaryHeap D St) :=
  '(_, hn, h') ← slot node h; Some (hn_weight hn, h').

Definition WasRemoved (node : N) (h : BinaryHeap D St) : option (bool * BinaryHeap D St) :=
  '(_, hn, h') ← slot node h; Some ((hn_key hn =? 0)%N, h').

Definition WasInserted (node : N) (h : BinaryHeap D St) : option (bool * BinaryHeap D St) :=
  '(index, s) ← st_read node (node_index h);
  let h' := MkBinaryHeap (inserted_nodes h) (heap h) s in
  if (u32 (vsize (inserted_nodes h)) <=? index)%N then Some (false, h')
  else hn ← vget (inserted_nodes h) index; Some ((hn_node hn =? node)%N, h').

Definition Min (h : BinaryHeap D St) : option N :=
  e ← vget (heap h) 1;
  hn ← vget (inserted_nodes h) (he_index e);
  Some (hn_node hn).

Definition DeleteMin (h : BinaryHeap D St) : option (N * BinaryHeap D St) :=
  top ← vget (heap h) 1;
  let removedIndex := he_index top in
  back ← vget (heap h) (vsize (heap h) - 1);
  hp ← vset (heap h) 1 back;
  let h1 := MkBinaryHeap (inserted_nodes h) (vpop hp) (node_index h) in
  h2 ← (if (1 <? vsize (heap h1))%N then Downheap 1 h1 else Some h1);
  ins ← vupd (inserted_nodes h2) removedIndex (set_key 0);
  hn ← vget ins removedIndex;
  Some (hn_node hn, MkBinaryHeap ins (heap h2) (node_index h2)).

(** The keys of the nodes still in the heap are zeroed. *)
Fixpoint zero_keys (elements : list HeapElement) (ins : list (HeapNode D))
    : option (list (HeapNode D)) :=
  match elements with
  | [] => Some ins
  | e :: elements' => ins' ← vupd ins (he_index e) (set_key 0); zero_keys elements' ins'
  end.

Definition DeleteAll (h : BinaryHeap D St) : option (BinaryHeap D St) :=
  ins ← zero_keys (drop 1 (heap h)) (inserted_nodes h);
  Some (MkBinaryHeap ins (reset_heap (heap h)) (node_index h)).

Definition DecreaseKey (node : N) (weight : Z) (h : BinaryHeap D St)
    : option (BinaryHeap D St) :=
  '(index, hn, h') ← slot node h;
  let key := hn_key hn in
  ins ← vset (inserted_nodes h') index (set_weight weight hn);
  hp ← vupd (heap h') key (set_he_weight weight);
  Upheap key (MkBinaryHeap ins hp (node_index h')).

End operations.

(** ** Well-formedness of the two arrays *)

Section arrays.
  Context {D : Type}.
  Implicit Types (hp F : list HeapElement) (ins I : list (HeapNode D)).

(** The entries of the heap and the nodes with a nonzero key point at each
    other and agree on the weight. *)
Definition linked hp ins : Prop :=
  (forall i e, (0 < i)%N -> vget hp i = Some e ->
     exists hn, vget ins (he_index e) = Some hn /\ hn_key hn = i /\ hn_weight hn = he_weight e) /\
  (forall j hn, vget ins j = Some hn -> hn_key hn <> 0%N ->
     exists e, vget hp (hn_key hn) = Some e /\ he_index e = j).

Definition sentinel hp : Prop := exists e, vget hp 0 = Some e /\ he_weight e = INT_MIN.

(** The heap order at position [i]. *)
Definition ordered_at hp (i : N) : Prop :=
  forall e p, vget hp i = Some e -> vget hp (i / 2)%N = Some p -> (he_weight p <= he_weight e)%Z.

Definition ordered hp : Prop := forall i, (0 < i)%N -> ordered_at hp i.

(** The children of [k] are not lighter than its parent. *)
Definition bridged hp (k : N) : Prop :=
  forall c e p, (c / 2)%N = k -> (0 < c)%N -> vget hp c = Some e -> vget hp (k / 2)%N = Some p ->
    (he_weight p <= he_weight e)%Z.

(** What sifting keeps of an inserted node. *)
Definition erase (hn : HeapNode D) : N * Z * D * bool :=
  (hn_node hn, hn_weight hn, hn_data hn, negb (hn_key hn =? 0)%N).

Lemma erase_alter_key ins j k hn :
  vget ins j = Some hn -> hn_key hn <> 0%N -> k <> 0%N ->
  erase <$> alter (set_key k) (N.to_nat j) ins = erase <$> ins.
Proof.
  intros Hj Hk0 Hk. apply list_eq. intros i. rewrite !list_lookup_fmap.
  destruct (decide (N.to_nat j = i)) as [<-|Hne].
  - rewrite list_lookup_alter_eq. rewrite vget_lookup in Hj. rewrite Hj. simpl.
    f_equal. unfold erase, set_key. simpl. f_equal. by repeat case_ltb.
  - by rewrite list_lookup_alter_ne.
Qed.

Lemma erase_alter_key_twice ins j k k' :
  k <> 0%N -> k' <> 0%N ->
  erase <$> alter (set_key k) (N.to_nat j) ins = erase <$> alter (set_key k') (N.to_nat j) ins.
Proof.
  intros Hk Hk'. apply list_eq. intros i. rewrite !list_lookup_fmap.
  destruct (decide (N.to_nat j = i)) as [<-|Hne].
  - rewrite !list_lookup_alter_eq. destruct (ins !! N.to_nat j) as [hn|]; [|done]. simpl.
    f_equal. unfold erase, set_key. simpl. f_equal. by repeat case_ltb.
  - by rewrite !list_lookup_alter_ne.
Qed.

(** Exchanging the entries at [a] and [b], with the key updates the sifting
    loops perform, keeps the arrays linked. *)
Lemma linked_swap hp ins a b ia wa eb :
  a <> b -> (0 < a)%N -> (0 < b)%N -> (a < vsize hp)%N -> vget hp b = Some eb ->
  linked (<[N.to_nat a := MkHeapElement ia wa]> hp) (alter (set_key a) (N.to_nat ia) ins) ->
  (ia < vsize ins)%N ->
  ia <> he_index eb /\ (exists hn, vget ins (he_index eb) = Some hn /\ hn_key hn = b) /\
  linked (<[N.to_nat b := MkHeapElement ia wa]> (<[N.to_nat a := eb]> hp))
         (alter (set_key b) (N.to_nat ia) (alter (set_key a) (N.to_nat (he_index eb)) ins)).
Proof.
  intros Hab Ha Hb Hsz Heb [L1 L2] Hia.
  assert (b < vsize hp)%N as Hbsz by (by eapply vget_Some_lt).
  destruct (L1 b eb Hb) as (hb & Hhb & Hkb & Hwb).
  { rewrite vget_insert. by case_decide; [lia|]. }
  destruct (L1 a (MkHeapElement ia wa) Ha) as (ha & Hha & Hka & Hwa).
  { rewrite vget_insert. by case_decide; [|lia]. }
  simpl in *. rewrite vget_alter in Hhb, Hha. rewrite decide_True in Hha by done.
  destruct (vget ins ia) as [ha0|] eqn:Eia; [|done]. injection Hha as <-.
  case_decide as Hd.
  { exfalso. rewrite <- Hd, Eia in Hhb. injection Hhb as <-. simpl in Hkb. lia. }
  split; [done|]. split; [eauto|]. split.
  - intros i e Hi. rewrite !vget_insert, vsize_insert. repeat case_decide; try lia.
    + intros [= <-]. simpl. rewrite !vget_alter, decide_True by done.
      rewrite decide_False by done. rewrite Eia. simpl. eexists. split; [done|]. split; [tauto|done].
    + intros [= <-]. rewrite !vget_alter. rewrite decide_False by done.
      rewrite decide_True by done. rewrite Hhb. simpl. eexists. split; [done|]. split; [tauto|done].
    + intros He. destruct (L1 i e Hi) as (hn & Hhn & Hk & Hw).
      { rewrite vget_insert. by case_decide; [lia|]. }
      rewrite vget_alter in Hhn. case_decide as Hd1.
      { rewrite <- Hd1, Eia in Hhn. injection Hhn as <-. simpl in Hk. lia. }
      exists hn. rewrite !vget_alter. rewrite decide_False by done.
      case_decide as Hd2; [|done]. exfalso. rewrite <- Hd2, Hhb in Hhn.
      injection Hhn as ->. lia.
  - intros j hn Hj Hk. rewrite !vget_alter in Hj. case_decide as Hd1.
    + rewrite decide_False in Hj by congruence. rewrite <- Hd1, Eia in Hj.
      injection Hj as <-. simpl.
      exists (MkHeapElement ia wa). rewrite vget_insert, vsize_insert. by case_decide; [|lia].
    + case_decide as Hd2.
      * rewrite <- Hd2, Hhb in Hj. injection Hj as <-. simpl in *. exists eb.
        rewrite !vget_insert, vsize_insert. repeat case_decide; try lia; done.
      * destruct (L2 j hn) as (e & He & Hje).
        { rewrite vget_alter. by case_decide. } { done. }
        rewrite vget_insert in He. case_decide as Hd3.
        { injection He as <-. done. }
        exists e. rewrite !vget_insert, vsize_insert. rewrite (decide_False (P := a = _ ∧ _)) by done.
        case_decide as Hd4; [|done]. destruct Hd4 as [Hb4 _]. exfalso.
        rewrite <- Hb4, Heb in He. injection He as <-. done.
Qed.
(** Reading an array after one or two updates at known positions. *)
Lemma vget_put hp a x i :
  (a < vsize hp)%N -> vget (<[N.to_nat a := x]> hp) i = if decide (a = i) then Some x else vget hp i.
Proof. intros ?. rewrite vget_insert. repeat case_decide; naive_solver lia. Qed.

Lemma vget_put2 hp a b x y i :
  (a < vsize hp)%N -> (b < vsize hp)%N ->
  vget (<[N.to_nat b := y]> (<[N.to_nat a := x]> hp)) i =
    if decide (b = i) then Some y else if decide (a = i) then Some x else vget hp i.
Proof. intros ??. rewrite vget_put by (by rewrite vsize_insert). by rewrite vget_put. Qed.

Lemma up_step_order hp key ri w e :
  (0 < key / 2)%N -> (key < vsize hp)%N -> vget hp (key / 2)%N = Some e -> (w < he_weight e)%Z ->
  let F := <[N.to_nat key := MkHeapElement ri w]> hp in
  let F' := <[N.to_nat (key / 2) := MkHeapElement ri w]> (<[N.to_nat key := e]> hp) in
  (forall i, (0 < i)%N -> i <> key -> ordered_at F i) -> bridged F key ->
  (forall i, (0 < i)%N -> i <> (key / 2)%N -> ordered_at F' i) /\ bridged F' (key / 2)%N.
Proof.
  intros Hpos Hsz He Hw F F' Ho Hb.
  assert (forall i, vget F i = if decide (key = i) then Some (MkHeapElement ri w) else vget hp i)
    as HF by (intros; by apply vget_put).
  assert (forall i, vget F' i = if decide ((key / 2)%N = i) then Some (MkHeapElement ri w)
      else if decide (key = i) then Some e else vget hp i) as HF'
    by (intros; apply vget_put2; lia).
  assert (vget F (key / 2)%N = Some e) as HFe by (rewrite HF, decide_False by lia; done).
  split.
  - intros i Hi Hne x p Hx Hp. rewrite HF', decide_False in Hx by done. rewrite HF' in Hp.
    destruct (decide (key = i)) as [Hd1|Hd1].
    + injection Hx as <-. subst i. rewrite decide_True in Hp by done. injection Hp as <-.
      simpl. lia.
    + destruct (decide ((key / 2)%N = (i / 2)%N)) as [Hd2|Hd2].
      * injection Hp as <-. simpl. assert (he_weight e <= he_weight x)%Z; [|lia].
        apply (Ho i Hi); [done| |by rewrite <- Hd2]. rewrite HF, decide_False by done. done.
      * destruct (decide (key = (i / 2)%N)) as [Hd3|Hd3].
        -- injection Hp as <-. apply (Hb i x e); [done|done| |done].
           rewrite HF, decide_False by done. done.
        -- apply (Ho i Hi); [done| |]; rewrite HF, decide_False by done; done.
  - intros c x p Hc Hc0 Hx Hp. rewrite HF', decide_False in Hx by lia.
    rewrite HF', decide_False, decide_False in Hp by lia.
    assert (he_weight p <= he_weight e)%Z as Hpe.
    { apply (Ho (key / 2)%N Hpos); [lia|done|]. rewrite HF, decide_False by lia. done. }
    case_decide; [by injection Hx as <-|].
    assert (he_weight e <= he_weight x)%Z; [|lia].
    apply (Ho c Hc0); [done| |by rewrite Hc]. rewrite HF, decide_False by done. done.
Qed.

Lemma up_stop_order hp key ri w e :
  (0 < key)%N -> (key < vsize hp)%N -> vget hp (key / 2)%N = Some e -> (he_weight e <= w)%Z ->
  (forall i, (0 < i)%N -> i <> key -> ordered_at (<[N.to_nat key := MkHeapElement ri w]> hp) i) ->
  ordered (<[N.to_nat key := MkHeapElement ri w]> hp).
Proof.
  intros Hpos Hsz He Hw Ho i Hi. destruct (decide (i = key)) as [->|]; [|by apply Ho].
  intros x p. rewrite !vget_put by done. rewrite decide_True, decide_False by lia.
  intros [= <-] Hp. rewrite He in Hp. injection Hp as <-. done.
Qed.

Lemma down_step_order hp key nk di w e :
  (0 < key)%N -> (nk / 2)%N = key -> (nk < vsize hp)%N -> vget hp nk = Some e ->
  (he_weight e < w)%Z ->
  (forall c x, (c / 2)%N = key -> (0 < c)%N -> vget hp c = Some x -> (he_weight e <= he_weight x)%Z) ->
  let F := <[N.to_nat key := MkHeapElement di w]> hp in
  let F' := <[N.to_nat nk := MkHeapElement di w]> (<[N.to_nat key := e]> hp) in
  (forall i, (0 < i)%N -> (i / 2)%N <> key -> ordered_at F i) -> bridged F key ->
  (forall i, (0 < i)%N -> (i / 2)%N <> nk -> ordered_at F' i) /\ bridged F' nk.
Proof.
  intros Hpos Hnk Hsz He Hw Hmin F F' Ho Hb.
  assert (forall i, vget F i = if decide (key = i) then Some (MkHeapElement di w) else vget hp i)
    as HF by (intros; apply vget_put; lia).
  assert (forall i, vget F' i = if decide (nk = i) then Some (MkHeapElement di w)
      else if decide (key = i) then Some e else vget hp i) as HF'
    by (intros; apply vget_put2; lia).
  assert (vget F nk = Some e) as HFe by (rewrite HF, decide_False by lia; done).
  split.
  - intros i Hi Hne x p Hx Hp. rewrite HF', decide_False in Hp by congruence. rewrite HF' in Hx.
    destruct (decide (key = (i / 2)%N)) as [Hd1|Hd1].
    + injection Hp as <-. destruct (decide (nk = i)) as [Hd2|Hd2].
      * injection Hx as <-. simpl. lia.
      * rewrite decide_False in Hx by lia. by apply (Hmin i x).
    + destruct (decide (nk = i)) as [Hd2|Hd2]; [congruence|].
      destruct (decide (key = i)) as [Hd3|Hd3].
      * injection Hx as <-. subst i. apply (Hb nk e p); [done|lia|done|].
        rewrite HF, decide_False by lia. done.
      * apply (Ho i Hi); [congruence| |]; rewrite HF, decide_False by congruence; done.
  - intros c x p Hc Hc0 Hx Hp. rewrite HF', decide_False, decide_False in Hx by lia.
    rewrite HF', decide_False, decide_True in Hp by lia. injection Hp as <-.
    apply (Ho c Hc0); [lia| |by rewrite Hc]. rewrite HF, decide_False by lia. done.
Qed.

Lemma down_stop_order hp key di w :
  (0 < key)%N -> (key < vsize hp)%N ->
  (forall c x, (c / 2)%N = key -> (0 < c)%N -> vget hp c = Some x -> (w <= he_weight x)%Z) ->
  (forall i, (0 < i)%N -> (i / 2)%N <> key ->
     ordered_at (<[N.to_nat key := MkHeapElement di w]> hp) i) ->
  ordered (<[N.to_nat key := MkHeapElement di w]> hp).
Proof.
  intros Hpos Hsz Hmin Ho i Hi.
  destruct (decide ((i / 2)%N = key)) as [Heq|]; [|by apply Ho].
  intros x p. rewrite !vget_put by done. rewrite decide_False by lia.
  rewrite decide_True by done. intros Hx [= <-]. simpl. by eapply Hmin.
Qed.
Lemma shiftr_1 k : N.shiftr k 1 = (k / 2)%N.
Proof. by rewrite N.shiftr_div_pow2. Qed.

Lemma shiftl_1 k : (k < 2147483648)%N -> u32 (N.shiftl k 1) = (2 * k)%N.
Proof. intros ?. rewrite N.shiftl_mul_pow2, u32_small; lia. Qed.

(** The state of a sifting loop whose hole at [key] stands for the entry
    [(index, w)]. *)
Definition hole hp ins (key index : N) (w : Z) : Prop :=
  (0 < key)%N /\ (key < vsize hp)%N /\ (index < vsize ins)%N /\ (INT_MIN <= w)%Z /\
  sentinel hp /\
  linked (<[N.to_nat key := MkHeapElement index w]> hp) (alter (set_key key) (N.to_nat index) ins).

(** What a sifting loop delivers. *)
Definition sifted hp ins (key index : N) (w : Z) hp' ins' : Prop :=
  linked hp' ins' /\ sentinel hp' /\ ordered hp' /\ vsize hp' = vsize hp /\
  erase <$> ins' = erase <$> alter (set_key key) (N.to_nat index) ins.

Lemma sentinel_put hp key e :
  (0 < key)%N -> sentinel hp -> sentinel (<[N.to_nat key := e]> hp).
Proof.
  intros Hk (e0 & He0 & Hw). exists e0. rewrite vget_insert. by case_decide; [lia|].
Qed.

Lemma hole_step hp ins key nk index w e :
  hole hp ins key index w -> (0 < nk)%N -> nk <> key -> vget hp nk = Some e ->
  hole (<[N.to_nat key := e]> hp) (alter (set_key key) (N.to_nat (he_index e)) ins) nk index w /\
  (he_index e < vsize ins)%N /\
  erase <$> alter (set_key nk) (N.to_nat index) (alter (set_key key) (N.to_nat (he_index e)) ins)
    = erase <$> alter (set_key key) (N.to_nat index) ins.
Proof.
  intros (Hk & Hsz & Hix & Hw & Hs & HL) Hnk Hne He.
  destruct (linked_swap hp ins key nk index w e) as (Hni & (hn & Hhn & Hkn) & HL'); try done.
  split_and!; [|by eapply vget_Some_lt|].
  - unfold hole. rewrite vsize_insert, vsize_alter. split_and!; try done.
    + by eapply vget_Some_lt.
    + by apply sentinel_put.
  - rewrite (erase_alter_key_twice _ _ nk key) by lia.
    apply list_eq. intros j. rewrite !list_lookup_fmap.
    destruct (decide (N.to_nat index = j)) as [<-|Hj].
    + rewrite !list_lookup_alter_eq, list_lookup_alter_ne by lia. done.
    + rewrite !(list_lookup_alter_ne _ _ (N.to_nat index)) by done.
      rewrite <- !list_lookup_fmap. by erewrite erase_alter_key by (first [exact Hhn|lia]).
Qed.

Lemma hole_finish hp ins key index w :
  hole hp ins key index w ->
  ordered (<[N.to_nat key := MkHeapElement index w]> hp) ->
  exists hp' ins',
    (hp' ← vset hp key (MkHeapElement index w);
     ins' ← vupd ins index (set_key key);
     Some (hp', ins')) = Some (hp', ins') /\
    sifted hp ins key index w hp' ins'.
Proof.
  intros (Hk & Hsz & Hix & Hw & Hs & HL) Ho.
  rewrite vset_lt by done. simpl. rewrite vupd_lt by done. simpl.
  eexists _, _. split; [done|]. unfold sifted. rewrite vsize_insert.
  split_and!; try done. by apply sentinel_put.
Qed.

Lemma upheap_loop_ok fuel hp ins ri w key :
  (N.to_nat key < fuel)%nat -> hole hp ins key ri w ->
  (forall i, (0 < i)%N -> i <> key -> ordered_at (<[N.to_nat key := MkHeapElement ri w]> hp) i) ->
  bridged (<[N.to_nat key := MkHeapElement ri w]> hp) key ->
  exists hp' ins', upheap_loop fuel hp ins ri w key (N.shiftr key 1) = Some (hp', ins') /\
    sifted hp ins key ri w hp' ins'.
Proof.
  revert hp ins key. induction fuel as [|fuel IH]; intros hp ins key Hfuel Hh Ho Hb; [lia|].
  pose proof Hh as (Hk & Hsz & Hix & Hw & (e0 & He0 & Hw0) & HL).
  cbn [upheap_loop]. rewrite shiftr_1.
  destruct (vget_lt hp (key / 2)%N) as [e He]; [lia|]. rewrite He. cbn [mbind option_bind].
  case_ltb.
  - assert (0 < key / 2)%N as Hpos.
    { destruct (decide (0 < key / 2)%N); [done|]. exfalso.
      replace (key / 2)%N with 0%N in He by lia. rewrite He0 in He. injection He as <-. lia. }
    destruct (hole_step hp ins key (key / 2) ri w e) as (Hh' & Hei & Her); try done; [lia|].
    rewrite vset_lt by done. cbn [mbind option_bind]. rewrite vupd_lt by done.
    cbn [mbind option_bind].
    destruct (up_step_order hp key ri w e) as [Ho' Hb']; try done.
    destruct (IH _ _ (key / 2)%N ltac:(lia) Hh' Ho' Hb') as (hp' & ins' & Hrun & Hsift).
    exists hp', ins'. split; [done|]. unfold sifted in *. rewrite vsize_insert in Hsift.
    rewrite <- Her. tauto.
  - apply hole_finish; [done|]. by eapply up_stop_order.
Qed.
(** The child the loop of [Downheap] compares with. *)
Lemma smaller_child hp key :
  (0 < key)%N -> (2 * key < vsize hp)%N -> (vsize hp < 4294967296)%N ->
  exists child nk e,
    vget hp (2 * key)%N = Some child /\
    (if (uadd (2 * key) 1 <? u32 (vsize hp))%N then
       other ← vget hp (uadd (2 * key) 1);
       Some (if (he_weight other <? he_weight child)%Z then uadd (2 * key) 1 else (2 * key)%N)
     else Some (2 * key)%N) = Some nk /\
    vget hp nk = Some e /\ (nk / 2)%N = key /\ (0 < nk)%N /\
    (forall c x, (c / 2)%N = key -> (0 < c)%N -> vget hp c = Some x ->
       (he_weight e <= he_weight x)%Z).
Proof.
  intros Hk Hsz Hmax. rewrite uadd_small, u32_small by lia.
  destruct (vget_lt hp (2 * key)%N) as [child Hc]; [lia|]. exists child.
  destruct (N.ltb_spec (2 * key + 1) (vsize hp)).
  - destruct (vget_lt hp (2 * key + 1)%N) as [other Ho]; [lia|]. rewrite Ho. simpl.
    destruct (Z.ltb_spec (he_weight other) (he_weight child)).
    + exists (2 * key + 1)%N, other. split_and!; try done; try lia.
      intros c x Hck Hc0 Hx. assert (c = 2 * key \/ c = 2 * key + 1)%N as [->| ->] by lia.
      * rewrite Hc in Hx. injection Hx as <-. lia.
      * rewrite Ho in Hx. injection Hx as <-. lia.
    + exists (2 * key)%N, child. split_and!; try done; try lia.
      intros c x Hck Hc0 Hx. assert (c = 2 * key \/ c = 2 * key + 1)%N as [->| ->] by lia.
      * rewrite Hc in Hx. injection Hx as <-. lia.
      * rewrite Ho in Hx. injection Hx as <-. lia.
  - exists (2 * key)%N, child. split_and!; try done; try lia.
    intros c x Hck Hc0 Hx. apply vget_Some_lt in Hx as Hlt.
    assert (c = 2 * key)%N as -> by lia. rewrite Hc in Hx. injection Hx as <-. lia.
Qed.

Lemma downheap_loop_ok fuel hp ins di w key :
  (N.to_nat (vsize hp - key) < fuel)%nat -> (vsize hp <= 2147483648)%N ->
  hole hp ins key di w ->
  (forall i, (0 < i)%N -> (i / 2)%N <> key ->
     ordered_at (<[N.to_nat key := MkHeapElement di w]> hp) i) ->
  bridged (<[N.to_nat key := MkHeapElement di w]> hp) key ->
  exists hp' ins', downheap_loop fuel hp ins di w key (u32 (N.shiftl key 1)) = Some (hp', ins') /\
    sifted hp ins key di w hp' ins'.
Proof.
  revert hp ins key. induction fuel as [|fuel IH]; intros hp ins key Hfuel Hmax Hh Ho Hb; [lia|].
  pose proof Hh as (Hk & Hsz & Hix & Hw & Hs & HL).
  cbn [downheap_loop]. rewrite shiftl_1 by lia.
  destruct (N.ltb_spec (2 * key) (u32 (vsize hp))) as [Hlt|Hge]; rewrite u32_small in * by lia.
  - destruct (smaller_child hp key) as (child & nk & e & Hc & Hsel & He & Hnk & Hnk0 & Hmin);
      [done..|lia|]. rewrite u32_small in Hsel by lia.
    rewrite Hc. cbn [mbind option_bind]. cbn [mbind option_bind] in Hsel. rewrite Hsel.
    cbn [mbind option_bind]. rewrite He. cbn [mbind option_bind].
    destruct (Z.leb_spec w (he_weight e)) as [Hle|Hgt].
    + apply hole_finish; [done|]. apply down_stop_order; try done.
      intros c x Hck Hc0 Hx. etransitivity; [exact Hle|]. by eapply Hmin.
    + assert (nk < vsize hp)%N by (by eapply vget_Some_lt).
      destruct (hole_step hp ins key nk di w e) as (Hh' & Hei & Her); try done; [lia|].
      rewrite vset_lt by done. cbn [mbind option_bind]. rewrite vupd_lt by done.
      cbn [mbind option_bind].
      destruct (down_step_order hp key nk di w e) as [Ho' Hb']; try done.
      destruct (IH (<[N.to_nat key := e]> hp) (alter (set_key key) (N.to_nat (he_index e)) ins) nk)
        as (hp' & ins' & Hrun & Hsift);
        [rewrite vsize_insert; lia|by rewrite vsize_insert|exact Hh'|exact Ho'|exact Hb'|].
      exists hp', ins'. split; [done|]. unfold sifted in *. rewrite vsize_insert in Hsift.
      rewrite <- Her. tauto.
  - apply hole_finish; [done|]. apply down_stop_order; try done.
    intros c x Hck Hc0 Hx. apply vget_Some_lt in Hx. lia.
Qed.
End arrays.

(** ** The abstract priority queue

    The heap stands for the map from every node inserted since the last
    [Clear] to its weight, its data and whether it is still queued. *)

Section contents.
  Context {D : Type}.
  Implicit Types ins : list (HeapNode D).

Definition content (hn : HeapNode D) : Z * D * bool :=
  (hn_weight hn, hn_data hn, negb (hn_key hn =? 0)%N).

Definition contents ins : gmap N (Z * D * bool) :=
  list_to_map ((fun x => (x.1.1.1, (x.1.1.2, x.1.2, x.2))) <$> (erase <$> ins)).

(** [m] maps every inserted node to its slot. *)
Definition indexed (X : gset N) (m : gmap N N) ins : Prop :=
  forall j hn, vget ins j = Some hn -> m !! hn_node hn = Some j /\ hn_node hn ∈ X.

Lemma erase_vget ins ins' j hn' :
  erase <$> ins' = erase <$> ins -> vget ins' j = Some hn' ->
  exists hn, vget ins j = Some hn /\ erase hn = erase hn'.
Proof.
  rewrite !vget_lookup. intros Heq Hj.
  apply (f_equal (.!! N.to_nat j)) in Heq. rewrite !list_lookup_fmap, Hj in Heq.
  destruct (ins !! N.to_nat j) as [hn|]; [|done]. injection Heq as ?. exists hn.
  split; [done|]. unfold erase in *. congruence.
Qed.

Lemma indexed_erase X m ins ins' :
  erase <$> ins' = erase <$> ins -> indexed X m ins -> indexed X m ins'.
Proof.
  intros Heq Hm j hn' Hj. destruct (erase_vget _ _ _ _ Heq Hj) as (hn & Hhn & He).
  injection He as He _ _ _. rewrite <- He. by apply Hm.
Qed.

Lemma contents_erase ins ins' :
  erase <$> ins' = erase <$> ins -> contents ins' = contents ins.
Proof. unfold contents. by intros ->. Qed.

Lemma vsize_erase ins ins' : erase <$> ins' = erase <$> ins -> vsize ins' = vsize ins.
Proof.
  intros Heq. apply (f_equal length) in Heq. rewrite !length_fmap in Heq.
  unfold vsize. by rewrite Heq.
Qed.

Lemma contents_NoDup X m ins :
  indexed X m ins ->
  NoDup (((fun x => (x.1.1.1, (x.1.1.2, x.1.2, x.2))) <$> (erase <$> ins)).*1).
Proof.
  intros Hm. rewrite <- !list_fmap_compose. apply NoDup_alt. intros i j y.
  rewrite !list_lookup_fmap. intros Hi Hj.
  destruct (ins !! i) as [h1|] eqn:E1; [|done]. destruct (ins !! j) as [h2|] eqn:E2; [|done].
  injection Hi as Hi. injection Hj as Hj. simpl in Hi, Hj.
  destruct (Hm (N.of_nat i) h1) as [H1 _]; [by rewrite vget_lookup, Nat2N.id|].
  destruct (Hm (N.of_nat j) h2) as [H2 _]; [by rewrite vget_lookup, Nat2N.id|].
  rewrite Hi in H1. rewrite Hj in H2. rewrite H1 in H2. injection H2. lia.
Qed.

Lemma contents_lookup X m ins n x :
  indexed X m ins ->
  contents ins !! n = Some x <->
  exists j hn, vget ins j = Some hn /\ hn_node hn = n /\ content hn = x.
Proof.
  intros Hm. unfold contents. rewrite <- elem_of_list_to_map by by eapply contents_NoDup.
  rewrite <- list_fmap_compose, list_elem_of_fmap. split.
  - intros (hn & [= -> ->] & Hin). apply list_elem_of_lookup in Hin as [i Hi].
    exists (N.of_nat i), hn. rewrite vget_lookup, Nat2N.id. done.
  - intros (j & hn & Hj & <- & <-). exists hn. split; [done|].
    rewrite vget_lookup in Hj. by eapply list_elem_of_lookup_2.
Qed.

Lemma contents_node X m ins j hn :
  indexed X m ins -> vget ins j = Some hn -> contents ins !! hn_node hn = Some (content hn).
Proof. intros Hm Hj. apply (contents_lookup X m); eauto. Qed.

Lemma contents_snoc X m ins hn :
  indexed X m (ins ++ [hn]) ->
  contents (ins ++ [hn]) = <[hn_node hn := content hn]> (contents ins).
Proof.
  intros Hm. assert (indexed X m ins) as Hm'.
  { intros j hn' Hj. apply Hm. rewrite vget_snoc. apply vget_Some_lt in Hj as Hlt.
    by case_decide; [lia|]. }
  apply map_eq. intros n. apply option_eq. intros x.
  rewrite (contents_lookup X m) by done. rewrite lookup_insert_Some.
  rewrite (contents_lookup X m) by done. split.
  - intros (j & hn' & Hj & Hn & Hx). rewrite vget_snoc in Hj. case_decide as Hd.
    + injection Hj as <-. left. done.
    + right. split; [|by eauto]. intros Heq.
      destruct (Hm (vsize ins) hn) as [H1 _]; [by rewrite vget_snoc, decide_True|].
      destruct (Hm' j hn') as [H2 _]; [done|]. rewrite Hn, <- Heq, H1 in H2.
      injection H2. congruence.
  - intros [[<- <-]|[Hne (j & hn' & Hj & Hn & Hx)]].
    + exists (vsize ins), hn. by rewrite vget_snoc, decide_True.
    + exists j, hn'. rewrite vget_snoc. apply vget_Some_lt in Hj as Hlt.
      by case_decide; [lia|].
Qed.

Lemma indexed_alter X m ins j f :
  (forall hn, hn_node (f hn) = hn_node hn) ->
  indexed X m ins -> indexed X m (alter f (N.to_nat j) ins).
Proof.
  intros Hf Hm i hn. rewrite vget_alter. case_decide; [|apply Hm].
  destruct (vget ins i) as [hn0|] eqn:E; [|done]. intros [= <-]. rewrite Hf. by apply Hm.
Qed.

Lemma contents_alter X m ins j f hn :
  (forall hn, hn_node (f hn) = hn_node hn) ->
  indexed X m ins -> vget ins j = Some hn ->
  contents (alter f (N.to_nat j) ins) = <[hn_node hn := content (f hn)]> (contents ins).
Proof.
  intros Hf Hm Hj. pose proof (indexed_alter X m ins j f Hf Hm) as Hm'.
  apply map_eq. intros n. apply option_eq. intros x.
  rewrite (contents_lookup X m) by done. rewrite lookup_insert_Some.
  rewrite (contents_lookup X m) by done. split.
  - intros (i & hn' & Hi & Hn & Hx). rewrite vget_alter in Hi. case_decide as Hd.
    + subst i. rewrite Hj in Hi. injection Hi as <-. left. by rewrite <- Hf.
    + right. split; [|by eauto]. intros Heq.
      destruct (Hm i hn') as [H1 _]; [done|]. destruct (Hm j hn) as [H2 _]; [done|].
      rewrite Hn, <- Heq, H2 in H1. injection H1. congruence.
  - intros [[<- <-]|[Hne (i & hn' & Hi & Hn & Hx)]].
    + exists j, (f hn). rewrite vget_alter, decide_True, Hj by done. split_and!; done.
    + exists i, hn'. rewrite vget_alter. case_decide as Hd; [|done]. subst i. congruence.
Qed.
End contents.

(** ** The heap invariant *)

Section heap_spec.
  Context {D St : Type} `{IndexStorageLaws St}.
  Implicit Types h : BinaryHeap D St.

(** [X] is the set of nodes the index table serves, [c] the number of times
    it may still be cleared. *)
Record heap_wf (X : gset N) (c : N) h : Prop := {
  hw_linked : linked (heap h) (inserted_nodes h);
  hw_sentinel : sentinel (heap h);
  hw_ordered : ordered (heap h);
  hw_size : (vsize (heap h) <= vsize (inserted_nodes h) + 1)%N;
  hw_bound : (vsize (inserted_nodes h) < 2147483648)%N;
  hw_index : exists m, st_rep X c (node_index h) m /\ indexed X m (inserted_nodes h);
}.

Definition queue h : gmap N (Z * D * bool) := contents (inserted_nodes h).

Lemma reset_heap_ok (hp : list HeapElement) :
  vsize (reset_heap hp) = 1%N /\ sentinel (reset_heap hp).
Proof.
  unfold reset_heap, vresize, sentinel. destruct hp as [|e hp]; simpl.
  - split; [done|]. by eexists.
  - split; [done|]. by eexists.
Qed.

Lemma singleton_heap_ok (hp : list HeapElement) (ins : list (HeapNode D)) :
  vsize hp = 1%N -> (forall j hn, vget ins j = Some hn -> hn_key hn = 0%N) ->
  linked hp ins /\ ordered hp.
Proof.
  intros Hsz Hk. split; [split|].
  - intros i e Hi He%vget_Some_lt. lia.
  - intros j hn Hj Hne. by apply Hk in Hj.
  - intros i Hi e p He%vget_Some_lt. lia.
Qed.

Lemma clear_wf X c h m :
  st_rep X (c + 1) (node_index h) m -> heap_wf X c (Clear h) /\ queue (Clear h) = ∅.
Proof.
  intros Hs. split; [|done]. destruct (reset_heap_ok (heap h)) as [Hsz Hsent].
  destruct (singleton_heap_ok (reset_heap (heap h)) []) as [HL HO]; [done|by intros j hn; rewrite vget_nil|].
  constructor; cbn [Clear heap inserted_nodes node_index]; try done; try (rewrite Hsz; done).
  exists ∅. split; [by eapply st_clear_ok|]. intros j hn. by rewrite vget_nil.
Qed.

Lemma heap_wf_weaken X c c' h : (c' <= c)%N -> heap_wf X c h -> heap_wf X c' h.
Proof.
  intros Hc [HL Hs Ho Hsz Hbd (m & Hm & Hi)]. constructor; try done.
  exists m. split; [|done]. by eapply st_weaken.
Qed.

Lemma top_min (hp : list HeapElement) i top e :
  ordered hp -> vget hp 1 = Some top -> (0 < i)%N -> vget hp i = Some e ->
  (he_weight top <= he_weight e)%Z.
Proof.
  intros Ho Htop. revert e. induction i as [i IH] using (well_founded_induction N.lt_wf_0).
  intros e Hi He. destruct (decide (i = 1%N)) as [->|Hne]; [rewrite Htop in He; by injection He as <-|].
  destruct (vget_lt hp (i / 2)%N) as [p Hp]; [apply vget_Some_lt in He; lia|].
  transitivity (he_weight p); [apply (IH (i / 2)%N); [lia|lia|done]|by apply (Ho i)].
Qed.

Lemma weight_min (hp : list HeapElement) i e :
  sentinel hp -> ordered hp -> (0 < i)%N -> vget hp i = Some e -> (INT_MIN <= he_weight e)%Z.
Proof.
  intros (s & Hs & Hw) Ho Hi He. apply vget_Some_lt in He as Hsz.
  destruct (vget_lt hp 1) as [top Htop]; [lia|].
  transitivity (he_weight top); [|by eapply top_min].
  rewrite <- Hw. by apply (Ho 1%N).
Qed.

(** A node at its own position is a hole filled with itself. *)
Lemma hole_self (hp : list HeapElement) (ins : list (HeapNode D)) key e :
  linked hp ins -> sentinel hp -> (0 < key)%N -> vget hp key = Some e ->
  (INT_MIN <= he_weight e)%Z ->
  <[N.to_nat key := MkHeapElement (he_index e) (he_weight e)]> hp = hp /\
  alter (set_key key) (N.to_nat (he_index e)) ins = ins /\
  hole hp ins key (he_index e) (he_weight e).
Proof.
  intros HL Hs Hk He Hw. destruct (proj1 HL key e Hk He) as (hn & Hhn & Hkey & _).
  assert (<[N.to_nat key := MkHeapElement (he_index e) (he_weight e)]> hp = hp) as H1.
  { apply list_insert_id. rewrite vget_lookup in He. by destruct e. }
  assert (alter (set_key key) (N.to_nat (he_index e)) ins = ins) as H2.
  { apply (alter_self _ _ _ hn Hhn). destruct hn. simpl in *. by subst. }
  split_and!; [done|done|]. unfold hole. rewrite H1, H2.
  apply vget_Some_lt in He, Hhn. done.
Qed.

Lemma Upheap_ok key h e :
  linked (heap h) (inserted_nodes h) -> sentinel (heap h) -> (0 < key)%N ->
  vget (heap h) key = Some e -> (INT_MIN <= he_weight e)%Z ->
  (forall i, (0 < i)%N -> i <> key -> ordered_at (heap h) i) -> bridged (heap h) key ->
  exists h', Upheap key h = Some h' /\ node_index h' = node_index h /\
    linked (heap h') (inserted_nodes h') /\ sentinel (heap h') /\ ordered (heap h') /\
    vsize (heap h') = vsize (heap h) /\
    erase <$> inserted_nodes h' = erase <$> inserted_nodes h.
Proof.
  intros HL Hs Hk He Hw Ho Hb. destruct (hole_self _ _ key e HL Hs Hk He Hw) as (H1 & H2 & Hh).
  destruct (upheap_loop_ok (S (length (heap h))) (heap h) (inserted_nodes h) (he_index e)
    (he_weight e) key) as (hp' & ins' & Hrun & HL' & Hs' & Ho' & Hsz & Her).
  { apply vget_Some_lt in He. unfold vsize in He. lia. }
  { done. } { by rewrite H1. } { by rewrite H1. }
  exists (MkBinaryHeap ins' hp' (node_index h)). unfold Upheap. rewrite He. cbn [mbind option_bind].
  rewrite Hrun. rewrite H2 in Her. done.
Qed.

Lemma snoc_arrays (hp : list HeapElement) (ins : list (HeapNode D)) node w d :
  linked hp ins -> sentinel hp -> ordered hp ->
  let e := MkHeapElement (vsize ins) w in
  let hn := MkHeapNode node (vsize hp) w d in
  linked (hp ++ [e]) (ins ++ [hn]) /\ sentinel (hp ++ [e]) /\
  vget (hp ++ [e]) (vsize hp) = Some e /\
  (forall i, (0 < i)%N -> i <> vsize hp -> ordered_at (hp ++ [e]) i) /\
  bridged (hp ++ [e]) (vsize hp).
Proof.
  intros [L1 L2] (s & Hs & Hsw) Ho e hn. apply vget_Some_lt in Hs as Hpos. split_and!; [split|..].
  - intros i x Hi. rewrite vget_snoc. case_decide as Hd.
    + intros [= <-]. exists hn. simpl. by rewrite vget_snoc, decide_True.
    + intros Hx. destruct (L1 i x Hi Hx) as (y & Hy & Hrest). exists y. rewrite vget_snoc.
      apply vget_Some_lt in Hy as ?. by rewrite decide_False by lia.
  - intros j y. rewrite vget_snoc. case_decide as Hd.
    + intros [= <-] _. exists e. simpl. by rewrite vget_snoc, decide_True.
    + intros Hy Hk. destruct (L2 j y Hy Hk) as (x & Hx & Hj). exists x. rewrite vget_snoc.
      apply vget_Some_lt in Hx as ?. by rewrite decide_False by lia.
  - exists s. rewrite vget_snoc, decide_False by lia. done.
  - by rewrite vget_snoc, decide_True.
  - intros i Hi Hne x p. rewrite !vget_snoc, decide_False by done. intros Hx.
    apply vget_Some_lt in Hx as ?. rewrite decide_False by lia. by apply Ho.
  - intros c x p Hc Hc0 Hx. apply vget_Some_lt in Hx. rewrite vsize_app in Hx.
    unfold vsize in *. simpl in *. lia.
Qed.

Lemma wf_sifted X c h h' m :
  linked (heap h') (inserted_nodes h') -> sentinel (heap h') -> ordered (heap h') ->
  (vsize (heap h') <= vsize (inserted_nodes h) + 1)%N ->
  (vsize (inserted_nodes h) < 2147483648)%N ->
  erase <$> inserted_nodes h' = erase <$> inserted_nodes h ->
  st_rep X c (node_index h') m -> indexed X m (inserted_nodes h) ->
  heap_wf X c h' /\ queue h' = queue h.
Proof.
  intros HL Hs Ho Hsz Hbd Her Hm Hidx. apply vsize_erase in Her as Hv. split.
  - constructor; try done; [by rewrite Hv|by rewrite Hv|].
    exists m. split; [done|]. by eapply indexed_erase.
  - by apply contents_erase.
Qed.

Lemma insert_ok X c h node w d :
  heap_wf X c h -> node ∈ X -> queue h !! node = None -> (INT_MIN <= w)%Z ->
  (vsize (inserted_nodes h) + 1 < 2147483648)%N ->
  exists h', Insert node w d h = Some h' /\ heap_wf X c h' /\
    queue h' = <[node := (w, d, true)]> (queue h).
Proof.
  intros [HL Hs Ho Hsz Hbd (m & Hm & Hidx)] Hn Hq Hw Hlim.
  assert (0 < vsize (heap h))%N as Hpos by (destruct Hs as (? & ?%vget_Some_lt & _); lia).
  unfold Insert. rewrite (u32_small (vsize (inserted_nodes h))), (u32_small (vsize (heap h)))
    by lia.
  destruct (st_write_ok X c (node_index h) m node (vsize (inserted_nodes h)) Hm Hn)
    as (s' & Hwr & Hm').
  rewrite Hwr. cbn [mbind option_bind].
  set (hn := MkHeapNode node (vsize (heap h)) w d).
  assert (indexed X (<[node := vsize (inserted_nodes h)]> m) (inserted_nodes h ++ [hn])) as Hidx'.
  { intros j hn' Hj. rewrite vget_snoc in Hj. case_decide as Hd.
    - injection Hj as <-. subst j. simpl. by rewrite lookup_insert_eq.
    - destruct (Hidx j hn' Hj) as [H1 H2]. split; [|done]. rewrite lookup_insert_ne; [done|].
      intros ->. unfold queue in Hq. by rewrite (contents_node X m _ j hn') in Hq. }
  destruct (snoc_arrays (heap h) (inserted_nodes h) node w d HL Hs Ho) as (HL1 & Hs1 & He1 & Ho1 & Hb1).
  fold hn in HL1.
  set (h1 := MkBinaryHeap (inserted_nodes h ++ [hn])
    (heap h ++ [MkHeapElement (vsize (inserted_nodes h)) w]) s').
  destruct (Upheap_ok (vsize (heap h)) h1 (MkHeapElement (vsize (inserted_nodes h)) w))
    as (h' & Hrun & Hni & HL' & Hs' & Ho' & Hsz' & Her); [done..|].
  exists h'. split; [done|].
  assert (queue h1 = <[node := (w, d, true)]> (queue h)) as <-.
  { unfold queue. cbn [h1 inserted_nodes]. rewrite (contents_snoc X _ _ _ Hidx').
    unfold content. simpl. case_ltb; [lia|done]. }
  apply (wf_sifted X c h1 h' (<[node := vsize (inserted_nodes h)]> m) HL' Hs' Ho'); [| |done|by rewrite Hni|done];
    subst h1; cbn [heap inserted_nodes] in *; rewrite ?Hsz', !vsize_app; unfold vsize in *;
    simpl in *; lia.
Qed.


(** Reading through the index table leaves the abstract queue alone. *)
Lemma slot_ok X c h n x :
  heap_wf X c h -> queue h !! n = Some x ->
  exists j hn s' m, slot n h = Some (j, hn, MkBinaryHeap (inserted_nodes h) (heap h) s') /\
    vget (inserted_nodes h) j = Some hn /\ hn_node hn = n /\ content hn = x /\
    st_rep X c s' m /\ indexed X m (inserted_nodes h).
Proof.
  intros [HL Hs Ho Hsz Hbd (m & Hm & Hidx)] Hq.
  apply (contents_lookup X m) in Hq as (j & hn & Hj & Hn & Hx); [|done].
  destruct (Hidx j hn Hj) as [Hmj HX]. rewrite Hn in *.
  destruct (st_read_ok X c (node_index h) m n Hm HX) as (k & s' & Hread & Hm' & Hk).
  apply Hk in Hmj. subst k. exists j, hn, s', m. unfold slot. rewrite Hread. cbn [mbind option_bind].
  rewrite Hj. done.
Qed.

Lemma read_wf X c h s' m :
  heap_wf X c h -> st_rep X c s' m -> indexed X m (inserted_nodes h) ->
  heap_wf X c (MkBinaryHeap (inserted_nodes h) (heap h) s').
Proof. intros [] ??. constructor; eauto. Qed.

(** Lowering the weight of the entry at [key] in both arrays. *)
Lemma lower_arrays (hp : list HeapElement) (ins : list (HeapNode D)) j hn w :
  linked hp ins -> sentinel hp -> ordered hp ->
  vget ins j = Some hn -> hn_key hn <> 0%N -> (INT_MIN <= w <= hn_weight hn)%Z ->
  let key := hn_key hn in
  let hp' := alter (set_he_weight w) (N.to_nat key) hp in
  let ins' := alter (set_weight w) (N.to_nat j) ins in
  linked hp' ins' /\ sentinel hp' /\ (exists e, vget hp' key = Some e /\ he_weight e = w) /\
  (forall i, (0 < i)%N -> i <> key -> ordered_at hp' i) /\ bridged hp' key.
Proof.
  intros HL Hs Ho Hj Hk Hw key hp' ins'. destruct (proj2 HL j hn Hj Hk) as (e & He & Hej).
  assert (he_weight e = hn_weight hn) as Hew.
  { destruct (proj1 HL key e) as (hn' & Hhn' & _ & Hwe); [lia|done|]. congruence. }
  assert (forall i, vget hp' i = if decide (key = i) then Some (set_he_weight w e) else vget hp i) as Hget.
  { intros i. unfold hp'. rewrite vget_alter. case_decide as Hd; [|done]. rewrite <- Hd.
    unfold key. by rewrite He. }
  split_and!; [split|..].
  - intros i x Hi. rewrite Hget. unfold ins'. case_decide as Hd.
    + intros [= <-]. exists (set_weight w hn). simpl. rewrite Hej, vget_alter, decide_True, Hj by done.
      split_and!; [done|by rewrite <- Hd|done].
    + intros Hx. destruct (proj1 HL i x Hi Hx) as (y & Hy & Hky & Hwy). exists y.
      rewrite vget_alter. case_decide as Hd2; [|done]. exfalso. apply Hd. unfold key in *. congruence.
  - intros i y. unfold ins'. rewrite vget_alter. case_decide as Hd.
    + subst i. rewrite Hj. intros [= <-] _. simpl. exists (set_he_weight w e).
      rewrite Hget, decide_True by done. done.
    + intros Hy Hky. destruct (proj2 HL i y Hy Hky) as (x & Hx & Hix). exists x.
      rewrite Hget. case_decide as Hd2; [|done]. exfalso. apply Hd. unfold key in *. congruence.
  - destruct Hs as (s & Hs & Hsw). exists s. rewrite Hget, decide_False by (unfold key; lia). done.
  - eexists. rewrite Hget, decide_True by done. done.
  - intros i Hi Hne x p. rewrite !Hget, decide_False by done. intros Hx. case_decide as Hd.
    + intros [= <-]. simpl. assert (he_weight e <= he_weight x)%Z; [|lia].
      apply (Ho i Hi); [done|]. by rewrite <- Hd.
    + by apply Ho.
  - intros c x p Hc Hc0. rewrite !Hget, decide_False by (unfold key in *; lia). intros Hx.
    rewrite decide_False by (unfold key in *; lia). intros Hp.
    transitivity (he_weight e); [by apply (Ho key); [unfold key; lia|..]|].
    apply (Ho c Hc0); [done|]. by rewrite Hc.
Qed.

Lemma decrease_ok X c h n w0 d w :
  heap_wf X c h -> queue h !! n = Some (w0, d, true) -> (INT_MIN <= w <= w0)%Z ->
  exists h', DecreaseKey n w h = Some h' /\ heap_wf X c h' /\
    queue h' = <[n := (w, d, true)]> (queue h).
Proof.
  intros Hwf Hq Hw.
  destruct (slot_ok X c h n _ Hwf Hq) as (j & hn & s' & m & Hslot & Hj & Hn & Hx & Hm & Hidx).
  destruct Hwf as [HL Hs Ho Hsz Hbd _]. unfold content in Hx. injection Hx as Hwt Hd Hk.
  assert (hn_key hn <> 0%N) as Hk0 by (intros E; by rewrite E in Hk).
  destruct (lower_arrays (heap h) (inserted_nodes h) j hn w HL Hs Ho Hj Hk0)
    as (HL1 & Hs1 & (e1 & He1 & Hw1) & Ho1 & Hb1); [by rewrite Hwt|].
  unfold DecreaseKey. rewrite Hslot. cbn [mbind option_bind inserted_nodes heap].
  assert (j < vsize (inserted_nodes h))%N as Hjlt by (by eapply vget_Some_lt).
  assert (hn_key hn < vsize (heap h))%N as Hklt.
  { apply vget_Some_lt in He1. by rewrite vsize_alter in He1. }
  rewrite vset_lt, vupd_lt by done. cbn [mbind option_bind node_index].
  rewrite (insert_alter _ _ _ hn) by done.
  set (h1 := MkBinaryHeap (alter (set_weight w) (N.to_nat j) (inserted_nodes h))
    (alter (set_he_weight w) (N.to_nat (hn_key hn)) (heap h)) s').
  destruct (Upheap_ok (hn_key hn) h1 e1) as (h' & Hrun & Hni & HL' & Hs' & Ho' & Hsz' & Her);
    [done|done|lia|done|lia|done|done|].
  exists h'. split; [done|].
  assert (queue h1 = <[n := (w, d, true)]> (queue h)) as <-.
  { unfold queue. cbn [h1 inserted_nodes]. rewrite (contents_alter X m _ j _ hn) by done.
    unfold content. simpl. by rewrite Hk, Hn, Hd. }
  apply (wf_sifted X c h1 h' m HL' Hs' Ho'); subst h1; cbn [heap inserted_nodes] in *;
    rewrite ?Hsz', ?vsize_alter; try done; [by rewrite Hni|by apply indexed_alter].
Qed.


Lemma vupd_alter_ne {A} (l : list A) i j f g :
  i <> j -> vupd (alter f (N.to_nat j) l) i g = alter f (N.to_nat j) <$> vupd l i g.
Proof.
  intros Hne. destruct (decide (i < vsize l)%N) as [Hlt|Hge].
  - rewrite !vupd_lt by (by rewrite ?vsize_alter). simpl. f_equal. apply list_alter_alter_ne. lia.
  - unfold vupd. rewrite !vget_None by (rewrite ?vsize_alter; lia). done.
Qed.

(** Sifting down does not touch a node that is not in the heap, so zeroing
    its key can be done before or after. *)
Lemma downheap_frame fuel : forall (hp : list HeapElement) (ins : list (HeapNode D)) di w key nk r,
  (vsize hp <= 2147483648)%N -> di <> r -> (0 < nk)%N ->
  (forall i e, (0 < i)%N -> vget hp i = Some e -> he_index e <> r) ->
  downheap_loop fuel hp (alter (set_key 0) (N.to_nat r) ins) di w key nk =
    prod_map id (alter (set_key 0) (N.to_nat r)) <$> downheap_loop fuel hp ins di w key nk.
Proof.
  induction fuel as [|fuel IH]; intros hp ins di w key nk r Hsz Hdi Hnk Hr; [done|].
  assert ((hp' ← vset hp key (MkHeapElement di w);
      ins' ← vupd (alter (set_key 0) (N.to_nat r) ins) di (set_key key); Some (hp', ins')) =
    prod_map id (alter (set_key 0) (N.to_nat r)) <$>
      (hp' ← vset hp key (MkHeapElement di w); ins' ← vupd ins di (set_key key); Some (hp', ins')))
    as Hfin.
  { destruct (vset hp key _) as [hp'|]; [|done]. cbn [mbind option_bind].
    rewrite vupd_alter_ne by done. by destruct (vupd ins di _). }
  cbn [downheap_loop]. rewrite (u32_small (vsize hp)) by lia. case_ltb; [|done].
  assert (uadd nk 1 = nk + 1)%N as Hother by (apply uadd_small; lia).
  destruct (vget_lt hp nk) as [child Hchild]; [done|]. rewrite Hchild. cbn [mbind option_bind].
  match goal with |- context [if (uadd nk 1 <? _)%N then ?a else ?b] =>
    destruct (if (uadd nk 1 <? vsize hp)%N then a else b) as [nk'|] eqn:Enk end; [|done].
  assert (0 < nk')%N as Hnk'.
  { rewrite Hother in Enk. revert Enk. case_ltb; [|congruence].
    destruct (vget hp (nk + 1)) as [other|]; [|done]. cbn [mbind option_bind].
    case_ltb; intros [= <-]; lia. }
  cbn [mbind option_bind]. destruct (vget hp nk') as [e|] eqn:He; [|done].
  cbn [mbind option_bind]. destruct (w <=? he_weight e)%Z; [exact Hfin|].
  destruct (vset hp key e) as [hp'|] eqn:Eset; [|done]. cbn [mbind option_bind].
  rewrite vupd_alter_ne by (by eapply Hr). destruct (vupd ins (he_index e) _) as [ins'|]; [|done].
  apply vset_Some in Eset as [Hkey ->]. apply vget_Some_lt in He as Hlt. simpl. apply IH; [|done| |].
  - by rewrite vsize_insert.
  - rewrite shiftl_1 by lia. lia.
  - intros i x Hi. rewrite vget_put by done. case_decide; [|by apply Hr].
    intros [= <-]. by apply (Hr nk').
Qed.

(** The heap after its last entry has replaced the first. *)
Lemma vget_popped (hp : list HeapElement) back i :
  (1 < vsize hp)%N ->
  vget (vpop (<[1%nat := back]> hp)) i =
    if decide (i < vsize hp - 1)%N then if decide (1%N = i) then Some back else vget hp i else None.
Proof.
  intros Hsz. rewrite vget_lookup. unfold vpop, vsize in *. rewrite length_insert. case_decide as Hd.
  - rewrite lookup_take_lt by lia. change 1%nat with (N.to_nat 1).
    rewrite <- vget_lookup, vget_put; [done|]. unfold vsize. lia.
  - apply lookup_take_ge. lia.
Qed.

Lemma vsize_popped (hp : list HeapElement) back :
  vsize (vpop (<[1%nat := back]> hp)) = (vsize hp - 1)%N.
Proof. unfold vpop, vsize. rewrite length_take, length_insert. lia. Qed.

(** The indices of two positions of a linked heap differ. *)
Lemma linked_inj (hp : list HeapElement) (ins : list (HeapNode D)) i i' e e' :
  linked hp ins -> (0 < i)%N -> (0 < i')%N -> vget hp i = Some e -> vget hp i' = Some e' ->
  he_index e = he_index e' -> i = i'.
Proof.
  intros [L1 _] Hi Hi' He He' Heq.
  destruct (L1 i e Hi He) as (x & Hx & Hk & _). destruct (L1 i' e' Hi' He') as (y & Hy & Hk' & _).
  congruence.
Qed.

Lemma pop_hole (hp : list HeapElement) (ins : list (HeapNode D)) top back :
  linked hp ins -> sentinel hp -> ordered hp -> (2 < vsize hp)%N ->
  vget hp 1 = Some top -> vget hp (vsize hp - 1) = Some back ->
  hole (vpop (<[1%nat := back]> hp)) (alter (set_key 0) (N.to_nat (he_index top)) ins)
    1 (he_index back) (he_weight back).
Proof.
  intros HL Hs Ho Hsz Htop Hback. set (hp1 := vpop (<[1%nat := back]> hp)).
  assert (forall i, vget hp1 i = if decide (i < vsize hp - 1)%N then
    if decide (1%N = i) then Some back else vget hp i else None) as Hget
    by (intros; apply vget_popped; lia).
  assert (vsize hp1 = vsize hp - 1)%N as Hsz1 by apply vsize_popped.
  assert (forall i e, (0 < i)%N -> i <> 1%N -> vget hp i = Some e -> he_index e <> he_index top) as Hnt.
  { intros i e Hi Hne He Heq. apply Hne. by eapply (linked_inj hp ins). }
  assert (forall i e, (0 < i)%N -> i <> (vsize hp - 1)%N -> vget hp i = Some e ->
    he_index e <> he_index back) as Hnb.
  { intros i e Hi Hne He Heq. apply Hne. eapply (linked_inj hp ins); eauto. lia. }
  assert (he_index back <> he_index top) as Hbt by (eapply Hnt; [| |done]; lia).
  destruct (proj1 HL _ _ (ltac:(lia) : (0 < vsize hp - 1)%N) Hback) as (hb & Hhb & Hkb & Hwb).
  unfold hole. rewrite vsize_alter, Hsz1. split_and!; [lia|lia|by eapply vget_Some_lt| | |].
  { eapply weight_min; [done|done| |done]. lia. }
  { destruct Hs as (s & Hs & Hsw). exists s. by rewrite Hget, decide_True, decide_False by lia. }
  split.
  - intros i e Hi. rewrite vget_put, Hget by lia. case_decide as Hd.
    + intros [= <-]. exists (set_key 1 hb). cbn [he_index he_weight].
      rewrite !vget_alter, decide_True, decide_False, Hhb by done. simpl. by rewrite <- Hd.
    + case_decide; [|done]. intros He. destruct (proj1 HL i e Hi He) as (y & Hy & Hrest).
      exists y. rewrite !vget_alter, decide_False, decide_False; [done| |].
      * intros E. by eapply Hnt.
      * intros E. by apply (Hnb i e); [|lia|..].
  - intros j y. rewrite !vget_alter. destruct (decide (he_index back = j)) as [<-|Hnj].
    + rewrite decide_False, Hhb by done. intros [= <-] _. eexists. cbn [hn_key set_key].
      rewrite vget_put, decide_True by (lia || done). done.
    + case_decide as Hd.
      { destruct (vget ins j); [|done]. by intros [= <-]. }
      intros Hy Hk. destruct (proj2 HL j y Hy Hk) as (e & He & Hj). exists e.
      assert (hn_key y <> 1%N) by (intros E; rewrite E in He; congruence).
      assert (hn_key y <> vsize hp - 1)%N by (intros E; rewrite E in He; congruence).
      apply vget_Some_lt in He as Hlt. rewrite vget_put, Hget, decide_False, decide_True by lia.
      by rewrite decide_False by done.
Qed.

Lemma pop_order (hp : list HeapElement) back :
  sentinel hp -> ordered hp -> (2 < vsize hp)%N -> vget hp (vsize hp - 1) = Some back ->
  let hp1 := vpop (<[1%nat := back]> hp) in
  (forall i, (0 < i)%N -> (i / 2)%N <> 1%N -> ordered_at hp1 i) /\ bridged hp1 1.
Proof.
  intros Hs Ho Hsz Hback hp1.
  assert (forall i, vget hp1 i = if decide (i < vsize hp - 1)%N then
    if decide (1%N = i) then Some back else vget hp i else None) as Hget
    by (intros; apply vget_popped; lia).
  destruct Hs as (s & Hs & Hsw).
  assert (forall i e, (0 < i)%N -> vget hp i = Some e -> (he_weight s <= he_weight e)%Z) as Hmin.
  { intros i e Hi He. rewrite Hsw. eapply weight_min; [by exists s|done|done|done]. }
  split.
  - intros i Hi Hne e p. rewrite !Hget. case_decide; [|done].
    rewrite (decide_True (P := (i / 2 < _)%N)) by lia.
    rewrite (decide_False (P := 1%N = (i / 2)%N)) by done.
    case_decide as Hd; [|by apply Ho]. subst i. intros [= <-]. change (1 / 2)%N with 0%N.
    rewrite Hs. intros [= <-]. apply (Hmin (vsize hp - 1)%N); [lia|done].
  - intros c e p Hc Hc0. rewrite !Hget. change (1 / 2)%N with 0%N. case_decide; [|done].
    rewrite decide_False by lia. intros He. rewrite decide_True, decide_False, Hs by lia.
    intros [= <-]. by apply (Hmin c).
Qed.

(** Removing the first entry of a heap of more than one entry. *)
Lemma downheap_popped (h : BinaryHeap D St) top back :
  linked (heap h) (inserted_nodes h) -> sentinel (heap h) -> ordered (heap h) ->
  (2 < vsize (heap h) <= 2147483648)%N ->
  vget (heap h) 1 = Some top -> vget (heap h) (vsize (heap h) - 1) = Some back ->
  let r := N.to_nat (he_index top) in
  exists hp' ins',
    Downheap 1 (MkBinaryHeap (inserted_nodes h) (vpop (<[1%nat := back]> (heap h))) (node_index h)) =
      Some (MkBinaryHeap ins' hp' (node_index h)) /\
    linked hp' (alter (set_key 0) r ins') /\ sentinel hp' /\ ordered hp' /\
    vsize hp' = (vsize (heap h) - 1)%N /\
    erase <$> alter (set_key 0) r ins' = erase <$> alter (set_key 0) r (inserted_nodes h).
Proof.
  intros HL Hs Ho Hsz Htop Hback r. set (hp1 := vpop (<[1%nat := back]> (heap h))).
  pose proof (pop_hole _ _ top back HL Hs Ho (proj1 Hsz) Htop Hback) as Hh.
  destruct (pop_order (heap h) back Hs Ho) as [Ho1 Hb1]; [lia|done|]. fold hp1 in Hh, Ho1, Hb1.
  assert (vget hp1 1 = Some back) as Hget1.
  { unfold hp1. rewrite vget_popped, decide_True, decide_True by lia. done. }
  assert (vsize hp1 = vsize (heap h) - 1)%N as Hsz1 by apply vsize_popped.
  assert (<[N.to_nat 1 := MkHeapElement (he_index back) (he_weight back)]> hp1 = hp1) as Hid.
  { apply list_insert_id. rewrite vget_lookup in Hget1. by destruct back. }
  destruct (downheap_loop_ok (S (length hp1)) hp1 (alter (set_key 0) r (inserted_nodes h))
    (he_index back) (he_weight back) 1) as (hp' & ins'' & Hrun & HL' & Hs' & Ho' & Hsz' & Her).
  { unfold vsize. lia. } { lia. } { done. } { by rewrite Hid. } { by rewrite Hid. }
  assert (forall i e, (0 < i)%N -> i <> 1%N -> vget (heap h) i = Some e ->
    he_index e <> he_index top) as Hnt.
  { intros i e Hi Hne He Heq. apply Hne. by eapply (linked_inj (heap h) (inserted_nodes h)). }
  assert (he_index back <> he_index top) as Hbt by (eapply Hnt; [| |done]; lia).
  unfold r in Hrun. rewrite downheap_frame in Hrun; [|lia|done|by vm_compute|].
  2:{ intros i e Hi. unfold hp1. rewrite vget_popped by lia. repeat case_decide; [|by apply Hnt|done].
      by intros [= <-]. }
  apply fmap_Some in Hrun as ([hp'0 ins'] & Hrun & [= <- ->]). exists hp', ins'.
  unfold Downheap. cbn [heap inserted_nodes node_index]. rewrite Hget1. cbn [mbind option_bind].
  rewrite Hrun. split_and!; try done; [by rewrite Hsz'|]. unfold r. rewrite Her.
  destruct (proj1 HL (vsize (heap h) - 1)%N back) as (hb & Hhb & Hkb & _); [lia|done|].
  apply (erase_alter_key _ _ _ hb); [|lia|done].
  unfold r. by rewrite vget_alter, decide_False.
Qed.

Lemma delete_min_arrays h :
  linked (heap h) (inserted_nodes h) -> sentinel (heap h) -> ordered (heap h) ->
  (1 < vsize (heap h) <= 2147483648)%N ->
  exists top hn h', vget (heap h) 1 = Some top /\
    vget (inserted_nodes h) (he_index top) = Some hn /\
    DeleteMin h = Some (hn_node hn, h') /\ node_index h' = node_index h /\
    linked (heap h') (inserted_nodes h') /\ sentinel (heap h') /\ ordered (heap h') /\
    vsize (heap h') = (vsize (heap h) - 1)%N /\
    erase <$> inserted_nodes h' =
      erase <$> alter (set_key 0) (N.to_nat (he_index top)) (inserted_nodes h).
Proof.
  intros HL Hs Ho Hsz. destruct (vget_lt (heap h) 1) as [top Htop]; [lia|].
  destruct (vget_lt (heap h) (vsize (heap h) - 1)) as [back Hback]; [lia|].
  destruct (proj1 HL 1%N top) as (hn & Hhn & Hk & Hw); [lia|done|].
  apply vget_Some_lt in Hhn as Hlt. exists top, hn.
  unfold DeleteMin. rewrite Htop. cbn [mbind option_bind]. rewrite Hback. cbn [mbind option_bind].
  rewrite vset_lt by lia. cbn [mbind option_bind heap]. change (N.to_nat 1) with 1%nat.
  rewrite vsize_popped. case_ltb.
  - destruct (downheap_popped h top back HL Hs Ho) as (hp' & ins' & Hrun & HL' & Hs' & Ho' & Hsz' & Her);
      [lia|done|done|]. rewrite Hrun. cbn [mbind option_bind inserted_nodes heap node_index].
    assert (vsize ins' = vsize (inserted_nodes h)) as Hsi.
    { apply vsize_erase in Her. by rewrite !vsize_alter in Her. }
    rewrite vupd_lt by lia. cbn [mbind option_bind].
    destruct (erase_vget _ _ (he_index top) (set_key 0 hn) (eq_sym Her)) as (x & Hx & Hex).
    { by rewrite vget_alter, decide_True, Hhn. }
    rewrite Hx. cbn [mbind option_bind]. unfold erase in Hex. injection Hex as -> _ _ _.
    eexists. split_and!; done.
  - cbn [mbind option_bind inserted_nodes heap node_index]. rewrite vupd_lt by lia.
    cbn [mbind option_bind]. rewrite vget_alter, decide_True, Hhn by done. simpl.
    eexists. do 3 (split; [done|]). cbn [node_index heap inserted_nodes].
    destruct (singleton_heap_ok (vpop (<[1%nat := back]> (heap h)))
      (alter (set_key 0) (N.to_nat (he_index top)) (inserted_nodes h))) as [HL' Ho'].
    + rewrite vsize_popped. lia.
    + intros j y. rewrite vget_alter. case_decide as Hd.
      { destruct (vget _ j); [|done]. by intros [= <-]. }
      intros Hy. destruct (decide (hn_key y = 0%N)) as [|Hne]; [done|]. exfalso.
      destruct (proj2 HL j y Hy Hne) as (e & He & Hj). apply vget_Some_lt in He as ?.
      assert (hn_key y = 1%N) as E by lia. rewrite E in He. congruence.
    + split_and!; try done; [|by rewrite vsize_popped]. destruct Hs as (s & Hs & Hsw).
      exists s. rewrite vget_popped, decide_True, decide_False by lia. done.
Qed.

Lemma delete_min_ok X c h :
  heap_wf X c h -> Empty h = false ->
  exists n w d h', DeleteMin h = Some (n, h') /\ Min h = Some n /\ heap_wf X c h' /\
    queue h !! n = Some (w, d, true) /\
    (forall n' w' d', queue h !! n' = Some (w', d', true) -> (w <= w')%Z) /\
    queue h' = <[n := (w, d, false)]> (queue h).
Proof.
  intros [HL Hs Ho Hsz Hbd (m & Hm & Hidx)] Hempty.
  assert (1 < vsize (heap h))%N as Hpos.
  { unfold Empty, Size in Hempty. revert Hempty. case_ltb; [done|lia]. }
  destruct (delete_min_arrays h) as (top & hn & h' & Htop & Hhn & Hrun & Hni & HL' & Hs' & Ho' & Hsz' & Her);
    [done|done|done|lia|].
  destruct (proj1 HL 1%N top) as (hn0 & Hhn0 & Hk & Hw); [lia|done|].
  rewrite Hhn in Hhn0. injection Hhn0 as <-.
  exists (hn_node hn), (hn_weight hn), (hn_data hn), h'. split; [done|].
  split. { unfold Min. rewrite Htop. cbn [mbind option_bind]. by rewrite Hhn. }
  set (h1 := MkBinaryHeap (alter (set_key 0) (N.to_nat (he_index top)) (inserted_nodes h)) (heap h)
    (node_index h)).
  destruct (wf_sifted X c h1 h' m HL' Hs' Ho') as [Hwf Hq]; subst h1;
    cbn [heap inserted_nodes] in *; rewrite ?Hsz', ?vsize_alter; try done; try lia.
  { by rewrite Hni. } { by apply indexed_alter. }
  split; [done|]. split_and!.
  - unfold queue. rewrite (contents_node X m _ (he_index top)) by done.
    unfold content. by rewrite Hk.
  - intros n' w' d' Hq'. apply (contents_lookup X m) in Hq' as (j & y & Hj & Hn & Hx); [|done].
    unfold content in Hx. injection Hx as Hy _ Hky.
    assert (hn_key y <> 0%N) as Hk0 by (intros E; by rewrite E in Hky).
    destruct (proj2 HL j y Hj Hk0) as (e & He & Hej).
    destruct (proj1 HL (hn_key y) e) as (y' & Hy' & _ & Hwe); [lia|done|].
    rewrite Hej, Hj in Hy'. injection Hy' as <-. rewrite <- Hy, Hw, Hwe.
    apply (top_min (heap h) (hn_key y) top e Ho Htop); [lia|done].
  - rewrite Hq. unfold queue. cbn [inserted_nodes]. by rewrite (contents_alter X m _ _ _ hn).
Qed.

Lemma zero_keys_ok (els : list HeapElement) : forall (ins : list (HeapNode D)),
  Forall (fun e => (he_index e < vsize ins)%N) els ->
  exists ins', zero_keys els ins = Some ins' /\
    forall j, vget ins' j = if decide (j ∈ he_index <$> els) then set_key 0 <$> vget ins j
                            else vget ins j.
Proof.
  induction els as [|e els IH]; intros ins Hf; [by exists ins|].
  apply Forall_cons in Hf as [He Hf]. cbn [zero_keys]. rewrite vupd_lt by done. cbn [mbind option_bind].
  destruct (IH (alter (set_key 0) (N.to_nat (he_index e)) ins)) as (ins' & Hz & Hget).
  { by rewrite vsize_alter. }
  exists ins'. split; [done|]. intros j. rewrite Hget, vget_alter.
  rewrite (decide_ext (j ∈ he_index <$> e :: els) (he_index e = j \/ j ∈ he_index <$> els))
    by (rewrite fmap_cons; set_solver).
  destruct (vget ins j); repeat case_decide; naive_solver.
Qed.

(** After [zero_keys] on a linked heap every node is marked removed. *)
Lemma zero_keys_linked (hp : list HeapElement) (ins : list (HeapNode D)) :
  linked hp ins -> exists ins', zero_keys (drop 1 hp) ins = Some ins' /\
    forall j, vget ins' j = set_key 0 <$> vget ins j.
Proof.
  intros HL. destruct (zero_keys_ok (drop 1 hp) ins) as (ins' & Hz & Hget).
  { apply Forall_lookup. intros i e. rewrite lookup_drop. intros He.
    destruct (proj1 HL (N.of_nat (1 + i)) e) as (hn & Hhn & _); [lia|by rewrite vget_lookup, Nat2N.id|].
    by eapply vget_Some_lt. }
  exists ins'. split; [done|]. intros j. rewrite Hget. case_decide as Hd; [done|].
  destruct (vget ins j) as [hn|] eqn:Ehn; [|done]. simpl. f_equal.
  destruct (decide (hn_key hn = 0%N)) as [E|E]; [destruct hn; simpl in *; by subst|].
  destruct Hd. destruct (proj2 HL j hn Ehn E) as (e & He & <-).
  apply list_elem_of_fmap. exists e. split; [done|]. apply list_elem_of_lookup.
  exists (N.to_nat (hn_key hn) - 1)%nat. rewrite lookup_drop. rewrite vget_lookup in He.
  by replace (1 + (N.to_nat (hn_key hn) - 1))%nat with (N.to_nat (hn_key hn)) by lia.
Qed.

Lemma delete_all_ok X c h :
  heap_wf X c h ->
  exists h', DeleteAll h = Some h' /\ heap_wf X c h' /\
    queue h' = (fun x => (x.1.1, x.1.2, false)) <$> queue h.
Proof.
  intros [HL Hs Ho Hsz Hbd (m & Hm & Hidx)].
  destruct (zero_keys_linked _ _ HL) as (ins' & Hz & Hget).
  unfold DeleteAll. rewrite Hz. cbn [mbind option_bind]. eexists. split; [done|].
  assert (ins' = set_key 0 <$> inserted_nodes h) as ->.
  { apply list_eq. intros j. rewrite list_lookup_fmap. specialize (Hget (N.of_nat j)).
    by rewrite !vget_lookup, Nat2N.id in Hget. }
  assert (indexed X m (set_key 0 <$> inserted_nodes h)) as Hidx'.
  { intros j hn. rewrite Hget. destruct (vget _ j) as [hn0|] eqn:E; [|done].
    intros [= <-]. by apply (Hidx j hn0). }
  destruct (reset_heap_ok (heap h)) as [Hsz1 Hs1].
  assert (vsize (set_key 0 <$> inserted_nodes h) = vsize (inserted_nodes h)) as Hv
    by (unfold vsize; by rewrite length_fmap).
  split.
  - destruct (singleton_heap_ok (reset_heap (heap h)) (set_key 0 <$> inserted_nodes h)) as [HL1 Ho1]; [done| |].
    { intros j hn. rewrite Hget. destruct (vget _ j); [|done]. by intros [= <-]. }
    constructor; cbn [heap inserted_nodes node_index]; rewrite ?Hv, ?Hsz1; [done..|lia|done|eauto].
  - unfold queue. cbn [inserted_nodes]. apply map_eq. intros n. rewrite lookup_fmap.
    apply option_eq. intros x. rewrite (contents_lookup X m) by done. rewrite fmap_Some. split.
    + intros (j & hn & Hj & <- & <-). rewrite Hget in Hj.
      destruct (vget _ j) as [hn0|] eqn:E; [|done]. injection Hj as <-.
      exists (content hn0). split; [|done]. by apply (contents_node X m _ j hn0).
    + intros (y & Hy & ->). apply (contents_lookup X m) in Hy as (j & hn & Hj & <- & <-); [|done].
      exists j, (set_key 0 hn). by rewrite Hget, Hj.
Qed.

Lemma empty_ok X c h :
  heap_wf X c h ->
  (Empty h = true <-> forall n w d, queue h !! n <> Some (w, d, true)).
Proof.
  intros Hwf. split.
  - destruct Hwf as [HL Hs Ho Hsz Hbd (m & Hm & Hidx)]. intros He n w d Hq.
    apply (contents_lookup X m) in Hq as (j & hn & Hj & _ & Hx); [|done].
    injection Hx as _ _ Hk. assert (hn_key hn <> 0%N) as Hk0 by (intros E; by rewrite E in Hk).
    destruct (proj2 HL j hn Hj Hk0) as (e & Hlt%vget_Some_lt & _).
    unfold Empty, Size in He. revert He. case_ltb; [lia|done].
  - intros Hno. destruct (Empty h) eqn:E; [done|]. exfalso.
    destruct (delete_min_ok X c h Hwf E) as (n & w & d & h' & _ & _ & _ & Hq & _). by eapply Hno.
Qed.

Lemma was_inserted_ok X c h n :
  heap_wf X c h -> n ∈ X ->
  exists h', WasInserted n h = Some (bool_decide (is_Some (queue h !! n)), h') /\
    heap_wf X c h' /\ queue h' = queue h.
Proof.
  intros Hwf HX. pose proof Hwf as [HL Hs Ho Hsz Hbd (m & Hm & Hidx)].
  destruct (st_read_ok X c (node_index h) m n Hm HX) as (k & s' & Hread & Hm' & Hk).
  exists (MkBinaryHeap (inserted_nodes h) (heap h) s'). unfold WasInserted.
  rewrite Hread. cbn [mbind option_bind]. rewrite u32_small by lia.
  split; [|split; [by eapply read_wf|done]].
  destruct (queue h !! n) as [x|] eqn:Eq.
  - apply (contents_lookup X m) in Eq as (j & hn & Hj & Hn & _); [|done].
    destruct (Hidx j hn Hj) as [Hmj _]. rewrite Hn in Hmj. apply Hk in Hmj. subst k.
    apply vget_Some_lt in Hj as ?. case_ltb; [lia|]. rewrite Hj. cbn [mbind option_bind].
    by rewrite Hn, N.eqb_refl, bool_decide_true.
  - rewrite bool_decide_false by by intros [].
    case_ltb; [done|]. destruct (vget_lt (inserted_nodes h) k) as [hn Hhn]; [lia|]. rewrite Hhn.
    cbn [mbind option_bind]. destruct (N.eqb_spec (hn_node hn) n) as [E|]; [|done].
    rewrite <- E in Eq. unfold queue in Eq. by rewrite (contents_node X m _ k) in Eq.
Qed.

Lemma assign_data_ok X c h n w d q f :
  heap_wf X c h -> queue h !! n = Some (w, d, q) ->
  exists h', AssignData n f h = Some h' /\ heap_wf X c h' /\
    queue h' = <[n := (w, f d, q)]> (queue h).
Proof.
  intros Hwf Hq.
  destruct (slot_ok X c h n _ Hwf Hq) as (j & hn & s' & m & Hslot & Hj & Hn & Hx & Hm & Hidx).
  destruct Hwf as [HL Hs Ho Hsz Hbd _]. unfold content in Hx. injection Hx as Hwt Hd Hk.
  unfold AssignData. rewrite Hslot. cbn [mbind option_bind inserted_nodes heap node_index].
  rewrite vset_lt by (by eapply vget_Some_lt). cbn [mbind option_bind].
  rewrite (insert_alter _ _ _ hn) by done.
  eexists. split; [done|]. set (g := set_data (f (hn_data hn))).
  assert (indexed X m (alter g (N.to_nat j) (inserted_nodes h))) as Hidx' by by apply indexed_alter.
  split.
  - constructor; cbn [heap inserted_nodes node_index]; rewrite ?vsize_alter; try done; [|eauto].
    split.
    + intros i e Hi He. destruct (proj1 HL i e Hi He) as (y & Hy & Hrest). rewrite vget_alter.
      rewrite Hy. case_decide; eauto.
    + intros i y. rewrite vget_alter. case_decide; [|apply (proj2 HL)].
      destruct (vget _ i) as [y0|] eqn:E; [|done]. intros [= <-]. by apply (proj2 HL i y0).
  - unfold queue. cbn [inserted_nodes]. rewrite (contents_alter X m _ _ _ hn) by done.
    unfold content, g. simpl. by rewrite Hn, Hwt, Hd, Hk.
Qed.
End heap_spec.

(** ** The abstract priority queue *)

(** The operations a search performs on its queue, and what they return. *)
Inductive heap_op (D : Type) :=
  | OpInsert (node : N) (weight : Z) (data : D)
  | OpDeleteMin
  | OpDecreaseKey (node : N) (weight : Z)
  | OpGetKey (node : N)
  | OpGetData (node : N)
  | OpAssignData (node : N) (data : D)
  | OpWasInserted (node : N)
  | OpWasRemoved (node : N)
  | OpEmpty
  | OpDeleteAll
  | OpClear.
Arguments OpInsert {D}.
Arguments OpDeleteMin {D}.
Arguments OpDecreaseKey {D}.
Arguments OpGetKey {D}.
Arguments OpGetData {D}.
Arguments OpAssignData {D}.
Arguments OpWasInserted {D}.
Arguments OpWasRemoved {D}.
Arguments OpEmpty {D}.
Arguments OpDeleteAll {D}.
Arguments OpClear {D}.

Inductive heap_result (D : Type) :=
  | RetUnit | RetNode (n : N) | RetKey (w : Z) | RetData (d : D) | RetBool (b : bool).
Arguments RetUnit {D}.
Arguments RetNode {D}.
Arguments RetKey {D}.
Arguments RetData {D}.
Arguments RetBool {D}.

(** One call on the implementation. *)
Definition heap_step {D St} `{IndexStorage St} (h : BinaryHeap D St) (o : heap_op D)
    : option (heap_result D * BinaryHeap D St) :=
  match o with
  | OpInsert n w d => h' ← Insert n w d h; Some (RetUnit, h')
  | OpDeleteMin => '(n, h') ← DeleteMin h; Some (RetNode n, h')
  | OpDecreaseKey n w => h' ← DecreaseKey n w h; Some (RetUnit, h')
  | OpGetKey n => '(w, h') ← GetKey n h; Some (RetKey w, h')
  | OpGetData n => '(d, h') ← GetData n h; Some (RetData d, h')
  | OpAssignData n d => h' ← AssignData n (fun _ => d) h; Some (RetUnit, h')
  | OpWasInserted n => '(b, h') ← WasInserted n h; Some (RetBool b, h')
  | OpWasRemoved n => '(b, h') ← WasRemoved n h; Some (RetBool b, h')
  | OpEmpty => Some (RetBool (Empty h), h)
  | OpDeleteAll => h' ← DeleteAll h; Some (RetUnit, h')
  | OpClear => Some (RetUnit, Clear h)
  end.

Fixpoint heap_run {D St} `{IndexStorage St} (h : BinaryHeap D St) (ops : list (heap_op D))
    : option (list (heap_result D) * BinaryHeap D St) :=
  match ops with
  | [] => Some ([], h)
  | o :: ops' => '(r, h1) ← heap_step h o; '(rs, h2) ← heap_run h1 ops'; Some (r :: rs, h2)
  end.

(** The specification: a map from the nodes inserted since the last [Clear]
    to their weight, data and whether they are still queued. *)
Inductive pq_step {D} : gmap N (Z * D * bool) -> heap_op D -> heap_result D ->
    gmap N (Z * D * bool) -> Prop :=
  | pq_insert Q n w d : pq_step Q (OpInsert n w d) RetUnit (<[n := (w, d, true)]> Q)
  | pq_delete_min Q n w d :
      Q !! n = Some (w, d, true) ->
      (forall n' w' d', Q !! n' = Some (w', d', true) -> (w <= w')%Z) ->
      pq_step Q OpDeleteMin (RetNode n) (<[n := (w, d, false)]> Q)
  | pq_decrease Q n w0 d w :
      Q !! n = Some (w0, d, true) -> pq_step Q (OpDecreaseKey n w) RetUnit (<[n := (w, d, true)]> Q)
  | pq_get_key Q n w d q : Q !! n = Some (w, d, q) -> pq_step Q (OpGetKey n) (RetKey w) Q
  | pq_get_data Q n w d q : Q !! n = Some (w, d, q) -> pq_step Q (OpGetData n) (RetData d) Q
  | pq_assign_data Q n w d0 d q :
      Q !! n = Some (w, d0, q) -> pq_step Q (OpAssignData n d) RetUnit (<[n := (w, d, q)]> Q)
  | pq_was_inserted Q n :
      pq_step Q (OpWasInserted n) (RetBool (bool_decide (is_Some (Q !! n)))) Q
  | pq_was_removed Q n w d q :
      Q !! n = Some (w, d, q) -> pq_step Q (OpWasRemoved n) (RetBool (negb q)) Q
  | pq_empty Q b :
      (b = true <-> forall n w d, Q !! n <> Some (w, d, true)) -> pq_step Q OpEmpty (RetBool b) Q
  | pq_delete_all Q :
      pq_step Q OpDeleteAll RetUnit ((fun x => (x.1.1, x.1.2, false)) <$> Q)
  | pq_clear Q : pq_step Q OpClear RetUnit ∅.

Inductive pq_run {D} : gmap N (Z * D * bool) -> list (heap_op D) -> list (heap_result D) ->
    gmap N (Z * D * bool) -> Prop :=
  | pq_run_nil Q : pq_run Q [] [] Q
  | pq_run_cons Q o r Q1 ops rs Q2 :
      pq_step Q o r Q1 -> pq_run Q1 ops rs Q2 -> pq_run Q (o :: ops) (r :: rs) Q2.

(** The preconditions the code leaves to its callers (partly as asserts). *)
Definition legal {D} (X : gset N) (Q : gmap N (Z * D * bool)) (o : heap_op D) : Prop :=
  match o with
  | OpInsert n w _ =>
      n ∈ X /\ Q !! n = None /\ (INT_MIN <= w)%Z /\ (N.of_nat (size Q) + 1 < 2147483648)%N
  | OpDeleteMin => exists n w d, Q !! n = Some (w, d, true)
  | OpDecreaseKey n w => exists w0 d, Q !! n = Some (w0, d, true) /\ (INT_MIN <= w <= w0)%Z
  | OpGetKey n | OpGetData n | OpAssignData n _ | OpWasRemoved n => is_Some (Q !! n)
  | OpWasInserted n => n ∈ X
  | OpEmpty | OpDeleteAll | OpClear => True
  end.

(** Every operation is legal whatever the queue answered before it. *)
Fixpoint all_legal {D} (X : gset N) (Q : gmap N (Z * D * bool)) (ops : list (heap_op D)) : Prop :=
  match ops with
  | [] => True
  | o :: ops' => legal X Q o /\ forall r Q', pq_step Q o r Q' -> all_legal X Q' ops'
  end.

Fixpoint count_clears {D} (ops : list (heap_op D)) : N :=
  match ops with
  | [] => 0
  | OpClear :: ops' => 1 + count_clears ops'
  | _ :: ops' => count_clears ops'
  end.

Section refinement.
  Context {D St : Type} `{IndexStorageLaws St}.
  Implicit Types h : BinaryHeap D St.

Lemma size_queue X c h : heap_wf X c h -> N.of_nat (size (queue h)) = vsize (inserted_nodes h).
Proof.
  intros [_ _ _ _ _ (m & _ & Hidx)]. unfold queue, contents, vsize.
  rewrite map_size_list_to_map by by eapply contents_NoDup. by rewrite !length_fmap.
Qed.

Lemma read_slot X c h n x :
  heap_wf X c h -> queue h !! n = Some x ->
  exists j hn h', slot n h = Some (j, hn, h') /\ content hn = x /\ heap_wf X c h' /\
    queue h' = queue h.
Proof.
  intros Hwf Hq.
  destruct (slot_ok X c h n _ Hwf Hq) as (j & hn & s' & m & Hslot & Hj & Hn & Hx & Hm & Hidx).
  exists j, hn, (MkBinaryHeap (inserted_nodes h) (heap h) s'). split_and!; try done.
  by eapply read_wf.
Qed.

(** Each operation of the heap is an operation of the specification. *)
Lemma heap_step_ok X c h o :
  heap_wf X (c + count_clears [o]) h -> legal X (queue h) o ->
  exists r h', heap_step h o = Some (r, h') /\ heap_wf X c h' /\ pq_step (queue h) o r (queue h').
Proof.
  intros Hwf Hl. destruct o as [n w d| |n w|n|n|n d|n|n| | |];
    cbn [count_clears legal heap_step] in *; rewrite ?N.add_0_r in Hwf.
  - destruct Hl as (HX & Hq & Hw & Hsz). rewrite (size_queue X c) in Hsz by done.
    destruct (insert_ok X c h n w d) as (h' & -> & Hwf' & Hq'); [done..|].
    exists RetUnit, h'. rewrite Hq'. split_and!; [done..|constructor].
  - destruct Hl as (n & w & d & Hq). destruct (Empty h) eqn:E.
    { exfalso. by eapply (proj1 (empty_ok X c h Hwf) E). }
    destruct (delete_min_ok X c h Hwf E) as (n' & w' & d' & h' & -> & _ & Hwf' & Hq1 & Hmin & Hq').
    exists (RetNode n'), h'. rewrite Hq'. split_and!; [done..|by constructor].
  - destruct Hl as (w0 & d & Hq & Hw).
    destruct (decrease_ok X c h n w0 d w) as (h' & -> & Hwf' & Hq'); [done..|].
    exists RetUnit, h'. rewrite Hq'. split_and!; [done..|by econstructor].
  - destruct Hl as [[[w d] q] Hq].
    destruct (read_slot X c h n _ Hwf Hq) as (j & hn & h' & Hs & Hx & Hwf' & Hq').
    exists (RetKey w), h'. unfold GetKey. rewrite Hs, Hq'. injection Hx as <- <- <-.
    split_and!; [done..|by econstructor].
  - destruct Hl as [[[w d] q] Hq].
    destruct (read_slot X c h n _ Hwf Hq) as (j & hn & h' & Hs & Hx & Hwf' & Hq').
    exists (RetData d), h'. unfold GetData. rewrite Hs, Hq'. injection Hx as <- <- <-.
    split_and!; [done..|by econstructor].
  - destruct Hl as [[[w d0] q] Hq].
    destruct (assign_data_ok X c h n w d0 q (fun _ => d) Hwf Hq) as (h' & -> & Hwf' & Hq').
    exists RetUnit, h'. rewrite Hq'. split_and!; [done..|by econstructor].
  - destruct (was_inserted_ok X c h n Hwf Hl) as (h' & -> & Hwf' & Hq').
    eexists _, h'. rewrite Hq'. split_and!; [done..|constructor].
  - destruct Hl as [[[w d] q] Hq].
    destruct (read_slot X c h n _ Hwf Hq) as (j & hn & h' & Hs & Hx & Hwf' & Hq').
    exists (RetBool (negb q)), h'. unfold WasRemoved. rewrite Hs, Hq'. injection Hx as <- <- <-.
    rewrite negb_involutive in *. split_and!; [done..|].
    rewrite <- (negb_involutive (_ =? _)%N). by econstructor.
  - exists (RetBool (Empty h)), h. split_and!; [done..|]. constructor. by apply (empty_ok X c).
  - destruct (delete_all_ok X c h Hwf) as (h' & -> & Hwf' & Hq').
    exists RetUnit, h'. rewrite Hq'. split_and!; [done..|constructor].
  - destruct Hwf as [_ _ _ _ _ (m & Hm & _)].
    destruct (clear_wf X c h m Hm) as [Hwf' Hq']. exists RetUnit, (Clear h). rewrite Hq'.
    split_and!; [done..|constructor].
Qed.

Lemma count_clears_cons (o : heap_op D) ops :
  count_clears (o :: ops) = (count_clears [o] + count_clears ops)%N.
Proof. by destruct o. Qed.

Lemma heap_run_ok X c ops : forall h,
  heap_wf X (c + count_clears ops) h -> all_legal X (queue h) ops ->
  exists rs h', heap_run h ops = Some (rs, h') /\ heap_wf X c h' /\
    pq_run (queue h) ops rs (queue h').
Proof.
  induction ops as [|o ops IH]; intros h Hwf Hl.
  { exists [], h. rewrite N.add_0_r in Hwf. split_and!; [done..|constructor]. }
  rewrite count_clears_cons in Hwf. destruct Hl as [Ho Hl].
  destruct (heap_step_ok X (c + count_clears ops) h o) as (r & h1 & Hstep & Hwf1 & Hpq); [|done|].
  { by replace (c + count_clears ops + count_clears [o])%N
      with (c + (count_clears [o] + count_clears ops))%N by lia. }
  destruct (IH h1 Hwf1 (Hl _ _ Hpq)) as (rs & h2 & Hrun & Hwf2 & Hpqs).
  exists (r :: rs), h2. cbn [heap_run]. rewrite Hstep. cbn [mbind option_bind]. rewrite Hrun.
  split_and!; [done..|by econstructor].
Qed.
End refinement.

(** ** Properties *)

(** C10: The heap is a priority queue. A heap built on any index table that
    obeys the storage laws runs every sequence of operations that respects the
    callers' preconditions to the end, without reading or writing out of
    bounds, and its answers are answers of the abstract queue: [DeleteMin]
    returns a queued node of minimum weight, [GetKey] and [GetData] the last
    values stored, [WasInserted], [WasRemoved] and [Empty] the state of the
    queue, across [Clear] and [DeleteAll]. *)
Theorem heap_refines_priority_queue {D St} `{IndexStorageLaws St} X c (ops : list (heap_op D)) s m :
  st_rep X (c + count_clears ops + 1) s m -> all_legal X ∅ ops ->
  exists rs h', heap_run (BinaryHeap_make s) ops = Some (rs, h') /\
    heap_wf X c h' /\ pq_run ∅ ops rs (queue h').
Proof.
  intros Hs Hl. destruct (clear_wf X (c + count_clears ops) (MkBinaryHeap (D := D) [] [] s) m Hs)
    as [Hwf Hq].
  apply (heap_run_ok X c ops (BinaryHeap_make s)); [exact Hwf|].
  unfold BinaryHeap_make. by rewrite Hq.
Qed.

Definition sample_ops : list (heap_op N) :=
  [OpInsert 5 10 50%N; OpInsert 6 7 60%N; OpDecreaseKey 5 3; OpWasInserted 8; OpDeleteMin].

Lemma sample_ops_legal : all_legal {[5; 6; 8]}%N ∅ sample_ops.
Proof.
  split; [split_and!; [set_solver|done|by vm_compute|by vm_compute]|].
  intros r Q' HQ; inversion HQ; subst; clear HQ.
  split; [split_and!; [set_solver|done|by vm_compute|by vm_compute]|].
  intros r Q' HQ; inversion HQ; subst; clear HQ.
  split; [exists 10%Z, 50%N; split; [done|by vm_compute]|].
  intros r Q' HQ; inversion HQ; subst; clear HQ.
  split; [simpl; set_solver|].
  intros r Q' HQ; inversion HQ; subst; clear HQ.
  split; [|done]. exists 5%N, 3%Z, d. by rewrite lookup_insert_eq.
Qed.

(** The queue on the hash table of the searches: of the nodes 5 and 6 the one
    whose key was lowered to 3 comes first. *)
Lemma heap_refines_priority_queue_witness :
  exists rs h', heap_run (D := N) (BinaryHeap_make UnorderedMapStorage_make) sample_ops = Some (rs, h') /\
    heap_wf {[5; 6; 8]}%N 0 h' /\ pq_run ∅ sample_ops rs (queue h') /\
    rs = [RetUnit; RetUnit; RetUnit; RetBool false; RetNode 5].
Proof.
  destruct (heap_refines_priority_queue (St := gmap N N) {[5; 6; 8]}%N 0 sample_ops
    UnorderedMapStorage_make ∅) as (rs & h' & Hrun & Hwf & Hpq).
  - done.
  - apply sample_ops_legal.
  - exists rs, h'. split_and!; [done..|]. vm_compute in Hrun. by injection Hrun as <- _.
Defined.
