(* ===== verification/DeallocatingVector.v ===== *)
(** * DataStructures/DeallocatingVector.h

    The block vector that holds the edge lists: a list of buckets of
    [ELEMENTS_PER_BLOCK] elements, a null bucket being one the deallocating
    iterator has freed. The vector refines a plain list; the exception is
    [back], which reads one past the last element. *)

From S2P Require Import Prelude Types.

#[local] Ltac Zify.zify_post_hook ::= Z.to_euclidean_division_equations.

Section operations.
  Context {A : Type}.
  (** [ELEMENTS_PER_BLOCK], and the value [new ElementT[n]] leaves in a cell. *)
  Context (EPB : N) (fresh : A).

(** A bucket pointer: [None] is the null pointer. *)
Abbreviation bucket := (option (list A)).

Record DeallocatingVector := MkDV { current_size : N; bucket_list : list bucket }.

Definition new_bucket : bucket := Some (replicate (N.to_nat EPB) fresh).

(** [p[i]] for a bucket pointer [p]. *)
Definition bucket_get (p : bucket) (i : N) : option A := b ← p; vget b i.

Definition bucket_set (p : bucket) (i : N) (x : A) : option bucket :=
  b ← p; b' ← vset b i x; Some (Some b').

Definition dv_make : DeallocatingVector := MkDV 0 [new_bucket].

Definition dv_swap (v w : DeallocatingVector) : DeallocatingVector * DeallocatingVector := (w, v).

Definition dv_clear (_ : DeallocatingVector) : DeallocatingVector := MkDV 0 [].

Definition dv_size (v : DeallocatingVector) : N := current_size v.

Definition dv_capacity (v : DeallocatingVector) : N := vsize (bucket_list v) * EPB.

Definition dv_push_back (x : A) (v : DeallocatingVector) : option DeallocatingVector :=
  let bl := if (current_size v =? dv_capacity v)%N then bucket_list v ++ [new_bucket]
            else bucket_list v in
  let current_index := (dv_size v mod EPB)%N in
  last_bucket ← vback bl;
  b ← bucket_set last_bucket current_index x;
  bl' ← vset bl (vsize bl - 1) b;
  Some (MkDV (current_size v + 1) bl').

(** The loop that appends buckets until the capacity suffices. *)
Fixpoint grow (fuel : nat) (bl : list bucket) (new_size : N) : option (list bucket) :=
  if (vsize bl * EPB <? new_size)%N then
    match fuel with O => None | S fuel' => grow fuel' (bl ++ [new_bucket]) new_size end
  else Some bl.

Definition dv_resize (new_size : N) (v : DeallocatingVector) : option DeallocatingVector :=
  if (current_size v <=? new_size)%N then
    bl ← grow (N.to_nat new_size) (bucket_list v) new_size;
    Some (MkDV new_size bl)
  else
    let necessary := (1 + new_size / EPB)%N in
    Some (MkDV new_size (vresize (bucket_list v) necessary None)).

Definition dv_get (index : N) (v : DeallocatingVector) : option A :=
  p ← vget (bucket_list v) (index / EPB); bucket_get p (index mod EPB).

(** Assignment through the reference [operator[]] returns. *)
Definition dv_set (index : N) (x : A) (v : DeallocatingVector) : option DeallocatingVector :=
  p ← vget (bucket_list v) (index / EPB);
  p' ← bucket_set p (index mod EPB) x;
  bl ← vset (bucket_list v) (index / EPB) p';
  Some (MkDV (current_size v) bl).

Definition dv_back (v : DeallocatingVector) : option A :=
  p ← vget (bucket_list v) (current_size v / EPB); bucket_get p (current_size v mod EPB).

Fixpoint dv_append (xs : list A) (v : DeallocatingVector) : option DeallocatingVector :=
  match xs with
  | [] => Some v
  | x :: xs' => v' ← dv_push_back x v; dv_append xs' v'
  end.

(** Iterators are an index and the bucket list they walk; [at] throws out of
    range, and a null or short bucket is undefined behaviour. *)
Definition it_dereference (index : N) (bl : list bucket) : option A :=
  p ← vget bl (index / EPB); bucket_get p (index mod EPB).

(** [increment] of the removing iterator frees the bucket it leaves. *)
Definition rm_increment (index : N) (bl : list bucket) : option (N * list bucket) :=
  let old_bucket := (index / EPB)%N in
  let index' := (index + 1)%N in
  let new_bucket := (index' / EPB)%N in
  if negb (old_bucket =? new_bucket)%N then
    bl' ← vset bl old_bucket None; Some (index', bl')
  else Some (index', bl).

(** [for (it = dbegin(); it != dend(); ++it) use( *it )]. *)
Fixpoint rm_loop (fuel : nat) (index last : N) (bl : list bucket) : option (list A * list bucket) :=
  if (index =? last)%N then Some ([], bl)
  else match fuel with
  | O => None
  | S fuel' =>
      x ← it_dereference index bl;
      '(index', bl') ← rm_increment index bl;
      '(xs, bl'') ← rm_loop fuel' index' last bl';
      Some (x :: xs, bl'')
  end.

Definition dv_drain (v : DeallocatingVector) : option (list A * DeallocatingVector) :=
  '(xs, bl) ← rm_loop (N.to_nat (dv_size v)) 0 (dv_size v) (bucket_list v);
  Some (xs, MkDV (current_size v) bl).
End operations.
Arguments DeallocatingVector : clear implicits.
Arguments MkDV {A}.

(** ** The list a block vector stands for *)

Section contents.
  Context {A : Type} (EPB : N) (fresh : A).
  Hypothesis EPB_pos : (0 < EPB)%N.
  #[local] Set Default Proof Using "Type EPB_pos".
  Implicit Types v : DeallocatingVector A.

(** Every bucket is allocated and full-sized, and the last bucket is the one
    the next element goes to. *)
Record dv_wf v : Prop := {
  dw_buckets : Forall (fun p => exists b, p = Some b /\ vsize b = EPB) (bucket_list v);
  dw_lower : (current_size v <= dv_capacity EPB v)%N;
  dw_upper : (dv_capacity EPB v <= current_size v + EPB)%N;
}.

(** All cells, and the elements of the vector. *)
Definition cells v : list A := concat (default [] <$> bucket_list v).

Definition elems v : list A := take (N.to_nat (current_size v)) (cells v).

Lemma vget_concat (bl : list (option (list A))) i :
  Forall (fun p => exists b, p = Some b /\ vsize b = EPB) bl ->
  vget (concat (default [] <$> bl)) i = (p ← vget bl (i / EPB); bucket_get p (i mod EPB)).
Proof.
  intros Hb. revert i. induction bl as [|p bl IH]; intros i; [by rewrite !vget_nil; simpl; rewrite vget_nil|].
  apply Forall_cons in Hb as [(b & -> & Hsz) Hb]. simpl. rewrite vget_app, Hsz. case_decide as Hd.
  - assert (i / EPB = 0)%N as -> by (apply N.div_small; lia).
    rewrite N.mod_small by done. done.
  - rewrite IH by done. assert (i / EPB = (i - EPB) / EPB + 1)%N as ->.
    { replace i with ((i - EPB) + 1 * EPB)%N at 1 by lia. rewrite N.div_add by lia. done. }
    assert (i mod EPB = (i - EPB) mod EPB)%N as ->.
    { replace i with ((i - EPB) + 1 * EPB)%N at 1 by lia. rewrite N.Div0.mod_add. done. }
    f_equal. rewrite !vget_lookup. rewrite N.add_1_r, N2Nat.inj_succ. done.
Qed.

Lemma length_concat (bl : list (option (list A))) :
  Forall (fun p => exists b, p = Some b /\ vsize b = EPB) bl ->
  vsize (concat (default [] <$> bl)) = (vsize bl * EPB)%N.
Proof.
  induction 1 as [|p bl (b & -> & Hsz) _ IH]; [done|].
  rewrite fmap_cons. cbn [concat from_option]. rewrite vsize_app, IH.
  change (vsize (id b)) with (vsize b). rewrite Hsz.
  unfold vsize. simpl length. lia.
Qed.

Abbreviation good := (Forall (fun p : option (list A) => exists b, p = Some b /\ vsize b = EPB)).

Lemma div_mod_inj i j : (i / EPB = j / EPB)%N -> (i mod EPB = j mod EPB)%N -> i = j.
Proof. intros Hd Hm. rewrite (N.div_mod i EPB), (N.div_mod j EPB) by lia. by rewrite Hd, Hm. Qed.

Lemma good_get (bl : list (option (list A))) k :
  good bl -> (k < vsize bl)%N -> exists b, vget bl k = Some (Some b) /\ vsize b = EPB.
Proof.
  intros Hg Hk. destruct (vget_lt bl k Hk) as [p Hp]. rewrite Hp.
  rewrite vget_lookup in Hp. rewrite Forall_lookup in Hg.
  destruct (Hg _ _ Hp) as (b & -> & Hb). eauto.
Qed.

(** Writing one cell through its bucket. *)
Lemma cell_write (bl : list (option (list A))) i x :
  good bl -> (i < vsize bl * EPB)%N ->
  exists p p', vget bl (i / EPB) = Some p /\ bucket_set p (i mod EPB) x = Some p' /\
    let bl' := <[N.to_nat (i / EPB) := p']> bl in
    vset bl (i / EPB) p' = Some bl' /\ good bl' /\
    concat (default [] <$> bl') = <[N.to_nat i := x]> (concat (default [] <$> bl)).
Proof.
  intros Hg Hi. assert (i / EPB < vsize bl)%N as Hk by (apply N.Div0.div_lt_upper_bound; lia).
  assert (i mod EPB < EPB)%N as Hm by (apply N.mod_lt; lia).
  destruct (good_get bl _ Hg Hk) as (b & Hb & Hsz).
  exists (Some b), (Some (<[N.to_nat (i mod EPB) := x]> b)). split; [done|].
  unfold bucket_set. cbn [mbind option_bind]. rewrite vset_lt by lia. split; [done|].
  set (bl' := <[N.to_nat (i / EPB) := Some (<[N.to_nat (i mod EPB) := x]> b)]> bl).
  assert (good bl') as Hg'.
  { apply Forall_insert; [done|]. eexists. split; [done|]. by rewrite vsize_insert. }
  split; [by apply vset_lt|]. split; [done|]. apply list_eq_vget. intros j.
  rewrite vget_insert, length_concat, !vget_concat by done. unfold bl'. rewrite vget_insert.
  case_decide as Hd1; case_decide as Hd2.
  - destruct Hd2 as [<- _]. cbn [mbind option_bind bucket_get].
    rewrite vget_insert, decide_True by lia. done.
  - destruct Hd1 as [Hq _]. cbn [mbind option_bind bucket_get]. rewrite <- Hq, Hb.
    cbn [mbind option_bind bucket_get]. rewrite vget_insert. case_decide as Hd3; [|done].
    destruct Hd2. assert (i = j) as <- by (apply div_mod_inj; tauto). done.
  - destruct Hd2 as [<- _]. destruct Hd1. done.
  - done.
Qed.

Lemma elems_get v i : dv_wf v -> (i < current_size v)%N ->
  vget (elems v) i = dv_get EPB i v /\ is_Some (dv_get EPB i v).
Proof.
  intros [Hg Hl Hu] Hi. assert (vget (elems v) i = vget (cells v) i) as ->.
  { unfold elems. rewrite !vget_lookup. apply lookup_take_lt. lia. }
  unfold cells. rewrite vget_concat by done. split; [done|].
  unfold dv_get. rewrite <- vget_concat by done. apply vget_lt. rewrite length_concat by done.
  unfold dv_capacity in *. lia.
Qed.

Lemma vsize_elems v : dv_wf v -> vsize (elems v) = current_size v.
Proof.
  intros [Hg Hl Hu]. pose proof (length_concat (bucket_list v) Hg) as Hc.
  unfold elems, cells, dv_capacity, vsize in *. rewrite length_take. lia.
Qed.

Lemma set_ok v i x : dv_wf v -> (i < current_size v)%N ->
  exists v', dv_set EPB i x v = Some v' /\ dv_wf v' /\ elems v' = <[N.to_nat i := x]> (elems v).
Proof.
  intros [Hg Hl Hu] Hi. unfold dv_capacity in *.
  destruct (cell_write (bucket_list v) i x Hg) as (p & p' & Hp & Hp' & Hset & Hg' & Hc); [lia|].
  unfold dv_set. rewrite Hp. cbn [mbind option_bind]. rewrite Hp'. cbn [mbind option_bind].
  rewrite Hset. cbn [mbind option_bind]. eexists. split; [done|]. split.
  - constructor; unfold dv_capacity; cbn [bucket_list current_size]; rewrite ?vsize_insert; done.
  - unfold elems, cells. cbn [bucket_list current_size]. rewrite Hc. by rewrite take_insert_lt by lia.
Qed.

Lemma good_new : exists b, new_bucket EPB fresh = Some b /\ vsize b = EPB.
Proof. eexists. split; [done|]. unfold vsize. rewrite length_replicate. lia. Qed.

Lemma concat_snoc (bl : list (option (list A))) :
  concat (default [] <$> bl ++ [new_bucket EPB fresh]) =
    concat (default [] <$> bl) ++ replicate (N.to_nat EPB) fresh.
Proof. rewrite fmap_app, concat_app. simpl. by rewrite app_nil_r. Qed.

Lemma push_ok v x : dv_wf v ->
  exists v', dv_push_back EPB fresh x v = Some v' /\ dv_wf v' /\ elems v' = elems v ++ [x] /\
    current_size v' = (current_size v + 1)%N.
Proof.
  intros [Hg Hl Hu]. unfold dv_push_back, dv_capacity, dv_size in *.
  set (bl := if (current_size v =? vsize (bucket_list v) * EPB)%N then _ else _).
  assert (good bl /\ (current_size v < vsize bl * EPB)%N /\ (vsize bl * EPB <= current_size v + EPB)%N /\
    exists t, concat (default [] <$> bl) = cells v ++ t) as (Hgb & Hlb & Hub & t & Hct).
  { unfold bl. case_ltb.
    - rewrite vsize_app. change (vsize [_]) with 1%N. split_and!; [|lia|lia|].
      + apply Forall_app. split; [done|]. apply Forall_singleton, good_new.
      + eexists. apply concat_snoc.
    - split_and!; [done|lia|lia|]. exists []. by rewrite app_nil_r. }
  assert (current_size v / EPB = vsize bl - 1)%N as Hdiv by (symmetry; apply (N.div_unique _ _ _
    (current_size v - (vsize bl - 1) * EPB)); nia).
  destruct (cell_write bl (current_size v) x Hgb Hlb) as (p & p' & Hp & Hp' & Hset & Hg' & Hc).
  rewrite Hdiv in Hp, Hset, Hc, Hg'.
  assert (vback bl = Some p) as ->.
  { unfold vback. rewrite last_lookup, <- Hp, vget_lookup. f_equal. unfold vsize. lia. }
  cbn [mbind option_bind]. rewrite Hp'. cbn [mbind option_bind]. rewrite Hset.
  cbn [mbind option_bind]. eexists. split; [done|].
  assert (dv_wf (MkDV (current_size v + 1) (<[N.to_nat (vsize bl - 1) := p']> bl))) as Hwf.
  { constructor; unfold dv_capacity; cbn [bucket_list current_size]; rewrite ?vsize_insert; [done|lia|lia]. }
  split; [done|]. split; [|done]. unfold elems at 1, cells. cbn [bucket_list current_size].
  rewrite Hc, Hct. pose proof (length_concat _ Hg) as Hlen. fold (cells v) in Hlen.
  apply list_eq_vget. intros j. rewrite vget_snoc, (vsize_elems v) by done.
  unfold elems. rewrite !vget_lookup.
  pose proof (length_concat _ Hgb) as Hlen2. rewrite Hct in Hlen2.
  case_decide as Hd.
  - subst j. rewrite lookup_take_lt, list_lookup_insert_eq by (unfold vsize in *; lia). done.
  - destruct (decide (j < current_size v)%N).
    + rewrite !lookup_take_lt, list_lookup_insert_ne, lookup_app_l by (unfold vsize in *; lia). done.
    + rewrite !lookup_take_ge by lia. done.
Qed.

Lemma grow_ok fuel : forall (bl : list (option (list A))) n,
  good bl -> (N.to_nat (n - vsize bl * EPB) <= fuel)%nat ->
  exists bl', grow EPB fresh fuel bl n = Some bl' /\ good bl' /\ (n <= vsize bl' * EPB)%N /\
    (vsize bl' * EPB <= N.max (vsize bl * EPB) (n + EPB))%N /\
    exists t, concat (default [] <$> bl') = concat (default [] <$> bl) ++ t.
Proof.
  induction fuel as [|fuel IH]; intros bl n Hg Hf; cbn [grow]; case_ltb.
  1: lia.
  1, 3: exists bl; split_and!; [done..|lia|lia|]; exists []; by rewrite app_nil_r.
  destruct (IH (bl ++ [new_bucket EPB fresh]) n) as (bl' & Hrun & Hg' & Hl & Hu & t & Hc).
  - apply Forall_app. split; [done|]. apply Forall_singleton, good_new.
  - rewrite vsize_app. change (vsize [_]) with 1%N. lia.
  - rewrite vsize_app in Hu. change (vsize [_]) with 1%N in Hu. exists bl'.
    split_and!; [done..|lia|]. rewrite Hc, concat_snoc, <- app_assoc. by eexists.
Qed.

Lemma resize_up_ok v n : dv_wf v -> (current_size v <= n)%N ->
  exists v', dv_resize EPB fresh n v = Some v' /\ dv_wf v' /\ current_size v' = n /\
    elems v `prefix_of` elems v'.
Proof.
  intros Hwf Hn. pose proof Hwf as [Hg Hl Hu]. unfold dv_resize, dv_capacity in *. case_ltb; [|lia].
  destruct (grow_ok (N.to_nat n) (bucket_list v) n Hg) as (bl' & -> & Hg' & Hl' & Hu' & t & Hc); [lia|].
  cbn [mbind option_bind]. eexists. split; [done|]. split; [|split; [done|]].
  - constructor; unfold dv_capacity; cbn [bucket_list current_size]; [done|done|lia].
  - unfold elems, cells at 2. cbn [bucket_list current_size]. rewrite Hc. fold (cells v).
    pose proof (length_concat _ Hg) as Hlen. fold (cells v) in Hlen. unfold vsize in Hlen.
    exists (drop (N.to_nat (current_size v)) (take (N.to_nat n) (cells v ++ t))).
    rewrite <- (take_drop (N.to_nat (current_size v)) (take (N.to_nat n) (cells v ++ t))) at 1.
    f_equal. rewrite take_take, take_app_le by (unfold vsize in *; lia). f_equal. lia.
Qed.

Lemma resize_down_ok v n : dv_wf v -> (n < current_size v)%N ->
  exists v', dv_resize EPB fresh n v = Some v' /\ dv_wf v' /\ elems v' = take (N.to_nat n) (elems v).
Proof.
  intros Hwf Hn. pose proof Hwf as [Hg Hl Hu]. unfold dv_resize, dv_capacity in *. case_ltb; [lia|].
  assert (n / EPB < vsize (bucket_list v))%N as Hk by (apply N.Div0.div_lt_upper_bound; lia).
  assert (vresize (bucket_list v) (1 + n / EPB) None = take (N.to_nat (1 + n / EPB)) (bucket_list v)) as ->.
  { unfold vresize. unfold vsize in Hk. replace (N.to_nat (1 + n / EPB) - length (bucket_list v))%nat with 0%nat by lia.
    apply app_nil_r. }
  set (bl' := take _ _).
  assert (vsize bl' = 1 + n / EPB)%N as Hsz
    by (unfold bl', vsize in *; rewrite length_take; lia).
  assert (good bl') as Hg' by by apply Forall_take.
  pose proof (N.div_mod n EPB) as Hdm. pose proof (N.mod_lt n EPB) as Hmod.
  eexists. split; [done|].
  assert (dv_wf (MkDV n bl')) as Hwf'.
  { constructor; unfold dv_capacity; cbn [bucket_list current_size]; rewrite ?Hsz; [done|nia|nia]. }
  split; [done|]. apply list_eq_vget. intros j.
  destruct (decide (j < n)%N) as [Hj|Hj].
  - destruct (elems_get _ j Hwf') as [-> _]; [done|].
    assert (vget (take (N.to_nat n) (elems v)) j = vget (elems v) j) as ->
      by (rewrite !vget_lookup; apply lookup_take_lt; lia).
    destruct (elems_get v j Hwf) as [-> _]; [lia|]. unfold dv_get. cbn [bucket_list].
    f_equal. unfold bl'. rewrite !vget_lookup. apply lookup_take_lt.
    assert (j / EPB <= n / EPB)%N by (apply N.Div0.div_le_mono; lia). lia.
  - rewrite !vget_None; [done| |].
    + unfold vsize. rewrite length_take. lia.
    + rewrite vsize_elems by done. simpl. lia.
Qed.

Lemma append_ok xs : forall v, dv_wf v ->
  exists v', dv_append EPB fresh xs v = Some v' /\ dv_wf v' /\ elems v' = elems v ++ xs.
Proof.
  induction xs as [|x xs IH]; intros v Hwf; cbn [dv_append].
  { exists v. by rewrite app_nil_r. }
  destruct (push_ok v x Hwf) as (v1 & -> & Hwf1 & He1 & _). cbn [mbind option_bind].
  destruct (IH v1 Hwf1) as (v2 & -> & Hwf2 & He2). exists v2. split; [done|]. split; [done|].
  by rewrite He2, He1, <- app_assoc.
Qed.

(** The removing iterator at [i]: the buckets from the current one on are
    still those of [bl0]. *)
Lemma rm_loop_ok bl0 n fuel : forall i (bl : list (option (list A))),
  good bl0 -> (n <= vsize bl0 * EPB)%N -> (i <= n)%N -> (N.to_nat (n - i) <= fuel)%nat ->
  vsize bl = vsize bl0 -> (forall k, (i / EPB <= k)%N -> vget bl k = vget bl0 k) ->
  (forall k, (k < i / EPB)%N -> vget bl k = Some None) ->
  exists bl', rm_loop EPB fuel i n bl =
      Some (drop (N.to_nat i) (take (N.to_nat n) (concat (default [] <$> bl0))), bl') /\
    forall k, (k < n / EPB)%N -> vget bl' k = Some None.
Proof.
  induction fuel as [|fuel IH]; intros i bl Hg Hn Hi Hf Hsz Hsame Hnull.
  { assert (i = n) as -> by lia. exists bl. cbn [rm_loop]. rewrite N.eqb_refl. split; [|done].
    rewrite drop_ge; [done|]. rewrite length_take. lia. }
  cbn [rm_loop]. case_ltb.
  { subst i. exists bl. split; [|done]. rewrite drop_ge; [done|]. rewrite length_take. lia. }
  pose proof (length_concat bl0 Hg) as Hlen.
  destruct (vget_lt (concat (default [] <$> bl0)) i) as [x Hx]; [lia|].
  assert (it_dereference EPB i bl = Some x) as ->.
  { unfold it_dereference. rewrite Hsame by lia. rewrite <- vget_concat by done. done. }
  cbn [mbind option_bind].
  assert (i / EPB <= (i + 1) / EPB)%N as Hmono by (apply N.Div0.div_le_mono; lia).
  assert ((i + 1) / EPB <= i / EPB + 1)%N as Hstep.
  { transitivity ((i + 1 * EPB) / EPB)%N; [apply N.Div0.div_le_mono; lia|].
    rewrite N.div_add by lia. done. }
  assert (i / EPB < vsize bl0)%N as Hk by (apply N.Div0.div_lt_upper_bound; lia).
  assert (exists bl1, rm_increment EPB i bl = Some (i + 1, bl1)%N /\ vsize bl1 = vsize bl0 /\
    (forall k, ((i + 1) / EPB <= k)%N -> vget bl1 k = vget bl0 k) /\
    (forall k, (k < (i + 1) / EPB)%N -> vget bl1 k = Some None)) as (bl1 & -> & Hsz1 & Hs1 & Hn1).
  { unfold rm_increment. destruct (N.eqb_spec (i / EPB) ((i + 1) / EPB)) as [E|E]; cbn [negb].
    - exists bl. rewrite <- E. done.
    - rewrite vset_lt by lia. cbn [mbind option_bind]. eexists. split; [done|].
      split; [by rewrite vsize_insert|]. split; intros k Hkk; rewrite vget_insert.
      + rewrite decide_False by lia. apply Hsame. lia.
      + case_decide; [done|]. apply Hnull. lia. }
  cbn [mbind option_bind].
  destruct (IH (i + 1)%N bl1) as (bl' & -> & Hfin); [done|done|lia|lia|done|done|done|].
  cbn [mbind option_bind]. exists bl'. split; [|done]. f_equal. f_equal.
  rewrite (drop_S _ x (N.to_nat i)).
  - do 2 f_equal. lia.
  - rewrite lookup_take_lt by lia. by rewrite <- vget_lookup.
Qed.
End contents.

(** ** Refinement of a list *)

Inductive vec_op (A : Type) :=
  | VPush (x : A) | VAppend (xs : list A) | VSet (i : N) (x : A) | VGet (i : N)
  | VResize (n : N) | VSize | VClear.
Arguments VPush {A}.
Arguments VAppend {A}.
Arguments VSet {A}.
Arguments VGet {A}.
Arguments VResize {A}.
Arguments VSize {A}.
Arguments VClear {A}.

Inductive vec_result (A : Type) := VUnit | VElem (x : A) | VNum (n : N).
Arguments VUnit {A}.
Arguments VElem {A}.
Arguments VNum {A}.

Definition dv_step {A} (EPB : N) (fresh : A) (v : DeallocatingVector A) (o : vec_op A)
    : option (vec_result A * DeallocatingVector A) :=
  match o with
  | VPush x => v' ← dv_push_back EPB fresh x v; Some (VUnit, v')
  | VAppend xs => v' ← dv_append EPB fresh xs v; Some (VUnit, v')
  | VSet i x => v' ← dv_set EPB i x v; Some (VUnit, v')
  | VGet i => x ← dv_get EPB i v; Some (VElem x, v)
  | VResize n => v' ← dv_resize EPB fresh n v; Some (VUnit, v')
  | VSize => Some (VNum (dv_size v), v)
  | VClear => Some (VUnit, dv_clear v)
  end.

Fixpoint dv_run {A} (EPB : N) (fresh : A) (v : DeallocatingVector A) (ops : list (vec_op A))
    : option (list (vec_result A) * DeallocatingVector A) :=
  match ops with
  | [] => Some ([], v)
  | o :: ops' => '(r, v1) ← dv_step EPB fresh v o; '(rs, v2) ← dv_run EPB fresh v1 ops'; Some (r :: rs, v2)
  end.

(** The operations on a plain list; growing leaves the new cells open, as
    the bucket may hold values of elements removed before. *)
Inductive list_step {A} : list A -> vec_op A -> vec_result A -> list A -> Prop :=
  | ls_push l x : list_step l (VPush x) VUnit (l ++ [x])
  | ls_append l xs : list_step l (VAppend xs) VUnit (l ++ xs)
  | ls_set l i x : (i < vsize l)%N -> list_step l (VSet i x) VUnit (<[N.to_nat i := x]> l)
  | ls_get l i x : vget l i = Some x -> list_step l (VGet i) (VElem x) l
  | ls_grow l l' n : (vsize l <= n)%N -> l `prefix_of` l' -> vsize l' = n -> list_step l (VResize n) VUnit l'
  | ls_shrink l n : (n < vsize l)%N -> list_step l (VResize n) VUnit (take (N.to_nat n) l)
  | ls_size l : list_step l VSize (VNum (vsize l)) l
  | ls_clear l : list_step l VClear VUnit [].

Inductive list_run {A} : list A -> list (vec_op A) -> list (vec_result A) -> list A -> Prop :=
  | lr_nil l : list_run l [] [] l
  | lr_cons l o r l1 ops rs l2 :
      list_step l o r l1 -> list_run l1 ops rs l2 -> list_run l (o :: ops) (r :: rs) l2.

Definition vec_legal {A} (n : N) (o : vec_op A) : Prop :=
  match o with VSet i _ | VGet i => (i < n)%N | _ => True end.

(** The size the vector has after an operation. *)
Definition size_after {A} (n : N) (o : vec_op A) : N :=
  match o with
  | VPush _ => n + 1
  | VAppend xs => n + vsize xs
  | VResize m => m
  | VClear => 0
  | _ => n
  end.

Fixpoint vec_all_legal {A} (n : N) (ops : list (vec_op A)) : Prop :=
  match ops with
  | [] => True
  | o :: ops' => vec_legal n o /\ vec_all_legal (size_after n o) ops'
  end.

Section refinement.
  Context {A : Type} (EPB : N) (fresh : A).
  Hypothesis EPB_pos : (0 < EPB)%N.
  #[local] Set Default Proof Using "Type EPB_pos".

Lemma dv_step_ok v o : dv_wf EPB v -> vec_legal (current_size v) o ->
  exists r v', dv_step EPB fresh v o = Some (r, v') /\ dv_wf EPB v' /\
    current_size v' = size_after (current_size v) o /\ list_step (elems v) o r (elems v').
Proof.
  intros Hwf Hl. pose proof (vsize_elems EPB EPB_pos v Hwf) as Hsz.
  assert (forall r v', dv_wf EPB v' -> vsize (elems v') = size_after (current_size v) o ->
    list_step (elems v) o r (elems v') -> dv_step EPB fresh v o = Some (r, v') ->
    exists r v', dv_step EPB fresh v o = Some (r, v') /\ dv_wf EPB v' /\
    current_size v' = size_after (current_size v) o /\ list_step (elems v) o r (elems v')) as Hdone.
  { intros r v' Hwf' Hsz' Hst Hrun. exists r, v'. split_and!; try done.
    by rewrite <- (vsize_elems EPB EPB_pos v'). }
  destruct o as [x|xs|i x|i|n| |]; cbn [vec_legal dv_step size_after] in *.
  - destruct (push_ok EPB fresh EPB_pos v x Hwf) as (v' & Hrun & Hwf' & He & _).
    apply (Hdone VUnit v'); rewrite ?He, ?vsize_app, ?Hsz; [done..|constructor|by rewrite Hrun].
  - destruct (append_ok EPB fresh EPB_pos xs v Hwf) as (v' & Hrun & Hwf' & He).
    apply (Hdone VUnit v'); rewrite ?He, ?vsize_app, ?Hsz; [done..|constructor|by rewrite Hrun].
  - destruct (set_ok EPB EPB_pos v i x Hwf Hl) as (v' & Hrun & Hwf' & He).
    apply (Hdone VUnit v'); rewrite ?He, ?vsize_insert; [done|done| |by rewrite Hrun].
    constructor. by rewrite Hsz.
  - destruct (elems_get EPB EPB_pos v i Hwf Hl) as [Hget [x Hx]]. 
    apply (Hdone (VElem x) v); [done|done|constructor; by rewrite Hget|by rewrite Hx].
  - destruct (decide (current_size v <= n)%N) as [Hn|Hn].
    + destruct (resize_up_ok EPB fresh EPB_pos v n Hwf Hn) as (v' & Hrun & Hwf' & Hs' & He).
      pose proof (vsize_elems EPB EPB_pos v' Hwf') as Hsz'.
    apply (Hdone VUnit v'); [done|by rewrite Hsz'| |by rewrite Hrun]. constructor; [lia|done|lia].
    + destruct (resize_down_ok EPB fresh EPB_pos v n Hwf) as (v' & Hrun & Hwf' & He); [lia|].
    apply (Hdone VUnit v'); rewrite ?He; [done| |constructor; lia|by rewrite Hrun].
      unfold vsize in *. rewrite length_take. lia.
  - apply (Hdone (VNum (current_size v)) v); try done. rewrite <- Hsz. constructor.
  - apply (Hdone VUnit (dv_clear v)); try done; [|constructor].
    constructor; unfold dv_capacity, vsize; simpl; [by apply Forall_nil|lia|lia].
Qed.

Lemma dv_run_ok ops : forall v, dv_wf EPB v -> vec_all_legal (current_size v) ops ->
  exists rs v', dv_run EPB fresh v ops = Some (rs, v') /\ dv_wf EPB v' /\
    list_run (elems v) ops rs (elems v').
Proof.
  induction ops as [|o ops IH]; intros v Hwf Hl.
  { exists [], v. split_and!; [done..|constructor]. }
  destruct Hl as [Ho Hl]. destruct (dv_step_ok v o Hwf Ho) as (r & v1 & Hst & Hwf1 & Hs1 & Hls).
  rewrite <- Hs1 in Hl. destruct (IH v1 Hwf1 Hl) as (rs & v2 & Hrun & Hwf2 & Hlr).
  exists (r :: rs), v2. cbn [dv_run]. rewrite Hst. cbn [mbind option_bind]. rewrite Hrun.
  split_and!; [done..|by econstructor].
Qed.

Lemma make_wf : dv_wf EPB (dv_make EPB fresh) /\ elems (dv_make EPB fresh) = [].
Proof.
  split; [|done]. constructor; unfold dv_capacity, dv_make, vsize; simpl; [|lia|lia].
  apply Forall_singleton, (good_new EPB fresh EPB_pos).
Qed.
End refinement.

(** C27: The block vector is a list. From the constructor on, any sequence of
    [push_back], [append], element reads and writes within the size, [resize]
    up and down, [size] and [clear] stays within the allocated buckets and
    answers as the same operations on a plain list, for every block size. *)
Theorem dv_refines_list {A} EPB (fresh : A) ops :
  (0 < EPB)%N -> vec_all_legal 0 ops ->
  exists rs v', dv_run EPB fresh (dv_make EPB fresh) ops = Some (rs, v') /\ list_run [] ops rs (elems v').
Proof.
  intros HE Hl. destruct (make_wf EPB fresh HE) as [Hwf He].
  destruct (dv_run_ok EPB fresh HE ops _ Hwf Hl) as (rs & v' & Hrun & _ & Hlr).
  rewrite He in Hlr. eauto.
Qed.

Lemma dv_refines_list_witness :
  exists rs v', dv_run 2 0%N (dv_make 2 0%N)
      [VAppend [5; 6; 7]%N; VSet 2 9%N; VResize 1; VPush 8%N; VGet 1; VSize] = Some (rs, v') /\
    list_run [] [VAppend [5; 6; 7]%N; VSet 2 9%N; VResize 1; VPush 8%N; VGet 1; VSize] rs (elems v') /\
    rs = [VUnit; VUnit; VUnit; VUnit; VElem 8%N; VNum 2] /\ elems v' = [5; 8]%N.
Proof.
  destruct (dv_refines_list 2 0%N [VAppend [5; 6; 7]%N; VSet 2 9%N; VResize 1; VPush 8%N; VGet 1; VSize])
    as (rs & v' & Hrun & Hlr).
  - reflexivity.
  - repeat split; reflexivity.
  - exists rs, v'. split_and!; [done..| |]; vm_compute in Hrun; by injection Hrun as <- <-.
Defined.

(** Walking a vector with the deallocating iterators visits exactly its
    elements in order, never touches a bucket after freeing it, and leaves
    every bucket it has passed freed. *)
Theorem dv_drain_elems {A} EPB (v : DeallocatingVector A) :
  (0 < EPB)%N -> dv_wf EPB v ->
  exists v', dv_drain EPB v = Some (elems v, v') /\
    forall k, (k < current_size v / EPB)%N -> vget (bucket_list v') k = Some None.
Proof.
  intros HE Hwf. pose proof Hwf as [Hg Hl Hu]. unfold dv_drain, dv_size.
  destruct (rm_loop_ok EPB HE (bucket_list v) (current_size v) (N.to_nat (current_size v)) 0
    (bucket_list v)) as (bl' & -> & Hnull); [done|done|lia|lia|done|done| |].
  { intros k Hk. rewrite N.Div0.div_0_l in Hk. lia. }
  cbn [mbind option_bind]. eexists. split; [done|]. done.
Qed.

Lemma dv_drain_elems_witness :
  exists v', dv_drain 2 (MkDV 3 [Some [5; 6]; Some [7; 0]])%N = Some ([5; 6; 7]%N, v') /\
    bucket_list v' = [None; Some [7; 0]%N].
Proof.
  destruct (dv_drain_elems 2 (MkDV 3 [Some [5; 6]; Some [7; 0]])%N) as (v' & Hrun & _).
  - reflexivity.
  - constructor; [repeat constructor; eexists; split; reflexivity|vm_compute; discriminate|vm_compute; discriminate].
  - exists v'. split; [exact Hrun|]. vm_compute in Hrun. by injection Hrun as <-.
Defined.

(** [back] does not return the last element. It reads the cell after it:
    on a well-formed vector whose buckets are full the access is out of
    bounds, and otherwise it returns a cell that is not part of the vector. *)
Theorem dv_back_past_the_end {A} EPB (v : DeallocatingVector A) :
  (0 < EPB)%N -> dv_wf EPB v ->
  dv_back EPB v = vget (cells v) (vsize (elems v)) /\
  (current_size v = dv_capacity EPB v -> dv_back EPB v = None).
Proof.
  intros HE Hwf. pose proof Hwf as [Hg Hl Hu].
  assert (dv_back EPB v = vget (cells v) (vsize (elems v))) as Hb.
  { rewrite (vsize_elems EPB HE) by done. unfold cells. by rewrite (vget_concat EPB HE). }
  split; [done|]. intros Hfull. rewrite Hb, (vsize_elems EPB HE) by done. apply vget_None.
  unfold cells. rewrite (length_concat EPB HE) by done. unfold dv_capacity in Hfull. lia.
Qed.

(** After [push_back 7] on a fresh vector [back] is the cell after the 7. *)
Lemma dv_back_past_the_end_witness :
  (dv_push_back 4 0%N 7%N (dv_make 4 0%N) ≫= dv_back 4) = Some 0%N /\
  (dv_push_back 1 0%N 7%N (dv_make 1 0%N) ≫= dv_back 1) = None.
Proof.
  split.
  - change (dv_back 4 (MkDV 1 [Some [7; 0; 0; 0]%N]) = Some 0%N).
    destruct (dv_back_past_the_end 4 (MkDV 1 [Some [7; 0; 0; 0]%N])) as [H _].
    + reflexivity.
    + constructor; [repeat constructor; eexists; split; reflexivity|vm_compute; discriminate|vm_compute; discriminate].
    + rewrite H. reflexivity.
  - change (dv_back 1 (MkDV 1 [Some [7]%N]) = None).
    apply (dv_back_past_the_end 1 (MkDV 1 [Some [7]%N])); [reflexivity| |reflexivity].
    constructor; [repeat constructor; eexists; split; reflexivity|vm_compute; discriminate|vm_compute; discriminate].
Defined.
