(* ===== verification/DynamicGraph.v ===== *)
(** * DataStructures/DynamicGraph.h

    The mutable adjacency array of the contraction: a node owns the slots
    [firstEdge, firstEdge + edges) of one shared edge list, and a slot outside
    every range is free when its target is the dummy id. The operations refine
    a list of arc multisets, one per node. *)

From Stdlib Require Import Sorting.Sorted.
From S2P Require Import Prelude Types.

#[local] Ltac Zify.zify_post_hook ::= Z.to_euclidean_division_equations.

(** ** Double arithmetic of the growth policy *)

(** Nonnegative doubles below 2^53, as multiples of 2^-52: a product with the
    double nearest to 1.1 (4953959590107546 * 2^-52) is such a multiple, and
    is rounded to 53 significant bits, ties to even. *)
Definition round53 (m : N) : N :=
  if (m <? 2 ^ 53)%N then m
  else
    let sh := (N.log2 m - 52)%N in
    let q := (m / 2 ^ sh)%N in
    let r := (m mod 2 ^ sh)%N in
    let up := ((2 ^ (sh - 1) <? r) || ((r =? 2 ^ (sh - 1)) && N.odd q))%N in
    ((if up then q + 1 else q) * 2 ^ sh)%N.

(** [unsigned newSize = edges * 1.1 + 2]; [None] when the double does not fit. *)
Definition grown_size (edges : N) : option N :=
  let prod := round53 (edges * 4953959590107546) in
  let sum := round53 (prod + 2 * 2 ^ 52) in
  if (sum / 2 ^ 52 <? 4294967296)%N then Some (sum / 2 ^ 52)%N else None.

(** ** The graph *)

Section operations.
  Context {D : Type}.

Record InputEdge := MkInputEdge { ie_source : N; ie_target : N; ie_data : D }.

Definition InputEdge_lt (l r : InputEdge) : bool :=
  if negb (ie_source l =? ie_source r)%N then (ie_source l <? ie_source r)%N
  else (ie_target l <? ie_target r)%N.

Record Node := MkNode { firstEdge : N; edges : N }.

Record Edge := MkEdge { e_target : N; e_data : D }.

Record DynamicGraph := MkDynamicGraph {
  number_of_nodes : N; number_of_edges : N;
  node_list : list Node; edge_list : list Edge }.

Definition set_firstEdge (f : N) (nd : Node) : Node := MkNode f (edges nd).
Definition set_edges (k : N) (nd : Node) : Node := MkNode (firstEdge nd) k.
Definition set_target (t : N) (e : Edge) : Edge := MkEdge t (e_data e).
Definition set_node_list (l : list Node) (g : DynamicGraph) : DynamicGraph :=
  MkDynamicGraph (number_of_nodes g) (number_of_edges g) l (edge_list g).
Definition set_edge_list (l : list Edge) (g : DynamicGraph) : DynamicGraph :=
  MkDynamicGraph (number_of_nodes g) (number_of_edges g) (node_list g) l.

(** What the cells hold that [edge_list.resize] adds: they are not
    initialised, and may be cells used before. *)
  Context (junk : N -> Edge).

Definition resize_edges (l : list Edge) (n : N) : list Edge :=
  take (N.to_nat n) l ++ (junk <$> irange (vsize l) n).

(** The empty graph with the given number of nodes. *)
Definition DynamicGraph_make (nodes : N) : DynamicGraph :=
  MkDynamicGraph nodes 0 (replicate (N.to_nat nodes) (MkNode 0 0)) (resize_edges [] nodes).

(** [while (edge < number_of_edges && graph[edge].source == node) ++edge]. *)
Fixpoint skip_source (fuel : nat) (graph : list InputEdge) (node edge : N) : option N :=
  match fuel with
  | O => None
  | S fuel' =>
      if (edge <? u32 (vsize graph))%N then
        e ← vget graph edge;
        if (ie_source e =? node)%N then skip_source fuel' graph node (uadd edge 1) else Some edge
      else Some edge
  end.

(** The first loop: the ranges of the nodes. *)
Fixpoint count_edges (nodes : list N) (graph : list InputEdge) (nl : list Node) (edge position : N)
    : option (list Node * N) :=
  match nodes with
  | [] => Some (nl, position)
  | node :: nodes' =>
      let lastEdge := edge in
      edge' ← skip_source (S (length graph)) graph node edge;
      nl' ← vset nl node (MkNode position (usub edge' lastEdge));
      count_edges nodes' graph nl' edge' (uadd position (usub edge' lastEdge))
  end.

(** The second loop: the edges of one node, then of all nodes. *)
Fixpoint copy_range (slots : list N) (graph : list InputEdge) (el : list Edge) (edge : N)
    : option (list Edge * N) :=
  match slots with
  | [] => Some (el, edge)
  | i :: slots' =>
      e ← vget graph edge;
      el' ← vset el i (MkEdge (ie_target e) (ie_data e));
      copy_range slots' graph el' (uadd edge 1)
  end.

Fixpoint copy_edges (nodes : list N) (graph : list InputEdge) (nl : list Node) (el : list Edge)
    (edge : N) : option (list Edge) :=
  match nodes with
  | [] => Some el
  | node :: nodes' =>
      nd ← vget nl node;
      '(el', edge') ← copy_range (irange (firstEdge nd) (uadd (firstEdge nd) (edges nd))) graph el edge;
      copy_edges nodes' graph nl el' edge'
  end.

(** The graph of a list of edges sorted by source. *)
Definition DynamicGraph_from (nodes : N) (graph : list InputEdge) : option DynamicGraph :=
  let nl := replicate (N.to_nat (uadd nodes 1)) (MkNode 0 0) in
  '(nl1, position) ← count_edges (irange 0 nodes) graph nl 0 0;
  nl2 ← vupd nl1 (vsize nl1 - 1) (set_firstEdge position);
  el ← copy_edges (irange 0 nodes) graph nl2 (resize_edges [] position) 0;
  Some (MkDynamicGraph nodes (u32 (vsize graph)) nl2 el).

Definition GetNumberOfNodes (g : DynamicGraph) : N := number_of_nodes g.
Definition GetNumberOfEdges (g : DynamicGraph) : N := number_of_edges g.

Definition GetOutDegree (n : N) (g : DynamicGraph) : option N :=
  nd ← vget (node_list g) n; Some (edges nd).

Definition GetTarget (e : N) (g : DynamicGraph) : option N :=
  x ← vget (edge_list g) e; Some (e_target x).

Definition SetTarget (e n : N) (g : DynamicGraph) : option DynamicGraph :=
  el ← vupd (edge_list g) e (set_target n); Some (set_edge_list el g).

Definition GetEdgeData (e : N) (g : DynamicGraph) : option D :=
  x ← vget (edge_list g) e; Some (e_data x).

(** Assignment through the reference [GetEdgeData] returns. *)
Definition AssignEdgeData (e : N) (f : D -> D) (g : DynamicGraph) : option DynamicGraph :=
  el ← vupd (edge_list g) e (fun x => MkEdge (e_target x) (f (e_data x)));
  Some (set_edge_list el g).

Definition BeginEdges (n : N) (g : DynamicGraph) : option N :=
  nd ← vget (node_list g) n; Some (firstEdge nd).

Definition EndEdges (n : N) (g : DynamicGraph) : option N :=
  nd ← vget (node_list g) n; Some (uadd (firstEdge nd) (edges nd)).

Definition GetAdjacentEdgeRange (n : N) (g : DynamicGraph) : option (list N) :=
  b ← BeginEdges n g; e ← EndEdges n g; Some (irange b e).

Fixpoint count_forward (forward : D -> bool) (slots : list N) (g : DynamicGraph) (degree : N)
    : option N :=
  match slots with
  | [] => Some degree
  | edge :: slots' =>
      d ← GetEdgeData edge g;
      count_forward forward slots' g (if forward d then uadd degree 1 else degree)
  end.

Definition GetDirectedOutDegree (forward : D -> bool) (n : N) (g : DynamicGraph) : option N :=
  r ← GetAdjacentEdgeRange n g; count_forward forward r g 0.

Definition InsertNode (g : DynamicGraph) : option (N * DynamicGraph) :=
  b ← vback (node_list g);
  let g' := MkDynamicGraph (uadd (number_of_nodes g) 1) (number_of_edges g)
              (node_list g ++ [b]) (edge_list g) in
  Some (number_of_nodes g', g').

Definition isDummy (edge : N) (el : list Edge) : option bool :=
  x ← vget el edge; Some (e_target x =? UINT_MAX)%N.

Definition makeDummy (edge : N) (el : list Edge) : option (list Edge) :=
  vupd el edge (set_target UINT_MAX).

(** [edge_list[newFirstEdge + i] = edge_list[node.firstEdge + i]; makeDummy(node.firstEdge + i)]. *)
Fixpoint move_edges (ids : list N) (old new : N) (el : list Edge) : option (list Edge) :=
  match ids with
  | [] => Some el
  | i :: ids' =>
      x ← vget el (uadd old i);
      el1 ← vset el (uadd new i) x;
      el2 ← makeDummy (uadd old i) el1;
      move_edges ids' old new el2
  end.

Fixpoint make_dummies (ids : list N) (new : N) (el : list Edge) : option (list Edge) :=
  match ids with
  | [] => Some el
  | i :: ids' => el' ← makeDummy (uadd new i) el; make_dummies ids' new el'
  end.

(** The relocation of a node's edges to the end of the list. *)
Definition relocate (nd : Node) (el : list Edge) : option (Node * list Edge) :=
  let newFirstEdge := u32 (vsize el) in
  newSize ← grown_size (edges nd);
  let el0 := resize_edges el (vsize el + newSize) in
  el1 ← move_edges (irange 0 (edges nd)) (firstEdge nd) newFirstEdge el0;
  el2 ← make_dummies (irange (uadd (edges nd) 1) newSize) newFirstEdge el1;
  Some (set_firstEdge newFirstEdge nd, el2).

(** Shifting the range one slot to the left: the last edge moves to the front. *)
Definition shift_left (nd : Node) (el : list Edge) : option (Node * list Edge) :=
  let nd' := set_firstEdge (usub (firstEdge nd) 1) nd in
  x ← vget el (uadd (firstEdge nd') (edges nd'));
  el' ← vset el (firstEdge nd') x;
  Some (nd', el').

(** Make the slot after the range of the node available. *)
Definition make_room (nd : Node) (el : list Edge) : option (Node * list Edge) :=
  let newFirstEdge := uadd (edges nd) (firstEdge nd) in
  full ← (if (vsize el <=? newFirstEdge)%N then Some true
          else d ← isDummy newFirstEdge el; Some (negb d));
  if full : bool then
    left_free ← (if negb (firstEdge nd =? 0)%N then isDummy (usub (firstEdge nd) 1) el
                 else Some false);
    if left_free : bool then shift_left nd el else relocate nd el
  else Some (nd, el).

Definition InsertEdge (from to : N) (data : D) (g : DynamicGraph) : option (N * DynamicGraph) :=
  nd ← vget (node_list g) from;
  '(nd', el') ← make_room nd (edge_list g);
  el'' ← vset el' (uadd (firstEdge nd') (edges nd')) (MkEdge to data);
  let nd'' := set_edges (uadd (edges nd') 1) nd' in
  nl ← vset (node_list g) from nd'';
  Some (uadd (firstEdge nd'') (edges nd''),
        MkDynamicGraph (number_of_nodes g) (uadd (number_of_edges g) 1) nl el'').

Definition DeleteEdge (source e : N) (g : DynamicGraph) : option DynamicGraph :=
  nd ← vget (node_list g) source;
  let nd' := set_edges (usub (edges nd) 1) nd in
  nl ← vset (node_list g) source nd';
  let last_edge := uadd (firstEdge nd') (edges nd') in
  x ← vget (edge_list g) last_edge;
  el ← vset (edge_list g) e x;
  el' ← makeDummy last_edge el;
  Some (MkDynamicGraph (number_of_nodes g) (usub (number_of_edges g) 1) nl el').

(** The inner [do ... while] of [DeleteEdgesTo]. *)
Fixpoint delete_run (fuel : nat) (i iend target : N) (el : list Edge) (deleted : Z)
    : option (list Edge * Z) :=
  match fuel with
  | O => None
  | S fuel' =>
      deleted' ← iadd deleted 1;
      x ← vget el (usub iend (of_int deleted'));
      el1 ← vset el i x;
      el2 ← makeDummy (usub iend (of_int deleted')) el1;
      if (i <? usub iend (of_int deleted'))%N then
        y ← vget el2 i;
        if (e_target y =? target)%N then delete_run fuel' i iend target el2 deleted'
        else Some (el2, deleted')
      else Some (el2, deleted')
  end.

Fixpoint delete_loop (fuel : nat) (i iend target : N) (el : list Edge) (deleted : Z)
    : option (list Edge * Z) :=
  match fuel with
  | O => None
  | S fuel' =>
      if (i <? usub iend (of_int deleted))%N then
        x ← vget el i;
        '(el', deleted') ←
          (if (e_target x =? target)%N then delete_run (S (length el)) i iend target el deleted
           else Some (el, deleted));
        delete_loop fuel' (uadd i 1) iend target el' deleted'
      else Some (el, deleted)
  end.

Definition DeleteEdgesTo (source target : N) (g : DynamicGraph) : option (Z * DynamicGraph) :=
  i ← BeginEdges source g;
  iend ← EndEdges source g;
  '(el, deleted) ← delete_loop (S (length (edge_list g))) i iend target (edge_list g) 0;
  nl ← vupd (node_list g) source (fun nd => set_edges (usub (edges nd) (of_int deleted)) nd);
  Some (deleted, MkDynamicGraph (number_of_nodes g) (usub (number_of_edges g) (of_int deleted)) nl el).

Fixpoint find_loop (slots : list N) (to : N) (el : list Edge) : option (option N) :=
  match slots with
  | [] => Some None
  | i :: slots' =>
      x ← vget el i;
      if (to =? e_target x)%N then Some (Some i) else find_loop slots' to el
  end.

Definition FindEdge (from to : N) (g : DynamicGraph) : option N :=
  r ← GetAdjacentEdgeRange from g;
  found ← find_loop r to (edge_list g);
  match found with Some i => Some i | None => EndEdges from g end.

End operations.
Arguments InputEdge : clear implicits.
Arguments MkInputEdge {D}.
Arguments Edge : clear implicits.
Arguments MkEdge {D}.
Arguments DynamicGraph : clear implicits.
Arguments MkDynamicGraph {D}.

(** ** The growth policy *)

Lemma round53_bounds m : (m - m / 2 ^ 52 <= round53 m <= m + m / 2 ^ 52)%N.
Proof.
  unfold round53. case_ltb; [lia|].
  assert (2 ^ N.log2 m <= m)%N as Hlog by (apply N.log2_spec; lia).
  assert (53 <= N.log2 m)%N as Hbig by (apply N.log2_le_pow2; lia).
  set (sh := (N.log2 m - 52)%N).
  assert (2 ^ sh * 2 ^ 52 <= m)%N as Hsh.
  { rewrite <- N.pow_add_r. replace (sh + 52)%N with (N.log2 m) by lia. done. }
  assert (2 ^ sh <= m / 2 ^ 52)%N as Hq by (apply N.div_le_lower_bound; lia).
  assert (0 < 2 ^ sh)%N as Hpos by (apply N.neq_0_lt_0, N.pow_nonzero; lia).
  pose proof (N.div_mod m (2 ^ sh)) as Hdm. pose proof (N.mod_lt m (2 ^ sh)) as Hml.
  generalize dependent (2 ^ sh)%N. intros P HP HPq HPpos Hdm Hml.
  match goal with |- context [if ?b then _ else _] => destruct b end; nia.
Qed.

Lemma grown_size_ok k : (k < 2147483648)%N ->
  exists n, grown_size k = Some n /\ (k + 1 <= n <= 2 * k + 3)%N.
Proof.
  intros Hk. unfold grown_size.
  pose proof (round53_bounds (k * 4953959590107546)) as H1.
  set (p := round53 (k * 4953959590107546)) in *.
  pose proof (round53_bounds (p + 2 * 2 ^ 52)) as H2.
  set (q := round53 (p + 2 * 2 ^ 52)) in *. clearbody p q.
  change (2 ^ 52)%N with 4503599627370496%N in *.
  case_ltb; [|lia]. eexists. split; [done|]. lia.
Qed.

(** ** Ranges and slices *)

Section slices.
  Context {D : Type}.
  Implicit Types (g : DynamicGraph D) (el : list (Edge D)) (nd : Node).

Definition in_range nd (i : N) : Prop := (firstEdge nd <= i < firstEdge nd + edges nd)%N.

Definition slice el nd : list (Edge D) :=
  take (N.to_nat (edges nd)) (drop (N.to_nat (firstEdge nd)) el).

Lemma vget_slice el nd k :
  vget (slice el nd) k = if decide (k < edges nd)%N then vget el (firstEdge nd + k) else None.
Proof.
  unfold slice. rewrite !vget_lookup. case_decide.
  - rewrite lookup_take_lt, lookup_drop by lia. f_equal. lia.
  - apply lookup_take_ge. lia.
Qed.

Lemma vsize_slice el nd :
  (firstEdge nd + edges nd <= vsize el)%N -> vsize (slice el nd) = edges nd.
Proof. unfold slice, vsize. rewrite length_take, length_drop. lia. Qed.

Lemma makeDummy_ok el i : (i < vsize el)%N ->
  makeDummy i el = Some (alter (set_target UINT_MAX) (N.to_nat i) el).
Proof. apply vupd_lt. Qed.

Lemma move_edges_ok fuel old new n : forall a el,
  (N.to_nat (n - a) <= fuel)%nat -> (old + n <= new)%N -> (new + n <= vsize el)%N ->
  (vsize el < 2147483648)%N ->
  exists el', move_edges (irange a n) old new el = Some el' /\ vsize el' = vsize el /\
    (forall j, ~ (old + a <= j < old + n)%N -> ~ (new + a <= j < new + n)%N -> vget el' j = vget el j) /\
    (forall k, (a <= k < n)%N -> vget el' (new + k) = vget el (old + k)).
Proof.
  induction fuel as [|fuel IH]; intros a el Hf Hon Hn Hsz.
  { exists el. rewrite irange_nil by lia. split_and!; [done..|lia]. }
  destruct (decide (a < n)%N) as [Han|Han].
  2:{ exists el. rewrite irange_nil by lia. split_and!; [done..|lia]. }
  rewrite irange_cons by lia. cbn [move_edges].
  rewrite (uadd_small old a), (uadd_small new a) by lia.
  destruct (vget_lt el (old + a)) as [x Hx]; [lia|]. rewrite Hx. cbn [mbind option_bind].
  rewrite vset_lt by lia. cbn [mbind option_bind].
  rewrite makeDummy_ok by (rewrite vsize_insert; lia). cbn [mbind option_bind].
  destruct (IH (a + 1)%N (alter (set_target UINT_MAX) (N.to_nat (old + a))
    (<[N.to_nat (new + a) := x]> el))) as (el' & Hrun & Hsz' & Hkeep & Hmoved);
    rewrite ?vsize_alter, ?vsize_insert in *; [lia..|].
  exists el'. split; [done|]. split; [done|]. split.
  - intros j Hj1 Hj2. rewrite Hkeep by lia. rewrite vget_alter, vget_insert.
    rewrite !decide_False by lia. done.
  - intros k Hk. destruct (decide (k = a)) as [->|Hne].
    + rewrite Hkeep by lia. rewrite vget_alter, vget_insert, decide_False, decide_True by lia. done.
    + rewrite Hmoved by lia. rewrite vget_alter, vget_insert, !decide_False by lia. done.
Qed.

Lemma make_dummies_ok fuel new n : forall a el,
  (N.to_nat (n - a) <= fuel)%nat -> (new + n <= vsize el)%N -> (vsize el < 2147483648)%N ->
  exists el', make_dummies (irange a n) new el = Some el' /\ vsize el' = vsize el /\
    forall j, ~ (new + a <= j < new + n)%N -> vget el' j = vget el j.
Proof.
  induction fuel as [|fuel IH]; intros a el Hf Hn Hsz.
  { exists el. rewrite irange_nil by lia. done. }
  destruct (decide (a < n)%N) as [Han|Han].
  2:{ exists el. rewrite irange_nil by lia. done. }
  rewrite irange_cons by lia. cbn [make_dummies]. rewrite uadd_small by lia.
  rewrite makeDummy_ok by lia. cbn [mbind option_bind].
  destruct (IH (a + 1)%N (alter (set_target UINT_MAX) (N.to_nat (new + a)) el))
    as (el' & Hrun & Hsz' & Hkeep); rewrite ?vsize_alter in *; [lia..|].
  exists el'. split; [done|]. split; [done|]. intros j Hj. rewrite Hkeep by lia.
  by rewrite vget_alter, decide_False by lia.
Qed.


(** ** The invariant *)

Record graph_wf g : Prop := {
  gw_bound : (vsize (edge_list g) < 2147483648)%N;
  gw_range : forall n nd, vget (node_list g) n = Some nd ->
    (firstEdge nd + edges nd <= vsize (edge_list g))%N;
  gw_disjoint : forall n m a b i, vget (node_list g) n = Some a -> vget (node_list g) m = Some b ->
    in_range a i -> in_range b i -> n = m;
  gw_used : forall n nd i e, vget (node_list g) n = Some nd -> in_range nd i ->
    vget (edge_list g) i = Some e -> e_target e <> UINT_MAX;
}.

(** The arcs leaving a node. *)
Definition adj g (n : N) : list (Edge D) :=
  match vget (node_list g) n with Some nd => slice (edge_list g) nd | None => [] end.

(** The slots of the nodes other than [n]. *)
Definition foreign g (n i : N) : Prop :=
  exists m nd, m <> n /\ vget (node_list g) m = Some nd /\ in_range nd i.

(** Giving one node a new range and leaving the slots of the others alone. *)
Lemma update_node g n nd' ne nn el' :
  graph_wf g -> (n < vsize (node_list g))%N -> (vsize (edge_list g) <= vsize el' < 2147483648)%N ->
  (firstEdge nd' + edges nd' <= vsize el')%N ->
  (forall i, foreign g n i -> vget el' i = vget (edge_list g) i) ->
  (forall i, in_range nd' i -> ~ foreign g n i) ->
  (forall i e, in_range nd' i -> vget el' i = Some e -> e_target e <> UINT_MAX) ->
  let g' := MkDynamicGraph nn ne (<[N.to_nat n := nd']> (node_list g)) el' in
  graph_wf g' /\ adj g' n = slice el' nd' /\ forall m, m <> n -> adj g' m = adj g m.
Proof.
  intros [Hb Hr Hd Hu] Hn Hsz Hr' Hkeep Hown Hused g'.
  assert (forall m x, vget (node_list g') m = Some x ->
    (m = n /\ x = nd') \/ (m <> n /\ vget (node_list g) m = Some x)) as Hnode.
  { intros m x. unfold g'. cbn [node_list]. rewrite vget_insert. case_decide as E.
    - intros [= <-]. left. split; [|done]. symmetry. tauto.
    - right. split; [intros ->; tauto|done]. }
  split; [|split].
  - constructor; cbn [edge_list].
    + unfold g'. simpl. lia.
    + intros m x Hx. unfold g'. simpl. destruct (Hnode m x Hx) as [[-> ->]|[Hne Hx']]; [done|].
      apply Hr in Hx'. lia.
    + intros m k a b i Ha Hb' Hia Hib.
      destruct (Hnode m a Ha) as [[-> ->]|[Hne Ha']];
      destruct (Hnode k b Hb') as [[-> ->]|[Hne' Hb'']]; [done| | |].
      * exfalso. apply (Hown i); [done|]. by exists k, b.
      * exfalso. apply (Hown i); [done|]. by exists m, a.
      * by eapply (Hd m k a b i).
    + intros m x i e Hx Hi He. destruct (Hnode m x Hx) as [[-> ->]|[Hne Hx']].
      * by apply (Hused i).
      * unfold g' in He. simpl in He. rewrite Hkeep in He by (by exists m, x). by apply (Hu m x i).
  - unfold adj, g'. cbn [node_list edge_list]. by rewrite vget_insert, decide_True.
  - intros m Hne. unfold adj, g'. cbn [node_list edge_list]. rewrite vget_insert, decide_False by naive_solver.
    destruct (vget (node_list g) m) as [x|] eqn:E; [|done]. apply list_eq_vget. intros k.
    rewrite !vget_slice. case_decide; [|done]. apply Hkeep. exists m, x. split_and!; try done.
    unfold in_range. lia.
Qed.

Lemma foreign_bound g n i : graph_wf g -> foreign g n i -> (i < vsize (edge_list g))%N.
Proof. intros Hwf (m & nd & _ & Hm & Hi). apply (gw_range g Hwf) in Hm. unfold in_range in Hi. lia. Qed.

Lemma foreign_own g n nd i :
  graph_wf g -> vget (node_list g) n = Some nd -> in_range nd i -> ~ foreign g n i.
Proof. intros Hwf Hn Hi (m & b & Hne & Hm & Hib). apply Hne. symmetry. by eapply (gw_disjoint g Hwf). Qed.

Lemma foreign_dummy g n i e :
  graph_wf g -> vget (edge_list g) i = Some e -> e_target e = UINT_MAX -> ~ foreign g n i.
Proof. intros Hwf He Ht (m & b & Hne & Hm & Hib). by eapply (gw_used g Hwf m b i e). Qed.
End slices.

Section spec.
  Context {D : Type} (junk : N -> Edge D).
  #[local] Set Default Proof Using "Type junk".
  Implicit Types (g : DynamicGraph D) (el : list (Edge D)) (nd : Node).

Lemma vsize_resize el n : (vsize el <= n)%N -> (n < 4294967296)%N -> vsize (resize_edges junk el n) = n.
Proof.
  intros Hn Hb. unfold resize_edges. rewrite vsize_app. unfold vsize in *.
  rewrite length_take, length_fmap, length_irange by done. lia.
Qed.

Lemma vget_resize el n j : (vsize el <= n)%N -> (j < vsize el)%N ->
  vget (resize_edges junk el n) j = vget el j.
Proof.
  intros Hn Hj. unfold resize_edges. rewrite !vget_lookup. unfold vsize in *.
  rewrite lookup_app_l by (rewrite length_take; lia). by apply lookup_take_lt; lia.
Qed.

Lemma relocate_ok nd el :
  (firstEdge nd + edges nd <= vsize el)%N -> (vsize el + 2 * edges nd + 3 < 2147483648)%N ->
  exists el', relocate junk nd el = Some (MkNode (vsize el) (edges nd), el') /\
    (vsize el + edges nd < vsize el' <= vsize el + 2 * edges nd + 3)%N /\
    (forall i, (i < vsize el)%N -> ~ in_range nd i -> vget el' i = vget el i) /\
    (forall k, (k < edges nd)%N -> vget el' (vsize el + k) = vget el (firstEdge nd + k)).
Proof.
  intros Hr Hsz. destruct (grown_size_ok (edges nd)) as (s & Hs & Hlo & Hhi); [lia|].
  unfold relocate. rewrite Hs, u32_small by lia. cbn [mbind option_bind].
  pose proof (vsize_resize el (vsize el + s) ltac:(lia) ltac:(lia)) as Hsz0.
  destruct (move_edges_ok (N.to_nat (edges nd)) (firstEdge nd) (vsize el) (edges nd) 0
    (resize_edges junk el (vsize el + s))) as (el1 & -> & Hsz1 & Hk1 & Hm1); [lia..|].
  cbn [mbind option_bind]. rewrite uadd_small by lia.
  destruct (make_dummies_ok (N.to_nat s) (vsize el) s (edges nd + 1) el1)
    as (el2 & -> & Hsz2 & Hk2); [lia..|].
  cbn [mbind option_bind]. exists el2. split; [done|]. split; [lia|]. split.
  - intros i Hi Hnr. unfold in_range in Hnr. rewrite Hk2, Hk1 by lia. apply vget_resize; lia.
  - intros k Hk. rewrite Hk2, Hm1 by lia. apply vget_resize; lia.
Qed.

Lemma slice_snoc el nd x :
  (firstEdge nd + edges nd < vsize el)%N -> vget el (firstEdge nd + edges nd) = Some x ->
  slice el (set_edges (edges nd + 1) nd) = slice el nd ++ [x].
Proof.
  intros Hlt Hx. apply list_eq_vget. intros k. rewrite vget_snoc, !vget_slice, vsize_slice by lia.
  cbn [edges firstEdge set_edges]. repeat case_decide; try lia; try done. by subst k.
Qed.

Lemma shift_left_ok nd el :
  (firstEdge nd + edges nd <= vsize el)%N -> (0 < firstEdge nd)%N -> (vsize el < 2147483648)%N ->
  exists el', shift_left nd el = Some (MkNode (firstEdge nd - 1) (edges nd), el') /\
    vsize el' = vsize el /\ (forall i, i <> (firstEdge nd - 1)%N -> vget el' i = vget el i) /\
    slice el' (MkNode (firstEdge nd - 1) (edges nd)) ≡ₚ slice el nd.
Proof.
  intros Hr Hf Hsz. unfold shift_left. rewrite usub_small by lia.
  cbn [firstEdge edges set_firstEdge]. rewrite uadd_small by lia.
  destruct (vget_lt el (firstEdge nd - 1 + edges nd)) as [x Hx]; [lia|]. rewrite Hx.
  cbn [mbind option_bind]. rewrite vset_lt by lia. cbn [mbind option_bind].
  eexists. split; [done|]. split; [by rewrite vsize_insert|]. split.
  { intros i Hi. rewrite vget_insert, decide_False by lia. done. }
  destruct (decide (edges nd = 0%N)) as [E|E]; [unfold slice; cbn [edges]; by rewrite E|].
  set (nd1 := MkNode (firstEdge nd) (edges nd - 1)).
  assert (nd = set_edges (edges nd1 + 1) nd1) as Hnd.
  { destruct nd as [f k]. unfold nd1, set_edges. simpl in *. f_equal. lia. }
  assert (slice el nd = slice el nd1 ++ [x]) as ->.
  { rewrite <- (slice_snoc el nd1 x); [by f_equal|unfold nd1; simpl; lia|].
    unfold nd1. simpl. rewrite <- Hx. f_equal. lia. }
  rewrite <- Permutation_cons_append. perm_eq. apply list_eq_vget. intros k.
  rewrite vget_slice. cbn [firstEdge edges].
  assert (vget (x :: slice el nd1) k = if decide (k = 0%N) then Some x else vget (slice el nd1) (k - 1)) as ->.
  { rewrite !vget_lookup. case_decide as Ek; [by rewrite Ek|].
    rewrite lookup_cons_ne_0 by lia. f_equal. lia. }
  rewrite vget_slice, vget_insert. unfold nd1. cbn [firstEdge edges].
  repeat case_decide; try lia; try done. f_equal. lia.
Qed.

(** The slot the new edge goes to, with the node's other edges in place. *)
Lemma make_room_ok g from nd :
  graph_wf g -> vget (node_list g) from = Some nd ->
  (vsize (edge_list g) + 2 * edges nd + 3 < 2147483648)%N ->
  exists nd' el', make_room junk nd (edge_list g) = Some (nd', el') /\
    edges nd' = edges nd /\
    (vsize (edge_list g) <= vsize el' <= vsize (edge_list g) + 2 * edges nd + 3)%N /\
    (firstEdge nd' + edges nd' < vsize el')%N /\
    (forall i, foreign g from i -> vget el' i = vget (edge_list g) i) /\
    (forall i, in_range (set_edges (edges nd' + 1) nd') i -> ~ foreign g from i) /\
    slice el' nd' ≡ₚ slice (edge_list g) nd.
Proof.
  intros Hwf Hnd Hsz. pose proof (gw_range g Hwf _ _ Hnd) as Hr.
  pose proof (gw_bound g Hwf) as Hb. unfold make_room. rewrite uadd_small by lia.
  assert (forall i, in_range nd i -> ~ foreign g from i) as Hown by (intros; by eapply foreign_own).
  assert ((if (vsize (edge_list g) <=? edges nd + firstEdge nd)%N then Some true
    else d ← isDummy (edges nd + firstEdge nd) (edge_list g); Some (negb d)) = Some false /\
      (firstEdge nd + edges nd < vsize (edge_list g))%N /\
      ~ foreign g from (firstEdge nd + edges nd) \/
    (if (vsize (edge_list g) <=? edges nd + firstEdge nd)%N then Some true
      else d ← isDummy (edges nd + firstEdge nd) (edge_list g); Some (negb d)) = Some true)
    as [(-> & Hlt & Hfree)| ->].
  { case_ltb; [by right|]. unfold isDummy.
    destruct (vget_lt (edge_list g) (edges nd + firstEdge nd)) as [x Hx]; [lia|]. rewrite Hx.
    cbn [mbind option_bind]. case_ltb; [left|by right]. split; [done|]. split; [lia|].
    rewrite N.add_comm in Hx. by eapply foreign_dummy. }
  { cbn [mbind option_bind]. exists nd, (edge_list g). split_and!; try done; try lia.
    intros i. unfold in_range. cbn [set_edges firstEdge edges]. intros Hi.
    destruct (decide (i = (firstEdge nd + edges nd)%N)) as [->|]; [done|].
    apply Hown. unfold in_range. lia. }
  cbn [mbind option_bind].
  assert ((if negb (firstEdge nd =? 0)%N then isDummy (usub (firstEdge nd) 1) (edge_list g)
      else Some false) = Some false \/
    (if negb (firstEdge nd =? 0)%N then isDummy (usub (firstEdge nd) 1) (edge_list g)
      else Some false) = Some true /\ (0 < firstEdge nd)%N /\ ~ foreign g from (firstEdge nd - 1)) as Hleft.
  { destruct (N.eqb_spec (firstEdge nd) 0) as [E|E]; cbn [negb]; [by left|].
    rewrite usub_small by lia. unfold isDummy.
    destruct (decide (firstEdge nd - 1 < vsize (edge_list g))%N) as [Hl|Hl]; [|lia].
    destruct (vget_lt (edge_list g) _ Hl) as [x Hx]. rewrite Hx. cbn [mbind option_bind].
    case_ltb; [right|by left]. split; [done|]. split; [lia|]. by eapply foreign_dummy. }
  destruct Hleft as [-> | (-> & Hpos & Hfree)]; cbn [mbind option_bind].
  - destruct (relocate_ok nd (edge_list g)) as (el' & Hrun & Hsz' & Hkeep & Hmoved); [done..|].
    exists (MkNode (vsize (edge_list g)) (edges nd)), el'. cbn [firstEdge edges].
    split_and!; try done; try lia.
    + intros i Hi. apply Hkeep; [by eapply foreign_bound|]. intros Hir. by apply (Hown i).
    + intros i Hi Hfo. apply (foreign_bound g from i Hwf) in Hfo. unfold in_range in Hi.
      simpl in Hi. lia.
    + perm_eq. apply list_eq_vget. intros k. rewrite !vget_slice. cbn [firstEdge edges].
      case_decide; [|done]. by apply Hmoved.
  - destruct (shift_left_ok nd (edge_list g)) as (el' & Hrun & Hsz' & Hkeep & Hperm); [done..|].
    exists (MkNode (firstEdge nd - 1) (edges nd)), el'. cbn [firstEdge edges].
    split_and!; try done; try lia.
    + intros i Hi. apply Hkeep. by intros ->.
    + intros i Hi. destruct (decide (i = (firstEdge nd - 1)%N)) as [->|]; [done|].
      apply Hown. unfold in_range in *. simpl in Hi. lia.
Qed.

Lemma insert_edge_ok g from to data :
  graph_wf g -> (from < vsize (node_list g))%N -> to <> UINT_MAX ->
  (vsize (edge_list g) + 2 * vsize (adj g from) + 3 < 2147483648)%N ->
  exists e g', InsertEdge junk from to data g = Some (e, g') /\ graph_wf g' /\
    vsize (node_list g') = vsize (node_list g) /\ number_of_nodes g' = number_of_nodes g /\
    number_of_edges g' = uadd (number_of_edges g) 1 /\
    (vsize (edge_list g') <= vsize (edge_list g) + 2 * vsize (adj g from) + 3)%N /\
    adj g' from ≡ₚ MkEdge to data :: adj g from /\
    (forall m, m <> from -> adj g' m = adj g m) /\ EndEdges from g' = Some e.
Proof.
  intros Hwf Hfrom Hto. destruct (vget_lt (node_list g) from Hfrom) as [nd Hnd].
  assert (adj g from = slice (edge_list g) nd) as Hadj by (unfold adj; by rewrite Hnd).
  pose proof (gw_range g Hwf _ _ Hnd) as Hr. rewrite Hadj, vsize_slice by done. intros Hsz.
  destruct (make_room_ok g from nd Hwf Hnd Hsz) as (nd' & el' & Hmr & He & Hsz' & Hroom & Hkeep & Hown & Hperm).
  unfold InsertEdge. rewrite Hnd. cbn [mbind option_bind]. rewrite Hmr. cbn [mbind option_bind].
  rewrite (uadd_small (firstEdge nd') (edges nd')) by lia. rewrite vset_lt by lia. cbn [mbind option_bind].
  rewrite (uadd_small (edges nd') 1) by lia. rewrite vset_lt by done. cbn [mbind option_bind].
  set (nd2 := set_edges (edges nd' + 1) nd') in *.
  set (el2 := <[N.to_nat (firstEdge nd' + edges nd') := MkEdge to data]> el').
  assert (slice el2 nd' = slice el' nd') as Hsl.
  { apply list_eq_vget. intros k. rewrite !vget_slice. case_decide; [|done]. unfold el2.
    rewrite vget_insert, decide_False by lia. done. }
  assert (slice el2 nd2 ≡ₚ MkEdge to data :: adj g from) as Hadj2.
  { unfold nd2. rewrite (slice_snoc el2 nd' (MkEdge to data)).
    - rewrite Hsl, Hperm, Hadj. by rewrite <- Permutation_cons_append.
    - unfold el2. rewrite vsize_insert. lia.
    - unfold el2. rewrite vget_insert, decide_True by lia. done. }
  destruct (update_node g from nd2 (uadd (number_of_edges g) 1) (number_of_nodes g) el2)
    as (Hwf' & Hadj' & Hoth); [done..| | | |done| |].
  - unfold el2. rewrite vsize_insert. lia.
  - unfold el2, nd2. rewrite vsize_insert. simpl. lia.
  - intros i Hi. unfold el2. rewrite vget_insert, decide_False; [by apply Hkeep|].
    intros [<- _]. apply (Hown (firstEdge nd' + edges nd')%N); [|done]. unfold in_range, nd2. simpl. lia.
  - intros i x Hi Hx. assert (x ∈ slice el2 nd2) as Hin.
    { apply list_elem_of_lookup. exists (N.to_nat (i - firstEdge nd2)). rewrite <- vget_lookup, vget_slice.
      unfold in_range in Hi. rewrite decide_True by lia. rewrite <- Hx. f_equal. lia. }
    rewrite Hadj2, Hadj in Hin. apply elem_of_cons in Hin as [->|Hin]; [done|].
    apply list_elem_of_lookup in Hin as [k Hk]. rewrite <- (Nat2N.id k), <- vget_lookup, vget_slice in Hk.
    case_decide as Hkk; [|done]. eapply (gw_used g Hwf from nd); [done| |done]. unfold in_range. lia.
  - eexists _, _. split; [done|]. split; [exact Hwf'|]. cbn [node_list number_of_nodes number_of_edges edge_list].
    split_and!; try done.
    + by rewrite vsize_insert.
    + unfold el2. rewrite vsize_insert. lia.
    + rewrite Hadj'. by rewrite Hadj2, Hadj.
    + unfold EndEdges. cbn [node_list]. rewrite vget_insert, decide_True by done. done.
Qed.
End spec.

(** ** Deleting edges *)

Section deletion.
  Context {D : Type}.
  Implicit Types (g : DynamicGraph D) (el : list (Edge D)) (nd : Node).

Lemma swap_remove {A} (l : list A) k x y :
  l !! k = Some y -> last l = Some x -> l ≡ₚ y :: take (length l - 1) (<[k := x]> l).
Proof.
  intros Hk Hl. apply last_Some in Hl as [l' ->]. rewrite length_app. simpl.
  replace (length l' + 1 - 1)%nat with (length l') by lia.
  destruct (decide (k < length l')%nat) as [Hlt|Hge].
  - rewrite insert_app_l, take_app_le, take_ge by (rewrite ?length_insert; lia).
    rewrite lookup_app_l in Hk by done. rewrite <- Permutation_cons_append.
    rewrite <- (take_drop_middle l' k y) at 1 by done. rewrite insert_take_drop by done.
    rewrite <- !Permutation_middle. apply Permutation_swap.
  - apply lookup_lt_Some in Hk as Hlt. rewrite length_app in Hlt. simpl in Hlt.
    assert (k = length l') as -> by lia.
    rewrite lookup_app_r, Nat.sub_diag in Hk by lia. simpl in Hk. injection Hk as ->.
    rewrite insert_app_r_alt, Nat.sub_diag by lia. simpl.
    rewrite take_app_le, take_ge by lia. by rewrite <- Permutation_cons_append.
Qed.

(** One deletion: the last edge of the range replaces the edge at [i]. *)
Lemma swap_out el f n i :
  (0 < n)%N -> (f <= i < f + n)%N -> (f + n <= vsize el)%N ->
  exists y x, vget el i = Some y /\ vget el (f + n - 1) = Some x /\
    let el' := alter (set_target UINT_MAX) (N.to_nat (f + n - 1)) (<[N.to_nat i := x]> el) in
    slice el (MkNode f n) ≡ₚ y :: slice el' (MkNode f (n - 1)) /\
    vsize el' = vsize el /\
    (forall j, (j < i)%N \/ (f + n <= j)%N -> vget el' j = vget el j).
Proof.
  intros Hn Hi Hr. destruct (vget_lt el i) as [y Hy]; [lia|].
  destruct (vget_lt el (f + n - 1)) as [x Hx]; [lia|]. exists y, x. split; [done|]. split; [done|].
  cbn zeta. split; [|split].
  - assert (slice el (MkNode f n) !! N.to_nat (i - f) = Some y) as Hk.
    { rewrite <- vget_lookup, vget_slice. cbn [firstEdge edges]. rewrite decide_True by lia.
      rewrite <- Hy. f_equal. lia. }
    assert (length (slice el (MkNode f n)) = N.to_nat n) as Hlen.
    { pose proof (vsize_slice el (MkNode f n) Hr) as E. unfold vsize in E. simpl in E. lia. }
    rewrite (swap_remove _ _ x y Hk) at 1.
    2:{ rewrite last_lookup, Hlen. replace (pred (N.to_nat n)) with (N.to_nat (n - 1)) by lia.
        rewrite <- vget_lookup, vget_slice. cbn [firstEdge edges]. rewrite decide_True by lia.
        rewrite <- Hx. f_equal. lia. }
    perm_eq. f_equal. apply list_eq_vget. intros k. rewrite vget_slice. cbn [firstEdge edges].
    rewrite Hlen. rewrite vget_lookup. case_decide as Hkn.
    + rewrite lookup_take_lt, <- vget_lookup, vget_insert, vget_slice by lia. cbn [firstEdge edges].
      rewrite (vsize_slice el (MkNode f n)) by done. cbn [edges].
      rewrite vget_alter, vget_insert. rewrite (decide_False (P := (f + n - 1)%N = _)) by lia.
      repeat case_decide; try lia; done.
    + apply lookup_take_ge. lia.
  - by rewrite vsize_alter, vsize_insert.
  - intros j Hj. rewrite vget_alter, vget_insert, !decide_False by lia. done.
Qed.

(** Shrinking the range of a node to a sublist of its edges. *)
Lemma shrink_node g n nd k el' ne removed :
  graph_wf g -> vget (node_list g) n = Some nd -> (k <= edges nd)%N ->
  vsize el' = vsize (edge_list g) ->
  (forall j, ~ in_range nd j -> vget el' j = vget (edge_list g) j) ->
  slice (edge_list g) nd ≡ₚ removed ++ slice el' (set_edges k nd) ->
  let g' := MkDynamicGraph (number_of_nodes g) ne (<[N.to_nat n := set_edges k nd]> (node_list g)) el' in
  graph_wf g' /\ adj g n ≡ₚ removed ++ adj g' n /\ forall m, m <> n -> adj g' m = adj g m.
Proof.
  intros Hwf Hnd Hk Hsz Hkeep Hperm g'. pose proof (gw_range g Hwf _ _ Hnd) as Hr.
  destruct (update_node g n (set_edges k nd) ne (number_of_nodes g) el') as (Hwf' & Hadj & Hoth);
    [done|by eapply vget_Some_lt|pose proof (gw_bound g Hwf); lia|simpl; lia| | | |].
  - intros i Hi. apply Hkeep. intros Hin. by eapply (foreign_own g n nd).
  - intros i Hi. eapply foreign_own; [done..|]. unfold in_range in *. simpl in Hi. lia.
  - intros i e Hi He. assert (e ∈ slice (edge_list g) nd) as Hin.
    { rewrite Hperm. apply elem_of_app. right. apply list_elem_of_lookup.
      exists (N.to_nat (i - firstEdge nd)). rewrite <- vget_lookup, vget_slice. unfold in_range in Hi.
      simpl in *. rewrite decide_True by lia. rewrite <- He. f_equal. lia. }
    apply list_elem_of_lookup in Hin as [j Hj]. rewrite <- (Nat2N.id j), <- vget_lookup, vget_slice in Hj.
    case_decide; [|done]. eapply (gw_used g Hwf n nd); [done| |done]. unfold in_range. lia.
  - split; [done|]. split; [|done]. unfold g'. rewrite Hadj. unfold adj. by rewrite Hnd.
Qed.

Lemma delete_edge_ok g source nd e :
  graph_wf g -> vget (node_list g) source = Some nd -> in_range nd e ->
  exists x g', vget (edge_list g) e = Some x /\ DeleteEdge source e g = Some g' /\ graph_wf g' /\
    number_of_edges g' = usub (number_of_edges g) 1 /\
    vsize (node_list g') = vsize (node_list g) /\ vsize (edge_list g') = vsize (edge_list g) /\
    adj g source ≡ₚ x :: adj g' source /\ forall m, m <> source -> adj g' m = adj g m.
Proof.
  intros Hwf Hnd He. pose proof (gw_range g Hwf _ _ Hnd) as Hr. pose proof (gw_bound g Hwf) as Hb.
  unfold in_range in He.
  destruct (swap_out (edge_list g) (firstEdge nd) (edges nd) e) as (y & x & Hy & Hx & Hperm & Hsz & Hkeep);
    [lia..|].
  unfold DeleteEdge. rewrite Hnd. cbn [mbind option_bind]. rewrite (usub_small (edges nd) 1) by lia.
  rewrite vset_lt by (by eapply vget_Some_lt). cbn [mbind option_bind].
  cbn [firstEdge edges set_edges]. rewrite uadd_small by lia.
  replace (firstEdge nd + (edges nd - 1))%N with (firstEdge nd + edges nd - 1)%N by lia.
  rewrite Hx. cbn [mbind option_bind]. rewrite vset_lt by lia. cbn [mbind option_bind].
  rewrite makeDummy_ok by (rewrite vsize_insert; lia). cbn [mbind option_bind].
  destruct (shrink_node g source nd (edges nd - 1) _ (usub (number_of_edges g) 1) [y] Hwf Hnd ltac:(lia) Hsz)
    as (Hwf' & Hadj & Hoth).
  - intros j Hj. unfold in_range in Hj. rewrite vget_alter, vget_insert, !decide_False by lia. done.
  - unfold set_edges. simpl. rewrite <- Hperm. by destruct nd.
  - exists y. eexists. do 2 (split; [done|]). split; [exact Hwf'|].
    cbn [number_of_edges node_list edge_list]. rewrite vsize_insert. done.
Qed.

Lemma of_int_small z : (0 <= z < 2147483648)%Z -> of_int z = Z.to_N z.
Proof. intros ?. unfold of_int. by rewrite Z.mod_small by lia. Qed.

(** The inner loop of [DeleteEdgesTo], run when the edge at [i] leads to
    [target]: it drops edges to [target] until the one at [i] does not. *)
Lemma delete_run_ok fuel f n i target : forall el d,
  (f <= i < f + n - d)%N -> (f + n <= vsize el)%N -> (vsize el < 2147483648)%N ->
  (N.to_nat (n - d) <= fuel)%nat ->
  (exists y, vget el i = Some y /\ e_target y = target) ->
  exists el' d' removed,
    delete_run fuel i (f + n) target el (Z.of_N d) = Some (el', Z.of_N d') /\
    vsize el' = vsize el /\ (d < d' <= n)%N /\ vsize removed = (d' - d)%N /\
    Forall (fun e => e_target e = target) removed /\
    slice el (MkNode f (n - d)) ≡ₚ removed ++ slice el' (MkNode f (n - d')) /\
    (forall j, (j < i)%N \/ (f + n <= j)%N -> vget el' j = vget el j) /\
    ((i < f + n - d')%N -> exists y, vget el' i = Some y /\ e_target y <> target).
Proof.
  induction fuel as [|fuel IH]; intros el d Hi Hr Hsz Hf (y & Hy & Hty); [lia|].
  cbn [delete_run]. unfold iadd, i32, in_i32.
  assert ((INT_MIN <=? Z.of_N d + 1) = true)%Z as -> by (unfold_ints; lia).
  assert ((Z.of_N d + 1 <=? INT_MAX) = true)%Z as -> by (unfold_ints; lia).
  cbn [andb mbind option_bind]. rewrite of_int_small, usub_small by lia.
  replace (f + n - Z.to_N (Z.of_N d + 1))%N with (f + (n - d) - 1)%N by lia.
  destruct (swap_out el f (n - d) i) as (y' & x & Hy' & Hx & Hperm & Hsz' & Hkeep); [lia..|].
  rewrite Hy in Hy'. injection Hy' as <-.
  rewrite Hx. cbn [mbind option_bind]. rewrite vset_lt by lia. cbn [mbind option_bind].
  rewrite makeDummy_ok by (rewrite vsize_insert; lia). cbn [mbind option_bind].
  set (el2 := alter _ _ _) in *. replace (n - d - 1)%N with (n - (d + 1))%N in Hperm by lia.
  assert (forall j, (j < i)%N \/ (f + n <= j)%N -> vget el2 j = vget el j) as Hkeep2.
  { intros j Hj. destruct (decide (j < i)%N); [apply Hkeep; lia|].
    unfold el2. rewrite vget_alter, vget_insert, !decide_False by lia. done. }
  replace (Z.of_N d + 1)%Z with (Z.of_N (d + 1)) by lia.
  assert (((i < f + n - (d + 1))%N -> exists z, vget el2 i = Some z /\ e_target z <> target) ->
    exists el' d' removed, Some (el2, Z.of_N (d + 1)) = Some (el', Z.of_N d') /\
    vsize el' = vsize el /\ (d < d' <= n)%N /\ vsize removed = (d' - d)%N /\
    Forall (fun e => e_target e = target) removed /\
    slice el (MkNode f (n - d)) ≡ₚ removed ++ slice el' (MkNode f (n - d')) /\
    (forall j, (j < i)%N \/ (f + n <= j)%N -> vget el' j = vget el j) /\
    ((i < f + n - d')%N -> exists y, vget el' i = Some y /\ e_target y <> target)) as Hstop.
  { intros Hend. exists el2, (d + 1)%N, [y]. split_and!; try done; try lia.
    - unfold vsize. simpl. lia.
    - by apply Forall_singleton. }
  case_ltb; [|apply Hstop; lia].
  destruct (vget_lt el2 i) as [z Hz]; [lia|]. rewrite Hz. cbn [mbind option_bind].
  case_ltb; [|apply Hstop; eauto].
  destruct (IH el2 (d + 1)%N) as (el' & d' & removed & Hrun & Hsz3 & Hd & Hrem & Hall & Hp & Hk & Hend);
    [lia|lia|lia|lia|eauto|].
  exists el', d', (y :: removed). split_and!; try done; try lia.
  - unfold vsize in *. simpl. lia.
  - by apply Forall_cons.
  - by rewrite Hperm, Hp.
  - intros j Hj. rewrite Hk by done. by apply Hkeep2.
Qed.

Lemma slice_Forall (P : Edge D -> Prop) el f n :
  (forall j, (f <= j < f + n)%N -> exists y, vget el j = Some y /\ P y) ->
  Forall P (slice el (MkNode f n)).
Proof.
  intros Hj. apply Forall_lookup. intros k e Hk. rewrite <- (Nat2N.id k), <- vget_lookup, vget_slice in Hk.
  cbn [firstEdge edges] in Hk. case_decide; [|done].
  destruct (Hj (f + N.of_nat k)%N) as (y & Hy & HP); [lia|]. congruence.
Qed.

Lemma delete_loop_ok fuel f n target : forall i el d,
  (f <= i)%N -> (d <= n)%N -> (f + n <= vsize el)%N -> (vsize el < 2147483648)%N ->
  (N.to_nat (f + n - i) < fuel)%nat ->
  (forall j, (f <= j < i)%N -> (j < f + n - d)%N -> exists y, vget el j = Some y /\ e_target y <> target) ->
  exists el' d' removed,
    delete_loop fuel i (f + n) target el (Z.of_N d) = Some (el', Z.of_N d') /\
    vsize el' = vsize el /\ (d <= d' <= n)%N /\ vsize removed = (d' - d)%N /\
    Forall (fun e => e_target e = target) removed /\
    slice el (MkNode f (n - d)) ≡ₚ removed ++ slice el' (MkNode f (n - d')) /\
    (forall j, (j < f)%N \/ (f + n <= j)%N -> vget el' j = vget el j) /\
    Forall (fun e => e_target e <> target) (slice el' (MkNode f (n - d'))).
Proof.
  induction fuel as [|fuel IH]; intros i el d Hi Hd Hr Hsz Hf Hpre; [lia|].
  cbn [delete_loop]. rewrite of_int_small, N2Z.id, usub_small by lia. case_ltb.
  2:{ exists el, d, []. split_and!; try done; try lia.
      - unfold vsize. simpl. lia.
      - apply slice_Forall. intros j Hj. apply Hpre; lia. }
  destruct (vget_lt el i) as [x Hx]; [lia|]. rewrite Hx. cbn [mbind option_bind].
  rewrite (uadd_small i 1) by lia. case_ltb.
  - destruct (delete_run_ok (S (length el)) f n i target el d)
      as (el1 & d1 & rem1 & -> & Hsz1 & Hd1 & Hr1 & Ha1 & Hp1 & Hk1 & He1); [lia|lia|lia| |eauto|].
    { unfold vsize in *. lia. }
    cbn [mbind option_bind].
    destruct (IH (i + 1)%N el1 d1) as (el2 & d2 & rem2 & -> & Hsz2 & Hd2 & Hr2 & Ha2 & Hp2 & Hk2 & Hend);
      [lia|lia|lia|lia|lia| |].
    { intros j Hj1 Hj2. destruct (decide (j = i)) as [->|]; [apply He1; lia|].
      rewrite Hk1 by lia. apply Hpre; lia. }
    exists el2, d2, (rem1 ++ rem2). split_and!; try done; try lia.
    + rewrite vsize_app. lia.
    + by apply Forall_app.
    + by rewrite Hp1, Hp2, app_assoc.
    + intros j Hj. rewrite Hk2 by done. apply Hk1. lia.
  - cbn [mbind option_bind].
    destruct (IH (i + 1)%N el d) as (el2 & d2 & rem2 & -> & Hsz2 & Hd2 & Hr2 & Ha2 & Hp2 & Hk2 & Hend);
      [lia|lia|lia|lia|lia| |].
    { intros j Hj1 Hj2. destruct (decide (j = i)) as [->|]; [eauto|]. apply Hpre; lia. }
    exists el2, d2, rem2. split_and!; try done; lia.
Qed.

Lemma filter_perm (P : Edge D -> Prop) `{forall x, Decision (P x)} l removed kept :
  l ≡ₚ removed ++ kept -> Forall (fun e => ~ P e) removed -> Forall P kept -> kept ≡ₚ filter P l.
Proof.
  intros Hp Hr Hk. rewrite Hp, filter_app.
  assert (filter P removed = []) as ->.
  { clear -Hr. induction Hr as [|x r Hx Hr IH]; [done|]. by rewrite filter_cons_False. }
  assert (filter P kept = kept) as ->; [|done].
  clear -Hk. induction Hk as [|x r Hx Hr IH]; [done|]. rewrite filter_cons_True by done. by rewrite IH.
Qed.

Lemma delete_edges_to_ok g source target :
  graph_wf g -> (source < vsize (node_list g))%N ->
  exists d g', DeleteEdgesTo source target g = Some (Z.of_N d, g') /\ graph_wf g' /\
    vsize (node_list g') = vsize (node_list g) /\ vsize (edge_list g') = vsize (edge_list g) /\
    number_of_edges g' = usub (number_of_edges g) d /\
    (d + vsize (adj g' source) = vsize (adj g source))%N /\
    adj g' source ≡ₚ filter (fun e => e_target e <> target) (adj g source) /\
    forall m, m <> source -> adj g' m = adj g m.
Proof.
  intros Hwf Hs. destruct (vget_lt (node_list g) source Hs) as [nd Hnd].
  pose proof (gw_range g Hwf _ _ Hnd) as Hr. pose proof (gw_bound g Hwf) as Hb.
  unfold DeleteEdgesTo, BeginEdges, EndEdges. rewrite Hnd. cbn [mbind option_bind].
  rewrite uadd_small by lia.
  destruct (delete_loop_ok (S (length (edge_list g))) (firstEdge nd) (edges nd) target (firstEdge nd)
    (edge_list g) 0) as (el' & d & removed & Hrun & Hsz & Hd & Hrem & Hall & Hperm & Hkeep & Hend);
    [lia|lia|lia|lia|unfold vsize in *; lia|lia|].
  change (Z.of_N 0) with 0%Z in Hrun. rewrite Hrun. cbn [mbind option_bind].
  rewrite vupd_lt by done. cbn [mbind option_bind]. rewrite <- (insert_alter _ _ _ nd) by done.
  rewrite of_int_small, N2Z.id by lia. cbn beta. rewrite (usub_small (edges nd) d) by lia.
  destruct (shrink_node g source nd (edges nd - d) el' (usub (number_of_edges g) d) removed)
    as (Hwf' & Hadj & Hoth); [done|done|lia|done| | |].
  - intros j Hj. unfold in_range in Hj. apply Hkeep. lia.
  - replace (edges nd - 0)%N with (edges nd) in Hperm by lia. unfold set_edges. rewrite <- Hperm. by destruct nd.
  - exists d. eexists. split; [done|]. split; [exact Hwf'|].
    cbn [node_list edge_list number_of_edges]. split; [by rewrite vsize_insert|]. split; [done|].
    split; [done|]. assert (vsize removed = d) as Hrd by lia. split; [|split].
    + rewrite Hadj at 1. rewrite vsize_app. lia.
    + apply (filter_perm _ _ removed); [done| |].
      * eapply Forall_impl; [exact Hall|]. intros e He Hne. done.
      * unfold adj. cbn [node_list edge_list].
        rewrite vget_insert, decide_True by done. exact Hend.
    + done.
Qed.
End deletion.

(** ** Looking up an edge *)

Section lookup.
  Context {D : Type}.
  Implicit Types (g : DynamicGraph D) (el : list (Edge D)) (nd : Node).

Lemma find_loop_ok fuel to n : forall a el,
  (N.to_nat (n - a) <= fuel)%nat -> (n <= vsize el)%N -> (n < 4294967296)%N ->
  exists r, find_loop (irange a n) to el = Some r /\
    match r with
    | Some i => (a <= i < n)%N /\ (exists e, vget el i = Some e /\ e_target e = to) /\
        forall j e, (a <= j < i)%N -> vget el j = Some e -> e_target e <> to
    | None => forall j e, (a <= j < n)%N -> vget el j = Some e -> e_target e <> to
    end.
Proof.
  induction fuel as [|fuel IH]; intros a el Hf Hn Hb.
  { rewrite irange_nil by lia. exists None. split; [done|]. lia. }
  destruct (decide (a < n)%N) as [Ha|Ha].
  2:{ rewrite irange_nil by lia. exists None. split; [done|]. lia. }
  rewrite irange_cons by lia. cbn [find_loop]. destruct (vget_lt el a) as [x Hx]; [lia|]. rewrite Hx.
  cbn [mbind option_bind]. case_ltb.
  - exists (Some a). split; [done|]. split_and!; [lia|lia|eauto|]. lia.
  - destruct (IH (a + 1)%N el) as (r & -> & Hr); [lia..|]. exists r. split; [done|].
    assert (forall j e, (a <= j)%N -> ((a + 1 <= j)%N -> vget el j = Some e -> e_target e <> to) ->
      vget el j = Some e -> e_target e <> to) as Hj.
    { intros j e Hle Hstep He. destruct (decide (j = a)) as [->|]; [congruence|].
      apply Hstep; [lia|done]. }
    destruct r as [i|].
    + destruct Hr as (Hi & Hex & Hfirst). split_and!; [lia|lia|done|].
      intros j e Hji He. apply (Hj j e); [lia| |done]. intros ??. eapply Hfirst; [|done]. lia.
    + intros j e Hji He. apply (Hj j e); [lia| |done]. intros ??. eapply Hr; [|done]. lia.
Qed.

Lemma find_edge_ok g from to nd :
  graph_wf g -> vget (node_list g) from = Some nd ->
  exists i, FindEdge from to g = Some i /\
    ((in_range nd i /\ (exists e, vget (edge_list g) i = Some e /\ e_target e = to) /\
      forall j e, in_range nd j -> (j < i)%N -> vget (edge_list g) j = Some e -> e_target e <> to) \/
     (EndEdges from g = Some i /\ Forall (fun e => e_target e <> to) (adj g from))).
Proof.
  intros Hwf Hnd. pose proof (gw_range g Hwf _ _ Hnd) as Hr. pose proof (gw_bound g Hwf) as Hb.
  unfold FindEdge, GetAdjacentEdgeRange, BeginEdges, EndEdges, adj. rewrite Hnd.
  cbn [mbind option_bind]. rewrite uadd_small by lia.
  destruct (find_loop_ok (N.to_nat (edges nd)) to (firstEdge nd + edges nd) (firstEdge nd) (edge_list g))
    as (r & -> & Hfound); [lia..|].
  cbn [mbind option_bind]. destruct r as [i|].
  - exists i. split; [done|]. left. unfold in_range. destruct Hfound as (Hi & He & Hfirst).
    split_and!; [lia|lia|done|]. intros j e Hj Hji. apply Hfirst. lia.
  - eexists. split; [done|]. right. split; [done|]. destruct nd as [f k]. apply slice_Forall.
    intros j Hj. simpl in *. destruct (vget_lt (edge_list g) j) as [y Hy]; [lia|]. eauto.
Qed.

(** The range of a node, with the edges its slots hold. *)
Lemma adj_range g n :
  graph_wf g -> (n < vsize (node_list g))%N ->
  exists r, GetAdjacentEdgeRange n g = Some r /\
    Forall2 (fun i e => vget (edge_list g) i = Some e) r (adj g n).
Proof.
  intros Hwf Hn. destruct (vget_lt (node_list g) n Hn) as [nd Hnd].
  pose proof (gw_range g Hwf _ _ Hnd) as Hr. pose proof (gw_bound g Hwf) as Hb.
  unfold GetAdjacentEdgeRange, BeginEdges, EndEdges, adj. rewrite Hnd. cbn [mbind option_bind].
  rewrite uadd_small by lia. eexists. split; [done|].
  apply Forall2_same_length_lookup_2.
  - rewrite length_irange by lia. pose proof (vsize_slice (edge_list g) nd Hr) as E. unfold vsize in E. lia.
  - intros k i e Hi He. rewrite irange_lookup in Hi by lia. case_decide; [|done]. injection Hi as <-.
    rewrite <- (Nat2N.id k), <- vget_lookup, vget_slice in He. case_decide; [|done]. done.
Qed.

(** Assigning the data of an edge of [n]. *)
Lemma assign_edge_data_ok g n nd i e f :
  graph_wf g -> vget (node_list g) n = Some nd -> in_range nd i -> vget (edge_list g) i = Some e ->
  exists g', AssignEdgeData i f g = Some g' /\ graph_wf g' /\
    node_list g' = node_list g /\ number_of_nodes g' = number_of_nodes g /\
    vsize (edge_list g') = vsize (edge_list g) /\
    (exists l1 l2, adj g n = l1 ++ e :: l2 /\ adj g' n = l1 ++ MkEdge (e_target e) (f (e_data e)) :: l2) /\
    forall m, m <> n -> adj g' m = adj g m.
Proof.
  intros Hwf Hnd Hi He. unfold AssignEdgeData. rewrite vupd_lt by (by eapply vget_Some_lt).
  cbn [mbind option_bind]. eexists. split; [done|]. unfold set_edge_list.
  set (el := alter _ _ _).
  assert (forall j, vget el j = if decide (i = j) then Some (MkEdge (e_target e) (f (e_data e)))
    else vget (edge_list g) j) as Hget.
  { intros j. unfold el. rewrite vget_alter. case_decide as E; [|done]. rewrite <- E, He. done. }
  assert (vsize el = vsize (edge_list g)) as Hsz by (unfold el; by rewrite vsize_alter).
  split; [|split_and!; [done|done|done| |]].
  - destruct Hwf as [Hb Hr Hd Hu]. constructor; cbn [edge_list node_list]; rewrite ?Hsz; try done.
    intros m a j x Ha Hj. rewrite Hget. case_decide as E; [|by apply (Hu m a)].
    intros [= <-]. simpl. by apply (Hu n nd i).
  - unfold adj. cbn [node_list edge_list]. rewrite Hnd. unfold in_range in Hi.
    set (k := (i - firstEdge nd)%N).
    assert (slice (edge_list g) nd !! N.to_nat k = Some e) as Hk.
    { rewrite <- vget_lookup, vget_slice, decide_True by (unfold k; lia). rewrite <- He. f_equal. unfold k. lia. }
    exists (take (N.to_nat k) (slice (edge_list g) nd)), (drop (S (N.to_nat k)) (slice (edge_list g) nd)).
    split; [by rewrite take_drop_middle|].
    apply lookup_lt_Some in Hk as Hlt. rewrite <- insert_take_drop by done.
    apply list_eq_vget. intros j. rewrite vget_insert, !vget_slice, Hget.
    pose proof (gw_range g Hwf _ _ Hnd). rewrite vsize_slice by done. unfold k.
    repeat case_decide; try lia; try done.
  - intros m Hne. unfold adj. cbn [node_list edge_list]. destruct (vget (node_list g) m) as [b|] eqn:Hm; [|done].
    apply list_eq_vget. intros j. rewrite !vget_slice. case_decide; [|done]. rewrite Hget.
    rewrite decide_False; [done|]. intros Hij. apply Hne.
    apply (gw_disjoint g Hwf m n b nd i); [done|done| |done]. unfold in_range. lia.
Qed.
End lookup.

(** ** Building a graph from sorted edges *)

Section construction.
  Context {D : Type}.
  Implicit Types (graph : list (InputEdge D)).

Definition to_edge (e : InputEdge D) : Edge D := MkEdge (ie_target e) (ie_data e).

Abbreviation source_sorted := (StronglySorted (fun a b : InputEdge D => (ie_source a <= ie_source b)%N)).

(** The edges of the nodes below [n] come first. *)
Definition before (n : N) graph : list (InputEdge D) := filter (fun e => ie_source e < n)%N graph.

Definition pos (n : N) graph : N := vsize (before n graph).

Lemma filter_below_nil n (e : InputEdge D) graph :
  (n <= ie_source e)%N -> Forall (fun b => ie_source e <= ie_source b)%N graph ->
  filter (fun e => ie_source e < n)%N graph = [].
Proof.
  intros He. induction 1 as [|x graph Hx Hall IH]; [done|]. by rewrite filter_cons_False by lia.
Qed.

Lemma before_prefix n graph :
  source_sorted graph -> graph = before n graph ++ filter (fun e => n <= ie_source e)%N graph.
Proof.
  unfold before. induction 1 as [|e graph Hs IH Hall]; [done|].
  destruct (decide (ie_source e < n)%N) as [Hlt|Hge].
  - rewrite filter_cons_True by done. rewrite filter_cons_False by lia. simpl. by rewrite <- IH.
  - rewrite (filter_cons_False _ e graph) by lia. rewrite filter_cons_True by lia.
    pose proof (filter_below_nil n e graph ltac:(lia) Hall) as Hnil. rewrite Hnil in IH |- *. simpl in *. by rewrite <- IH.
Qed.

Lemma pos_spec n graph i e :
  source_sorted graph -> vget graph i = Some e -> (ie_source e < n <-> i < pos n graph)%N.
Proof.
  intros Hs He. rewrite (before_prefix n graph Hs) in He. rewrite vget_app in He. unfold pos.
  case_decide as Hd.
  - split; [done|]. intros _. rewrite vget_lookup in He.
    apply list_elem_of_lookup_2, list_elem_of_filter in He. tauto.
  - split; [|lia]. intros Hlt. rewrite vget_lookup in He.
    apply list_elem_of_lookup_2, list_elem_of_filter in He as [? _]. lia.
Qed.

Lemma pos_le n graph : (pos n graph <= vsize graph)%N.
Proof. unfold pos, before, vsize. pose proof (length_filter (fun e => ie_source e < n)%N graph). lia. Qed.

Lemma skip_source_ok fuel graph n : forall i,
  source_sorted graph -> (vsize graph < 2147483648)%N ->
  (pos n graph <= i <= pos (n + 1) graph)%N -> (N.to_nat (pos (n + 1) graph - i) < fuel)%nat ->
  skip_source fuel graph n i = Some (pos (n + 1) graph).
Proof.
  induction fuel as [|fuel IH]; intros i Hs Hb Hi Hf; [lia|].
  cbn [skip_source]. rewrite u32_small by lia. pose proof (pos_le (n + 1) graph) as Hle.
  case_ltb; [|f_equal; lia].
  destruct (vget_lt graph i) as [e He]; [done|]. rewrite He. cbn [mbind option_bind].
  pose proof (pos_spec n graph i e Hs He) as H1. pose proof (pos_spec (n + 1) graph i e Hs He) as H2.
  case_ltb.
  - rewrite uadd_small by lia. apply IH; [done..|lia|lia].
  - f_equal. lia.
Qed.

Lemma pos_mono n m graph : (n <= m)%N -> (pos n graph <= pos m graph)%N.
Proof.
  intros Hnm. unfold pos, before, vsize. induction graph as [|e graph IH]; [done|].
  rewrite !filter_cons. repeat case_decide; simpl; lia.
Qed.

Lemma pos_0 graph : pos 0 graph = 0%N.
Proof.
  unfold pos, before. induction graph as [|e graph IH]; [done|].
  rewrite filter_cons_False by lia. done.
Qed.

Lemma pos_all n graph : Forall (fun e => ie_source e < n)%N graph -> pos n graph = vsize graph.
Proof.
  unfold pos, before. induction 1 as [|e graph He Hf IH]; [done|].
  rewrite filter_cons_True by done. unfold vsize in *. simpl. lia.
Qed.

Lemma count_edges_ok fuel graph nodes : forall n nl,
  source_sorted graph -> (vsize graph < 2147483648)%N -> (nodes < 4294967295)%N ->
  (N.to_nat (nodes - n) <= fuel)%nat -> (n <= nodes < vsize nl)%N ->
  exists nl', count_edges (irange n nodes) graph nl (pos n graph) (pos n graph) =
      Some (nl', pos nodes graph) /\
    vsize nl' = vsize nl /\
    forall m, vget nl' m = if decide (n <= m < nodes)%N
      then Some (MkNode (pos m graph) (pos (m + 1) graph - pos m graph)) else vget nl m.
Proof.
  induction fuel as [|fuel IH]; intros n nl Hs Hb Hnb Hf Hn.
  { assert (n = nodes) as -> by lia. rewrite irange_nil by lia. exists nl. split_and!; [done..|].
    intros m. rewrite decide_False by lia. done. }
  destruct (decide (n = nodes)) as [->|Hne].
  { rewrite irange_nil by lia. exists nl. split_and!; [done..|].
    intros m. rewrite decide_False by lia. done. }
  rewrite irange_cons by lia. cbn [count_edges].
  pose proof (pos_mono n (n + 1) graph ltac:(lia)) as Hmono. pose proof (pos_le (n + 1) graph) as Hle.
  rewrite (skip_source_ok _ graph n) by (done || unfold vsize in *; lia). cbn [mbind option_bind].
  rewrite usub_small by lia. rewrite vset_lt by lia. cbn [mbind option_bind].
  rewrite uadd_small by lia.
  replace (pos n graph + (pos (n + 1) graph - pos n graph))%N with (pos (n + 1) graph) by lia.
  destruct (IH (n + 1)%N (<[N.to_nat n := MkNode (pos n graph) (pos (n + 1) graph - pos n graph)]> nl))
    as (nl' & -> & Hsz & Hget); rewrite ?vsize_insert; [done|done|done|lia|lia|].
  rewrite vsize_insert in Hsz. exists nl'. split_and!; [done..|]. intros m. rewrite Hget, vget_insert.
  repeat case_decide; try lia; try done. assert (m = n) as -> by lia. done.
Qed.

Lemma copy_range_ok fuel graph n : forall i el,
  (N.to_nat (n - i) <= fuel)%nat -> (n <= vsize graph)%N -> (n <= vsize el)%N -> (vsize graph < 2147483648)%N ->
  exists el', copy_range (irange i n) graph el i = Some (el', N.max i n) /\ vsize el' = vsize el /\
    forall j, vget el' j = if decide (i <= j < n)%N then to_edge <$> vget graph j else vget el j.
Proof.
  induction fuel as [|fuel IH]; intros i el Hf Hg He Hb.
  { rewrite irange_nil by lia. exists el. cbn [copy_range]. split_and!; [do 2 f_equal; lia|done|].
    intros j. by rewrite decide_False by lia. }
  destruct (decide (i < n)%N) as [Hi|Hi].
  2:{ rewrite irange_nil by lia. exists el. cbn [copy_range]. split_and!; [do 2 f_equal; lia|done|].
      intros j. by rewrite decide_False by lia. }
  rewrite irange_cons by lia. cbn [copy_range]. destruct (vget_lt graph i) as [e Hge]; [lia|].
  rewrite Hge. cbn [mbind option_bind]. rewrite vset_lt by lia. cbn [mbind option_bind].
  rewrite uadd_small by lia.
  destruct (IH (i + 1)%N (<[N.to_nat i := MkEdge (ie_target e) (ie_data e)]> el)) as (el' & -> & Hsz & Hget);
    rewrite ?vsize_insert; [lia..|].
  rewrite vsize_insert in Hsz. exists el'. split_and!; [do 2 f_equal; lia|done|].
  intros j. rewrite Hget, vget_insert. repeat case_decide; try lia; try done.
  assert (j = i) as -> by lia. by rewrite Hge.
Qed.

Lemma copy_edges_ok fuel graph nodes nl : forall n el,
  (N.to_nat (nodes - n) <= fuel)%nat -> (n <= nodes < 4294967295)%N -> (vsize graph < 2147483648)%N ->
  (pos nodes graph <= vsize el)%N ->
  (forall m, (n <= m < nodes)%N -> vget nl m = Some (MkNode (pos m graph) (pos (m + 1) graph - pos m graph))) ->
  exists el', copy_edges (irange n nodes) graph nl el (pos n graph) = Some el' /\ vsize el' = vsize el /\
    forall j, vget el' j = if decide (pos n graph <= j < pos nodes graph)%N
      then to_edge <$> vget graph j else vget el j.
Proof.
  induction fuel as [|fuel IH]; intros n el Hf Hn Hb He Hnl.
  { assert (n = nodes) as -> by lia. rewrite irange_nil by lia. exists el. split_and!; [done..|].
    intros j. by rewrite decide_False by lia. }
  destruct (decide (n = nodes)) as [->|Hne].
  { rewrite irange_nil by lia. exists el. split_and!; [done..|]. intros j. by rewrite decide_False by lia. }
  rewrite irange_cons by lia. cbn [copy_edges]. rewrite Hnl by lia. cbn [mbind option_bind firstEdge edges].
  pose proof (pos_mono n (n + 1) graph ltac:(lia)) as Hm1.
  pose proof (pos_mono (n + 1) nodes graph ltac:(lia)) as Hm2. pose proof (pos_le nodes graph) as Hle.
  rewrite uadd_small by lia.
  replace (pos n graph + (pos (n + 1) graph - pos n graph))%N with (pos (n + 1) graph) by lia.
  destruct (copy_range_ok (N.to_nat (pos (n + 1) graph)) graph (pos (n + 1) graph) (pos n graph) el)
    as (el1 & -> & Hsz1 & Hget1); [lia..|].
  cbn [mbind option_bind]. rewrite N.max_r by lia.
  destruct (IH (n + 1)%N el1) as (el2 & -> & Hsz2 & Hget2); [lia|lia|lia|lia| |].
  { intros m Hm. apply Hnl. lia. }
  exists el2. split_and!; [done|congruence|]. intros j. rewrite Hget2, Hget1.
  repeat case_decide; try lia; done.
Qed.

(** The slice of a node is the sublist of its edges. *)
Lemma slice_sorted n graph :
  source_sorted graph ->
  slice (to_edge <$> graph) (MkNode (pos n graph) (pos (n + 1) graph - pos n graph)) =
    to_edge <$> filter (fun e => ie_source e = n) graph.
Proof.
  intros Hs. unfold slice. cbn [firstEdge edges].
  assert (before (n + 1) graph = before n graph ++ filter (fun e => ie_source e = n) graph) as Hb.
  { unfold before. clear -Hs. induction Hs as [|e graph Hs IH Hall]; [done|].
    destruct (decide (ie_source e < n)%N) as [Hlt|Hge].
    - rewrite !filter_cons_True by lia. rewrite filter_cons_False by lia. simpl. by rewrite IH.
    - rewrite (filter_cons_False (fun e => ie_source e < n)%N) by lia.
      pose proof (filter_below_nil n e graph ltac:(lia) Hall) as Hnil. rewrite Hnil in IH |- *. simpl in *.
      destruct (decide (ie_source e = n)%N).
      + rewrite !filter_cons_True by lia. by rewrite IH.
      + rewrite !filter_cons_False by lia. done. }
  pose proof (before_prefix (n + 1) graph Hs) as Hp. rewrite Hb in Hp. unfold pos. rewrite Hb.
  set (A := before n graph) in *. set (B := filter (fun e => ie_source e = n) graph) in *.
  set (C := filter (fun e => n + 1 <= ie_source e)%N graph) in *. clearbody A B C. clear Hb.
  rewrite Hp. rewrite !fmap_app, <- app_assoc. unfold vsize. rewrite Nat2N.id.
  rewrite <- (length_fmap to_edge A) at 2. rewrite drop_app_length.
  replace (N.to_nat _) with (length (to_edge <$> B)); [by rewrite take_app_length|].
  rewrite length_app, !length_fmap. lia.
Qed.

  Context (junk : N -> Edge D).
  #[local] Set Default Proof Using "Type junk".

Lemma from_ok nodes graph :
  source_sorted graph -> Forall (fun e => ie_source e < nodes /\ ie_target e <> UINT_MAX)%N graph ->
  (vsize graph < 2147483648)%N -> (nodes < 4294967295)%N ->
  exists g, DynamicGraph_from junk nodes graph = Some g /\ graph_wf g /\
    number_of_nodes g = nodes /\ number_of_edges g = vsize graph /\
    vsize (node_list g) = (nodes + 1)%N /\ vsize (edge_list g) = vsize graph /\
    (forall n, (n < nodes)%N -> adj g n = to_edge <$> filter (fun e => ie_source e = n) graph) /\
    (forall n, (nodes <= n)%N -> adj g n = []).
Proof.
  intros Hs Hall Hb Hn.
  assert (pos nodes graph = vsize graph) as Hpos.
  { apply pos_all. eapply Forall_impl; [exact Hall|]. simpl. tauto. }
  unfold DynamicGraph_from. rewrite uadd_small by lia.
  set (nl := replicate (N.to_nat (nodes + 1)) (MkNode 0 0)).
  assert (vsize nl = nodes + 1)%N as Hnl by (unfold nl, vsize; rewrite length_replicate; lia).
  destruct (count_edges_ok (N.to_nat nodes) graph nodes 0 nl) as (nl1 & Hrun & Hsz & Hget); [done|done|lia|lia|lia|].
  rewrite pos_0 in Hrun. rewrite Hrun. cbn [mbind option_bind].
  rewrite vupd_lt by lia. cbn [mbind option_bind].
  replace (vsize nl1 - 1)%N with nodes by lia.
  set (nl2 := alter _ _ nl1).
  assert (forall m, vget nl2 m = if decide (m < nodes)%N
    then Some (MkNode (pos m graph) (pos (m + 1) graph - pos m graph))
    else if decide (m = nodes) then Some (MkNode (vsize graph) 0) else None) as Hnl2.
  { intros m. unfold nl2. rewrite vget_alter, Hget. repeat case_decide; try lia; try done.
    - subst m. unfold nl. rewrite vget_lookup, lookup_replicate_2 by lia. simpl. by rewrite Hpos.
    - apply vget_None. lia. }
  pose proof (vsize_resize junk [] (pos nodes graph)) as Hrs. rewrite Hpos in *.
  destruct (copy_edges_ok (N.to_nat nodes) graph nodes nl2 0 (resize_edges junk [] (vsize graph)))
    as (el & Hcopy & Hsz2 & Hgel); [lia|lia|lia|rewrite Hrs; unfold vsize in *; simpl in *; lia| |].
  { intros m Hm. rewrite Hnl2, decide_True by lia. done. }
  rewrite pos_0 in Hcopy. rewrite Hcopy. cbn [mbind option_bind]. rewrite u32_small by lia.
  rewrite Hrs in Hsz2 by (unfold vsize in *; simpl in *; lia).
  assert (el = to_edge <$> graph) as ->.
  { apply list_eq_vget. intros j. rewrite Hgel, vget_fmap, pos_0, Hpos. case_decide as Hj; [done|].
    rewrite !vget_None; [done|lia|]. rewrite Hrs by (unfold vsize in *; simpl in *; lia). lia. }
  eexists. split; [done|]. cbn [number_of_nodes number_of_edges node_list edge_list].
  assert (vsize (to_edge <$> graph) = vsize graph) as Hvf by (unfold vsize; by rewrite length_fmap).
  split; [|split_and!; [done..| | | |]].
  - constructor; cbn [edge_list node_list].
    + lia.
    + intros n nd. rewrite Hnl2, Hvf. pose proof (pos_mono n (n + 1) graph ltac:(lia)).
      pose proof (pos_le (n + 1) graph).
      repeat case_decide; intros [= <-]; simpl; lia.
    + intros n m a b k. rewrite !Hnl2. unfold in_range.
      pose proof (pos_le (n + 1) graph). pose proof (pos_le (m + 1) graph).
      destruct (decide (n < m)%N) as [Hlt|]; [pose proof (pos_mono (n + 1) m graph ltac:(lia))|].
      2: destruct (decide (m < n)%N) as [Hlt|]; [pose proof (pos_mono (m + 1) n graph ltac:(lia))|lia].
      all: repeat case_decide; intros [= <-] [= <-]; simpl; lia.
    + intros n nd k e _ _. rewrite vget_fmap. destruct (vget graph k) as [x|] eqn:E; [|done].
      intros [= <-]. rewrite vget_lookup in E. eapply Forall_lookup_1 in Hall; [|done]. simpl. tauto.
  - unfold nl2. rewrite vsize_alter. lia.
  - done.
  - intros n Hlt. unfold adj. cbn [node_list edge_list]. rewrite Hnl2, decide_True by done.
    by apply slice_sorted.
  - intros n Hle. unfold adj. cbn [node_list edge_list]. rewrite Hnl2, decide_False by lia.
    case_decide; [|done]. unfold slice. done.
Qed.
End construction.

(** ** The number of nodes *)

Lemma DeleteEdgesTo_nodes {D} source target d (g g' : DynamicGraph D) :
  DeleteEdgesTo source target g = Some (d, g') -> number_of_nodes g' = number_of_nodes g.
Proof. unfold DeleteEdgesTo. intros Hrun. by repeat (case_match || inv_bind Hrun); simplify_eq/=. Qed.

Lemma InsertEdge_nodes {D} junk from to data e (g g' : DynamicGraph D) :
  InsertEdge junk from to data g = Some (e, g') -> number_of_nodes g' = number_of_nodes g.
Proof. unfold InsertEdge. intros Hrun. by repeat (case_match || inv_bind Hrun); simplify_eq/=. Qed.

Lemma AssignEdgeData_nodes {D} e f (g g' : DynamicGraph D) :
  AssignEdgeData e f g = Some g' -> number_of_nodes g' = number_of_nodes g.
Proof. unfold AssignEdgeData. intros Hrun. by inv_bind Hrun; simplify_eq/=. Qed.

(** ** The graph as arc multisets *)

Inductive graph_op (D : Type) :=
  | GInsert (from to : N) (data : D)
  | GDeleteTo (source target : N)
  | GDelete (source k : N)
  | GFind (from to : N)
  | GOutDegree (n : N).
Arguments GInsert {D}.
Arguments GDeleteTo {D}.
Arguments GDelete {D}.
Arguments GFind {D}.
Arguments GOutDegree {D}.

Inductive graph_result := GUnit | GInt (z : Z) | GNum (n : N) | GFound (e : option N).

(** One call, as its callers use the graph: [GDelete] removes the [k]-th edge
    of the node's range, and a search has failed when it returns [EndEdges]. *)
Definition graph_step {D} (junk : N -> Edge D) (g : DynamicGraph D) (o : graph_op D)
    : option (graph_result * DynamicGraph D) :=
  match o with
  | GInsert from to d => '(_, g') ← InsertEdge junk from to d g; Some (GUnit, g')
  | GDeleteTo s t => '(z, g') ← DeleteEdgesTo s t g; Some (GInt z, g')
  | GDelete s k => b ← BeginEdges s g; g' ← DeleteEdge s (uadd b k) g; Some (GUnit, g')
  | GFind from to =>
      i ← FindEdge from to g; e ← EndEdges from g;
      Some (GFound (if (i =? e)%N then None else Some i), g)
  | GOutDegree n => k ← GetOutDegree n g; Some (GNum k, g)
  end.

(** The specification on a list of arc multisets, one per node. *)
Inductive arcs_step {D} : list (list (Edge D)) -> graph_op D -> graph_result ->
    list (list (Edge D)) -> Prop :=
  | as_insert A from to d : arcs_step A (GInsert from to d) GUnit (alter (cons (MkEdge to d)) (N.to_nat from) A)
  | as_delete_to A s t l :
      vget A s = Some l ->
      arcs_step A (GDeleteTo s t) (GInt (Z.of_nat (length (filter (fun e => e_target e = t) l))))
        (<[N.to_nat s := filter (fun e => e_target e <> t) l]> A)
  | as_delete A s k l x l' :
      vget A s = Some l -> l ≡ₚ x :: l' -> arcs_step A (GDelete s k) GUnit (<[N.to_nat s := l']> A)
  | as_found A from to i l :
      vget A from = Some l -> Exists (fun e => e_target e = to) l -> arcs_step A (GFind from to) (GFound (Some i)) A
  | as_not_found A from to l :
      vget A from = Some l -> Forall (fun e => e_target e <> to) l -> arcs_step A (GFind from to) (GFound None) A
  | as_degree A n l : vget A n = Some l -> arcs_step A (GOutDegree n) (GNum (vsize l)) A.

(** The graph [g] stands for the multisets [A] of its first nodes. *)
Definition arcs_rep {D} (g : DynamicGraph D) (A : list (list (Edge D))) : Prop :=
  graph_wf g /\ (vsize A <= vsize (node_list g))%N /\ number_of_edges g = u32 (vsize (concat A)) /\
  forall n l, vget A n = Some l -> adj g n ≡ₚ l.

Definition graph_legal {D} (g : DynamicGraph D) (A : list (list (Edge D))) (o : graph_op D) : Prop :=
  match o with
  | GInsert from to _ =>
      (from < vsize A)%N /\ to <> UINT_MAX /\
      (vsize (edge_list g) + 2 * vsize (adj g from) + 3 < 2147483648)%N
  | GDelete s k => (s < vsize A /\ k < vsize (adj g s))%N
  | GDeleteTo s _ | GFind s _ | GOutDegree s => (s < vsize A)%N
  end.

Section simulation.
  Context {D : Type}.
  Implicit Types (g : DynamicGraph D) (A : list (list (Edge D))).

Lemma vsize_concat_insert A s l l' :
  vget A s = Some l -> (vsize (concat (<[N.to_nat s := l']> A)) + vsize l = vsize (concat A) + vsize l')%N.
Proof.
  intros Hl. rewrite vget_lookup in Hl. apply lookup_lt_Some in Hl as Hlt.
  rewrite insert_take_drop by done. rewrite <- (take_drop_middle A (N.to_nat s) l) at 3 by done.
  rewrite !concat_app. cbn [concat]. rewrite !vsize_app. lia.
Qed.

Lemma uadd_u32 x y : uadd (u32 x) y = u32 (x + y).
Proof. unfold uadd, u32. by rewrite N.Div0.add_mod_idemp_l. Qed.

Lemma usub_u32 x y : (y <= x)%N -> (y <= 4294967296)%N -> usub (u32 x) y = u32 (x - y).
Proof.
  intros ??. unfold usub, u32. replace (x mod 4294967296 + 4294967296 - y)%N
    with (x mod 4294967296 + (4294967296 - y))%N by lia.
  rewrite N.Div0.add_mod_idemp_l. replace (x + (4294967296 - y))%N with ((x - y) + 1 * 4294967296)%N by lia.
  apply N.Div0.mod_add.
Qed.

(** A representation after one node's multiset has changed. *)
Lemma arcs_rep_update g g' A s l l' :
  arcs_rep g A -> vget A s = Some l -> graph_wf g' -> vsize (node_list g') = vsize (node_list g) ->
  number_of_edges g' = u32 (vsize (concat A) + vsize l' - vsize l) ->
  adj g' s ≡ₚ l' -> (forall m, m <> s -> adj g' m = adj g m) ->
  arcs_rep g' (<[N.to_nat s := l']> A).
Proof.
  intros (Hwf & Hsz & Hne & Hadj) Hl Hwf' Hnl Hne' Hs Hoth.
  split_and!; [done|by rewrite vsize_insert, Hnl| |].
  - rewrite Hne'. pose proof (vsize_concat_insert A s l l' Hl). f_equal. lia.
  - intros n k. rewrite vget_insert. case_decide as Hd.
    + intros [= <-]. by destruct Hd as [<- _].
    + intros Hk. destruct (decide (n = s)) as [->|]; [|rewrite Hoth by done; by apply Hadj].
      destruct Hd. split; [done|]. by eapply vget_Some_lt.
Qed.

Lemma arcs_adj g A s : arcs_rep g A -> (s < vsize A)%N ->
  exists l nd, vget A s = Some l /\ vget (node_list g) s = Some nd /\ adj g s ≡ₚ l /\
    (vsize l <= vsize (concat A))%N /\ (vsize l < 2147483648)%N /\ edges nd = vsize l.
Proof.
  intros (Hwf & Hsz & Hne & Hadj) Hs. destruct (vget_lt A s Hs) as [l Hl].
  destruct (vget_lt (node_list g) s) as [nd Hnd]; [lia|]. exists l, nd.
  pose proof (gw_range g Hwf _ _ Hnd) as Hr. pose proof (gw_bound g Hwf) as Hb.
  assert (adj g s ≡ₚ l) as Hp by (by apply Hadj).
  assert (edges nd = vsize l) as He.
  { rewrite <- Hp. unfold adj. rewrite Hnd. by rewrite vsize_slice. }
  split_and!; [done|done|done| |lia|done].
  pose proof (vsize_concat_insert A s l [] Hl) as E. change (vsize []) with 0%N in E. lia.
Qed.

Lemma filter_count (P : Edge D -> Prop) `{forall x, Decision (P x)} l :
  (length (filter P l) + length (filter (fun x => ~ P x) l) = length l)%nat.
Proof.
  induction l as [|x l IH]; [done|]. rewrite !filter_cons.
  repeat case_decide; simpl; try done; lia.
Qed.

Lemma graph_step_ok (junk : N -> Edge D) g A o :
  arcs_rep g A -> graph_legal g A o ->
  exists r g' A', graph_step junk g o = Some (r, g') /\ arcs_step A o r A' /\ arcs_rep g' A'.
Proof.
  intros Hrep Hl. pose proof Hrep as (Hwf & Hsz & Hne & Hadj).
  destruct o as [from to d|s t|s k|from to|n]; cbn [graph_legal graph_step] in *.
  - destruct Hl as (Hfrom & Hto & Hroom).
    destruct (arcs_adj g A from Hrep Hfrom) as (l & nd & HA & Hnd & Hp & Hlc & Hlb & He).
    destruct (insert_edge_ok junk g from to d) as (e & g' & -> & Hwf' & Hnl & _ & Hne' & _ & Hadj' & Hoth & _);
      [done|lia|done|done|].
    cbn [mbind option_bind]. eexists GUnit, g', _. split; [done|]. split; [constructor|].
    rewrite <- (insert_alter _ _ _ l) by done. apply (arcs_rep_update g g' A from l); try done.
    + rewrite Hne', Hne, uadd_u32. f_equal. unfold vsize in *. simpl. lia.
    + by rewrite Hadj', Hp.
  - destruct (arcs_adj g A s Hrep Hl) as (l & nd & HA & Hnd & Hp & Hlc & Hlb & He).
    destruct (delete_edges_to_ok g s t) as (d & g' & -> & Hwf' & Hnl & _ & Hne' & Hd & Hadj' & Hoth);
      [done|lia|].
    cbn [mbind option_bind]. eexists _, g', _. split; [done|].
    assert (adj g' s ≡ₚ filter (fun e => e_target e <> t) l) as Hadj2 by (by rewrite Hadj', Hp).
    rewrite Hadj2, Hp in Hd. pose proof (filter_count (fun e => e_target e = t) l) as Hc.
    assert (Z.of_N d = Z.of_nat (length (filter (fun e => e_target e = t) l))) as ->
      by (unfold vsize in Hd; lia).
    split; [by constructor|]. apply (arcs_rep_update g g' A s l); try done.
    rewrite Hne', Hne. rewrite usub_u32 by lia. f_equal. lia.
  - destruct Hl as [Hs Hk]. destruct (arcs_adj g A s Hrep Hs) as (l & nd & HA & Hnd & Hp & Hlc & Hlb & He).
    rewrite Hp in Hk. pose proof (gw_range g Hwf _ _ Hnd) as Hr. pose proof (gw_bound g Hwf) as Hb.
    unfold BeginEdges. rewrite Hnd. cbn [mbind option_bind]. rewrite uadd_small by lia.
    destruct (delete_edge_ok g s nd (firstEdge nd + k)) as (x & g' & Hx & -> & Hwf' & Hne' & Hnl & _ & Hadj' & Hoth);
      [done|done|unfold in_range; lia|].
    cbn [mbind option_bind]. eexists GUnit, g', _. split; [done|].
    assert (l ≡ₚ x :: adj g' s) as Hlx by (by rewrite <- Hp).
    split; [by apply (as_delete A s k l x (adj g' s))|]. apply (arcs_rep_update g g' A s l); try done.
    rewrite Hne', Hne. rewrite usub_u32 by lia. rewrite Hlx in Hlc |- *. unfold vsize in *. simpl in *.
    f_equal. lia.
  - destruct (arcs_adj g A from Hrep Hl) as (l & nd & HA & Hnd & Hp & Hlc & Hlb & He).
    pose proof (gw_range g Hwf _ _ Hnd) as Hr. pose proof (gw_bound g Hwf) as Hb.
    destruct (find_edge_ok g from to nd Hwf Hnd) as (i & -> & [(Hi & (e & He1 & He2) & _)|[Hend Hall]]);
      cbn [mbind option_bind].
    + unfold EndEdges. rewrite Hnd. cbn [mbind option_bind]. rewrite uadd_small by lia.
      unfold in_range in Hi. destruct (N.eqb_spec i (firstEdge nd + edges nd)); [lia|].
      eexists _, g, A. split; [done|]. split; [|done]. apply (as_found A from to i l HA).
      rewrite <- Hp. apply Exists_exists. exists e. split; [|done].
      unfold adj. rewrite Hnd. apply list_elem_of_lookup. exists (N.to_nat (i - firstEdge nd)).
      rewrite <- vget_lookup, vget_slice, decide_True by lia. rewrite <- He1. f_equal. lia.
    + rewrite Hend. cbn [mbind option_bind]. rewrite N.eqb_refl. eexists _, g, A. split; [done|].
      split; [|done]. apply (as_not_found A from to l HA). by rewrite <- Hp.
  - destruct (arcs_adj g A n Hrep Hl) as (l & nd & HA & Hnd & Hp & Hlc & Hlb & He).
    unfold GetOutDegree. rewrite Hnd. cbn [mbind option_bind]. rewrite He.
    eexists _, g, A. split; [done|]. split; [by constructor|done].
Qed.
End simulation.

(** ** Properties *)


Definition sample_junk (_ : N) : Edge N := MkEdge 5 5%N.

Definition sample_edges : list (InputEdge N) := [MkInputEdge 0 1 7; MkInputEdge 1 0 8]%N.

Definition sample_graph : DynamicGraph N :=
  MkDynamicGraph 2 2 [MkNode 0 1; MkNode 1 1; MkNode 2 0] [MkEdge 1 7; MkEdge 0 8]%N.

Lemma sample_sorted : StronglySorted (fun a b : InputEdge N => (ie_source a <= ie_source b)%N) sample_edges.
Proof. repeat constructor. discriminate. Qed.

Lemma sample_targets : Forall (fun e => ie_source e < 2 /\ ie_target e <> UINT_MAX)%N sample_edges.
Proof. repeat constructor; done. Qed.

Lemma sample_graph_rep : arcs_rep sample_graph [[MkEdge 1 7]; [MkEdge 0 8]]%N.
Proof.
  destruct (from_ok sample_junk 2 sample_edges sample_sorted sample_targets)
    as (g & Hg & Hwf & _ & _ & _ & _ & Hadj & _); [done..|].
  vm_compute in Hg. injection Hg as <-. split_and!; [done|vm_compute; discriminate|done|].
  intros n l Hn. destruct (decide (n < 2)%N) as [Hlt|Hge].
  - unfold sample_graph. rewrite (Hadj n Hlt). destruct n as [|[]]; try lia; vm_compute in Hn; by injection Hn as <-.
  - rewrite vget_None in Hn; [done|]. unfold vsize. simpl. lia.
Qed.


(** The constructor from an edge list sorted by source builds a
    well-formed graph whose node [n] has exactly the input edges with source
    [n], in their order. *)
Theorem dynamic_graph_from_sorted {D} (junk : N -> Edge D) nodes (graph : list (InputEdge D)) :
  StronglySorted (fun a b => (ie_source a <= ie_source b)%N) graph ->
  Forall (fun e => ie_source e < nodes /\ ie_target e <> UINT_MAX)%N graph ->
  (vsize graph < 2147483648)%N -> (nodes < 4294967295)%N ->
  exists g, DynamicGraph_from junk nodes graph = Some g /\ graph_wf g /\
    GetNumberOfNodes g = nodes /\ GetNumberOfEdges g = vsize graph /\
    forall n, (n < nodes)%N -> adj g n = to_edge <$> filter (fun e => ie_source e = n) graph.
Proof.
  intros Hs Ha Hb Hn. destruct (from_ok junk nodes graph Hs Ha Hb Hn) as (g & Hg & Hwf & H1 & H2 & _ & _ & H3 & _).
  eauto 10.
Qed.

Lemma dynamic_graph_from_sorted_witness :
  exists g, DynamicGraph_from sample_junk 2 sample_edges = Some g /\ graph_wf g /\
    adj g 1 = [MkEdge 0 8]%N.
Proof.
  destruct (dynamic_graph_from_sorted sample_junk 2 sample_edges) as (g & Hg & Hwf & _ & _ & Hadj).
  - apply sample_sorted.
  - apply sample_targets.
  - reflexivity.
  - reflexivity.
  - exists g. split; [exact Hg|]. split; [exact Hwf|]. rewrite (Hadj 1%N); reflexivity.
Defined.
