(* ===== verification/Contractor.v ===== *)
(** * Contractor/Contractor.h: the definitions

    The contraction of the edge based graph: the witness search [Dijkstra],
    the (simulated) contraction of a node, the choice of independent nodes,
    and the rounds of [Run]. The heap is the [BinaryHeap] over any index
    storage, the graph is the [DynamicGraph]. *)

From Stdlib Require Import Floats.SpecFloat.
From S2P Require Import Prelude Types Edges Storage BinaryHeap DynamicGraph Float32.

(** ** Data *)

(** [originalEdges] is a field of 28 bits. *)
Record ContractorEdgeData := MkContractorEdgeData {
  ce_distance : N; ce_id : N; ce_originalEdges : N; ce_shortcut : bool;
  ce_forward : bool; ce_backward : bool; ce_is_original_via_node_ID : bool }.

Definition ContractorEdgeData_default : ContractorEdgeData :=
  MkContractorEdgeData 0 0 0 false false false false.

Definition ContractorEdgeData_make (distance original_edges id : N)
    (shortcut forward backward : bool) : ContractorEdgeData :=
  MkContractorEdgeData distance id (ubits 28 (N.min (2 ^ 28) original_edges)) shortcut
    forward backward false.

Record ContractorHeapData := MkContractorHeapData { hop : Z; hd_target : bool }.

Abbreviation ContractorGraph := (DynamicGraph ContractorEdgeData).
Abbreviation ContractorEdge := (InputEdge ContractorEdgeData).
Abbreviation ContractorHeap := (BinaryHeap ContractorHeapData).

(** [short] values. *)
Definition to_short (z : Z) : Z := sbits 16 z.

(** [const int path_distance = in_data.distance + out_data.distance]: an
    unsigned sum converted to [int]. *)
Definition path_distance (a b : N) : Z := to_int (uadd a b).

Record ContractionStats := MkContractionStats {
  edges_deleted_count : Z; edges_added_count : Z;
  original_edges_deleted_count : Z; original_edges_added_count : Z }.

Definition ContractionStats_default : ContractionStats := MkContractionStats 0 0 0 0.

(** ** The witness search *)

Section search.
  Context {St : Type} `{IndexStorage St}.
  Implicit Types (g : ContractorGraph) (h : ContractorHeap St).

(** One edge of the node that has just been settled. *)
Definition relax g (middleNode : N) (distance current_hop : Z) h (edge : N)
    : option (ContractorHeap St) :=
  data ← GetEdgeData edge g;
  if negb (ce_forward data) then Some h
  else
    to ← GetTarget edge g;
    if (middleNode =? to)%N then Some h
    else
      let to_distance := to_int (uadd (of_int distance) (ce_distance data)) in
      '(inserted, h1) ← WasInserted to h;
      if negb inserted then Insert to to_distance (MkContractorHeapData current_hop false) h1
      else
        '(key, h2) ← GetKey to h1;
        if (to_distance <? key)%Z then
          h3 ← DecreaseKey to to_distance h2;
          AssignData to (fun d => MkContractorHeapData current_hop (hd_target d)) h3
        else Some h2.

Fixpoint dijkstra_loop (fuel : nat) g (max_distance : Z) (number_of_targets : N) (maxNodes : Z)
    (middleNode : N) h (nodes : Z) (number_of_targets_found : N) : option (ContractorHeap St) :=
  match fuel with
  | O => None
  | S fuel' =>
      if Empty h then Some h
      else
        '(node, h1) ← DeleteMin h;
        '(distance, h2) ← GetKey node h1;
        '(data, h3) ← GetData node h2;
        let current_hop := to_short (hop data + 1) in
        nodes' ← iadd nodes 1;
        if (maxNodes <? nodes')%Z then Some h3
        else if (max_distance <? distance)%Z then Some h3
        else
          '(data', h4) ← GetData node h3;
          let found := if hd_target data' then uadd number_of_targets_found 1
                       else number_of_targets_found in
          if hd_target data' && (number_of_targets <=? found)%N then Some h4
          else
            r ← GetAdjacentEdgeRange node g;
            h5 ← fold_m (relax g middleNode distance current_hop) h4 r;
            dijkstra_loop fuel' g max_distance number_of_targets maxNodes middleNode h5 nodes' found
  end.

(** The loop settles at most [maxNodes] nodes. *)
Definition Dijkstra g (max_distance : Z) (number_of_targets : N) (maxNodes : Z) (middleNode : N) h
    : option (ContractorHeap St) :=
  dijkstra_loop (S (S (Z.to_nat maxNodes))) g max_distance number_of_targets maxNodes middleNode h 0 0.

(** ** Contracting a node *)

(** The loop that inserts the targets: the heap, [max_distance] and
    [number_of_targets]. *)
Definition insert_target g (in_data : ContractorEdgeData)
    (s : ContractorHeap St * Z * N) (out_edge : N) : option (ContractorHeap St * Z * N) :=
  let '(h, max_distance, number_of_targets) := s in
  out_data ← GetEdgeData out_edge g;
  if negb (ce_forward out_data) then Some s
  else
    target ← GetTarget out_edge g;
    let dist := path_distance (ce_distance in_data) (ce_distance out_data) in
    let max_distance' := Z.max max_distance dist in
    '(inserted, h1) ← WasInserted target h;
    if negb inserted then
      h2 ← Insert target INT_MAX (MkContractorHeapData 0 true) h1;
      Some (h2, max_distance', uadd number_of_targets 1)
    else Some (h1, max_distance', number_of_targets).

(** What a contraction works on: the heap of the thread, its inserted edges
    and, in the simulation, the statistics. *)
Record contract_state := MkContractState {
  cs_heap : ContractorHeap St; cs_inserted : list ContractorEdge; cs_stats : ContractionStats }.

Definition shortcut_edges (source target node : N) (dist : Z) (in_data out_data : ContractorEdgeData)
    : list ContractorEdge :=
  let orig := (ce_originalEdges out_data + ce_originalEdges in_data)%N in
  [ MkInputEdge source target (ContractorEdgeData_make (of_int dist) orig node true true false);
    MkInputEdge target source (ContractorEdgeData_make (of_int dist) orig node true false true) ].

(** The loop that compares the two-arc paths with the distances found. *)
Definition add_shortcut (RUNSIMULATION : bool) g (node source : N) (in_data : ContractorEdgeData)
    (s : contract_state) (out_edge : N) : option contract_state :=
  out_data ← GetEdgeData out_edge g;
  if negb (ce_forward out_data) then Some s
  else
    target ← GetTarget out_edge g;
    let dist := path_distance (ce_distance in_data) (ce_distance out_data) in
    '(distance, h1) ← GetKey target (cs_heap s);
    if (dist <? distance)%Z then
      if RUNSIMULATION then
        let st := cs_stats s in
        added ← iadd (edges_added_count st) 2;
        oadded ← iadd (original_edges_added_count st)
          (2 * Z.of_N (ce_originalEdges out_data + ce_originalEdges in_data))%Z;
        Some (MkContractState h1 (cs_inserted s)
          (MkContractionStats (edges_deleted_count st) added (original_edges_deleted_count st) oadded))
      else
        Some (MkContractState h1
          (cs_inserted s ++ shortcut_edges source target node dist in_data out_data) (cs_stats s))
    else Some (MkContractState h1 (cs_inserted s) (cs_stats s)).

Definition count_deleted (in_data : ContractorEdgeData) (st : ContractionStats) : option ContractionStats :=
  deleted ← iadd (edges_deleted_count st) 1;
  odeleted ← iadd (original_edges_deleted_count st) (Z.of_N (ce_originalEdges in_data));
  Some (MkContractionStats deleted (edges_added_count st) odeleted (original_edges_added_count st)).

(** The body of the loop over the incoming edges of [node]. *)
Definition contract_in_edge (RUNSIMULATION : bool) g (node : N) (s : contract_state) (in_edge : N)
    : option contract_state :=
  in_data ← GetEdgeData in_edge g;
  source ← GetTarget in_edge g;
  stats ← (if RUNSIMULATION then count_deleted in_data (cs_stats s) else Some (cs_stats s));
  if negb (ce_backward in_data) then Some (MkContractState (cs_heap s) (cs_inserted s) stats)
  else
    h1 ← Insert source 0 (MkContractorHeapData 0 false) (Clear (cs_heap s));
    r ← GetAdjacentEdgeRange node g;
    '(h2, max_distance, number_of_targets) ← fold_m (insert_target g in_data) (h1, 0%Z, 0%N) r;
    h3 ← Dijkstra g max_distance number_of_targets (if RUNSIMULATION then 1000 else 2000)%Z node h2;
    fold_m (add_shortcut RUNSIMULATION g node source in_data) (MkContractState h3 (cs_inserted s) stats) r.

(** The search for a later edge that [inserted_edges[i]] can be merged into. *)
Fixpoint find_mergeable (others : list N) (edge : ContractorEdge) (inserted : list ContractorEdge)
    : option (option N) :=
  match others with
  | [] => Some None
  | other :: others' =>
      o ← vget inserted other;
      if negb (ie_source o =? ie_source edge)%N then find_mergeable others' edge inserted
      else if negb (ie_target o =? ie_target edge)%N then find_mergeable others' edge inserted
      else if negb (ce_distance (ie_data o) =? ce_distance (ie_data edge))%N
      then find_mergeable others' edge inserted
      else if negb (Bool.eqb (ce_shortcut (ie_data o)) (ce_shortcut (ie_data edge)))
      then find_mergeable others' edge inserted
      else Some (Some other)
  end.

Definition or_flags (e o : ContractorEdge) : ContractorEdge :=
  let d := ie_data o in
  MkInputEdge (ie_source o) (ie_target o)
    (MkContractorEdgeData (ce_distance d) (ce_id d) (ce_originalEdges d) (ce_shortcut d)
      (ce_forward d || ce_forward (ie_data e)) (ce_backward d || ce_backward (ie_data e))
      (ce_is_original_via_node_ID d)).

(** One step of the loop that merges the edges inserted for this node: the
    vector and the write position. *)
Definition merge_step (iend : N) (s : list ContractorEdge * N) (i : N)
    : option (list ContractorEdge * N) :=
  let '(inserted, inserted_edges_size) := s in
  edge ← vget inserted i;
  found ← find_mergeable (irange (uadd i 1) iend) edge inserted;
  match found with
  | Some other => inserted' ← vupd inserted other (or_flags edge); Some (inserted', inserted_edges_size)
  | None =>
      inserted' ← vset inserted inserted_edges_size edge;
      Some (inserted', uadd inserted_edges_size 1)
  end.

Definition merge_inserted (first : N) (inserted : list ContractorEdge) : option (list ContractorEdge) :=
  let iend := vsize inserted in
  '(inserted', n) ← fold_m (merge_step iend) (inserted, first) (irange first iend);
  Some (take (N.to_nat n) inserted').

Definition ContractNode (RUNSIMULATION : bool) g (node : N) (s : contract_state)
    : option contract_state :=
  let inserted_edges_size := vsize (cs_inserted s) in
  r ← GetAdjacentEdgeRange node g;
  s' ← fold_m (contract_in_edge RUNSIMULATION g node) s r;
  if RUNSIMULATION then Some s'
  else
    inserted ← merge_inserted inserted_edges_size (cs_inserted s');
    Some (MkContractState (cs_heap s') inserted (cs_stats s')).

End search.
Arguments contract_state : clear implicits.

(** ** Node priorities *)

Definition imul (x y : Z) : option Z := i32 (x * y)%Z.

(** The formula of [EvaluateNodePriority]. *)
Definition priority_of (stats : ContractionStats) (depth : Z) : option float :=
  p ← imul (edges_deleted_count stats) (original_edges_deleted_count stats);
  if (0 =? p)%Z then Some (fmul (float_of_int 1) (float_of_int depth))
  else
    Some (fadd (fadd
      (fmul (float_of_int 2) (fdiv (float_of_int (edges_added_count stats))
                                   (float_of_int (edges_deleted_count stats))))
      (fmul (float_of_int 4) (fdiv (float_of_int (original_edges_added_count stats))
                                   (float_of_int (original_edges_deleted_count stats)))))
      (fmul (float_of_int 1) (float_of_int depth))).

Section priorities.
  Context {St : Type} `{IndexStorage St}.
  Implicit Types (g : ContractorGraph) (h : ContractorHeap St).

(** The priority, with the heap the simulated contraction leaves behind. *)
Definition EvaluateNodePriority g (depth : Z) (node : N) h : option (float * ContractorHeap St) :=
  s ← ContractNode true g node (MkContractState h [] ContractionStats_default);
  p ← priority_of (cs_stats s) depth;
  Some (p, cs_heap s).

(** ** Deleting a contracted node *)

(** The neighbours of a node, without duplicates. *)
Definition push_neighbour g (node : N) (neighbours : list N) (e : N) : option (list N) :=
  u ← GetTarget e g;
  Some (if negb (u =? node)%N then neighbours ++ [u] else neighbours).

Definition neighbours_of g (node : N) : option (list N) :=
  r ← GetAdjacentEdgeRange node g;
  l ← fold_m (push_neighbour g node) [] r;
  Some (unique (sort_ids l)).

Definition delete_step (node : N) g (u : N) : option ContractorGraph :=
  '(_, g') ← DeleteEdgesTo u node g; Some g'.

Definition DeleteIncomingEdges (node : N) g : option ContractorGraph :=
  l ← neighbours_of g node; fold_m (delete_step node) g l.

(** ** Updating the neighbours of a contracted node *)

Definition raise_depth g (node : N) (node_data : list Z) (e : N) : option (list Z) :=
  u ← GetTarget e g;
  if (u =? node)%N then Some node_data
  else
    d ← vget node_data node;
    d' ← iadd d 1;
    vupd node_data u (Z.max d').

Definition reevaluate g (node_data : list Z) (s : list float * ContractorHeap St) (u : N)
    : option (list float * ContractorHeap St) :=
  let '(priorities, h) := s in
  depth ← vget node_data u;
  '(p, h') ← EvaluateNodePriority g depth u h;
  priorities' ← vset priorities u p;
  Some (priorities', h').

Definition UpdateNodeNeighbours g (node : N) (priorities : list float) (node_data : list Z) h
    : option (list float * list Z * ContractorHeap St) :=
  r ← GetAdjacentEdgeRange node g;
  node_data' ← fold_m (raise_depth g node) node_data r;
  l ← neighbours_of g node;
  '(priorities', h') ← fold_m (reevaluate g node_data') (priorities, h) l;
  Some (priorities', node_data', h').

(** ** Independent nodes *)

Definition bias (fast_hash : XORFastHash) (a b : N) : option bool :=
  hasha ← XORFastHash_apply fast_hash a;
  hashb ← XORFastHash_apply fast_hash b;
  Some (if negb (hasha =? hashb)%N then (hasha <? hashb)%N else (a <? b)%N).

(** Does [target] keep [node] from being contracted in this round? *)
Definition beaten_by (fast_hash : XORFastHash) (priorities : list float) (priority : float)
    (node target : N) : option bool :=
  target_priority ← vget priorities target;
  if fltb target_priority priority then Some true
  else if fltb (SFabs (fsub priority target_priority)) float_epsilon then bias fast_hash node target
  else Some false.

(** The loop over the edges of [node]: [None] inside when it returns false. *)
Fixpoint scan_neighbours (fast_hash : XORFastHash) g (priorities : list float) (priority : float)
    (node : N) (edges : list N) (neighbours : list N) : option (option (list N)) :=
  match edges with
  | [] => Some (Some neighbours)
  | e :: edges' =>
      target ← GetTarget e g;
      if (node =? target)%N then scan_neighbours fast_hash g priorities priority node edges' neighbours
      else
        beaten ← beaten_by fast_hash priorities priority node target;
        if beaten : bool then Some None
        else scan_neighbours fast_hash g priorities priority node edges' (neighbours ++ [target])
  end.

(** The loop over the edges of a neighbour. *)
Fixpoint scan_second (fast_hash : XORFastHash) g (priorities : list float) (priority : float)
    (node : N) (edges : list N) : option bool :=
  match edges with
  | [] => Some true
  | e :: edges' =>
      target ← GetTarget e g;
      if (node =? target)%N then scan_second fast_hash g priorities priority node edges'
      else
        beaten ← beaten_by fast_hash priorities priority node target;
        if beaten : bool then Some false
        else scan_second fast_hash g priorities priority node edges'
  end.

Fixpoint scan_all_second (fast_hash : XORFastHash) g (priorities : list float) (priority : float)
    (node : N) (neighbours : list N) : option bool :=
  match neighbours with
  | [] => Some true
  | u :: neighbours' =>
      r ← GetAdjacentEdgeRange u g;
      ok ← scan_second fast_hash g priorities priority node r;
      if ok : bool then scan_all_second fast_hash g priorities priority node neighbours'
      else Some false
  end.

Definition IsNodeIndependent (fast_hash : XORFastHash) g (priorities : list float) (node : N)
    : option bool :=
  priority ← vget priorities node;
  r ← GetAdjacentEdgeRange node g;
  first ← scan_neighbours fast_hash g priorities priority node r [];
  match first with
  | None => Some false
  | Some neighbours => scan_all_second fast_hash g priorities priority node (unique (sort_ids neighbours))
  end.
End priorities.

(** ** Construction *)

Definition weight_of (e : EdgeBasedEdge) : N := of_int (Z.max (eb_weight e) 1).

(** The two directed copies of an input edge. *)
Definition input_pair (e : EdgeBasedEdge) : list ContractorEdge :=
  [ MkInputEdge (eb_source e) (eb_target e)
      (ContractorEdgeData_make (weight_of e) 1 (eb_edge_id e) false (eb_forward e) (eb_backward e));
    MkInputEdge (eb_target e) (eb_source e)
      (ContractorEdgeData_make (weight_of e) 1 (eb_edge_id e) false (eb_backward e) (eb_forward e)) ].

(** The loop over the parallel edges of one source and target: the position
    and the two distances. *)
Fixpoint scan_parallel (fuel : nat) (edges : list ContractorEdge) (source target i : N)
    (forward_distance reverse_distance : N) : option (N * N * N) :=
  match fuel with
  | O => None
  | S fuel' =>
      if (i <? vsize edges)%N then
        e ← vget edges i;
        if ((ie_source e =? source) && (ie_target e =? target))%N then
          let d := ie_data e in
          scan_parallel fuel' edges source target (uadd i 1)
            (if ce_forward d then N.min (ce_distance d) forward_distance else forward_distance)
            (if ce_backward d then N.min (ce_distance d) reverse_distance else reverse_distance)
        else Some (i, forward_distance, reverse_distance)
      else Some (i, forward_distance, reverse_distance)
  end.

(** The edges that replace a group of parallel edges. *)
Definition merged_edges (source target id forward_distance reverse_distance : N) : list ContractorEdge :=
  let forward_edge b := MkInputEdge source target
    (MkContractorEdgeData forward_distance id 1 false true b false) in
  let reverse_edge := MkInputEdge source target
    (MkContractorEdgeData reverse_distance id 1 false false true false) in
  if (forward_distance =? reverse_distance)%N then
    if negb (to_int forward_distance =? INT_MAX)%Z then [forward_edge true] else []
  else
    (if negb (to_int forward_distance =? INT_MAX)%Z then [forward_edge false] else []) ++
    (if negb (to_int reverse_distance =? INT_MAX)%Z then [reverse_edge] else []).

(** [edges[edge++] = x] for each [x]. *)
Fixpoint write_edges (out : list ContractorEdge) (edges : list ContractorEdge) (edge : N)
    : option (list ContractorEdge * N) :=
  match out with
  | [] => Some (edges, edge)
  | x :: out' => edges' ← vset edges edge x; write_edges out' edges' (uadd edge 1)
  end.

(** The loop that merges parallel edges in place. *)
Fixpoint merge_loop (fuel : nat) (edges : list ContractorEdge) (i edge : N)
    : option (list ContractorEdge * N) :=
  match fuel with
  | O => None
  | S fuel' =>
      if (i <? vsize edges)%N then
        e ← vget edges i;
        let source := ie_source e in
        let target := ie_target e in
        if (source =? target)%N then merge_loop fuel' edges (uadd i 1) edge
        else
          '(i', fd, rd) ← scan_parallel (S (length edges)) edges source target i
             (of_int INT_MAX) (of_int INT_MAX);
          '(edges', edge') ← write_edges (merged_edges source target (ce_id (ie_data e)) fd rd) edges edge;
          merge_loop fuel' edges' i' edge'
      else Some (edges, edge)
  end.

Section construction.
  (** [tbb::parallel_sort] and [std::sort] on edges: the order of edges with
      equal source and target is not specified. *)
  Context (sort_edges : list ContractorEdge -> list ContractorEdge).
  Context (junk : N -> Edge ContractorEdgeData).

Definition merge_input (input_edge_list : list EdgeBasedEdge) : option (list ContractorEdge) :=
  let edges := sort_edges (concat (input_pair <$> input_edge_list)) in
  '(edges', edge) ← merge_loop (S (length edges)) edges 0 0;
  Some (take (N.to_nat edge) edges').

(** The constructor, given the edges the deallocating iterator yields. *)
Definition Contractor_make (nodes : N) (input_edge_list : list EdgeBasedEdge) : option ContractorGraph :=
  edges ← merge_input input_edge_list; DynamicGraph_from junk nodes edges.

(** ** Run *)

(** [id] is a field of 31 bits. *)
Record RemainingNodeData := MkRemainingNodeData { rn_id : N; rn_is_independent : bool }.

  Context {St : Type} `{IndexStorage St}.

Record ThreadData := MkThreadData {
  td_heap : ContractorHeap St; td_inserted_edges : list ContractorEdge }.

(** The index table a fresh heap starts with, and the hash of the ties. *)
  Context (make_storage : N -> St) (fast_hash : XORFastHash).

Record contractor := MkContractor {
  c_graph : ContractorGraph;
  c_remaining : list RemainingNodeData;
  c_priorities : list float;
  c_node_data : list Z;
  c_threads : list (N * ThreadData);
  c_thread_nodes : N;
  c_contracted : N;
  c_flushed : bool;
  c_orig_map : list N;
  c_external : list QueryEdge }.

(** Run a piece of work on the data of thread [t]: [getThreadData] creates
    the data of a thread at its first use. *)
Fixpoint on_thread {R : Type} (number_of_nodes t : N) (f : ThreadData -> option (ThreadData * R))
    (threads : list (N * ThreadData)) : option (list (N * ThreadData) * R) :=
  match threads with
  | [] =>
      '(d, r) ← f (MkThreadData (BinaryHeap_make (make_storage number_of_nodes)) []);
      Some ([(t, d)], r)
  | (t', d) :: threads' =>
      if (t =? t')%N then '(d', r) ← f d; Some ((t', d') :: threads', r)
      else '(threads'', r) ← on_thread number_of_nodes t f threads'; Some ((t', d) :: threads'', r)
  end.

(** Which thread handles which position of a parallel loop over
    [first, last), in the order of execution. *)
  Context (schedule : N -> N -> N -> list (N * N)).

Definition init_priority (g : ContractorGraph) (node_data : list Z) (number_of_nodes : N)
    (s : list float * list (N * ThreadData)) (tx : N * N) : option (list float * list (N * ThreadData)) :=
  let '(priorities, threads) := s in
  let '(t, x) := tx in
  depth ← vget node_data x;
  '(threads', p) ← on_thread number_of_nodes t
    (fun d => '(p, h) ← EvaluateNodePriority g depth x (td_heap d);
              Some (MkThreadData h (td_inserted_edges d), p)) threads;
  priorities' ← vset priorities x p;
  Some (priorities', threads').

Definition run_init (g : ContractorGraph) : option contractor :=
  let n := GetNumberOfNodes g in
  let node_data := replicate (N.to_nat n) 0%Z in
  '(priorities, threads) ← fold_m (init_priority g node_data n)
     (replicate (N.to_nat n) (S754_zero false), []) (schedule 0 0 n);
  Some (MkContractor g ((fun x => MkRemainingNodeData (ubits 31 x) false) <$> irange 0 n) priorities node_data
    threads n 0 false [] []).

(** The flags of the remaining nodes, from the graph and the priorities. *)
Definition mark_independent (g : ContractorGraph) (priorities : list float)
    (l : list RemainingNodeData) (i : N) : option (list RemainingNodeData) :=
  r ← vget l i;
  b ← IsNodeIndependent fast_hash g priorities (rn_id r);
  vset l i (MkRemainingNodeData (rn_id r) b).

(** [std::stable_partition]. *)
Definition stable_partition (l : list RemainingNodeData) : list RemainingNodeData :=
  filter (fun r => rn_is_independent r = false) l ++ filter (fun r => rn_is_independent r = true) l.

Definition contract_position (g : ContractorGraph) (nodes : N) (remaining : list RemainingNodeData)
    (threads : list (N * ThreadData)) (tx : N * N) : option (list (N * ThreadData)) :=
  let '(t, position) := tx in
  r ← vget remaining position;
  '(threads', _) ← on_thread nodes t
    (fun d => s ← ContractNode false g (rn_id r)
                    (MkContractState (td_heap d) (td_inserted_edges d) ContractionStats_default);
              Some (MkThreadData (cs_heap s) (cs_inserted s), tt)) threads;
  Some threads'.

Definition sort_thread (d : ThreadData) : ThreadData :=
  MkThreadData (td_heap d) (sort_edges (td_inserted_edges d)).

Definition delete_position (remaining : list RemainingNodeData) (g : ContractorGraph) (position : N)
    : option ContractorGraph :=
  r ← vget remaining position; DeleteIncomingEdges (rn_id r) g.

(** A new edge replaces a longer shortcut of the same directions, if that is
    the first edge to the target, and is inserted otherwise. *)
Definition insert_shortcut (g : ContractorGraph) (edge : ContractorEdge) : option ContractorGraph :=
  current ← FindEdge (ie_source edge) (ie_target edge) g;
  iend ← EndEdges (ie_source edge) g;
  let insert_it := '(_, g') ← InsertEdge junk (ie_source edge) (ie_target edge) (ie_data edge) g; Some g' in
  if (current <? iend)%N then
    current_data ← GetEdgeData current g;
    if ce_shortcut current_data
       && Bool.eqb (ce_forward (ie_data edge)) (ce_forward current_data)
       && Bool.eqb (ce_backward (ie_data edge)) (ce_backward current_data)
       && (ce_distance (ie_data edge) <? ce_distance current_data)%N
    then AssignEdgeData current (fun _ => ie_data edge) g
    else insert_it
  else insert_it.

Definition insert_thread (g : ContractorGraph) (d : ThreadData) : option ContractorGraph :=
  fold_m insert_shortcut g (td_inserted_edges d).

Definition update_position (remaining : list RemainingNodeData) (g : ContractorGraph) (nodes : N)
    (s : list float * list Z * list (N * ThreadData)) (tx : N * N)
    : option (list float * list Z * list (N * ThreadData)) :=
  let '(priorities, node_data, threads) := s in
  let '(t, position) := tx in
  r ← vget remaining position;
  '(threads', pd) ← on_thread nodes t
    (fun d => '(priorities', node_data', h) ←
                UpdateNodeNeighbours g (rn_id r) priorities node_data (td_heap d);
              Some (MkThreadData h (td_inserted_edges d), (priorities', node_data'))) threads;
  Some (pd.1, pd.2, threads').

(** The phases of a round that change the graph: the nodes from [first] on
    are contracted, deleted from their neighbours, and their shortcuts are
    inserted; the threads are left with their heaps. *)
Definition contract_phase (k : N) (g : ContractorGraph) (nodes : N) (remaining : list RemainingNodeData)
    (first : N) (threads : list (N * ThreadData)) : option (list (N * ThreadData)) :=
  fold_m (contract_position g nodes remaining) threads (schedule k first (vsize remaining)).

Definition delete_phase (g : ContractorGraph) (remaining : list RemainingNodeData) (first : N)
    : option ContractorGraph :=
  fold_m (delete_position remaining) g (irange first (vsize remaining)).

Definition insert_phase (g : ContractorGraph) (threads : list (N * ThreadData))
    : option ContractorGraph := fold_m insert_thread g (threads.*2).

(** A round up to its last phase: choose the independent nodes, contract them,
    delete them from their neighbours and insert the shortcuts. The result is
    the graph, the partitioned nodes, the number of those that remain, and the
    threads. *)
Definition round_graph (k : N) (c : contractor)
    : option (ContractorGraph * list RemainingNodeData * N * list (N * ThreadData)) :=
  let last_node := vsize (c_remaining c) in
  marked ← fold_m (mark_independent (c_graph c) (c_priorities c)) (c_remaining c) (irange 0 last_node);
  let remaining := stable_partition marked in
  let first := vsize (filter (fun r => rn_is_independent r = false) marked) in
  threads1 ← contract_phase (2 * k + 1) (c_graph c) (c_thread_nodes c) remaining first (c_threads c);
  let threads2 := prod_map id sort_thread <$> threads1 in
  g1 ← delete_phase (c_graph c) remaining first;
  g2 ← insert_phase g1 threads2;
  Some (g2, remaining, first, prod_map id (fun d => MkThreadData (td_heap d) []) <$> threads2).

(** One round: in its last phase the priorities of the neighbours of the
    contracted nodes are updated. *)
Definition round (k : N) (c : contractor) : option contractor :=
  let last_node := vsize (c_remaining c) in
  '(g2, remaining, first, threads3) ← round_graph k c;
  '(priorities, node_data, threads4) ←
    fold_m (update_position remaining g2 (c_thread_nodes c))
      (c_priorities c, c_node_data c, threads3) (schedule (2 * k + 2) first last_node);
  Some (MkContractor g2 (take (N.to_nat first) remaining) priorities node_data threads4
    (c_thread_nodes c) (uadd (c_contracted c) (usub last_node first))
    (c_flushed c) (c_orig_map c) (c_external c)).

(** ** The flush: renumbering the remaining nodes *)

(** [number_of_contracted_nodes > number_of_nodes * 0.65], the double nearest
    to 0.65 being 5854679515581645 * 2^-53. *)
Definition flush_due (contracted number_of_nodes : N) : bool :=
  (round53 (number_of_nodes * 5854679515581645) <? contracted * 2 ^ 53)%N.

(** The renumbering loop: [orig_node_id_to_new_id_map], its inverse, the new
    priorities and the remaining nodes. *)
Definition renumber (priorities : list float)
    (s : list N * list N * list float * list RemainingNodeData) (new_node_id : N)
    : option (list N * list N * list float * list RemainingNodeData) :=
  let '(orig_map, new_id_map, new_priority, remaining) := s in
  r ← vget remaining new_node_id;
  orig_map' ← vset orig_map new_node_id (rn_id r);
  new_id_map' ← vset new_id_map (rn_id r) new_node_id;
  p ← vget priorities (rn_id r);
  new_priority' ← vset new_priority new_node_id p;
  remaining' ← vset remaining new_node_id (MkRemainingNodeData (ubits 31 new_node_id) (rn_is_independent r));
  Some (orig_map', new_id_map', new_priority', remaining').

Definition query_data_of (d : ContractorEdgeData) : QueryEdgeData :=
  QueryEdgeData_from (to_int (ce_distance d)) (ce_shortcut d) (ce_id d) (ce_forward d) (ce_backward d).

Definition set_original (d : ContractorEdgeData) : ContractorEdgeData :=
  MkContractorEdgeData (ce_distance d) (ce_id d) (ce_originalEdges d) (ce_shortcut d)
    (ce_forward d) (ce_backward d) true.

(** Edges of contracted nodes leave the graph, the others are renumbered. *)
Definition flush_edge (g : ContractorGraph) (new_id_map : list N) (source : N)
    (s : list QueryEdge * list ContractorEdge) (current_edge : N)
    : option (list QueryEdge * list ContractorEdge) :=
  let '(external, new_edge_set) := s in
  data ← GetEdgeData current_edge g;
  target ← GetTarget current_edge g;
  new_source ← vget new_id_map source;
  if (SPECIAL_NODEID =? new_source)%N then
    Some (external ++ [MkQueryEdge source target (query_data_of data)], new_edge_set)
  else
    new_target ← vget new_id_map target;
    Some (external, new_edge_set ++ [MkInputEdge new_source new_target (set_original data)]).

Definition flush_node (g : ContractorGraph) (new_id_map : list N)
    (s : list QueryEdge * list ContractorEdge) (source : N)
    : option (list QueryEdge * list ContractorEdge) :=
  r ← GetAdjacentEdgeRange source g; fold_m (flush_edge g new_id_map source) s r.

Definition flush (number_of_nodes : N) (c : contractor) : option contractor :=
  let n := vsize (c_remaining c) in
  '(orig_map, new_id_map, priorities, remaining) ←
    fold_m (renumber (c_priorities c))
      (vresize (c_orig_map c) n 0%N, replicate (N.to_nat number_of_nodes) UINT_MAX,
       replicate (N.to_nat n) (S754_zero false), c_remaining c) (irange 0 n);
  '(external, new_edge_set) ←
    fold_m (flush_node (c_graph c) new_id_map) (c_external c, []) (irange 0 (GetNumberOfNodes (c_graph c)));
  g ← DynamicGraph_from junk n (sort_edges new_edge_set);
  Some (MkContractor g remaining priorities (c_node_data c) [] (GetNumberOfNodes g) (c_contracted c)
    true orig_map external).

(** The main loop. A round that finds no independent node changes nothing, so
    the number of rounds is not bounded by the code: [fuel] rounds are made. *)
Fixpoint run_loop (fuel : nat) (number_of_nodes k : N) (c : contractor) : option contractor :=
  if ((2 <? number_of_nodes) && (c_contracted c <? number_of_nodes))%N then
    match fuel with
    | O => None
    | S fuel' =>
        c1 ← (if negb (c_flushed c) && flush_due (c_contracted c) number_of_nodes
              then flush number_of_nodes c else Some c);
        c2 ← round k c1;
        run_loop fuel' number_of_nodes (k + 1) c2
    end
  else Some c.

Definition Run (fuel : nat) (g : ContractorGraph) : option contractor :=
  c ← run_init g; run_loop fuel (GetNumberOfNodes g) 0 c.

(** ** GetEdges *)

Definition original_id (orig_map : list N) (n : N) : option N :=
  if (vsize orig_map =? 0)%N then Some n else vget orig_map n.

Definition get_edge (c : contractor) (node : N) (edges : list QueryEdge) (edge : N)
    : option (list QueryEdge) :=
  target ← GetTarget edge (c_graph c);
  data ← GetEdgeData edge (c_graph c);
  new_source ← original_id (c_orig_map c) node;
  new_target ← original_id (c_orig_map c) target;
  id ← (if negb (ce_is_original_via_node_ID data) then original_id (c_orig_map c) (ce_id data)
        else Some (ce_id data));
  Some (edges ++ [MkQueryEdge new_source new_target
    (QueryEdgeData_from (to_int (ce_distance data)) (ce_shortcut data) id (ce_forward data) (ce_backward data))]).

Definition get_node_edges (c : contractor) (edges : list QueryEdge) (node : N) : option (list QueryEdge) :=
  r ← GetAdjacentEdgeRange node (c_graph c); fold_m (get_edge c node) edges r.

Definition GetEdges (c : contractor) (edges : list QueryEdge) : option (list QueryEdge) :=
  l ← fold_m (get_node_edges c) edges (irange 0 (GetNumberOfNodes (c_graph c)));
  Some (l ++ c_external c).
End construction.
