(* ===== verification/WitnessSearch.v ===== *)
(** * Contractor/Contractor.h: the witness search

    [Dijkstra] and the contraction of one node: the keys the search leaves in
    the heap are lengths of paths that avoid the contracted node, so a
    two-arc path for which no shortcut is inserted has a witness. *)

From S2P Require Import Prelude Types Paths Edges Storage BinaryHeap DynamicGraph Float32 Contractor.

(** ** The arcs of a contractor graph *)

(** The arcs an adjacency list records: [fwd g u v w] for an edge of [u] that
    may be travelled towards its target [v], [bwd g u v w] for one that may be
    travelled from [v] to [u]. *)
Definition fwd (g : ContractorGraph) : arcs := fun u v w =>
  exists e, e ∈ adj g u /\ e_target e = v /\ ce_forward (e_data e) = true /\ ce_distance (e_data e) = w.

Definition bwd (g : ContractorGraph) : arcs := fun u v w =>
  exists e, e ∈ adj g u /\ e_target e = v /\ ce_backward (e_data e) = true /\ ce_distance (e_data e) = w.

(** Distances fit the signed 30-bit field of the query edges. *)
Definition max_weight : N := 536870912.

(** The lists of the live nodes [R] lead to other live nodes and their
    weights are positive and small. *)
Record live_ok (R : gset N) (g : ContractorGraph) : Prop := {
  lo_wf : graph_wf g;
  lo_nodes : forall u, u ∈ R -> (u < vsize (node_list g))%N;
  lo_edges : forall u e, u ∈ R -> e ∈ adj g u ->
    e_target e ∈ R /\ e_target e <> u /\ (0 < ce_distance (e_data e) < max_weight)%N;
}.

Section search.
  Context {St : Type} `{IndexStorageLaws St}.
  Context (X R : gset N) (g : ContractorGraph).
  Hypothesis live : live_ok R g.
  Hypothesis R_X : R ⊆ X.
  Hypothesis X_small : (N.of_nat (size X) < 2147483647)%N.
  #[local] Set Default Proof Using "Type live R_X X_small".
  Implicit Types h : ContractorHeap St.

(** ** The invariant of the search *)

(** A key is [INT_MAX], or the length of a path from the source that avoids
    the middle node. *)
Definition key_ok (source middle n : N) (w : Z) : Prop :=
  w = INT_MAX \/ (0 <= w < INT_MAX)%Z /\ path (avoid middle (fwd g)) source n (Z.to_N w).

Record search_inv (source middle : N) (c : N) (delta : Z) h : Prop := {
  si_wf : heap_wf X c h;
  si_keys : forall n w d q, queue h !! n = Some (w, d, q) -> n ∈ R /\ key_ok source middle n w;
  si_removed : forall n w d, queue h !! n = Some (w, d, false) -> (w <= delta)%Z;
  si_queued : forall n w d, queue h !! n = Some (w, d, true) -> (delta <= w)%Z;
}.

(** The nodes of the heap are live, so there is room for another one. *)
Lemma queue_room c h n :
  heap_wf X c h -> (forall m x, queue h !! m = Some x -> m ∈ R) -> n ∈ R -> queue h !! n = None ->
  (vsize (inserted_nodes h) + 1 < 2147483648)%N.
Proof.
  intros Hwf Hdom Hn Hq. rewrite <- (size_queue X c h Hwf), <- size_dom.
  assert (dom (queue h) ∪ {[n]} ⊆ X) as Hsub.
  { intros m [Hm|Hm]%elem_of_union; [|set_solver].
    apply elem_of_dom in Hm as [x Hx]. apply R_X. by eapply Hdom. }
  apply subseteq_size in Hsub. rewrite size_union in Hsub.
  - rewrite size_singleton in Hsub. lia.
  - apply disjoint_singleton_r. by rewrite not_elem_of_dom.
Qed.

(** ** Relaxing an edge *)

(** [relax] on the edge itself. *)
Definition relax_edge (middleNode : N) (distance current_hop : Z) h (e : Edge ContractorEdgeData)
    : option (ContractorHeap St) :=
  if negb (ce_forward (e_data e)) then Some h
  else if (middleNode =? e_target e)%N then Some h
  else
    let to_distance := to_int (uadd (of_int distance) (ce_distance (e_data e))) in
    '(inserted, h1) ← WasInserted (e_target e) h;
    if negb inserted
    then Insert (e_target e) to_distance (MkContractorHeapData current_hop false) h1
    else
      '(key, h2) ← GetKey (e_target e) h1;
      if (to_distance <? key)%Z then
        h3 ← DecreaseKey (e_target e) to_distance h2;
        AssignData (e_target e) (fun d => MkContractorHeapData current_hop (hd_target d)) h3
      else Some h2.

Lemma relax_relax_edge middleNode distance current_hop h i e :
  vget (edge_list g) i = Some e ->
  relax g middleNode distance current_hop h i = relax_edge middleNode distance current_hop h e.
Proof. intros He. unfold relax, GetEdgeData, GetTarget. by rewrite He. Qed.

(** Keys never grow and no node leaves the heap's memory. *)
Definition tighter h h' : Prop :=
  forall n w d q, queue h !! n = Some (w, d, q) ->
    exists w' d' q', queue h' !! n = Some (w', d', q') /\ (w' <= w)%Z.

Lemma tighter_refl h : tighter h h.
Proof. intros n w d q Hq. exists w, d, q. split; [done|lia]. Qed.

Lemma tighter_eq h h' : queue h' = queue h -> tighter h h'.
Proof. intros E n w d q Hq. exists w, d, q. rewrite E. split; [done|lia]. Qed.

Lemma tighter_trans h h' h'' : tighter h h' -> tighter h' h'' -> tighter h h''.
Proof.
  intros H1 H2 n w d q Hq. destruct (H1 n w d q Hq) as (w1 & d1 & q1 & Hq1 & Hle).
  destruct (H2 n w1 d1 q1 Hq1) as (w2 & d2 & q2 & Hq2 & Hle2). exists w2, d2, q2. split; [done|lia].
Qed.

Lemma search_inv_queue source middle c delta h h' :
  heap_wf X c h' -> queue h' = queue h -> search_inv source middle c delta h ->
  search_inv source middle c delta h'.
Proof.
  intros Hwf Hq [_ Hk Hr Hd].
  constructor; [done|..]; rewrite Hq; [exact Hk|exact Hr|exact Hd].
Qed.

(** One edge of a node settled at [distance]. *)
Lemma relax_ok source middle c node distance current_hop h e :
  search_inv source middle c distance h -> node ∈ R -> e ∈ adj g node -> node <> middle ->
  (0 <= distance <= 2 * Z.of_N max_weight)%Z -> path (avoid middle (fwd g)) source node (Z.to_N distance) ->
  exists h', relax_edge middle distance current_hop h e = Some h' /\
    search_inv source middle c distance h' /\ tighter h h'.
Proof.
  intros Hinv Hnode He Hnm Hdist Hp. destruct (lo_edges R g live node e Hnode He) as (HtR & Hloop & Hw).
  unfold relax_edge. destruct (ce_forward (e_data e)) eqn:Hfwd; cbn [negb].
  2:{ exists h. split_and!; [done..|apply tighter_refl]. }
  destruct (N.eqb_spec middle (e_target e)) as [Hmid|Hmid].
  { exists h. split_and!; [done..|apply tighter_refl]. }
  unfold max_weight in *.
  rewrite of_int_nonneg, uadd_small, to_int_small by lia.
  replace (Z.of_N (Z.to_N distance + ce_distance (e_data e)))
    with (distance + Z.of_N (ce_distance (e_data e)))%Z by lia.
  set (td := (distance + Z.of_N (ce_distance (e_data e)))%Z).
  assert (key_ok source middle (e_target e) td) as Hkey.
  { right. split; [unfold td, INT_MAX; lia|]. unfold td.
    replace (Z.to_N _) with (Z.to_N distance + ce_distance (e_data e))%N by lia.
    eapply path_snoc; [done|]. split; [|done]. by exists e. }
  destruct Hinv as [Hwf Hks Hrem Hque].
  destruct (was_inserted_ok X c h (e_target e) Hwf) as (h1 & -> & Hwf1 & Hq1); [by apply R_X|].
  cbn [mbind option_bind].
  destruct (queue h !! e_target e) as [[[w d] q]|] eqn:Eq.
  - rewrite bool_decide_true by done. cbn [negb].
    destruct (read_slot X c h1 (e_target e) (w, d, q) Hwf1) as (j & hn & h2 & Hs & Hx & Hwf2 & Hq2);
      [by rewrite Hq1|].
    unfold GetKey. rewrite Hs. cbn [mbind option_bind]. injection Hx as Hx1 _ _. rewrite Hx1.
    case_ltb.
    + destruct q.
      2:{ pose proof (Hrem _ _ _ Eq). unfold td in *. lia. }
      destruct (decrease_ok X c h2 (e_target e) w d td Hwf2) as (h3 & -> & Hwf3 & Hq3).
      { by rewrite Hq2, Hq1. } { unfold td, INT_MIN. lia. }
      cbn [mbind option_bind].
      destruct (assign_data_ok X c h3 (e_target e) td d true
        (fun d => MkContractorHeapData current_hop (hd_target d)) Hwf3) as (h4 & -> & Hwf4 & Hq4).
      { by rewrite Hq3, lookup_insert_eq. }
      rewrite Hq3, insert_insert_eq, Hq2, Hq1 in Hq4. exists h4. split; [done|]. split.
      * constructor; [done|..]; rewrite Hq4.
        -- intros n w' d' q' [[<- [= <- _ _]]|[Hne Hn]]%lookup_insert_Some; [done|by eapply Hks].
        -- intros n w' d' [[_ [=]]|[Hne Hn]]%lookup_insert_Some. by eapply Hrem.
        -- intros n w' d' [[_ [= <- _]]|[Hne Hn]]%lookup_insert_Some; [unfold td; lia|by eapply Hque].
      * intros n w' d' q' Hn. rewrite Hq4. destruct (decide (n = e_target e)) as [->|Hne].
        -- eexists _, _, _. rewrite lookup_insert_eq. split; [done|]. rewrite Eq in Hn. injection Hn as <- _ _. lia.
        -- exists w', d', q'. rewrite lookup_insert_ne by done. split; [done|lia].
    + exists h2. assert (queue h2 = queue h) as Hqq by congruence. split; [done|]. split.
      * by apply (search_inv_queue _ _ _ _ h).
      * by apply tighter_eq.
  - rewrite bool_decide_false by (by intros []). cbn [negb].
    destruct (insert_ok X c h1 (e_target e) td (MkContractorHeapData current_hop false) Hwf1)
      as (h2 & -> & Hwf2 & Hq2).
    { by apply R_X. } { by rewrite Hq1. } { unfold td, INT_MIN. lia. }
    { apply (queue_room c h1 (e_target e) Hwf1); [|done|by rewrite Hq1].
      rewrite Hq1. intros m [[a b] q'] Hm. by eapply Hks. }
    rewrite Hq1 in Hq2. exists h2. split; [done|]. split.
    + constructor; [done|..]; rewrite Hq2.
      * intros n w' d' q' [[<- [= <- _ _]]|[Hne Hn]]%lookup_insert_Some; [done|by eapply Hks].
      * intros n w' d' [[_ [=]]|[Hne Hn]]%lookup_insert_Some. by eapply Hrem.
      * intros n w' d' [[_ [= <- _]]|[Hne Hn]]%lookup_insert_Some; [unfold td; lia|by eapply Hque].
    + intros n w' d' q' Hn. rewrite Hq2. exists w', d', q'. rewrite lookup_insert_ne by congruence.
      split; [done|lia].
Qed.

Lemma relax_all_ok source middle c node distance current_hop h :
  search_inv source middle c distance h -> node ∈ R -> node <> middle ->
  (0 <= distance <= 2 * Z.of_N max_weight)%Z -> path (avoid middle (fwd g)) source node (Z.to_N distance) ->
  exists r h', GetAdjacentEdgeRange node g = Some r /\
    fold_m (relax g middle distance current_hop) h r = Some h' /\
    search_inv source middle c distance h' /\ tighter h h'.
Proof.
  intros Hinv Hnode Hnm Hd Hp.
  destruct (adj_range g node (lo_wf R g live) (lo_nodes R g live node Hnode)) as (r & Hr & HF).
  exists r. rewrite (fold_m_Forall2 _ _ (relax_edge middle distance current_hop) r (adj g node) HF)
    by (intros; by apply relax_relax_edge).
  destruct (fold_m_ind (relax_edge middle distance current_hop)
    (fun _ h' => search_inv source middle c distance h' /\ tighter h h') (adj g node) h)
    as (h' & Hrun & Hinv' & Ht).
  - split; [done|apply tighter_refl].
  - intros pre e post h1 Hl [Hinv1 Ht1].
    destruct (relax_ok source middle c node distance current_hop h1 e) as (h2 & Hrun & Hinv2 & Ht2);
      [done|done| |done|done|done|].
    { rewrite Hl. apply elem_of_app. right. by left. }
    exists h2. split; [done|]. split; [done|]. by eapply tighter_trans.
  - eauto 10.
Qed.

(** Settling the lightest node. *)
Lemma settle_ok source middle c delta h :
  search_inv source middle c delta h -> Empty h = false ->
  exists n w d h', DeleteMin h = Some (n, h') /\ search_inv source middle c w h' /\
    queue h' !! n = Some (w, d, false) /\ tighter h h'.
Proof.
  intros [Hwf Hks Hrem Hque] Hne.
  destruct (delete_min_ok X c h Hwf Hne) as (n & w & d & h' & Hrun & _ & Hwf' & Hq & Hmin & Hq').
  exists n, w, d, h'. split; [done|]. split; [|split; [by rewrite Hq', lookup_insert_eq|]].
  - constructor; [done|..]; rewrite Hq'.
    + intros m w' d' q' [[<- [= <- _ _]]|[Hm Hn]]%lookup_insert_Some; by eapply Hks.
    + intros m w' d' [[_ [= <- _]]|[Hm Hn]]%lookup_insert_Some; [lia|].
      transitivity delta; [by eapply Hrem|by eapply Hque].
    + intros m w' d' [[_ [=]]|[Hm Hn]]%lookup_insert_Some. by eapply Hmin.
  - intros m w' d' q' Hm. rewrite Hq'. destruct (decide (m = n)) as [->|Hmn].
    + eexists _, _, _. rewrite lookup_insert_eq. split; [done|]. rewrite Hq in Hm. injection Hm as <- _ _. lia.
    + exists w', d', q'. rewrite lookup_insert_ne by done. split; [done|lia].
Qed.

(** What the search leaves behind. *)
Definition search_done (source middle c : N) h h' : Prop :=
  heap_wf X c h' /\ tighter h h' /\
  forall n w d q, queue h' !! n = Some (w, d, q) -> n ∈ R /\ key_ok source middle n w.

Lemma dijkstra_loop_ok fuel source middle c max_distance targets maxNodes : forall delta h nodes found,
  (Z.to_nat (maxNodes - nodes) < fuel)%nat -> (0 <= nodes <= maxNodes)%Z -> (maxNodes < 2147483647)%Z ->
  (max_distance <= 2 * Z.of_N max_weight)%Z -> source <> middle ->
  search_inv source middle c delta h ->
  exists h', dijkstra_loop fuel g max_distance targets maxNodes middle h nodes found = Some h' /\
    search_done source middle c h h'.
Proof.
  induction fuel as [|fuel IH]; intros delta h nodes found Hf Hn Hmx Hmd Hsm Hinv; [lia|].
  cbn [dijkstra_loop]. destruct (Empty h) eqn:Hempty.
  { exists h. split; [done|]. destruct Hinv. split_and!; [done|apply tighter_refl|done]. }
  destruct (settle_ok source middle c delta h Hinv Hempty) as (n & w & d & h1 & -> & Hinv1 & Hq1 & Ht1).
  cbn [mbind option_bind].
  destruct (read_slot X c h1 n (w, d, false) (si_wf _ _ _ _ _ Hinv1) Hq1)
    as (j1 & n1 & h2 & Hs1 & Hx1 & Hwf2 & Hq2).
  assert (GetKey n h1 = Some (hn_weight n1, h2)) as -> by (unfold GetKey; by rewrite Hs1).
  cbn [mbind option_bind].
  destruct (read_slot X c h2 n (w, d, false) Hwf2) as (j2 & n2 & h3 & Hs2 & Hx2 & Hwf3 & Hq3);
    [by rewrite Hq2|].
  assert (GetData n h2 = Some (hn_data n2, h3)) as -> by (unfold GetData; by rewrite Hs2).
  cbn [mbind option_bind].
  injection Hx1 as Hx1 _ _. rewrite Hx1. set (hopv := to_short _).
  unfold iadd, i32, in_i32.
  assert ((INT_MIN <=? nodes + 1)%Z = true) as -> by (unfold_ints; lia).
  assert ((nodes + 1 <=? INT_MAX)%Z = true) as -> by (unfold_ints; lia).
  cbn [andb mbind option_bind].
  assert (search_inv source middle c w h3) as Hinv3
    by (apply (search_inv_queue _ _ _ _ h1); [done|congruence|done]).
  assert (tighter h h3) as Ht3 by (eapply tighter_trans; [exact Ht1|]; apply tighter_eq; congruence).
  assert (search_done source middle c h h3) as Hdone3 by (destruct Hinv3; split_and!; done).
  case_ltb; [by exists h3|]. case_ltb; [by exists h3|].
  destruct (read_slot X c h3 n (w, d, false) Hwf3) as (j4 & n4 & h4 & Hs4 & Hx4 & Hwf4 & Hq4);
    [congruence|].
  assert (GetData n h3 = Some (hn_data n4, h4)) as -> by (unfold GetData; by rewrite Hs4).
  cbn [mbind option_bind].
  assert (search_inv source middle c w h4) as Hinv4 by (by apply (search_inv_queue _ _ _ _ h3)).
  assert (tighter h h4) as Ht4 by (eapply tighter_trans; [exact Ht3|]; by apply tighter_eq).
  match goal with |- context [if ?b then Some h4 else _] => destruct b end.
  { exists h4. split; [done|]. destruct Hinv4; split_and!; done. }
  destruct (si_keys _ _ _ _ _ Hinv1 n w d false Hq1) as [HnR [Hk|[Hk Hp]]].
  { unfold max_weight, INT_MAX in *. lia. }
  destruct (relax_all_ok source middle c n w hopv h4) as (r & h5 & -> & Hrel & Hinv5 & Ht5); try done.
  { by eapply path_avoid_end. } { unfold max_weight in *. lia. }
  cbn [mbind option_bind]. rewrite Hrel. cbn [mbind option_bind].
  match goal with |- context [dijkstra_loop fuel g max_distance targets maxNodes middle h5 _ ?f] =>
    destruct (IH w h5 (nodes + 1)%Z f) as (h' & Hrun & Hwf' & Ht' & Hk'); [lia|lia|lia|lia|done|done|] end.
  exists h'. split; [done|]. split_and!; [done| |done].
  eapply tighter_trans; [|done]. by eapply tighter_trans.
Qed.

Lemma Dijkstra_ok source middle c delta max_distance targets maxNodes h :
  (0 <= maxNodes < 2147483647)%Z -> (max_distance <= 2 * Z.of_N max_weight)%Z -> source <> middle ->
  search_inv source middle c delta h ->
  exists h', Dijkstra g max_distance targets maxNodes middle h = Some h' /\ search_done source middle c h h'.
Proof. intros Hm Hmd Hs Hinv. eapply dijkstra_loop_ok; [| | | | |done]; lia || done. Qed.

(** ** Contracting a node *)

Abbreviation cedge := (Edge ContractorEdgeData).

(** The length of the path through the node, as the code computes it. *)
Definition via (in_data out_data : ContractorEdgeData) : N := (ce_distance in_data + ce_distance out_data)%N.

Lemma path_distance_via in_data out_data :
  (ce_distance in_data < max_weight)%N -> (ce_distance out_data < max_weight)%N ->
  path_distance (ce_distance in_data) (ce_distance out_data) = Z.of_N (via in_data out_data).
Proof. intros ??. unfold path_distance, via, max_weight in *. by rewrite uadd_small, to_int_small by lia. Qed.

(** [insert_target] on the edge itself. *)
Definition insert_target_edge (in_data : ContractorEdgeData) (s : ContractorHeap St * Z * N) (e : cedge)
    : option (ContractorHeap St * Z * N) :=
  let '(h, max_distance, number_of_targets) := s in
  if negb (ce_forward (e_data e)) then Some s
  else
    let dist := path_distance (ce_distance in_data) (ce_distance (e_data e)) in
    '(inserted, h1) ← WasInserted (e_target e) h;
    if negb inserted then
      h2 ← Insert (e_target e) INT_MAX (MkContractorHeapData 0 true) h1;
      Some (h2, Z.max max_distance dist, uadd number_of_targets 1)
    else Some (h1, Z.max max_distance dist, number_of_targets).

Lemma insert_target_eq in_data s i e :
  vget (edge_list g) i = Some e -> insert_target g in_data s i = insert_target_edge in_data s e.
Proof.
  intros He. unfold insert_target, GetEdgeData, GetTarget. rewrite He. by destruct s as [[h m] n].
Qed.

Definition targets_inv (h0 : ContractorHeap St) (source node c : N) (done : list cedge)
    (s : ContractorHeap St * Z * N) : Prop :=
  let '(h, max_distance, _) := s in
  search_inv source node c 0 h /\ tighter h0 h /\ (max_distance <= 2 * Z.of_N max_weight)%Z /\
  forall e, e ∈ done -> ce_forward (e_data e) = true -> is_Some (queue h !! e_target e).

Lemma insert_targets_ok source node c in_data h r :
  search_inv source node c 0 h -> node ∈ R -> (ce_distance in_data < max_weight)%N ->
  Forall2 (fun i e => vget (edge_list g) i = Some e) r (adj g node) ->
  exists s, fold_m (insert_target g in_data) (h, 0%Z, 0%N) r = Some s /\
    targets_inv h source node c (adj g node) s.
Proof.
  intros Hinv Hnode Hin HF.
  rewrite (fold_m_Forall2 _ _ (insert_target_edge in_data) r (adj g node) HF)
    by (intros; by apply insert_target_eq).
  apply (fold_m_ind (insert_target_edge in_data) (targets_inv h source node c)).
  { split_and!; [done|apply tighter_refl|unfold max_weight; lia|]. by intros e ?%elem_of_nil. }
  intros pre e post [[h1 md] nt] Hl (Hinv1 & Hti & Hmd & Hall).
  destruct (lo_edges R g live node e Hnode) as (HtR & Hloop & Hw).
  { rewrite Hl. apply elem_of_app. right. by left. }
  unfold insert_target_edge. destruct (ce_forward (e_data e)) eqn:Hfwd; cbn [negb].
  2:{ eexists. split; [done|]. split_and!; [done|done|done|]. intros e' [Hin'|Hin']%elem_of_app Hf; [by apply Hall|].
      apply list_elem_of_singleton in Hin' as ->. congruence. }
  rewrite path_distance_via by lia. pose proof Hinv1 as [Hwf Hks Hrem Hque].
  destruct (was_inserted_ok X c h1 (e_target e) Hwf) as (h2 & -> & Hwf2 & Hq2); [by apply R_X|].
  cbn [mbind option_bind].
  assert (Z.max md (Z.of_N (via in_data (e_data e))) <= 2 * Z.of_N max_weight)%Z as Hmd'
    by (unfold via in *; lia).
  destruct (queue h1 !! e_target e) as [x|] eqn:Eq.
  - rewrite bool_decide_true by done. cbn [negb]. eexists. split; [done|].
    split_and!; [by apply (search_inv_queue _ _ _ _ h1)| |done|].
    { eapply tighter_trans; [done|]. by apply tighter_eq. }
    rewrite Hq2.
    intros e' [Hin'|Hin']%elem_of_app Hf; [by apply Hall|].
    apply list_elem_of_singleton in Hin' as ->. by rewrite Eq.
  - rewrite bool_decide_false by (by intros []). cbn [negb].
    destruct (insert_ok X c h2 (e_target e) INT_MAX (MkContractorHeapData 0 true) Hwf2)
      as (h3 & -> & Hwf3 & Hq3).
    { by apply R_X. } { by rewrite Hq2. } { by vm_compute. }
    { apply (queue_room c h2 (e_target e) Hwf2); [|done|by rewrite Hq2].
      rewrite Hq2. intros m [[a b] q'] Hm. by eapply Hks. }
    cbn [mbind option_bind]. rewrite Hq2 in Hq3. eexists. split; [done|]. split_and!; [| |done|].
    + constructor; [done|..]; rewrite Hq3.
      * intros n w' d' q' [[<- [= <- _ _]]|[Hne Hn]]%lookup_insert_Some; [split; [done|by left]|by eapply Hks].
      * intros n w' d' [[_ [=]]|[Hne Hn]]%lookup_insert_Some. by eapply Hrem.
      * intros n w' d' [[_ [= <- _]]|[Hne Hn]]%lookup_insert_Some; [by vm_compute|by eapply Hque].
    + eapply tighter_trans; [done|]. intros n w d q Hn. rewrite Hq3. exists w, d, q.
      rewrite lookup_insert_ne by congruence. split; [done|lia].
    + rewrite Hq3. intros e' [Hin'|Hin']%elem_of_app Hf.
      * destruct (decide (e_target e' = e_target e)) as [->|]; [by rewrite lookup_insert_eq|].
        rewrite lookup_insert_ne by done. by apply Hall.
      * apply list_elem_of_singleton in Hin' as ->. by rewrite lookup_insert_eq.
Qed.

(** [add_shortcut] on the edge itself, outside the simulation. *)
Definition add_shortcut_edge (node source : N) (in_data : ContractorEdgeData)
    (s : contract_state St) (e : cedge) : option (contract_state St) :=
  if negb (ce_forward (e_data e)) then Some s
  else
    let dist := path_distance (ce_distance in_data) (ce_distance (e_data e)) in
    '(distance, h1) ← GetKey (e_target e) (cs_heap s);
    Some (MkContractState h1
      (if (dist <? distance)%Z then
         cs_inserted s ++ shortcut_edges source (e_target e) node dist in_data (e_data e)
       else cs_inserted s) (cs_stats s)).

Lemma add_shortcut_eq node source in_data s i e :
  vget (edge_list g) i = Some e ->
  add_shortcut false g node source in_data s i = add_shortcut_edge node source in_data s e.
Proof.
  intros He. unfold add_shortcut, add_shortcut_edge, GetEdgeData, GetTarget. rewrite He.
  cbn [mbind option_bind]. destruct (negb _); [done|].
  destruct (GetKey _ _) as [[k h1]|]; cbn [mbind option_bind]; [|done]. by destruct (_ <? _)%Z.
Qed.

(** The shortcuts of one incoming edge: every two-arc path has one or has a
    witness, and there are no others. *)
Definition shortcuts_for (node source : N) (in_data : ContractorEdgeData) (done : list cedge)
    (new : list ContractorEdge) : Prop :=
  (forall e, e ∈ done -> ce_forward (e_data e) = true ->
     shortcut_edges source (e_target e) node (Z.of_N (via in_data (e_data e))) in_data (e_data e) ⊆ new \/
     within (avoid node (fwd g)) source (e_target e) (via in_data (e_data e))) /\
  (forall x, x ∈ new -> exists e, e ∈ done /\ ce_forward (e_data e) = true /\ e_target e <> source /\
     x ∈ shortcut_edges source (e_target e) node (Z.of_N (via in_data (e_data e))) in_data (e_data e) /\
     shortcut_edges source (e_target e) node (Z.of_N (via in_data (e_data e))) in_data (e_data e) ⊆ new) /\
  (vsize new <= 2 * vsize done)%N.

Lemma add_shortcuts_ok source node c in_data h0 h s r :
  search_done source node c h0 h -> cs_heap s = h -> node ∈ R -> (ce_distance in_data < max_weight)%N ->
  (exists d q, queue h !! source = Some (0%Z, d, q)) ->
  (forall e, e ∈ adj g node -> ce_forward (e_data e) = true -> is_Some (queue h !! e_target e)) ->
  Forall2 (fun i e => vget (edge_list g) i = Some e) r (adj g node) ->
  exists s' new, fold_m (add_shortcut false g node source in_data) s r = Some s' /\
    heap_wf X c (cs_heap s') /\ cs_stats s' = cs_stats s /\ cs_inserted s' = cs_inserted s ++ new /\
    shortcuts_for node source in_data (adj g node) new.
Proof.
  intros (Hwf & _ & Hks) Hh Hnode Hin (d0 & q0 & Hsrc) Htgt HF.
  rewrite (fold_m_Forall2 _ _ (add_shortcut_edge node source in_data) r (adj g node) HF)
    by (intros; by apply add_shortcut_eq).
  destruct (fold_m_ind (add_shortcut_edge node source in_data)
    (fun done s' => heap_wf X c (cs_heap s') /\ queue (cs_heap s') = queue h /\ cs_stats s' = cs_stats s /\
       exists new, cs_inserted s' = cs_inserted s ++ new /\ shortcuts_for node source in_data done new)
    (adj g node) s) as (s' & Hrun & Hwf' & _ & Hst & new & Hnew & Hsf).
  - rewrite Hh. split_and!; [done..|]. exists []. rewrite app_nil_r. split; [done|].
    split_and!; [by intros e ?%elem_of_nil|by intros x ?%elem_of_nil|done].
  - intros pre e post s1 Hl (Hwf1 & Hq1 & Hst1 & new & Hnew & Hcov & Hsnd & Hlen).
    assert (vsize (pre ++ [e]) = vsize pre + 1)%N as Hpre by (by rewrite vsize_app).
    assert (e ∈ adj g node) as He by (rewrite Hl; apply elem_of_app; right; by left).
    destruct (lo_edges R g live node e Hnode He) as (HtR & Hloop & Hw).
    unfold add_shortcut_edge. destruct (ce_forward (e_data e)) eqn:Hfwd; cbn [negb].
    2:{ exists s1. split; [done|]. split_and!; [done..|]. exists new. split; [done|]. split_and!.
        - intros e' [Hin'|Hin']%elem_of_app Hf; [by apply Hcov|].
          apply list_elem_of_singleton in Hin' as ->. congruence.
        - intros x Hx. destruct (Hsnd x Hx) as (e' & He' & Hrest). exists e'. split; [|done].
          apply elem_of_app. by left.
        - lia. }
    destruct (Htgt e He Hfwd) as [[[w d] q] Hq].
    destruct (read_slot X c (cs_heap s1) (e_target e) (w, d, q) Hwf1) as (j & hn & h2 & Hs & Hx & Hwf2 & Hq2);
      [by rewrite Hq1|].
    unfold GetKey. rewrite Hs. cbn [mbind option_bind]. injection Hx as Hx _ _. rewrite Hx.
    rewrite path_distance_via by lia. eexists. split; [done|]. cbn [cs_heap cs_stats cs_inserted].
    split_and!; [done|congruence|done|].
    assert (forall new', new ⊆ new' ->
      (shortcut_edges source (e_target e) node (Z.of_N (via in_data (e_data e))) in_data (e_data e) ⊆ new' \/
       within (avoid node (fwd g)) source (e_target e) (via in_data (e_data e))) ->
      forall e', e' ∈ pre ++ [e] -> ce_forward (e_data e') = true ->
      shortcut_edges source (e_target e') node (Z.of_N (via in_data (e_data e'))) in_data (e_data e') ⊆ new' \/
      within (avoid node (fwd g)) source (e_target e') (via in_data (e_data e'))) as Hcov'.
    { intros new' Hsub Hthis e' [Hin'|Hin']%elem_of_app Hf.
      - destruct (Hcov e' Hin' Hf) as [Hc|Hc]; [left; by etrans|by right].
      - by apply list_elem_of_singleton in Hin' as ->. }
    case_ltb.
    + exists (new ++ shortcut_edges source (e_target e) node (Z.of_N (via in_data (e_data e))) in_data (e_data e)).
      split; [by rewrite Hnew, <- app_assoc|]. split_and!.
      3:{ rewrite vsize_app. change (vsize (shortcut_edges _ _ _ _ _ _)) with 2%N. lia. }
      * apply Hcov'; [set_solver|]. left. set_solver.
      * intros x [Hx'|Hx']%elem_of_app.
        -- destruct (Hsnd x Hx') as (e' & He' & Hf' & Hne' & Hin' & Hsub'). exists e'.
           split_and!; [apply elem_of_app; by left|done..|]. set_solver.
        -- exists e. split_and!; [apply elem_of_app; right; by left|done| |done|set_solver].
           intros Heq. rewrite Heq, Hsrc in Hq. injection Hq as <- _ _. lia.
    + exists new. split; [done|]. split_and!; [| |lia].
      * apply Hcov'; [done|]. right. destruct (Hks _ _ _ _ Hq) as [_ [Hk|[Hk Hp]]].
        { unfold INT_MAX, via, max_weight in *. lia. }
        exists (Z.to_N w). split; [lia|done].
      * intros x Hx'. destruct (Hsnd x Hx') as (e' & He' & Hrest). exists e'. split; [|done].
        apply elem_of_app. by left.
  - exists s', new. done.
Qed.

(** The search of one incoming edge: it ends, and the keys of the targets can
    be compared. *)
Lemma search_ok node c s e r maxNodes :
  heap_wf X (c + 1) (cs_heap s) -> node ∈ R -> e ∈ adj g node -> (0 <= maxNodes < 2147483647)%Z ->
  Forall2 (fun i e => vget (edge_list g) i = Some e) r (adj g node) ->
  exists h1 h2 md nt h3,
    Insert (e_target e) 0 (MkContractorHeapData 0 false) (Clear (cs_heap s)) = Some h1 /\
    fold_m (insert_target g (e_data e)) (h1, 0%Z, 0%N) r = Some (h2, md, nt) /\
    Dijkstra g md nt maxNodes node h2 = Some h3 /\ search_done (e_target e) node c h2 h3 /\
    (exists d q, queue h3 !! e_target e = Some (0%Z, d, q)) /\
    (forall e', e' ∈ adj g node -> ce_forward (e_data e') = true -> is_Some (queue h3 !! e_target e')).
Proof.
  intros Hwf Hnode He Hmax HF. destruct (lo_edges R g live node e Hnode He) as (HsR & Hloop & Hw).
  destruct Hwf as [_ _ _ _ _ (m & Hm & _)].
  destruct (clear_wf X c (cs_heap s) m Hm) as [Hwf0 Hq0].
  destruct (insert_ok X c (Clear (cs_heap s)) (e_target e) 0 (MkContractorHeapData 0 false) Hwf0)
    as (h1 & Hi & Hwf1 & Hq1).
  { by apply R_X. } { by rewrite Hq0. } { by vm_compute. }
  { apply (queue_room c (Clear (cs_heap s)) (e_target e) Hwf0); [|done|by rewrite Hq0].
    rewrite Hq0. by intros ? ? ?%lookup_empty_Some. }
  rewrite Hq0 in Hq1.
  assert (search_inv (e_target e) node c 0 h1) as Hinv1.
  { constructor; [done|..]; rewrite Hq1.
    - intros n w d q [[<- [= <- _ _]]|[_ Hn]]%lookup_insert_Some; [|by apply lookup_empty_Some in Hn].
      split; [done|]. right. split; [by vm_compute|constructor].
    - intros n w d [[_ [=]]|[_ Hn]]%lookup_insert_Some. by apply lookup_empty_Some in Hn.
    - intros n w d [[_ [= <- _]]|[_ Hn]]%lookup_insert_Some; [lia|by apply lookup_empty_Some in Hn]. }
  destruct (insert_targets_ok (e_target e) node c (e_data e) h1 r Hinv1 Hnode) as ([[h2 md] nt] & Hrun & Hinv2 & Ht12 & Hmd & Htgt);
    [lia|done|].
  destruct (Dijkstra_ok (e_target e) node c 0 md nt maxNodes h2) as (h3 & Hdij & Hdone); [lia|done|done|done|].
  pose proof Hdone as (Hwf3 & Ht3 & Hk3). exists h1, h2, md, nt, h3. split_and!; try done.
  - destruct (Ht12 (e_target e) 0%Z (MkContractorHeapData 0 false) true) as (w1 & d1 & q1 & Hq1' & Hle1).
    { by rewrite Hq1, lookup_insert_eq. }
    destruct (Ht3 _ _ _ _ Hq1') as (w2 & d2 & q2 & Hq2' & Hle2).
    destruct (Hk3 _ _ _ _ Hq2') as [_ [Hk|[Hk _]]]; [unfold INT_MAX in *; lia|].
    assert (w2 = 0)%Z as -> by lia. eauto.
  - intros e' He' Hf. destruct (Htgt e' He' Hf) as [[[w d] q] Hq].
    destruct (Ht3 _ _ _ _ Hq) as (w2 & d2 & q2 & Hq2' & _). by rewrite Hq2'.
Qed.

Lemma contract_in_edge_ok node c s j e r :
  heap_wf X (c + 1) (cs_heap s) -> node ∈ R -> e ∈ adj g node -> vget (edge_list g) j = Some e ->
  GetAdjacentEdgeRange node g = Some r ->
  Forall2 (fun i e => vget (edge_list g) i = Some e) r (adj g node) ->
  exists s' new, contract_in_edge false g node s j = Some s' /\
    heap_wf X c (cs_heap s') /\ cs_stats s' = cs_stats s /\ cs_inserted s' = cs_inserted s ++ new /\
    if ce_backward (e_data e) then shortcuts_for node (e_target e) (e_data e) (adj g node) new
    else new = [].
Proof.
  intros Hwf Hnode He Hj Hr HF. destruct (lo_edges R g live node e Hnode He) as (HsR & Hloop & Hw).
  unfold contract_in_edge, GetEdgeData, GetTarget. rewrite Hj. cbn [mbind option_bind].
  destruct (ce_backward (e_data e)) eqn:Hb; cbn [negb].
  2:{ exists (MkContractState (cs_heap s) (cs_inserted s) (cs_stats s)), []. split; [done|].
      cbn [cs_heap cs_stats cs_inserted]. split_and!; [|done|by rewrite app_nil_r|done].
      eapply heap_wf_weaken; [|done]. lia. }
  destruct (search_ok node c s e r 2000 Hwf Hnode He) as (h1 & h2 & md & nt & h3 & -> & Hrun & Hdij & Hdone & Hsrc & Htgt);
    [lia|done|].
  cbn [mbind option_bind]. rewrite Hr. cbn [mbind option_bind]. rewrite Hrun. cbn [mbind option_bind].
  rewrite Hdij. cbn [mbind option_bind].
  destruct (add_shortcuts_ok (e_target e) node c (e_data e) h2 h3
    (MkContractState h3 (cs_inserted s) (cs_stats s)) r Hdone) as (s' & new & Hadd & Hwf' & Hst & Hins & Hsf);
    [done|done|lia|done|done|done|].
  exists s', new. done.
Qed.

(** ** The simulated contraction *)

(** The statistics may overflow; otherwise the heap is left well-formed. *)
Lemma simulate_shortcut node source c in_data s s' i e :
  heap_wf X c (cs_heap s) -> vget (edge_list g) i = Some e ->
  (ce_forward (e_data e) = true -> is_Some (queue (cs_heap s) !! e_target e)) ->
  add_shortcut true g node source in_data s i = Some s' ->
  heap_wf X c (cs_heap s') /\ queue (cs_heap s') = queue (cs_heap s).
Proof.
  intros Hwf Hi Htgt. unfold add_shortcut, GetEdgeData, GetTarget. rewrite Hi.
  cbn [fmap option_fmap option_map mbind option_bind].
  destruct (ce_forward (e_data e)); cbn [negb]; [|by intros [= <-]].
  destruct (Htgt eq_refl) as [[[w d] q] Hq].
  destruct (read_slot X c (cs_heap s) (e_target e) (w, d, q) Hwf Hq) as (j & hn & h2 & Hs & _ & Hwf2 & Hq2).
  unfold GetKey. rewrite Hs. cbn [mbind option_bind]. case_ltb; [|by intros [= <-]].
  intros Hrun. by inv_bind Hrun; subst s'.
Qed.

Lemma simulate_shortcuts node source c in_data s s' r l :
  heap_wf X c (cs_heap s) -> Forall2 (fun i e => vget (edge_list g) i = Some e) r l ->
  (forall e, e ∈ l -> ce_forward (e_data e) = true -> is_Some (queue (cs_heap s) !! e_target e)) ->
  fold_m (add_shortcut true g node source in_data) s r = Some s' -> heap_wf X c (cs_heap s').
Proof.
  intros Hwf HF. revert s Hwf. induction HF as [|i e r l Hi HF IH]; intros s Hwf Htgt; cbn [fold_m].
  { by intros [= <-]. }
  destruct (add_shortcut true g node source in_data s i) as [s1|] eqn:E; [|done]. cbn [mbind option_bind].
  destruct (simulate_shortcut node source c in_data s s1 i e Hwf Hi) as [Hwf1 Hq1]; [|done|].
  { apply Htgt. by left. }
  apply IH; [done|]. intros e' He'. rewrite Hq1. apply Htgt. by right.
Qed.

Lemma simulate_in_edge node c s s' j e r :
  heap_wf X (c + 1) (cs_heap s) -> node ∈ R -> e ∈ adj g node -> vget (edge_list g) j = Some e ->
  GetAdjacentEdgeRange node g = Some r ->
  Forall2 (fun i e => vget (edge_list g) i = Some e) r (adj g node) ->
  contract_in_edge true g node s j = Some s' -> heap_wf X c (cs_heap s').
Proof.
  intros Hwf Hnode He Hj Hr HF. unfold contract_in_edge, GetEdgeData, GetTarget. rewrite Hj.
  cbn [fmap option_fmap option_map mbind option_bind].
  destruct (count_deleted (e_data e) (cs_stats s)) as [st|]; [|done]. cbn [mbind option_bind].
  destruct (ce_backward (e_data e)) eqn:Hb; cbn [negb].
  2:{ intros [= <-]. eapply heap_wf_weaken; [|done]. lia. }
  destruct (search_ok node c s e r 1000 Hwf Hnode He) as (h1 & h2 & md & nt & h3 & -> & Hrun & Hdij & Hdone & _ & Htgt);
    [lia|done|].
  cbn [mbind option_bind]. rewrite Hr. cbn [mbind option_bind]. rewrite Hrun. cbn [mbind option_bind].
  rewrite Hdij. cbn [mbind option_bind]. apply (simulate_shortcuts _ _ _ _ _ _ _ (adj g node)); try done.
  by destruct Hdone.
Qed.

Lemma simulate_ok node c s s' :
  heap_wf X (c + vsize (adj g node)) (cs_heap s) -> node ∈ R ->
  ContractNode true g node s = Some s' -> heap_wf X c (cs_heap s').
Proof.
  intros Hwf Hnode. unfold ContractNode.
  destruct (adj_range g node (lo_wf R g live) (lo_nodes R g live node Hnode)) as (r & Hr & HF).
  rewrite Hr. cbn [mbind option_bind].
  assert (forall r1 l1, Forall2 (fun i e => vget (edge_list g) i = Some e) r1 l1 ->
    (forall e, e ∈ l1 -> e ∈ adj g node) -> forall s0, heap_wf X (c + vsize l1) (cs_heap s0) ->
    fold_m (contract_in_edge true g node) s0 r1 = Some s' -> heap_wf X c (cs_heap s')) as Hloop.
  { induction 1 as [|i e r1 l1 Hi HF1 IH]; intros Hin s0 Hwf0; cbn [fold_m].
    { intros [= <-]. eapply heap_wf_weaken; [|done]. lia. }
    destruct (contract_in_edge true g node s0 i) as [s1|] eqn:E; [|done]. cbn [mbind option_bind].
    apply IH; [intros e' He'; apply Hin; by right|].
    apply (simulate_in_edge node (c + vsize l1) s0 s1 i e r); try done; [|apply Hin; by left].
    eapply heap_wf_weaken; [|done]. unfold vsize. simpl. lia. }
  destruct (fold_m (contract_in_edge true g node) s r) as [s1|] eqn:E; [|done]. cbn [mbind option_bind].
  intros [= <-]. by apply (Hloop r (adj g node) HF (fun _ x => x) s).
Qed.

(** What the contraction of [node] adds before the merge. *)
Definition contraction_of (node : N) (ins : list cedge) (new : list ContractorEdge) : Prop :=
  (forall e_in e_out, e_in ∈ ins -> ce_backward (e_data e_in) = true ->
     e_out ∈ adj g node -> ce_forward (e_data e_out) = true ->
     shortcut_edges (e_target e_in) (e_target e_out) node (Z.of_N (via (e_data e_in) (e_data e_out)))
       (e_data e_in) (e_data e_out) ⊆ new \/
     within (avoid node (fwd g)) (e_target e_in) (e_target e_out) (via (e_data e_in) (e_data e_out))) /\
  (forall x, x ∈ new -> exists e_in e_out, e_in ∈ ins /\ ce_backward (e_data e_in) = true /\
     e_out ∈ adj g node /\ ce_forward (e_data e_out) = true /\ e_target e_out <> e_target e_in /\
     x ∈ shortcut_edges (e_target e_in) (e_target e_out) node (Z.of_N (via (e_data e_in) (e_data e_out)))
       (e_data e_in) (e_data e_out) /\
     shortcut_edges (e_target e_in) (e_target e_out) node (Z.of_N (via (e_data e_in) (e_data e_out)))
       (e_data e_in) (e_data e_out) ⊆ new) /\
  (vsize new <= 2 * vsize ins * vsize (adj g node))%N.

Lemma contraction_of_snoc node ins new e new' :
  contraction_of node ins new ->
  (if ce_backward (e_data e) then shortcuts_for node (e_target e) (e_data e) (adj g node) new' else new' = []) ->
  contraction_of node (ins ++ [e]) (new ++ new').
Proof.
  intros (Hc & Hs & Hlen) He. split_and!.
  - intros e_in e_out [Hin|Hin]%elem_of_app Hb Hout Hf.
    + destruct (Hc e_in e_out Hin Hb Hout Hf) as [|]; [left; set_solver|by right].
    + apply list_elem_of_singleton in Hin as ->. rewrite Hb in He.
      destruct (proj1 He e_out Hout Hf) as [|]; [left; set_solver|by right].
  - intros x [Hx|Hx]%elem_of_app.
    + destruct (Hs x Hx) as (e_in & e_out & Hin & Hb & Hout & Hf & Hne & Hxs & Hsub). exists e_in, e_out.
      split_and!; try done; set_solver.
    + destruct (ce_backward (e_data e)) eqn:Hb; [|subst new'; by apply elem_of_nil in Hx].
      destruct (proj1 (proj2 He) x Hx) as (e_out & Hout & Hf & Hne & Hxs & Hsub). exists e, e_out.
      split_and!; try done; set_solver.
  - rewrite !vsize_app. change (vsize [e]) with 1%N.
    destruct (ce_backward (e_data e)); [destruct He as (_ & _ & He); lia|subst new'].
    change (vsize []) with 0%N. lia.
Qed.

Lemma contract_edges_ok node c s :
  heap_wf X (c + vsize (adj g node)) (cs_heap s) -> node ∈ R ->
  exists r s' new, GetAdjacentEdgeRange node g = Some r /\
    fold_m (contract_in_edge false g node) s r = Some s' /\
    heap_wf X c (cs_heap s') /\ cs_stats s' = cs_stats s /\
    cs_inserted s' = cs_inserted s ++ new /\ contraction_of node (adj g node) new.
Proof.
  intros Hwf Hnode.
  destruct (adj_range g node (lo_wf R g live) (lo_nodes R g live node Hnode)) as (r & Hr & HF).
  exists r.
  destruct (fold_m_ind (contract_in_edge false g node)
    (fun done s' => exists new, heap_wf X (c + (vsize (adj g node) - vsize done)) (cs_heap s') /\
       cs_stats s' = cs_stats s /\ cs_inserted s' = cs_inserted s ++ new /\
       contraction_of node (take (length done) (adj g node)) new) r s)
    as (s' & Hrun & new & Hwf' & Hst & Hins & Hco).
  - exists []. rewrite app_nil_r. split_and!; [by rewrite N.sub_0_r|done|done|].
    split_and!; [by intros ?? ?%elem_of_nil|by intros ? ?%elem_of_nil|].
    change (vsize []) with 0%N. lia.
  - intros pre j post s1 Hl (new & Hwf1 & Hst1 & Hins1 & Hco1). pose proof HF as HF'.
    rewrite Hl in HF'. apply Forall2_app_inv_l in HF' as (l1 & l2 & Hf1 & Hf2 & Hadj).
    apply Forall2_cons_inv_l in Hf2 as (e & l3 & He & Hf3 & ->).
    apply Forall2_length in Hf1 as Hlen.
    assert (vsize (adj g node) = vsize pre + vsize l3 + 1)%N as Hsz.
    { rewrite Hadj. unfold vsize. rewrite length_app, Hlen. simpl. lia. }
    destruct (contract_in_edge_ok node (c + (vsize (adj g node) - vsize (pre ++ [j]))) s1 j e r)
      as (s2 & new' & Hrun & Hwf2 & Hst2 & Hins2 & Hsc); [| |rewrite Hadj; set_solver|done|done|done|].
    { rewrite vsize_app. change (vsize [j]) with 1%N.
      replace (c + (vsize (adj g node) - (vsize pre + 1)) + 1)%N with (c + (vsize (adj g node) - vsize pre))%N by lia.
      done. }
    { done. }
    exists s2. split; [done|]. exists (new ++ new').
    split_and!; [done|congruence|by rewrite Hins2, Hins1, app_assoc|].
    rewrite length_app. simpl. rewrite Hadj in Hco1 |- *.
    rewrite Hlen in Hco1 |- *. rewrite take_app_length in Hco1.
    replace (l1 ++ e :: l3) with ((l1 ++ [e]) ++ l3) by (by rewrite <- app_assoc).
    replace (length l1 + 1)%nat with (length (l1 ++ [e])) by (by rewrite length_app).
    rewrite take_app_length. by apply contraction_of_snoc.
  - exists s', new. split; [done|]. split; [done|].
    apply Forall2_length in HF as Hlen. rewrite Hlen, take_ge in Hco by done.
    split_and!; try done. eapply heap_wf_weaken; [|done]. lia.
Qed.
End search.

(** ** Merging the inserted edges *)

(** The arcs a list of edges records, in both directions. *)
Definition lfwd (L : list ContractorEdge) : arcs := fun u v w =>
  exists x, x ∈ L /\ ie_source x = u /\ ie_target x = v /\ ce_forward (ie_data x) = true /\
    ce_distance (ie_data x) = w.

Definition lbwd (L : list ContractorEdge) : arcs := fun u v w =>
  exists x, x ∈ L /\ ie_source x = u /\ ie_target x = v /\ ce_backward (ie_data x) = true /\
    ce_distance (ie_data x) = w.

Definition same_arcs (L L' : list ContractorEdge) : Prop :=
  forall u v w, (lfwd L u v w <-> lfwd L' u v w) /\ (lbwd L u v w <-> lbwd L' u v w).

(** Edges [ContractNode] inserts for [node]. *)
Definition shortcut_of (node : N) (x : ContractorEdge) : Prop :=
  ce_shortcut (ie_data x) = true /\ ce_id (ie_data x) = node /\
  ce_forward (ie_data x) || ce_backward (ie_data x) = true.

Lemma lfwd_app L L' u v w : lfwd (L ++ L') u v w <-> lfwd L u v w \/ lfwd L' u v w.
Proof. unfold lfwd. set_solver. Qed.

Lemma lbwd_app L L' u v w : lbwd (L ++ L') u v w <-> lbwd L u v w \/ lbwd L' u v w.
Proof. unfold lbwd. set_solver. Qed.

Lemma same_arcs_app L1 L2 L1' L2' : same_arcs L1 L1' -> same_arcs L2 L2' -> same_arcs (L1 ++ L2) (L1' ++ L2').
Proof.
  intros H1 H2 u v w. destruct (H1 u v w), (H2 u v w). rewrite !lfwd_app, !lbwd_app. tauto.
Qed.

Lemma same_arcs_refl L : same_arcs L L.
Proof. intros u v w. tauto. Qed.

Lemma same_arcs_trans L1 L2 L3 : same_arcs L1 L2 -> same_arcs L2 L3 -> same_arcs L1 L3.
Proof. intros H1 H2 u v w. destruct (H1 u v w), (H2 u v w). tauto. Qed.

Lemma same_arcs_perm L L' : L ≡ₚ L' -> same_arcs L L'.
Proof. intros Hp u v w. unfold lfwd, lbwd. by setoid_rewrite Hp. Qed.

(** Two edges that agree on everything but the directions. *)
Definition mergeable (edge o : ContractorEdge) : Prop :=
  ie_source o = ie_source edge /\ ie_target o = ie_target edge /\
  ce_distance (ie_data o) = ce_distance (ie_data edge) /\
  ce_shortcut (ie_data o) = ce_shortcut (ie_data edge).

Lemma same_arcs_merge edge o : mergeable edge o -> same_arcs [edge; o] [or_flags edge o].
Proof.
  intros (H1 & H2 & H3 & _) u v w. unfold lfwd, lbwd, or_flags. split; split.
  - intros (x & Hx & Hs & Ht & Hf & Hd). eexists. split; [by left|]. simpl.
    apply elem_of_cons in Hx as [->|Hx%list_elem_of_singleton].
    + rewrite Hf, orb_true_r. split_and!; congruence.
    + subst x. rewrite Hf. done.
  - intros (x & Hx%list_elem_of_singleton & Hs & Ht & Hf & Hd). subst x. simpl in *.
    apply orb_true_iff in Hf as [Hf|Hf]; [exists o|exists edge]; split_and!; try done; try congruence; set_solver.
  - intros (x & Hx & Hs & Ht & Hf & Hd). eexists. split; [by left|]. simpl.
    apply elem_of_cons in Hx as [->|Hx%list_elem_of_singleton].
    + rewrite Hf, orb_true_r. split_and!; congruence.
    + subst x. rewrite Hf. done.
  - intros (x & Hx%list_elem_of_singleton & Hs & Ht & Hf & Hd). subst x. simpl in *.
    apply orb_true_iff in Hf as [Hf|Hf]; [exists o|exists edge]; split_and!; try done; try congruence; set_solver.
Qed.

Lemma find_mergeable_ok others edge inserted :
  Forall (fun i => i < vsize inserted)%N others ->
  exists r, find_mergeable others edge inserted = Some r /\
    forall i, r = Some i -> i ∈ others /\ exists o, vget inserted i = Some o /\ mergeable edge o.
Proof.
  induction 1 as [|i others Hi Hall IH]; [by exists None|]. cbn [find_mergeable].
  destruct (vget_lt inserted i Hi) as [o Ho]. rewrite Ho. cbn [mbind option_bind].
  destruct IH as (r & Hr & Hspec).
  assert (forall j, r = Some j -> j ∈ i :: others /\ exists o, vget inserted j = Some o /\ mergeable edge o) as Hs'.
  { intros j Hj. destruct (Hspec j Hj) as [Hin Hex]. split; [by right|done]. }
  destruct (N.eqb_spec (ie_source o) (ie_source edge)); cbn [negb]; [|by exists r].
  destruct (N.eqb_spec (ie_target o) (ie_target edge)); cbn [negb]; [|by exists r].
  destruct (N.eqb_spec (ce_distance (ie_data o)) (ce_distance (ie_data edge))); cbn [negb]; [|by exists r].
  destruct (Bool.eqb _ _) eqn:Eb; cbn [negb]; [|by exists r]. apply eqb_prop in Eb.
  exists (Some i). split; [done|]. intros j [= <-]. split; [by left|]. exists o. split; [done|]. done.
Qed.

(** The edges the loop still has: those kept, and those not yet visited. *)
Definition pending (first n i : N) (v : list ContractorEdge) : list ContractorEdge :=
  drop (N.to_nat first) (take (N.to_nat n) v) ++ drop (N.to_nat i) v.

Lemma merge_step_ok node first new prefix v n i :
  vsize prefix = first -> (first <= n <= i)%N -> (i < vsize v)%N -> (vsize v < 4294967295)%N ->
  take (N.to_nat first) v = prefix ->
  same_arcs (pending first n i v) new -> Forall (shortcut_of node) (pending first n i v) ->
  exists v' n', merge_step (vsize v) (v, n) i = Some (v', n') /\ vsize v' = vsize v /\
    (first <= n' <= i + 1)%N /\ take (N.to_nat first) v' = prefix /\
    same_arcs (pending first n' (i + 1) v') new /\ Forall (shortcut_of node) (pending first n' (i + 1) v').
Proof.
  intros Hp Hn Hi Hsz Htake Harcs Hall. unfold merge_step.
  destruct (vget_lt v i Hi) as [edge He]. rewrite He. cbn [mbind option_bind].
  rewrite (uadd_small i 1) by lia. rewrite vget_lookup in He.
  assert (pending first n i v = drop (N.to_nat first) (take (N.to_nat n) v) ++ edge :: drop (N.to_nat (i + 1)) v) as Hpend.
  { unfold pending. f_equal. rewrite (drop_S v edge) by done. do 2 f_equal. lia. }
  rewrite Hpend in Harcs, Hall. apply Forall_app in Hall as [Hall1 [Hedge Hall2]%Forall_cons].
  destruct (find_mergeable_ok (irange (i + 1) (vsize v)) edge v) as (r & -> & Hr).
  { apply Forall_forall. intros j Hj. apply elem_of_irange in Hj; lia. }
  cbn [mbind option_bind]. destruct r as [j|].
  - destruct (Hr j eq_refl) as (Hj & o & Ho & Hm). apply elem_of_irange in Hj; [|lia].
    rewrite vupd_lt by lia. cbn [mbind option_bind]. eexists _, n. split; [done|].
    rewrite vsize_alter. split; [done|]. split; [lia|].
    rewrite <- (insert_alter _ _ _ o) by done. split; [by rewrite take_insert_ge by lia|].
    assert (pending first n (i + 1) (<[N.to_nat j := or_flags edge o]> v) =
      drop (N.to_nat first) (take (N.to_nat n) v) ++
      <[(N.to_nat j - N.to_nat (i + 1))%nat := or_flags edge o]> (drop (N.to_nat (i + 1)) v)) as ->.
    { unfold pending. rewrite take_insert_ge by lia. f_equal.
      by rewrite drop_insert_ge by lia. }
    set (k := (N.to_nat j - N.to_nat (i + 1))%nat). set (B := drop (N.to_nat (i + 1)) v) in *.
    assert (B !! k = Some o) as Hk.
    { unfold B, k. rewrite lookup_drop. rewrite vget_lookup in Ho. rewrite <- Ho. f_equal. lia. }
    apply lookup_lt_Some in Hk as Hklt.
    rewrite insert_take_drop by done. rewrite <- (take_drop_middle B k o Hk) in Harcs, Hall2.
    apply Forall_app in Hall2 as [HB1 [Ho' HB2]%Forall_cons].
    split.
    + eapply same_arcs_trans; [|exact Harcs]. apply same_arcs_app; [apply same_arcs_refl|].
      eapply same_arcs_trans; [apply same_arcs_perm; symmetry; apply Permutation_middle|].
      eapply same_arcs_trans; [|apply same_arcs_perm; apply perm_skip, Permutation_middle].
      change (or_flags edge o :: take k B ++ drop (S k) B) with ([or_flags edge o] ++ (take k B ++ drop (S k) B)).
      change (edge :: o :: take k B ++ drop (S k) B) with ([edge; o] ++ (take k B ++ drop (S k) B)).
      apply same_arcs_app; [|apply same_arcs_refl]. intros u v' w.
      destruct (same_arcs_merge edge o Hm u v' w). tauto.
    + apply Forall_app. split; [done|]. apply Forall_app. split; [done|]. apply Forall_cons. split; [|done].
      destruct Ho' as (Hs' & Hi' & Hf'). unfold shortcut_of, or_flags in *. cbn [ie_data ce_shortcut ce_id ce_forward ce_backward].
      split_and!; [done|done|].
      apply orb_true_iff in Hf' as [-> | ->]; simpl; [done|]. apply orb_true_r.
  - rewrite vset_lt by lia. cbn [mbind option_bind]. rewrite (uadd_small n 1) by lia.
    eexists _, (n + 1)%N. split; [done|]. rewrite vsize_insert. split; [done|]. split; [lia|].
    split; [by rewrite take_insert_ge by lia|].
    assert (pending first (n + 1) (i + 1) (<[N.to_nat n := edge]> v) =
      (drop (N.to_nat first) (take (N.to_nat n) v) ++ [edge]) ++ drop (N.to_nat (i + 1)) v) as ->.
    { unfold pending. rewrite drop_insert_lt by lia. f_equal.
      replace (N.to_nat (n + 1)) with (S (N.to_nat n)) by lia.
      rewrite (take_S_r _ _ edge) by (apply list_lookup_insert_eq; unfold vsize in *; lia).
      rewrite take_insert_ge by lia. rewrite drop_app_le; [done|].
      rewrite length_take. unfold vsize in *. lia. }
    rewrite <- app_assoc. split; [done|]. apply Forall_app. split; [done|]. by apply Forall_cons.
Qed.

Lemma merge_inserted_ok node prefix new :
  Forall (shortcut_of node) new -> (vsize (prefix ++ new) < 4294967295)%N ->
  exists merged, merge_inserted (vsize prefix) (prefix ++ new) = Some (prefix ++ merged) /\
    same_arcs merged new /\ Forall (shortcut_of node) merged /\ (vsize merged <= vsize new)%N.
Proof.
  intros Hall Hsz. unfold merge_inserted. set (v0 := prefix ++ new) in *.
  assert (vsize prefix <= vsize v0)%N as Hle by (unfold v0; rewrite vsize_app; lia).
  destruct (fold_m_ind (merge_step (vsize v0))
    (fun done s => let '(v, n) := s in let i := (vsize prefix + vsize done)%N in
       vsize v = vsize v0 /\ (vsize prefix <= n <= i)%N /\ take (N.to_nat (vsize prefix)) v = prefix /\
       same_arcs (pending (vsize prefix) n i v) new /\ Forall (shortcut_of node) (pending (vsize prefix) n i v))
    (irange (vsize prefix) (vsize v0)) (v0, vsize prefix)) as ([v n] & -> & Hv & Hn & Htake & Harcs & Hs).
  - assert (pending (vsize prefix) (vsize prefix) (vsize prefix + 0) v0 = new) as Hpend.
    { unfold pending, v0, vsize. rewrite N.add_0_r, Nat2N.id, take_app_length, drop_ge, drop_app_length by done. done. }
    change (vsize (@nil N)) with 0%N. cbn zeta. rewrite Hpend. split_and!; [done|lia|lia| |apply same_arcs_refl|done].
    unfold v0, vsize. by rewrite Nat2N.id, take_app_length.
  - intros pre i post [v n] Hl (Hv & Hn & Htake & Harcs & Hs).
    assert (i = vsize prefix + vsize pre)%N as Hi.
    { assert (irange (vsize prefix) (vsize v0) !! length pre = Some i) as Hlk
        by (rewrite Hl, lookup_app_r, Nat.sub_diag by lia; done).
      rewrite irange_lookup in Hlk by lia. case_decide; [|done]. injection Hlk as <-. done. }
    assert (i < vsize v0)%N as Hlt.
    { assert (i ∈ irange (vsize prefix) (vsize v0)) as Hin by (rewrite Hl; set_solver).
      apply elem_of_irange in Hin; lia. }
    rewrite <- Hi in Hn, Harcs, Hs. rewrite <- Hv.
    destruct (merge_step_ok node (vsize prefix) new prefix v n i) as (v' & n' & Hst & Hv' & Hn' & Ht' & Ha' & Hs');
      [done|done|lia|lia|done|done|done|].
    exists (v', n'). split; [done|]. rewrite vsize_app. change (vsize [i]) with 1%N.
    replace (vsize prefix + (vsize pre + 1))%N with (i + 1)%N by lia. done.
  - cbn [mbind option_bind].
    assert (vsize (irange (vsize prefix) (vsize v0)) = vsize v0 - vsize prefix)%N as Hlen.
    { unfold vsize at 1. rewrite length_irange by lia. lia. }
    rewrite Hlen in Hn, Harcs, Hs.
    replace (vsize prefix + (vsize v0 - vsize prefix))%N with (vsize v0) in * by lia.
    assert (pending (vsize prefix) n (vsize v0) v = drop (N.to_nat (vsize prefix)) (take (N.to_nat n) v)) as Hpend.
    { unfold pending. rewrite (drop_ge v) by (unfold vsize in *; lia). apply app_nil_r. }
    rewrite Hpend in Harcs, Hs. eexists. split; [|split_and!; [exact Harcs|exact Hs|]].
    2:{ unfold v0 in Hn. rewrite vsize_app in Hn. unfold vsize in *. rewrite length_drop, length_take. lia. }
    f_equal. rewrite <- (take_drop (N.to_nat (vsize prefix)) (take (N.to_nat n) v)) at 1. f_equal.
    rewrite take_take. rewrite <- Htake at 2. f_equal. lia.
Qed.

(** ** ContractNode *)

(** The shortcuts of [node]: every path over an incoming and an outgoing arc
    has a shortcut, recorded at both ends, or a witness; every shortcut is
    such a path between different nodes. *)
Record node_shortcuts (g : ContractorGraph) (node : N) (L : list ContractorEdge) : Prop := {
  ns_cover a b w1 w2 : bwd g node a w1 -> fwd g node b w2 ->
    (lfwd L a b (w1 + w2)%N /\ lbwd L b a (w1 + w2)%N) \/ within (avoid node (fwd g)) a b (w1 + w2)%N;
  ns_fwd a b w : lfwd L a b w ->
    a <> b /\ exists w1 w2, bwd g node a w1 /\ fwd g node b w2 /\ w = (w1 + w2)%N;
  ns_bwd a b w : lbwd L b a w ->
    a <> b /\ exists w1 w2, bwd g node a w1 /\ fwd g node b w2 /\ w = (w1 + w2)%N;
  ns_mirror a b w : lfwd L a b w <-> lbwd L b a w;
  ns_shape : Forall (shortcut_of node) L;
}.

Lemma shortcut_edges_arcs source target node d in_data out_data x :
  (d < 4294967296)%N ->
  x ∈ shortcut_edges source target node (Z.of_N d) in_data out_data ->
  shortcut_of node x /\ ce_distance (ie_data x) = d /\
  (ie_source x = source /\ ie_target x = target /\ ce_forward (ie_data x) = true /\ ce_backward (ie_data x) = false \/
   ie_source x = target /\ ie_target x = source /\ ce_forward (ie_data x) = false /\ ce_backward (ie_data x) = true).
Proof.
  intros Hd Hx. unfold shortcut_edges in Hx. rewrite of_int_nonneg, N2Z.id in Hx by lia.
  apply elem_of_cons in Hx as [->|Hx%list_elem_of_singleton]; [|subst x]; unfold shortcut_of; simpl; tauto.
Qed.

Lemma shortcut_edges_in source target node d in_data out_data L :
  (d < 4294967296)%N -> shortcut_edges source target node (Z.of_N d) in_data out_data ⊆ L ->
  lfwd L source target d /\ lbwd L target source d.
Proof.
  intros Hd Hsub. unfold shortcut_edges in Hsub. rewrite of_int_nonneg, N2Z.id in Hsub by lia.
  split; eexists; (split; [apply Hsub|]).
  - by left.
  - simpl. tauto.
  - right. by left.
  - simpl. tauto.
Qed.

Section contract_node.
  Context {St : Type} `{IndexStorageLaws St}.
  Context (X R : gset N) (g : ContractorGraph).
  Hypothesis live : live_ok R g.
  Hypothesis R_X : R ⊆ X.
  Hypothesis X_small : (N.of_nat (size X) < 2147483647)%N.
  #[local] Set Default Proof Using "Type live R_X X_small".

Lemma contract_node_ok node c (s : contract_state St) :
  let deg := vsize (adj g node) in
  heap_wf X (c + deg) (cs_heap s) -> node ∈ R ->
  (vsize (cs_inserted s) + 2 * deg * deg < 4294967295)%N ->
  exists s' L, ContractNode false g node s = Some s' /\ heap_wf X c (cs_heap s') /\
    cs_inserted s' = cs_inserted s ++ L /\ node_shortcuts g node L /\ (vsize L <= 2 * deg * deg)%N.
Proof.
  intros deg Hwf Hnode Hroom.
  destruct (contract_edges_ok X R g live R_X X_small node c s Hwf Hnode)
    as (r & s' & new & Hr & Hrun & Hwf' & Hst & Hins & Hcov & Hsnd & Hlen).
  unfold ContractNode. rewrite Hr. cbn [mbind option_bind]. rewrite Hrun. cbn [mbind option_bind].
  assert (forall e_in e_out, e_in ∈ adj g node -> e_out ∈ adj g node ->
    (via (e_data e_in) (e_data e_out) < 4294967296)%N) as Hvia.
  { intros e_in e_out H1 H2. destruct (lo_edges R g live node e_in Hnode H1) as (_ & _ & ?).
    destruct (lo_edges R g live node e_out Hnode H2) as (_ & _ & ?). unfold via, max_weight in *. lia. }
  assert (Forall (shortcut_of node) new) as Hshape.
  { apply Forall_forall. intros x Hx. destruct (Hsnd x Hx) as (e1 & e2 & He1 & _ & He2 & _ & _ & Hin & _).
    by apply shortcut_edges_arcs in Hin as [? _]; [|apply Hvia]. }
  destruct (merge_inserted_ok node (cs_inserted s) new Hshape) as (L & Hmerge & Hsame & HL & HLlen).
  { rewrite vsize_app. lia. }
  rewrite Hins, Hmerge. cbn [mbind option_bind]. eexists _, L. split; [done|].
  cbn [cs_heap cs_inserted]. split_and!; [done|done| |unfold deg; lia]. constructor; [| | | |done].
  - intros a b w1 w2 (e1 & He1 & <- & Hb & <-) (e2 & He2 & <- & Hf & <-).
    destruct (Hcov e1 e2 He1 Hb He2 Hf) as [Hc|Hc]; [left|right; exact Hc].
    apply shortcut_edges_in in Hc as [Hc1 Hc2]; [|by apply Hvia].
    destruct (Hsame (e_target e1) (e_target e2) (via (e_data e1) (e_data e2))) as [Hl _].
    destruct (Hsame (e_target e2) (e_target e1) (via (e_data e1) (e_data e2))) as [_ Hr'].
    split; [by apply Hl|by apply Hr'].
  - intros a b w Hl. apply (proj1 (Hsame a b w)) in Hl as (x & Hx & Hs & Ht & Hf & Hd).
    destruct (Hsnd x Hx) as (e1 & e2 & He1 & Hb1 & He2 & Hf2 & Hne & Hin & _).
    apply shortcut_edges_arcs in Hin as (_ & Hdist & [(H1 & H2 & _)|(_ & _ & H3 & _)]);
      [|congruence|by apply Hvia].
    split; [congruence|]. exists (ce_distance (e_data e1)), (ce_distance (e_data e2)).
    split_and!; [exists e1; split_and!; congruence|exists e2; split_and!; congruence|by rewrite <- Hd, Hdist].
  - intros a b w Hl. apply (proj2 (Hsame b a w)) in Hl as (x & Hx & Hs & Ht & Hf & Hd).
    destruct (Hsnd x Hx) as (e1 & e2 & He1 & Hb1 & He2 & Hf2 & Hne & Hin & _).
    apply shortcut_edges_arcs in Hin as (_ & Hdist & [(_ & _ & _ & H4)|(H1 & H2 & _)]);
      [congruence| |by apply Hvia].
    split; [congruence|]. exists (ce_distance (e_data e1)), (ce_distance (e_data e2)).
    split_and!; [exists e1; split_and!; congruence|exists e2; split_and!; congruence|by rewrite <- Hd, Hdist].
  - intros a b w.
    assert (forall a b w x, x ∈ new -> ce_distance (ie_data x) = w ->
      (ie_source x = a /\ ie_target x = b /\ ce_forward (ie_data x) = true \/
       ie_source x = b /\ ie_target x = a /\ ce_backward (ie_data x) = true) ->
      lfwd new a b w /\ lbwd new b a w) as Hpair.
    { clear a b w. intros a b w x Hx <- Hends.
      destruct (Hsnd x Hx) as (e1 & e2 & He1 & _ & He2 & _ & _ & Hin & Hsub).
      apply shortcut_edges_in in Hsub; [|by apply Hvia].
      apply shortcut_edges_arcs in Hin as (_ & -> & Hin); [|by apply Hvia].
      destruct Hends as [(<- & <- & Hf)|(<- & <- & Hb)], Hin as [(-> & -> & Hf' & Hb')|(-> & -> & Hf' & Hb')];
        congruence || done. }
    rewrite (proj1 (Hsame a b w)), (proj2 (Hsame b a w)). split; intros (x & Hx & Hs & Ht & Hf & Hd).
    + apply (Hpair a b w x Hx Hd). by left.
    + apply (Hpair a b w x Hx Hd). by right.
Qed.
End contract_node.
