(* ===== verification/Independence.v ===== *)
(** * Contractor/Contractor.h: independent nodes

    [IsNodeIndependent] compares a node with everything at most two hops
    away; the tie break [bias] is a strict total order, so no two nodes that
    are adjacent or have a common neighbour are independent at once. *)

From Stdlib Require Import Floats.SpecFloat.
From S2P Require Import Prelude Types Edges Storage BinaryHeap DynamicGraph Float32 Contractor.

(** ** Floats *)

Definition is_finite (f : float) : Prop :=
  match f with S754_zero _ | S754_finite _ _ _ => True | _ => False end.

Lemma compare_eq_sub x y :
  is_finite x -> is_finite y -> fltb x y = false -> fltb y x = false ->
  exists s, fsub x y = S754_zero s.
Proof.
  intros Hx Hy Hxy Hyx. unfold fltb, SFltb in *.
  destruct x as [sx|sx| |sx mx ex], y as [sy|sy| |sy my ey]; try done.
  - unfold fsub. simpl. destruct (Bool.eqb sx sy); eauto.
    all: destruct sx, sy; simpl; eauto.
  - simpl in *. by destruct sy.
  - simpl in *. by destruct sx.
  - assert (sx = sy /\ mx = my /\ ex = ey) as (-> & -> & ->).
    { simpl in *. destruct sx, sy; try done.
      - destruct (Z.compare_spec ex ey), (Z.compare_spec ey ex); try done; try lia.
        rewrite (Pos.compare_cont_spec mx my), (Pos.compare_cont_spec my mx) in *.
        destruct (Pos.compare_spec mx my), (Pos.compare_spec my mx); simpl in *; try done; try lia.
      - destruct (Z.compare_spec ex ey), (Z.compare_spec ey ex); try done; try lia.
        rewrite (Pos.compare_cont_spec mx my), (Pos.compare_cont_spec my mx) in *.
        destruct (Pos.compare_spec mx my), (Pos.compare_spec my mx); simpl in *; try done; try lia. }
    unfold fsub. cbn [SFsub]. rewrite Z.sub_diag. eexists. reflexivity.
Qed.

Lemma close_if_equal x y :
  is_finite x -> is_finite y -> fltb x y = false -> fltb y x = false ->
  fltb (SFabs (fsub x y)) float_epsilon = true.
Proof.
  intros Hx Hy Hxy Hyx. by destruct (compare_eq_sub x y Hx Hy Hxy Hyx) as [s ->].
Qed.

(** ** The tie break *)

Lemma bias_total h a b : xor_hash_wf h -> exists r, bias h a b = Some r.
Proof.
  intros Hh. unfold bias. destruct (XORFastHash_apply_total h a Hh) as (x & -> & _).
  destruct (XORFastHash_apply_total h b Hh) as (y & -> & _). cbn [mbind option_bind]. eauto.
Qed.

(** [bias] decides every pair of different nodes, in one direction. *)
Lemma bias_antisym h a b :
  bias h a b = Some false -> bias h b a = Some false -> a = b.
Proof.
  unfold bias. destruct (XORFastHash_apply h a) as [x|], (XORFastHash_apply h b) as [y|]; simpl; try done.
  destruct (N.eqb_spec x y), (N.eqb_spec y x); simpl; intros [= H1] [= H2];
    apply N.ltb_ge in H1, H2; lia.
Qed.

(** ** The neighbourhood of a node *)

Section neighbourhood.
  Context (h : XORFastHash) (g : ContractorGraph) (priorities : list float) (R : gset N).
  Hypothesis hash_wf : xor_hash_wf h.
  Hypothesis g_wf : graph_wf g.
  Hypothesis R_nodes : forall u, u ∈ R -> (u < vsize (node_list g))%N.
  Hypothesis R_closed : forall u e, u ∈ R -> e ∈ adj g u -> e_target e ∈ R.
  Hypothesis R_priority : forall u, u ∈ R -> exists p, vget priorities u = Some p /\ is_finite p.
  #[local] Set Default Proof Using "Type hash_wf g_wf R_nodes R_closed R_priority".

(** The nodes at most two hops away. *)
Definition neighbour (u v : N) : Prop := u <> v /\ exists e, e ∈ adj g u /\ e_target e = v.

Definition near (u v : N) : Prop :=
  neighbour u v \/ exists m, neighbour u m /\ u <> v /\ exists e, e ∈ adj g m /\ e_target e = v.

Definition beats (t n : N) : Prop :=
  exists p, vget priorities n = Some p /\ beaten_by h priorities p n t = Some true.

Lemma beaten_total n t p : n ∈ R -> t ∈ R -> vget priorities n = Some p ->
  exists b, beaten_by h priorities p n t = Some b.
Proof.
  intros Hn Ht Hp. unfold beaten_by. destruct (R_priority t Ht) as (q & -> & _). cbn [mbind option_bind].
  destruct (fltb q p); [eauto|]. destruct (fltb _ _); [|eauto]. by apply bias_total.
Qed.

(** Of two different nodes one beats the other. *)
Lemma beats_total a b : a ∈ R -> b ∈ R -> a <> b -> beats a b \/ beats b a.
Proof.
  intros Ha Hb Hab. destruct (R_priority a Ha) as (p & Hp & Fp). destruct (R_priority b Hb) as (q & Hq & Fq).
  destruct (beaten_total b a q Hb Ha Hq) as [[] H1]; [left; by exists q|].
  destruct (beaten_total a b p Ha Hb Hp) as [[] H2]; [right; by exists p|]. exfalso. apply Hab.
  unfold beaten_by in H1, H2. rewrite Hp in H1. rewrite Hq in H2. cbn [mbind option_bind] in H1, H2.
  destruct (fltb p q) eqn:E1; [done|]. destruct (fltb q p) eqn:E2; [done|].
  rewrite (close_if_equal q p) in H1 by done. rewrite (close_if_equal p q) in H2 by done.
  by eapply bias_antisym.
Qed.

Lemma scan_neighbours_ok n p r l : forall acc,
  n ∈ R -> vget priorities n = Some p ->
  Forall2 (fun i e => vget (edge_list g) i = Some e) r l -> (forall e, e ∈ l -> e_target e ∈ R) ->
  exists res, scan_neighbours h g priorities p n r acc = Some res /\
    match res with
    | Some nb => nb = acc ++ filter (fun t => n <> t) (e_target <$> l) /\
        forall e, e ∈ l -> e_target e <> n -> ~ beats (e_target e) n
    | None => exists e, e ∈ l /\ e_target e <> n /\ beats (e_target e) n
    end.
Proof.
  intros acc Hn Hp HF Hl. revert acc. induction HF as [|i e r l Hi HF IH]; intros acc.
  { exists (Some acc). split; [done|]. split; [by rewrite app_nil_r|]. by intros ? ?%elem_of_nil. }
  cbn [scan_neighbours]. unfold GetTarget. rewrite Hi. cbn [mbind option_bind].
  assert (forall e, e ∈ l -> e_target e ∈ R) as Hl' by (intros; apply Hl; by right).
  specialize (IH Hl').
  destruct (N.eqb_spec n (e_target e)) as [E|E].
  - destruct (IH acc) as (res & Hres & Hspec). exists res. split; [done|]. destruct res as [nb|].
    + destruct Hspec as [-> Hnb]. rewrite fmap_cons, filter_cons_False by tauto. split; [done|].
      intros e' [->|He']%elem_of_cons Hne; [congruence|by apply Hnb].
    + destruct Hspec as (e' & He' & Hrest). exists e'. split; [by right|done].
  - assert (e_target e ∈ R) as Ht by (apply Hl; by left).
    destruct (beaten_total n (e_target e) p Hn Ht Hp) as [b Hb]. rewrite Hb. cbn [mbind option_bind].
    destruct b.
    + exists None. split; [done|]. exists e. split; [by left|]. split; [congruence|]. by exists p.
    + destruct (IH (acc ++ [e_target e])) as (res & Hres & Hspec). exists res. split; [done|].
      destruct res as [nb|].
      * destruct Hspec as [-> Hnb]. rewrite fmap_cons, filter_cons_True, <- app_assoc by done. split; [done|].
        intros e' [->|He']%elem_of_cons Hne; [|by apply Hnb]. intros (q & Hq & Hbt). congruence.
      * destruct Hspec as (e' & He' & Hrest). exists e'. split; [by right|done].
Qed.

Lemma scan_second_ok n p r l :
  n ∈ R -> vget priorities n = Some p ->
  Forall2 (fun i e => vget (edge_list g) i = Some e) r l -> (forall e, e ∈ l -> e_target e ∈ R) ->
  exists b, scan_second h g priorities p n r = Some b /\
    (b = true <-> forall e, e ∈ l -> e_target e <> n -> ~ beats (e_target e) n).
Proof.
  intros Hn Hp HF Hl. induction HF as [|i e r l Hi HF IH].
  { exists true. split; [done|]. split; [|done]. by intros _ ? ?%elem_of_nil. }
  cbn [scan_second]. unfold GetTarget. rewrite Hi. cbn [mbind option_bind].
  destruct IH as (b & Hb & Hspec); [intros; apply Hl; by right|].
  destruct (N.eqb_spec n (e_target e)) as [E|E].
  - exists b. split; [done|]. rewrite Hspec. split; intros Hall e' He' Hne; apply Hall; try done.
    + apply elem_of_cons in He' as [->|]; [congruence|done].
    + by right.
  - assert (e_target e ∈ R) as Ht by (apply Hl; by left).
    destruct (beaten_total n (e_target e) p Hn Ht Hp) as [bt Hbt]. rewrite Hbt. cbn [mbind option_bind].
    destruct bt.
    + exists false. split; [done|]. split; [done|]. intros Hall. exfalso. apply (Hall e); [by left|congruence|].
      by exists p.
    + exists b. split; [done|]. rewrite Hspec. split; intros Hall e' He' Hne.
      * apply elem_of_cons in He' as [->|]; [|by apply Hall]. intros (q & Hq & Hb'). congruence.
      * apply Hall; [by right|done].
Qed.

Lemma scan_all_second_ok n p l :
  n ∈ R -> vget priorities n = Some p -> (forall u, u ∈ l -> u ∈ R) ->
  exists b, scan_all_second h g priorities p n l = Some b /\
    (b = true <-> forall u e, u ∈ l -> e ∈ adj g u -> e_target e <> n -> ~ beats (e_target e) n).
Proof.
  intros Hn Hp Hl. induction l as [|u l IH].
  { exists true. split; [done|]. split; [|done]. by intros _ ?? ?%elem_of_nil. }
  cbn [scan_all_second]. assert (u ∈ R) as Hu by (apply Hl; by left).
  destruct (adj_range g u g_wf (R_nodes u Hu)) as (r & -> & HF). cbn [mbind option_bind].
  destruct (scan_second_ok n p r (adj g u) Hn Hp HF) as (b & -> & Hb); [intros; by eapply R_closed|].
  cbn [mbind option_bind]. destruct IH as (b' & Hb' & Hspec); [intros; apply Hl; by right|].
  destruct b.
  - exists b'. split; [done|]. rewrite Hspec. split.
    + intros Hall u' e [->|Hu']%elem_of_cons He Hne; [by apply Hb|by eapply Hall].
    + intros Hall u' e Hu' He Hne. apply (Hall u' e); [by right|done|done].
  - exists false. split; [done|]. split; [done|]. intros Hall. apply Hb. intros e He Hne.
    apply (Hall u e); [by left|done|done].
Qed.

(** [IsNodeIndependent] says that no node at most two hops away beats it. *)
Lemma is_node_independent_ok n : n ∈ R ->
  exists b, IsNodeIndependent h g priorities n = Some b /\
    (b = true <-> forall t, near n t -> ~ beats t n).
Proof.
  intros Hn. destruct (R_priority n Hn) as (p & Hp & _).
  unfold IsNodeIndependent. rewrite Hp. cbn [mbind option_bind].
  destruct (adj_range g n g_wf (R_nodes n Hn)) as (r & -> & HF). cbn [mbind option_bind].
  destruct (scan_neighbours_ok n p r (adj g n) [] Hn Hp HF) as (res & -> & Hres); [intros; by eapply R_closed|].
  cbn [mbind option_bind]. destruct res as [nb|].
  - destruct Hres as [-> Hfirst]. cbn [app].
    assert (forall u, u ∈ unique (sort_ids (filter (fun t => n <> t) (e_target <$> adj g n))) <-> neighbour n u) as Hnb.
    { intros u. rewrite elem_of_unique, elem_of_sort_ids, list_elem_of_filter, list_elem_of_fmap.
      unfold neighbour. naive_solver. }
    destruct (scan_all_second_ok n p (unique (sort_ids (filter (fun t => n <> t) (e_target <$> adj g n)))) Hn Hp)
      as (b & -> & Hb).
    { intros u (_ & e & He & <-)%Hnb. by eapply R_closed. }
    exists b. split; [done|]. rewrite Hb. split.
    + intros Hall t [(Hne & e & He & <-)|(m & Hm & Hne & e & He & <-)].
      * apply Hfirst; [done|congruence].
      * apply (Hall m e); [by apply Hnb|done|congruence].
    + intros Hall u e Hu He Hne. apply Hall. right. exists u. split; [by apply Hnb|].
      split; [congruence|]. by exists e.
  - exists false. split; [done|]. split; [done|]. intros Hall. exfalso.
    destruct Hres as (e & He & Hne & Hb). apply (Hall (e_target e)); [|done]. left. split; [congruence|]. by exists e.
Qed.

(** Two different nodes that are near each other are not both independent. *)
Lemma independent_apart a b :
  a ∈ R -> b ∈ R -> a <> b -> near a b -> near b a ->
  IsNodeIndependent h g priorities a = Some true -> IsNodeIndependent h g priorities b = Some true -> False.
Proof.
  intros Ha Hb Hab Hn1 Hn2 HIa HIb.
  destruct (is_node_independent_ok a Ha) as (x & Hx & Hax). destruct (is_node_independent_ok b Hb) as (y & Hy & Hby).
  assert (x = true) as -> by congruence. assert (y = true) as -> by congruence.
  destruct (beats_total a b Ha Hb Hab) as [Hbt|Hbt].
  - by apply (proj1 Hby eq_refl a).
  - by apply (proj1 Hax eq_refl b).
Qed.
End neighbourhood.
