(* ===== verification/ContractionRound.v ===== *)
(** * Contractor/Contractor.h: one round of Run

    The phases of a round that change the graph. The nodes of an independent
    set are contracted in any distribution over the threads, deleted from
    their neighbours, and their shortcuts are inserted. *)

From S2P Require Import Prelude Types Paths Edges Storage BinaryHeap DynamicGraph Float32 Contractor.
From S2P Require Import WitnessSearch Independence.

(** ** The contraction phase *)

(** The edges inserted by all threads. *)
Definition all_inserted {St} (ts : list (N * ThreadData (St := St))) : list ContractorEdge :=
  concat ((fun td => td_inserted_edges td.2) <$> ts).

Lemma all_inserted_cons {St} td (ts : list (N * ThreadData (St := St))) :
  all_inserted (td :: ts) = td_inserted_edges td.2 ++ all_inserted ts.
Proof. done. Qed.

Section threads.
  Context {St : Type} `{IndexStorageLaws St} (make_storage : N -> St) (X : gset N).

Abbreviation threads := (list (N * ThreadData (St := St))).

Definition threads_ok (c : N) (ts : threads) : Prop := Forall (fun td => heap_wf X c (td_heap td.2)) ts.

(** A fresh heap can be cleared [c] times. *)
Definition storage_ok (c : N) : Prop := forall nodes, exists m, st_rep X c (make_storage nodes) m.

Lemma threads_ok_weaken c c' ts : (c' <= c)%N -> threads_ok c ts -> threads_ok c' ts.
Proof. intros Hc Hok. eapply Forall_impl; [exact Hok|]. intros td. by apply heap_wf_weaken. Qed.

(** Work on one thread appends to the inserted edges. *)
Lemma on_thread_ok {T} nodes t (f : ThreadData (St := St) -> option (ThreadData * T)) (Q : list ContractorEdge -> Prop)
    c k M ts :
  storage_ok (c + k + 1) ->
  (forall d, heap_wf X (c + k) (td_heap d) -> (vsize (td_inserted_edges d) <= M)%N ->
     exists d' r L, f d = Some (d', r) /\ heap_wf X c (td_heap d') /\
       td_inserted_edges d' = td_inserted_edges d ++ L /\ Q L) ->
  threads_ok (c + k) ts -> (vsize (all_inserted ts) <= M)%N ->
  exists ts' r L, on_thread make_storage nodes t f ts = Some (ts', r) /\ threads_ok c ts' /\
    all_inserted ts' ≡ₚ all_inserted ts ++ L /\ Q L.
Proof.
  intros Hs Hf. induction ts as [|[t' d] ts IH]; intros Hok HM; cbn [on_thread].
  - destruct (Hs nodes) as [m Hm]. destruct (clear_wf (D := ContractorHeapData) X (c + k) (MkBinaryHeap [] [] (make_storage nodes)) m Hm) as [Hwf _].
    destruct (Hf (MkThreadData (BinaryHeap_make (make_storage nodes)) [])) as (d' & r & L & -> & Hwf' & Hins & HQ);
      [done|simpl; unfold vsize; simpl; lia|].
    cbn [mbind option_bind]. eexists _, r, L. split; [done|]. split; [by apply Forall_singleton|].
    split; [|done]. unfold all_inserted. simpl. rewrite app_nil_r. by rewrite Hins.
  - apply Forall_cons in Hok as [Hd Hok]. rewrite all_inserted_cons, vsize_app in HM. cbn [snd] in HM.
    destruct (N.eqb_spec t t') as [->|Hne].
    + destruct (Hf d Hd) as (d' & r & L & -> & Hwf' & Hins & HQ); [lia|].
      cbn [mbind option_bind]. eexists _, r, L. split; [done|]. split.
      { apply Forall_cons. split; [done|]. eapply threads_ok_weaken; [|exact Hok]. lia. }
      split; [|done]. rewrite !all_inserted_cons. cbn [snd]. rewrite Hins.
      rewrite <- !app_assoc. apply Permutation_app_head. apply Permutation_app_comm.
    + destruct IH as (ts' & r & L & -> & Hok' & Hp & HQ); [done|lia|].
      cbn [mbind option_bind]. eexists _, r, L. split; [done|]. split.
      { apply Forall_cons. split; [|done]. eapply heap_wf_weaken; [|exact Hd]. lia. }
      split; [|done]. rewrite !all_inserted_cons, Hp. by rewrite app_assoc.
Qed.

End threads.

Section contract.
  Context {St : Type} `{IndexStorageLaws St}.
  Context (make_storage : N -> St) (schedule : N -> N -> N -> list (N * N)).
  Context (X R : gset N) (g : ContractorGraph) (D : N).
  Hypothesis live : live_ok R g.
  Hypothesis R_X : R ⊆ X.
  Hypothesis X_small : (N.of_nat (size X) < 2147483647)%N.
  Hypothesis degree : forall u, u ∈ R -> (vsize (adj g u) <= D)%N.
  #[local] Set Default Proof Using "Type live R_X X_small degree".

(** The contraction of the nodes [remaining[first..]], each on some thread. *)
Lemma contract_phase_ok k nodes remaining first c ts :
  let last_node := vsize remaining in
  (schedule k first last_node).*2 ≡ₚ irange first last_node -> (first <= last_node < 4294967296)%N ->
  (forall r, r ∈ remaining -> rn_id r ∈ R) ->
  storage_ok make_storage X (c + D * (last_node - first) + 1) -> threads_ok X (c + D * (last_node - first)) ts ->
  all_inserted ts = [] -> (2 * D * D * (last_node - first + 1) < 4294967295)%N ->
  exists ts' Ls, contract_phase make_storage schedule k g nodes remaining first ts = Some ts' /\
    threads_ok X c ts' /\ all_inserted ts' ≡ₚ concat Ls /\
    Forall2 (fun tx L => exists r, vget remaining tx.2 = Some r /\ node_shortcuts g (rn_id r) L)
      (schedule k first last_node) Ls /\
    (vsize (concat Ls) <= 2 * D * D * (last_node - first))%N.
Proof.
  intros last_node Hperm Hfl Hids Hst Hts Hnil Hroom. unfold contract_phase. fold last_node.
  assert (vsize (schedule k first last_node) = last_node - first)%N as Hlen.
  { assert (vsize ((schedule k first last_node).*2) = last_node - first)%N as E.
    { rewrite Hperm. unfold vsize. rewrite length_irange by lia. lia. }
    unfold vsize in *. by rewrite length_fmap in E. }
  set (n := (last_node - first)%N) in *.
  destruct (fold_m_ind (contract_position make_storage g nodes remaining)
    (fun done ts' => threads_ok X (c + D * (n - vsize done)) ts' /\ exists Ls, all_inserted ts' ≡ₚ concat Ls /\
       Forall2 (fun tx L => exists r, vget remaining tx.2 = Some r /\ node_shortcuts g (rn_id r) L) done Ls /\
       (vsize (concat Ls) <= 2 * D * D * vsize done)%N)
    (schedule k first last_node) ts) as (ts' & Hrun & Hok & Ls & Hp & HF & Hsz).
  - change (vsize (@nil (N * N))) with 0%N. rewrite N.sub_0_r. split; [done|]. exists [].
    rewrite Hnil. split_and!; [done|constructor|]. change (vsize (concat [])) with 0%N. lia.
  - intros pre [t p] post ts1 Hl (Hok1 & Ls & Hp1 & HF1 & Hsz1).
    assert (vsize pre + vsize post + 1 = n)%N as Hn.
    { rewrite <- Hlen, Hl, vsize_app. unfold vsize. simpl. lia. }
    assert (p ∈ irange first last_node) as Hpin.
    { rewrite <- Hperm. apply list_elem_of_fmap. exists (t, p). split; [done|]. rewrite Hl. set_solver. }
    apply elem_of_irange in Hpin; [|lia]. destruct (vget_lt remaining p) as [r Hr]; [unfold last_node in *; lia|].
    assert (rn_id r ∈ R) as HrR by (apply Hids; rewrite vget_lookup in Hr; by eapply list_elem_of_lookup_2).
    unfold contract_position. rewrite Hr. cbn [mbind option_bind].
    assert (vsize (pre ++ [(t, p)]) = vsize pre + 1)%N as Hpre by (by rewrite vsize_app).
    destruct (on_thread_ok make_storage X nodes t (fun d =>
        s ← ContractNode false g (rn_id r) (MkContractState (td_heap d) (td_inserted_edges d) ContractionStats_default);
        Some (MkThreadData (cs_heap s) (cs_inserted s), tt))
      (fun L => node_shortcuts g (rn_id r) L /\ (vsize L <= 2 * D * D)%N)
      (c + D * (n - (vsize pre + 1))) D (2 * D * D * vsize pre) ts1) as (ts2 & [] & L & -> & Hok2 & Hp2 & HL & HLsz).
    + intros nd. destruct (Hst nd) as [m Hm]. exists m. eapply st_weaken; [|done]. nia.
    + intros d Hd Hdsz. pose proof (degree (rn_id r) HrR) as Hdeg.
      destruct (contract_node_ok X R g live R_X X_small (rn_id r) (c + D * (n - (vsize pre + 1)))
        (MkContractState (td_heap d) (td_inserted_edges d) ContractionStats_default))
        as (s' & L & -> & Hwf' & Hins & Hns & HLs).
      { cbn [cs_heap]. eapply heap_wf_weaken; [|exact Hd]. nia. } { done. }
      { cbn [cs_inserted]. nia. }
      cbn [mbind option_bind]. eexists _, tt, L. split; [done|]. cbn [td_heap td_inserted_edges].
      split_and!; [done|done|done|]. etrans; [exact HLs|]. nia.
    + eapply threads_ok_weaken; [|exact Hok1]. nia.
    + rewrite Hp1. lia.
    + cbn [mbind option_bind]. exists ts2. split; [done|]. rewrite Hpre. split; [done|].
      exists (Ls ++ [L]). split_and!.
      * rewrite Hp2, Hp1, concat_app. simpl. by rewrite app_nil_r.
      * apply Forall2_app; [done|]. constructor; [|constructor]. exists r. split; done.
      * rewrite concat_app, vsize_app. simpl. rewrite app_nil_r. lia.
  - exists ts', Ls. split; [done|]. split_and!; try done.
    + eapply threads_ok_weaken; [|exact Hok]. lia.
    + etrans; [exact Hsz|]. rewrite Hlen. done.
Qed.
End contract.

(** ** The deletion phase *)

(** The edges that do not lead into [l]. *)
Definition not_into (l : list N) (es : list (Edge ContractorEdgeData)) : list (Edge ContractorEdgeData) :=
  filter (fun e => e_target e ∉ l) es.

Lemma list_filter_all {A} (P : A -> Prop) `{!forall x, Decision (P x)} (l : list A) :
  (forall x, x ∈ l -> P x) -> filter P l = l.
Proof.
  induction l as [|x l IH]; [done|]. intros HP. rewrite filter_cons_True by (apply HP; by left).
  f_equal. apply IH. intros y Hy. apply HP. by right.
Qed.

Lemma not_into_nil es : not_into [] es = es.
Proof. apply list_filter_all. intros e He. set_solver. Qed.

Lemma not_into_perm l es es' : es ≡ₚ es' -> not_into l es ≡ₚ not_into l es'.
Proof. intros Hp. unfold not_into. by rewrite Hp. Qed.

Lemma elem_of_not_into l es e : e ∈ not_into l es <-> (e_target e ∉ l) /\ e ∈ es.
Proof. unfold not_into. by rewrite list_elem_of_filter. Qed.

Lemma not_into_snoc l x es : not_into (l ++ [x]) es = filter (fun e => e_target e <> x) (not_into l es).
Proof.
  unfold not_into. rewrite list_filter_filter. apply list_filter_iff. intros e. set_solver.
Qed.

Lemma not_into_absent l x es : (forall e, e ∈ es -> e_target e <> x) -> not_into (l ++ [x]) es = not_into l es.
Proof.
  intros Hx. rewrite not_into_snoc. apply list_filter_all. intros e [_ He]%elem_of_not_into. by apply Hx.
Qed.

Lemma neighbours_of_ok g1 x :
  graph_wf g1 -> (x < vsize (node_list g1))%N ->
  exists l, neighbours_of g1 x = Some l /\ (vsize l <= vsize (adj g1 x))%N /\ forall u, u ∈ l <-> neighbour g1 x u.
Proof.
  intros Hwf Hx. unfold neighbours_of. destruct (adj_range g1 x Hwf Hx) as (r & -> & HF). cbn [mbind option_bind].
  rewrite (fold_m_Forall2 _ _ (fun l e => Some (if negb (e_target e =? x)%N then l ++ [e_target e] else l)) r (adj g1 x) HF)
    by (intros s i e Hi; unfold push_neighbour, GetTarget; by rewrite Hi).
  destruct (fold_m_ind (fun l e => Some (if negb (e_target e =? x)%N then l ++ [e_target e] else l))
    (fun done l => (vsize l <= vsize done)%N /\
       forall u, u ∈ l <-> u <> x /\ exists e, e ∈ done /\ e_target e = u) (adj g1 x) [])
    as (l & -> & Hlen & Hl).
  - split; [done|]. intros u. set_solver.
  - intros pre e post l _ [Hlen Hl]. eexists. split; [done|].
    assert (vsize (pre ++ [e]) = vsize pre + 1)%N as -> by (by rewrite vsize_app).
    destruct (N.eqb_spec (e_target e) x) as [Heq|Hne]; cbn [negb]; split; try (intros u; set_solver); [lia|].
    rewrite vsize_app. change (vsize [e_target e]) with 1%N. lia.
  - cbn [mbind option_bind]. eexists. split; [done|]. split.
    + pose proof (length_unique (sort_ids l)) as Hu. unfold sort_ids in *. rewrite merge_sort_Permutation in Hu at 2.
      unfold vsize in *. lia.
    + intros u. rewrite elem_of_unique, elem_of_sort_ids, Hl. unfold neighbour. naive_solver.
Qed.

(** [DeleteIncomingEdges] on a graph whose neighbours of [x] are nodes. *)
Lemma delete_incoming_ok g1 x :
  graph_wf g1 -> (x < vsize (node_list g1))%N ->
  (forall u, neighbour g1 x u -> (u < vsize (node_list g1))%N) ->
  exists g2, DeleteIncomingEdges x g1 = Some g2 /\ graph_wf g2 /\
    vsize (node_list g2) = vsize (node_list g1) /\ vsize (edge_list g2) = vsize (edge_list g1) /\
    (forall u, neighbour g1 x u -> adj g2 u ≡ₚ filter (fun e => e_target e <> x) (adj g1 u)) /\
    (forall u, ~ neighbour g1 x u -> adj g2 u = adj g1 u).
Proof.
  intros Hwf Hx Hnb. unfold DeleteIncomingEdges. destruct (neighbours_of_ok g1 x Hwf Hx) as (l & -> & _ & Hl).
  cbn [mbind option_bind].
  destruct (fold_m_ind (delete_step x) (fun done g2 => graph_wf g2 /\
      vsize (node_list g2) = vsize (node_list g1) /\ vsize (edge_list g2) = vsize (edge_list g1) /\
      (forall u, u ∈ done -> adj g2 u ≡ₚ filter (fun e => e_target e <> x) (adj g1 u)) /\
      (forall u, u ∉ done -> adj g2 u = adj g1 u)) l g1) as (g2 & Hrun & Hwf2 & Hn2 & He2 & Hin & Hout).
  - split_and!; try done. by intros u ?%elem_of_nil.
  - intros pre u post g2 Hpp (Hwf2 & Hn2 & He2 & Hin & Hout). unfold delete_step.
    destruct (delete_edges_to_ok g2 u x Hwf2) as (d & g3 & -> & Hwf3 & Hn3 & He3 & _ & _ & Hadj & Hoth).
    { rewrite Hn2. apply Hnb, Hl. rewrite Hpp. set_solver. }
    cbn [mbind option_bind]. exists g3. split; [done|]. split_and!; [done|congruence|congruence| |].
    + intros v Hv. destruct (decide (v = u)) as [->|Hne]; [|rewrite Hoth by done; set_solver].
      rewrite Hadj. destruct (decide (u ∈ pre)) as [Hu|Hu]; [|by rewrite Hout].
      rewrite (Hin u Hu). rewrite list_filter_filter_l by done. done.
    + intros v Hv. rewrite Hoth; set_solver.
  - exists g2. split; [done|]. split_and!; try done; intros u Hu; [apply Hin|apply Hout]; by rewrite Hl.
Qed.
(** Both ends of an edge know each other. *)
Definition two_sided (R : gset N) (g : ContractorGraph) : Prop :=
  forall u e, u ∈ R -> e ∈ adj g u -> exists e', e' ∈ adj g (e_target e) /\ e_target e' = u.

(** The nodes a round contracts. *)
Definition chosen (remaining : list RemainingNodeData) (first : N) : list N :=
  rn_id <$> drop (N.to_nat first) remaining.

Lemma chosen_positions remaining first :
  (vsize remaining < 4294967296)%N ->
  Forall2 (fun p x => exists r, vget remaining p = Some r /\ rn_id r = x)
    (irange first (vsize remaining)) (chosen remaining first).
Proof.
  intros Hsz. apply Forall2_same_length_lookup_2.
  - rewrite length_irange by done. unfold chosen. rewrite length_fmap, length_drop. unfold vsize. lia.
  - intros i p x Hp Hx. rewrite irange_lookup in Hp by done. case_decide; [|done]. injection Hp as <-.
    unfold chosen in Hx. rewrite list_lookup_fmap, lookup_drop in Hx.
    apply fmap_Some in Hx as (r & Hr & ->). exists r. split; [|done].
    rewrite vget_lookup, <- Hr. f_equal. lia.
Qed.

Section delete.
  Context (R : gset N) (g : ContractorGraph) (I : list N).
  Hypothesis live : live_ok R g.
  Hypothesis sides : two_sided R g.
  Hypothesis I_live : forall x, x ∈ I -> x ∈ R.
  Hypothesis I_apart : forall x y, x ∈ I -> y ∈ I -> ~ neighbour g x y.
  #[local] Set Default Proof Using "Type live sides I_live I_apart".

(** The lists after the nodes of [l] have been deleted from theirs. *)
Definition deleted (l : list N) (g1 : ContractorGraph) : Prop :=
  graph_wf g1 /\ vsize (node_list g1) = vsize (node_list g) /\ vsize (edge_list g1) = vsize (edge_list g) /\
  (forall u, u ∈ R -> adj g1 u ≡ₚ not_into l (adj g u)) /\ (forall u, u ∉ R -> adj g1 u = adj g u).

Lemma deleted_step l x g1 :
  l ⊆ I -> x ∈ I -> deleted l g1 -> exists g2, DeleteIncomingEdges x g1 = Some g2 /\ deleted (l ++ [x]) g2.
Proof.
  intros Hl Hx (Hwf & Hn & He & Hin & Hout). pose proof (I_live x Hx) as HxR.
  assert (adj g1 x ≡ₚ adj g x) as Hadjx.
  { rewrite (Hin x HxR). unfold not_into. rewrite list_filter_all; [done|]. intros e He1 Hl1.
    apply (I_apart x (e_target e) Hx); [by apply Hl|]. split; [|by exists e].
    destruct (lo_edges R g live x e HxR He1) as (_ & ? & _). congruence. }
  assert (forall u, neighbour g1 x u <-> neighbour g x u) as Hnb.
  { intros u. unfold neighbour. split; intros (Hne & e & He1 & Ht); (split; [done|]); exists e; (split; [|done]).
    - by rewrite <- Hadjx. - by rewrite Hadjx. }
  assert (forall u, neighbour g x u -> u ∈ R) as HnbR.
  { intros u (_ & e & He1 & <-). by apply (lo_edges R g live x e). }
  destruct (delete_incoming_ok g1 x Hwf) as (g2 & Hrun & Hwf2 & Hn2 & He2 & Hin2 & Hout2).
  { rewrite Hn. by apply (lo_nodes R g live). }
  { intros u Hu. rewrite Hn. apply (lo_nodes R g live), HnbR. by apply Hnb. }
  exists g2. split; [done|]. split_and!; [done|congruence|congruence| |].
  - intros u Hu. assert (u ∈ (e_target <$> adj g x) <-> exists e, e ∈ adj g x /\ e_target e = u) as Hmem
      by (rewrite list_elem_of_fmap; naive_solver).
    destruct (decide (u ∈ (e_target <$> adj g x))) as [Hnu|Hnu]; rewrite Hmem in Hnu.
    + rewrite not_into_snoc, Hin2; [by rewrite (Hin u Hu)|]. apply Hnb. split; [|done].
      destruct Hnu as (e & He1 & <-). destruct (lo_edges R g live x e HxR He1) as (_ & ? & _). congruence.
    + rewrite Hout2 by (intros [_ ?]%Hnb; done). rewrite not_into_absent; [by apply Hin|].
      intros e He1 Ht. apply Hnu. destruct (sides u e Hu He1) as (e' & He' & Ht'). rewrite Ht in He'. by exists e'.
  - intros u Hu. rewrite Hout2; [by apply Hout|]. intros Hu'%Hnb. by apply Hu, HnbR.
Qed.
End delete.

Lemma delete_phase_ok R g remaining first :
  live_ok R g -> two_sided R g -> (vsize remaining < 4294967296)%N ->
  (forall x, x ∈ chosen remaining first -> x ∈ R) ->
  (forall x y, x ∈ chosen remaining first -> y ∈ chosen remaining first -> ~ neighbour g x y) ->
  exists g1, delete_phase g remaining first = Some g1 /\ deleted R g (chosen remaining first) g1.
Proof.
  intros live sides Hsz HI Hap. unfold delete_phase.
  rewrite (fold_m_Forall2 _ _ (fun g x => DeleteIncomingEdges x g) _ _ (chosen_positions remaining first Hsz)).
  2:{ intros g' p x (r & Hr & <-). unfold delete_position. by rewrite Hr. }
  apply (fold_m_ind _ (deleted R g)).
  - split_and!; try done; [by apply (lo_wf R g)|]. intros u _. by rewrite not_into_nil.
  - intros pre x post g1 Hl Hd. apply (deleted_step R g (chosen remaining first)); try done.
    + rewrite Hl. set_solver.
    + rewrite Hl. set_solver.
Qed.

(** ** The insertion phase *)

Lemma adj_used (g : ContractorGraph) u e : graph_wf g -> e ∈ adj g u -> e_target e <> UINT_MAX.
Proof.
  intros Hwf He. unfold adj in He. destruct (vget (node_list g) u) as [nd|] eqn:Hnd; [|by apply elem_of_nil in He].
  apply list_elem_of_lookup in He as [k Hk].
  assert (vget (slice (edge_list g) nd) (N.of_nat k) = Some e) as Hv by (by rewrite vget_lookup, Nat2N.id).
  rewrite vget_slice in Hv. case_decide; [|done]. eapply (gw_used g Hwf u nd); [done| |done]. unfold in_range. lia.
Qed.

(** The edge a list entry becomes at its source. *)
Definition edge_of (x : ContractorEdge) : Edge ContractorEdgeData := MkEdge (ie_target x) (ie_data x).

(** A replacement: the same directions, not longer. *)
Definition supersedes (e' e : Edge ContractorEdgeData) : Prop :=
  e_target e' = e_target e /\ ce_forward (e_data e') = ce_forward (e_data e) /\
  ce_backward (e_data e') = ce_backward (e_data e) /\ (ce_distance (e_data e') <= ce_distance (e_data e))%N.

Lemma supersedes_refl e : supersedes e e.
Proof. done. Qed.

Lemma supersedes_trans e1 e2 e3 : supersedes e1 e2 -> supersedes e2 e3 -> supersedes e1 e3.
Proof. unfold supersedes. intros (-> & -> & -> & ?) (-> & -> & -> & ?). split_and!; try done. lia. Qed.

(** The effect of inserting the edges [l], none of which makes its source's
    list or the edge array grow by more than [K]. *)
Record inserted (g1 : ContractorGraph) (K : N) (l : list ContractorEdge) (g2 : ContractorGraph) : Prop := {
  in_wf : graph_wf g2;
  in_nodes : vsize (node_list g2) = vsize (node_list g1);
  in_room : (vsize (edge_list g2) <= vsize (edge_list g1) + vsize l * K)%N;
  in_degree u : (vsize (adj g2 u) <= vsize (adj g1 u) + vsize l)%N;
  in_sound u e : e ∈ adj g2 u -> e ∈ adj g1 u \/ exists x, x ∈ l /\ ie_source x = u /\ e = edge_of x;
  in_complete u e : e ∈ adj g1 u \/ (exists x, x ∈ l /\ ie_source x = u /\ e = edge_of x) ->
    exists e', e' ∈ adj g2 u /\ supersedes e' e;
  in_other u : (forall x, x ∈ l -> ie_source x <> u) -> adj g2 u = adj g1 u;
}.

Lemma inserted_refl g1 K : graph_wf g1 -> inserted g1 K [] g1.
Proof.
  intros Hwf. constructor; try done; try (change (vsize []) with 0%N; lia).
  - by left.
  - intros u e [He|(x & Hx & _)]; [exists e; split; [done|apply supersedes_refl]|by apply elem_of_nil in Hx].
Qed.

Lemma inserted_step g1 K l x g2 g3 :
  inserted g1 K l g2 -> graph_wf g3 -> vsize (node_list g3) = vsize (node_list g2) ->
  (vsize (edge_list g3) <= vsize (edge_list g2) + K)%N ->
  (adj g3 (ie_source x) ≡ₚ edge_of x :: adj g2 (ie_source x) \/
   exists e l1 l2, adj g2 (ie_source x) = l1 ++ e :: l2 /\ adj g3 (ie_source x) = l1 ++ edge_of x :: l2 /\
     supersedes (edge_of x) e) ->
  (forall m, m <> ie_source x -> adj g3 m = adj g2 m) ->
  inserted g1 K (l ++ [x]) g3.
Proof.
  intros [Hwf Hn Hroom Hdeg Hsnd Hcmp Hoth] Hwf3 Hn3 Hroom3 Hadj Hm.
  assert (vsize (l ++ [x]) = vsize l + 1)%N as Hsz by (by rewrite vsize_app).
  assert (forall e, e ∈ adj g3 (ie_source x) -> e = edge_of x \/ e ∈ adj g2 (ie_source x)) as Hsnd3.
  { intros e. destruct Hadj as [->|(e0 & l1 & l2 & -> & -> & _)]; set_solver. }
  assert (forall e, e = edge_of x \/ e ∈ adj g2 (ie_source x) ->
    exists e', e' ∈ adj g3 (ie_source x) /\ supersedes e' e) as Hcmp3.
  { intros e He. destruct Hadj as [Hp|(e0 & l1 & l2 & Hl & Hl' & Hsup)].
    - exists e. split; [rewrite Hp; set_solver|apply supersedes_refl].
    - rewrite Hl'. rewrite Hl in He.
      assert (e = e0 \/ e = edge_of x \/ e ∈ l1 \/ e ∈ l2) as [->|Hin] by set_solver.
      + exists (edge_of x). split; [set_solver|done].
      + exists e. split; [set_solver|apply supersedes_refl]. }
  constructor; [done|congruence| | | | |].
  - rewrite Hsz. lia.
  - intros u. rewrite Hsz. specialize (Hdeg u). destruct (decide (u = ie_source x)) as [->|Hne]; [|rewrite Hm by done; lia].
    destruct Hadj as [->|(e0 & l1 & l2 & Hl & -> & _)].
    + unfold vsize in *. simpl. lia.
    + rewrite Hl in Hdeg. unfold vsize in *. rewrite length_app in *. simpl in *. lia.
  - intros u e He. destruct (decide (u = ie_source x)) as [->|Hne]; [|rewrite Hm in He by done].
    + apply Hsnd3 in He as [->|He]; [right; exists x; set_solver|]. apply Hsnd in He. set_solver.
    + apply Hsnd in He. set_solver.
  - intros u e He. assert (e = edge_of x /\ u = ie_source x \/ exists e', e' ∈ adj g2 u /\ supersedes e' e) as H2.
    { destruct He as [He|(y & [Hy|Hy]%elem_of_app & Hys & ->)].
      - right. apply Hcmp. by left.
      - right. apply Hcmp. right. by exists y.
      - left. apply list_elem_of_singleton in Hy as ->. done. }
    destruct H2 as [[-> ->]|(e' & He' & Hsup)]; [apply Hcmp3; by left|].
    destruct (decide (u = ie_source x)) as [->|Hne]; [|rewrite Hm by done; by exists e'].
    destruct (Hcmp3 e') as (e'' & He'' & Hsup'); [by right|]. exists e''. split; [done|]. by eapply supersedes_trans.
  - intros u Hu. rewrite Hm, Hoth; [done| |]; [|intros ->; by apply (Hu x); [set_solver|]].
    intros y Hy. apply Hu. set_solver.
Qed.

Lemma inserted_perm g1 K l l' g2 : l ≡ₚ l' -> inserted g1 K l g2 -> inserted g1 K l' g2.
Proof.
  intros Hp [Hwf Hn Hroom Hdeg Hsnd Hcmp Hoth]. assert (vsize l = vsize l') as Hsz by (by rewrite Hp).
  constructor; try done.
  - by rewrite <- Hsz.
  - intros u. by rewrite <- Hsz.
  - intros u e He. destruct (Hsnd u e He) as [|(x & Hx & Hrest)]; [by left|right].
    exists x. by rewrite <- Hp.
  - intros u e He. apply Hcmp. destruct He as [|(x & Hx & Hrest)]; [by left|right].
    exists x. by rewrite Hp.
  - intros u Hu. apply Hoth. intros x. rewrite Hp. apply Hu.
Qed.

Section insert.
  Context (junk : N -> Edge ContractorEdgeData).

(** One insertion: the new edge is added, or takes the place of a longer one. *)
Lemma insert_shortcut_ok g x :
  graph_wf g -> (ie_source x < vsize (node_list g))%N -> ie_target x <> UINT_MAX ->
  (vsize (edge_list g) + 2 * vsize (adj g (ie_source x)) + 3 < 2147483648)%N ->
  exists g', insert_shortcut junk g x = Some g' /\ graph_wf g' /\
    vsize (node_list g') = vsize (node_list g) /\
    (vsize (edge_list g') <= vsize (edge_list g) + 2 * vsize (adj g (ie_source x)) + 3)%N /\
    (adj g' (ie_source x) ≡ₚ edge_of x :: adj g (ie_source x) \/
     exists e l1 l2, adj g (ie_source x) = l1 ++ e :: l2 /\ adj g' (ie_source x) = l1 ++ edge_of x :: l2 /\
       supersedes (edge_of x) e) /\
    (forall m, m <> ie_source x -> adj g' m = adj g m).
Proof.
  intros Hwf Hs Ht Hroom. unfold insert_shortcut.
  destruct (insert_edge_ok junk g (ie_source x) (ie_target x) (ie_data x) Hwf Hs Ht Hroom)
    as (i & gi & Hi & Hwfi & Hni & _ & _ & Hei & Hadji & Hothi & _).
  rewrite Hi. cbn [mbind option_bind].
  assert (exists g', Some gi = Some g' /\ graph_wf g' /\
    vsize (node_list g') = vsize (node_list g) /\
    (vsize (edge_list g') <= vsize (edge_list g) + 2 * vsize (adj g (ie_source x)) + 3)%N /\
    (adj g' (ie_source x) ≡ₚ edge_of x :: adj g (ie_source x) \/
     exists e l1 l2, adj g (ie_source x) = l1 ++ e :: l2 /\ adj g' (ie_source x) = l1 ++ edge_of x :: l2 /\
       supersedes (edge_of x) e) /\
    (forall m, m <> ie_source x -> adj g' m = adj g m)) as Hins.
  { exists gi. split_and!; try done. by left. }
  destruct (vget_lt (node_list g) (ie_source x) Hs) as [nd Hnd].
  destruct (find_edge_ok g (ie_source x) (ie_target x) nd Hwf Hnd) as (j & -> & Hj). cbn [mbind option_bind].
  destruct Hj as [(Hr & (e & He & Hte) & _)|[-> _]].
  2:{ cbn [mbind option_bind]. by rewrite N.ltb_irrefl. }
  unfold EndEdges. rewrite Hnd. cbn [mbind option_bind].
  case_ltb; [|exact Hins]. unfold GetEdgeData. rewrite He. cbn [fmap option_fmap option_map mbind option_bind].
  destruct (ce_shortcut (e_data e) && _ && _ && _) eqn:Hcond; [|exact Hins].
  apply andb_true_iff in Hcond as [[[_ Hf]%andb_true_iff Hb]%andb_true_iff Hd%N.ltb_lt].
  apply eqb_prop in Hf, Hb.
  destruct (assign_edge_data_ok g (ie_source x) nd j e (fun _ => ie_data x) Hwf Hnd Hr He)
    as (g' & -> & Hwf' & Hn' & _ & He' & (l1 & l2 & Hl & Hl') & Hoth).
  exists g'. split_and!; try done; [by rewrite Hn'|lia|]. right. exists e, l1, l2.
  rewrite Hte in Hl'. split_and!; try done. unfold supersedes, edge_of. simpl. split_and!; try done. lia.
Qed.

(** Inserting a list of edges between nodes, with room for all of them. *)
Lemma insert_list_ok g1 D l :
  graph_wf g1 ->
  (forall x, x ∈ l -> (ie_source x < vsize (node_list g1))%N /\ ie_target x <> UINT_MAX /\
     (vsize (adj g1 (ie_source x)) <= D)%N) ->
  let K := (2 * (D + vsize l) + 3)%N in
  (vsize (edge_list g1) + vsize l * K < 2147483648)%N ->
  exists g2, fold_m (insert_shortcut junk) g1 l = Some g2 /\ inserted g1 K l g2.
Proof.
  intros Hwf Hl K Hroom.
  apply (fold_m_ind (insert_shortcut junk) (inserted g1 K)); [by apply inserted_refl|].
  intros pre x post g2 Hpp Hin. destruct (Hl x) as (Hs & Ht & Hd); [rewrite Hpp; set_solver|].
  assert (vsize l = vsize pre + 1 + vsize post)%N as Hsz.
  { rewrite Hpp, vsize_app. unfold vsize. simpl. lia. }
  pose proof (in_room _ _ _ _ Hin) as Hr2. pose proof (in_degree _ _ _ _ Hin (ie_source x)) as Hd2.
  destruct (insert_shortcut_ok g2 x) as (g3 & Hrun & Hwf3 & Hn3 & He3 & Hadj3 & Hoth3).
  { by eapply in_wf. } { by rewrite (in_nodes _ _ _ _ Hin). } { done. } { nia. }
  exists g3. split; [done|]. eapply inserted_step; try done. lia.
Qed.

Lemma insert_phase_list {St} g1 (ts : list (N * ThreadData (St := St))) :
  insert_phase junk g1 ts = fold_m (insert_shortcut junk) g1 (all_inserted ts).
Proof.
  unfold insert_phase. revert g1. induction ts as [|[t d] ts IH]; intros g1; [done|].
  rewrite all_inserted_cons, fold_m_app. cbn [fmap list_fmap fold_m snd].
  change (insert_thread junk g1 d) with (fold_m (insert_shortcut junk) g1 (td_inserted_edges d)).
  destruct (fold_m (insert_shortcut junk) g1 (td_inserted_edges d)); [apply IH|done].
Qed.
End insert.

(** ** The choice of the nodes *)

Section choose.
  Context (h : XORFastHash) (g : ContractorGraph) (priorities : list float) (R : gset N).
  Hypothesis hash_wf : xor_hash_wf h.
  Hypothesis live : live_ok R g.
  Hypothesis sides : two_sided R g.
  Hypothesis R_priority : forall u, u ∈ R -> exists p, vget priorities u = Some p /\ is_finite p.
  #[local] Set Default Proof Using "Type hash_wf live sides R_priority".

Lemma mark_ok remaining :
  (vsize remaining < 4294967296)%N -> (forall r, r ∈ remaining -> rn_id r ∈ R) ->
  exists marked, fold_m (mark_independent h g priorities) remaining (irange 0 (vsize remaining)) = Some marked /\
    rn_id <$> marked = rn_id <$> remaining /\
    Forall (fun r => IsNodeIndependent h g priorities (rn_id r) = Some (rn_is_independent r)) marked.
Proof.
  intros Hsz HR.
  destruct (fold_m_ind (mark_independent h g priorities) (fun done l =>
      rn_id <$> l = rn_id <$> remaining /\ forall i r, (i < vsize done)%N -> vget l i = Some r ->
      IsNodeIndependent h g priorities (rn_id r) = Some (rn_is_independent r))
    (irange 0 (vsize remaining)) remaining) as (marked & Hrun & Hids & Hmark).
  - split; [done|]. change (vsize (@nil N)) with 0%N. intros i r Hi. lia.
  - intros pre i post l Hpp (Hids & Hmark).
    assert (vsize l = vsize remaining) as Hlen.
    { apply (f_equal vsize) in Hids. unfold vsize in *. by rewrite !length_fmap in Hids. }
    assert (irange 0 (vsize remaining) !! length pre = Some i) as Hi by (rewrite Hpp; by apply list_lookup_middle).
    rewrite irange_lookup in Hi by done. case_decide as Hlt; [|done]. injection Hi as <-.
    assert (vsize (pre ++ [0 + N.of_nat (length pre)]) = vsize pre + 1)%N as -> by (by rewrite vsize_app).
    unfold vsize in Hlt |- *. set (i := (0 + N.of_nat (length pre))%N) in *.
    destruct (vget_lt l i) as [r Hr]; [unfold i, vsize in *; lia|].
    assert (rn_id r ∈ R) as HrR.
    { assert (rn_id r ∈ rn_id <$> remaining) as Hin.
      { rewrite <- Hids. apply list_elem_of_fmap_2. rewrite vget_lookup in Hr. by eapply list_elem_of_lookup_2. }
      apply list_elem_of_fmap in Hin as (r' & -> & Hr'). by apply HR. }
    destruct (is_node_independent_ok h g priorities R hash_wf (lo_wf R g live) (lo_nodes R g live)
      (fun u e Hu He => proj1 (lo_edges R g live u e Hu He)) R_priority (rn_id r) HrR) as (b & Hb & _).
    unfold mark_independent. rewrite Hr. cbn [mbind option_bind]. rewrite Hb. cbn [mbind option_bind].
    rewrite vset_lt by (unfold i, vsize in *; lia). eexists. split; [done|]. rewrite vget_lookup in Hr. split.
    + rewrite list_fmap_insert. cbn [rn_id]. rewrite list_insert_id; [done|]. by rewrite list_lookup_fmap, Hr.
    + intros j r' Hj Hr'. rewrite vget_insert in Hr' by (unfold i, vsize in *; lia).
      case_decide as Hji; [injection Hr' as <-; done|]. apply (Hmark j); [unfold i, vsize in *; lia|done].
  - exists marked. split_and!; [done|done|]. apply Forall_lookup_2. intros i r Hr.
    assert (length marked = length remaining) as Hlen.
    { apply (f_equal length) in Hids. by rewrite !length_fmap in Hids. }
    apply (Hmark (N.of_nat i)); [|by rewrite vget_lookup, Nat2N.id].
    apply lookup_lt_Some in Hr. unfold vsize in *. rewrite length_irange by done. lia.
Qed.

(** Chosen nodes are not near each other. *)
Lemma chosen_not_near x y :
  x ∈ R -> y ∈ R -> IsNodeIndependent h g priorities x = Some true ->
  IsNodeIndependent h g priorities y = Some true -> near g x y -> False.
Proof.
  intros Hx Hy Hix Hiy Hn.
  assert (forall u v, u ∈ R -> neighbour g u v -> v ∈ R /\ neighbour g v u) as Hsym.
  { intros u v Hu (Hne & e & He & <-). split; [by apply (lo_edges R g live u)|]. split; [done|].
    destruct (sides u e Hu He) as (e' & He' & Ht). by exists e'. }
  assert (x <> y) as Hne.
  { destruct Hn as [[? _]|(m & _ & ? & _)]; done. }
  eapply (independent_apart h g priorities R hash_wf (lo_wf R g live) (lo_nodes R g live)
    (fun u e Hu He => proj1 (lo_edges R g live u e Hu He)) R_priority x y); try done.
  destruct Hn as [Hn|(m & Hm & _ & e & He & Ht)]; [left; by apply Hsym|].
  destruct (Hsym x m Hx Hm) as [HmR Hmx]. destruct (decide (m = y)) as [->|Hmy].
  { by left. }
  right. exists m. split; [|split; [done|]].
  - apply Hsym; [done|]. split; [done|]. by exists e.
  - destruct Hmx as (_ & e' & He' & <-). by exists e'.
Qed.
End choose.
