(* ===== verification/Hierarchy.v ===== *)
(** * Contractor/Contractor.h: the rounds of Run build a hierarchy

    A round contracts an independent set: distances between the remaining
    nodes are kept, and the lists of the contracted nodes are never changed
    again. Any number of rounds therefore leaves lists in which the search
    upwards from the source and the search upwards from the target meet at
    the distance of the input graph. *)

From S2P Require Import Prelude Types Paths Edges Storage BinaryHeap DynamicGraph Float32 Contractor.
From S2P Require Import WitnessSearch Independence ContractionRound.

(** ** What a round does to the graph *)

(** Both ends of an edge between live nodes record it. *)
Record net_ok (R : gset N) (g : ContractorGraph) : Prop := {
  no_live : live_ok R g;
  no_sides : two_sided R g;
  no_fwd u v w : u ∈ R -> fwd g u v w -> exists w', (w' <= w)%N /\ bwd g v u w';
  no_bwd u v w : u ∈ R -> bwd g u v w -> exists w', (w' <= w)%N /\ fwd g v u w';
}.

(** The contraction of the nodes [R ∖ R']. *)
Record contraction_step (R : gset N) (g : ContractorGraph) (R' : gset N) (g' : ContractorGraph) : Prop := {
  st_sub : R' ⊆ R;
  st_nodes : vsize (node_list g') = vsize (node_list g);
  st_apart x y : x ∈ R ∖ R' -> y ∈ R ∖ R' -> ~ near g x y;
  st_frozen u : u ∉ R' -> adj g' u ≡ₚ adj g u;
  st_edges u e : u ∈ R' -> e ∈ adj g' u ->
    e ∈ adj g u \/ ce_shortcut (e_data e) = true /\ ce_id (e_data e) ∈ R ∖ R';
  st_fwd u v w : u ∈ R' -> v ∈ R' -> fwd g u v w -> exists w', (w' <= w)%N /\ fwd g' u v w';
  st_bwd u v w : u ∈ R' -> v ∈ R' -> bwd g u v w -> exists w', (w' <= w)%N /\ bwd g' u v w';
  st_cover x a b w1 w2 : x ∈ R ∖ R' -> bwd g x a w1 -> fwd g x b w2 -> a <> b ->
    (exists w, (w <= w1 + w2)%N /\ fwd g' a b w) \/ within (avoid x (fwd g)) a b (w1 + w2)%N;
  st_fwd_old u v w : u ∈ R' -> fwd g' u v w ->
    fwd g u v w \/ exists x w1 w2, x ∈ R ∖ R' /\ bwd g x u w1 /\ fwd g x v w2 /\ w = (w1 + w2)%N;
  st_bwd_old u v w : u ∈ R' -> bwd g' u v w ->
    bwd g u v w \/ exists x w1 w2, x ∈ R ∖ R' /\ bwd g x v w1 /\ fwd g x u w2 /\ w = (w1 + w2)%N;
}.

(** ** The arcs of the inserted edges *)

(** An inserted edge joins two different neighbours of its middle node. *)
Lemma shortcut_ends g y L x :
  node_shortcuts g y L -> x ∈ L ->
  exists e1 e2, e1 ∈ adj g y /\ e2 ∈ adj g y /\ e_target e1 = ie_source x /\ e_target e2 = ie_target x /\
    ie_source x <> ie_target x /\ ce_distance (ie_data x) = (ce_distance (e_data e1) + ce_distance (e_data e2))%N /\
    (ce_backward (e_data e1) = true /\ ce_forward (e_data e2) = true \/
     ce_backward (e_data e2) = true /\ ce_forward (e_data e1) = true).
Proof.
  intros Hns Hx. assert (shortcut_of y x) as (_ & _ & Hfb).
  { pose proof (ns_shape _ _ _ Hns) as Hall. rewrite Forall_forall in Hall. by apply Hall. }
  destruct (ce_forward (ie_data x)) eqn:Hf; [|simpl in Hfb].
  - destruct (ns_fwd _ _ _ Hns (ie_source x) (ie_target x) (ce_distance (ie_data x)))
      as (Hne & w1 & w2 & (e1 & He1 & Ht1 & Hb1 & <-) & (e2 & He2 & Ht2 & Hf2 & <-) & Hd); [by exists x|].
    exists e1, e2. split_and!; try done. by left.
  - destruct (ns_bwd _ _ _ Hns (ie_target x) (ie_source x) (ce_distance (ie_data x)))
      as (Hne & w1 & w2 & (e1 & He1 & Ht1 & Hb1 & <-) & (e2 & He2 & Ht2 & Hf2 & <-) & Hd); [by exists x|].
    exists e2, e1. split_and!; try done; [lia|]. by right.
Qed.

(** The arcs of a graph in terms of its edges. *)
Lemma fwd_supersedes g u e e' : e' ∈ adj g u -> supersedes e' e -> ce_forward (e_data e) = true ->
  exists w', (w' <= ce_distance (e_data e))%N /\ fwd g u (e_target e) w'.
Proof. intros He (Ht & Hf & _ & Hd) Hfe. eexists. split; [exact Hd|]. exists e'. split_and!; congruence. Qed.

Lemma bwd_supersedes g u e e' : e' ∈ adj g u -> supersedes e' e -> ce_backward (e_data e) = true ->
  exists w', (w' <= ce_distance (e_data e))%N /\ bwd g u (e_target e) w'.
Proof. intros He (Ht & _ & Hb & Hd) Hbe. eexists. split; [exact Hd|]. exists e'. split_and!; congruence. Qed.

(** ** The phases of a round together *)

Section phases.
  Context (R R' : gset N) (g g1 g2 : ContractorGraph) (I : list N) (Ls : list (list ContractorEdge)) (K : N).
  Hypothesis net : net_ok R g.
  Hypothesis I_split : forall x, x ∈ R <-> x ∈ I \/ x ∈ R'.
  Hypothesis I_out : forall x, x ∈ I -> x ∉ R'.
  Hypothesis I_apart : forall x y, x ∈ I -> y ∈ I -> ~ near g x y.
  Hypothesis del : deleted R g I g1.
  Hypothesis shortcuts : forall x, x ∈ I -> exists L, L ∈ Ls /\ node_shortcuts g x L.
  Hypothesis origin : forall L, L ∈ Ls -> exists x, x ∈ I /\ node_shortcuts g x L.
  Hypothesis ins : inserted g1 K (concat Ls) g2.
  Hypothesis weights : forall x a b w1 w2, x ∈ I -> bwd g x a w1 -> fwd g x b w2 -> (w1 + w2 < max_weight)%N.
  #[local] Set Default Proof Using "Type net I_split I_out I_apart del shortcuts origin ins weights".

Lemma chosen_live x : x ∈ I -> x ∈ R.
Proof. intros. apply I_split. by left. Qed.

Lemma neighbour_of x e : x ∈ I -> e ∈ adj g x -> neighbour g x (e_target e) /\ e_target e ∈ R'.
Proof.
  intros Hx He. destruct (lo_edges R g (no_live R g net) x e (chosen_live x Hx) He) as (HR & Hne & _).
  assert (neighbour g x (e_target e)) as Hn by (split; [done|by exists e]). split; [done|].
  apply I_split in HR as [HI|HR]; [|done]. exfalso. apply (I_apart x (e_target e) Hx HI). by left.
Qed.

Lemma elem_of_concat {A} (y : A) (ls : list (list A)) : y ∈ concat ls <-> exists l, l ∈ ls /\ y ∈ l.
Proof using Type.
  clear. induction ls as [|l ls IH]; simpl; [set_solver|]. rewrite elem_of_app, IH. set_solver.
Qed.

(** The edges of a live node before and after. *)
Lemma kept u e : u ∈ R' -> e ∈ adj g u -> e_target e ∈ R' -> exists e', e' ∈ adj g2 u /\ supersedes e' e.
Proof.
  intros Hu He Ht. apply (in_complete _ _ _ _ ins). left. destruct del as (_ & _ & _ & Hadj & _).
  rewrite (Hadj u) by (apply I_split; by right). apply elem_of_not_into. split; [|done].
  intros HI. by apply (I_out (e_target e)).
Qed.

Lemma added L x : L ∈ Ls -> x ∈ L -> exists e', e' ∈ adj g2 (ie_source x) /\ supersedes e' (edge_of x).
Proof.
  intros HL Hx. apply (in_complete _ _ _ _ ins). right. exists x. split_and!; try done.
  apply elem_of_concat. by exists L.
Qed.

Lemma shortcut_live L x : L ∈ Ls -> x ∈ L -> ie_source x ∈ R' /\ ie_target x ∈ R'.
Proof.
  intros HL Hx. destruct (origin L HL) as (y & Hy & Hns).
  destruct (shortcut_ends g y L x Hns Hx) as (e1 & e2 & He1 & He2 & <- & <- & _).
  split; by apply (neighbour_of y).
Qed.

Lemma edge_origin u e : u ∈ R' -> e ∈ adj g2 u ->
  (e ∈ adj g u /\ e_target e ∈ R') \/ exists L x, L ∈ Ls /\ x ∈ L /\ ie_source x = u /\ e = edge_of x.
Proof.
  intros Hu He. apply (in_sound _ _ _ _ ins) in He as [He|(x & Hx & Hs & ->)].
  - left. destruct del as (_ & _ & _ & Hadj & _). assert (u ∈ R) as HuR by (apply I_split; by right).
    rewrite (Hadj u HuR) in He. apply elem_of_not_into in He as [HnI He]. split; [done|].
    destruct (lo_edges R g (no_live R g net) u e HuR He) as (HR & _). apply I_split in HR as [|]; done.
  - right. apply elem_of_concat in Hx as (L & HL & Hx). by exists L, x.
Qed.

Lemma frozen u : u ∉ R' -> adj g2 u ≡ₚ adj g u.
Proof.
  intros Hu. destruct del as (_ & _ & _ & Hin & Hout).
  rewrite (in_other _ _ _ _ ins).
  2:{ intros x (L & HL & Hx)%elem_of_concat <-. apply Hu. by apply (shortcut_live L x). }
  destruct (decide (u ∈ R)) as [HuR|HuR]; [|by rewrite Hout].
  rewrite (Hin u HuR). unfold not_into. rewrite list_filter_all; [done|].
  apply I_split in HuR as [HuI|HuR]; [|done]. intros e He HI.
  destruct (neighbour_of u e HuI He) as [_ HR']. by apply (I_out (e_target e)).
Qed.

Lemma in_chosen x : x ∈ R ∖ R' <-> x ∈ I.
Proof.
  rewrite elem_of_difference, I_split. split; [intros [[|] ?]; done|]. intros HI. split; [by left|by apply I_out].
Qed.

Lemma phases_step : contraction_step R g R' g2.
Proof.
  constructor.
  - intros x Hx. apply I_split. by right.
  - destruct del as (_ & Hn & _). by rewrite (in_nodes _ _ _ _ ins), Hn.
  - intros x y Hx%in_chosen Hy%in_chosen. by apply I_apart.
  - apply frozen.
  - intros u e Hu He. apply edge_origin in He as [[He _]|(L & x & HL & Hx & <- & ->)]; [by left|right|done].
    destruct (origin L HL) as (y & Hy & Hns). pose proof (ns_shape _ _ _ Hns) as Hall.
    rewrite Forall_forall in Hall. destruct (Hall x Hx) as (Hs & Hid & _). cbn [edge_of e_data].
    split; [done|]. rewrite Hid. by apply in_chosen.
  - intros u v w Hu Hv (e & He & <- & Hf & <-). destruct (kept u e Hu He Hv) as (e' & He' & Hs).
    by eapply fwd_supersedes.
  - intros u v w Hu Hv (e & He & <- & Hb & <-). destruct (kept u e Hu He Hv) as (e' & He' & Hs).
    by eapply bwd_supersedes.
  - intros x a b w1 w2 Hx%in_chosen Ha Hb Hab. destruct (shortcuts x Hx) as (L & HL & Hns).
    destruct (ns_cover _ _ _ Hns a b w1 w2 Ha Hb) as [[Hl _]|Hw]; [left|by right].
    destruct Hl as (y & Hy & <- & <- & Hf & <-). destruct (added L y HL Hy) as (e' & He' & Hs).
    by eapply (fwd_supersedes g2 (ie_source y) (edge_of y)).
  - intros u v w Hu (e & He & <- & Hf & <-). apply edge_origin in He as [[He _]|(L & x & HL & Hx & <- & ->)]; [|..|done].
    + left. by exists e.
    + right. destruct (origin L HL) as (y & Hy & Hns).
      destruct (ns_fwd _ _ _ Hns (ie_source x) (ie_target x) (ce_distance (ie_data x))) as (_ & w1 & w2 & H1 & H2 & Hd).
      { by exists x. }
      exists y, w1, w2. by rewrite in_chosen.
  - intros u v w Hu (e & He & <- & Hb & <-). apply edge_origin in He as [[He _]|(L & x & HL & Hx & <- & ->)]; [|..|done].
    + left. by exists e.
    + right. destruct (origin L HL) as (y & Hy & Hns).
      destruct (ns_bwd _ _ _ Hns (ie_target x) (ie_source x) (ce_distance (ie_data x))) as (_ & w1 & w2 & H1 & H2 & Hd).
      { by exists x. }
      exists y, w1, w2. by rewrite in_chosen.
Qed.

Lemma phases_live : live_ok R' g2.
Proof.
  pose proof (no_live R g net) as Hlive. destruct del as (_ & Hn & _).
  constructor.
  - apply (in_wf _ _ _ _ ins).
  - intros u Hu. rewrite (in_nodes _ _ _ _ ins), Hn. apply (lo_nodes R g Hlive). apply I_split. by right.
  - intros u e Hu He. apply edge_origin in He as [[He Ht]|(L & x & HL & Hx & <- & ->)]; [|..|done].
    + destruct (lo_edges R g Hlive u e) as (_ & ? & ?); [apply I_split; by right|done|done].
    + destruct (shortcut_live L x HL Hx) as [Hs Ht]. destruct (origin L HL) as (y & Hy & Hns).
      destruct (shortcut_ends g y L x Hns Hx) as (e1 & e2 & He1 & He2 & Hs1 & Ht2 & Hne & Hd & Hdir).
      pose proof (chosen_live y Hy) as HyR.
      destruct (lo_edges R g Hlive y e1 HyR He1) as (_ & _ & ?).
      destruct (lo_edges R g Hlive y e2 HyR He2) as (_ & _ & ?).
      unfold edge_of. cbn [e_target e_data]. rewrite Hd. split_and!; [done|done|lia|].
      destruct Hdir as [[Hb Hf]|[Hb Hf]].
      * apply (weights y (e_target e1) (e_target e2)); [done|by exists e1|by exists e2].
      * rewrite N.add_comm. apply (weights y (e_target e2) (e_target e1)); [done|by exists e2|by exists e1].
Qed.

Lemma phases_net : net_ok R' g2.
Proof.
  pose proof (no_live R g net) as Hlive.
  assert (forall u, u ∈ R' -> u ∈ R) as Hsub by (intros; apply I_split; by right).
  constructor; [apply phases_live| | |].
  - intros u e Hu He. apply edge_origin in He as [[He Ht]|(L & x & HL & Hx & <- & ->)]; [|..|done].
    + destruct (no_sides R g net u e (Hsub u Hu) He) as (e' & He' & Ht').
      destruct (kept (e_target e) e' Ht He') as (e2 & He2 & Hs); [by rewrite Ht'|].
      exists e2. split; [done|]. destruct Hs as [-> _]. done.
    + destruct (origin L HL) as (y & Hy & Hns). assert (shortcut_of y x) as (_ & _ & Hfb).
      { pose proof (ns_shape _ _ _ Hns) as Hall. rewrite Forall_forall in Hall. by apply Hall. }
      assert (exists x', x' ∈ L /\ ie_source x' = ie_target x /\ ie_target x' = ie_source x) as (x' & Hx' & Hs' & Ht').
      { destruct (ce_forward (ie_data x)) eqn:Hf; [|simpl in Hfb].
        - destruct (proj1 (ns_mirror _ _ _ Hns (ie_source x) (ie_target x) (ce_distance (ie_data x)))) as (x' & ? & ? & ? & _);
            [by exists x|]. by exists x'.
        - destruct (proj2 (ns_mirror _ _ _ Hns (ie_target x) (ie_source x) (ce_distance (ie_data x)))) as (x' & ? & ? & ? & _);
            [by exists x|]. by exists x'. }
      destruct (added L x' HL Hx') as (e2 & He2 & Hs). rewrite Hs' in He2. exists e2. split; [done|].
      destruct Hs as [-> _]. done.
  - intros u v w Hu (e & He & <- & Hf & <-). apply edge_origin in He as [[He Ht]|(L & x & HL & Hx & <- & ->)]; [|..|done].
    + destruct (no_fwd R g net u (e_target e) (ce_distance (e_data e)) (Hsub u Hu)) as (w' & Hw' & Hb); [by exists e|].
      destruct (st_bwd _ _ _ _ phases_step (e_target e) u w' Ht Hu Hb) as (w'' & Hw'' & Hb'). exists w''. split; [lia|done].
    + destruct (origin L HL) as (y & Hy & Hns).
      destruct (proj1 (ns_mirror _ _ _ Hns (ie_source x) (ie_target x) (ce_distance (ie_data x)))) as (x' & Hx' & Hs' & Ht' & Hb' & Hd');
        [by exists x|]. destruct (added L x' HL Hx') as (e2 & He2 & Hs).
      destruct (bwd_supersedes g2 (ie_source x') (edge_of x') e2 He2 Hs Hb') as (w' & Hw' & Hbw).
      cbn [edge_of e_target e_data] in *. rewrite Hs', Ht' in Hbw. exists w'. split; [lia|done].
  - intros u v w Hu (e & He & <- & Hb & <-). apply edge_origin in He as [[He Ht]|(L & x & HL & Hx & <- & ->)]; [|..|done].
    + destruct (no_bwd R g net u (e_target e) (ce_distance (e_data e)) (Hsub u Hu)) as (w' & Hw' & Hf); [by exists e|].
      destruct (st_fwd _ _ _ _ phases_step (e_target e) u w' Ht Hu Hf) as (w'' & Hw'' & Hf'). exists w''. split; [lia|done].
    + destruct (origin L HL) as (y & Hy & Hns).
      destruct (proj2 (ns_mirror _ _ _ Hns (ie_target x) (ie_source x) (ce_distance (ie_data x)))) as (x' & Hx' & Hs' & Ht' & Hf' & Hd');
        [by exists x|]. destruct (added L x' HL Hx') as (e2 & He2 & Hs).
      destruct (fwd_supersedes g2 (ie_source x') (edge_of x') e2 He2 Hs Hf') as (w' & Hw' & Hfw).
      cbn [edge_of e_target e_data] in *. rewrite Hs', Ht' in Hfw. exists w'. split; [lia|done].
Qed.
End phases.

(** ** Distances between the remaining nodes *)

(** The arcs between live nodes. *)
Definition live_arcs (R : gset N) (g : ContractorGraph) : arcs := fun u v w => u ∈ R /\ fwd g u v w.

Section step.
  Context (R : gset N) (g : ContractorGraph) (R' : gset N) (g' : ContractorGraph).
  Hypothesis net : net_ok R g.
  Hypothesis step : contraction_step R g R' g'.
  Hypothesis net' : net_ok R' g'.
  #[local] Set Default Proof Using "Type net step net'".

Lemma fwd_live u v w : u ∈ R -> fwd g u v w -> v ∈ R /\ v <> u /\ (0 < w)%N.
Proof.
  intros Hu (e & He & <- & _ & <-). destruct (lo_edges R g (no_live R g net) u e Hu He) as (? & ? & ?).
  split_and!; try done. lia.
Qed.

Lemma bwd_live u v w : u ∈ R -> bwd g u v w -> v ∈ R /\ v <> u.
Proof.
  intros Hu (e & He & <- & _ & <-). by destruct (lo_edges R g (no_live R g net) u e Hu He) as (? & ? & ?).
Qed.

Lemma neighbour_sym u v : u ∈ R -> neighbour g u v -> neighbour g v u.
Proof.
  intros Hu (Hne & e & He & <-). split; [done|]. destruct (no_sides R g net u e Hu He) as (e' & He' & Ht).
  by exists e'.
Qed.

Lemma live_adjacent a x : adjacent (live_arcs R g) a x -> a ∈ R /\ x ∈ R /\ neighbour g a x /\ neighbour g x a.
Proof.
  intros [w [[Ha Hf]|[Hx Hf]]].
  - destruct (fwd_live a x w Ha Hf) as (Hx & Hne & _). destruct Hf as (e & He & Ht & _).
    assert (neighbour g a x) as Hn by (split; [done|by exists e]). split_and!; try done. by apply neighbour_sym.
  - destruct (fwd_live x a w Hx Hf) as (Ha & Hne & _). destruct Hf as (e & He & Ht & _).
    assert (neighbour g x a) as Hn by (split; [done|by exists e]). split_and!; try done. by apply neighbour_sym.
Qed.

Lemma contracted_independent : independent (live_arcs R g) (fun x => x ∈ R ∖ R').
Proof.
  split.
  - intros x y Hx Hy (_ & _ & Hn & _)%live_adjacent. apply (st_apart _ _ _ _ step x y Hx Hy). by left.
  - intros x y a Hx Hy (_ & _ & _ & Hxa)%live_adjacent (_ & _ & (_ & e & He & Ht) & _)%live_adjacent.
    destruct (decide (x = y)) as [|Hne]; [done|exfalso]. apply (st_apart _ _ _ _ step x y Hx Hy).
    right. exists a. split_and!; try done. by exists e.
Qed.

Lemma path_live x u v l : u ∈ R -> path (avoid x (fwd g)) u v l -> path (avoid x (live_arcs R g)) u v l.
Proof.
  intros Hu Hp. revert Hu. induction Hp as [u|u v t w l [Hf Hav] Hp IH]; intros Hu; [constructor|].
  econstructor; [|apply IH; by apply (fwd_live u v w Hu Hf)]. destruct Hav. done.
Qed.

Lemma neighbour_remains x y : x ∈ R ∖ R' -> y ∈ R -> neighbour g x y -> y ∈ R'.
Proof.
  intros Hx Hy Hn. destruct (decide (y ∈ R')) as [|Hy']; [done|exfalso].
  apply (st_apart _ _ _ _ step x y Hx); [set_solver|]. by left.
Qed.

Lemma contracted_covered : covered (live_arcs R g) (live_arcs R' g') (fun x => x ∈ R ∖ R').
Proof.
  intros x a b w1 w2 Hx [Ha Hf1] [HxR Hf2] Hab.
  destruct (no_fwd R g net a x w1 Ha Hf1) as (w1' & Hw1 & Hb1).
  destruct (st_cover _ _ _ _ step x a b w1' w2 Hx Hb1 Hf2 Hab) as [(w & Hw & Hf)|(l & Hl & Hp)].
  - left. exists w. split; [lia|]. split; [|done]. apply (neighbour_remains x a Hx Ha).
    destruct Hb1 as (e & He & Ht & _). split; [|by exists e]. intros <-. by apply (fwd_live x x w1 Ha Hf1).
  - right. exists l. split; [lia|]. by apply path_live.
Qed.

(** Distances between remaining nodes are kept. *)
Lemma step_complete u t l : u ∈ R' -> t ∈ R' -> path (live_arcs R g) u t l -> within (live_arcs R' g') u t l.
Proof.
  intros Hu Ht. apply (contraction_complete (live_arcs R g) (live_arcs R' g') (fun x => x ∈ R ∖ R')).
  - intros a b w [Ha Hf]. by apply (fwd_live a b w Ha Hf).
  - apply contracted_independent.
  - apply contracted_covered.
  - intros a b w [Ha Hf] HnIa HnIb. destruct (fwd_live a b w Ha Hf) as (Hb & _).
    assert (a ∈ R') as Ha' by set_solver. assert (b ∈ R') as Hb' by set_solver.
    destruct (st_fwd _ _ _ _ step a b w Ha' Hb' Hf) as (w' & Hw' & Hf'). exists w'. split; [done|by split].
  - set_solver.
  - set_solver.
Qed.

(** An arc over a contracted node is a path of the old graph. *)
Lemma via_path x u v w1 w2 : x ∈ R -> bwd g x u w1 -> fwd g x v w2 -> within (live_arcs R g) u v (w1 + w2).
Proof.
  intros Hx Hb Hf. destruct (no_bwd R g net x u w1 Hx Hb) as (w' & Hw' & Hf'). apply (within_app _ _ x).
  - eapply within_arc; [|exact Hw']. split; [by apply (bwd_live x u w1)|done].
  - eapply within_arc; [|reflexivity]. done.
Qed.

Lemma step_sound u t l : path (live_arcs R' g') u t l -> within (live_arcs R g) u t l.
Proof.
  apply path_subst. intros a b w [Ha Hf].
  pose proof (st_sub _ _ _ _ step) as Hsub.
  destruct (st_fwd_old _ _ _ _ step a b w Ha Hf) as [Hf'|(x & w1 & w2 & Hx & Hb & Hf' & ->)].
  - eapply within_arc; [|reflexivity]. split; [by apply Hsub|done].
  - apply (via_path x); [set_solver|done|done].
Qed.
End step.

(** ** Hierarchies *)

(** A way up from [s], a way between live nodes, and a way down to [t]: [U]
    are the arcs recorded at contracted nodes, [D] the reversed arcs recorded
    there, [L] the arcs between live nodes. *)
Definition up_down (L U D : arcs) (s t l : N) : Prop :=
  exists a b l1 l2 l3, path U s a l1 /\ path L a b l2 /\ path D t b l3 /\ (l1 + l2 + l3 <= l)%N.

(** The lists represent the distances of [E0]. *)
Record hierarchy (E0 L U D : arcs) : Prop := {
  hi_live u v w : L u v w -> within E0 u v w;
  hi_up u v w : U u v w -> within E0 u v w;
  hi_down u v w : D u v w -> within E0 v u w;
  hi_complete s t l : path E0 s t l -> up_down L U D s t l;
}.

Lemma hierarchy_start E0 : hierarchy E0 E0 (fun _ _ _ => False) (fun _ _ _ => False).
Proof.
  constructor; try done.
  - intros. by eapply within_arc.
  - intros s t l Hp. exists s, t, 0%N, l, 0%N. split_and!; try done; try constructor. lia.
Qed.

(** When no node is live, the two ways meet, and nowhere below the distance. *)
Lemma hierarchy_end E0 L U D s t :
  hierarchy E0 L U D -> (forall u v w, ~ L u v w) ->
  (forall l, path E0 s t l -> exists m l1 l2, path U s m l1 /\ path D t m l2 /\ (l1 + l2 <= l)%N) /\
  (forall m l1 l2, path U s m l1 -> path D t m l2 -> within E0 s t (l1 + l2)).
Proof.
  intros Hh HL. split.
  - intros l (a & b & l1 & l2 & l3 & Hu & Hl & Hd & Hle)%(hi_complete _ _ _ _ Hh).
    inversion Hl; subst; [|by exfalso; eapply HL]. exists b, l1, l3. split_and!; try done. lia.
  - intros m l1 l2 Hu Hd. apply (within_app _ _ m).
    + eapply path_subst; [|exact Hu]. apply (hi_up _ _ _ _ Hh).
    + apply path_flip in Hd. eapply path_subst; [|exact Hd]. intros a b w. apply (hi_down _ _ _ _ Hh).
Qed.

Section climb.
  Context (L U D L' U' D' : arcs) (I : N -> Prop).
  Context `{I_dec : forall x, Decision (I x)}.
  Hypothesis kept_live : forall u t l, ~ I u -> ~ I t -> path L u t l -> within L' u t l.
  Hypothesis leave : forall x c w, I x -> L x c w -> ~ I c /\ exists w', (w' <= w)%N /\ U' x c w'.
  Hypothesis enter : forall d x w, I x -> L d x w -> ~ I d /\ exists w', (w' <= w)%N /\ D' x d w'.
  Hypothesis U_sub : forall u v w, U u v w -> U' u v w.
  Hypothesis D_sub : forall u v w, D u v w -> D' u v w.
  #[local] Set Default Proof Using "Type kept_live leave enter U_sub D_sub I_dec".

Lemma climb_start a b l : path L a b l ->
  a = b \/ exists c l1 l2, path U' a c l1 /\ ~ I c /\ path L c b l2 /\ (l1 + l2 <= l)%N.
Proof.
  intros Hp. destruct (decide (I a)) as [Ha|Ha].
  - inversion Hp as [|? c ? w l' He Hp']; subst; [by left|right].
    destruct (leave a c w Ha He) as [Hc (w' & Hw' & Hu)]. exists c, w', l'. split_and!; try done; [|lia].
    by apply path_arc.
  - right. exists a, 0%N, l. split_and!; try done. constructor.
Qed.

Lemma climb_end c b l : ~ I c -> path L c b l ->
  exists d l1 l2, ~ I d /\ path L c d l1 /\ path D' b d l2 /\ (l1 + l2 <= l)%N.
Proof.
  intros Hc Hp. destruct (decide (I b)) as [Hb|Hb].
  - apply path_snoc_inv in Hp as [[-> _]|(d & l' & w & Hp' & He & ->)]; [done|].
    destruct (enter d b w Hb He) as [Hd (w' & Hw' & Hdn)]. exists d, l', w'. split_and!; try done; [|lia].
    by apply path_arc.
  - exists b, l, 0%N. split_and!; try done; [constructor|lia].
Qed.

Lemma up_down_step s t l : up_down L U D s t l -> up_down L' U' D' s t l.
Proof.
  intros (a & b & l1 & l2 & l3 & Hu & Hl & Hd & Hle).
  apply (path_mono _ U') in Hu; [|exact U_sub]. apply (path_mono _ D') in Hd; [|exact D_sub].
  destruct (climb_start a b l2 Hl) as [->|(c & x & y & Hu' & Hc & Hl' & Hxy)].
  - exists b, b, l1, 0%N, l3. split_and!; try done; [constructor|lia].
  - destruct (climb_end c b y Hc Hl') as (d & p & q & Hnd & Hp & Hq & Hpq).
    destruct (kept_live c d p Hc Hnd Hp) as (p' & Hp' & Hlive).
    exists c, d, (l1 + x)%N, p', (l3 + q)%N. split_and!; [by eapply path_app|done|by eapply path_app|lia].
Qed.
End climb.
