(* ===== verification/Rounds.v ===== *)
(** * Contractor/Contractor.h: a round of Run as a whole

    [round_graph] succeeds and is a contraction step; [round] then leaves the
    heaps of the threads well-formed. *)

From S2P Require Import Prelude Types Paths Edges Storage BinaryHeap DynamicGraph Float32 Contractor.
From S2P Require Import WitnessSearch Independence ContractionRound Hierarchy.

(** The nodes that have not been contracted. *)
Definition remaining_ids {St} (c : contractor (St := St)) : gset N := list_to_set (rn_id <$> c_remaining c).

(** The number of shortcuts a round can insert, the degree they can lead to,
    and the number of times a round can clear the heap of a thread. *)
Definition round_shortcuts (D n : N) : N := (2 * D * D * n)%N.
Definition round_degree (D n : N) : N := (D + round_shortcuts D n)%N.
Definition round_clears (D n : N) : N := (D * n + D * round_degree D n * n)%N.

Lemma round_clears_mono D n n' : (n <= n')%N -> (round_clears D n <= round_clears D n')%N.
Proof.
  intros Hn. unfold round_clears, round_degree, round_shortcuts. apply N.add_le_mono; [by apply N.mul_le_mono_l|].
  apply N.mul_le_mono; [|done]. apply N.mul_le_mono_l, N.add_le_mono_l. by apply N.mul_le_mono_l.
Qed.

(** What a round needs of the state besides the invariant of the graph: finite
    priorities, a bound [D] on the degrees, weights whose sums fit, and room
    for the shortcuts. *)
Record round_room {St} (D : N) (c : contractor (St := St)) : Prop := {
  rr_count : (vsize (c_remaining c) < 4294967296)%N;
  rr_priority u : u ∈ remaining_ids c -> exists p, vget (c_priorities c) u = Some p /\ is_finite p;
  rr_degree u : u ∈ remaining_ids c -> (vsize (adj (c_graph c) u) <= D)%N;
  rr_weight x e1 e2 : x ∈ remaining_ids c -> e1 ∈ adj (c_graph c) x -> e2 ∈ adj (c_graph c) x ->
    (ce_distance (e_data e1) + ce_distance (e_data e2) < max_weight)%N;
  rr_space : let M := round_shortcuts D (vsize (c_remaining c)) in
    (vsize (edge_list (c_graph c)) + M * (2 * (D + M) + 3) < 2147483648)%N /\
    (2 * D * D + M < 4294967295)%N;
}.

(** ** The partition *)

Lemma partition_take marked :
  take (N.to_nat (vsize (filter (fun r => rn_is_independent r = false) marked))) (stable_partition marked) =
  filter (fun r => rn_is_independent r = false) marked.
Proof. unfold stable_partition, vsize. rewrite Nat2N.id. apply take_app_length. Qed.

Lemma partition_chosen marked :
  chosen (stable_partition marked) (vsize (filter (fun r => rn_is_independent r = false) marked)) =
  rn_id <$> filter (fun r => rn_is_independent r = true) marked.
Proof. unfold chosen, stable_partition, vsize. rewrite Nat2N.id. by rewrite drop_app_length. Qed.

Lemma partition_perm marked : stable_partition marked ≡ₚ marked.
Proof.
  unfold stable_partition. induction marked as [|r l IH]; [done|]. rewrite !filter_cons.
  destruct (rn_is_independent r) eqn:E; simpl.
  - rewrite <- Permutation_middle. by rewrite IH.
  - by rewrite IH.
Qed.

Lemma flag_member b x (marked : list RemainingNodeData) :
  x ∈ (rn_id <$> filter (fun r => rn_is_independent r = b) marked) <->
  exists r, r ∈ marked /\ rn_id r = x /\ rn_is_independent r = b.
Proof. rewrite list_elem_of_fmap. setoid_rewrite list_elem_of_filter. naive_solver. Qed.

Lemma vsize_not_into l es : (vsize (not_into l es) <= vsize es)%N.
Proof. unfold vsize, not_into. pose proof (length_filter (fun e => e_target e ∉ l) es). lia. Qed.

(** ** The phases that change the graph *)

Section rounds.
  Context {St : Type} `{IndexStorageLaws St}.
  Context (make_storage : N -> St) (fast_hash : XORFastHash) (schedule : N -> N -> N -> list (N * N)).
  Context (sort_edges : list ContractorEdge -> list ContractorEdge) (junk : N -> Edge ContractorEdgeData).
  Context (X : gset N).
  Hypothesis hash_wf : xor_hash_wf fast_hash.
  Hypothesis X_small : (N.of_nat (size X) < 2147483647)%N.
  Hypothesis schedule_all : forall k a b, (schedule k a b).*2 ≡ₚ irange a b.
  Hypothesis sort_perm : forall l, sort_edges l ≡ₚ l.
  #[local] Set Default Proof Using "All".

Abbreviation state := (contractor (St := St)).

(** The heaps of the threads, those still to be created included, can be
    cleared [b] times, and no edges wait to be inserted. *)
Definition threads_ready (b : N) (ts : list (N * ThreadData (St := St))) : Prop :=
  storage_ok make_storage X (b + 1) /\ threads_ok X b ts /\ all_inserted ts = [].

Lemma threads_ready_weaken b b' ts : (b' <= b)%N -> threads_ready b ts -> threads_ready b' ts.
Proof using Type.
  intros Hb (Hs & Ht & Hi). split_and!; [|by eapply threads_ok_weaken|done].
  intros n. destruct (Hs n) as [m Hm]. exists m. eapply st_weaken; [|done]. by apply N.add_le_mono_r.
Qed.

Lemma all_inserted_sorted (ts : list (N * ThreadData (St := St))) :
  all_inserted (prod_map id (sort_thread sort_edges) <$> ts) ≡ₚ all_inserted ts.
Proof.
  induction ts as [|[t d] ts IH]; [done|]. rewrite fmap_cons, !all_inserted_cons. cbn. by rewrite IH, sort_perm.
Qed.

Lemma threads_sorted b (ts : list (N * ThreadData (St := St))) :
  threads_ok X b ts ->
  threads_ok X b (prod_map id (fun d => MkThreadData (td_heap d) []) <$> (prod_map id (sort_thread sort_edges) <$> ts)).
Proof. intros Hok. by induction Hok; constructor. Qed.

Lemma threads_emptied (ts : list (N * ThreadData (St := St))) :
  all_inserted (prod_map id (fun d => MkThreadData (td_heap d) []) <$> ts) = [].
Proof. by induction ts. Qed.

(** The first half of a round: the chosen nodes and their shortcuts. *)
Lemma round_choose (c : state) D :
  let R := remaining_ids c in
  net_ok R (c_graph c) -> round_room D c ->
  exists marked,
    fold_m (mark_independent fast_hash (c_graph c) (c_priorities c)) (c_remaining c)
      (irange 0 (vsize (c_remaining c))) = Some marked /\
    rn_id <$> marked = rn_id <$> c_remaining c /\
    (forall r, r ∈ marked -> rn_id r ∈ R) /\
    let I := rn_id <$> filter (fun r => rn_is_independent r = true) marked in
    let R' : gset N := list_to_set (rn_id <$> filter (fun r => rn_is_independent r = false) marked) in
    (forall x, x ∈ R <-> x ∈ I \/ x ∈ R') /\ (forall x, x ∈ I -> x ∉ R') /\
    (forall x y, x ∈ I -> y ∈ I -> ~ near (c_graph c) x y).
Proof.
  intros R Hnet Hroom. pose proof (no_live _ _ Hnet) as Hlive.
  destruct (mark_ok fast_hash (c_graph c) (c_priorities c) R hash_wf Hlive (no_sides _ _ Hnet) (rr_priority D c Hroom)
    (c_remaining c) (rr_count D c Hroom)) as (marked & Hmark & Hids & Hind).
  { intros r Hr. apply elem_of_list_to_set. by apply list_elem_of_fmap_2. }
  rewrite Forall_forall in Hind.
  assert (forall x, x ∈ R <-> exists r, r ∈ marked /\ rn_id r = x) as HR.
  { intros x. unfold R, remaining_ids. rewrite elem_of_list_to_set, <- Hids, list_elem_of_fmap. naive_solver. }
  exists marked. split; [done|]. split; [done|]. split; [intros r Hr; apply HR; by exists r|]. cbn zeta. split_and!.
  - intros x. rewrite HR, elem_of_list_to_set, !flag_member. split.
    + intros (r & Hr & <-). destruct (rn_is_independent r) eqn:E; [left|right]; by exists r.
    + naive_solver.
  - intros x Hx Hx'. apply flag_member in Hx as (r & Hr & <- & Hf).
    apply elem_of_list_to_set, flag_member in Hx' as (r' & Hr' & Heq & Hf').
    apply Hind in Hr, Hr'. congruence.
  - intros x y Hx Hy Hn. apply flag_member in Hx as (r & Hr & <- & Hf). apply flag_member in Hy as (r' & Hr' & <- & Hf').
    eapply (chosen_not_near fast_hash (c_graph c) (c_priorities c) R hash_wf Hlive (no_sides _ _ Hnet)
      (rr_priority D c Hroom) (rn_id r) (rn_id r')); [apply HR; by exists r|apply HR; by exists r'| | |done].
    + by rewrite Hind, Hf.
    + by rewrite Hind, Hf'.
Qed.

(** The shortcuts of all chosen nodes. *)
Lemma round_contract k (c : state) D b marked :
  let R := remaining_ids c in let n := vsize (c_remaining c) in
  let remaining := stable_partition marked in
  let first := vsize (filter (fun r => rn_is_independent r = false) marked) in
  net_ok R (c_graph c) -> R ⊆ X -> round_room D c -> threads_ready (b + D * n) (c_threads c) ->
  rn_id <$> marked = rn_id <$> c_remaining c -> (forall r, r ∈ marked -> rn_id r ∈ R) ->
  exists ts Ls, contract_phase make_storage schedule k (c_graph c) (c_thread_nodes c) remaining first (c_threads c) = Some ts /\
    threads_ok X b ts /\ all_inserted ts ≡ₚ concat Ls /\ (vsize (concat Ls) <= round_shortcuts D n)%N /\
    (forall x, x ∈ chosen remaining first -> exists L, L ∈ Ls /\ node_shortcuts (c_graph c) x L) /\
    (forall L, L ∈ Ls -> exists x, x ∈ chosen remaining first /\ node_shortcuts (c_graph c) x L).
Proof.
  intros R n remaining first Hnet HRX Hroom (Hst & Hts & Hno) Hids HR.
  assert (vsize remaining = n) as Hn.
  { unfold remaining. rewrite partition_perm. apply (f_equal vsize) in Hids. unfold vsize in *. by rewrite !length_fmap in Hids. }
  assert (first <= n)%N as Hfirst.
  { rewrite <- Hn. unfold first, remaining, stable_partition. rewrite vsize_app. lia. }
  pose proof (rr_count D c Hroom) as Hcount. fold n in Hcount.
  destruct (rr_space D c Hroom) as [_ Hsp]. fold n in Hsp. unfold round_shortcuts in *.
  destruct (contract_phase_ok make_storage schedule X R (c_graph c) D (no_live _ _ Hnet) HRX X_small (rr_degree D c Hroom)
    k (c_thread_nodes c) remaining first b (c_threads c)) as (ts & Ls & Hrun & Hok & Hp & HF & Hsz).
  - apply schedule_all.
  - rewrite Hn. lia.
  - intros r Hr. apply HR. unfold remaining in Hr. by rewrite partition_perm in Hr.
  - rewrite Hn. intros nd. destruct (Hst nd) as [m Hm]. exists m. eapply st_weaken; [|done]. nia.
  - rewrite Hn. eapply threads_ok_weaken; [|done]. nia.
  - done.
  - rewrite Hn. nia.
  - exists ts, Ls. rewrite Hn in Hsz, HF. split_and!; try done; [nia| |].
    + intros x Hx. pose proof (chosen_positions remaining first) as Hpos. rewrite Hn in Hpos. specialize (Hpos Hcount).
      apply list_elem_of_lookup in Hx as [i Hi]. destruct (Forall2_lookup_r _ _ _ _ _ Hpos Hi) as (p & Hp' & r & Hr & <-).
      assert (p ∈ (schedule k first n).*2) as Hin by (rewrite schedule_all; by eapply list_elem_of_lookup_2).
      apply list_elem_of_fmap in Hin as ([t p'] & -> & Htp). apply list_elem_of_lookup in Htp as [j Hj].
      destruct (Forall2_lookup_l _ _ _ _ _ HF Hj) as (L & HL & r' & Hr' & Hns). cbn [snd] in *.
      assert (r' = r) as -> by congruence. exists L. split; [by eapply list_elem_of_lookup_2|done].
    + intros L HL. apply list_elem_of_lookup in HL as [j Hj].
      destruct (Forall2_lookup_r _ _ _ _ _ HF Hj) as ([t p] & Htp & r & Hr & Hns). cbn [snd] in Hr.
      exists (rn_id r). split; [|done]. unfold chosen. apply list_elem_of_fmap_2.
      assert (p ∈ irange first n) as Hin.
      { rewrite <- (schedule_all k). apply list_elem_of_fmap. exists (t, p). split; [done|]. by eapply list_elem_of_lookup_2. }
      apply elem_of_irange in Hin; [|done]. rewrite vget_lookup in Hr.
      apply list_elem_of_lookup. exists (N.to_nat p - N.to_nat first)%nat. rewrite lookup_drop, <- Hr. f_equal. lia.
Qed.

(** The insertion of all shortcuts, in the order of the sorted thread lists. *)
Lemma round_insert (c : state) D (ts : list (N * ThreadData (St := St))) g1 I Ls :
  let R := remaining_ids c in let n := vsize (c_remaining c) in
  net_ok R (c_graph c) -> round_room D c -> (forall x, x ∈ I -> x ∈ R) -> deleted R (c_graph c) I g1 ->
  all_inserted ts ≡ₚ concat Ls -> (vsize (concat Ls) <= round_shortcuts D n)%N ->
  (forall L, L ∈ Ls -> exists x, x ∈ I /\ node_shortcuts (c_graph c) x L) ->
  exists g2 K, insert_phase junk g1 (prod_map id (sort_thread sort_edges) <$> ts) = Some g2 /\
    inserted g1 K (concat Ls) g2.
Proof.
  intros R n Hnet Hroom HI (Hwf1 & Hn1 & He1 & Hin1 & _) Hins Hsz Horig. rewrite insert_phase_list.
  set (All := all_inserted (prod_map id (sort_thread sort_edges) <$> ts)).
  assert (All ≡ₚ concat Ls) as HAll by (unfold All; by rewrite all_inserted_sorted).
  pose proof (no_live _ _ Hnet) as Hlive.
  destruct (insert_list_ok junk g1 D All Hwf1) as (g2 & Hrun & Hg2).
  - intros x Hx. rewrite HAll in Hx. apply elem_of_concat in Hx as (L & HL & Hx).
    destruct (Horig L HL) as (y & Hy & Hns). apply HI in Hy.
    destruct (shortcut_ends _ y L x Hns Hx) as (e1 & e2 & He1' & He2' & <- & <- & _).
    assert (e_target e1 ∈ R) as HsR by (by apply (lo_edges R _ Hlive y e1)). split_and!.
    + rewrite Hn1. by apply (lo_nodes R _ Hlive).
    + by eapply adj_used; [apply (lo_wf R _ Hlive)|].
    + rewrite (Hin1 _ HsR). etrans; [|by apply (rr_degree D c Hroom)]. apply vsize_not_into.
  - rewrite HAll, He1. destruct (rr_space D c Hroom) as [Hsp _]. fold n in Hsp.
    eapply N.le_lt_trans; [|exact Hsp]. apply N.add_le_mono_l. apply N.mul_le_mono; [done|]. lia.
  - exists g2, (2 * (D + vsize All) + 3)%N. split; [done|]. by eapply inserted_perm.
Qed.

Lemma round_graph_ok k (c : state) D b :
  let R := remaining_ids c in let n := vsize (c_remaining c) in
  net_ok R (c_graph c) -> R ⊆ X -> round_room D c -> threads_ready (b + D * n) (c_threads c) ->
  exists g2 remaining first threads,
    round_graph sort_edges junk make_storage fast_hash schedule k c = Some (g2, remaining, first, threads) /\
    let R' := list_to_set (rn_id <$> take (N.to_nat first) remaining) in
    contraction_step R (c_graph c) R' g2 /\ net_ok R' g2 /\ threads_ready b threads /\
    (first <= n)%N /\ vsize remaining = n /\ rn_id <$> remaining ≡ₚ rn_id <$> c_remaining c /\
    (forall x, x ∈ chosen remaining first -> x ∈ R ∖ R') /\
    (forall u, u ∈ R -> (vsize (adj g2 u) <= round_degree D n)%N) /\
    (forall u, u ∈ R ∖ R' -> (vsize (adj g2 u) <= D)%N).
Proof.
  intros R n Hnet HRX Hroom Hth.
  destruct (round_choose c D Hnet Hroom) as (marked & Hmark & Hids & HmR & Hsplit & Hdis & Hap).
  unfold round_graph. rewrite Hmark. cbn [mbind option_bind].
  destruct (round_contract (2 * k + 1) c D b marked Hnet HRX Hroom Hth Hids HmR)
    as (ts & Ls & Hrun & Hok & Hins & Hsz & Hcov & Horig).
  rewrite Hrun. cbn [mbind option_bind]. rewrite partition_chosen in Hcov, Horig.
  set (I := rn_id <$> filter (fun r => rn_is_independent r = true) marked) in *.
  set (first := vsize (filter (fun r => rn_is_independent r = false) marked)) in *.
  assert (chosen (stable_partition marked) first = I) as HI by apply partition_chosen.
  assert (vsize (stable_partition marked) = n) as Hn.
  { rewrite partition_perm. apply (f_equal vsize) in Hids. unfold vsize in *. by rewrite !length_fmap in Hids. }
  assert (forall x, x ∈ I -> x ∈ R) as HIR by (intros; apply Hsplit; by left).
  destruct (delete_phase_ok R (c_graph c) (stable_partition marked) first (no_live _ _ Hnet) (no_sides _ _ Hnet))
    as (g1 & Hdel & Hdeleted).
  { rewrite Hn. apply (rr_count D c Hroom). } { by rewrite HI. }
  { rewrite HI. intros x y Hx Hy Hnb. apply (Hap x y Hx Hy). by left. }
  rewrite HI in Hdeleted. rewrite Hdel. cbn [mbind option_bind].
  destruct (round_insert c D ts g1 I Ls Hnet Hroom HIR Hdeleted Hins Hsz Horig) as (g2 & K & -> & Hg2).
  cbn [mbind option_bind]. eexists _, _, _, _. split; [done|].
  replace (take (N.to_nat first) (stable_partition marked))
    with (filter (fun r => rn_is_independent r = false) marked) by (symmetry; apply partition_take).
  cbn zeta. rewrite HI.
  set (R' := list_to_set (rn_id <$> filter (fun r => rn_is_independent r = false) marked) : gset N) in *.
  assert (forall x a b' w1 w2, x ∈ I -> bwd (c_graph c) x a w1 -> fwd (c_graph c) x b' w2 -> (w1 + w2 < max_weight)%N) as Hw.
  { intros x a b' w1 w2 Hx (e1 & He1 & _ & _ & <-) (e2 & He2 & _ & _ & <-). apply (rr_weight D c Hroom x); try done. by apply HIR. }
  pose proof (phases_step R R' (c_graph c) g1 g2 I Ls K Hnet Hsplit Hdis Hap Hdeleted Hcov Horig Hg2 Hw) as Hstep.
  split_and!.
  - done.
  - by apply (phases_net R R' (c_graph c) g1 g2 I Ls K).
  - destruct Hth as (Hst & _). split_and!; [|by apply threads_sorted|apply threads_emptied].
    intros nd. destruct (Hst nd) as [m Hm]. exists m. eapply st_weaken; [|done]. lia.
  - rewrite <- Hn. unfold first, stable_partition. rewrite vsize_app. lia.
  - done.
  - by rewrite partition_perm, Hids.
  - intros x Hx. apply elem_of_difference. split; [by apply HIR|by apply Hdis].
  - intros u Hu. etrans; [apply (in_degree _ _ _ _ Hg2)|]. unfold round_degree. apply N.add_le_mono; [|done].
    destruct Hdeleted as (_ & _ & _ & Hin1 & _). rewrite (Hin1 u Hu).
    etrans; [apply vsize_not_into|]. by apply (rr_degree D c Hroom).
  - intros u [Hu Hu']%elem_of_difference. rewrite (st_frozen _ _ _ _ Hstep u Hu'). by apply (rr_degree D c Hroom).
Qed.

(** ** The last phase *)

(** Work on one thread that only uses its heap. *)
Lemma on_thread_partial {T} nodes t (f : ThreadData (St := St) -> option (ThreadData * T)) b k ts ts' r :
  (forall d d' r, heap_wf X (b + k) (td_heap d) -> f d = Some (d', r) ->
     heap_wf X b (td_heap d') /\ td_inserted_edges d' = td_inserted_edges d) ->
  threads_ready (b + k) ts -> on_thread make_storage nodes t f ts = Some (ts', r) -> threads_ready b ts'.
Proof.
  intros Hf Hready Hrun. split; [by eapply (threads_ready_weaken _ b) in Hready as [? _]; [|lia]|].
  destruct Hready as (Hst & Hok & Hno). revert ts' Hrun.
  induction ts as [|[t' d] ts IH]; intros ts' Hrun; cbn [on_thread] in Hrun.
  - destruct (f _) as [[d' r']|] eqn:E; [|done]. injection Hrun as <- _.
    destruct (Hst nodes) as [m Hm].
    destruct (clear_wf (D := ContractorHeapData) X (b + k) (MkBinaryHeap [] [] (make_storage nodes)) m Hm) as [Hwf _].
    apply Hf in E as [Hwf' Hins]; [|done]. split; [by apply Forall_singleton|].
    rewrite all_inserted_cons. cbn [snd]. by rewrite Hins.
  - apply Forall_cons in Hok as [Hd Hok]. rewrite all_inserted_cons in Hno. apply app_eq_nil in Hno as [Hno1 Hno2].
    destruct (t =? t')%N.
    + destruct (f d) as [[d' r']|] eqn:E; [|done]. injection Hrun as <- _. apply Hf in E as [Hwf' Hins]; [|done].
      split; [constructor; [done|eapply threads_ok_weaken; [|done]; lia]|].
      rewrite all_inserted_cons. cbn [snd]. rewrite Hins. by apply app_nil.
    + destruct (on_thread make_storage nodes t f ts) as [[ts1 r1]|] eqn:E; [|done]. injection Hrun as <- <-.
      destruct (IH Hok Hno2 ts1) as [Hok1 Hno1']; [done|]. split.
      * constructor; [|done]. eapply heap_wf_weaken; [|done]. lia.
      * rewrite all_inserted_cons. by apply app_nil.
Qed.

Lemma update_neighbours_ok R g x pr nd h pr' nd' h' D D2 b :
  live_ok R g -> R ⊆ X -> (x < vsize (node_list g))%N -> (forall u, neighbour g x u -> u ∈ R) ->
  (vsize (adj g x) <= D)%N -> (forall u, u ∈ R -> (vsize (adj g u) <= D2)%N) ->
  heap_wf X (b + D * D2) h -> UpdateNodeNeighbours g x pr nd h = Some (pr', nd', h') -> heap_wf X b h'.
Proof.
  intros Hlive HRX Hx Hnb HD HD2 Hwf. unfold UpdateNodeNeighbours.
  destruct (GetAdjacentEdgeRange x g) as [r|]; [|done]. cbn [mbind option_bind].
  destruct (fold_m (raise_depth g x) nd r) as [nd1|]; [|done]. cbn [mbind option_bind].
  destruct (neighbours_of_ok g x (lo_wf _ _ Hlive) Hx) as (l & -> & Hlen & Hl). cbn [mbind option_bind].
  destruct (fold_m (reevaluate g nd1) (pr, h) l) as [[pr1 h1]|] eqn:E; [|done]. cbn [mbind option_bind].
  intros [= <- <- <-].
  eapply (fold_m_partial (reevaluate g nd1) (fun post s => heap_wf X (b + vsize post * D2) s.2 /\ forall u, u ∈ post -> u ∈ R)) in E.
  - destruct E as [E _]. eapply heap_wf_weaken; [|exact E]. lia.
  - split; [|intros u Hu; by apply Hnb, Hl]. eapply heap_wf_weaken; [|exact Hwf]. cbn [snd]. nia.
  - intros u post [pr2 h2] s' [Hwf2 Hin]. unfold reevaluate, EvaluateNodePriority.
    destruct (vget nd1 u) as [depth|]; [|done]. cbn [mbind option_bind].
    destruct (ContractNode true g u _) as [cs|] eqn:Ec; [|done]. cbn [mbind option_bind].
    destruct (priority_of (cs_stats cs) depth) as [p|]; [|done]. cbn [mbind option_bind].
    destruct (vset pr2 u p) as [pr3|]; [|done]. cbn [mbind option_bind]. intros [= <-]. cbn [snd].
    assert (u ∈ R) as Hu by (apply Hin; by left). split; [|intros v Hv; apply Hin; by right].
    eapply (simulate_ok X R g Hlive HRX X_small u); [|done|exact Ec]. cbn [cs_heap].
    eapply heap_wf_weaken; [|exact Hwf2]. specialize (HD2 u Hu). unfold vsize. cbn [length snd]. fold (vsize post).
    change (N.of_nat (S (length post))) with (N.of_nat (length (u :: post))). unfold vsize in *. cbn [length]. nia.
Qed.
(** The last phase as a whole. *)
Lemma update_phase_ok R R' g g2 remaining nodes positions pr nd ts pr' nd' ts' D D2 b :
  net_ok R' g2 -> R' ⊆ X -> contraction_step R g R' g2 -> net_ok R g ->
  (forall x, x ∈ R -> (x < vsize (node_list g2))%N) ->
  (forall tx, tx ∈ positions -> exists r, vget remaining tx.2 = Some r /\ rn_id r ∈ R ∖ R') ->
  (forall u, u ∈ R' -> (vsize (adj g2 u) <= D2)%N) -> (forall u, u ∈ R ∖ R' -> (vsize (adj g2 u) <= D)%N) ->
  threads_ready (b + D * D2 * vsize positions) ts ->
  fold_m (update_position make_storage remaining g2 nodes) (pr, nd, ts) positions = Some (pr', nd', ts') ->
  threads_ready b ts'.
Proof.
  intros Hnet2 HR'X Hstep Hnet Hnodes Hpos HD2 HD Hready Hrun.
  eapply (fold_m_partial _ (fun post s => threads_ready (b + D * D2 * vsize post) s.2 /\
    forall tx, tx ∈ post -> exists r, vget remaining tx.2 = Some r /\ rn_id r ∈ R ∖ R')) in Hrun; [|by split|].
  - destruct Hrun as [Hr _]. eapply threads_ready_weaken; [|exact Hr]. lia.
  - intros [t p] post [[pr1 nd1] ts1] s' [Hr1 Hin]. destruct (Hin (t, p)) as (r & Hvr & HrI); [by left|].
    unfold update_position. cbn [snd] in Hvr. rewrite Hvr. cbn [mbind option_bind].
    destruct (on_thread make_storage nodes t _ ts1) as [[ts2 pd]|] eqn:E; [|done]. cbn [mbind option_bind].
    intros [= <-]. cbn [snd]. split; [|intros tx Htx; apply Hin; by right].
    cbn [snd] in Hr1. eapply (on_thread_partial nodes t _ _ (D * D2)); [|eapply threads_ready_weaken; [|exact Hr1]|exact E].
    2:{ unfold vsize. cbn [length]. lia. }
    intros d d' r' Hd Hf. cbn beta in Hf.
    destruct (UpdateNodeNeighbours g2 (rn_id r) pr1 nd1 (td_heap d)) as [[[a1 a2] h']|] eqn:Eu; [|done].
    injection Hf as <- _. cbn [td_heap td_inserted_edges]. split; [|done].
    eapply (update_neighbours_ok R' g2 (rn_id r)); [by apply no_live|done| | |by apply HD|done|exact Hd|exact Eu].
    + apply Hnodes. set_solver.
    + intros u (Hne & e & He & <-). rewrite (st_frozen _ _ _ _ Hstep) in He by set_solver.
      assert (rn_id r ∈ R) as HrR by set_solver.
      destruct (lo_edges R g (no_live _ _ Hnet) (rn_id r) e HrR He) as (HtR & _).
      apply (neighbour_remains R g R' g2 Hnet Hstep Hnet2 (rn_id r)); [done|done|]. split; [done|]. by exists e.
Qed.

Lemma round_ok k (c c' : state) D b :
  let R := remaining_ids c in let n := vsize (c_remaining c) in
  net_ok R (c_graph c) -> R ⊆ X -> round_room D c -> threads_ready (b + round_clears D n) (c_threads c) ->
  (c_contracted c + n < 4294967296)%N ->
  round sort_edges junk make_storage fast_hash schedule k c = Some c' ->
  contraction_step R (c_graph c) (remaining_ids c') (c_graph c') /\
  net_ok (remaining_ids c') (c_graph c') /\ threads_ready b (c_threads c') /\
  (c_contracted c' + vsize (c_remaining c') = c_contracted c + n)%N /\
  (NoDup (rn_id <$> c_remaining c) -> NoDup (rn_id <$> c_remaining c')) /\
  c_orig_map c' = c_orig_map c /\ c_external c' = c_external c /\ c_flushed c' = c_flushed c.
Proof.
  intros R n Hnet HRX Hroom Hth Hsum. unfold round_clears in Hth.
  destruct (round_graph_ok k c D (b + D * round_degree D n * n) Hnet HRX Hroom)
    as (g2 & remaining & first & ts & Hrun & Hstep & Hnet2 & Hts & Hfirst & Hn & Hperm & Hch & HD2 & HD).
  { eapply threads_ready_weaken; [|exact Hth]. lia. }
  fold R n in Hn, Hfirst, HD2, HD, Hch, Hstep.
  set (R' := list_to_set (rn_id <$> take (N.to_nat first) remaining) : gset N) in *.
  unfold round. rewrite Hrun. cbn [mbind option_bind].
  destruct (fold_m (update_position make_storage remaining g2 (c_thread_nodes c)) _ _) as [[[pr nd] ts']|] eqn:E; [|done].
  cbn [mbind option_bind]. intros [= <-]. unfold remaining_ids.
  cbn [c_graph c_remaining c_threads c_contracted c_orig_map c_external c_flushed]. fold R'.
  pose proof (st_sub _ _ _ _ Hstep) as Hsub. pose proof (rr_count D c Hroom) as Hcount. fold n in Hcount.
  split; [done|]. split; [done|]. split; [|split; [|split; [|done]]].
  - eapply (update_phase_ok R R' (c_graph c) g2 remaining); [done|set_solver|done|done| | | |exact HD| |exact E].
    + intros x Hx. destruct (decide (x ∈ R')) as [Hx'|Hx']; [by apply (lo_nodes _ _ (no_live _ _ Hnet2))|].
      pose proof (lo_nodes _ _ (no_live _ _ Hnet) x Hx) as Hlt. by rewrite (st_nodes _ _ _ _ Hstep).
    + intros [t p] Htp. assert (p ∈ irange first n) as Hp.
      { rewrite <- (schedule_all (2 * k + 2)). apply list_elem_of_fmap. by exists (t, p). }
      apply elem_of_irange in Hp; [|done]. destruct (vget_lt remaining p) as [r Hr]; [lia|]. exists r. split; [done|].
      apply Hch. unfold chosen. apply list_elem_of_fmap_2. rewrite vget_lookup in Hr.
      apply list_elem_of_lookup. exists (N.to_nat p - N.to_nat first)%nat. rewrite lookup_drop, <- Hr. f_equal. lia.
    + intros u Hu. apply HD2. by apply Hsub.
    + eapply threads_ready_weaken; [|exact Hts]. apply N.add_le_mono_l, N.mul_le_mono_l.
      assert (vsize (schedule (2 * k + 2) first n).*2 = (n - first)%N) as Hs.
      { rewrite schedule_all. unfold vsize. rewrite length_irange by done. lia. }
      unfold vsize in *. rewrite length_fmap in Hs. fold n in Hs. fold n. lia.
  - assert (vsize (take (N.to_nat first) remaining) = first) as ->.
    { unfold vsize in *. rewrite length_take. lia. }
    fold n. rewrite (usub_small n first) by lia. rewrite uadd_small by lia. lia.
  - rewrite <- Hperm. intros Hnd. rewrite <- (take_drop (N.to_nat first) remaining), fmap_app in Hnd.
    by apply NoDup_app in Hnd as [? _].
Qed.

(** The number of nodes of the graph does not change. *)
Lemma insert_shortcut_nodes g x g' : insert_shortcut junk g x = Some g' -> number_of_nodes g' = number_of_nodes g.
Proof.
  unfold insert_shortcut. destruct (FindEdge _ _ g) as [i|]; [|done]. cbn [mbind option_bind].
  destruct (EndEdges _ g) as [j|]; [|done]. cbn [mbind option_bind].
  assert (('(_, g1) ← InsertEdge junk (ie_source x) (ie_target x) (ie_data x) g; Some g1) = Some g' ->
    number_of_nodes g' = number_of_nodes g) as Hins.
  { destruct (InsertEdge _ _ _ _ g) as [[e g1]|] eqn:E; [|done]. intros [= <-]. by eapply InsertEdge_nodes. }
  case_ltb; [|done]. destruct (GetEdgeData i g) as [d|]; [|done]. cbn [mbind option_bind].
  case_match; [|done]. by apply AssignEdgeData_nodes.
Qed.

Lemma round_graph_nodes k (c : state) g2 remaining first threads :
  round_graph sort_edges junk make_storage fast_hash schedule k c = Some (g2, remaining, first, threads) ->
  number_of_nodes g2 = number_of_nodes (c_graph c).
Proof.
  unfold round_graph. intros Hrun.
  destruct (fold_m (mark_independent _ _ _) _ _) as [marked|]; [|done]. cbn [mbind option_bind] in Hrun.
  destruct (contract_phase _ _ _ _ _ _ _ _) as [ts|]; [|done]. cbn [mbind option_bind] in Hrun.
  destruct (delete_phase _ _ _) as [g1|] eqn:Ed; [|done]. cbn [mbind option_bind] in Hrun.
  destruct (insert_phase _ _ _) as [g3|] eqn:Ei; [|done]. cbn [mbind option_bind] in Hrun.
  injection Hrun as <- _ _ _. rewrite insert_phase_list in Ei. trans (number_of_nodes g1).
  - revert Ei. apply (fold_m_inv _ (fun g => number_of_nodes g = number_of_nodes g1)); [done|].
    intros x g g' _ <- Hx. by eapply insert_shortcut_nodes.
  - revert Ed. unfold delete_phase.
    apply (fold_m_inv _ (fun g => number_of_nodes g = number_of_nodes (c_graph c))); [done|].
    intros x g g' _ <-. unfold delete_position. intros Hx. inv_bind Hx. revert Hx. unfold DeleteIncomingEdges.
    destruct (neighbours_of g (rn_id x0)) as [l|]; [|done]. cbn [mbind option_bind].
    apply (fold_m_inv _ (fun g0 => number_of_nodes g0 = number_of_nodes g)); [done|].
    intros u g0 g0' _ <-. unfold delete_step. intros Hd. inv_bind Hd. case_match. simplify_eq. by eapply DeleteEdgesTo_nodes.
Qed.
End rounds.
