(* ===== verification/Renumbering.v ===== *)
(** * Contractor/Contractor.h: the state of Run in original node ids

    After the flush the remaining nodes have new ids. The arcs of a state are
    stated in the ids of the input graph, so that a round and the flush are
    steps of one hierarchy. *)

From S2P Require Import Prelude Types Paths Edges Storage BinaryHeap DynamicGraph Float32 Contractor.
From S2P Require Import WitnessSearch Independence ContractionRound Hierarchy Rounds.

Section state.
  Context {St : Type}.
  Implicit Types c : contractor (St := St).

(** [n'] is the current id of the node [n]. *)
Definition node_of c (n' n : N) : Prop := original_id (c_orig_map c) n' = Some n.

(** The arcs of a list of query edges, in both directions. *)
Definition query_fwd (l : list QueryEdge) : arcs := fun u v w =>
  exists q, q ∈ l /\ qe_source q = u /\ qe_target q = v /\ qd_forward (qe_data q) = true /\
    qd_distance (qe_data q) = Z.of_N w.

Definition query_bwd (l : list QueryEdge) : arcs := fun u v w =>
  exists q, q ∈ l /\ qe_source q = u /\ qe_target q = v /\ qd_backward (qe_data q) = true /\
    qd_distance (qe_data q) = Z.of_N w.

(** The arcs between live nodes, and those recorded at contracted nodes. *)
Definition live_of c : arcs := fun u v w =>
  exists u' v', node_of c u' u /\ node_of c v' v /\ u' ∈ remaining_ids c /\ fwd (c_graph c) u' v' w.

Definition up_of c : arcs := fun u v w =>
  query_fwd (c_external c) u v w \/
  exists u' v', node_of c u' u /\ node_of c v' v /\ (u' ∉ remaining_ids c) /\ fwd (c_graph c) u' v' w.

Definition down_of c : arcs := fun u v w =>
  query_bwd (c_external c) u v w \/
  exists u' v', node_of c u' u /\ node_of c v' v /\ (u' ∉ remaining_ids c) /\ bwd (c_graph c) u' v' w.

(** The renumbering is one-to-one and defined on the remaining nodes. *)
Record map_ok c : Prop := {
  mo_inj x y z : node_of c x z -> node_of c y z -> x = y;
  mo_total x : x ∈ remaining_ids c -> exists z, node_of c x z;
}.

Lemma node_of_fun c x y z : node_of c x y -> node_of c x z -> y = z.
Proof. unfold node_of. congruence. Qed.

(** Paths between live nodes in current and in original ids. *)
Lemma path_unmap c u t l :
  map_ok c -> net_ok (remaining_ids c) (c_graph c) -> path (live_of c) u t l ->
  u = t /\ l = 0%N \/
  exists u' t', node_of c u' u /\ node_of c t' t /\ u' ∈ remaining_ids c /\ t' ∈ remaining_ids c /\
    path (live_arcs (remaining_ids c) (c_graph c)) u' t' l.
Proof.
  intros Hm Hnet. induction 1 as [u|u v t w l (u' & v' & Hu & Hv & Hr & Hf) Hp IH]; [by left|right].
  assert (v' ∈ remaining_ids c) as Hv'.
  { destruct Hf as (e & He & <- & _). by apply (lo_edges _ _ (no_live _ _ Hnet) u' e). }
  destruct IH as [[-> ->]|(v1 & t' & Hv1 & Ht & _ & Ht' & Hp')].
  - exists u', v'. split_and!; try done. replace (w + 0)%N with w by lia. by apply path_arc.
  - exists u', t'. split_and!; try done. apply (path_cons _ u' v'); [done|].
    assert (v1 = v') as -> by (by eapply mo_inj). done.
Qed.

Lemma path_map c u' t' u t l :
  map_ok c -> net_ok (remaining_ids c) (c_graph c) -> u' ∈ remaining_ids c -> node_of c u' u -> node_of c t' t ->
  path (live_arcs (remaining_ids c) (c_graph c)) u' t' l -> path (live_of c) u t l.
Proof.
  intros Hm Hnet Hu' Hu Ht Hp. revert u Hu' Hu. induction Hp as [u'|u' v' t' w l [Hr Hf] Hp IH]; intros u Hu' Hu.
  - assert (u = t) as -> by (by eapply node_of_fun). constructor.
  - assert (v' ∈ remaining_ids c) as Hv'.
    { destruct Hf as (e & He & <- & _). by apply (lo_edges _ _ (no_live _ _ Hnet) u' e). }
    destruct (mo_total c Hm v' Hv') as [v Hv]. apply (path_cons _ u v); [|by apply IH]. by exists u', v'.
Qed.
End state.

(** ** A round *)

Section round_step.
  Context {St : Type} (E0 : arcs) (c c' : contractor (St := St)).
  Hypothesis hier : hierarchy E0 (live_of c) (up_of c) (down_of c).
  Hypothesis net : net_ok (remaining_ids c) (c_graph c).
  Hypothesis net' : net_ok (remaining_ids c') (c_graph c').
  Hypothesis step : contraction_step (remaining_ids c) (c_graph c) (remaining_ids c') (c_graph c').
  Hypothesis map : map_ok c.
  Hypothesis same_map : c_orig_map c' = c_orig_map c.
  Hypothesis same_external : c_external c' = c_external c.
  #[local] Set Default Proof Using "All".

(** The nodes the round contracts, in original ids. *)
Definition contracted : gset N :=
  list_to_set (omap (original_id (c_orig_map c)) (elements (remaining_ids c ∖ remaining_ids c'))).

Lemma elem_of_contracted x :
  x ∈ contracted <-> exists x', node_of c x' x /\ x' ∈ remaining_ids c ∖ remaining_ids c'.
Proof using Type.
  unfold contracted. rewrite elem_of_list_to_set, list_elem_of_omap. setoid_rewrite elem_of_elements.
  unfold node_of. split; intros (x' & ? & ?); by exists x'.
Qed.

Lemma node_of_same x' x : node_of c' x' x <-> node_of c x' x.
Proof. unfold node_of. by rewrite same_map. Qed.

Lemma map_ok_step : map_ok c'.
Proof.
  constructor.
  - intros x y z. rewrite !node_of_same. apply (mo_inj c map).
  - intros x Hx. setoid_rewrite node_of_same. apply (mo_total c map). by apply (st_sub _ _ _ _ step).
Qed.

Lemma remains x' x : node_of c x' x -> x' ∈ remaining_ids c -> x ∉ contracted -> x' ∈ remaining_ids c'.
Proof.
  intros Hn Hr Hc. destruct (decide (x' ∈ remaining_ids c')) as [|Hout]; [done|exfalso].
  apply Hc, elem_of_contracted. exists x'. set_solver.
Qed.

Lemma not_contracted x' x : node_of c x' x -> x' ∈ remaining_ids c' -> x ∉ contracted.
Proof.
  intros Hn Hr (y & Hy & Hd)%elem_of_contracted. assert (y = x') as -> by (by eapply (mo_inj c map)). set_solver.
Qed.

(** Arcs that touch a contracted node. *)
Lemma leave_contracted x d w : x ∈ contracted -> live_of c x d w ->
  (d ∉ contracted) /\ exists w', (w' <= w)%N /\ up_of c' x d w'.
Proof.
  intros (x1 & Hx1 & Hd1)%elem_of_contracted (x' & d' & Hx & Hd & Hr & Hf).
  assert (x1 = x') as -> by (by eapply (mo_inj c map)).
  assert (neighbour (c_graph c) x' d' /\ d' ∈ remaining_ids c) as [Hn Hd'].
  { destruct Hf as (e & He & <- & _). destruct (lo_edges _ _ (no_live _ _ net) x' e Hr He) as (? & ? & _).
    split; [split; [done|by exists e]|done]. }
  assert (d' ∈ remaining_ids c') as Hd2 by (by apply (neighbour_remains _ _ _ _ net step net' x')).
  split; [by apply (not_contracted d')|]. exists w. split; [done|]. right. exists x', d'. rewrite !node_of_same.
  split_and!; [done|done|set_solver|]. destruct Hf as (e & He & Hrest). exists e. split; [|done].
  rewrite (st_frozen _ _ _ _ step) by set_solver. done.
Qed.

Lemma enter_contracted d x w : x ∈ contracted -> live_of c d x w ->
  (d ∉ contracted) /\ exists w', (w' <= w)%N /\ down_of c' x d w'.
Proof.
  intros (x1 & Hx1 & Hd1)%elem_of_contracted (d' & x' & Hd & Hx & Hr & Hf).
  assert (x1 = x') as -> by (by eapply (mo_inj c map)).
  destruct (no_fwd _ _ net d' x' w Hr Hf) as (w' & Hw' & e & He & Ht & Hb & Hw).
  assert (x' ∈ remaining_ids c) as HxR by set_solver.
  destruct (lo_edges _ _ (no_live _ _ net) x' e HxR He) as (Hd' & Hne & _). rewrite Ht in Hd', Hne.
  assert (d' ∈ remaining_ids c') as Hd2.
  { apply (neighbour_remains _ _ _ _ net step net' x'); [done|done|]. split; [done|by exists e]. }
  split; [by apply (not_contracted d')|]. exists w'. split; [done|]. right. exists x', d'. rewrite !node_of_same.
  split_and!; [done|done|set_solver|]. exists e. rewrite (st_frozen _ _ _ _ step) by set_solver. done.
Qed.

Lemma live_kept u t l : u ∉ contracted -> t ∉ contracted -> path (live_of c) u t l -> within (live_of c') u t l.
Proof.
  intros Hu Ht Hp. apply (path_unmap c u t l map net) in Hp as [[-> ->]|(u' & t' & Hu' & Ht' & HuR & HtR & Hp)].
  { apply within_refl. }
  assert (u' ∈ remaining_ids c') as Hu2 by (by eapply remains).
  destruct (step_complete _ _ _ _ net step net' u' t' l Hu2) as (l' & Hl' & Hp'); [by eapply remains|done|].
  exists l'. split; [done|]. by apply (path_map c' u' t'); [apply map_ok_step|done|done|by apply node_of_same|by apply node_of_same|].
Qed.

(** The round keeps the hierarchy. *)
Lemma round_hierarchy : hierarchy E0 (live_of c') (up_of c') (down_of c').
Proof.
  pose proof (st_sub _ _ _ _ step) as Hsub. constructor.
  - intros u v w (u' & v' & Hu & Hv & Hr & Hf). rewrite node_of_same in Hu, Hv.
    destruct (step_sound _ _ _ _ net step net' u' v' w) as (l & Hl & Hp); [by apply path_arc|].
    apply (within_mono _ _ _ l); [done|]. apply (path_subst (live_of c)); [apply (hi_live _ _ _ _ hier)|].
    apply (path_map c u' v'); try done. by apply Hsub.
  - intros u v w [Hq|(u' & v' & Hu & Hv & Hr & e & He & Hrest)].
    { apply (hi_up _ _ _ _ hier). left. by rewrite <- same_external. }
    rewrite node_of_same in Hu, Hv. rewrite (st_frozen _ _ _ _ step u' Hr) in He.
    destruct (decide (u' ∈ remaining_ids c)) as [HR|HR].
    + apply (hi_live _ _ _ _ hier). exists u', v'. split_and!; try done. by exists e.
    + apply (hi_up _ _ _ _ hier). right. exists u', v'. split_and!; try done. by exists e.
  - intros u v w [Hq|(u' & v' & Hu & Hv & Hr & e & He & Hrest)].
    { apply (hi_down _ _ _ _ hier). left. by rewrite <- same_external. }
    rewrite node_of_same in Hu, Hv. rewrite (st_frozen _ _ _ _ step u' Hr) in He.
    destruct (decide (u' ∈ remaining_ids c)) as [HR|HR].
    + destruct (no_bwd _ _ net u' v' w HR) as (w' & Hw' & Hf); [by exists e|].
      apply (within_mono _ _ _ w'); [done|]. apply (hi_live _ _ _ _ hier). exists v', u'. split_and!; try done.
      destruct Hrest as (<- & _). by apply (lo_edges _ _ (no_live _ _ net) u' e).
    + apply (hi_down _ _ _ _ hier). right. exists u', v'. split_and!; try done. by exists e.
  - intros s t l Hp. apply (hi_complete _ _ _ _ hier) in Hp. revert Hp.
    apply (up_down_step _ _ _ _ _ _ (fun x => x ∈ contracted) live_kept leave_contracted enter_contracted).
    + intros u v w [Hq|(u' & v' & Hu & Hv & Hr & e & He & Hrest)]; [left; by rewrite same_external|right].
      exists u', v'. rewrite !node_of_same. split_and!; [done|done|set_solver|]. exists e. split; [|done].
      rewrite (st_frozen _ _ _ _ step) by set_solver. done.
    + intros u v w [Hq|(u' & v' & Hu & Hv & Hr & e & He & Hrest)]; [left; by rewrite same_external|right].
      exists u', v'. rewrite !node_of_same. split_and!; [done|done|set_solver|]. exists e. split; [|done].
      rewrite (st_frozen _ _ _ _ step) by set_solver. done.
Qed.
End round_step.
