(* ===== verification/Flush.v ===== *)
(** * Contractor/Contractor.h: the flush of Run

    The flush moves the edges of the contracted nodes to the external list and
    rebuilds the graph of the remaining nodes with new ids. In original ids
    the arcs of the state do not change. *)

From S2P Require Import Prelude Types Paths Edges Storage BinaryHeap DynamicGraph Float32 Contractor.
From S2P Require Import WitnessSearch Independence ContractionRound Hierarchy Rounds Renumbering.

(** ** The renumbering maps *)

(** [new_id_map] inverts the list of ids, and is [UINT_MAX] elsewhere. *)
Definition inverts (ids new_id_map : list N) : Prop :=
  (forall j x, vget ids j = Some x -> vget new_id_map x = Some j) /\
  (forall x, (x < vsize new_id_map)%N -> x ∉ ids -> vget new_id_map x = Some UINT_MAX).

(** The state of the loop after [i] nodes. *)
Definition renumbered (remaining : list RemainingNodeData) (nn i : N)
    (s : list N * list N * list float * list RemainingNodeData) : Prop :=
  let '(om, nim, np, rem) := s in
  let ids := rn_id <$> remaining in let n := vsize remaining in
  vsize om = n /\ vsize nim = nn /\ vsize np = n /\ vsize rem = n /\
  (forall j, (j < i)%N -> vget om j = vget ids j) /\
  (forall j x, (j < i)%N -> vget ids j = Some x -> vget nim x = Some j) /\
  (forall x, (x < nn)%N -> (forall j, (j < i)%N -> vget ids j <> Some x) -> vget nim x = Some UINT_MAX) /\
  (forall j, (j < i)%N -> rn_id <$> vget rem j = Some j) /\
  (forall j, (i <= j)%N -> vget rem j = vget remaining j).

Lemma renumber_step (remaining : list RemainingNodeData) priorities nn i s :
  NoDup (rn_id <$> remaining) -> (forall x, x ∈ (rn_id <$> remaining) -> (x < nn)%N /\ (x < vsize priorities)%N) ->
  (i < vsize remaining < 2147483648)%N -> renumbered remaining nn i s ->
  exists s', renumber priorities s i = Some s' /\ renumbered remaining nn (i + 1) s'.
Proof.
  intros Hnd Hids Hi. destruct s as [[[om nim] np] rem]. intros (Hom & Hnim & Hnp & Hrem & H1 & H2 & H3 & H4 & H5).
  set (ids := rn_id <$> remaining) in *. set (n := vsize remaining) in *.
  destruct (vget_lt remaining i) as [r Hr]; [unfold n in *; lia|].
  assert (vget ids i = Some (rn_id r)) as Hidi by (unfold ids; by rewrite vget_fmap, Hr).
  assert (rn_id r ∈ ids) as Hin by (rewrite vget_lookup in Hidi; by eapply list_elem_of_lookup_2).
  destruct (Hids _ Hin) as [Hrn Hrp]. destruct (vget_lt priorities (rn_id r) Hrp) as [p Hp].
  unfold renumber. rewrite (H5 i) by lia. rewrite Hr. cbn [mbind option_bind].
  rewrite vset_lt by lia. cbn [mbind option_bind]. rewrite vset_lt by lia. cbn [mbind option_bind]. rewrite Hp.
  cbn [mbind option_bind]. rewrite vset_lt by lia. cbn [mbind option_bind]. rewrite vset_lt by lia. cbn [mbind option_bind].
  eexists. split; [done|]. unfold renumbered. fold ids n. rewrite !vsize_insert.
  assert (forall j x, vget ids j = Some x -> x = rn_id r -> j = i) as Hinj.
  { intros j x Hj ->. rewrite vget_lookup in Hj, Hidi. apply N2Nat.inj. by eapply NoDup_lookup. }
  split_and!; try done.
  - intros j Hj. rewrite vget_insert. case_decide as Hji; [by destruct Hji as [<- _]|]. apply H1. lia.
  - intros j x Hj Hjx. rewrite vget_insert. case_decide as Hxr.
    + f_equal. symmetry. destruct Hxr as [<- _]. by eapply Hinj.
    + apply H2; [|done]. assert (j <> i); [|lia]. intros ->. apply Hxr. split; [congruence|].
      assert (x = rn_id r) as -> by congruence. lia.
  - intros x Hx Hno. rewrite vget_insert. case_decide as Hxr.
    + exfalso. destruct Hxr as [<- _]. apply (Hno i); [lia|done].
    + apply H3; [done|]. intros j Hj. apply Hno. lia.
  - intros j Hj. rewrite vget_insert. case_decide as Hji.
    + destruct Hji as [<- _]. simpl. unfold ubits. by rewrite N.mod_small by (simpl; lia).
    + apply H4. lia.
  - intros j Hj. rewrite vget_insert, decide_False by lia. apply H5. lia.
Qed.

Lemma renumber_ok (remaining : list RemainingNodeData) priorities orig_map nn :
  let n := vsize remaining in
  NoDup (rn_id <$> remaining) -> (forall x, x ∈ (rn_id <$> remaining) -> (x < nn)%N /\ (x < vsize priorities)%N) ->
  vsize orig_map = n -> (n < 2147483648)%N ->
  exists new_id_map new_priority remaining',
    fold_m (renumber priorities)
      (orig_map, replicate (N.to_nat nn) UINT_MAX, replicate (N.to_nat n) (SpecFloat.S754_zero false), remaining)
      (irange 0 n) = Some (rn_id <$> remaining, new_id_map, new_priority, remaining') /\
    vsize new_id_map = nn /\ inverts (rn_id <$> remaining) new_id_map /\ rn_id <$> remaining' = irange 0 n.
Proof.
  intros n Hnd Hids Horig Hn. set (ids := rn_id <$> remaining) in *.
  assert (vsize ids = n) as Hidn by (unfold ids, n, vsize; by rewrite length_fmap).
  assert (vsize (irange 0 n) = n) as Hrn by (unfold vsize; rewrite length_irange by lia; lia).
  destruct (fold_m_ind (renumber priorities) (fun done => renumbered remaining nn (vsize done)) (irange 0 n)
    (orig_map, replicate (N.to_nat nn) UINT_MAX, replicate (N.to_nat n) (SpecFloat.S754_zero false), remaining))
    as ([[[om nim] np] rem] & Hrun & Hom & Hnim & Hnp & Hrem & H1 & H2 & H3 & H4 & _).
  - change (vsize (@nil N)) with 0%N. unfold renumbered. fold n.
    split_and!; try done; try (unfold vsize; rewrite length_replicate; lia); try (intros; lia).
    intros x Hx _. rewrite vget_lookup, lookup_replicate_2; [done|lia].
  - intros pre i post s Hpp Hinv.
    assert (irange 0 n !! length pre = Some i) as Hi by (rewrite Hpp; by apply list_lookup_middle).
    rewrite irange_lookup in Hi by lia. case_decide as Hlt; [|done]. injection Hi as <-.
    assert (vsize (pre ++ [0 + N.of_nat (length pre)]) = vsize pre + 1)%N as -> by (by rewrite vsize_app).
    replace (0 + N.of_nat (length pre))%N with (vsize pre) in * by (unfold vsize; lia).
    by apply renumber_step.
  - rewrite Hrn in *. fold ids n in Hom, Hrem, H1, H2, H3.
    assert (om = ids) as ->.
    { apply list_eq_vget. intros j. destruct (decide (j < n)%N); [by apply H1|]. rewrite !vget_None; [done|lia|lia]. }
    exists nim, np, rem. split_and!; [done|done| |].
    + split; [intros j x Hj; apply H2; [|done]|].
      * apply vget_Some_lt in Hj. lia.
      * intros x Hx Hno. apply H3; [lia|]. intros j _ Hj. apply Hno. rewrite vget_lookup in Hj. by eapply list_elem_of_lookup_2.
    + apply list_eq_vget. intros j. rewrite vget_fmap. destruct (decide (j < n)%N) as [Hj|Hj].
      * pose proof (H4 j Hj) as Hj4. rewrite (vget_lookup (irange 0 n)), irange_lookup by lia. rewrite decide_True by lia.
        transitivity (Some j); [exact Hj4|]. f_equal. lia.
      * rewrite (vget_None rem), (vget_None (irange 0 n)); [done|lia|lia].
Qed.

(** ** Moving the edges *)

(** The external edge of a contracted node, and the renumbered edge of a
    remaining one. *)
Definition external_edge (x : N) (e : Edge ContractorEdgeData) : QueryEdge :=
  MkQueryEdge x (e_target e) (query_data_of (e_data e)).

Definition renumbered_edge (nim : list N) (x : N) (e : Edge ContractorEdgeData) : ContractorEdge :=
  MkInputEdge x (default 0%N (vget nim (e_target e))) (set_original (e_data e)).

Section move.
  Context (g : ContractorGraph) (nim : list N).

Lemma flush_edge_ok x y i e ext new :
  vget nim x = Some y -> vget (edge_list g) i = Some e -> (y <> UINT_MAX -> is_Some (vget nim (e_target e))) ->
  flush_edge g nim x (ext, new) i =
    Some (if (SPECIAL_NODEID =? y)%N then (ext ++ [external_edge x e], new)
          else (ext, new ++ [renumbered_edge nim y e])).
Proof.
  intros Hy Hi Ht. unfold flush_edge, GetEdgeData, GetTarget. rewrite Hi. cbn [mbind option_bind].
  rewrite Hy. cbn [mbind option_bind]. destruct (N.eqb_spec SPECIAL_NODEID y) as [Hs|Hs]; [done|].
  unfold renumbered_edge. destruct Ht as [t ->]; done.
Qed.

(** The edges of all nodes below [k]. *)
Definition moved (ids : list N) (ext0 : list QueryEdge) (D k : N) (s : list QueryEdge * list ContractorEdge) : Prop :=
  (forall q, q ∈ s.1 <-> q ∈ ext0 \/ exists x e, (x < k)%N /\ (x ∉ ids) /\ e ∈ adj g x /\ q = external_edge x e) /\
  (forall y, y ∈ s.2 <-> exists j x e, (x < k)%N /\ vget ids j = Some x /\ e ∈ adj g x /\ y = renumbered_edge nim j e) /\
  (vsize s.2 <= D * k)%N.

Lemma moved_live ids ext0 D j x ext new :
  inverts ids nim -> vget ids j = Some x -> (vsize (adj g x) <= D)%N -> moved ids ext0 D x (ext, new) ->
  moved ids ext0 D (x + 1) (ext, new ++ (renumbered_edge nim j <$> adj g x)).
Proof.
  intros [Hinv _] Hjx HD (H1 & H2 & H3). cbn [fst snd] in *. split_and!; cbn [fst snd].
  - intros q. rewrite H1. split; (intros [|(x' & e & Hx' & Hno & He & ->)]; [by left|right; exists x', e]).
    + split_and!; try done. lia.
    + assert (x' <> x); [|split_and!; try done; lia]. intros ->. apply Hno.
      rewrite vget_lookup in Hjx. by eapply list_elem_of_lookup_2.
  - intros y. rewrite elem_of_app, H2, list_elem_of_fmap. split.
    + intros [(j' & x' & e & Hx' & Hrest)|(e & -> & He)].
      * exists j', x', e. split; [lia|done].
      * exists j, x, e. split_and!; try done. lia.
    + intros (j' & x' & e & Hx' & Hj' & He & ->). destruct (decide (x' = x)) as [->|Hne].
      * right. exists e. split; [|done]. f_equal. apply Hinv in Hj', Hjx. congruence.
      * left. exists j', x', e. split_and!; try done. lia.
  - rewrite vsize_app. assert (vsize (renumbered_edge nim j <$> adj g x) = vsize (adj g x)) as ->
      by (unfold vsize; by rewrite length_fmap). lia.
Qed.

Lemma moved_out ids ext0 D x ext new :
  (x ∉ ids) -> moved ids ext0 D x (ext, new) -> moved ids ext0 D (x + 1) (ext ++ (external_edge x <$> adj g x), new).
Proof.
  intros Hx (H1 & H2 & H3). cbn [fst snd] in *. split_and!; cbn [fst snd].
  - intros q. rewrite elem_of_app, H1, list_elem_of_fmap. split.
    + intros [[|(x' & e & Hx' & Hrest)]|(e & -> & He)]; [by left|right; exists x', e|right; exists x, e].
      * split; [lia|done].
      * split_and!; try done. lia.
    + intros [|(x' & e & Hx' & Hno & He & ->)]; [by left; left|]. destruct (decide (x' = x)) as [->|Hne].
      * right. by exists e.
      * left. right. exists x', e. split_and!; try done. lia.
  - intros y. rewrite H2. split; intros (j & x' & e & Hx' & Hj & Hrest); exists j, x', e.
    + split; [lia|done].
    + assert (x' <> x); [|split; [lia|done]]. intros ->. apply Hx. rewrite vget_lookup in Hj.
      by eapply list_elem_of_lookup_2.
  - lia.
Qed.

  Context (nn : N).
  Hypothesis wf : graph_wf g.
  Hypothesis nodes : (nn <= vsize (node_list g))%N.
  #[local] Set Default Proof Using "All".

Lemma flush_node_ok x y ext new :
  (x < nn)%N -> vget nim x = Some y ->
  (y <> UINT_MAX -> forall e, e ∈ adj g x -> is_Some (vget nim (e_target e))) ->
  flush_node g nim (ext, new) x =
    Some (if (SPECIAL_NODEID =? y)%N then (ext ++ (external_edge x <$> adj g x), new)
          else (ext, new ++ (renumbered_edge nim y <$> adj g x))).
Proof.
  intros Hx Hy Ht. unfold flush_node. destruct (adj_range g x wf) as (r & -> & HF); [lia|]. cbn [mbind option_bind].
  revert ext new Ht. induction HF as [|i e r l Hi HF IH]; intros ext new Ht; cbn [fold_m].
  { destruct (_ =? _)%N; by rewrite app_nil_r. }
  rewrite (flush_edge_ok x y i e ext new Hy Hi) by (intros; apply Ht; [done|by left]).
  assert (y <> UINT_MAX -> forall e', e' ∈ l -> is_Some (vget nim (e_target e'))) as Ht'
    by (intros; apply Ht; [done|by right]).
  destruct (SPECIAL_NODEID =? y)%N eqn:E; cbn [mbind option_bind]; rewrite IH by done; rewrite <- app_assoc; done.
Qed.

Lemma flush_nodes_ok ids ext0 D :
  inverts ids nim -> vsize nim = nn -> (nn < 2147483648)%N -> (vsize ids <= nn)%N ->
  (forall x, x ∈ ids -> (vsize (adj g x) <= D)%N) ->
  (forall x e, x ∈ ids -> e ∈ adj g x -> e_target e ∈ ids) ->
  exists s, fold_m (flush_node g nim) (ext0, []) (irange 0 nn) = Some s /\ moved ids ext0 D nn s.
Proof.
  intros Hinvs Hn Hnn Hsz Hids Hclosed. pose proof Hinvs as [Hinv Hout].
  assert (vsize (irange 0 nn) = nn) as Hrn by (unfold vsize; rewrite length_irange by lia; lia).
  destruct (fold_m_ind (flush_node g nim) (fun done => moved ids ext0 D (vsize done)) (irange 0 nn) (ext0, []))
    as (s & Hrun & Hs); [| |by rewrite Hrn in Hs; exists s].
  - change (vsize (@nil N)) with 0%N. split_and!; cbn [fst snd].
    + intros q. split; [by left|]. intros [|(x & e & Hx & _)]; [done|lia].
    + intros y. split; [by intros ?%elem_of_nil|]. intros (j & x & e & Hx & _). lia.
    + change (vsize []) with 0%N. lia.
  - intros pre x post [ext new] Hpp Hmv.
    assert (irange 0 nn !! length pre = Some x) as Hi by (rewrite Hpp; by apply list_lookup_middle).
    rewrite irange_lookup in Hi by lia. case_decide as Hlt; [|done]. injection Hi as <-.
    assert (vsize (pre ++ [0 + N.of_nat (length pre)]) = vsize pre + 1)%N as -> by (by rewrite vsize_app).
    replace (0 + N.of_nat (length pre))%N with (vsize pre) in * by (unfold vsize; lia). set (x := vsize pre) in *.
    destruct (decide (x ∈ ids)) as [Hx|Hx].
    + pose proof Hx as [j Hj]%list_elem_of_lookup. assert (vget ids (N.of_nat j) = Some x) as Hjx by (by rewrite vget_lookup, Nat2N.id).
      pose proof (vget_Some_lt _ _ _ Hjx) as Hjlt.
      rewrite (flush_node_ok x (N.of_nat j)); [|lia|by apply Hinv|].
      2:{ intros _ e He. apply Hclosed in He; [|done]. apply list_elem_of_lookup in He as [k Hk].
          exists (N.of_nat k). apply Hinv. by rewrite vget_lookup, Nat2N.id. }
      destruct (N.eqb_spec SPECIAL_NODEID (N.of_nat j)) as [Hs|_]; [unfold SPECIAL_NODEID, UINT_MAX in Hs; lia|].
      eexists. split; [done|]. apply moved_live; try done. by apply Hids.
    + rewrite (flush_node_ok x UINT_MAX); [|lia|apply Hout; [lia|done]|done].
      eexists. split; [done|]. by apply moved_out.
Qed.
End move.

(** ** The graph of the remaining nodes *)

Lemma query_distance d :
  (ce_distance d < max_weight)%N -> qd_distance (query_data_of d) = Z.of_N (ce_distance d).
Proof.
  intros Hd. unfold query_data_of, QueryEdgeData_from. cbn [qd_distance]. unfold max_weight in Hd.
  rewrite to_int_small by lia. unfold sbits. rewrite Z.mod_small; simpl; lia.
Qed.

(** The graph [g1] is [g] on the nodes [ids], with the positions as ids. *)
Definition relabelled (ids : list N) (g g1 : ContractorGraph) : Prop :=
  forall j e1, e1 ∈ adj g1 j <-> exists x e k, vget ids j = Some x /\ e ∈ adj g x /\
    vget ids k = Some (e_target e) /\ e1 = MkEdge k (set_original (e_data e)).

Section relabel.
  Context (ids : list N) (g g1 : ContractorGraph).
  Hypothesis rel : relabelled ids g g1.
  Hypothesis ids_nodup : NoDup ids.

Lemma ids_inj j k x : vget ids j = Some x -> vget ids k = Some x -> j = k.
Proof using ids_nodup. rewrite !vget_lookup. intros Hj Hk. apply N2Nat.inj. by eapply NoDup_lookup. Qed.

Lemma relabel_fwd j k w :
  fwd g1 j k w <-> exists x y, vget ids j = Some x /\ vget ids k = Some y /\ fwd g x y w.
Proof using rel.
  split.
  - intros (e1 & He1 & Ht & Hf & Hd). apply rel in He1 as (x & e & k' & Hx & He & Hk & ->). simpl in *. subst k'.
    exists x, (e_target e). split_and!; try done. by exists e.
  - intros (x & y & Hx & Hy & e & He & Ht & Hf & Hd). exists (MkEdge k (set_original (e_data e))). split_and!; try done.
    apply rel. exists x, e, k. by rewrite Ht.
Qed.

Lemma relabel_bwd j k w :
  bwd g1 j k w <-> exists x y, vget ids j = Some x /\ vget ids k = Some y /\ bwd g x y w.
Proof using rel.
  split.
  - intros (e1 & He1 & Ht & Hf & Hd). apply rel in He1 as (x & e & k' & Hx & He & Hk & ->). simpl in *. subst k'.
    exists x, (e_target e). split_and!; try done. by exists e.
  - intros (x & y & Hx & Hy & e & He & Ht & Hf & Hd). exists (MkEdge k (set_original (e_data e))). split_and!; try done.
    apply rel. exists x, e, k. by rewrite Ht.
Qed.

Lemma relabel_net R R1 :
  net_ok R g -> graph_wf g1 -> (forall x, x ∈ R <-> x ∈ ids) -> (forall j, j ∈ R1 <-> (j < vsize ids)%N) ->
  (vsize ids <= vsize (node_list g1))%N -> net_ok R1 g1.
Proof using rel ids_nodup.
  intros Hnet Hwf HR HR1 Hsz.
  assert (forall j x, vget ids j = Some x -> x ∈ R /\ j ∈ R1) as Hmem.
  { intros j x Hj. rewrite HR, HR1. split; [|by eapply vget_Some_lt]. rewrite vget_lookup in Hj. by eapply list_elem_of_lookup_2. }
  constructor; [constructor| | |].
  - done.
  - intros j Hj. apply HR1 in Hj. lia.
  - intros j e1 _ (x & e & k & Hx & He & Hk & ->)%rel. destruct (Hmem j x Hx) as [HxR _].
    destruct (lo_edges _ _ (no_live _ _ Hnet) x e HxR He) as (_ & Hne & Hw). cbn [e_target e_data set_original ce_distance].
    split_and!; [by apply (Hmem k (e_target e))| |lia..]. intros ->. apply Hne. congruence.
  - intros j e1 _ (x & e & k & Hx & He & Hk & ->)%rel. destruct (Hmem j x Hx) as [HxR _].
    destruct (no_sides _ _ Hnet x e HxR He) as (e' & He' & Ht'). cbn [e_target].
    exists (MkEdge j (set_original (e_data e'))). split; [|done]. apply rel. exists (e_target e), e', j.
    by rewrite Ht'.
  - intros j k w _ (x & y & Hx & Hy & Hf)%relabel_fwd. destruct (Hmem j x Hx) as [HxR _].
    destruct (no_fwd _ _ Hnet x y w HxR Hf) as (w' & Hw' & Hb). exists w'. split; [done|]. apply relabel_bwd. by exists y, x.
  - intros j k w _ (x & y & Hx & Hy & Hf)%relabel_bwd. destruct (Hmem j x Hx) as [HxR _].
    destruct (no_bwd _ _ Hnet x y w HxR Hf) as (w' & Hw' & Hb). exists w'. split; [done|]. apply relabel_fwd. by exists y, x.
Qed.
End relabel.

(** ** The arcs of the flushed state *)

(** [c1] is [c] flushed, in terms of the positions [ids] of the remaining
    nodes. *)
Record flushed {St} (ids : list N) (c c1 : contractor (St := St)) : Prop := {
  fl_of x y : node_of c x y <-> x = y;
  fl_of1 j x : node_of c1 j x <-> vget ids j = Some x;
  fl_ids x : x ∈ remaining_ids c <-> x ∈ ids;
  fl_ids1 j : j ∈ remaining_ids c1 <-> (j < vsize ids)%N;
  fl_graph : relabelled ids (c_graph c) (c_graph c1);
  fl_tail u : (vsize ids <= u)%N -> adj (c_graph c1) u = [];
  fl_external q : q ∈ c_external c1 <-> q ∈ c_external c \/
    exists x e, (x ∉ ids) /\ e ∈ adj (c_graph c) x /\ q = external_edge x e;
}.

Section flushed_arcs.
  Context {St : Type} (ids : list N) (c c1 : contractor (St := St)).
  Hypothesis fl : flushed ids c c1.
  Hypothesis net : net_ok (remaining_ids c) (c_graph c).
  Hypothesis weights : forall u e, e ∈ adj (c_graph c) u -> (ce_distance (e_data e) < max_weight)%N.
  #[local] Set Default Proof Using "All".

Lemma flushed_live u v w : live_of c1 u v w <-> live_of c u v w.
Proof.
  split.
  - intros (j & k & Hj & Hk & _ & Hf). apply (relabel_fwd ids _ _ (fl_graph _ _ _ fl)) in Hf as (x & y & Hx & Hy & Hf).
    rewrite (fl_of1 _ _ _ fl) in Hj, Hk. exists u, v. rewrite !(fl_of _ _ _ fl).
    assert (x = u) as -> by congruence. assert (y = v) as -> by congruence.
    split_and!; try done. apply (fl_ids _ _ _ fl). rewrite vget_lookup in Hj. by eapply list_elem_of_lookup_2.
  - intros (x & y & Hx & Hy & Hr & Hf). rewrite (fl_of _ _ _ fl) in Hx, Hy. subst x y.
    assert (v ∈ ids) as Hv.
    { apply (fl_ids _ _ _ fl). destruct Hf as (e & He & <- & _). by apply (lo_edges _ _ (no_live _ _ net) u e). }
    apply (fl_ids _ _ _ fl), list_elem_of_lookup in Hr as [j Hj]. apply list_elem_of_lookup in Hv as [k Hk].
    assert (vget ids (N.of_nat j) = Some u) as Hj' by (by rewrite vget_lookup, Nat2N.id).
    assert (vget ids (N.of_nat k) = Some v) as Hk' by (by rewrite vget_lookup, Nat2N.id).
    exists (N.of_nat j), (N.of_nat k). rewrite !(fl_of1 _ _ _ fl), (fl_ids1 _ _ _ fl).
    pose proof (vget_Some_lt _ _ _ Hj'). split_and!; try done.
    apply (relabel_fwd ids _ _ (fl_graph _ _ _ fl)). by exists u, v.
Qed.

(** An edge of a node that is not among [ids]. *)
Lemma external_edge_distance x e : e ∈ adj (c_graph c) x ->
  qd_distance (qe_data (external_edge x e)) = Z.of_N (ce_distance (e_data e)).
Proof. intros He. apply query_distance. by eapply weights. Qed.

Lemma flushed_up u v w : up_of c1 u v w <-> up_of c u v w.
Proof.
  split.
  - intros [(q & Hq & Hs & Ht & Hf & Hd)|(j & k & _ & _ & Hj & e & He & _)].
    + apply (fl_external _ _ _ fl) in Hq as [Hq|(x & e & Hx & He & ->)]; [left; by exists q|].
      rewrite external_edge_distance in Hd by done. cbn in Hs, Ht, Hf. apply N2Z.inj in Hd. right. exists u, v.
      rewrite !(fl_of _ _ _ fl), (fl_ids _ _ _ fl). subst u v. split_and!; try done. by exists e.
    + rewrite (fl_tail _ _ _ fl) in He; [by apply elem_of_nil in He|]. rewrite (fl_ids1 _ _ _ fl) in Hj. lia.
  - intros [(q & Hq & Hrest)|(x & y & Hx & Hy & Hr & e & He & Ht & Hf & Hd)].
    + left. exists q. split; [|done]. apply (fl_external _ _ _ fl). by left.
    + rewrite (fl_of _ _ _ fl) in Hx, Hy. subst x y. left. exists (external_edge u e).
      rewrite external_edge_distance by done. split_and!; try done; [|by rewrite Hd].
      apply (fl_external _ _ _ fl). right. exists u, e. by rewrite <- (fl_ids _ _ _ fl).
Qed.

Lemma flushed_down u v w : down_of c1 u v w <-> down_of c u v w.
Proof.
  split.
  - intros [(q & Hq & Hs & Ht & Hf & Hd)|(j & k & _ & _ & Hj & e & He & _)].
    + apply (fl_external _ _ _ fl) in Hq as [Hq|(x & e & Hx & He & ->)]; [left; by exists q|].
      rewrite external_edge_distance in Hd by done. cbn in Hs, Ht, Hf. apply N2Z.inj in Hd. right. exists u, v.
      rewrite !(fl_of _ _ _ fl), (fl_ids _ _ _ fl). subst u v. split_and!; try done. by exists e.
    + rewrite (fl_tail _ _ _ fl) in He; [by apply elem_of_nil in He|]. rewrite (fl_ids1 _ _ _ fl) in Hj. lia.
  - intros [(q & Hq & Hrest)|(x & y & Hx & Hy & Hr & e & He & Ht & Hf & Hd)].
    + left. exists q. split; [|done]. apply (fl_external _ _ _ fl). by left.
    + rewrite (fl_of _ _ _ fl) in Hx, Hy. subst x y. left. exists (external_edge u e).
      rewrite external_edge_distance by done. split_and!; try done; [|by rewrite Hd].
      apply (fl_external _ _ _ fl). right. exists u, e. by rewrite <- (fl_ids _ _ _ fl).
Qed.
End flushed_arcs.

(** ** The flush *)

(** All edges, those of contracted nodes included, have small weights and
    lead to nodes below [nn], and only nodes below [nn] have edges. *)
Record edges_ok (nn : N) (g : ContractorGraph) : Prop := {
  eo_count : number_of_nodes g = nn;
  eo_nodes : (nn <= vsize (node_list g))%N;
  eo_weight u e : e ∈ adj g u -> (ce_distance (e_data e) < max_weight)%N;
  eo_target u e : e ∈ adj g u -> (e_target e < nn)%N;
  eo_tail u : (nn <= u)%N -> adj g u = [];
  eo_positive u e : e ∈ adj g u -> (0 < ce_distance (e_data e))%N;
}.

Section flush.
  Context {St : Type} (sort_edges : list ContractorEdge -> list ContractorEdge).
  Context (junk : N -> Edge ContractorEdgeData).
  Hypothesis sort_perm : forall l, sort_edges l ≡ₚ l.
  Hypothesis sort_sorted : forall l, StronglySorted (fun a b => (ie_source a <= ie_source b)%N) (sort_edges l).
  #[local] Set Default Proof Using "All".

(** The new graph. *)
Lemma rebuild_ok g nim ids ext0 D nn ext new :
  moved g nim ids ext0 D nn (ext, new) -> inverts ids nim -> vsize nim = nn -> NoDup ids ->
  (forall x, x ∈ ids -> (x < nn)%N) -> (forall x e, x ∈ ids -> e ∈ adj g x -> e_target e ∈ ids) ->
  (D * nn < 2147483648)%N -> (vsize ids < 2147483648)%N ->
  exists g1, DynamicGraph_from junk (vsize ids) (sort_edges new) = Some g1 /\ graph_wf g1 /\
    number_of_nodes g1 = vsize ids /\ vsize (node_list g1) = (vsize ids + 1)%N /\ relabelled ids g g1 /\
    (forall u, (vsize ids <= u)%N -> adj g1 u = []).
Proof.
  intros (_ & H2 & H3) [Hinv _] Hnim Hnd Hids Hclosed HD Hn. cbn [snd] in H2, H3.
  assert (forall j x e, vget ids j = Some x -> e ∈ adj g x ->
    exists k, vget ids k = Some (e_target e) /\ default 0%N (vget nim (e_target e)) = k) as Hidx.
  { intros j x e Hj He. assert (e_target e ∈ ids) as Ht.
    { apply (Hclosed x); [|done]. rewrite vget_lookup in Hj. by eapply list_elem_of_lookup_2. }
    apply list_elem_of_lookup in Ht as [k Hk]. exists (N.of_nat k).
    assert (vget ids (N.of_nat k) = Some (e_target e)) as Hv by (by rewrite vget_lookup, Nat2N.id).
    split; [done|]. by rewrite (Hinv _ _ Hv). }
  destruct (from_ok junk (vsize ids) (sort_edges new)) as (g1 & Hg1 & Hwf1 & Hn1 & _ & Hnl & _ & Hadj & Htail).
  - apply sort_sorted.
  - apply Forall_forall. intros y Hy. rewrite sort_perm in Hy.
    apply H2 in Hy as (j & x & e & Hx & Hj & He & ->). unfold renumbered_edge. cbn [ie_source ie_target].
    destruct (Hidx j x e Hj He) as (k & Hk & ->). apply vget_Some_lt in Hj, Hk.
    split; [done|]. unfold UINT_MAX. lia.
  - rewrite sort_perm. lia.
  - lia.
  - exists g1. split_and!; try done. intros j e1. split.
    + intros He1. destruct (decide (j < vsize ids)%N) as [Hj|Hj]; [|rewrite Htail in He1 by lia; by apply elem_of_nil in He1].
      rewrite (Hadj j Hj) in He1. apply list_elem_of_fmap in He1 as (y & -> & [Hs Hy]%list_elem_of_filter).
      rewrite sort_perm in Hy. apply H2 in Hy as (j' & x & e & Hx & Hj' & He & ->).
      unfold renumbered_edge in Hs |- *. cbn [ie_source] in Hs. subst j'.
      destruct (Hidx j x e Hj' He) as (k & Hk & Hk'). exists x, e, k. split_and!; try done.
      unfold to_edge. cbn [ie_target ie_data]. by rewrite Hk'.
    + intros (x & e & k & Hj & He & Hk & ->). pose proof (vget_Some_lt _ _ _ Hj) as Hjlt. rewrite (Hadj j Hjlt).
      apply list_elem_of_fmap. exists (renumbered_edge nim j e). split.
      * unfold to_edge, renumbered_edge. cbn [ie_target ie_data]. by rewrite (Hinv _ _ Hk).
      * apply list_elem_of_filter. split; [done|]. rewrite sort_perm. apply H2. exists j, x, e. split_and!; try done.
        apply Hids. rewrite vget_lookup in Hj. by eapply list_elem_of_lookup_2.
Qed.
(** What a state owes its flush. *)
Record flush_room (nn D : N) (c : contractor (St := St)) : Prop := {
  fr_priority x : x ∈ remaining_ids c -> (x < vsize (c_priorities c))%N;
  fr_degree x : x ∈ remaining_ids c -> (vsize (adj (c_graph c) x) <= D)%N;
  fr_space : (D * nn < 2147483648)%N;
}.

Lemma flush_runs nn D (c : contractor (St := St)) :
  net_ok (remaining_ids c) (c_graph c) -> edges_ok nn (c_graph c) -> (nn < 2147483648)%N ->
  c_orig_map c = [] -> NoDup (rn_id <$> c_remaining c) -> (forall x, x ∈ remaining_ids c -> (x < nn)%N) ->
  flush_room nn D c ->
  let ids := rn_id <$> c_remaining c in
  exists c1, flush sort_edges junk nn c = Some c1 /\
    c_orig_map c1 = ids /\ c_threads c1 = [] /\ c_contracted c1 = c_contracted c /\ c_flushed c1 = true /\
    rn_id <$> c_remaining c1 = irange 0 (vsize ids) /\ graph_wf (c_graph c1) /\
    number_of_nodes (c_graph c1) = vsize ids /\ vsize (node_list (c_graph c1)) = (vsize ids + 1)%N /\
    relabelled ids (c_graph c) (c_graph c1) /\ (forall u, (vsize ids <= u)%N -> adj (c_graph c1) u = []) /\
    (forall q, q ∈ c_external c1 <-> q ∈ c_external c \/
       exists x e, (x ∉ ids) /\ e ∈ adj (c_graph c) x /\ q = external_edge x e).
Proof.
  intros Hnet Hedges Hnn Hmap Hnd Hlt Hroom ids.
  assert (forall x, x ∈ remaining_ids c <-> x ∈ ids) as HR by (intros x; apply elem_of_list_to_set).
  assert (vsize ids = vsize (c_remaining c)) as Hsz by (unfold ids, vsize; by rewrite length_fmap).
  assert (vsize ids <= nn)%N as Hle.
  { apply (NoDup_bounded ids nn Hnd). intros x Hx. by apply Hlt, HR. }
  unfold flush. rewrite Hmap.
  destruct (renumber_ok (c_remaining c) (c_priorities c) (vresize [] (vsize (c_remaining c)) 0%N) nn Hnd)
    as (nim & np & rem & -> & Hnim & Hinv & Hrem).
  { intros x Hx. split; [by apply Hlt, HR|by apply (fr_priority nn D c Hroom), HR]. }
  { unfold vresize, vsize. rewrite length_app, length_replicate, length_take. simpl. lia. } { lia. }
  cbn [mbind option_bind]. fold ids in Hinv |- *.
  unfold GetNumberOfNodes. rewrite (eo_count nn _ Hedges).
  assert (forall x e, x ∈ ids -> e ∈ adj (c_graph c) x -> e_target e ∈ ids) as Hclosed.
  { intros x e Hx He. apply HR. apply HR in Hx. by apply (lo_edges _ _ (no_live _ _ Hnet) x e). }
  destruct (flush_nodes_ok (c_graph c) nim nn (lo_wf _ _ (no_live _ _ Hnet)) (eo_nodes nn _ Hedges) ids (c_external c) D)
    as ([ext new] & -> & Hmoved); try done.
  { intros x Hx. by apply (fr_degree nn D c Hroom), HR. }
  cbn [mbind option_bind].
  destruct (rebuild_ok (c_graph c) nim ids (c_external c) D nn ext new Hmoved Hinv Hnim Hnd)
    as (g1 & Hg1 & Hwf1 & Hn1 & Hnl1 & Hrel & Htail); try done.
  { intros x Hx. by apply Hlt, HR. } { apply (fr_space nn D c Hroom). } { lia. }
  rewrite <- Hsz, Hg1. cbn [mbind option_bind]. eexists. split; [done|].
  cbn [c_orig_map c_threads c_contracted c_flushed c_remaining c_graph c_external]. rewrite Hsz.
  split_and!; try done; [by rewrite <- Hsz..|]. destruct Hmoved as (H1 & _). cbn [fst] in H1.
  intros q. rewrite H1. split; (intros [|(x & e & Hrest)]; [by left|right; exists x, e]).
  - tauto.
  - destruct Hrest as (Hx & He & ->). split_and!; try done.
    destruct (decide (x < nn)%N) as [|Hge]; [done|]. rewrite (eo_tail nn _ Hedges) in He by lia. by apply elem_of_nil in He.
Qed.
(** The flush keeps the invariants and, in original ids, all arcs. *)
Lemma flush_ok nn D (c : contractor (St := St)) :
  net_ok (remaining_ids c) (c_graph c) -> edges_ok nn (c_graph c) -> (nn < 2147483648)%N ->
  c_orig_map c = [] -> NoDup (rn_id <$> c_remaining c) -> (forall x, x ∈ remaining_ids c -> (x < nn)%N) ->
  c_remaining c <> [] -> flush_room nn D c ->
  let n := vsize (c_remaining c) in
  exists c1, flush sort_edges junk nn c = Some c1 /\
    net_ok (remaining_ids c1) (c_graph c1) /\ edges_ok n (c_graph c1) /\ map_ok c1 /\
    (forall x, (x < n)%N -> exists z, node_of c1 x z) /\
    (forall u e, e ∈ adj (c_graph c1) u -> ce_is_original_via_node_ID (e_data e) = true) /\
    NoDup (rn_id <$> c_remaining c1) /\ (forall x, x ∈ remaining_ids c1 -> (x < n)%N) /\
    vsize (c_remaining c1) = n /\ c_threads c1 = [] /\ c_contracted c1 = c_contracted c /\ c_flushed c1 = true /\
    (forall u v w, live_of c1 u v w <-> live_of c u v w) /\
    (forall u v w, up_of c1 u v w <-> up_of c u v w) /\ (forall u v w, down_of c1 u v w <-> down_of c u v w) /\
    (forall x z, node_of c1 x z -> (z < nn)%N) /\
    (forall q, q ∈ c_external c1 -> q ∈ c_external c \/ exists x e, e ∈ adj (c_graph c) x /\ q = external_edge x e).
Proof.
  intros Hnet Hedges Hnn Hmap Hnd Hlt Hne Hroom n.
  destruct (flush_runs nn D c Hnet Hedges Hnn Hmap Hnd Hlt Hroom)
    as (c1 & Hrun & Hmap1 & Hth & Hcon & Hfl & Hrem1 & Hwf1 & Hn1 & Hnl1 & Hrel & Htail & Hext).
  set (ids := rn_id <$> c_remaining c) in *.
  assert (vsize ids = n) as Hsz by (unfold ids, n, vsize; by rewrite length_fmap). rewrite Hsz in *.
  assert (forall x, x ∈ remaining_ids c <-> x ∈ ids) as HR by (intros x; apply elem_of_list_to_set).
  assert (n <= nn)%N as Hle.
  { rewrite <- Hsz. apply NoDup_bounded; [done|]. intros x Hx. by apply Hlt, HR. }
  assert (n <> 0)%N as Hn0 by (unfold n, vsize; destruct (c_remaining c); [done|simpl; lia]).
  assert (forall j, j ∈ remaining_ids c1 <-> (j < n)%N) as HR1.
  { intros j. unfold remaining_ids. rewrite elem_of_list_to_set, Hrem1, elem_of_irange by lia. lia. }
  assert (forall j x, node_of c1 j x <-> vget ids j = Some x) as Hof1.
  { intros j x. unfold node_of, original_id. rewrite Hmap1, Hsz. destruct (N.eqb_spec n 0); [done|]. done. }
  assert (forall x y, node_of c x y <-> x = y) as Hof.
  { intros x y. unfold node_of, original_id. rewrite Hmap. simpl. split; congruence. }
  assert (flushed ids c c1) as Hfls.
  { constructor; try done; by rewrite Hsz. }
  exists c1. split; [done|]. split_and!; try done.
  - apply (relabel_net ids (c_graph c) (c_graph c1) Hrel Hnd (remaining_ids c)); try done; [by rewrite Hsz|lia].
  - constructor; [done|lia| | |done|]; intros u e (x & e0 & k & _ & He0 & Hk & ->)%Hrel.
    + exact (eo_weight nn _ Hedges x e0 He0).
    + apply vget_Some_lt in Hk. cbn [e_target]. lia.
    + exact (eo_positive nn _ Hedges x e0 He0).
  - constructor; [intros x y z; rewrite !Hof1; by apply ids_inj|]. intros j Hj%HR1.
    destruct (vget_lt ids j) as [x Hx]; [lia|]. exists x. by apply Hof1.
  - intros j Hj. destruct (vget_lt ids j) as [x Hx]; [lia|]. exists x. by apply Hof1.
  - by intros u e (x & e0 & k & _ & _ & _ & ->)%Hrel.
  - rewrite Hrem1. apply NoDup_irange. lia.
  - intros x. by rewrite HR1.
  - apply (f_equal vsize) in Hrem1. unfold vsize in *. rewrite length_fmap, length_irange in Hrem1 by lia. lia.
  - intros u v w. by apply (flushed_live ids c c1 Hfls Hnet (eo_weight nn _ Hedges)).
  - intros u v w. by apply (flushed_up ids c c1 Hfls Hnet (eo_weight nn _ Hedges)).
  - intros u v w. by apply (flushed_down ids c c1 Hfls Hnet (eo_weight nn _ Hedges)).
  - intros x z Hx%Hof1. apply Hlt, HR. rewrite vget_lookup in Hx. by eapply list_elem_of_lookup_2.
  - intros q [Hq|(x & e & _ & He & ->)]%(fl_external ids c c1 Hfls); [by left|right]. by exists x, e.
Qed.
End flush.
