(* ===== verification/ContractorRun.v ===== *)
(** * Contractor/Contractor.h: Run and GetEdges

    The invariant of the main loop, its preservation by the flush and by a
    round, and the edges the contractor hands over. *)

From S2P Require Import Prelude Types Paths Edges Storage BinaryHeap DynamicGraph Float32 Contractor.
From S2P Require Import WitnessSearch Independence ContractionRound Hierarchy Rounds Renumbering Flush.

(** ** The invariant of Run *)

Section invariant.
  Context {St : Type}.
  Implicit Types c : contractor (St := St).

(** The middle node of a shortcut can be translated to its original id. *)
Definition via_ok c : Prop := forall u e, e ∈ adj (c_graph c) u ->
  ce_is_original_via_node_ID (e_data e) = true \/ exists z, node_of c (ce_id (e_data e)) z.

(** The ends of an edge are nodes and its weight is positive. *)
Definition edge_in (nn : N) (q : QueryEdge) : Prop :=
  (qe_source q < nn)%N /\ (qe_target q < nn)%N /\
  (0 < qd_distance (qe_data q) < Z.of_N max_weight)%Z /\
  (qd_id (qe_data q) < 2147483648)%N.

Record run_inv (E0 : arcs) (nn : N) c : Prop := {
  ri_net : net_ok (remaining_ids c) (c_graph c);
  ri_edges : edges_ok (number_of_nodes (c_graph c)) (c_graph c);
  ri_count : (number_of_nodes (c_graph c) <= nn)%N;
  ri_bound x : x ∈ remaining_ids c -> (x < number_of_nodes (c_graph c))%N;
  ri_map : map_ok c;
  ri_total x : (x < number_of_nodes (c_graph c))%N -> exists z, node_of c x z;
  ri_via : via_ok c;
  ri_nodup : NoDup (rn_id <$> c_remaining c);
  ri_sum : (c_contracted c + vsize (c_remaining c) = nn)%N;
  ri_flag : c_flushed c = false -> c_orig_map c = [] /\ number_of_nodes (c_graph c) = nn;
  ri_hier : hierarchy E0 (live_of c) (up_of c) (down_of c);
  ri_orig x z : node_of c x z -> (x < number_of_nodes (c_graph c))%N -> (z < nn)%N;
  ri_external q : q ∈ c_external c -> edge_in nn q;
}.

Lemma edges_ok_step R R' g g' m :
  contraction_step R g R' g' -> net_ok R' g' -> edges_ok m g -> number_of_nodes g' = m ->
  (forall x, x ∈ R' -> (x < m)%N) -> edges_ok m g'.
Proof.
  intros Hstep Hnet' [Hc Hn Hw Ht Htl Hpos] Hc' Hb. constructor; [done|by rewrite (st_nodes _ _ _ _ Hstep)| | | |].
  - intros u e He. destruct (decide (u ∈ R')) as [Hu|Hu].
    + by apply (lo_edges _ _ (no_live _ _ Hnet') u e).
    + rewrite (st_frozen _ _ _ _ Hstep u Hu) in He. by eapply Hw.
  - intros u e He. destruct (decide (u ∈ R')) as [Hu|Hu].
    + apply Hb. by apply (lo_edges _ _ (no_live _ _ Hnet') u e).
    + rewrite (st_frozen _ _ _ _ Hstep u Hu) in He. by eapply Ht.
  - intros u Hu. apply Permutation_nil_r. rewrite <- (Htl u Hu). apply (st_frozen _ _ _ _ Hstep).
    intros Hin%Hb. lia.
  - intros u e He. destruct (decide (u ∈ R')) as [Hu|Hu].
    + by apply (lo_edges _ _ (no_live _ _ Hnet') u e).
    + rewrite (st_frozen _ _ _ _ Hstep u Hu) in He. by eapply Hpos.
Qed.

Lemma via_ok_step c c' :
  contraction_step (remaining_ids c) (c_graph c) (remaining_ids c') (c_graph c') ->
  map_ok c -> c_orig_map c' = c_orig_map c -> via_ok c -> via_ok c'.
Proof.
  intros Hstep Hmap Hsame Hvia u e He. unfold node_of. rewrite Hsame. fold (node_of c (ce_id (e_data e))).
  destruct (decide (u ∈ remaining_ids c')) as [Hu|Hu].
  - destruct (st_edges _ _ _ _ Hstep u e Hu He) as [He'|[_ Hid]]; [by eapply Hvia|].
    right. apply (mo_total c Hmap). set_solver.
  - rewrite (st_frozen _ _ _ _ Hstep u Hu) in He. by eapply Hvia.
Qed.

Lemma hierarchy_iff E0 L U D L' U' D' :
  (forall u v w, L' u v w <-> L u v w) -> (forall u v w, U' u v w <-> U u v w) ->
  (forall u v w, D' u v w <-> D u v w) -> hierarchy E0 L U D -> hierarchy E0 L' U' D'.
Proof.
  intros HL HU HD [H1 H2 H3 H4]. constructor.
  - intros u v w. rewrite HL. apply H1.
  - intros u v w. rewrite HU. apply H2.
  - intros u v w. rewrite HD. apply H3.
  - intros s t l (a & b & l1 & l2 & l3 & Hu & Hl & Hd & Hle)%H4. exists a, b, l1, l2, l3. split_and!; [| | |done].
    + eapply path_mono; [|exact Hu]. intros ???. apply HU.
    + eapply path_mono; [|exact Hl]. intros ???. apply HL.
    + eapply path_mono; [|exact Hd]. intros ???. apply HD.
Qed.
End invariant.

(** ** GetEdges *)

Section get_edges.
  Context {St : Type}.
  Implicit Types c : contractor (St := St).

(** The edge [GetEdges] makes of an edge of the graph. *)
Definition given_edge c (u' : N) (e : Edge ContractorEdgeData) (q : QueryEdge) : Prop :=
  node_of c u' (qe_source q) /\ node_of c (e_target e) (qe_target q) /\
  qd_distance (qe_data q) = Z.of_N (ce_distance (e_data e)) /\
  qd_forward (qe_data q) = ce_forward (e_data e) /\ qd_backward (qe_data q) = ce_backward (e_data e) /\
  (qd_id (qe_data q) < 2147483648)%N.

Lemma get_edge_ok E0 nn c u' edges i e :
  run_inv E0 nn c -> (u' < number_of_nodes (c_graph c))%N -> e ∈ adj (c_graph c) u' ->
  vget (edge_list (c_graph c)) i = Some e ->
  exists q, get_edge c u' edges i = Some (edges ++ [q]) /\ given_edge c u' e q.
Proof.
  intros Hinv Hu He Hi. unfold get_edge, GetTarget, GetEdgeData. rewrite Hi. cbn [mbind option_bind].
  destruct (ri_total _ _ c Hinv u' Hu) as [u Hu']. rewrite Hu'. cbn [mbind option_bind].
  destruct (ri_total _ _ c Hinv (e_target e)) as [v Hv]; [by apply (eo_target _ _ (ri_edges _ _ c Hinv) u' e)|].
  rewrite Hv. cbn [mbind option_bind].
  assert (exists id, (if negb (ce_is_original_via_node_ID (e_data e)) then original_id (c_orig_map c) (ce_id (e_data e))
      else Some (ce_id (e_data e))) = Some id) as [id ->].
  { destruct (ri_via _ _ c Hinv u' e He) as [->|[z Hz]]; [by eexists|].
    destruct (negb _); [|by eexists]. exists z. exact Hz. }
  cbn [mbind option_bind]. eexists. split; [done|]. split_and!; try done; [cbn [qe_data]|by apply N.mod_lt].
  apply (query_distance (e_data e)). by eapply (eo_weight _ _ (ri_edges _ _ c Hinv)).
Qed.

(** The edges of the nodes below [k]. *)
Definition given c (k : N) (edges0 edges : list QueryEdge) : Prop :=
  (forall q, q ∈ edges -> q ∈ edges0 \/ exists u' e, (u' < k)%N /\ e ∈ adj (c_graph c) u' /\ given_edge c u' e q) /\
  (forall u' e, (u' < k)%N -> e ∈ adj (c_graph c) u' -> exists q, q ∈ edges /\ given_edge c u' e q) /\
  (forall q, q ∈ edges0 -> q ∈ edges).

Lemma get_node_edges_ok E0 nn c u' edges0 edges :
  run_inv E0 nn c -> (u' < number_of_nodes (c_graph c))%N -> given c u' edges0 edges ->
  exists edges', get_node_edges c edges u' = Some edges' /\ given c (u' + 1) edges0 edges'.
Proof.
  intros Hinv Hu Hg. unfold get_node_edges. pose proof (lo_wf _ _ (no_live _ _ (ri_net _ _ c Hinv))) as Hwf.
  destruct (adj_range (c_graph c) u' Hwf) as (r & -> & HF).
  { pose proof (eo_nodes _ _ (ri_edges _ _ c Hinv)). lia. }
  cbn [mbind option_bind].
  assert (forall r1 l1, Forall2 (fun i e => vget (edge_list (c_graph c)) i = Some e) r1 l1 ->
    (forall e, e ∈ l1 -> e ∈ adj (c_graph c) u') -> forall edges1,
    exists qs, fold_m (get_edge c u') edges1 r1 = Some (edges1 ++ qs) /\
      (forall q, q ∈ qs -> exists e, e ∈ l1 /\ given_edge c u' e q) /\
      (forall e, e ∈ l1 -> exists q, q ∈ qs /\ given_edge c u' e q)) as Hloop.
  { induction 1 as [|i e r1 l1 Hi HF1 IH]; intros Hin edges1; cbn [fold_m].
    { exists []. rewrite app_nil_r. split_and!; [done|by intros q ?%elem_of_nil|by intros e ?%elem_of_nil]. }
    destruct (get_edge_ok E0 nn c u' edges1 i e Hinv Hu) as (q & -> & Hq); [apply Hin; by left|done|].
    cbn [mbind option_bind]. destruct (IH (fun e' H' => Hin e' (list_elem_of_further _ _ _ H')) (edges1 ++ [q])) as (qs & -> & H1 & H2).
    exists (q :: qs). rewrite <- app_assoc. split_and!; [done| |].
    - intros q' [->|Hq']%elem_of_cons; [exists e; split; [by left|done]|]. destruct (H1 q' Hq') as (e' & He' & Hg').
      exists e'. split; [by right|done].
    - intros e' [->|He']%elem_of_cons; [exists q; split; [by left|done]|]. destruct (H2 e' He') as (q' & Hq' & Hg').
      exists q'. split; [by right|done]. }
  destruct (Hloop r _ HF (fun _ x => x) edges) as (qs & -> & H1 & H2). eexists. split; [done|].
  destruct Hg as (G1 & G2 & G3). split_and!.
  - intros q [Hq|Hq]%elem_of_app.
    + destruct (G1 q Hq) as [|(u & e & Hu' & Hrest)]; [by left|right]. exists u, e. split; [lia|done].
    + destruct (H1 q Hq) as (e & He & Hgq). right. exists u', e. split_and!; try done. lia.
  - intros u e Hlt He. destruct (decide (u = u')) as [->|Hne].
    + destruct (H2 e He) as (q & Hq & Hgq). exists q. split; [|done]. apply elem_of_app. by right.
    + destruct (G2 u e) as (q & Hq & Hgq); [lia|done|]. exists q. split; [|done]. apply elem_of_app. by left.
  - intros q Hq. apply elem_of_app. left. by apply G3.
Qed.

Lemma get_edges_ok E0 nn c :
  run_inv E0 nn c -> (nn < 4294967296)%N ->
  exists es, GetEdges c [] = Some es /\
    (forall u v w, query_fwd es u v w <-> live_of c u v w \/ up_of c u v w) /\
    (forall u v w, query_bwd es u v w -> down_of c u v w \/ exists w', (w' <= w)%N /\ live_of c v u w') /\
    (forall u v w, down_of c u v w -> query_bwd es u v w) /\ (forall q, q ∈ es -> edge_in nn q).
Proof.
  intros Hinv Hnn. unfold GetEdges, GetNumberOfNodes. set (m := number_of_nodes (c_graph c)).
  pose proof (ri_count _ _ c Hinv) as Hm. fold m in Hm.
  assert (vsize (irange 0 m) = m) as Hrm by (unfold vsize; rewrite length_irange by lia; lia).
  destruct (fold_m_ind (get_node_edges c) (fun done => given c (vsize done) []) (irange 0 m) []) as (es & -> & Hg).
  - change (vsize (@nil N)) with 0%N. split_and!; [by intros q ?%elem_of_nil|intros u e Hu; lia|done].
  - intros pre u' post edges Hpp Hg.
    assert (irange 0 m !! length pre = Some u') as Hi by (rewrite Hpp; by apply list_lookup_middle).
    rewrite irange_lookup in Hi by lia. case_decide as Hlt; [|done]. injection Hi as <-.
    assert (vsize (pre ++ [0 + N.of_nat (length pre)]) = vsize pre + 1)%N as -> by (by rewrite vsize_app).
    replace (0 + N.of_nat (length pre))%N with (vsize pre) in * by (unfold vsize; lia).
    eapply get_node_edges_ok; try done.
  - rewrite Hrm in Hg. destruct Hg as (G1 & G2 & _). cbn [mbind option_bind]. eexists. split; [done|].
    assert (forall u' e, e ∈ adj (c_graph c) u' -> (u' < m)%N) as Hlt.
    { intros u' e He. destruct (decide (u' < m)%N) as [|Hge]; [done|].
      rewrite (eo_tail _ _ (ri_edges _ _ c Hinv)) in He by (fold m; lia). by apply elem_of_nil in He. }
    split_and!.
    + intros u v w. split.
      * intros (q & [Hq|Hq]%elem_of_app & <- & <- & Hf & Hd); [|right; left; by exists q].
        destruct (G1 q Hq) as [Hno|(u' & e & _ & He & Hu & Hv & Hd' & Hf' & _)]; [by apply elem_of_nil in Hno|].
        assert (fwd (c_graph c) u' (e_target e) w) as Hfwd. { exists e. split_and!; try done; [congruence|]. rewrite Hd' in Hd. by apply N2Z.inj in Hd. }
        destruct (decide (u' ∈ remaining_ids c)); [left|right; right]; by exists u', (e_target e).
      * assert (forall u' v', node_of c u' u -> node_of c v' v -> fwd (c_graph c) u' v' w ->
          query_fwd (es ++ c_external c) u v w) as Hgraph.
        { intros u' v' Hu Hv (e & He & <- & Hf & <-). destruct (G2 u' e (Hlt u' e He) He) as (q & Hq & Hqu & Hqv & Hqd & Hqf & _).
          exists q. split_and!; [apply elem_of_app; by left|by eapply node_of_fun|by eapply node_of_fun|congruence|done]. }
        intros [(u' & v' & Hu & Hv & _ & Hf)|[(q & Hq & Hrest)|(u' & v' & Hu & Hv & _ & Hf)]]; [by eapply Hgraph| |by eapply Hgraph].
        exists q. split; [apply elem_of_app; by right|done].
    + intros u v w (q & [Hq|Hq]%elem_of_app & <- & <- & Hf & Hd); [|left; left; by exists q].
      destruct (G1 q Hq) as [Hno|(u' & e & _ & He & Hu & Hv & Hd' & _ & Hf' & _)]; [by apply elem_of_nil in Hno|].
      assert (bwd (c_graph c) u' (e_target e) w) as Hbwd. { exists e. split_and!; try done; [congruence|]. rewrite Hd' in Hd. by apply N2Z.inj in Hd. }
      destruct (decide (u' ∈ remaining_ids c)) as [Hr|Hr]; [right|left; right; by exists u', (e_target e)].
      destruct (no_bwd _ _ (ri_net _ _ c Hinv) u' (e_target e) w Hr Hbwd) as (w' & Hw' & Hfwd). exists w'. split; [done|].
      exists (e_target e), u'. split_and!; try done. by apply (lo_edges _ _ (no_live _ _ (ri_net _ _ c Hinv)) u' e).
    + intros u v w [(q & Hq & Hrest)|(u' & v' & Hu & Hv & _ & e & He & <- & Hf & <-)].
      * exists q. split; [apply elem_of_app; by right|done].
      * destruct (G2 u' e (Hlt u' e He) He) as (q & Hq & Hqu & Hqv & Hqd & _ & Hqf & _).
        exists q. split_and!; [apply elem_of_app; by left|by eapply node_of_fun|by eapply node_of_fun|congruence|done].
    + intros q [Hq|Hq]%elem_of_app; [|by apply (ri_external _ _ c Hinv)].
      destruct (G1 q Hq) as [Hno|(u' & e & Hu' & He & Hu & Hv & Hd' & _ & _ & Hid)]; [by apply elem_of_nil in Hno|].
      pose proof (eo_weight _ _ (ri_edges _ _ c Hinv) u' e He). pose proof (eo_positive _ _ (ri_edges _ _ c Hinv) u' e He).
      pose proof (eo_target _ _ (ri_edges _ _ c Hinv) u' e He). unfold edge_in. rewrite Hd'.
      split_and!; [by eapply (ri_orig _ _ c Hinv)|by eapply (ri_orig _ _ c Hinv)|lia|lia|done].
Qed.
End get_edges.

(** ** The main loop *)

Section run.
  Context {St : Type} `{IndexStorageLaws St}.
  Context (make_storage : N -> St) (fast_hash : XORFastHash) (schedule : N -> N -> N -> list (N * N)).
  Context (sort_edges : list ContractorEdge -> list ContractorEdge) (junk : N -> Edge ContractorEdgeData).
  Context (X : gset N) (nn D : N).

Abbreviation state := (contractor (St := St)).
Abbreviation flush := (flush sort_edges junk).
Abbreviation round := (round sort_edges junk make_storage fast_hash schedule).
Abbreviation run_loop := (run_loop sort_edges junk make_storage fast_hash schedule).
Abbreviation threads_ready := (threads_ready make_storage X).

(** What the states the loop visits owe their flush and their rounds. *)
Fixpoint run_room (fuel : nat) (k : N) (c : state) : Prop :=
  if ((2 <? nn) && (c_contracted c <? nn))%N then
    match fuel with
    | O => True
    | S fuel' =>
        let due := negb (c_flushed c) && flush_due (c_contracted c) nn in
        (due = true -> flush_room nn D c) /\
        forall c1, (if due then flush nn c else Some c) = Some c1 ->
          round_room D c1 /\ forall c2, round k c1 = Some c2 -> run_room fuel' (k + 1) c2
    end
  else True.

  Hypothesis hash_wf : xor_hash_wf fast_hash.
  Hypothesis X_small : (N.of_nat (size X) < 2147483647)%N.
  Hypothesis X_nodes : forall x, (x < nn)%N -> x ∈ X.
  Hypothesis nn_small : (nn < 2147483648)%N.
  Hypothesis schedule_all : forall k a b, (schedule k a b).*2 ≡ₚ irange a b.
  Hypothesis sort_perm : forall l, sort_edges l ≡ₚ l.
  Hypothesis sort_sorted : forall l, StronglySorted (fun a b => (ie_source a <= ie_source b)%N) (sort_edges l).
  #[local] Set Default Proof Using "All".

Lemma flush_inv E0 (c : state) :
  run_inv E0 nn c -> c_flushed c = false -> (c_contracted c < nn)%N -> flush_room nn D c ->
  exists c1, flush nn c = Some c1 /\ run_inv E0 nn c1 /\ c_threads c1 = [] /\
    vsize (c_remaining c1) = vsize (c_remaining c).
Proof.
  intros Hinv Hfl Hlt Hroom. destruct (ri_flag _ _ c Hinv Hfl) as [Hmap Hcount].
  pose proof (ri_edges _ _ c Hinv) as Hedges. rewrite Hcount in Hedges.
  pose proof (ri_sum _ _ c Hinv) as Hsum.
  destruct (flush_ok sort_edges junk sort_perm sort_sorted nn D c) as (c1 & Hrun & Hnet1 & Hedges1 & Hmap1 & Htot & Horig &
    Hnd & Hb & Hsz & Hth & Hcon & Hf1 & HL & HU & HD & Hof & Hext); try done.
  - apply (ri_net _ _ c Hinv).
  - apply (ri_nodup _ _ c Hinv).
  - intros x Hx. rewrite <- Hcount. by apply (ri_bound _ _ c Hinv).
  - intros Hnil. rewrite Hnil in Hsum. change (vsize (@nil RemainingNodeData)) with 0%N in Hsum. lia.
  - exists c1. split; [done|]. split; [|done]. pose proof (eo_count _ _ Hedges1) as Hc1.
    constructor; rewrite ?Hc1; try done.
    + lia.
    + intros u e He. left. by eapply Horig.
    + rewrite Hcon, Hsz. done.
    + congruence.
    + eapply hierarchy_iff; [exact HL|exact HU|exact HD|]. apply (ri_hier _ _ c Hinv).
    + intros x z Hx _. by eapply Hof.
    + intros q [Hq|(x & e & He & ->)]%Hext; [by apply (ri_external _ _ c Hinv)|].
      assert (x < nn)%N as Hx.
      { apply N.nle_gt. intros Hge. rewrite (eo_tail _ _ Hedges x Hge) in He. by apply elem_of_nil in He. }
      pose proof (eo_weight _ _ Hedges x e He) as Hw. pose proof (eo_positive _ _ Hedges x e He).
      split_and!; [done|exact (eo_target _ _ Hedges x e He)|..|by apply N.mod_lt];
        cbn [external_edge qe_data]; rewrite query_distance by done; lia.
Qed.

Lemma round_inv E0 k (c c' : state) b :
  run_inv E0 nn c -> round_room D c -> threads_ready (b + round_clears D nn) (c_threads c) ->
  round k c = Some c' -> run_inv E0 nn c' /\ threads_ready b (c_threads c').
Proof.
  intros Hinv Hroom Hth Hrun. pose proof (ri_sum _ _ c Hinv) as Hsum.
  assert (remaining_ids c ⊆ X) as HRX.
  { intros x Hx. apply X_nodes. pose proof (ri_bound _ _ c Hinv x Hx). pose proof (ri_count _ _ c Hinv). lia. }
  destruct (round_ok make_storage fast_hash schedule sort_edges junk X hash_wf X_small schedule_all sort_perm k c c' D b)
    as (Hstep & Hnet' & Hth' & Hsum' & Hnd' & Hmap' & Hext' & Hfl'); try done.
  { apply (ri_net _ _ c Hinv). }
  { eapply threads_ready_weaken; [|done]. apply N.add_le_mono_l, round_clears_mono. lia. }
  { lia. }
  assert (number_of_nodes (c_graph c') = number_of_nodes (c_graph c)) as Hnodes.
  { unfold Contractor.round in Hrun. destruct (round_graph _ _ _ _ _ k c) as [[[[g2 rem] first] ts]|] eqn:Eg; [|done].
    cbn [mbind option_bind] in Hrun. destruct (fold_m _ _ _) as [[[pr nd] ts']|]; [|done].
    cbn [mbind option_bind] in Hrun. injection Hrun as <-. cbn [c_graph]. by eapply round_graph_nodes. }
  split; [|done]. constructor; rewrite ?Hnodes.
  - done.
  - eapply edges_ok_step; try done; [apply (ri_edges _ _ c Hinv)|].
    intros x Hx. apply (ri_bound _ _ c Hinv). by apply (st_sub _ _ _ _ Hstep).
  - apply (ri_count _ _ c Hinv).
  - intros x Hx. apply (ri_bound _ _ c Hinv). by apply (st_sub _ _ _ _ Hstep).
  - eapply (map_ok_step E0 c c'); try done; [apply (ri_hier _ _ c Hinv)|apply (ri_net _ _ c Hinv)|apply (ri_map _ _ c Hinv)].
  - intros x Hx. unfold node_of. rewrite Hmap'. by apply (ri_total _ _ c Hinv).
  - eapply via_ok_step; try done; [apply (ri_map _ _ c Hinv)|apply (ri_via _ _ c Hinv)].
  - apply Hnd', (ri_nodup _ _ c Hinv).
  - lia.
  - rewrite Hfl', Hmap'. apply (ri_flag _ _ c Hinv).
  - eapply (round_hierarchy E0 c c'); try done; [apply (ri_hier _ _ c Hinv)|apply (ri_net _ _ c Hinv)|apply (ri_map _ _ c Hinv)].
  - intros x z. unfold node_of. rewrite Hmap'. apply (ri_orig _ _ c Hinv).
  - rewrite Hext'. apply (ri_external _ _ c Hinv).
Qed.

Lemma run_loop_inv E0 fuel : forall k (c c' : state) b,
  run_inv E0 nn c -> run_room fuel k c ->
  storage_ok make_storage X (b + N.of_nat fuel * round_clears D nn + 1) ->
  threads_ready (b + N.of_nat fuel * round_clears D nn) (c_threads c) ->
  run_loop fuel nn k c = Some c' -> run_inv E0 nn c'.
Proof.
  induction fuel as [|fuel IH]; intros k c c' b Hinv Hroom Hst Hth; cbn [Contractor.run_loop run_room] in *.
  { destruct (_ && _); [done|]. by intros [= <-]. }
  destruct ((2 <? nn)%N && (c_contracted c <? nn)%N) eqn:Econd; [|by intros [= <-]].
  apply andb_true_iff in Econd as [_ Hlt%N.ltb_lt].
  destruct Hroom as [Hdue Hrounds].
  assert (exists c1, (if negb (c_flushed c) && flush_due (c_contracted c) nn then flush nn c else Some c) = Some c1 /\
    run_inv E0 nn c1 /\ threads_ready (b + N.of_nat (S fuel) * round_clears D nn) (c_threads c1)) as (c1 & Hc1 & Hinv1 & Hth1).
  { destruct (negb (c_flushed c) && flush_due (c_contracted c) nn) eqn:Ef; [|by exists c].
    apply andb_true_iff in Ef as [Hfl%negb_true_iff _].
    destruct (flush_inv E0 c Hinv Hfl Hlt (Hdue eq_refl)) as (c1 & Hrun & Hinv1 & Hts & _).
    exists c1. split_and!; try done. rewrite Hts. split_and!; [done|constructor|done]. }
  rewrite Hc1. cbn [mbind option_bind]. destruct (Hrounds c1 Hc1) as [Hroom1 Hnext].
  destruct (round k c1) as [c2|] eqn:Er; [|done]. cbn [mbind option_bind].
  destruct (round_inv E0 k c1 c2 (b + N.of_nat fuel * round_clears D nn) Hinv1 Hroom1) as [Hinv2 Hth2]; [|done|].
  { eapply threads_ready_weaken; [|done]. lia. }
  apply (IH _ _ _ b); try done; [by apply Hnext|]. by destruct Hth2.
Qed.
(** ** The initialisation *)

Lemma run_init_ok g c b :
  number_of_nodes g = nn -> live_ok (list_to_set (irange 0 nn)) g ->
  (forall u, (u < nn)%N -> (vsize (adj g u) <= D)%N) ->
  storage_ok make_storage X (b + D * nn + 1) ->
  run_init make_storage schedule g = Some c ->
  threads_ready b (c_threads c) /\ c_graph c = g /\ rn_id <$> c_remaining c = irange 0 nn /\
  c_contracted c = 0%N /\ c_flushed c = false /\ c_orig_map c = [] /\ c_external c = [].
Proof.
  intros Hn Hlive HD Hst. unfold run_init, GetNumberOfNodes. rewrite Hn.
  destruct (fold_m (init_priority make_storage g _ nn) _ _) as [[pr ts]|] eqn:E; [|done]. cbn [mbind option_bind].
  intros [= <-]. cbn [c_threads c_graph c_remaining c_contracted c_flushed c_orig_map c_external].
  assert (vsize (schedule 0 0 nn) = nn) as Hsz.
  { assert (vsize ((schedule 0 0 nn).*2) = nn) as Hs by (rewrite schedule_all; unfold vsize; rewrite length_irange by lia; lia).
    unfold vsize in *. by rewrite length_fmap in Hs. }
  split; [|split_and!; try done].
  - eapply (fold_m_partial _ (fun post s => threads_ready (b + D * vsize post) s.2 /\
      forall tx, tx ∈ post -> (tx.2 < nn)%N)) in E.
    + destruct E as [E _]. cbn [snd] in E. eapply threads_ready_weaken; [|exact E]. lia.
    + cbn [snd]. rewrite Hsz. split; [split_and!; [done|constructor|done]|]. intros [t x] Htx. cbn [snd].
      assert (x ∈ irange 0 nn) as Hx by (rewrite <- (schedule_all 0); apply list_elem_of_fmap; by exists (t, x)).
      apply elem_of_irange in Hx; lia.
    + intros [t x] post [pr1 ts1] s' [Hr Hin]. unfold init_priority.
      destruct (vget _ x) as [depth|]; [|done]. cbn [mbind option_bind].
      destruct (on_thread make_storage nn t _ ts1) as [[ts2 p]|] eqn:Eo; [|done]. cbn [mbind option_bind].
      destruct (vset pr1 x p) as [pr2|]; [|done]. cbn [mbind option_bind]. intros [= <-]. cbn [snd].
      split; [|intros tx Htx; apply Hin; by right].
      assert (x < nn)%N as Hx by (apply (Hin (t, x)); by left).
      eapply (on_thread_partial make_storage fast_hash schedule sort_edges junk X hash_wf X_small schedule_all sort_perm
        nn t _ _ D); [|eapply threads_ready_weaken; [|exact Hr]|exact Eo].
      2:{ unfold vsize. cbn [length]. lia. }
      intros d d' r Hd Hf. cbn beta in Hf. unfold EvaluateNodePriority in Hf.
      destruct (ContractNode true g x _) as [cs|] eqn:Ec; [|done]. cbn [mbind option_bind] in Hf.
      destruct (priority_of _ depth) as [p'|]; [|done]. cbn [mbind option_bind] in Hf. injection Hf as <- _.
      cbn [td_heap td_inserted_edges]. split; [|done].
      eapply (simulate_ok X _ g Hlive); [|exact X_small| |..|exact Ec].
      * intros y Hy%elem_of_list_to_set. apply X_nodes. apply elem_of_irange in Hy; lia.
      * cbn [cs_heap]. eapply heap_wf_weaken; [|exact Hd]. specialize (HD x Hx). lia.
      * apply elem_of_list_to_set, elem_of_irange; lia.
  - rewrite <- list_fmap_compose. rewrite <- (list_fmap_id (irange 0 nn)) at 2. apply list_fmap_ext.
    intros i x Hi. rewrite irange_lookup in Hi by lia. case_decide; [|done]. injection Hi as <-. cbn.
    unfold ubits. rewrite N.mod_small; [done|]. simpl. lia.
Qed.

Lemma run_init_inv g c b :
  let R := list_to_set (irange 0 nn) in
  net_ok R g -> edges_ok nn g -> (forall u, (u < nn)%N -> (vsize (adj g u) <= D)%N) ->
  storage_ok make_storage X (b + D * nn + 1) ->
  run_init make_storage schedule g = Some c ->
  run_inv (live_arcs R g) nn c /\ threads_ready b (c_threads c).
Proof.
  intros R Hnet Hedges HD Hst Hrun.
  destruct (run_init_ok g c b (eo_count _ _ Hedges) (no_live _ _ Hnet) HD Hst Hrun)
    as (Hth & Hg & Hids & Hcon & Hfl & Hmap & Hext).
  split; [|done]. assert (remaining_ids c = R) as HR by (unfold remaining_ids; by rewrite Hids).
  pose proof (eo_count _ _ Hedges) as Hn.
  assert (forall x y, node_of c x y <-> x = y) as Hof.
  { intros x y. unfold node_of, original_id. rewrite Hmap. simpl. split; congruence. }
  constructor; rewrite ?Hg, ?HR, ?Hn; try done.
  - intros x Hx%elem_of_list_to_set. apply elem_of_irange in Hx; lia.
  - constructor; [intros x y z; rewrite !Hof; congruence|]. intros x _. exists x. by apply Hof.
  - intros x _. exists x. by apply Hof.
  - intros u e _. right. exists (ce_id (e_data e)). by apply Hof.
  - rewrite Hids. apply NoDup_irange. lia.
  - rewrite Hcon. apply (f_equal vsize) in Hids. unfold vsize in *. rewrite length_fmap, length_irange in Hids by lia. lia.
  - eapply hierarchy_iff; [..|apply hierarchy_start].
    + intros u v w. unfold live_of. rewrite HR, Hg. setoid_rewrite Hof. split.
      * intros (u' & v' & <- & <- & Hu & Hf). done.
      * intros [Hu Hf]. by exists u, v.
    + intros u v w. unfold up_of. rewrite HR, Hg, Hext. split; [|done].
      intros [(q & Hq & _)|(u' & v' & _ & _ & Hu & e & He & _)]; [by apply elem_of_nil in Hq|].
      assert (nn <= u')%N as Hge. { apply N.nlt_ge. intros Hlt. apply Hu, elem_of_list_to_set, elem_of_irange; lia. }
      rewrite (eo_tail _ _ Hedges u' Hge) in He. by apply elem_of_nil in He.
    + intros u v w. unfold down_of. rewrite HR, Hg, Hext. split; [|done].
      intros [(q & Hq & _)|(u' & v' & _ & _ & Hu & e & He & _)]; [by apply elem_of_nil in Hq|].
      assert (nn <= u')%N as Hge. { apply N.nlt_ge. intros Hlt. apply Hu, elem_of_list_to_set, elem_of_irange; lia. }
      rewrite (eo_tail _ _ Hedges u' Hge) in He. by apply elem_of_nil in He.
  - intros x z ->%Hof. done.
  - rewrite Hext. by intros q ?%elem_of_nil.
Qed.

End run.

(** The edges given away represent the distances of the graph. *)
Lemma given_distances {St} E0 nn (c : contractor (St := St)) :
  (nn < 2147483648)%N -> run_inv E0 nn c ->
  exists es, GetEdges c [] = Some es /\ (forall q, q ∈ es -> edge_in nn q) /\ forall s t,
    (forall l, path E0 s t l ->
       exists m l1 l2, path (query_fwd es) s m l1 /\ path (query_bwd es) t m l2 /\ (l1 + l2 <= l)%N) /\
    (forall m l1 l2, path (query_fwd es) s m l1 -> path (query_bwd es) t m l2 -> within E0 s t (l1 + l2)).
Proof.
  intros Hnn Hinv. destruct (get_edges_ok E0 nn c Hinv) as (es & Hes & Hf & Hb & Hd & Hin); [lia|].
  pose proof (ri_hier _ _ c Hinv) as Hh. exists es. split; [done|]. split; [done|]. intros s t. split.
  - intros l (a & m & l1 & l2 & l3 & Hu & Hl & Hdn & Hle)%(hi_complete _ _ _ _ Hh). exists m, (l1 + l2)%N, l3.
    split_and!; [|by eapply path_mono|lia]. eapply path_app.
    + eapply path_mono; [|exact Hu]. intros ???. rewrite Hf. by right.
    + eapply path_mono; [|exact Hl]. intros ???. rewrite Hf. by left.
  - intros m l1 l2 Hp1 Hp2. apply (within_app _ _ m).
    + eapply path_subst; [|exact Hp1]. intros a b w [HL|HU]%Hf; [by apply (hi_live _ _ _ _ Hh)|by apply (hi_up _ _ _ _ Hh)].
    + apply path_flip in Hp2. eapply path_subst; [|exact Hp2]. intros a b w [HD|(w' & Hw' & HL)]%Hb.
      * by apply (hi_down _ _ _ _ Hh).
      * apply (within_mono _ _ _ w'); [done|]. by apply (hi_live _ _ _ _ Hh).
Qed.
