(* ===== verification/ContractorInput.v ===== *)
(** * Contractor/Contractor.h: the constructor

    The input edges are copied in both directions, sorted, and merged in
    place into at most two edges per pair of nodes. The graph built from the
    result has the shortest arcs of the input. *)

From S2P Require Import Prelude Types Paths Edges Storage BinaryHeap DynamicGraph Float32 Contractor.
From S2P Require Import WitnessSearch Independence ContractionRound Hierarchy Rounds Renumbering Flush.

Abbreviation cedge := ContractorEdge.

Definition same_ends (x y : cedge) : Prop := ie_source x = ie_source y /\ ie_target x = ie_target y.

(** [out] holds the shortest edge of each direction of [l], for every pair of
    different nodes. *)
Record merge_of (l out : list cedge) : Prop := {
  mg_fwd x : x ∈ out -> ce_forward (ie_data x) = true ->
    exists y, y ∈ l /\ same_ends y x /\ ce_forward (ie_data y) = true /\ ce_distance (ie_data y) = ce_distance (ie_data x);
  mg_bwd x : x ∈ out -> ce_backward (ie_data x) = true ->
    exists y, y ∈ l /\ same_ends y x /\ ce_backward (ie_data y) = true /\ ce_distance (ie_data y) = ce_distance (ie_data x);
  mg_kept_fwd y : y ∈ l -> ie_source y <> ie_target y -> ce_forward (ie_data y) = true ->
    exists x, x ∈ out /\ same_ends x y /\ ce_forward (ie_data x) = true /\ (ce_distance (ie_data x) <= ce_distance (ie_data y))%N;
  mg_kept_bwd y : y ∈ l -> ie_source y <> ie_target y -> ce_backward (ie_data y) = true ->
    exists x, x ∈ out /\ same_ends x y /\ ce_backward (ie_data x) = true /\ (ce_distance (ie_data x) <= ce_distance (ie_data y))%N;
  mg_shape x : x ∈ out -> ie_source x <> ie_target x /\ ce_forward (ie_data x) || ce_backward (ie_data x) = true;
  mg_size : (vsize out <= vsize l)%N;
}.

Lemma merge_of_nil : merge_of [] [].
Proof. constructor; try done; intros ? ?%elem_of_nil; done. Qed.

Lemma merge_of_app l1 l2 o1 o2 : merge_of l1 o1 -> merge_of l2 o2 -> merge_of (l1 ++ l2) (o1 ++ o2).
Proof.
  intros [A1 A2 A3 A4 A5 A6] [B1 B2 B3 B4 B5 B6]. constructor.
  - intros x [Hx|Hx]%elem_of_app Hf; [destruct (A1 x Hx Hf) as (y & ? & ?)|destruct (B1 x Hx Hf) as (y & ? & ?)];
      exists y; (split; [apply elem_of_app; tauto|done]).
  - intros x [Hx|Hx]%elem_of_app Hf; [destruct (A2 x Hx Hf) as (y & ? & ?)|destruct (B2 x Hx Hf) as (y & ? & ?)];
      exists y; (split; [apply elem_of_app; tauto|done]).
  - intros x [Hx|Hx]%elem_of_app Hn Hf; [destruct (A3 x Hx Hn Hf) as (y & ? & ?)|destruct (B3 x Hx Hn Hf) as (y & ? & ?)];
      exists y; (split; [apply elem_of_app; tauto|done]).
  - intros x [Hx|Hx]%elem_of_app Hn Hf; [destruct (A4 x Hx Hn Hf) as (y & ? & ?)|destruct (B4 x Hx Hn Hf) as (y & ? & ?)];
      exists y; (split; [apply elem_of_app; tauto|done]).
  - intros x [Hx|Hx]%elem_of_app; [by apply A5|by apply B5].
  - rewrite !vsize_app. lia.
Qed.

(** An eigenloop is dropped. *)
Lemma merge_of_loop x : ie_source x = ie_target x -> merge_of [x] [].
Proof.
  intros Hx. constructor; try (intros ? ?%elem_of_nil; done).
  - intros y Hy%list_elem_of_singleton. by subst y.
  - intros y Hy%list_elem_of_singleton. by subst y.
  - change (vsize []) with 0%N. lia.
Qed.

(** ** One group of parallel edges *)

(** [d] is the least distance of the edges of [l] with flag [p], or
    [INT_MAX]. *)
Definition least (p : ContractorEdgeData -> bool) (l : list cedge) (d : N) : Prop :=
  (d = of_int INT_MAX \/ exists y, y ∈ l /\ p (ie_data y) = true /\ ce_distance (ie_data y) = d) /\
  (forall y, y ∈ l -> p (ie_data y) = true -> (d <= ce_distance (ie_data y))%N).

Lemma least_nil p : least p [] (of_int INT_MAX).
Proof. split; [by left|]. by intros y ?%elem_of_nil. Qed.

Lemma least_snoc p l x d :
  least p l d -> (ce_distance (ie_data x) < max_weight)%N ->
  least p (l ++ [x]) (if p (ie_data x) then N.min (ce_distance (ie_data x)) d else d).
Proof.
  intros [Hd Hle] Hw. split.
  - destruct (p (ie_data x)) eqn:E.
    + destruct (N.min_spec (ce_distance (ie_data x)) d) as [[Hm ->]|[Hm ->]].
      * right. exists x. split_and!; try done. apply elem_of_app. right. by left.
      * destruct Hd as [|(y & Hy & Hrest)]; [by left|right; exists y]. split; [apply elem_of_app; by left|done].
    + destruct Hd as [|(y & Hy & Hrest)]; [by left|right; exists y]. split; [apply elem_of_app; by left|done].
  - intros y [Hy|Hy%list_elem_of_singleton]%elem_of_app Hp; [|subst y].
    + specialize (Hle y Hy Hp). destruct (p (ie_data x)); lia.
    + rewrite Hp. lia.
Qed.

Lemma scan_parallel_ok fuel edges s t : forall i grp fd rd,
  Forall (fun x => ce_distance (ie_data x) < max_weight)%N (drop (N.to_nat i) edges) -> (vsize edges < 4294967295)%N ->
  (i <= vsize edges)%N -> (N.to_nat (vsize edges - i) < fuel)%nat ->
  least ce_forward grp fd -> least ce_backward grp rd ->
  exists k fd' rd', scan_parallel fuel edges s t i fd rd = Some ((i + vsize k)%N, fd', rd') /\
    k = take (length k) (drop (N.to_nat i) edges) /\
    Forall (fun x => ie_source x = s /\ ie_target x = t) k /\
    least ce_forward (grp ++ k) fd' /\ least ce_backward (grp ++ k) rd' /\
    (forall x, vget edges i = Some x -> ie_source x = s -> ie_target x = t -> k <> []).
Proof.
  induction fuel as [|fuel IH]; intros i grp fd rd Hw Hsz Hi Hfuel Hf Hr; [lia|]. cbn [scan_parallel].
  assert (exists k fd' rd', Some (i, fd, rd) = Some ((i + vsize k)%N, fd', rd') /\
    k = take (length k) (drop (N.to_nat i) edges) /\ Forall (fun x => ie_source x = s /\ ie_target x = t) k /\
    least ce_forward (grp ++ k) fd' /\ least ce_backward (grp ++ k) rd' /\ k = []) as Hstop.
  { exists [], fd, rd. rewrite app_nil_r. change (vsize []) with 0%N. rewrite N.add_0_r. split_and!; try done. }
  case_ltb.
  2:{ destruct Hstop as (k & fd' & rd' & H1 & H2 & H3 & H4 & H5 & ->). exists [], fd', rd'. split_and!; try done.
      intros x Hx. apply vget_Some_lt in Hx. lia. }
  destruct (vget_lt edges i) as [x Hx]; [done|]. rewrite Hx. cbn [mbind option_bind].
  destruct (N.eqb_spec (ie_source x) s) as [Hs|Hs], (N.eqb_spec (ie_target x) t) as [Ht|Ht]; cbn [andb].
  2-4: destruct Hstop as (k & fd' & rd' & H1 & H2 & H3 & H4 & H5 & ->); exists [], fd', rd'; split_and!; try done;
      intros x' [= ->]; congruence.
  rewrite vget_lookup in Hx. rewrite (drop_S _ x) in Hw by done. apply Forall_cons in Hw as [Hwx Hw].
  replace (S (N.to_nat i)) with (N.to_nat (i + 1)) in Hw by lia. rewrite uadd_small by lia.
  destruct (IH (i + 1)%N (grp ++ [x]) (if ce_forward (ie_data x) then N.min (ce_distance (ie_data x)) fd else fd)
    (if ce_backward (ie_data x) then N.min (ce_distance (ie_data x)) rd else rd))
    as (k & fd' & rd' & -> & Hk & Hall & Hf' & Hr' & _); [done|done|lia|lia|by apply least_snoc|by apply least_snoc|].
  exists (x :: k), fd', rd'. rewrite <- app_assoc in Hf', Hr'. split_and!; try done.
  - unfold vsize. cbn [length]. f_equal. f_equal. f_equal. lia.
  - cbn [length]. rewrite (drop_S _ x) by done. cbn [take]. f_equal. rewrite Hk at 1. do 2 f_equal. lia.
  - by constructor.
Qed.

Lemma int_max_value : of_int INT_MAX = 2147483647%N.
Proof. done. Qed.

Lemma not_int_max d : (d < 2147483648)%N -> (to_int d =? INT_MAX)%Z = (d =? 2147483647)%N.
Proof.
  intros Hd. rewrite to_int_small by done. unfold INT_MAX.
  destruct (N.eqb_spec d 2147483647), (Z.eqb_spec (Z.of_N d) 2147483647); lia.
Qed.

Lemma least_found p l d :
  Forall (fun x => ce_distance (ie_data x) < max_weight)%N l -> least p l d ->
  d = 2147483647%N /\ (forall y, y ∈ l -> p (ie_data y) = false) \/
  (d < max_weight)%N /\ exists y, y ∈ l /\ p (ie_data y) = true /\ ce_distance (ie_data y) = d.
Proof.
  intros Hw [Hd Hle]. rewrite Forall_forall in Hw. destruct Hd as [->|(y & Hy & Hp & <-)].
  - left. split; [done|]. intros y Hy. destruct (p (ie_data y)) eqn:E; [|done].
    specialize (Hle y Hy E). specialize (Hw y Hy). rewrite int_max_value in Hle. unfold max_weight in Hw. lia.
  - right. split; [by apply Hw|]. by exists y.
Qed.

(** The merged edges of a group between two different nodes. *)
Lemma merged_edges_ok s t id k fd rd :
  s <> t -> k <> [] -> Forall (fun x => ie_source x = s /\ ie_target x = t) k ->
  Forall (fun x => ce_distance (ie_data x) < max_weight)%N k -> least ce_forward k fd -> least ce_backward k rd ->
  merge_of k (merged_edges s t id fd rd).
Proof.
  intros Hst Hne Hall Hw Hf Hr. pose proof (least_found _ _ _ Hw Hf) as Hf'. pose proof (least_found _ _ _ Hw Hr) as Hr'.
  rewrite Forall_forall in Hall.
  assert (fd < 2147483648 /\ rd < 2147483648)%N as [Hfb Hrb] by (unfold max_weight in *; lia).
  assert (forall x, x ∈ merged_edges s t id fd rd -> ie_source x = s /\ ie_target x = t /\
    (ce_forward (ie_data x) = true -> ce_distance (ie_data x) = fd /\ fd <> 2147483647%N) /\
    (ce_backward (ie_data x) = true -> ce_distance (ie_data x) = rd /\ rd <> 2147483647%N) /\
    ce_forward (ie_data x) || ce_backward (ie_data x) = true) as Hin.
  { intros x Hx. unfold merged_edges in Hx. rewrite !not_int_max in Hx by done.
    destruct (N.eqb_spec fd rd), (N.eqb_spec fd 2147483647), (N.eqb_spec rd 2147483647); simpl in Hx;
      repeat (apply elem_of_cons in Hx as [->|Hx]; [simpl; split_and!; try done; intros _; split; congruence|]);
      by apply elem_of_nil in Hx. }
  constructor.
  - intros x Hx Hxf. destruct (Hin x Hx) as (Hs & Ht & Hfx & _). destruct (Hfx Hxf) as [Hd Hmax].
    destruct Hf' as [[? _]|(_ & y & Hy & Hp & Hyd)]; [done|]. exists y. destruct (Hall y Hy). unfold same_ends.
    split_and!; congruence.
  - intros x Hx Hxf. destruct (Hin x Hx) as (Hs & Ht & _ & Hfx & _). destruct (Hfx Hxf) as [Hd Hmax].
    destruct Hr' as [[? _]|(_ & y & Hy & Hp & Hyd)]; [done|]. exists y. destruct (Hall y Hy). unfold same_ends.
    split_and!; congruence.
  - intros y Hy _ Hyf. destruct Hf' as [[_ Hno]|(Hlt & _)]; [rewrite Hno in Hyf by done; done|].
    assert (exists b, MkInputEdge s t (MkContractorEdgeData fd id 1 false true b false) ∈ merged_edges s t id fd rd) as [b Hb].
    { unfold merged_edges. rewrite !not_int_max by done. unfold max_weight in Hlt.
      destruct (N.eqb_spec fd rd), (N.eqb_spec fd 2147483647); simpl; try lia; eexists; by left. }
    eexists. split; [exact Hb|]. destruct (Hall y Hy). split_and!; simpl; try done. by apply (proj2 Hf).
  - intros y Hy _ Hyf. destruct Hr' as [[_ Hno]|(Hlt & _)]; [rewrite Hno in Hyf by done; done|].
    assert (exists b, MkInputEdge s t (MkContractorEdgeData rd id 1 false b true false) ∈ merged_edges s t id fd rd) as [b Hb].
    { unfold merged_edges. rewrite !not_int_max by done. unfold max_weight in Hlt.
      destruct (N.eqb_spec fd rd), (N.eqb_spec fd 2147483647), (N.eqb_spec rd 2147483647); simpl; subst; try lia;
        eexists; (by left) || (right; by left). }
    eexists. split; [exact Hb|]. destruct (Hall y Hy). split_and!; simpl; try done. by apply (proj2 Hr).
  - intros x Hx. destruct (Hin x Hx) as (-> & -> & _ & _ & ?). done.
  - unfold merged_edges. rewrite !not_int_max by done.
    assert (1 <= vsize k)%N by (unfold vsize; destruct k; [done|simpl; lia]).
    destruct (N.eqb_spec fd rd) as [|Hne']; [destruct (N.eqb_spec fd 2147483647); unfold vsize in *; simpl; lia|].
    destruct (N.eqb_spec fd 2147483647), (N.eqb_spec rd 2147483647); unfold vsize in *; simpl; try lia.
    destruct Hf' as [[? _]|(_ & y & Hy & _ & Hyd)]; [done|]. destruct Hr' as [[? _]|(_ & z & Hz & _ & Hzd)]; [done|].
    destruct k as [|a [|b k]]; [done| |simpl; lia].
    apply list_elem_of_singleton in Hy, Hz. congruence.
Qed.

(** ** The merge in place *)

Lemma write_edges_ok out : forall edges edge,
  (edge + vsize out <= vsize edges < 4294967295)%N ->
  exists edges', write_edges out edges edge = Some (edges', (edge + vsize out)%N) /\
    vsize edges' = vsize edges /\
    take (N.to_nat (edge + vsize out)) edges' = take (N.to_nat edge) edges ++ out /\
    (forall i, (edge + vsize out <= i)%N -> drop (N.to_nat i) edges' = drop (N.to_nat i) edges).
Proof.
  induction out as [|x out IH]; intros edges edge Hsz; cbn [write_edges].
  { exists edges. change (vsize []) with 0%N. rewrite N.add_0_r, app_nil_r. done. }
  assert (vsize (x :: out) = vsize out + 1)%N as Hx by (unfold vsize; simpl; lia). rewrite Hx in *.
  rewrite vset_lt by lia. cbn [mbind option_bind]. rewrite (uadd_small edge 1) by lia.
  destruct (IH (<[N.to_nat edge := x]> edges) (edge + 1)%N) as (edges' & -> & Hl & Ht & Hd).
  { rewrite vsize_insert. lia. }
  exists edges'. replace (edge + 1 + vsize out)%N with (edge + (vsize out + 1))%N in * by lia.
  rewrite vsize_insert in Hl. split_and!; try done.
  - rewrite Ht. replace (N.to_nat (edge + 1)) with (S (N.to_nat edge)) by lia.
    rewrite (take_S_r _ _ x) by (apply list_lookup_insert_eq; unfold vsize in *; lia).
    rewrite take_insert_ge by lia. by rewrite <- app_assoc.
  - intros i Hi. rewrite Hd by lia. apply drop_insert_lt. lia.
Qed.

Abbreviation by_source := (fun a b : cedge => (ie_source a <= ie_source b)%N).

(** Replacing a run with one source by other edges with this source. *)
Lemma sorted_replace l1 k m l2 s :
  k <> [] -> Forall (fun x => ie_source x = s) k -> Forall (fun x => ie_source x = s) m ->
  StronglySorted by_source (l1 ++ k ++ l2) -> StronglySorted by_source (l1 ++ m ++ l2).
Proof.
  intros Hne Hk Hm Hs. apply StronglySorted_app in Hs as (H1k & Hs1 & Hs2).
  apply StronglySorted_app in Hs2 as (Hk2 & _ & Hs2).
  destruct k as [|y k]; [done|]. assert (ie_source y = s) as Hy by (by apply Forall_cons in Hk as [? _]).
  rewrite Forall_forall in Hm. apply StronglySorted_app. split_and!; [|done|].
  - intros a b Ha [Hb|Hb]%elem_of_app; [|apply H1k; [done|apply elem_of_app; by right]].
    rewrite (Hm b Hb), <- Hy. apply H1k; [done|]. apply elem_of_app. left. by left.
  - apply StronglySorted_app. split_and!; [|clear -Hm|done].
    + intros a b Ha Hb. rewrite (Hm a Ha), <- Hy. apply Hk2; [by left|done].
    + induction m as [|a m IH]; [constructor|]. constructor.
      * apply IH. intros x Hx. apply Hm. by right.
      * apply Forall_forall. intros b Hb. rewrite (Hm a), (Hm b); [done|by right|by left].
Qed.

(** The loop at position [i] of the sorted list [l]: the first [edge] cells
    hold the merged edges, the cells from [i] on are untouched. *)
Record merging (l edges : list cedge) (i edge : N) : Prop := {
  mi_size : vsize edges = vsize l;
  mi_rest : drop (N.to_nat i) edges = drop (N.to_nat i) l;
  mi_bound : (edge <= i <= vsize l)%N;
  mi_done : merge_of (take (N.to_nat i) l) (take (N.to_nat edge) edges);
  mi_sorted : StronglySorted by_source (take (N.to_nat edge) edges ++ drop (N.to_nat i) l);
}.

Lemma merging_get l edges i edge x : merging l edges i edge -> vget l i = Some x -> vget edges i = Some x.
Proof.
  intros Hm Hx. rewrite vget_lookup in Hx |- *. rewrite <- Hx.
  rewrite <- (Nat.add_0_r (N.to_nat i)), <- !lookup_drop. by rewrite (mi_rest _ _ _ _ Hm).
Qed.

(** A run of [l] from position [i] is replaced by [m]. *)
Lemma merging_step l edges edges' i edge k m :
  merging l edges i edge -> k = take (length k) (drop (N.to_nat i) l) -> merge_of k m ->
  (StronglySorted by_source (take (N.to_nat edge) edges ++ k ++ drop (N.to_nat (i + vsize k)) l) ->
   StronglySorted by_source (take (N.to_nat edge) edges ++ m ++ drop (N.to_nat (i + vsize k)) l)) ->
  vsize edges' = vsize edges -> take (N.to_nat (edge + vsize m)) edges' = take (N.to_nat edge) edges ++ m ->
  (forall j, (edge + vsize m <= j)%N -> drop (N.to_nat j) edges' = drop (N.to_nat j) edges) ->
  merging l edges' (i + vsize k) (edge + vsize m).
Proof.
  intros [Hsz Hrest Hb Hdone Hsort] Hk Hm Hrep Hsz' Htake Hdrop. pose proof (mg_size _ _ Hm) as Hmk.
  assert (drop (N.to_nat i) l = k ++ drop (N.to_nat (i + vsize k)) l) as Hsplit.
  { rewrite <- (take_drop (length k) (drop (N.to_nat i) l)) at 1. rewrite <- Hk, drop_drop. do 2 f_equal. unfold vsize. lia. }
  assert (vsize k <= vsize l - i)%N as Hkl.
  { rewrite Hk. unfold vsize. rewrite length_take, length_drop. lia. }
  constructor.
  - congruence.
  - rewrite Hdrop by lia. apply (f_equal (drop (length k))) in Hrest. rewrite !drop_drop in Hrest.
    replace (N.to_nat (i + vsize k)) with (N.to_nat i + length k)%nat by (unfold vsize; lia). done.
  - lia.
  - rewrite Htake. replace (take (N.to_nat (i + vsize k)) l) with (take (N.to_nat i) l ++ k); [by apply merge_of_app|].
    rewrite Hk at 1. rewrite take_take_drop. f_equal. unfold vsize. lia.
  - rewrite Htake, <- app_assoc. apply Hrep. by rewrite <- Hsplit.
Qed.

Lemma merge_loop_ok (l : list cedge) fuel : forall edges i edge,
  Forall (fun x => ce_distance (ie_data x) < max_weight)%N l -> (vsize l < 4294967295)%N ->
  merging l edges i edge -> (N.to_nat (vsize l - i) < fuel)%nat ->
  exists edges' edge', merge_loop fuel edges i edge = Some (edges', edge') /\
    merge_of l (take (N.to_nat edge') edges') /\ StronglySorted by_source (take (N.to_nat edge') edges').
Proof.
  induction fuel as [|fuel IH]; intros edges i edge Hw Hb Hm Hfuel; [lia|].
  cbn [merge_loop]. pose proof Hm as [Hsz Hrest Hbd Hdone Hsort]. rewrite Hsz.
  destruct (N.ltb_spec i (vsize l)) as [Hil|Hil].
  2:{ exists edges, edge. split; [done|]. rewrite take_ge in Hdone by (unfold vsize in *; lia).
      rewrite drop_ge, app_nil_r in Hsort by (unfold vsize in *; lia). done. }
  destruct (vget_lt l i Hil) as [x Hx]. pose proof (merging_get _ _ _ _ _ Hm Hx) as Hxe. rewrite Hxe. cbn [mbind option_bind].
  assert (drop (N.to_nat i) l = x :: drop (N.to_nat (i + 1)) l) as Hdx.
  { rewrite vget_lookup in Hx. rewrite (drop_S _ x) by done. do 2 f_equal. lia. }
  destruct (N.eqb_spec (ie_source x) (ie_target x)) as [Hloop|Hne].
  - rewrite (uadd_small i 1) by lia. apply IH; try done; [|lia].
    replace edge with (edge + vsize (@nil cedge))%N by (change (vsize (@nil cedge)) with 0%N; lia).
    change (i + 1)%N with (i + vsize [x])%N.
    apply (merging_step l edges edges i edge [x] []); try done; [by rewrite Hdx|by apply merge_of_loop| |].
    + intros Hs. apply StronglySorted_app in Hs as (H1 & H2 & H3). apply StronglySorted_app.
      split_and!; [|done|by inversion H3]. intros a b Ha Hb'. apply H1; [done|by right].
    + change (vsize (@nil cedge)) with 0%N. by rewrite N.add_0_r, app_nil_r.
  - destruct (scan_parallel_ok (S (length edges)) edges (ie_source x) (ie_target x) i [] (of_int INT_MAX) (of_int INT_MAX))
      as (k & fd & rd & -> & Hk & Hall & Hf & Hr & Hkne).
    { rewrite Hrest. by apply Forall_drop. } { lia. } { lia. } { unfold vsize in *. lia. } { apply least_nil. } { apply least_nil. }
    specialize (Hkne x Hxe eq_refl eq_refl). cbn [mbind option_bind app] in *. rewrite Hrest in Hk.
    assert (Forall (fun x => ce_distance (ie_data x) < max_weight)%N k) as Hwk.
    { rewrite Hk. by apply Forall_take, Forall_drop. }
    pose proof (merged_edges_ok _ _ (ce_id (ie_data x)) k fd rd Hne Hkne Hall Hwk Hf Hr) as Hmk.
    set (m := merged_edges _ _ _ _ _) in *. pose proof (mg_size _ _ Hmk) as Hmsz.
    assert (vsize k <= vsize l - i)%N as Hkl. { rewrite Hk. unfold vsize. rewrite length_take, length_drop. lia. }
    destruct (write_edges_ok m edges edge) as (edges' & -> & Hsz' & Htk & Hdr); [lia|]. cbn [mbind option_bind].
    apply IH; try done.
    + apply (merging_step l edges edges' i edge k m); try done. apply (sorted_replace _ k m _ (ie_source x)); [done| |].
      * eapply Forall_impl; [exact Hall|]. by intros y [? _].
      * apply Forall_forall. intros y Hy. destruct (mg_shape _ _ Hmk y Hy) as [_ Hfb].
        rewrite Forall_forall in Hall.
        apply orb_true_iff in Hfb as [Hyf|Hyb]; [destruct (mg_fwd _ _ Hmk y Hy Hyf) as (z & Hz & [<- _] & _)|destruct (mg_bwd _ _ Hmk y Hy Hyb) as (z & Hz & [<- _] & _)];
          by apply Hall.
    + assert (1 <= vsize k)%N by (unfold vsize; destruct k; [done|simpl; lia]). lia.
Qed.

(** ** The graph of the input *)

(** The arcs of the input edges; weights below 1 count as 1. *)
Definition input_arcs (input : list EdgeBasedEdge) : arcs := fun u v w =>
  exists e, e ∈ input /\ weight_of e = w /\
    (eb_source e = u /\ eb_target e = v /\ eb_forward e = true \/
     eb_source e = v /\ eb_target e = u /\ eb_backward e = true).

Definition input_ok (nodes : N) (input : list EdgeBasedEdge) : Prop :=
  Forall (fun e => eb_source e < nodes /\ eb_target e < nodes /\ (eb_weight e < 536870912)%Z)%N input /\
  (2 * vsize input < 2147483648)%N /\ (nodes < 2147483648)%N.

Definition copies (input : list EdgeBasedEdge) : list cedge := concat (input_pair <$> input).

Lemma elem_of_copies input y :
  y ∈ copies input <-> exists e, e ∈ input /\ y ∈ input_pair e.
Proof.
  unfold copies. rewrite elem_of_concat. setoid_rewrite list_elem_of_fmap. naive_solver.
Qed.

Lemma weight_of_range e : (eb_weight e < 536870912)%Z -> (0 < weight_of e < max_weight)%N.
Proof. intros Hw. unfold weight_of, max_weight. rewrite of_int_nonneg by lia. lia. Qed.

(** The other copy of an edge runs the other way. *)
Lemma copies_mirror input y :
  y ∈ copies input -> exists y', y' ∈ copies input /\ ie_source y' = ie_target y /\ ie_target y' = ie_source y /\
    ce_distance (ie_data y') = ce_distance (ie_data y) /\
    ce_forward (ie_data y') = ce_backward (ie_data y) /\ ce_backward (ie_data y') = ce_forward (ie_data y).
Proof.
  intros (e & He & Hy)%elem_of_copies.
  assert (forall y', y' ∈ input_pair e -> y' ∈ copies input) as Hin by (intros y' Hy'; apply elem_of_copies; by exists e).
  unfold input_pair in *. apply elem_of_cons in Hy as [->|Hy%list_elem_of_singleton]; [|subst y].
  - eexists. split; [apply Hin; right; by left|]. done.
  - eexists. split; [apply Hin; by left|]. done.
Qed.

Lemma copies_fwd input u v w :
  (exists y, y ∈ copies input /\ ie_source y = u /\ ie_target y = v /\ ce_forward (ie_data y) = true /\
     ce_distance (ie_data y) = w) <-> input_arcs input u v w.
Proof.
  split.
  - intros (y & (e & He & Hy)%elem_of_copies & <- & <- & Hf & <-). exists e. split; [done|].
    apply elem_of_cons in Hy as [->|Hy%list_elem_of_singleton]; [|subst y]; simpl in *; split; [done|..]; tauto.
  - intros (e & He & <- & [(<- & <- & Hf)|(<- & <- & Hf)]).
    + eexists. split; [apply elem_of_copies; exists e; split; [done|by left]|]. done.
    + eexists. split; [apply elem_of_copies; exists e; split; [done|right; by left]|]. done.
Qed.

Section make.
  Context (sort_edges : list cedge -> list cedge) (junk : N -> Edge ContractorEdgeData).
  Hypothesis sort_perm : forall l, sort_edges l ≡ₚ l.
  Hypothesis sort_sorted : forall l, StronglySorted by_source (sort_edges l).
  #[local] Set Default Proof Using "All".

Lemma merge_of_perm l l' out : l ≡ₚ l' -> merge_of l out -> merge_of l' out.
Proof using Type.
  intros Hp [A1 A2 A3 A4 A5 A6]. constructor.
  - setoid_rewrite <- Hp. done.
  - setoid_rewrite <- Hp. done.
  - setoid_rewrite <- Hp. done.
  - setoid_rewrite <- Hp. done.
  - done.
  - by rewrite <- Hp.
Qed.

Lemma vsize_copies input : vsize (copies input) = (2 * vsize input)%N.
Proof using Type.
  unfold copies. induction input as [|e input IH]; [done|]. rewrite fmap_cons. cbn [concat]. rewrite vsize_app, IH.
  unfold vsize. simpl. lia.
Qed.

(** Node, weight and end bounds of the copies. *)
Lemma copies_ok nodes input y : input_ok nodes input -> y ∈ copies input ->
  (ie_source y < nodes)%N /\ (ie_target y < nodes)%N /\ (0 < ce_distance (ie_data y) < max_weight)%N.
Proof using Type.
  intros (Hall & _) (e & He & Hy)%elem_of_copies. rewrite Forall_forall in Hall. destruct (Hall e He) as (Hs & Ht & Hw).
  apply weight_of_range in Hw.
  apply elem_of_cons in Hy as [->|Hy%list_elem_of_singleton]; [|subst y]; simpl; done.
Qed.

Lemma merge_input_ok nodes input :
  input_ok nodes input ->
  exists out, merge_input sort_edges input = Some out /\ merge_of (copies input) out /\ StronglySorted by_source out.
Proof.
  intros Hin. unfold merge_input. fold (copies input). set (l := sort_edges (copies input)).
  assert (vsize l = 2 * vsize input)%N as Hsz by (unfold l; by rewrite sort_perm, vsize_copies).
  destruct (merge_loop_ok l (S (length l)) l 0 0) as (edges & edge & -> & Hm & Hs).
  - apply Forall_forall. intros y Hy. unfold l in Hy. rewrite sort_perm in Hy. by apply (copies_ok nodes input).
  - destruct Hin as (_ & ? & _). lia.
  - constructor; [done|done|lia|apply merge_of_nil|apply sort_sorted].
  - unfold vsize. lia.
  - cbn [mbind option_bind]. eexists. split; [done|]. split; [|done]. by eapply merge_of_perm; [apply sort_perm|].
Qed.
(** Both directions of the merged edges, in terms of the input. *)
Lemma merged_fwd input out u v w :
  merge_of (copies input) out ->
  (lfwd out u v w -> u <> v /\ input_arcs input u v w) /\
  (input_arcs input u v w -> u <> v -> exists w', (w' <= w)%N /\ lfwd out u v w').
Proof using Type.
  intros Hm. split.
  - intros (x & Hx & <- & <- & Hf & <-). split; [by apply (mg_shape _ _ Hm)|]. apply copies_fwd.
    destruct (mg_fwd _ _ Hm x Hx Hf) as (y & Hy & [Hs Ht] & Hyf & Hd). by exists y.
  - intros (y & Hy & <- & <- & Hf & <-)%copies_fwd Hne.
    destruct (mg_kept_fwd _ _ Hm y Hy Hne Hf) as (x & Hx & [Hs Ht] & Hxf & Hd).
    eexists. split; [exact Hd|]. by exists x.
Qed.

Lemma merged_bwd input out u v w :
  merge_of (copies input) out ->
  (lbwd out u v w -> u <> v /\ input_arcs input v u w) /\
  (input_arcs input v u w -> u <> v -> exists w', (w' <= w)%N /\ lbwd out u v w').
Proof using Type.
  intros Hm. split.
  - intros (x & Hx & <- & <- & Hf & <-). split; [by apply (mg_shape _ _ Hm)|]. apply copies_fwd.
    destruct (mg_bwd _ _ Hm x Hx Hf) as (y & Hy & [Hs Ht] & Hyf & Hd).
    destruct (copies_mirror input y Hy) as (y' & Hy' & Hs' & Ht' & Hd' & Hf' & _). exists y'. split_and!; congruence.
  - intros (y & Hy & Hys & Hyt & Hf & Hd)%copies_fwd Hne.
    destruct (copies_mirror input y Hy) as (y' & Hy' & Hs' & Ht' & Hd' & _ & Hb').
    destruct (mg_kept_bwd _ _ Hm y' Hy') as (x & Hx & [Hs Ht] & Hxf & Hxd); [congruence|congruence|].
    exists (ce_distance (ie_data x)). split; [lia|]. exists x. split_and!; congruence.
Qed.

(** The ends and weights of the merged edges. *)
Lemma merged_ok nodes input out x :
  input_ok nodes input -> merge_of (copies input) out -> x ∈ out ->
  (ie_source x < nodes)%N /\ (ie_target x < nodes)%N /\
  ie_source x <> ie_target x /\ (0 < ce_distance (ie_data x) < max_weight)%N.
Proof using Type.
  intros Hin Hm Hx. destruct (mg_shape _ _ Hm x Hx) as [Hne Hfb].
  assert (exists y, y ∈ copies input /\ same_ends y x /\ ce_distance (ie_data y) = ce_distance (ie_data x)) as (y & Hy & [Hs Ht] & <-).
  { apply orb_true_iff in Hfb as [Hf|Hb]; [destruct (mg_fwd _ _ Hm x Hx Hf) as (y & ? & ? & _ & ?)|
      destruct (mg_bwd _ _ Hm x Hx Hb) as (y & ? & ? & _ & ?)]; by exists y. }
  destruct (copies_ok nodes input y Hin Hy) as (? & ? & ?). rewrite <- Hs, <- Ht in *. done.
Qed.

(** An edge and its counterpart at the other end. *)
Lemma merged_sides input out x :
  merge_of (copies input) out -> x ∈ out ->
  exists x', x' ∈ out /\ ie_source x' = ie_target x /\ ie_target x' = ie_source x.
Proof using Type.
  intros Hm Hx. destruct (mg_shape _ _ Hm x Hx) as [Hne Hfb]. set (d := ce_distance (ie_data x)).
  apply orb_true_iff in Hfb as [Hf|Hb].
  - destruct (merged_fwd input out (ie_source x) (ie_target x) d Hm) as [[_ Ha] _]; [by exists x|].
    destruct (proj2 (merged_bwd input out (ie_target x) (ie_source x) d Hm) Ha) as (w' & _ & x' & ? & ? & ? & _);
      [congruence|]. by exists x'.
  - destruct (merged_bwd input out (ie_source x) (ie_target x) d Hm) as [[_ Ha] _]; [by exists x|].
    destruct (proj2 (merged_fwd input out (ie_target x) (ie_source x) d Hm) Ha) as (w' & _ & x' & ? & ? & ? & _);
      [congruence|]. by exists x'.
Qed.

(** The graph whose lists are the merged edges. *)
Definition lists (out : list cedge) (g : ContractorGraph) : Prop :=
  forall u e, e ∈ adj g u <-> exists x, x ∈ out /\ ie_source x = u /\ e = to_edge x.

Lemma lists_fwd out g u v w : lists out g -> fwd g u v w <-> lfwd out u v w.
Proof using Type.
  intros Hl. unfold fwd, lfwd. setoid_rewrite (Hl u). split.
  - intros (e & (x & Hx & Hs & ->) & Hrest). by exists x.
  - intros (x & Hx & Hs & Hrest). exists (to_edge x). split; [by exists x|done].
Qed.

Lemma lists_bwd out g u v w : lists out g -> bwd g u v w <-> lbwd out u v w.
Proof using Type.
  intros Hl. unfold bwd, lbwd. setoid_rewrite (Hl u). split.
  - intros (e & (x & Hx & Hs & ->) & Hrest). by exists x.
  - intros (x & Hx & Hs & Hrest). exists (to_edge x). split; [by exists x|done].
Qed.

Lemma merged_net nodes input out g :
  input_ok nodes input -> merge_of (copies input) out -> lists out g -> graph_wf g ->
  (nodes <= vsize (node_list g))%N -> net_ok (list_to_set (irange 0 nodes)) g.
Proof using Type.
  intros Hin Hm Hl Hwf Hsz. destruct Hin as (Hall & Hcount & Hnodes) eqn:E. clear E.
  assert (forall u, u ∈ (list_to_set (irange 0 nodes) : gset N) <-> (u < nodes)%N) as HR.
  { intros u. rewrite elem_of_list_to_set, elem_of_irange by lia. lia. }
  constructor; [constructor; [done| |]| | |].
  - intros u Hu%HR. lia.
  - intros u e _ (x & Hx & <- & ->)%Hl. destruct (merged_ok nodes input out x) as (? & ? & ? & ?); [done..|].
    rewrite HR. done.
  - intros u e _ (x & Hx & <- & ->)%Hl. destruct (merged_sides input out x Hm Hx) as (x' & Hx' & Hs' & Ht').
    exists (to_edge x'). split; [|done]. apply Hl. by exists x'.
  - intros u v w _ Hf. rewrite (lists_fwd out g) in Hf by done. setoid_rewrite (lists_bwd out g); [|done].
    apply (merged_fwd input) in Hf as [Hne Ha]; [|done]. apply (merged_bwd input); done.
  - intros u v w _ Hf. rewrite (lists_bwd out g) in Hf by done. setoid_rewrite (lists_fwd out g); [|done].
    apply (merged_bwd input) in Hf as [Hne Ha]; [|done]. apply (merged_fwd input); done.
Qed.

Lemma make_ok nodes input :
  input_ok nodes input ->
  exists g, Contractor_make sort_edges junk nodes input = Some g /\
    net_ok (list_to_set (irange 0 nodes)) g /\ edges_ok nodes g /\
    (forall u v w, fwd g u v w -> u <> v /\ input_arcs input u v w) /\
    (forall u v w, input_arcs input u v w -> u <> v -> exists w', (w' <= w)%N /\ fwd g u v w').
Proof.
  intros Hin. destruct (merge_input_ok nodes input Hin) as (out & Hmerge & Hm & Hsorted).
  pose proof (merged_ok nodes input out) as Hout. specialize (fun x => Hout x Hin Hm) as Hout'.
  pose proof Hin as (_ & Hsz & Hnodes). unfold Contractor_make. rewrite Hmerge. cbn [mbind option_bind].
  destruct (from_ok junk nodes out Hsorted) as (g & Hg & Hwf & Hn & _ & Hnl & _ & Hadj & Htail).
  { apply Forall_forall. intros x Hx. destruct (Hout' x Hx) as (? & ? & _). split; [done|]. unfold UINT_MAX. lia. }
  { pose proof (mg_size _ _ Hm) as Hms. rewrite vsize_copies in Hms. lia. } { lia. }
  assert (lists out g) as Hl.
  { intros u e. destruct (decide (u < nodes)%N) as [Hu|Hu].
    - rewrite (Hadj u Hu), list_elem_of_fmap. setoid_rewrite list_elem_of_filter. naive_solver.
    - rewrite (Htail u) by lia. split; [by intros ?%elem_of_nil|]. intros (x & Hx & <- & _). by destruct (Hout' x Hx) as (? & _). }
  exists g. split; [done|]. split; [|split; [|split]].
  - apply (merged_net nodes input out); try done. lia.
  - constructor; [done|lia| | |done|]; intros u e (x & Hx & _ & ->)%Hl; by apply Hout'.
  - intros u v w Hf. rewrite (lists_fwd out g) in Hf by done. by apply (merged_fwd input out).
  - intros u v w Ha Hne. setoid_rewrite (lists_fwd out g); [|done]. by apply (merged_fwd input).
Qed.
End make.
