(* ===== verification/ContractorTheorems.v ===== *)
(** * Contractor/Contractor.h: what the contractor guarantees

    The theorems on the contractor, from the input edges to the edges it hands
    to the query engine, each with an application to a small road network. *)

From Stdlib Require Import Floats.SpecFloat.
From S2P Require Import Prelude Types Paths Edges Storage BinaryHeap DynamicGraph Float32 Contractor WitnessSearch.
From S2P Require Import Independence ContractionRound Hierarchy Rounds Renumbering Flush ContractorRun ContractorInput.

(** ** Deciding the bounds of a run *)

#[export] Instance is_finite_dec f : Decision (is_finite f).
Proof. destruct f; simpl; apply _. Defined.

Lemma forallb_elem {A} (f : A -> bool) (l : list A) x : forallb f l = true -> x ∈ l -> f x = true.
Proof. intros Hl Hx. rewrite forallb_forall in Hl. apply Hl. by apply list_elem_of_In. Qed.

Section room.
  Context {St : Type} `{IndexStorage St}.
  Context (D : N).

Abbreviation state := (contractor (St := St)).

Definition node_room (c : state) (u : N) : bool :=
  match vget (c_priorities c) u with
  | Some p => bool_decide (is_finite p)
  | None => false
  end &&
  (vsize (adj (c_graph c) u) <=? D)%N &&
  forallb (fun e1 => forallb (fun e2 =>
    (ce_distance (e_data e1) + ce_distance (e_data e2) <? max_weight)%N) (adj (c_graph c) u)) (adj (c_graph c) u).

Definition round_roomb (c : state) : bool :=
  let n := vsize (c_remaining c) in
  let M := round_shortcuts D n in
  (n <? 4294967296)%N && forallb (node_room c) (rn_id <$> c_remaining c) &&
  (vsize (edge_list (c_graph c)) + M * (2 * (D + M) + 3) <? 2147483648)%N &&
  (2 * D * D + M <? 4294967295)%N.

Lemma round_roomb_sound c : round_roomb c = true -> round_room D c.
Proof.
  unfold round_roomb. rewrite !andb_true_iff, !N.ltb_lt. intros [[[Hn Hall] Hs1] Hs2].
  assert (forall u, u ∈ remaining_ids c -> node_room c u = true) as Hu.
  { intros u Hu%elem_of_list_to_set. by apply (forallb_elem _ _ _ Hall). }
  constructor; try done.
  - intros u Hin. specialize (Hu u Hin). unfold node_room in Hu. destruct (vget (c_priorities c) u) as [p|]; [|done].
    rewrite !andb_true_iff in Hu. destruct Hu as [[Hp%bool_decide_eq_true _] _]. eauto.
  - intros u Hin. specialize (Hu u Hin). unfold node_room in Hu. rewrite !andb_true_iff, N.leb_le in Hu. tauto.
  - intros u e1 e2 Hin H1 H2. specialize (Hu u Hin). unfold node_room in Hu. apply andb_true_iff in Hu as [_ Hu].
    apply N.ltb_lt. exact (forallb_elem _ _ _ (forallb_elem _ _ _ Hu H1) H2).
Qed.

  Context (nn : N).

Definition flush_roomb (c : state) : bool :=
  forallb (fun x => (x <? vsize (c_priorities c)) && (vsize (adj (c_graph c) x) <=? D))%N (rn_id <$> c_remaining c) &&
  (D * nn <? 2147483648)%N.

Lemma flush_roomb_sound c : flush_roomb c = true -> flush_room nn D c.
Proof.
  unfold flush_roomb. rewrite andb_true_iff, N.ltb_lt. intros [Hall Hs].
  constructor; [| |done]; intros x Hx%elem_of_list_to_set; pose proof (forallb_elem _ _ _ Hall Hx) as Hb;
    cbn beta in Hb; rewrite andb_true_iff, N.ltb_lt, N.leb_le in Hb; tauto.
Qed.

  Context (make_storage : N -> St) (fast_hash : XORFastHash) (schedule : N -> N -> N -> list (N * N)).
  Context (sort_edges : list ContractorEdge -> list ContractorEdge) (junk : N -> Edge ContractorEdgeData).

Fixpoint run_roomb (fuel : nat) (k : N) (c : state) : bool :=
  if ((2 <? nn) && (c_contracted c <? nn))%N then
    match fuel with
    | O => true
    | S fuel' =>
        let due := negb (c_flushed c) && flush_due (c_contracted c) nn in
        (negb due || flush_roomb c) &&
        match (if due then flush sort_edges junk nn c else Some c) with
        | Some c1 => round_roomb c1 &&
            match round sort_edges junk make_storage fast_hash schedule k c1 with
            | Some c2 => run_roomb fuel' (k + 1) c2
            | None => true
            end
        | None => true
        end
    end
  else true.

Lemma run_roomb_sound fuel : forall k c,
  run_roomb fuel k c = true -> run_room make_storage fast_hash schedule sort_edges junk nn D fuel k c.
Proof.
  induction fuel as [|fuel IH]; intros k c; cbn [run_roomb run_room]; destruct (_ && _); try done.
  rewrite andb_true_iff. intros [Hf Hr]. split.
  - intros Hdue. rewrite Hdue in Hf. by apply flush_roomb_sound.
  - intros c1 Hc1. rewrite Hc1 in Hr. apply andb_true_iff in Hr as [Hroom Hr]. split; [by apply round_roomb_sound|].
    intros c2 Hc2. rewrite Hc2 in Hr. by apply IH.
Qed.
End room.

(** ** A road network

    A ring of four roads, one of them one-way, and a chord. *)

Definition by_source (a b : ContractorEdge) : Prop := (ie_source a <= ie_source b)%N.

#[export] Instance by_source_dec : RelDecision by_source := fun a b => N.le_dec (ie_source a) (ie_source b).

#[export] Instance by_source_total : Total by_source.
Proof. intros a b. unfold by_source. lia. Qed.

#[export] Instance by_source_trans : Transitive by_source.
Proof. intros a b c. unfold by_source. lia. Qed.

Definition sample_sort : list ContractorEdge -> list ContractorEdge := merge_sort by_source.
Definition sample_junk (_ : N) : Edge ContractorEdgeData := MkEdge 0 ContractorEdgeData_default.
Definition sample_schedule (_ a b : N) : list (N * N) := (fun x => (x mod 2, x))%N <$> irange a b.
(** All hashes agree, so that ties are broken by the ids. *)
Definition sample_hash : XORFastHash :=
  MkXORFastHash (replicate (N.to_nat 131072) 0%N) (replicate (N.to_nat 131072) 0%N).
Definition sample_storage (_ : N) : map_storage := UnorderedMapStorage_make.
Definition sample_nodes : gset N := list_to_set (irange 0 5).

Definition sample_input : list EdgeBasedEdge :=
  [EdgeBasedEdge_make 0 1 7 3 true true; EdgeBasedEdge_make 1 2 8 4 true false;
   EdgeBasedEdge_make 2 3 9 2 true true; EdgeBasedEdge_make 3 0 10 2 true true;
   EdgeBasedEdge_make 3 4 11 6 true true; EdgeBasedEdge_make 4 4 12 1 true true].

Definition sample_graph : option ContractorGraph := Contractor_make sample_sort sample_junk 5 sample_input.

Lemma sample_sort_perm l : sample_sort l ≡ₚ l.
Proof. apply merge_sort_Permutation. Qed.

Lemma sample_sort_sorted l : StronglySorted (fun a b => (ie_source a <= ie_source b)%N) (sample_sort l).
Proof.
  apply (StronglySorted_merge_sort by_source).
Qed.

Lemma sample_schedule_all (k a b : N) : (sample_schedule k a b).*2 ≡ₚ irange a b.
Proof. unfold sample_schedule. rewrite <- list_fmap_compose. change (snd ∘ _) with (@id N). by rewrite list_fmap_id. Qed.

Lemma sample_hash_wf : xor_hash_wf sample_hash.
Proof. unfold xor_hash_wf, sample_hash, vsize. cbn [xf_table1 xf_table2]. rewrite length_replicate. lia. Qed.

Lemma sample_storage_ok c : storage_ok sample_storage sample_nodes c.
Proof. intros nodes. by exists ∅. Qed.

Lemma sample_input_ok : input_ok 5 sample_input.
Proof. split; [|done]. repeat (constructor; [by split_and!|]). constructor. Qed.

Lemma sample_nodes_all x : (x < 5)%N -> x ∈ sample_nodes.
Proof. intros Hx. apply elem_of_list_to_set, elem_of_irange; lia. Qed.

(** ** The contractor *)

(** The distances of the input are the distances of the contractor's first graph. *)
Lemma input_distances nodes input g :
  input_ok nodes input ->
  (forall u v w, fwd g u v w -> u <> v /\ input_arcs input u v w) ->
  (forall u v w, input_arcs input u v w -> u <> v -> exists w', (w' <= w)%N /\ fwd g u v w') ->
  let E0 := live_arcs (list_to_set (irange 0 nodes)) g in
  (forall s t l, path (input_arcs input) s t l -> within E0 s t l) /\
  (forall s t l, path E0 s t l -> within (input_arcs input) s t l).
Proof.
  intros (Hends & _ & Hn) Hf Hi E0. rewrite Forall_forall in Hends. split; intros s t l; apply path_subst; intros a b w.
  - intros Ha. destruct (decide (a = b)) as [->|Hne]; [by apply within_refl|].
    destruct (Hi a b w Ha Hne) as (w' & Hw' & Hfw). eapply within_arc; [|exact Hw']. split; [|done].
    destruct Ha as (e & He & _ & Hd). destruct (Hends e He) as (? & ? & _).
    apply elem_of_list_to_set, elem_of_irange; [lia|]. destruct Hd as [(? & ? & _)|(? & ? & _)]; subst; lia.
  - intros [_ Hfw]. eapply within_arc; [|reflexivity]. by apply Hf.
Qed.

Section guarantees.
  Context {St : Type} `{IndexStorageLaws St}.
  Context (make_storage : N -> St) (fast_hash : XORFastHash) (schedule : N -> N -> N -> list (N * N)).
  Context (sort_edges : list ContractorEdge -> list ContractorEdge) (junk : N -> Edge ContractorEdgeData).
  Context (X : gset N).
  Hypothesis hash_wf : xor_hash_wf fast_hash.
  Hypothesis X_small : (N.of_nat (size X) < 2147483647)%N.
  Hypothesis schedule_all : forall k a b, (schedule k a b).*2 ≡ₚ irange a b.
  Hypothesis sort_perm : forall l, sort_edges l ≡ₚ l.
  Hypothesis sort_sorted : forall l, StronglySorted (fun a b => (ie_source a <= ie_source b)%N) (sort_edges l).
  #[local] Set Default Proof Using "All".

(** The edges of the contractor and the distances they represent. *)
Lemma contractor_edges nodes input D fuel :
  input_ok nodes input -> (forall x, (x < nodes)%N -> x ∈ X) ->
  storage_ok make_storage X (N.of_nat fuel * round_clears D nodes + D * nodes + 1) ->
  exists g, Contractor_make sort_edges junk nodes input = Some g /\ forall c,
    (forall u, (u < nodes)%N -> (vsize (adj g u) <= D)%N) ->
    (forall c0, run_init make_storage schedule g = Some c0 ->
       run_room make_storage fast_hash schedule sort_edges junk nodes D fuel 0 c0) ->
    Run sort_edges junk make_storage fast_hash schedule fuel g = Some c ->
    exists es, GetEdges c [] = Some es /\ (forall q, q ∈ es -> edge_in nodes q) /\ forall s t,
      (forall l, path (input_arcs input) s t l ->
         exists m l1 l2, path (query_fwd es) s m l1 /\ path (query_bwd es) t m l2 /\ (l1 + l2 <= l)%N) /\
      (forall m l1 l2, path (query_fwd es) s m l1 -> path (query_bwd es) t m l2 ->
         within (input_arcs input) s t (l1 + l2)).
Proof.
  intros Hin HX Hst. pose proof Hin as (_ & _ & Hn).
  destruct (make_ok sort_edges junk sort_perm sort_sorted nodes input Hin) as (g & Hg & Hnet & Hed & Hf & Hi).
  destruct (input_distances nodes input g Hin Hf Hi) as [Hto Hfrom].
  exists g. split; [done|]. intros c HD Hroom Hrun. unfold Run in Hrun.
  destruct (run_init make_storage schedule g) as [c0|] eqn:Hc0; [|done]. cbn [mbind option_bind] in Hrun.
  unfold GetNumberOfNodes in Hrun. rewrite (eo_count _ _ Hed) in Hrun.
  destruct (run_init_inv make_storage fast_hash schedule sort_edges junk X nodes D hash_wf X_small HX Hn schedule_all
    sort_perm sort_sorted g c0 (N.of_nat fuel * round_clears D nodes) Hnet Hed HD Hst Hc0) as [Hinv Hth].
  assert (run_inv (live_arcs (list_to_set (irange 0 nodes)) g) nodes c) as Hinv'.
  { eapply (run_loop_inv make_storage fast_hash schedule sort_edges junk X nodes D) with (b := 0%N); try done.
    - by apply Hroom.
    - intros n. destruct (Hst n) as [m Hm]. exists m. eapply st_weaken; [|exact Hm]. lia. }
  destruct (given_distances _ nodes c Hn Hinv') as (es & Hes & Hin' & Hd). exists es. split; [done|]. split; [done|]. intros s t. split.
  - intros l (l' & Hl' & Hp)%Hto. destruct (proj1 (Hd s t) l' Hp) as (m & l1 & l2 & H1 & H2 & Hle).
    exists m, l1, l2. split_and!; [done|done|lia].
  - intros m l1 l2 H1 H2. destruct (proj2 (Hd s t) m l1 l2 H1 H2) as (l & Hl & Hp).
    by apply (within_mono _ _ _ l), Hfrom.
Qed.



(** C9: contracting a node cannot fail. For every path of two arcs over the
    node it adds a shortcut, as an edge of its end and an edge of its start,
    unless the witness search found a path that is not longer and avoids
    the node; and every shortcut it adds is such a path. *)
Theorem contraction_covers_paths R g node c (s : contract_state St) :
  let deg := vsize (adj g node) in
  live_ok R g -> R ⊆ X -> node ∈ R -> heap_wf X (c + deg) (cs_heap s) ->
  (vsize (cs_inserted s) + 2 * deg * deg < 4294967295)%N ->
  exists s' L, ContractNode false g node s = Some s' /\ cs_inserted s' = cs_inserted s ++ L /\
    heap_wf X c (cs_heap s') /\
    (forall a b w1 w2, bwd g node a w1 -> fwd g node b w2 ->
       (lfwd L a b (w1 + w2)%N /\ lbwd L b a (w1 + w2)%N) \/ within (avoid node (fwd g)) a b (w1 + w2)%N) /\
    (forall a b w, lfwd L a b w \/ lbwd L b a w ->
       a <> b /\ exists w1 w2, bwd g node a w1 /\ fwd g node b w2 /\ w = (w1 + w2)%N).
Proof using Type X_small.
  intros deg Hlive HX Hnode Hwf Hroom.
  destruct (contract_node_ok X R g Hlive HX X_small node c s Hwf Hnode Hroom) as (s' & L & Hrun & Hwf' & Hins & Hns & _).
  exists s', L. split_and!; try done; [by apply (ns_cover _ _ _ Hns)|].
  intros a b w [Hf|Hb]; [by apply (ns_fwd _ _ _ Hns)|by apply (ns_bwd _ _ _ Hns)].
Qed.

(** C12: [IsNodeIndependent] is true of a node exactly when no node at most two
    hops away beats it, by a smaller priority or, if the priorities are close,
    by the hash; and no two nodes that see each other are independent at once. *)
Theorem independent_nodes R g priorities :
  live_ok R g -> (forall u, u ∈ R -> exists p, vget priorities u = Some p /\ is_finite p) ->
  (forall n, n ∈ R -> exists b, IsNodeIndependent fast_hash g priorities n = Some b /\
     (b = true <-> forall t, near g n t -> ~ beats fast_hash priorities t n)) /\
  (forall m n, m ∈ R -> n ∈ R -> m <> n -> near g m n -> near g n m ->
     IsNodeIndependent fast_hash g priorities m = Some true ->
     IsNodeIndependent fast_hash g priorities n = Some true -> False).
Proof using Type hash_wf.
  intros Hlive Hp. assert (forall u e, u ∈ R -> e ∈ adj g u -> e_target e ∈ R) as Hclosed.
  { intros u e Hu He. by apply (lo_edges R g Hlive u e). }
  split; [intros n|intros m n].
  - apply (is_node_independent_ok fast_hash g priorities R hash_wf (lo_wf R g Hlive) (lo_nodes R g Hlive) Hclosed Hp).
  - apply (independent_apart fast_hash g priorities R hash_wf (lo_wf R g Hlive) (lo_nodes R g Hlive) Hclosed Hp).
Qed.

(** C11: the flush, which moves the edges of the contracted nodes out of the
    graph and renumbers the remaining nodes, cannot fail, and seen through the
    map back to the original ids it changes no arc: neither the arcs between
    remaining nodes nor the upward arcs of the contracted ones. *)
Theorem flush_preserves_arcs nn D (c : contractor (St := St)) :
  net_ok (remaining_ids c) (c_graph c) -> edges_ok nn (c_graph c) -> (nn < 2147483648)%N ->
  c_orig_map c = [] -> NoDup (rn_id <$> c_remaining c) -> (forall x, x ∈ remaining_ids c -> (x < nn)%N) ->
  c_remaining c <> [] -> flush_room nn D c ->
  exists c1, flush sort_edges junk nn c = Some c1 /\ c_flushed c1 = true /\
    number_of_nodes (c_graph c1) = vsize (c_remaining c) /\
    net_ok (remaining_ids c1) (c_graph c1) /\ NoDup (rn_id <$> c_remaining c1) /\
    (forall u v w, live_of c1 u v w <-> live_of c u v w) /\
    (forall u v w, up_of c1 u v w <-> up_of c u v w) /\ (forall u v w, down_of c1 u v w <-> down_of c u v w).
Proof using Type sort_perm sort_sorted.
  intros Hnet Hed Hnn Hmap Hnd Hlt Hne Hroom.
  destruct (flush_ok sort_edges junk sort_perm sort_sorted nn D c Hnet Hed Hnn Hmap Hnd Hlt Hne Hroom)
    as (c1 & Hrun & Hnet1 & Hed1 & _ & _ & _ & Hnd1 & _ & _ & _ & _ & Hfl & Hl & Hu & Hd & _).
  exists c1. split_and!; try done. apply (eo_count _ _ Hed1).
Qed.

(** C13: the constructor merges the parallel edges of the input into a graph
    whose forward arcs are arcs of the input, and for every input arc
    between two different nodes there is one that is not longer. *)
Theorem constructor_keeps_lightest nodes input :
  input_ok nodes input ->
  exists g, Contractor_make sort_edges junk nodes input = Some g /\ number_of_nodes g = nodes /\
    net_ok (list_to_set (irange 0 nodes)) g /\
    (forall u v w, fwd g u v w -> u <> v /\ input_arcs input u v w) /\
    (forall u v w, input_arcs input u v w -> u <> v -> exists w', (w' <= w)%N /\ fwd g u v w').
Proof using Type sort_perm sort_sorted.
  intros Hin. destruct (make_ok sort_edges junk sort_perm sort_sorted nodes input Hin) as (g & Hg & Hnet & Hed & Hf & Hi).
  exists g. split_and!; try done. apply (eo_count _ _ Hed).
Qed.
End guarantees.

(** *** The road network, contracted *)

Lemma sample_run : exists g c0 c, sample_graph = Some g /\ run_init sample_storage sample_schedule g = Some c0 /\
  run_roomb 6 5 sample_storage sample_hash sample_schedule sample_sort sample_junk 5 0 c0 = true /\
  Run sample_sort sample_junk sample_storage sample_hash sample_schedule 5 g = Some c /\
  forallb (fun u => vsize (adj g u) <=? 6)%N (irange 0 5) = true.
Proof.
  assert (match sample_graph with
    | Some g => match run_init sample_storage sample_schedule g with
      | Some c0 =>
          run_roomb 6 5 sample_storage sample_hash sample_schedule sample_sort sample_junk 5 0 c0 &&
          match Run sample_sort sample_junk sample_storage sample_hash sample_schedule 5 g with
          | Some _ => true | None => false end &&
          forallb (fun u => vsize (adj g u) <=? 6)%N (irange 0 5)
      | None => false end
    | None => false end = true) as Hok by (vm_compute; reflexivity).
  destruct sample_graph as [g|]; [|done]. destruct (run_init _ _ g) as [c0|] eqn:Hc0; [|done].
  destruct (Run _ _ _ _ _ _ g) as [c|] eqn:Hc; [|by rewrite andb_false_r in Hok].
  rewrite !andb_true_iff in Hok. exists g, c0, c. tauto.
Qed.


(** *** The start of the contraction *)

#[local] Opaque sample_graph Contractor_make run_init round Run flush.

Lemma sample_start : exists g c0, sample_graph = Some g /\ run_init sample_storage sample_schedule g = Some c0 /\
  run_inv (live_arcs (list_to_set (irange 0 5)) g) 5 c0 /\ round_room 6 c0 /\
  threads_ready sample_storage sample_nodes 1000 (c_threads c0) /\ c_flushed c0 = false /\ c_graph c0 = g /\
  remaining_ids c0 = list_to_set (irange 0 5).
Proof.
  destruct sample_run as (g & c0 & c & Hg & Hc0 & Hroom & _ & Hdeg).
  destruct (make_ok sample_sort sample_junk sample_sort_perm sample_sort_sorted 5 sample_input sample_input_ok)
    as (g' & Hg' & Hnet & Hed & _).
  assert (g' = g) as -> by (apply (inj Some); rewrite <- Hg, <- Hg'; reflexivity).
  assert (forall u, (u < 5)%N -> (vsize (adj g u) <= 6)%N) as Hdeg'.
  { intros u Hu. apply N.leb_le. apply (forallb_elem _ _ u Hdeg). apply elem_of_irange; lia. }
  exists g, c0. split; [exact Hg|]. split; [exact Hc0|].
  destruct (run_init_inv sample_storage sample_hash sample_schedule sample_sort sample_junk sample_nodes 5 6 sample_hash_wf
    ltac:(done) sample_nodes_all ltac:(done) sample_schedule_all sample_sort_perm sample_sort_sorted g c0 1000
    Hnet Hed Hdeg' (sample_storage_ok _) Hc0) as [Hinv Hth].
  destruct (run_init_ok sample_storage sample_hash sample_schedule sample_sort sample_junk sample_nodes 5 6 sample_hash_wf
    ltac:(done) sample_nodes_all ltac:(done) sample_schedule_all sample_sort_perm sample_sort_sorted g c0 1000
    (eo_count _ _ Hed) (no_live _ _ Hnet) Hdeg' (sample_storage_ok _) Hc0) as (_ & Hgr & Hids & Hcon & Hfl & _).
  split; [exact Hinv|]. split; [|split; [exact Hth|]]; [|split; [exact Hfl|]; split; [exact Hgr|]; unfold remaining_ids; rewrite Hids; reflexivity]. apply run_roomb_sound in Hroom. cbn [run_room] in Hroom.
  rewrite Hcon, Hfl in Hroom. destruct Hroom as [_ Hroom]. exact (proj1 (Hroom c0 eq_refl)).
Qed.

Lemma sample_ids (c : contractor (St := map_storage)) E0 : run_inv E0 5 c -> remaining_ids c ⊆ sample_nodes.
Proof.
  intros Hinv x Hx. apply sample_nodes_all. pose proof (ri_bound _ _ c Hinv x Hx). pose proof (ri_count _ _ c Hinv). lia.
Qed.


(** Node 0 of the ring, contracted with an empty heap. *)
Lemma contraction_covers_paths_witness :
  exists g s', sample_graph = Some g /\
    ContractNode false g 0 (MkContractState (BinaryHeap_make (sample_storage 5)) [] ContractionStats_default) = Some s' /\
    forall a b w1 w2, bwd g 0%N a w1 -> fwd g 0%N b w2 ->
      (lfwd (cs_inserted s') a b (w1 + w2)%N /\ lbwd (cs_inserted s') b a (w1 + w2)%N) \/
      within (avoid 0%N (fwd g)) a b (w1 + w2)%N.
Proof.
  destruct sample_start as (g & c0 & Hg & _ & Hinv & Hroom & _ & _ & Hgr & HR).
  assert (0%N ∈ remaining_ids c0) as H0 by (rewrite HR; apply elem_of_list_to_set, elem_of_irange; lia).
  pose proof (rr_degree _ _ Hroom 0%N H0) as Hdeg. pose proof (no_live _ _ (ri_net _ _ _ Hinv)) as Hlive.
  rewrite Hgr in Hdeg, Hlive.
  destruct (contraction_covers_paths (St := map_storage) sample_nodes ltac:(done) (remaining_ids c0) g 0 0
    (MkContractState (BinaryHeap_make (sample_storage 5)) [] ContractionStats_default) Hlive (sample_ids _ _ Hinv) H0)
    as (s' & L & Hrun & Hins & _ & Hcov & _).
  - apply (clear_wf sample_nodes _ _ ∅). done.
  - cbn [cs_inserted]. change (vsize []) with 0%N. nia.
  - exists g, s'. split; [exact Hg|]. split; [exact Hrun|]. rewrite Hins. exact Hcov.
Defined.

(** The independent nodes of the first round. *)
Lemma independent_nodes_witness :
  exists g c0, sample_graph = Some g /\ remaining_ids c0 = list_to_set (irange 0 5) /\
  forall n, n ∈ remaining_ids (St := map_storage) c0 -> exists b,
    IsNodeIndependent sample_hash g (c_priorities c0) n = Some b /\
    (b = true <-> forall t, near g n t -> ~ beats sample_hash (c_priorities c0) t n).
Proof.
  destruct sample_start as (g & c0 & Hg & _ & Hinv & Hroom & _ & _ & Hgr & HR).
  pose proof (no_live _ _ (ri_net _ _ _ Hinv)) as Hlive. rewrite Hgr in Hlive.
  exists g, c0. split; [exact Hg|]. split; [exact HR|].
  apply (independent_nodes sample_hash sample_hash_wf (remaining_ids c0) g (c_priorities c0)
    Hlive (rr_priority _ _ Hroom)).
Defined.

(** A flush before the first round only rebuilds the graph. *)
Lemma flush_preserves_arcs_witness :
  exists g c0 c1, sample_graph = Some g /\ c_graph c0 = g /\ c_flushed c0 = false /\
    flush (St := map_storage) sample_sort sample_junk 5 c0 = Some c1 /\
    forall u v w, live_of c1 u v w <-> live_of c0 u v w.
Proof.
  destruct sample_start as (g & c0 & Hg & _ & Hinv & Hroom & _ & Hfl & Hgr & HR).
  destruct (ri_flag _ _ _ Hinv Hfl) as [Hmap Hn]. pose proof (ri_bound _ _ _ Hinv) as Hb. rewrite Hn in Hb.
  pose proof (ri_edges _ _ _ Hinv) as Hed. rewrite Hn in Hed.
  destruct (flush_preserves_arcs sample_sort sample_junk sample_sort_perm sample_sort_sorted 5 6 c0
    (ri_net _ _ _ Hinv) Hed ltac:(done) Hmap (ri_nodup _ _ _ Hinv) Hb) as (c1 & Hrun & _ & _ & _ & _ & Hl & _).
  - intros Hnil. assert (0%N ∈ remaining_ids c0) as H0 by (rewrite HR; apply elem_of_list_to_set, elem_of_irange; lia).
    unfold remaining_ids in H0. rewrite Hnil in H0. apply elem_of_list_to_set in H0. by apply elem_of_nil in H0.
  - constructor; [|apply (rr_degree _ _ Hroom)|done].
    intros x Hx. destruct (rr_priority _ _ Hroom x Hx) as (p & Hp & _). by apply vget_Some_lt in Hp.
  - exists g, c0, c1. split; [exact Hg|]. split; [exact Hgr|]. split; [exact Hfl|]. split; [exact Hrun|exact Hl].
Defined.

(** The graph of the ring of roads. *)
Lemma constructor_keeps_lightest_witness :
  exists g, sample_graph = Some g /\ number_of_nodes g = 5%N /\
    forall u v w, input_arcs sample_input u v w -> u <> v -> exists w', (w' <= w)%N /\ fwd g u v w'.
Proof.
  destruct (constructor_keeps_lightest sample_sort sample_junk sample_sort_perm sample_sort_sorted 5 sample_input sample_input_ok)
    as (g & Hg & Hn & _ & _ & Hi).
  exists g. split; [exact Hg|]. split; [exact Hn|exact Hi].
Defined.

(** ** A tie that is never broken *)

(** Two adjacent nodes are left, the third is contracted. Their priorities
    differ by less than [std::numeric_limits<float>::epsilon()]. *)
Definition tied_low : ContractionStats := MkContractionStats 10 2 35 4.
Definition tied_high : ContractionStats := MkContractionStats 7 2 56 4.

Definition tied_state (g : ContractorGraph) (p q : float) : contractor (St := map_storage) :=
  MkContractor g [MkRemainingNodeData 0 false; MkRemainingNodeData 1 false] [p; q; S754_zero false]
    [0; 0; 0]%Z [] 3 1 false [] [].

