(* ===== verification/StaticGraph.v ===== *)
(** * DataStructures/StaticGraph.h: the graph of the query engine

    An adjacency array without holes: the constructors, the accessors and the
    searches for an edge. The constructor from an edge list gives every node
    the edges with that source, and [FindEdge] finds a lightest edge. *)

From S2P Require Import Prelude Types DynamicGraph.

Section graph.
  Context {D : Type}.

(** ** Data and accessors *)

(** A node is the index of its first edge; there is one entry past the last
    node. The input edges and the entries of the edge array have the fields of
    those of the dynamic graph. *)
Record StaticGraph := MkStaticGraph {
  sg_number_of_nodes : N; sg_number_of_edges : N; node_array : list N; edge_array : list (Edge D) }.

Implicit Types (g : StaticGraph) (graph : list (InputEdge D)).

Definition sg_BeginEdges (n : N) g : option N := vget (node_array g) n.

Definition sg_EndEdges (n : N) g : option N := vget (node_array g) (uadd n 1).

Definition sg_GetAdjacentEdgeRange (node : N) g : option (list N) :=
  b ← sg_BeginEdges node g;
  e ← sg_EndEdges node g;
  Some (irange b e).

Definition sg_GetNumberOfNodes g : N := sg_number_of_nodes g.

Definition sg_GetNumberOfEdges g : N := sg_number_of_edges g.

Definition sg_GetOutDegree (n : N) g : option N :=
  e ← sg_EndEdges n g; b ← sg_BeginEdges n g; Some (usub e b).

Definition sg_GetTarget (e : N) g : option N := x ← vget (edge_array g) e; Some (e_target x).

Definition sg_GetEdgeData (e : N) g : option D := x ← vget (edge_array g) e; Some (e_data x).

(** ** Constructors *)

(** The first loop: the index of the first edge of each node. *)
Definition place_node graph (s : list N * N * N) (node : N) : option (list N * N * N) :=
  let '(nodes, edge, position) := s in
  edge' ← skip_source (S (length graph)) graph node edge;
  nodes' ← vset nodes node position;
  Some (nodes', edge', uadd position (usub edge' edge)).

(** [for (i = ...; i != e; ++i)]: copy the edges of one node. *)
Fixpoint copy_run (fuel : nat) graph (e i : N) (el : list (Edge D)) (edge : N) : option (list (Edge D) * N) :=
  if (i =? e)%N then Some (el, edge)
  else
    match fuel with
    | O => None
    | S fuel' =>
        x ← vget graph edge;
        el' ← vset el i (MkEdge (ie_target x) (ie_data x));
        copy_run fuel' graph e (uadd i 1) el' (uadd edge 1)
    end.

Definition copy_node graph (nodes : list N) (s : list (Edge D) * N) (node : N) : option (list (Edge D) * N) :=
  let '(el, edge) := s in
  e ← vget nodes (uadd node 1);
  i ← vget nodes node;
  copy_run (length graph) graph e i el edge.

(** [sort_edges] is [tbb::parallel_sort]; [junk] are the entries a resize makes. *)
Definition StaticGraph_from (sort_edges : list (InputEdge D) -> list (InputEdge D)) (junk : Edge D)
    (nodes : N) (input : list (InputEdge D)) : option StaticGraph :=
  let graph := sort_edges input in
  let number_of_edges := u32 (vsize graph) in
  '(node_array, edge, position) ←
    fold_m (place_node graph) (replicate (N.to_nat (uadd nodes 1)) 0%N, 0%N, 0%N) (irange 0 (uadd nodes 1));
  '(edge_array, _) ←
    fold_m (copy_node graph node_array) (replicate (N.to_nat position) junk, 0%N) (irange 0 nodes);
  Some (MkStaticGraph nodes number_of_edges node_array edge_array).

(** The constructor that takes over finished arrays. *)
Definition StaticGraph_swap (nodes : list N) (edges : list (Edge D)) : StaticGraph :=
  MkStaticGraph (usub (vsize nodes) 1) (u32 (vsize edges)) nodes edges.

(** ** Searching an edge *)

  (** The weight of an edge. *)
  Context (distance : D -> Z).

Definition find_step g (to : N) (s : N * Z) (edge : N) : option (N * Z) :=
  let '(smallest_edge, smallest_weight) := s in
  target ← sg_GetTarget edge g;
  data ← sg_GetEdgeData edge g;
  if (target =? to)%N && (distance data <? smallest_weight)%Z then Some (edge, distance data)
  else Some (smallest_edge, smallest_weight).

Definition sg_FindEdge (from to : N) g : option N :=
  r ← sg_GetAdjacentEdgeRange from g;
  '(smallest_edge, _) ← fold_m (find_step g to) (SPECIAL_EDGEID, INVALID_EDGE_WEIGHT) r;
  Some smallest_edge.

Definition sg_FindEdgeInEitherDirection (from to : N) g : option N :=
  tmp ← sg_FindEdge from to g;
  if negb (SPECIAL_NODEID =? tmp)%N then Some tmp else sg_FindEdge to from g.

(** The flag is changed only if the edge is found in the other direction. *)
Definition sg_FindEdgeIndicateIfReverse (from to : N) (result : bool) g : option (N * bool) :=
  current_iterator ← sg_FindEdge from to g;
  if (SPECIAL_NODEID =? current_iterator)%N then
    current_iterator' ← sg_FindEdge to from g;
    Some (current_iterator', if negb (SPECIAL_NODEID =? current_iterator')%N then true else result)
  else Some (current_iterator, result).
End graph.
Arguments StaticGraph : clear implicits.

(** ** Well-formed graphs *)

Section adjacency.
  Context {D : Type}.
  Implicit Types (g : StaticGraph D) (graph : list (InputEdge D)).

(** The edges of a node. *)
Definition sadj g (n : N) : list (Edge D) :=
  match vget (node_array g) n, vget (node_array g) (n + 1) with
  | Some b, Some e => take (N.to_nat (e - b)) (drop (N.to_nat b) (edge_array g))
  | _, _ => []
  end.

Record static_wf g : Prop := {
  sw_nodes : vsize (node_array g) = (sg_number_of_nodes g + 1)%N;
  sw_count : (sg_number_of_nodes g < 4294967295)%N;
  sw_edges : (vsize (edge_array g) < 2147483648)%N;
  sw_range n b e : vget (node_array g) n = Some b -> vget (node_array g) (n + 1) = Some e ->
    (b <= e <= vsize (edge_array g))%N;
}.

Lemma sadj_range g n : static_wf g -> (n < sg_number_of_nodes g)%N ->
  exists r, sg_GetAdjacentEdgeRange n g = Some r /\
    Forall2 (fun i e => vget (edge_array g) i = Some e /\ (i < vsize (edge_array g))%N) r (sadj g n).
Proof.
  intros Hwf Hn. pose proof (sw_nodes g Hwf) as Hsz. pose proof (sw_edges g Hwf) as Hb. pose proof (sw_count g Hwf) as Hc.
  unfold sg_GetAdjacentEdgeRange, sg_BeginEdges, sg_EndEdges, sadj. rewrite uadd_small by lia.
  destruct (vget_lt (node_array g) n) as [b Hgb]; [lia|]. destruct (vget_lt (node_array g) (n + 1)) as [e Hge]; [lia|].
  rewrite Hgb, Hge. cbn [mbind option_bind]. pose proof (sw_range g Hwf n b e Hgb Hge) as Hr.
  eexists. split; [done|]. unfold vsize in *. apply Forall2_same_length_lookup_2.
  - rewrite length_irange by lia. rewrite length_take, length_drop. lia.
  - intros k i x Hi Hx. rewrite irange_lookup in Hi by lia. case_decide; [|done]. injection Hi as <-.
    rewrite lookup_take_lt in Hx by lia. rewrite lookup_drop in Hx. rewrite vget_lookup.
    replace (N.to_nat (b + N.of_nat k)) with (N.to_nat b + k)%nat by lia. split; [done|]. lia.
Qed.

(** ** The constructor *)

Abbreviation source_sorted := (StronglySorted (fun a b : InputEdge D => (ie_source a <= ie_source b)%N)).

Lemma place_nodes_ok k na0 graph :
  source_sorted graph -> (vsize graph < 2147483648)%N -> (k < 4294967296)%N -> (k <= vsize na0)%N ->
  exists na, fold_m (place_node graph) (na0, 0%N, 0%N) (irange 0 k) = Some (na, pos k graph, pos k graph) /\
    vsize na = vsize na0 /\ forall m, (m < k)%N -> vget na m = Some (pos m graph).
Proof.
  intros Hs Hb Hn Hk.
  destruct (fold_m_ind (place_node graph) (fun pre s => exists na, s = (na, pos (vsize pre) graph, pos (vsize pre) graph) /\
      vsize na = vsize na0 /\ forall m, (m < vsize pre)%N -> vget na m = Some (pos m graph)) (irange 0 k)
      (na0, 0%N, 0%N)) as (s & Hrun & na & -> & Hsz & Hget).
  - eexists. rewrite pos_0. split; [done|]. split; [done|]. intros m Hm. unfold vsize in Hm. simpl in Hm. lia.
  - intros pre x post s Heq (na & -> & Hsz & Hget).
    assert (irange 0 k !! length pre = Some x) as Hx by (rewrite Heq; apply list_lookup_middle; done).
    rewrite irange_lookup in Hx by lia. case_decide; [|done]. injection Hx as Hx.
    assert (x = vsize pre) as -> by (unfold vsize; lia). clear Hx.
    unfold place_node. pose proof (pos_mono (vsize pre) (vsize pre + 1) graph ltac:(lia)) as Hm. pose proof (pos_le (vsize pre + 1) graph) as Hle.
    rewrite skip_source_ok; [|done|done|lia|unfold vsize in *; lia]. cbn [mbind option_bind].
    rewrite vset_lt by (unfold vsize in *; lia). cbn [mbind option_bind]. rewrite usub_small by lia.
    rewrite uadd_small by lia. replace (pos (vsize pre) graph + (pos (vsize pre + 1) graph - pos (vsize pre) graph))%N
      with (pos (vsize pre + 1) graph) by lia.
    eexists. split; [done|]. eexists. rewrite vsize_app. change (vsize [vsize pre]) with 1%N. split; [done|].
    rewrite vsize_insert. split; [done|]. intros m Hm'. rewrite vget_insert.
    case_decide as Hd; [by destruct Hd as [-> _]|]. apply Hget.
    destruct (decide (m = vsize pre)) as [->|]; [|lia]. exfalso. apply Hd. split; [done|]. unfold vsize in *. lia.
  - assert (vsize (irange 0 k) = k) as Hl by (unfold vsize; rewrite length_irange by lia; lia).
    rewrite Hl in Hrun, Hget. exists na. done.
Qed.

(** The positions of the sorted edges make a well-formed graph. *)
Lemma static_arrays_ok nodes m graph na :
  source_sorted graph -> (vsize graph < 2147483648)%N -> (nodes < 4294967295)%N ->
  vsize na = (nodes + 1)%N -> (forall n, (n <= nodes)%N -> vget na n = Some (pos n graph)) ->
  static_wf (MkStaticGraph nodes m na (to_edge <$> graph)) /\
  forall n, (n < nodes)%N -> sadj (MkStaticGraph nodes m na (to_edge <$> graph)) n = to_edge <$> filter (fun e => ie_source e = n) graph.
Proof.
  intros Hs Hb Hn Hna Hget. assert (vsize (to_edge <$> graph) = vsize graph) as Hv by (unfold vsize; by rewrite length_fmap). split.
  - constructor; cbn [node_array edge_array sg_number_of_nodes]; [done|lia|lia|].
    intros n b e Hgb Hge. pose proof (vget_Some_lt _ _ _ Hge) as Hlt. rewrite Hna in Hlt. rewrite Hget in Hgb, Hge by lia.
    injection Hgb as <-. injection Hge as <-. pose proof (pos_mono n (n + 1) graph ltac:(lia)). pose proof (pos_le (n + 1) graph). lia.
  - intros n Hlt. unfold sadj. cbn [node_array edge_array]. rewrite !Hget by lia.
    rewrite <- (slice_sorted n graph Hs). done.
Qed.

Lemma copy_run_ok fuel graph e : forall i el,
  (vsize graph < 2147483648)%N -> (i <= e <= vsize graph)%N -> (e <= vsize el)%N -> (N.to_nat (e - i) <= fuel)%nat ->
  exists el', copy_run fuel graph e i el i = Some (el', e) /\ vsize el' = vsize el /\
    forall j, vget el' j = if decide (i <= j < e)%N then to_edge <$> vget graph j else vget el j.
Proof.
  induction fuel as [|fuel IH]; intros i el Hb Hi He Hf; cbn [copy_run]; destruct (N.eqb_spec i e) as [->|Hne].
  - exists el. split_and!; [done|done|]. intros j. by rewrite decide_False by lia.
  - lia.
  - exists el. split_and!; [done|done|]. intros j. by rewrite decide_False by lia.
  - destruct (vget_lt graph i) as [x Hx]; [lia|]. rewrite Hx. cbn [mbind option_bind]. rewrite vset_lt by lia.
    cbn [mbind option_bind]. rewrite uadd_small by lia.
    destruct (IH (i + 1)%N (<[N.to_nat i := MkEdge (ie_target x) (ie_data x)]> el)) as (el' & -> & Hsz & Hget);
      [done|lia|rewrite vsize_insert; lia|lia|].
    exists el'. rewrite vsize_insert in Hsz. split_and!; [done|done|]. intros j. rewrite Hget, vget_insert.
    repeat case_decide; try lia; try done. assert (j = i) as -> by lia. by rewrite Hx.
Qed.

Lemma copy_nodes_ok nodes graph na :
  (vsize graph < 2147483648)%N -> (nodes < 4294967295)%N ->
  (forall m, (m <= nodes)%N -> vget na m = Some (pos m graph)) -> forall el,
  (pos nodes graph <= vsize el)%N ->
  exists el', fold_m (copy_node graph na) (el, 0%N) (irange 0 nodes) = Some (el', pos nodes graph) /\ vsize el' = vsize el /\
    forall j, vget el' j = if decide (j < pos nodes graph)%N then to_edge <$> vget graph j else vget el j.
Proof.
  intros Hb Hn Hna el Hel.
  destruct (fold_m_ind (copy_node graph na) (fun pre s => exists el', s = (el', pos (vsize pre) graph) /\ vsize el' = vsize el /\
      forall j, vget el' j = if decide (j < pos (vsize pre) graph)%N then to_edge <$> vget graph j else vget el j)
      (irange 0 nodes) (el, 0%N)) as (s & Hrun & el' & -> & Hsz & Hget).
  - exists el. rewrite pos_0. split_and!; [done|done|]. intros j. by rewrite decide_False by lia.
  - intros pre x post s Heq (el' & -> & Hsz & Hget).
    assert (irange 0 nodes !! length pre = Some x) as Hx by (rewrite Heq; apply list_lookup_middle; done).
    rewrite irange_lookup in Hx by lia. case_decide; [|done]. injection Hx as Hx.
    assert (x = vsize pre) as -> by (unfold vsize; lia). clear Hx. assert (vsize pre < nodes)%N by (unfold vsize; lia).
    pose proof (pos_mono (vsize pre) (vsize pre + 1) graph ltac:(lia)) as H1.
    pose proof (pos_mono (vsize pre + 1) nodes graph ltac:(lia)) as H2. pose proof (pos_le nodes graph) as H3.
    unfold copy_node. rewrite uadd_small by lia. rewrite !Hna by lia. cbn [mbind option_bind].
    destruct (copy_run_ok (length graph) graph (pos (vsize pre + 1) graph) (pos (vsize pre) graph) el')
      as (el2 & -> & Hsz2 & Hget2); [done|lia|lia|unfold vsize in *; lia|].
    eexists. split; [done|]. exists el2. rewrite vsize_app. change (vsize [vsize pre]) with 1%N.
    split_and!; [done|congruence|]. intros j. rewrite Hget2, Hget. repeat case_decide; try lia; done.
  - assert (vsize (irange 0 nodes) = nodes) as Hl by (unfold vsize; rewrite length_irange by lia; lia).
    rewrite Hl in Hrun, Hget. by exists el'.
Qed.

Lemma static_from_ok sort_edges junk nodes input :
  sort_edges input ≡ₚ input -> source_sorted (sort_edges input) ->
  Forall (fun e => ie_source e < nodes)%N input -> (vsize input < 2147483648)%N -> (nodes < 4294967294)%N ->
  exists g, StaticGraph_from sort_edges junk nodes input = Some g /\ static_wf g /\ sg_number_of_nodes g = nodes /\
    edge_array g = to_edge <$> sort_edges input /\
    forall n, (n < nodes)%N -> sadj g n = to_edge <$> filter (fun e => ie_source e = n) (sort_edges input).
Proof.
  intros Hperm Hs Hsrc Hb Hn. unfold StaticGraph_from. set (graph := sort_edges input) in *.
  assert (vsize graph = vsize input) as Hvg by (unfold vsize; by rewrite Hperm).
  assert (Forall (fun e => ie_source e < nodes)%N graph) as Hsrc'.
  { rewrite Forall_forall in *. intros e He. apply Hsrc. by rewrite <- Hperm. }
  assert (pos nodes graph = vsize graph) as Hp by by apply pos_all.
  assert (pos (nodes + 1) graph = vsize graph) as Hp1.
  { apply pos_all. eapply Forall_impl; [exact Hsrc'|]. simpl. lia. }
  rewrite !uadd_small by lia. assert (vsize (replicate (N.to_nat (nodes + 1)) 0%N) = (nodes + 1)%N) as Hrep by (unfold vsize; rewrite length_replicate; lia).
  destruct (place_nodes_ok (nodes + 1) (replicate (N.to_nat (nodes + 1)) 0%N) graph Hs) as (na & -> & Hna & Hget); [lia..|].
  rewrite Hrep in Hna.
  cbn [mbind option_bind]. rewrite Hp1.
  destruct (copy_nodes_ok nodes graph na) with (el := replicate (N.to_nat (vsize graph)) junk) as (el & -> & Hel & Hgel);
    [lia|lia|intros m Hm; apply Hget; lia|rewrite Hp; unfold vsize; rewrite length_replicate; lia|].
  cbn [mbind option_bind]. assert (vsize el = vsize graph) as Hve by (rewrite Hel; unfold vsize; rewrite length_replicate; lia).
  assert (el = to_edge <$> graph) as ->.
  { apply list_eq_vget. intros j. rewrite Hgel, vget_fmap, Hp. case_decide; [done|]. rewrite !vget_None; [done|lia|].
    unfold vsize in *. rewrite length_replicate. lia. }
  destruct (static_arrays_ok nodes (u32 (vsize graph)) graph na Hs) as [Hwf Hadj]; [lia|lia|done|intros n Hle; apply Hget; lia|].
  eexists. split; [done|]. done.
Qed.

(** ** Searching *)

  Context (distance : D -> Z).

Definition lightest g (from to e : N) : Prop :=
  (e = SPECIAL_EDGEID /\ forall x, x ∈ sadj g from -> e_target x = to -> (INVALID_EDGE_WEIGHT <= distance (e_data x))%Z) \/
  (exists x, vget (edge_array g) e = Some x /\ x ∈ sadj g from /\ e_target x = to /\ e <> SPECIAL_EDGEID /\
     forall y, y ∈ sadj g from -> e_target y = to -> (distance (e_data x) <= distance (e_data y))%Z).

Lemma find_step_ok g to e w i x : vget (edge_array g) i = Some x ->
  find_step distance g to (e, w) i =
  Some (if (e_target x =? to)%N && (distance (e_data x) <? w)%Z then (i, distance (e_data x)) else (e, w)).
Proof. intros Hi. unfold find_step, sg_GetTarget, sg_GetEdgeData. rewrite Hi. cbn [mbind option_bind]. by destruct (_ && _). Qed.

Lemma find_fold_ok g to r l :
  Forall2 (fun i e => vget (edge_array g) i = Some e /\ (i < vsize (edge_array g))%N) r l ->
  (vsize (edge_array g) < 2147483648)%N -> forall e w,
  exists e' w', fold_m (find_step distance g to) (e, w) r = Some (e', w') /\
    ((e' = e /\ w' = w /\ forall x, x ∈ l -> e_target x = to -> (w <= distance (e_data x))%Z) \/
     exists x, vget (edge_array g) e' = Some x /\ x ∈ l /\ e_target x = to /\ e' <> SPECIAL_EDGEID /\
       w' = distance (e_data x) /\ (w' < w)%Z /\ forall y, y ∈ l -> e_target y = to -> (w' <= distance (e_data y))%Z).
Proof.
  intros HF Hb. induction HF as [|i x r l [Hi Hlt] HF IH]; intros e w; cbn [fold_m].
  { exists e, w. split; [done|]. left. split_and!; [done|done|]. by intros x ?%elem_of_nil. }
  rewrite (find_step_ok g to e w i x Hi). cbn [mbind option_bind].
  destruct ((e_target x =? to)%N && (distance (e_data x) <? w)%Z) eqn:E.
  - apply andb_true_iff in E as [Ht%N.eqb_eq Hw%Z.ltb_lt].
    destruct (IH i (distance (e_data x))) as (e' & w' & -> & Hres). exists e', w'. split; [done|]. right.
    destruct Hres as [(-> & -> & Hall)|(z & Hz & Hin & Htz & Hne & -> & Hlt' & Hall)].
    + exists x. split_and!; try done; [by left|unfold SPECIAL_EDGEID, UINT_MAX; lia|].
      intros y [->|Hy]%elem_of_cons Hty; [lia|by apply Hall].
    + exists z. split_and!; try done; [by right|lia|]. intros y [->|Hy]%elem_of_cons Hty; [lia|by apply Hall].
  - assert (e_target x = to -> (w <= distance (e_data x))%Z) as Hx.
    { intros Ht. apply andb_false_iff in E as [?%N.eqb_neq|?%Z.ltb_ge]; [done|lia]. }
    destruct (IH e w) as (e' & w' & -> & Hres). exists e', w'. split; [done|].
    destruct Hres as [(-> & -> & Hall)|(z & Hz & Hin & Htz & Hne & -> & Hlt' & Hall)]; [left|right].
    + split_and!; try done. intros y [->|Hy]%elem_of_cons Hty; [by apply Hx|by apply Hall].
    + exists z. split_and!; try done; [by right|]. intros y [->|Hy]%elem_of_cons Hty; [specialize (Hx Hty); lia|by apply Hall].
Qed.

Lemma static_find_edge_ok g from to : static_wf g -> (from < sg_number_of_nodes g)%N ->
  exists e, sg_FindEdge distance from to g = Some e /\ lightest g from to e.
Proof.
  intros Hwf Hf. unfold sg_FindEdge. destruct (sadj_range g from Hwf Hf) as (r & -> & HF). cbn [mbind option_bind].
  destruct (find_fold_ok g to r (sadj g from) HF (sw_edges g Hwf) SPECIAL_EDGEID INVALID_EDGE_WEIGHT) as (e & w & -> & Hres).
  cbn [mbind option_bind]. exists e. split; [done|]. destruct Hres as [(-> & -> & Hall)|(x & Hx & Hin & Ht & Hne & -> & _ & Hall)].
  - by left.
  - right. by exists x.
Qed.

Lemma special_is_special e : (SPECIAL_NODEID =? e)%N = bool_decide (e = SPECIAL_EDGEID).
Proof. unfold SPECIAL_NODEID, SPECIAL_EDGEID. case_bool_decide; [subst; apply N.eqb_refl|]. apply N.eqb_neq. congruence. Qed.
End adjacency.

(** ** Properties *)

(** The constructor from an edge list, whose sort is given by a
    parameter, gives every node exactly the input edges with that source, and
    on the graph it builds the searches find a lightest edge: [FindEdge] from
    the first to the second node, and [FindEdgeIndicateIfReverse] in that
    direction if there is one and otherwise in the other direction. *)
Theorem static_graph_edges {D} (distance : D -> Z) sort_edges junk nodes (input : list (InputEdge D)) from to flag :
  sort_edges input ≡ₚ input -> StronglySorted (fun a b : InputEdge D => (ie_source a <= ie_source b)%N) (sort_edges input) ->
  Forall (fun e => ie_source e < nodes)%N input -> (vsize input < 2147483648)%N -> (nodes < 4294967294)%N ->
  (from < nodes)%N -> (to < nodes)%N ->
  exists g, StaticGraph_from sort_edges junk nodes input = Some g /\
    (forall n, (n < nodes)%N -> sadj g n ≡ₚ to_edge <$> filter (fun e => ie_source e = n) input) /\
    (exists e, sg_FindEdge distance from to g = Some e /\ lightest distance g from to e) /\
    (exists e b, sg_FindEdgeIndicateIfReverse distance from to flag g = Some (e, b) /\
       ((e <> SPECIAL_EDGEID /\ b = flag /\ lightest distance g from to e) \/
        (e <> SPECIAL_EDGEID /\ b = true /\ lightest distance g from to SPECIAL_EDGEID /\ lightest distance g to from e) \/
        (e = SPECIAL_EDGEID /\ b = flag /\ lightest distance g from to e /\ lightest distance g to from e))).
Proof.
  intros Hperm Hs Hsrc Hb Hn Hf Ht.
  destruct (static_from_ok sort_edges junk nodes input Hperm Hs Hsrc Hb Hn) as (g & Hg & Hwf & Hnodes & _ & Hadj).
  exists g. split; [done|]. split; [intros n Hlt; rewrite Hadj by done; by rewrite Hperm|].
  destruct (static_find_edge_ok distance g from to Hwf) as (e & He & Hl); [lia|].
  destruct (static_find_edge_ok distance g to from Hwf) as (e' & He' & Hl'); [lia|]. split; [by exists e|].
  unfold sg_FindEdgeIndicateIfReverse. rewrite He. cbn [mbind option_bind]. rewrite special_is_special.
  case_bool_decide as Hspec; [|exists e, flag; split; [done|by left]].
  rewrite He'. cbn [mbind option_bind]. rewrite special_is_special. subst e.
  eexists _, _. split; [done|]. right. case_bool_decide as Hspec'; cbn [negb]; [right; subst e'|left]; by split_and!.
Qed.

(** Two parallel edges from 0 to 1. *)
Definition sample_static_input : list (InputEdge Z) := [MkInputEdge 0 1 7%Z; MkInputEdge 0 1 4%Z; MkInputEdge 1 2 5%Z].

Lemma static_graph_edges_witness :
  exists g, StaticGraph_from id (MkEdge 0 0%Z) 3 sample_static_input = Some g /\
    sg_FindEdge id 0 1 g = Some 1%N /\ sg_FindEdgeIndicateIfReverse id 2 1 false g = Some (2%N, true) /\
    exists e, sg_FindEdge id 0 1 g = Some e /\ lightest id g 0 1 e.
Proof.
  destruct (static_graph_edges id id (MkEdge 0 0%Z) 3 sample_static_input 0 1 false) as (g & Hg & _ & Hfind & _);
    [done|repeat constructor; done|repeat constructor; done|done|done|done|done|].
  exists g. split; [exact Hg|]. vm_compute in Hg. injection Hg as <-. split; [reflexivity|]. split; [reflexivity|]. exact Hfind.
Defined.
