(* ===== verification/Text.v ===== *)
(** * Util/StringUtil.h and the printing of coordinates

    The text routines: decoding of URIs, escaping of JSON strings, and the
    printing of fixed-point coordinates (Util/StringUtil.h,
    DataStructures/Coordinate.cpp). A [char] is its byte, a number below 256,
    and a string the list of its bytes. *)

From Stdlib Require Import Strings.String Strings.Ascii.
From S2P Require Import Prelude Float32.

Abbreviation str := (list N).

(** The bytes of a literal. *)
Fixpoint lit (s : string) : str :=
  match s with
  | EmptyString => []
  | String c s' => N_of_ascii c :: lit s'
  end.

(** ** URIDecode *)

Definition isxdigit (c : N) : bool :=
  ((48 <=? c) && (c <=? 57) || (65 <=? c) && (c <=? 70) || (97 <=? c) && (c <=? 102))%N.

(** The value of a hexadecimal digit, as the code subtracts it. *)
Definition hex_value (c : N) : N :=
  if (c <? 58)%N then c - 48 else if (c <? 71)%N then c - 55 else c - 87.

(** Reading at the end of the string gives its terminator, which ends the
    test for an escape. *)
Fixpoint URIDecode (input : str) : str :=
  match input with
  | [] => []
  | c :: rest =>
      match rest with
      | h :: l :: rest' =>
          if ((c =? 37) && negb (h =? 0) && negb (l =? 0))%N && isxdigit h && isxdigit l
          then u8 (16 * hex_value h + hex_value l) :: URIDecode rest'
          else c :: URIDecode rest
      | _ => c :: URIDecode rest
      end
  end.

(** ** EscapeJSONString *)

Definition escape_char (c : N) : str :=
  if (c =? 92)%N then [92; 92]%N
  else if (c =? 34)%N then [92; 34]%N
  else if (c =? 47)%N then [92; 47]%N
  else if (c =? 8)%N then [92; 98]%N
  else if (c =? 12)%N then [92; 102]%N
  else if (c =? 10)%N then [92; 110]%N
  else if (c =? 13)%N then [92; 114]%N
  else if (c =? 9)%N then [92; 116]%N
  else [c].

Definition EscapeJSONString (input : str) : str :=
  fold_left (fun output c => output ++ escape_char c) input [].

(** ** printInt *)

(** [*buffer = c] where [buffer] points to [pos]; a pointer may be one before
    the array, but must not be written there. *)
Definition put (buffer : str) (pos : Z) (c : N) : option str :=
  if (pos <? 0)%Z then None else vset buffer (Z.to_N pos) c.

(** ['0' - (value % 10)] for a value that is not positive. *)
Definition digit_char (value : Z) : N := Z.to_N (48 - Z.rem value 10).

(** The first loop: [n] digits after the decimal point. *)
Fixpoint print_fraction (n : nat) (buffer : str) (pos value : Z) : option (str * Z * Z) :=
  match n with
  | O => Some (buffer, pos, value)
  | S n' =>
      buffer' ← put buffer pos (digit_char value);
      print_fraction n' buffer' (pos - 1) (Z.quot value 10)
  end.

(** The second loop, left when the value is used up. *)
Fixpoint print_integer (n : nat) (buffer : str) (pos value : Z) : option (str * Z) :=
  match n with
  | O => Some (buffer, pos)
  | S n' =>
      buffer' ← put buffer pos (digit_char value);
      if (Z.quot value 10 =? 0)%Z then Some (buffer', pos)
      else print_integer n' buffer' (pos - 1) (Z.quot value 10)
  end.

Definition printInt (length precision : nat) (buffer : str) (value : Z) : option (str * Z) :=
  let minus := negb (0 <? value)%Z in
  let value' := if (0 <? value)%Z then (- value)%Z else value in
  '(buffer1, pos1, value1) ← print_fraction precision buffer (Z.of_nat length - 1) value';
  buffer2 ← put buffer1 pos1 46;
  '(buffer3, pos3) ← print_integer (length - (precision + 1)) buffer2 (pos1 - 1) value1;
  if minus then
    buffer4 ← put buffer3 (pos3 - 1) 45;
    Some (buffer4, (pos3 - 1)%Z)
  else Some (buffer3, pos3).

(** The characters up to the terminator. *)
Fixpoint c_string (l : str) : str :=
  match l with
  | [] => []
  | c :: l' => if (c =? 0)%N then [] else c :: c_string l'
  end.

(** [convertInternalLatLonToString]: [buffer] is the array of 12 characters
    with its terminator in place, [junk] its uninitialised part. *)
Definition convertInternalLatLonToString (junk : N -> N) (value : Z) : option str :=
  let buffer := (junk <$> [0; 1; 2; 3; 4; 5; 6; 7; 8; 9; 10]%N) ++ [0%N] in
  '(buffer', pos) ← printInt 11 6 buffer value;
  if (pos <? 0)%Z then None else Some (c_string (drop (Z.to_nat pos) buffer')).

Record FixedPointCoordinate := MkCoordinate { lat : Z; lon : Z }.

Definition COORDINATE_PRECISION : Z := 1000000.

(** [COORDINATE_PRECISION] is a [float], and so are both sides of the
    comparisons: the coordinates are rounded to 24 bits first. *)
Definition coordinate_isValid (c : FixedPointCoordinate) : bool :=
  let limit z := fmul (float_of_int z) (float_of_int COORDINATE_PRECISION) in
  negb (fltb (limit 90) (float_of_int (lat c)) || fltb (float_of_int (lat c)) (limit (-90)) ||
        fltb (limit 180) (float_of_int (lon c)) || fltb (float_of_int (lon c)) (limit (-180)))%Z.

Definition coordinate_isSet (c : FixedPointCoordinate) : bool :=
  negb (INT_MIN =? lat c)%Z && negb (INT_MIN =? lon c)%Z.

Definition coordinate_default : FixedPointCoordinate := MkCoordinate INT_MIN INT_MIN.

Definition coordinate_eqb (a b : FixedPointCoordinate) : bool := (lat a =? lat b)%Z && (lon a =? lon b)%Z.

Definition convertInternalCoordinateToString (junk : N -> N) (coord : FixedPointCoordinate) : option str :=
  tmp ← convertInternalLatLonToString junk (lon coord);
  tmp' ← convertInternalLatLonToString junk (lat coord);
  Some (tmp ++ [44%N] ++ tmp').

Definition convertInternalReversedCoordinateToString (junk : N -> N) (coord : FixedPointCoordinate) : option str :=
  tmp ← convertInternalLatLonToString junk (lat coord);
  tmp' ← convertInternalLatLonToString junk (lon coord);
  Some (tmp ++ [44%N] ++ tmp').

(** A point just beyond the pole is accepted: its latitude is rounded. *)
Example coordinate_rounding :
  coordinate_isValid (MkCoordinate 90000004 180000008) = true /\ coordinate_isValid (MkCoordinate 90000005 0) = false /\
  coordinate_isValid (MkCoordinate 0 180000009) = false.
Proof. vm_compute. done. Qed.

(** ** Lemmas on decoding *)

(** [e] is a percent-encoding of [s]: any character may be escaped, in either
    case, and a percent sign must be. *)
Inductive uri_encodes : str -> str -> Prop :=
  | enc_nil : uri_encodes [] []
  | enc_plain c s e : c <> 37%N -> uri_encodes s e -> uri_encodes (c :: s) (c :: e)
  | enc_escape h l s e : isxdigit h = true -> isxdigit l = true -> uri_encodes s e ->
      uri_encodes ((16 * hex_value h + hex_value l)%N :: s) (37%N :: h :: l :: e).

Lemma isxdigit_bounds c : isxdigit c = true -> (c <> 0)%N /\ (hex_value c < 16)%N.
Proof.
  unfold isxdigit, hex_value. rewrite !orb_true_iff, !andb_true_iff, !N.leb_le.
  intros [[?|?]|?]; split; repeat case_ltb; lia.
Qed.

Lemma decode_plain c s : c <> 37%N -> URIDecode (c :: s) = c :: URIDecode s.
Proof. intros Hc. cbn [URIDecode]. destruct s as [|h [|l s]]; try done. apply N.eqb_neq in Hc. by rewrite Hc. Qed.

Lemma decode_escape h l s : isxdigit h = true -> isxdigit l = true ->
  URIDecode (37%N :: h :: l :: s) = (16 * hex_value h + hex_value l)%N :: URIDecode s.
Proof.
  intros Hh Hl. cbn [URIDecode]. destruct (isxdigit_bounds h Hh) as [H1 Hh']. destruct (isxdigit_bounds l Hl) as [H2 Hl'].
  apply N.eqb_neq in H1, H2. rewrite H1, H2, Hh, Hl. simpl. unfold u8. by rewrite N.mod_small by lia.
Qed.

(** Decoding inverts every percent-encoding. *)
Theorem uri_decode_encoded s e : uri_encodes s e -> URIDecode e = s.
Proof.
  induction 1 as [|c s e Hc He IH|h l s e Hh Hl He IH]; [done|by rewrite decode_plain, IH|by rewrite decode_escape, IH].
Qed.

(** "a/%" with an escaped slash and percent sign. *)
Lemma uri_decode_encoded_witness : URIDecode (lit "a%2f%25") = lit "a/%".
Proof. apply uri_decode_encoded. repeat first [apply enc_plain; [done|] | apply (enc_escape 50 102); [done|done|] | apply (enc_escape 50 53); [done|done|] | constructor]. Defined.

(** ** Lemmas on printing *)

Definition digit (c : N) : Prop := (48 <= c <= 57)%N.

(** The number a string of digits stands for. *)
Definition number (l : str) : Z := fold_left (fun a c => 10 * a + (Z.of_N c - 48))%Z l 0%Z.

Lemma number_cons c l : number (c :: l) = ((Z.of_N c - 48) * 10 ^ Z.of_nat (length l) + number l)%Z.
Proof.
  unfold number. cbn [fold_left]. rewrite Z.mul_0_r, Z.add_0_l. generalize (Z.of_N c - 48)%Z. clear c.
  assert (forall l a b, fold_left (fun a c => 10 * a + (Z.of_N c - 48))%Z l (a * 10 ^ 0 + b)%Z =
    (a * 10 ^ Z.of_nat (length l) + fold_left (fun a c => 10 * a + (Z.of_N c - 48))%Z l b)%Z) as Hgen.
  { clear l. induction l as [|c l IH]; intros a b; [done|]. cbn [fold_left length].
    replace (10 * (a * 10 ^ 0 + b) + (Z.of_N c - 48))%Z with ((10 * a) * 10 ^ 0 + (10 * b + (Z.of_N c - 48)))%Z by lia.
    rewrite IH, Nat2Z.inj_succ, Z.pow_succ_r by lia. lia. }
  intros z. specialize (Hgen l z 0%Z). rewrite Z.pow_0_r, Z.mul_1_r, Z.add_0_r in Hgen. exact Hgen.
Qed.

Lemma number_app l1 l2 : number (l1 ++ l2) = (number l1 * 10 ^ Z.of_nat (length l2) + number l2)%Z.
Proof.
  induction l1 as [|c l1 IH]; [done|]. cbn [app]. rewrite !number_cons, IH, length_app.
  rewrite Nat2Z.inj_add, Z.pow_add_r by lia. lia.
Qed.

Lemma put_ok (A B : str) x c : put (A ++ x :: B) (Z.of_nat (length A)) c = Some (A ++ c :: B).
Proof.
  unfold put. case_ltb; [lia|]. rewrite vset_lt.
  - replace (N.to_nat (Z.to_N (Z.of_nat (length A)))) with (length A + 0)%nat by lia. by rewrite insert_app_r.
  - unfold vsize. rewrite length_app. simpl. lia.
Qed.

Lemma digit_char_neg w : (0 <= w)%Z -> digit (digit_char (- w)) /\ (Z.of_N (digit_char (- w)) - 48 = w mod 10)%Z.
Proof.
  intros Hw. unfold digit, digit_char. rewrite Z.rem_opp_l, Z.rem_mod_nonneg by lia.
  pose proof (Z.mod_pos_bound w 10). lia.
Qed.

Lemma quot_neg w : (0 <= w)%Z -> Z.quot (- w) 10 = (- (w / 10))%Z.
Proof. intros Hw. by rewrite Z.quot_opp_l, Z.quot_div_nonneg by lia. Qed.

Lemma number_snoc l c : number (l ++ [c]) = (10 * number l + (Z.of_N c - 48))%Z.
Proof. unfold number. by rewrite fold_left_app. Qed.

Lemma mod_pow_succ w n : (0 <= w)%Z ->
  (10 * ((w / 10) mod 10 ^ Z.of_nat n) + w mod 10 = w mod 10 ^ Z.of_nat (S n))%Z.
Proof.
  intros Hw. rewrite Nat2Z.inj_succ, Z.pow_succ_r by lia. rewrite Z.rem_mul_r by lia. lia.
Qed.

Lemma print_fraction_ok n : forall (A B : str) w, (0 <= w)%Z -> (n <= length A)%nat ->
  exists D, print_fraction n (A ++ B) (Z.of_nat (length A) - 1) (- w) =
      Some (take (length A - n) A ++ D ++ B, (Z.of_nat (length A - n) - 1)%Z, (- (w / 10 ^ Z.of_nat n))%Z) /\
    length D = n /\ Forall digit D /\ number D = (w mod 10 ^ Z.of_nat n)%Z.
Proof.
  induction n as [|n IH]; intros A B w Hw Hn.
  { exists []. rewrite Nat.sub_0_r, firstn_all, Z.pow_0_r, Z.div_1_r, Z.mod_1_r. done. }
  destruct (exists_last (l := A)) as (A' & x & ->); [intros ->; simpl in Hn; lia|]. rewrite length_app in *. cbn [length] in *.
  cbn [print_fraction]. rewrite <- app_assoc. cbn [app].
  replace (Z.of_nat (length A' + 1) - 1)%Z with (Z.of_nat (length A')) by lia.
  rewrite put_ok. cbn [mbind option_bind]. rewrite quot_neg by done.
  destruct (digit_char_neg w Hw) as [Hd Hv].
  destruct (IH A' (digit_char (- w) :: B) (w / 10)%Z) as (D & -> & HlD & HD & Hnum); [apply Z.div_pos; lia|lia|].
  exists (D ++ [digit_char (- w)]). rewrite length_app. split_and!.
  - replace (length A' + 1 - S n)%nat with (length A' - n)%nat by lia.
    rewrite take_app_le by lia. rewrite <- app_assoc. cbn [app].
    rewrite Z.div_div, <- Z.pow_succ_r, <- Nat2Z.inj_succ by lia. done.
  - cbn [length]. lia.
  - apply Forall_app. by split; [|repeat constructor; apply Hd].
  - rewrite number_snoc, Hnum, Hv. by apply mod_pow_succ.
Qed.

Lemma print_integer_ok n : forall (A B : str) w, (0 <= w < 10 ^ Z.of_nat n)%Z -> (0 < n)%nat -> (n <= length A)%nat ->
  exists D, print_integer n (A ++ B) (Z.of_nat (length A) - 1) (- w) =
      Some (take (length A - length D) A ++ D ++ B, Z.of_nat (length A - length D)) /\
    (0 < length D <= n)%nat /\ Forall digit D /\ number D = w /\ (w < 10 ^ Z.of_nat (length D))%Z /\
    (length D = 1%nat \/ 10 ^ Z.of_nat (length D - 1) <= w)%Z.
Proof.
  induction n as [|n IH]; intros A B w Hw Hn0 Hn; [lia|].
  destruct (exists_last (l := A)) as (A' & x & ->); [intros ->; simpl in Hn; lia|]. rewrite length_app in *. cbn [length] in *.
  cbn [print_integer]. rewrite <- app_assoc. cbn [app].
  replace (Z.of_nat (length A' + 1) - 1)%Z with (Z.of_nat (length A')) by lia.
  rewrite put_ok. cbn [mbind option_bind]. rewrite quot_neg by lia.
  destruct (digit_char_neg w) as [Hd Hv]; [lia|]. pose proof (Z.mod_pos_bound w 10). pose proof (Z.div_mod w 10).
  destruct (Z.eqb_spec (- (w / 10)) 0) as [Hz|Hz].
  - exists [digit_char (- w)]. cbn [length]. split_and!; try lia.
    + replace (length A' + 1 - 1)%nat with (length A') by lia. by rewrite take_app_length.
    + by repeat constructor; apply Hd.
    + unfold number. cbn [fold_left]. lia.
  - assert (0 <= w / 10)%Z by (apply Z.div_pos; lia).
    rewrite Nat2Z.inj_succ, Z.pow_succ_r in Hw by lia.
    destruct (IH A' (digit_char (- w) :: B) (w / 10)%Z) as (D & HD & HlD & HF & Hnum & Hlt & Hge); [|destruct n; [simpl in Hw; lia|lia]|lia|].
    { split; [lia|]. apply Z.div_lt_upper_bound; lia. }
    rewrite HD. exists (D ++ [digit_char (- w)]). rewrite length_app. cbn [length].
    replace (length A' + 1 - (length D + 1))%nat with (length A' - length D)%nat by lia.
    rewrite take_app_le by lia. rewrite <- app_assoc. cbn [app]. split_and!; try done; try lia.
    + apply Forall_app. by split; [|repeat constructor; apply Hd].
    + rewrite number_snoc, Hnum, Hv. lia.
    + rewrite Nat2Z.inj_add, Z.pow_add_r by lia. simpl. lia.
    + right. replace (length D + 1 - 1)%nat with (S (length D - 1)) by lia.
      rewrite Nat2Z.inj_succ, Z.pow_succ_r by lia. destruct Hge as [Hg|Hg]; [rewrite Hg; simpl|]; lia.
Qed.

Lemma c_string_app (l : str) : Forall (fun c => c <> 0%N) l -> c_string (l ++ [0%N]) = l.
Proof. induction 1 as [|c l Hc Hl IH]; [done|]. cbn [app c_string]. apply N.eqb_neq in Hc. by rewrite Hc, IH. Qed.

Lemma digits_not_zero (D : str) : Forall digit D -> Forall (fun c => c <> 0%N) D.
Proof. intros HD. eapply Forall_impl; [exact HD|]. unfold digit. lia. Qed.

Lemma number_nonneg (D : str) : Forall digit D -> (0 <= number D)%Z.
Proof. induction 1 as [|c D Hc HD IH]; [done|]. rewrite number_cons. unfold digit in Hc. pose proof (Z.pow_nonneg 10 (Z.of_nat (length D))). nia. Qed.

Lemma number_lt (D : str) : Forall digit D -> (number D < 10 ^ Z.of_nat (length D))%Z.
Proof.
  induction 1 as [|c D Hc HD IH]; [done|]. rewrite number_cons. cbn [length]. unfold digit in Hc.
  rewrite Nat2Z.inj_succ, Z.pow_succ_r by lia. pose proof (Z.pow_nonneg 10 (Z.of_nat (length D))). nia.
Qed.

(** What [printInt<11, 6>] leaves in the buffer, and the position it reaches
    before the sign. *)
Lemma print_digits_ok (buffer : str) w :
  (0 <= w < 10 ^ 10)%Z -> length buffer = 11%nat ->
  exists A I F, Forall digit I /\ Forall digit F /\ length F = 6%nat /\ (0 < length I <= 4)%nat /\ length A = (4 - length I)%nat /\
    (number I * COORDINATE_PRECISION + number F = w)%Z /\ (length I = 1%nat \/ 10 ^ Z.of_nat (length I - 1) <= number I)%Z /\
    ('(buffer1, pos1, value1) ← print_fraction 6 (buffer ++ [0%N]) (Z.of_nat 11 - 1) (- w);
     buffer2 ← put buffer1 pos1 46;
     print_integer (11 - (6 + 1)) buffer2 (pos1 - 1) value1) =
    Some (A ++ I ++ [46%N] ++ F ++ [0%N], Z.of_nat (length A)).
Proof.
  intros Hw Hb. destruct (print_fraction_ok 6 buffer [0%N] w) as (F & HF & HlF & HdF & HnF); [lia|lia|].
  rewrite Hb in HF. rewrite HF. cbn [mbind option_bind].
  destruct buffer as [|a [|b [|c [|d [|x buffer]]]]]; try done. cbn [take Nat.sub].
  change (Z.of_nat 5 - 1)%Z with (Z.of_nat (length [a; b; c; d])).
  change ((_ :: _ :: _ :: _ :: _ :: take 0 buffer) ++ F ++ [0%N]) with ([a; b; c; d] ++ x :: F ++ [0%N]). rewrite put_ok. cbn [mbind option_bind].
  destruct (print_integer_ok 4 [a; b; c; d] (46%N :: F ++ [0%N]) (w / 10 ^ Z.of_nat 6)) as (I & HI & HlI & HdI & HnI & Hlt & Hge).
  - split; [apply Z.div_pos; lia|]. apply Z.div_lt_upper_bound; simpl; lia.
  - lia.
  - done.
  - exists (take (4 - length I) [a; b; c; d]), I, F. cbn [length] in HI.
    assert (length (take (4 - length I) [a; b; c; d]) = (4 - length I)%nat) as Hl by (rewrite length_take; simpl; lia).
    split_and!; try done; try lia.
    + rewrite HnI, HnF. unfold COORDINATE_PRECISION. pose proof (Z.div_mod w (10 ^ 6)). simpl in *. lia.
    + cbn [length]. rewrite Hl. exact HI.
Qed.

(** A coordinate is printed as its decimal number with six decimals and
    no superfluous leading zeros. A value that is not positive gets a minus
    sign, zero included. From minus 1000 degrees downwards, and in particular
    for an unset coordinate, the sign is written in front of the buffer. *)
Theorem coordinate_printing junk value :
  (INT_MIN <= value <= INT_MAX)%Z ->
  ((-1000 * COORDINATE_PRECISION < value)%Z ->
   exists I F, convertInternalLatLonToString junk value = Some ((if (0 <? value)%Z then [] else [45%N]) ++ I ++ [46%N] ++ F) /\
     Forall digit I /\ Forall digit F /\ length F = 6%nat /\ (0 < length I <= 4)%nat /\
     (length I = 1%nat \/ 10 ^ Z.of_nat (length I - 1) <= number I)%Z /\
     (number I * COORDINATE_PRECISION + number F = Z.abs value)%Z) /\
  ((value <= -1000 * COORDINATE_PRECISION)%Z -> convertInternalLatLonToString junk value = None).
Proof.
  unfold INT_MIN, INT_MAX. intros Hv.
  destruct (print_digits_ok (junk <$> [0; 1; 2; 3; 4; 5; 6; 7; 8; 9; 10]%N) (Z.abs value))
    as (A & I & F & HI & HF & HlF & HlI & HlA & Hsum & Hlead & Hrun); [lia|done|].
  unfold convertInternalLatLonToString, printInt.
  replace (if (0 <? value)%Z then (- value)%Z else value) with (- Z.abs value)%Z by (case_ltb; lia).
  destruct (print_fraction 6 _ _ _) as [[[b1 p1] v1]|]; [|done]. cbn [mbind option_bind] in Hrun |- *.
  destruct (put b1 p1 46) as [b2|]; [|done]. cbn [mbind option_bind] in Hrun |- *. rewrite Hrun. cbn [mbind option_bind].
  unfold COORDINATE_PRECISION in *. split.
  - intros Hlow. exists I, F.
    assert (Forall (fun c => c <> 0%N) (I ++ [46%N] ++ F)) as Hnz.
    { rewrite !Forall_app. split_and!; [by apply digits_not_zero|by repeat constructor|by apply digits_not_zero]. }
    split; [|split_and!; done || lia]. destruct (Z.ltb_spec 0 value) as [Hpos|Hneg]; cbn [negb app mbind option_bind].
    + case_ltb; [lia|]. rewrite Nat2Z.id, drop_app_length. f_equal.
      rewrite app_comm_cons, app_assoc. by apply c_string_app.
    + destruct (exists_last (l := A)) as (A' & x & ->).
      { intros ->. cbn [length] in HlA. assert (length I = 4%nat) as H4 by lia. rewrite H4 in Hlead. simpl in Hlead.
        assert (0 <= number F)%Z by by apply number_nonneg. lia. }
      rewrite length_app in *. cbn [length] in *. rewrite <- app_assoc. cbn [app].
      replace (Z.of_nat (length A' + 1) - 1)%Z with (Z.of_nat (length A')) by lia.
      rewrite put_ok. cbn [mbind option_bind]. case_ltb; [lia|]. rewrite Nat2Z.id, drop_app_length. f_equal.
      rewrite (app_comm_cons F [0%N] 46%N), app_assoc, app_comm_cons. apply c_string_app. by constructor.
  - intros Hlow. case_ltb; [lia|]. cbn [negb].
    assert (length I = 4%nat) as H4.
    { destruct (decide (length I = 4%nat)) as [|Hn]; [done|]. exfalso.
      assert (number I < 10 ^ Z.of_nat (length I))%Z by by apply number_lt.
      assert (number F < 10 ^ Z.of_nat (length F))%Z by by apply number_lt. rewrite HlF in *.
      assert (10 ^ Z.of_nat (length I) <= 10 ^ 3)%Z by (apply Z.pow_le_mono_r; lia). simpl in *. lia. }
    rewrite HlA, H4. reflexivity.
Qed.

(** Berlin's latitude, the origin, and an unset coordinate. *)
Lemma coordinate_printing_witness :
  convertInternalLatLonToString (fun _ => 255%N) 52516500 = Some (lit "52.516500") /\
  convertInternalLatLonToString (fun _ => 255%N) 0 = Some (lit "-0.000000") /\
  convertInternalLatLonToString (fun _ => 255%N) INT_MIN = None.
Proof.
  split; [|split].
  - vm_compute. reflexivity.
  - vm_compute. reflexivity.
  - apply (coordinate_printing (fun _ => 255%N) INT_MIN); unfold INT_MIN, INT_MAX, COORDINATE_PRECISION; lia.
Defined.
