(* ===== verification/Geometry.v ===== *)
(** * DataStructures/Coordinate.cpp, Util/MercatorUtil.h: distances

    Distances and bearings between coordinates, computed with floating point
    numbers. The functions of the C math library other than [sqrt], which
    IEEE 754 defines, are an argument. A call without [std::] is taken to be
    the function on [double]s, and a product and a sum are rounded separately. *)

From Stdlib Require Import Floats.SpecFloat.
From S2P Require Import Prelude Float32 Text.

Record c_math := MkMath {
  m_sin : double -> double; m_cos : double -> double; m_tan : double -> double; m_atan : double -> double; m_exp : double -> double;
  m_log : double -> double; m_pow : double -> double -> double; m_atan2 : double -> double -> double; m_atan2f : float -> float -> float;
  m_sinf : float -> float; m_cosf : float -> float }.

Definition dsqrt : double -> double := SFsqrt 53 1024.

Definition M_PI : double := S754_finite false 7074237752028440 (-51).
Definition M_PI_2 : double := S754_finite false 7074237752028440 (-52).
Definition M_PI_4 : double := S754_finite false 7074237752028440 (-53).
Definition M_1_PI : double := S754_finite false 5734161139222659 (-54).

Definition fone : float := float_of_int 1.
Definition fzero : float := S754_zero false.

(** A fixed point number divided by [COORDINATE_PRECISION]. *)
Definition degrees (z : Z) : float := fdiv (float_of_int z) (float_of_int COORDINATE_PRECISION).

Section geometry.
  Context (math : c_math).

(** ** MercatorUtil.h *)

Definition y2lat (a : double) : double :=
  dmul (dmul (double_of_int 180) M_1_PI)
    (dsub (dmul (double_of_int 2) (m_atan math (m_exp math (ddiv (dmul a M_PI) (double_of_int 180))))) M_PI_2).

Definition lat2y (a : double) : double :=
  dmul (dmul (double_of_int 180) M_1_PI)
    (m_log math (m_tan math (dadd M_PI_4 (ddiv (dmul a (ddiv M_PI (double_of_int 180))) (double_of_int 2))))).

(** ** Distances *)

Definition ApproximateDistance (lat1 lon1 lat2 lon2 : Z) : double :=
  let RAD := S754_finite false 5030569068109113 (-58) in
  let dlat1 := dmul (to_double (degrees lat1)) RAD in
  let dlong1 := dmul (to_double (degrees lon1)) RAD in
  let dlat2 := dmul (to_double (degrees lat2)) RAD in
  let dlong2 := dmul (to_double (degrees lon2)) RAD in
  let dLong := dsub dlong1 dlong2 in
  let dLat := dsub dlat1 dlat2 in
  let two := double_of_int 2 in
  let aHarv := dadd (m_pow math (m_sin math (ddiv dLat two)) two)
    (dmul (dmul (m_cos math dlat1) (m_cos math dlat2)) (m_pow math (m_sin math (ddiv dLong two)) two)) in
  let cHarv := dmul two (m_atan2 math (dsqrt aHarv) (dsqrt (dsub (double_of_int 1) aHarv))) in
  dmul (S754_finite false 6842739276976272 (-30)) cHarv.

Definition ApproximateEuclideanDistance (lat1 lon1 lat2 lon2 : Z) : float :=
  let RAD := S754_finite false 9370165 (-29) in
  let float_lat1 := fmul (degrees lat1) RAD in
  let float_lon1 := fmul (degrees lon1) RAD in
  let float_lat2 := fmul (degrees lat2) RAD in
  let float_lon2 := fmul (degrees lon2) RAD in
  let x_value := to_float (dmul (to_double (fsub float_lon2 float_lon1)) (m_cos math (to_double (fdiv (fadd float_lat1 float_lat2) (float_of_int 2))))) in
  let y_value := fsub float_lat2 float_lat1 in
  let earth_radius := S754_finite false 12745595 (-1) in
  to_float (dmul (dsqrt (to_double (fadd (fmul x_value x_value) (fmul y_value y_value)))) (to_double earth_radius)).

(** The overload for two coordinates. *)
Definition euclidean (a b : FixedPointCoordinate) : float := ApproximateEuclideanDistance (lat a) (lon a) (lat b) (lon b).

(** The projection of (x, y) on the line through (a, b) and (c, d). *)
Definition project_float (x y a b c d : float) : float * float :=
  let slope := fdiv (fsub d b) (fsub c a) in
  let p := fdiv (fadd (fadd x (fmul slope y)) (fsub (fmul (fmul slope slope) a) (fmul slope b))) (fadd fone (fmul slope slope)) in
  (p, fadd b (fmul slope (fsub p a))).

Definition project_double (x y a b c d : double) : double * double :=
  let m := ddiv (dsub d b) (dsub c a) in
  let p := ddiv (dadd (dadd x (dmul m y)) (dsub (dmul (dmul m m) a) (dmul m b))) (dadd (double_of_int 1) (dmul m m)) in
  (p, dadd b (dmul m (dsub p a))).

(** The overload of [ComputePerpendicularDistance] with three arguments. *)
Definition ComputePerpendicularDistance (source_coordinate target_coordinate point : FixedPointCoordinate) : option float :=
  let mercator z := to_float (lat2y (to_double (degrees z))) in
  let x_value := mercator (lat point) in
  let y_value := degrees (lon point) in
  let a := mercator (lat source_coordinate) in
  let b := degrees (lon source_coordinate) in
  let c := mercator (lat target_coordinate) in
  let d := degrees (lon target_coordinate) in
  let '(p, q) := if SFltb float_epsilon (SFabs (fsub a c)) then project_float x_value y_value a b c d else (c, y_value) in
  let '(ratio, inverse_ratio) :=
    if SFltb (SFabs c) float_epsilon && SFltb (SFabs a) float_epsilon then (fdiv (fsub q b) (fsub d b), false)
    else
      let '(a, b, c, d, inverse_ratio) := if SFltb (SFabs c) float_epsilon then (c, d, a, b, true) else (a, b, c, d, false) in
      let nY := fdiv (fsub (fmul d p) (fmul c q)) (fsub (fmul a d) (fmul b c)) in
      let nY := if SFltb (SFabs nY) (fdiv fone (float_of_int COORDINATE_PRECISION)) then fzero else nY in
      (fdiv (fsub p (fmul nY a)) c, inverse_ratio) in
  let ratio :=
    if is_nan ratio then (if coordinate_eqb target_coordinate point then fone else fzero)
    else if SFleb (SFabs ratio) float_epsilon then fzero
    else if SFleb (SFabs (fsub ratio fone)) float_epsilon then fone
    else ratio in
  let ratio := if inverse_ratio then fsub fone ratio else ratio in
  nearest_location ←
    (if SFleb ratio fzero then Some source_coordinate
     else if SFleb fone ratio then Some target_coordinate
     else
       la ← truncate (dmul (y2lat (to_double p)) (double_of_int COORDINATE_PRECISION));
       lo ← truncate (fmul q (float_of_int COORDINATE_PRECISION));
       Some (MkCoordinate la lo));
  Some (euclidean point nearest_location).

(** The overload that also sets [nearest_location] and [ratio]. *)
Definition PerpendicularDistance (segment_source segment_target query_location : FixedPointCoordinate)
    : option (float * FixedPointCoordinate * float) :=
  let mercator z := lat2y (to_double (degrees z)) in
  let x := mercator (lat query_location) in
  let y := to_double (degrees (lon query_location)) in
  let a := mercator (lat segment_source) in
  let b := to_double (degrees (lon segment_source)) in
  let c := mercator (lat segment_target) in
  let d := to_double (degrees (lon segment_target)) in
  let '(p, q) := if SFltb double_epsilon (SFabs (dsub a c)) then project_double x y a b c d else (c, y) in
  let nY := ddiv (dsub (dmul d p) (dmul c q)) (dsub (dmul a d) (dmul b c)) in
  let nY := if SFltb (SFabs nY) (to_double (fdiv fone (float_of_int COORDINATE_PRECISION))) then dzero else nY in
  let ratio := to_float (ddiv (dsub p (dmul nY a)) c) in
  let ratio :=
    if is_nan ratio then (if coordinate_eqb segment_target query_location then fone else fzero)
    else if SFleb (to_double (SFabs ratio)) double_epsilon then fzero
    else if SFleb (to_double (SFabs (fsub ratio fone))) double_epsilon then fone
    else ratio in
  nearest_location ←
    (if SFleb ratio fzero then Some segment_source
     else if SFleb fone ratio then Some segment_target
     else
       la ← truncate (dmul (y2lat p) (double_of_int COORDINATE_PRECISION));
       lo ← truncate (dmul q (double_of_int COORDINATE_PRECISION));
       Some (MkCoordinate la lo));
  Some (euclidean query_location nearest_location, nearest_location, ratio).

(** The squares are products of [int]s. *)
Definition OrderedPerpendicularDistanceApproximation (input_point segment_source segment_target : FixedPointCoordinate) : option Z :=
  let mercator z := to_float (lat2y (to_double (degrees z))) in
  let x := mercator (lat input_point) in
  let y := degrees (lon input_point) in
  let a := mercator (lat segment_source) in
  let b := degrees (lon segment_source) in
  let c := mercator (lat segment_target) in
  let d := degrees (lon segment_target) in
  let '(p, q) := if SFeqb a c then (c, y) else project_float x y a b c d in
  let nY := fdiv (fsub (fmul d p) (fmul c q)) (fsub (fmul a d) (fmul b c)) in
  let ratio := fdiv (fsub p (fmul nY a)) c in
  let ratio := if is_nan ratio then (if coordinate_eqb segment_target input_point then fone else fzero) else ratio in
  '(dx, dy) ←
    (if SFltb ratio fzero then dx ← isub (lon input_point) (lon segment_source); dy ← isub (lat input_point) (lat segment_source); Some (dx, dy)
     else if SFltb fone ratio then dx ← isub (lon input_point) (lon segment_target); dy ← isub (lat input_point) (lat segment_target); Some (dx, dy)
     else
       lo ← truncate (fmul q (float_of_int COORDINATE_PRECISION));
       la ← truncate (dmul (y2lat (to_double p)) (double_of_int COORDINATE_PRECISION));
       dx ← isub (lon input_point) lo; dy ← isub (lat input_point) la; Some (dx, dy));
  dx2 ← i32 (dx * dx); dy2 ← i32 (dy * dy); sum ← iadd dx2 dy2;
  truncate (dsqrt (double_of_int sum)).

(** ** Bearings *)

Definition DegreeToRadian (degree : float) : float := fmul degree (fdiv (to_float M_PI) (float_of_int 180)).

Definition RadianToDegree (radian : float) : float := fmul radian (fmul (float_of_int 180) (to_float M_1_PI)).

(** The two loops that bring an angle into the range of [0, 360); they are
    endless for an infinite one. *)
Fixpoint raise_angle (fuel : nat) (result : float) : option float :=
  match fuel with
  | O => None
  | S fuel' => if SFltb result fzero then raise_angle fuel' (fadd result (float_of_int 360)) else Some result
  end.

Fixpoint lower_angle (fuel : nat) (result : float) : option float :=
  match fuel with
  | O => None
  | S fuel' => if SFleb (float_of_int 360) result then lower_angle fuel' (fsub result (float_of_int 360)) else Some result
  end.

(** The static overload of [GetBearing]. *)
Definition GetBearing (fuel : nat) (first_coordinate second_coordinate : FixedPointCoordinate) : option float :=
  let lon_diff := fsub (degrees (lon second_coordinate)) (degrees (lon first_coordinate)) in
  let lon_delta := DegreeToRadian lon_diff in
  let lat1 := to_double (DegreeToRadian (degrees (lat first_coordinate))) in
  let lat2 := to_double (DegreeToRadian (degrees (lat second_coordinate))) in
  let delta := to_double lon_delta in
  let y := to_float (dmul (m_sin math delta) (m_cos math lat2)) in
  let x := to_float (dsub (dmul (m_cos math lat1) (m_sin math lat2)) (dmul (dmul (m_sin math lat1) (m_cos math lat2)) (m_cos math delta))) in
  result ← raise_angle fuel (RadianToDegree (m_atan2f math y x));
  lower_angle fuel result.

(** The overload of [GetBearing] for the coordinate [c]. *)
Definition GetBearing_from (fuel : nat) (c other : FixedPointCoordinate) : option float :=
  let lon_delta := DegreeToRadian (fsub (degrees (lon c)) (degrees (lon other))) in
  let lat1 := DegreeToRadian (degrees (lat other)) in
  let lat2 := DegreeToRadian (degrees (lat c)) in
  let y_value := fmul (m_sinf math lon_delta) (m_cosf math lat2) in
  let x_value := fsub (fmul (m_cosf math lat1) (m_sinf math lat2)) (fmul (fmul (m_sinf math lat1) (m_cosf math lat2)) (m_cosf math lon_delta)) in
  result ← raise_angle fuel (RadianToDegree (m_atan2f math y_value x_value));
  lower_angle fuel result.
End geometry.

(** [osrm::epsilon_compare] on [float]s. *)
Definition epsilon_compare (number1 number2 : float) : bool := SFltb (SFabs (fsub number1 number2)) float_epsilon.

(** A library in which every angle is small. *)
Definition sample_math : c_math :=
  let one := double_of_int 1 in
  MkMath (fun x => x) (fun _ => one) (fun x => x) (fun x => x) (fun x => dadd one x) (fun x => dsub x one) (fun x _ => dmul x x) (fun y _ => y)
    (fun y _ => y) (fun x => x) (fun _ => float_of_int 1).
