(* ===== verification/Trigonometry.v ===== *)
(** * Util/TrigonometryTables.h, Util/compute_angle.cpp, Util/Azimuth.h

    Angles between roads, with a table of arc tangents, and the names of the
    points of the compass. *)

From Stdlib Require Import Floats.SpecFloat Strings.String.
From S2P Require Import Prelude Float32 Text Geometry.

Definition atan_table : list N :=
  [0; 20; 40; 61; 81; 101; 122; 142; 163; 183; 203; 224; 244; 264; 285; 305; 326; 346; 366; 387; 407; 427; 448; 468;
   489; 509; 529; 550; 570; 590; 611; 631; 652; 672; 692; 713; 733; 753; 774; 794; 815; 835; 855; 876; 896; 916; 937; 957;
   978; 998; 1018; 1039; 1059; 1079; 1100; 1120; 1141; 1161; 1181; 1202; 1222; 1242; 1263; 1283; 1303; 1324; 1344; 1365; 1385; 1405; 1426; 1446;
   1466; 1487; 1507; 1528; 1548; 1568; 1589; 1609; 1629; 1650; 1670; 1691; 1711; 1731; 1752; 1772; 1792; 1813; 1833; 1853; 1874; 1894; 1915; 1935;
   1955; 1976; 1996; 2016; 2037; 2057; 2077; 2098; 2118; 2139; 2159; 2179; 2200; 2220; 2240; 2261; 2281; 2301; 2322; 2342; 2363; 2383; 2403; 2424;
   2444; 2464; 2485; 2505; 2525; 2546; 2566; 2586; 2607; 2627; 2648; 2668; 2688; 2709; 2729; 2749; 2770; 2790; 2810; 2831; 2851; 2871; 2892; 2912;
   2933; 2953; 2973; 2994; 3014; 3034; 3055; 3075; 3095; 3116; 3136; 3156; 3177; 3197; 3217; 3238; 3258; 3278; 3299; 3319; 3339; 3360; 3380; 3400;
   3421; 3441; 3462; 3482; 3502; 3523; 3543; 3563; 3584; 3604; 3624; 3645; 3665; 3685; 3706; 3726; 3746; 3767; 3787; 3807; 3828; 3848; 3868; 3889;
   3909; 3929; 3950; 3970; 3990; 4011; 4031; 4051; 4072; 4092; 4112; 4133; 4153; 4173; 4194; 4214; 4234; 4254; 4275; 4295; 4315; 4336; 4356; 4376;
   4397; 4417; 4437; 4458; 4478; 4498; 4519; 4539; 4559; 4580; 4600; 4620; 4641; 4661; 4681; 4701; 4722; 4742; 4762; 4783; 4803; 4823; 4844; 4864;
   4884; 4905; 4925; 4945; 4965; 4986; 5006; 5026; 5047; 5067; 5087; 5108; 5128; 5148; 5169; 5189; 5209; 5229; 5250; 5270; 5290; 5311; 5331; 5351;
   5371; 5392; 5412; 5432; 5453; 5473; 5493; 5513; 5534; 5554; 5574; 5595; 5615; 5635; 5655; 5676; 5696; 5716; 5737; 5757; 5777; 5797; 5818; 5838;
   5858; 5879; 5899; 5919; 5939; 5960; 5980; 6000; 6020; 6041; 6061; 6081; 6102; 6122; 6142; 6162; 6183; 6203; 6223; 6243; 6264; 6284; 6304; 6324;
   6345; 6365; 6385; 6405; 6426; 6446; 6466; 6487; 6507; 6527; 6547; 6568; 6588; 6608; 6628; 6649; 6669; 6689; 6709; 6729; 6750; 6770; 6790; 6810;
   6831; 6851; 6871; 6891; 6912; 6932; 6952; 6972; 6993; 7013; 7033; 7053; 7074; 7094; 7114; 7134; 7154; 7175; 7195; 7215; 7235; 7256; 7276; 7296;
   7316; 7336; 7357; 7377; 7397; 7417; 7438; 7458; 7478; 7498; 7518; 7539; 7559; 7579; 7599; 7619; 7640; 7660; 7680; 7700; 7720; 7741; 7761; 7781;
   7801; 7821; 7842; 7862; 7882; 7902; 7922; 7943; 7963; 7983; 8003; 8023; 8044; 8064; 8084; 8104; 8124; 8145; 8165; 8185; 8205; 8225; 8245; 8266;
   8286; 8306; 8326; 8346; 8366; 8387; 8407; 8427; 8447; 8467; 8487; 8508; 8528; 8548; 8568; 8588; 8608; 8629; 8649; 8669; 8689; 8709; 8729; 8750;
   8770; 8790; 8810; 8830; 8850; 8870; 8891; 8911; 8931; 8951; 8971; 8991; 9011; 9032; 9052; 9072; 9092; 9112; 9132; 9152; 9173; 9193; 9213; 9233;
   9253; 9273; 9293; 9313; 9334; 9354; 9374; 9394; 9414; 9434; 9454; 9474; 9495; 9515; 9535; 9555; 9575; 9595; 9615; 9635; 9655; 9675; 9696; 9716;
   9736; 9756; 9776; 9796; 9816; 9836; 9856; 9876; 9897; 9917; 9937; 9957; 9977; 9997; 10017; 10037; 10057; 10077; 10097; 10117; 10138; 10158; 10178; 10198;
   10218; 10238; 10258; 10278; 10298; 10318; 10338; 10358; 10378; 10398; 10419; 10439; 10459; 10479; 10499; 10519; 10539; 10559; 10579; 10599; 10619; 10639; 10659; 10679;
   10699; 10719; 10739; 10759; 10779; 10799; 10819; 10840; 10860; 10880; 10900; 10920; 10940; 10960; 10980; 11000; 11020; 11040; 11060; 11080; 11100; 11120; 11140; 11160;
   11180; 11200; 11220; 11240; 11260; 11280; 11300; 11320; 11340; 11360; 11380; 11400; 11420; 11440; 11460; 11480; 11500; 11520; 11540; 11560; 11580; 11600; 11620; 11640;
   11660; 11680; 11700; 11720; 11740; 11760; 11780; 11800; 11820; 11840; 11860; 11880; 11900; 11920; 11939; 11959; 11979; 11999; 12019; 12039; 12059; 12079; 12099; 12119;
   12139; 12159; 12179; 12199; 12219; 12239; 12259; 12279; 12299; 12318; 12338; 12358; 12378; 12398; 12418; 12438; 12458; 12478; 12498; 12518; 12538; 12558; 12578; 12597;
   12617; 12637; 12657; 12677; 12697; 12717; 12737; 12757; 12777; 12797; 12816; 12836; 12856; 12876; 12896; 12916; 12936; 12956; 12976; 12995; 13015; 13035; 13055; 13075;
   13095; 13115; 13135; 13155; 13174; 13194; 13214; 13234; 13254; 13274; 13294; 13313; 13333; 13353; 13373; 13393; 13413; 13433; 13452; 13472; 13492; 13512; 13532; 13552;
   13572; 13591; 13611; 13631; 13651; 13671; 13691; 13710; 13730; 13750; 13770; 13790; 13810; 13829; 13849; 13869; 13889; 13909; 13928; 13948; 13968; 13988; 14008; 14027;
   14047; 14067; 14087; 14107; 14127; 14146; 14166; 14186; 14206; 14225; 14245; 14265; 14285; 14305; 14324; 14344; 14364; 14384; 14404; 14423; 14443; 14463; 14483; 14502;
   14522; 14542; 14562; 14581; 14601; 14621; 14641; 14660; 14680; 14700; 14720; 14739; 14759; 14779; 14799; 14818; 14838; 14858; 14878; 14897; 14917; 14937; 14957; 14976;
   14996; 15016; 15035; 15055; 15075; 15095; 15114; 15134; 15154; 15173; 15193; 15213; 15233; 15252; 15272; 15292; 15311; 15331; 15351; 15371; 15390; 15410; 15430; 15449;
   15469; 15489; 15508; 15528; 15548; 15567; 15587; 15607; 15626; 15646; 15666; 15685; 15705; 15725; 15744; 15764; 15784; 15803; 15823; 15843; 15862; 15882; 15902; 15921;
   15941; 15961; 15980; 16000; 16019; 16039; 16059; 16078; 16098; 16118; 16137; 16157; 16176; 16196; 16216; 16235; 16255; 16275; 16294; 16314; 16333; 16353; 16373; 16392;
   16412; 16431; 16451; 16471; 16490; 16510; 16529; 16549; 16568; 16588; 16608; 16627; 16647; 16666; 16686; 16706; 16725; 16745; 16764; 16784; 16803; 16823; 16842; 16862;
   16882; 16901; 16921; 16940; 16960; 16979; 16999; 17018; 17038; 17057; 17077; 17097; 17116; 17136; 17155; 17175; 17194; 17214; 17233; 17253; 17272; 17292; 17311; 17331;
   17350; 17370; 17389; 17409; 17428; 17448; 17467; 17487; 17506; 17526; 17545; 17565; 17584; 17604; 17623; 17643; 17662; 17682; 17701; 17721; 17740; 17760; 17779; 17798;
   17818; 17837; 17857; 17876; 17896; 17915; 17935; 17954; 17974; 17993; 18012; 18032; 18051; 18071; 18090; 18110; 18129; 18149; 18168; 18187; 18207; 18226; 18246; 18265;
   18284; 18304; 18323; 18343; 18362; 18381; 18401; 18420; 18440; 18459; 18478; 18498; 18517; 18537; 18556; 18575; 18595; 18614; 18634; 18653; 18672; 18692; 18711; 18730;
   18750; 18769; 18789; 18808; 18827; 18847; 18866; 18885; 18905; 18924; 18943; 18963; 18982; 19001; 19021; 19040; 19059; 19079; 19098; 19117; 19137; 19156; 19175; 19195;
   19214; 19233; 19253; 19272; 19291; 19311; 19330; 19349; 19368; 19388; 19407; 19426; 19446; 19465; 19484; 19503; 19523; 19542; 19561; 19581; 19600; 19619; 19638; 19658;
   19677; 19696; 19715; 19735; 19754; 19773; 19792; 19812; 19831; 19850; 19869; 19889; 19908; 19927; 19946; 19966; 19985; 20004; 20023; 20043; 20062; 20081; 20100; 20119;
   20139; 20158; 20177; 20196; 20215; 20235; 20254; 20273; 20292; 20311; 20331; 20350; 20369; 20388; 20407; 20427; 20446; 20465; 20484; 20503; 20522; 20542; 20561; 20580;
   20599; 20618; 20637; 20657; 20676; 20695; 20714; 20733; 20752; 20771; 20791; 20810; 20829; 20848; 20867; 20886; 20905; 20924; 20944; 20963; 20982; 21001; 21020; 21039;
   21058; 21077; 21096; 21116; 21135; 21154; 21173; 21192; 21211; 21230; 21249; 21268; 21287; 21306; 21326; 21345; 21364; 21383; 21402; 21421; 21440; 21459; 21478; 21497;
   21516; 21535; 21554; 21573; 21592; 21611; 21630; 21649; 21669; 21688; 21707; 21726; 21745; 21764; 21783; 21802; 21821; 21840; 21859; 21878; 21897; 21916; 21935; 21954;
   21973; 21992; 22011; 22030; 22049; 22068; 22087; 22106; 22125; 22144; 22163; 22182; 22201; 22219; 22238; 22257; 22276; 22295; 22314; 22333; 22352; 22371; 22390; 22409;
   22428; 22447; 22466; 22485; 22504; 22523; 22542; 22560; 22579; 22598; 22617; 22636; 22655; 22674; 22693; 22712; 22731; 22750; 22768; 22787; 22806; 22825; 22844; 22863;
   22882; 22901; 22920; 22938; 22957; 22976; 22995; 23014; 23033; 23052; 23071; 23089; 23108; 23127; 23146; 23165; 23184; 23202; 23221; 23240; 23259; 23278; 23297; 23315;
   23334; 23353; 23372; 23391; 23410; 23428; 23447; 23466; 23485; 23504; 23522; 23541; 23560; 23579; 23598; 23616; 23635; 23654; 23673; 23692; 23710; 23729; 23748; 23767;
   23785; 23804; 23823; 23842; 23860; 23879; 23898; 23917; 23935; 23954; 23973; 23992; 24010; 24029; 24048; 24067; 24085; 24104; 24123; 24141; 24160; 24179; 24198; 24216;
   24235; 24254; 24272; 24291; 24310; 24329; 24347; 24366; 24385; 24403; 24422; 24441; 24459; 24478; 24497; 24515; 24534; 24553; 24571; 24590; 24609; 24627; 24646; 24665;
   24683; 24702; 24721; 24739; 24758; 24776; 24795; 24814; 24832; 24851; 24870; 24888; 24907; 24925; 24944; 24963; 24981; 25000; 25018; 25037; 25056; 25074; 25093; 25111;
   25130; 25149; 25167; 25186; 25204; 25223; 25241; 25260; 25279; 25297; 25316; 25334; 25353; 25371; 25390; 25408; 25427; 25446; 25464; 25483; 25501; 25520; 25538; 25557;
   25575; 25594; 25612; 25631; 25649; 25668; 25686; 25705; 25723; 25742; 25760; 25779; 25797; 25816; 25834; 25853; 25871; 25890; 25908; 25927; 25945; 25964; 25982; 26001;
   26019; 26037; 26056; 26074; 26093; 26111; 26130; 26148; 26167; 26185; 26203; 26222; 26240; 26259; 26277; 26296; 26314; 26332; 26351; 26369; 26388; 26406; 26424; 26443;
   26461; 26480; 26498; 26516; 26535; 26553; 26572; 26590; 26608; 26627; 26645; 26663; 26682; 26700; 26718; 26737; 26755; 26774; 26792; 26810; 26829; 26847; 26865; 26884;
   26902; 26920; 26939; 26957; 26975; 26994; 27012; 27030; 27048; 27067; 27085; 27103; 27122; 27140; 27158; 27177; 27195; 27213; 27231; 27250; 27268; 27286; 27305; 27323;
   27341; 27359; 27378; 27396; 27414; 27432; 27451; 27469; 27487; 27505; 27524; 27542; 27560; 27578; 27597; 27615; 27633; 27651; 27669; 27688; 27706; 27724; 27742; 27760;
   27779; 27797; 27815; 27833; 27851; 27870; 27888; 27906; 27924; 27942; 27961; 27979; 27997; 28015; 28033; 28051; 28070; 28088; 28106; 28124; 28142; 28160; 28178; 28197;
   28215; 28233; 28251; 28269; 28287; 28305; 28323; 28342; 28360; 28378; 28396; 28414; 28432; 28450; 28468; 28486; 28504; 28523; 28541; 28559; 28577; 28595; 28613; 28631;
   28649; 28667; 28685; 28703; 28721; 28739; 28757; 28776; 28794; 28812; 28830; 28848; 28866; 28884; 28902; 28920; 28938; 28956; 28974; 28992; 29010; 29028; 29046; 29064;
   29082; 29100; 29118; 29136; 29154; 29172; 29190; 29208; 29226; 29244; 29262; 29280; 29298; 29316; 29334; 29352; 29370; 29388; 29405; 29423; 29441; 29459; 29477; 29495;
   29513; 29531; 29549; 29567; 29585; 29603; 29621; 29639; 29656; 29674; 29692; 29710; 29728; 29746; 29764; 29782; 29800; 29818; 29835; 29853; 29871; 29889; 29907; 29925;
   29943; 29961; 29978; 29996; 30014; 30032; 30050; 30068; 30085; 30103; 30121; 30139; 30157; 30175; 30192; 30210; 30228; 30246; 30264; 30282; 30299; 30317; 30335; 30353;
   30371; 30388; 30406; 30424; 30442; 30459; 30477; 30495; 30513; 30531; 30548; 30566; 30584; 30602; 30619; 30637; 30655; 30673; 30690; 30708; 30726; 30744; 30761; 30779;
   30797; 30814; 30832; 30850; 30868; 30885; 30903; 30921; 30938; 30956; 30974; 30992; 31009; 31027; 31045; 31062; 31080; 31098; 31115; 31133; 31151; 31168; 31186; 31204;
   31221; 31239; 31257; 31274; 31292; 31310; 31327; 31345; 31362; 31380; 31398; 31415; 31433; 31451; 31468; 31486; 31503; 31521; 31539; 31556; 31574; 31591; 31609; 31627;
   31644; 31662; 31679; 31697; 31714; 31732; 31750; 31767; 31785; 31802; 31820; 31837; 31855; 31873; 31890; 31908; 31925; 31943; 31960; 31978; 31995; 32013; 32030; 32048;
   32065; 32083; 32100; 32118; 32135; 32153; 32170; 32188; 32205; 32223; 32240; 32258; 32275; 32293; 32310; 32328; 32345; 32363; 32380; 32398; 32415; 32432; 32450; 32467;
   32485; 32502; 32520; 32537; 32555; 32572; 32589; 32607; 32624; 32642; 32659; 32676; 32694; 32711; 32729; 32746; 32763; 32781; 32798; 32816; 32833; 32850; 32868; 32885;
   32902; 32920; 32937; 32955; 32972; 32989; 33007; 33024; 33041; 33059; 33076; 33093; 33111; 33128; 33145; 33163; 33180; 33197; 33215; 33232; 33249; 33267; 33284; 33301;
   33318; 33336; 33353; 33370; 33388; 33405; 33422; 33439; 33457; 33474; 33491; 33509; 33526; 33543; 33560; 33578; 33595; 33612; 33629; 33647; 33664; 33681; 33698; 33715;
   33733; 33750; 33767; 33784; 33802; 33819; 33836; 33853; 33870; 33888; 33905; 33922; 33939; 33956; 33974; 33991; 34008; 34025; 34042; 34059; 34077; 34094; 34111; 34128;
   34145; 34162; 34180; 34197; 34214; 34231; 34248; 34265; 34282; 34299; 34317; 34334; 34351; 34368; 34385; 34402; 34419; 34436; 34453; 34471; 34488; 34505; 34522; 34539;
   34556; 34573; 34590; 34607; 34624; 34641; 34658; 34675; 34692; 34710; 34727; 34744; 34761; 34778; 34795; 34812; 34829; 34846; 34863; 34880; 34897; 34914; 34931; 34948;
   34965; 34982; 34999; 35016; 35033; 35050; 35067; 35084; 35101; 35118; 35135; 35152; 35169; 35186; 35203; 35220; 35237; 35254; 35270; 35287; 35304; 35321; 35338; 35355;
   35372; 35389; 35406; 35423; 35440; 35457; 35474; 35491; 35507; 35524; 35541; 35558; 35575; 35592; 35609; 35626; 35643; 35659; 35676; 35693; 35710; 35727; 35744; 35761;
   35777; 35794; 35811; 35828; 35845; 35862; 35879; 35895; 35912; 35929; 35946; 35963; 35980; 35996; 36013; 36030; 36047; 36064; 36080; 36097; 36114; 36131; 36148; 36164;
   36181; 36198; 36215; 36231; 36248; 36265; 36282; 36298; 36315; 36332; 36349; 36365; 36382; 36399; 36416; 36432; 36449; 36466; 36483; 36499; 36516; 36533; 36549; 36566;
   36583; 36600; 36616; 36633; 36650; 36666; 36683; 36700; 36716; 36733; 36750; 36766; 36783; 36800; 36816; 36833; 36850; 36866; 36883; 36900; 36916; 36933; 36950; 36966;
   36983; 37000; 37016; 37033; 37049; 37066; 37083; 37099; 37116; 37132; 37149; 37166; 37182; 37199; 37215; 37232; 37249; 37265; 37282; 37298; 37315; 37331; 37348; 37365;
   37381; 37398; 37414; 37431; 37447; 37464; 37480; 37497; 37513; 37530; 37546; 37563; 37580; 37596; 37613; 37629; 37646; 37662; 37679; 37695; 37712; 37728; 37744; 37761;
   37777; 37794; 37810; 37827; 37843; 37860; 37876; 37893; 37909; 37926; 37942; 37959; 37975; 37991; 38008; 38024; 38041; 38057; 38074; 38090; 38106; 38123; 38139; 38156;
   38172; 38188; 38205; 38221; 38238; 38254; 38270; 38287; 38303; 38319; 38336; 38352; 38369; 38385; 38401; 38418; 38434; 38450; 38467; 38483; 38499; 38516; 38532; 38548;
   38565; 38581; 38597; 38614; 38630; 38646; 38663; 38679; 38695; 38712; 38728; 38744; 38760; 38777; 38793; 38809; 38826; 38842; 38858; 38874; 38891; 38907; 38923; 38939;
   38956; 38972; 38988; 39004; 39021; 39037; 39053; 39069; 39085; 39102; 39118; 39134; 39150; 39167; 39183; 39199; 39215; 39231; 39248; 39264; 39280; 39296; 39312; 39328;
   39345; 39361; 39377; 39393; 39409; 39425; 39442; 39458; 39474; 39490; 39506; 39522; 39538; 39555; 39571; 39587; 39603; 39619; 39635; 39651; 39667; 39684; 39700; 39716;
   39732; 39748; 39764; 39780; 39796; 39812; 39828; 39844; 39861; 39877; 39893; 39909; 39925; 39941; 39957; 39973; 39989; 40005; 40021; 40037; 40053; 40069; 40085; 40101;
   40117; 40133; 40149; 40165; 40181; 40197; 40213; 40229; 40245; 40261; 40277; 40293; 40309; 40325; 40341; 40357; 40373; 40389; 40405; 40421; 40437; 40453; 40469; 40485;
   40501; 40517; 40533; 40549; 40564; 40580; 40596; 40612; 40628; 40644; 40660; 40676; 40692; 40708; 40724; 40739; 40755; 40771; 40787; 40803; 40819; 40835; 40851; 40867;
   40882; 40898; 40914; 40930; 40946; 40962; 40978; 40993; 41009; 41025; 41041; 41057; 41073; 41088; 41104; 41120; 41136; 41152; 41167; 41183; 41199; 41215; 41231; 41246;
   41262; 41278; 41294; 41310; 41325; 41341; 41357; 41373; 41388; 41404; 41420; 41436; 41451; 41467; 41483; 41499; 41514; 41530; 41546; 41562; 41577; 41593; 41609; 41624;
   41640; 41656; 41672; 41687; 41703; 41719; 41734; 41750; 41766; 41781; 41797; 41813; 41828; 41844; 41860; 41875; 41891; 41907; 41922; 41938; 41954; 41969; 41985; 42001;
   42016; 42032; 42048; 42063; 42079; 42094; 42110; 42126; 42141; 42157; 42172; 42188; 42204; 42219; 42235; 42250; 42266; 42282; 42297; 42313; 42328; 42344; 42359; 42375;
   42391; 42406; 42422; 42437; 42453; 42468; 42484; 42499; 42515; 42530; 42546; 42561; 42577; 42592; 42608; 42623; 42639; 42654; 42670; 42685; 42701; 42716; 42732; 42747;
   42763; 42778; 42794; 42809; 42825; 42840; 42856; 42871; 42887; 42902; 42917; 42933; 42948; 42964; 42979; 42995; 43010; 43026; 43041; 43056; 43072; 43087; 43103; 43118;
   43133; 43149; 43164; 43180; 43195; 43210; 43226; 43241; 43256; 43272; 43287; 43303; 43318; 43333; 43349; 43364; 43379; 43395; 43410; 43425; 43441; 43456; 43471; 43487;
   43502; 43517; 43533; 43548; 43563; 43579; 43594; 43609; 43625; 43640; 43655; 43670; 43686; 43701; 43716; 43732; 43747; 43762; 43777; 43793; 43808; 43823; 43838; 43854;
   43869; 43884; 43899; 43915; 43930; 43945; 43960; 43975; 43991; 44006; 44021; 44036; 44052; 44067; 44082; 44097; 44112; 44128; 44143; 44158; 44173; 44188; 44203; 44219;
   44234; 44249; 44264; 44279; 44294; 44310; 44325; 44340; 44355; 44370; 44385; 44400; 44416; 44431; 44446; 44461; 44476; 44491; 44506; 44521; 44536; 44552; 44567; 44582;
   44597; 44612; 44627; 44642; 44657; 44672; 44687; 44702; 44717; 44733; 44748; 44763; 44778; 44793; 44808; 44823; 44838; 44853; 44868; 44883; 44898; 44913; 44928; 44943;
   44958; 44973; 44988; 45003; 45018; 45033; 45048; 45063; 45078; 45093; 45108; 45123; 45138; 45153; 45168; 45183; 45198; 45213; 45228; 45243; 45258; 45273; 45288; 45302;
   45317; 45332; 45347; 45362; 45377; 45392; 45407; 45422; 45437; 45452; 45467; 45482; 45496; 45511; 45526; 45541; 45556; 45571; 45586; 45601; 45615; 45630; 45645; 45660;
   45675; 45690; 45705; 45719; 45734; 45749; 45764; 45779; 45794; 45809; 45823; 45838; 45853; 45868; 45883; 45897; 45912; 45927; 45942; 45957; 45971; 45986; 46001; 46016;
   46031; 46045; 46060; 46075; 46090; 46104; 46119; 46134; 46149; 46163; 46178; 46193; 46208; 46222; 46237; 46252; 46267; 46281; 46296; 46311; 46326; 46340; 46355; 46370;
   46384; 46399; 46414; 46428; 46443; 46458; 46472; 46487; 46502; 46517; 46531; 46546; 46561; 46575; 46590; 46605; 46619; 46634; 46648; 46663; 46678; 46692; 46707; 46722;
   46736; 46751; 46766; 46780; 46795; 46809; 46824; 46839; 46853; 46868; 46882; 46897; 46912; 46926; 46941; 46955; 46970; 46984; 46999; 47014; 47028; 47043; 47057; 47072;
   47086; 47101; 47115; 47130; 47145; 47159; 47174; 47188; 47203; 47217; 47232; 47246; 47261; 47275; 47290; 47304; 47319; 47333; 47348; 47362; 47377; 47391; 47406; 47420;
   47435; 47449; 47464; 47478; 47492; 47507; 47521; 47536; 47550; 47565; 47579; 47594; 47608; 47622; 47637; 47651; 47666; 47680; 47695; 47709; 47723; 47738; 47752; 47767;
   47781; 47795; 47810; 47824; 47838; 47853; 47867; 47882; 47896; 47910; 47925; 47939; 47953; 47968; 47982; 47996; 48011; 48025; 48040; 48054; 48068; 48083; 48097; 48111;
   48125; 48140; 48154; 48168; 48183; 48197; 48211; 48226; 48240; 48254; 48268; 48283; 48297; 48311; 48326; 48340; 48354; 48368; 48383; 48397; 48411; 48425; 48440; 48454;
   48468; 48482; 48497; 48511; 48525; 48539; 48554; 48568; 48582; 48596; 48610; 48625; 48639; 48653; 48667; 48681; 48696; 48710; 48724; 48738; 48752; 48767; 48781; 48795;
   48809; 48823; 48837; 48852; 48866; 48880; 48894; 48908; 48922; 48936; 48951; 48965; 48979; 48993; 49007; 49021; 49035; 49049; 49063; 49078; 49092; 49106; 49120; 49134;
   49148; 49162; 49176; 49190; 49204; 49218; 49233; 49247; 49261; 49275; 49289; 49303; 49317; 49331; 49345; 49359; 49373; 49387; 49401; 49415; 49429; 49443; 49457; 49471;
   49485; 49499; 49513; 49527; 49541; 49555; 49569; 49583; 49597; 49611; 49625; 49639; 49653; 49667; 49681; 49695; 49709; 49723; 49737; 49751; 49765; 49779; 49793; 49807;
   49821; 49835; 49848; 49862; 49876; 49890; 49904; 49918; 49932; 49946; 49960; 49974; 49988; 50002; 50015; 50029; 50043; 50057; 50071; 50085; 50099; 50113; 50126; 50140;
   50154; 50168; 50182; 50196; 50210; 50223; 50237; 50251; 50265; 50279; 50293; 50306; 50320; 50334; 50348; 50362; 50375; 50389; 50403; 50417; 50431; 50445; 50458; 50472;
   50486; 50500; 50513; 50527; 50541; 50555; 50569; 50582; 50596; 50610; 50624; 50637; 50651; 50665; 50679; 50692; 50706; 50720; 50733; 50747; 50761; 50775; 50788; 50802;
   50816; 50829; 50843; 50857; 50871; 50884; 50898; 50912; 50925; 50939; 50953; 50966; 50980; 50994; 51007; 51021; 51035; 51048; 51062; 51076; 51089; 51103; 51117; 51130;
   51144; 51158; 51171; 51185; 51198; 51212; 51226; 51239; 51253; 51266; 51280; 51294; 51307; 51321; 51334; 51348; 51362; 51375; 51389; 51402; 51416; 51429; 51443; 51457;
   51470; 51484; 51497; 51511; 51524; 51538; 51551; 51565; 51579; 51592; 51606; 51619; 51633; 51646; 51660; 51673; 51687; 51700; 51714; 51727; 51741; 51754; 51768; 51781;
   51795; 51808; 51822; 51835; 51849; 51862; 51876; 51889; 51902; 51916; 51929; 51943; 51956; 51970; 51983; 51997; 52010; 52023; 52037; 52050; 52064; 52077; 52091; 52104;
   52117; 52131; 52144; 52158; 52171; 52184; 52198; 52211; 52225; 52238; 52251; 52265; 52278; 52291; 52305; 52318; 52332; 52345; 52358; 52372; 52385; 52398; 52412; 52425;
   52438; 52452; 52465; 52478; 52492; 52505; 52518; 52532; 52545; 52558; 52571; 52585; 52598; 52611; 52625; 52638; 52651; 52665; 52678; 52691; 52704; 52718; 52731; 52744;
   52757; 52771; 52784; 52797; 52810; 52824; 52837; 52850; 52863; 52877; 52890; 52903; 52916; 52930; 52943; 52956; 52969; 52982; 52996; 53009; 53022; 53035; 53048; 53062;
   53075; 53088; 53101; 53114; 53127; 53141; 53154; 53167; 53180; 53193; 53206; 53220; 53233; 53246; 53259; 53272; 53285; 53298; 53312; 53325; 53338; 53351; 53364; 53377;
   53390; 53403; 53417; 53430; 53443; 53456; 53469; 53482; 53495; 53508; 53521; 53534; 53547; 53561; 53574; 53587; 53600; 53613; 53626; 53639; 53652; 53665; 53678; 53691;
   53704; 53717; 53730; 53743; 53756; 53769; 53782; 53795; 53808; 53821; 53834; 53847; 53860; 53873; 53886; 53899; 53912; 53925; 53938; 53951; 53964; 53977; 53990; 54003;
   54016; 54029; 54042; 54055; 54068; 54081; 54094; 54107; 54120; 54133; 54146; 54159; 54172; 54184; 54197; 54210; 54223; 54236; 54249; 54262; 54275; 54288; 54301; 54314;
   54326; 54339; 54352; 54365; 54378; 54391; 54404; 54417; 54430; 54442; 54455; 54468; 54481; 54494; 54507; 54520; 54532; 54545; 54558; 54571; 54584; 54597; 54609; 54622;
   54635; 54648; 54661; 54673; 54686; 54699; 54712; 54725; 54737; 54750; 54763; 54776; 54789; 54801; 54814; 54827; 54840; 54853; 54865; 54878; 54891; 54904; 54916; 54929;
   54942; 54955; 54967; 54980; 54993; 55006; 55018; 55031; 55044; 55056; 55069; 55082; 55095; 55107; 55120; 55133; 55145; 55158; 55171; 55183; 55196; 55209; 55222; 55234;
   55247; 55260; 55272; 55285; 55298; 55310; 55323; 55336; 55348; 55361; 55374; 55386; 55399; 55411; 55424; 55437; 55449; 55462; 55475; 55487; 55500; 55512; 55525; 55538;
   55550; 55563; 55575; 55588; 55601; 55613; 55626; 55638; 55651; 55664; 55676; 55689; 55701; 55714; 55726; 55739; 55752; 55764; 55777; 55789; 55802; 55814; 55827; 55839;
   55852; 55864; 55877; 55889; 55902; 55914; 55927; 55940; 55952; 55965; 55977; 55990; 56002; 56015; 56027; 56039; 56052; 56064; 56077; 56089; 56102; 56114; 56127; 56139;
   56152; 56164; 56177; 56189; 56202; 56214; 56226; 56239; 56251; 56264; 56276; 56289; 56301; 56313; 56326; 56338; 56351; 56363; 56376; 56388; 56400; 56413; 56425; 56438;
   56450; 56462; 56475; 56487; 56499; 56512; 56524; 56537; 56549; 56561; 56574; 56586; 56598; 56611; 56623; 56635; 56648; 56660; 56672; 56685; 56697; 56709; 56722; 56734;
   56746; 56759; 56771; 56783; 56796; 56808; 56820; 56833; 56845; 56857; 56869; 56882; 56894; 56906; 56919; 56931; 56943; 56955; 56968; 56980; 56992; 57004; 57017; 57029;
   57041; 57053; 57066; 57078; 57090; 57102; 57115; 57127; 57139; 57151; 57164; 57176; 57188; 57200; 57212; 57225; 57237; 57249; 57261; 57273; 57286; 57298; 57310; 57322;
   57334; 57347; 57359; 57371; 57383; 57395; 57407; 57420; 57432; 57444; 57456; 57468; 57480; 57492; 57505; 57517; 57529; 57541; 57553; 57565; 57577; 57589; 57602; 57614;
   57626; 57638; 57650; 57662; 57674; 57686; 57698; 57710; 57723; 57735; 57747; 57759; 57771; 57783; 57795; 57807; 57819; 57831; 57843; 57855; 57867; 57879; 57891; 57903;
   57916; 57928; 57940; 57952; 57964; 57976; 57988; 58000; 58012; 58024; 58036; 58048; 58060; 58072; 58084; 58096; 58108; 58120; 58132; 58144; 58156; 58168; 58180; 58192;
   58204; 58216; 58228; 58240; 58251; 58263; 58275; 58287; 58299; 58311; 58323; 58335; 58347; 58359; 58371; 58383; 58395; 58407; 58419; 58431; 58442; 58454; 58466; 58478;
   58490; 58502; 58514; 58526; 58538; 58550; 58561; 58573; 58585; 58597; 58609; 58621; 58633; 58645; 58656; 58668; 58680; 58692; 58704; 58716; 58727; 58739; 58751; 58763;
   58775; 58787; 58799; 58810; 58822; 58834; 58846; 58858; 58869; 58881; 58893; 58905; 58917; 58928; 58940; 58952; 58964; 58976; 58987; 58999; 59011; 59023; 59034; 59046;
   59058; 59070; 59082; 59093; 59105; 59117; 59129; 59140; 59152; 59164; 59175; 59187; 59199; 59211; 59222; 59234; 59246; 59258; 59269; 59281; 59293; 59304; 59316; 59328;
   59339; 59351; 59363; 59375; 59386; 59398; 59410; 59421; 59433; 59445; 59456; 59468; 59480; 59491; 59503; 59515; 59526; 59538; 59550; 59561; 59573; 59584; 59596; 59608;
   59619; 59631; 59643; 59654; 59666; 59677; 59689; 59701; 59712; 59724; 59736; 59747; 59759; 59770; 59782; 59793; 59805; 59817; 59828; 59840; 59851; 59863; 59875; 59886;
   59898; 59909; 59921; 59932; 59944; 59955; 59967; 59978; 59990; 60002; 60013; 60025; 60036; 60048; 60059; 60071; 60082; 60094; 60105; 60117; 60128; 60140; 60151; 60163;
   60174; 60186; 60197; 60209; 60220; 60232; 60243; 60255; 60266; 60278; 60289; 60301; 60312; 60323; 60335; 60346; 60358; 60369; 60381; 60392; 60404; 60415; 60426; 60438;
   60449; 60461; 60472; 60484; 60495; 60506; 60518; 60529; 60541; 60552; 60563; 60575; 60586; 60598; 60609; 60620; 60632; 60643; 60655; 60666; 60677; 60689; 60700; 60711;
   60723; 60734; 60746; 60757; 60768; 60780; 60791; 60802; 60814; 60825; 60836; 60848; 60859; 60870; 60882; 60893; 60904; 60916; 60927; 60938; 60949; 60961; 60972; 60983;
   60995; 61006; 61017; 61029; 61040; 61051; 61062; 61074; 61085; 61096; 61107; 61119; 61130; 61141; 61153; 61164; 61175; 61186; 61198; 61209; 61220; 61231; 61242; 61254;
   61265; 61276; 61287; 61299; 61310; 61321; 61332; 61343; 61355; 61366; 61377; 61388; 61399; 61411; 61422; 61433; 61444; 61455; 61467; 61478; 61489; 61500; 61511; 61522;
   61534; 61545; 61556; 61567; 61578; 61589; 61601; 61612; 61623; 61634; 61645; 61656; 61667; 61679; 61690; 61701; 61712; 61723; 61734; 61745; 61756; 61767; 61779; 61790;
   61801; 61812; 61823; 61834; 61845; 61856; 61867; 61878; 61890; 61901; 61912; 61923; 61934; 61945; 61956; 61967; 61978; 61989; 62000; 62011; 62022; 62033; 62044; 62055;
   62066; 62077; 62088; 62099; 62111; 62122; 62133; 62144; 62155; 62166; 62177; 62188; 62199; 62210; 62221; 62232; 62243; 62254; 62265; 62276; 62287; 62298; 62308; 62319;
   62330; 62341; 62352; 62363; 62374; 62385; 62396; 62407; 62418; 62429; 62440; 62451; 62462; 62473; 62484; 62495; 62506; 62517; 62527; 62538; 62549; 62560; 62571; 62582;
   62593; 62604; 62615; 62626; 62637; 62647; 62658; 62669; 62680; 62691; 62702; 62713; 62724; 62735; 62745; 62756; 62767; 62778; 62789; 62800; 62811; 62821; 62832; 62843;
   62854; 62865; 62876; 62886; 62897; 62908; 62919; 62930; 62941; 62951; 62962; 62973; 62984; 62995; 63005; 63016; 63027; 63038; 63049; 63059; 63070; 63081; 63092; 63103;
   63113; 63124; 63135; 63146; 63156; 63167; 63178; 63189; 63200; 63210; 63221; 63232; 63243; 63253; 63264; 63275; 63286; 63296; 63307; 63318; 63328; 63339; 63350; 63361;
   63371; 63382; 63393; 63403; 63414; 63425; 63436; 63446; 63457; 63468; 63478; 63489; 63500; 63510; 63521; 63532; 63542; 63553; 63564; 63574; 63585; 63596; 63606; 63617;
   63628; 63638; 63649; 63660; 63670; 63681; 63692; 63702; 63713; 63724; 63734; 63745; 63755; 63766; 63777; 63787; 63798; 63809; 63819; 63830; 63840; 63851; 63862; 63872;
   63883; 63893; 63904; 63914; 63925; 63936; 63946; 63957; 63967; 63978; 63988; 63999; 64010; 64020; 64031; 64041; 64052; 64062; 64073; 64083; 64094; 64105; 64115; 64126;
   64136; 64147; 64157; 64168; 64178; 64189; 64199; 64210; 64220; 64231; 64241; 64252; 64262; 64273; 64283; 64294; 64304; 64315; 64325; 64336; 64346; 64357; 64367; 64378;
   64388; 64399; 64409; 64420; 64430; 64440; 64451; 64461; 64472; 64482; 64493; 64503; 64514; 64524; 64534; 64545; 64555; 64566; 64576; 64587; 64597; 64607; 64618; 64628;
   64639; 64649; 64659; 64670; 64680; 64691; 64701; 64711; 64722; 64732; 64743; 64753; 64763; 64774; 64784; 64794; 64805; 64815; 64826; 64836; 64846; 64857; 64867; 64877;
   64888; 64898; 64908; 64919; 64929; 64939; 64950; 64960; 64970; 64981; 64991; 65001; 65012; 65022; 65032; 65043; 65053; 65063; 65074; 65084; 65094; 65104; 65115; 65125;
   65135; 65146; 65156; 65166; 65176; 65187; 65197; 65207; 65217; 65228; 65238; 65248; 65259; 65269; 65279; 65289; 65300; 65310; 65320; 65330; 65340; 65351; 65361; 65371;
   65381; 65392; 65402; 65412; 65422; 65432; 65443; 65453; 65463; 65473; 65484; 65494; 65504; 65514; 65524; 65535]%N.

(** The largest value of the table stands for a quarter of pi. *)
Definition SCALING_FACTOR : double := dmul (ddiv (double_of_int 4) M_PI) (double_of_int 65535).

(** Negative zero and the other cases of [octant], a set of three flags. *)
Definition octant_angle (octant : N) (angle : double) : double :=
  let half := ddiv M_PI (double_of_int 2) in
  let minus_half := ddiv (SFopp M_PI) (double_of_int 2) in
  match octant with
  | 0%N => angle
  | 1%N => dsub M_PI angle
  | 2%N => SFopp angle
  | 3%N => dadd (SFopp M_PI) angle
  | 4%N => dsub half angle
  | 5%N => dadd half angle
  | 6%N => dadd minus_half angle
  | 7%N => dsub minus_half angle
  | _ => angle
  end.

(** An index outside the table is not defined. *)
Definition atan2_lookup (y x : double) : option double :=
  if SFltb (SFabs x) double_epsilon then
    Some (if SFleb dzero y then ddiv M_PI (double_of_int 2) else ddiv (SFopp M_PI) (double_of_int 2))
  else
    let '(octant, x) := if SFltb x dzero then (1%N, SFopp x) else (0%N, x) in
    let '(octant, y) := if SFltb y dzero then (N.lor octant 2, SFopp y) else (octant, y) in
    let t := ddiv y x in
    let '(octant, t) := if SFltb (double_of_int 1) t then (N.lor octant 4, ddiv (double_of_int 1) t) else (octant, t) in
    i ← truncate (dmul t (double_of_int 4095));
    entry ← (if (i <? 0)%Z then None else vget atan_table (Z.to_N i));
    Some (octant_angle octant (ddiv (double_of_int (Z.of_N entry)) SCALING_FACTOR)).

(** The loop that makes the angle positive. *)
Fixpoint positive_angle (fuel : nat) (angle : double) : option double :=
  match fuel with
  | O => None
  | S fuel' => if SFltb angle dzero then positive_angle fuel' (dadd angle (double_of_int 360)) else Some angle
  end.

(** [ComputeAngle::OfThreeFixedPointCoordinates]. *)
Definition OfThreeFixedPointCoordinates (math : c_math) (fuel : nat) (A C B : FixedPointCoordinate) : option double :=
  let mercator z := lat2y math (to_double (degrees z)) in
  ax ← isub (lon A) (lon C);
  bx ← isub (lon B) (lon C);
  let v1x := to_double (degrees ax) in
  let v1y := dsub (mercator (lat A)) (mercator (lat C)) in
  let v2x := to_double (degrees bx) in
  let v2y := dsub (mercator (lat B)) (mercator (lat C)) in
  second ← atan2_lookup v2y v2x;
  first ← atan2_lookup v1y v1x;
  positive_angle fuel (ddiv (dmul (dsub second first) (double_of_int 180)) M_PI).

(** [Azimuth::Get]. The limits are odd multiples of 22.5. *)
Definition Azimuth_Get (heading : double) : str :=
  let limit (k : Z) := ddiv (double_of_int k) (double_of_int 10) in
  let between (a b : Z) := SFltb (limit a) heading && SFleb heading (limit b) in
  if SFleb heading (limit 2025%Z) then
    if SFleb dzero heading && SFleb heading (limit 225%Z) then lit "N"%string
    else if between 225%Z 675%Z then lit "NE"%string
    else if between 675%Z 1125%Z then lit "E"%string
    else if between 1125%Z 1575%Z then lit "SE"%string
    else lit "S"%string
  else if between 2025%Z 2475%Z then lit "SW"%string
  else if between 2475%Z 2925%Z then lit "W"%string
  else if between 2925%Z 3375%Z then lit "NW"%string
  else lit "N"%string.

(** The table has all its entries and increases. *)
Lemma atan_table_increasing : vsize atan_table = 4096%N /\
  forallb (fun p => (fst p <? snd p)%N) (combine atan_table (tail atan_table)) = true.
Proof. vm_compute. split; reflexivity. Qed.
