(* ===== verification/Hilbert.v ===== *)
(** * DataStructures/HilbertValue.cpp

    The position of a coordinate on a Hilbert curve, which the leaves of the
    R-tree are sorted by. Both numbers of a coordinate are transformed bit by
    bit from the highest one on, and then interleaved. *)

From S2P Require Import Prelude Types Float32 Text.

(** The values of [Q] in the loops: the powers of two from 2^31 to 2. *)
Definition hilbert_masks : list N := (fun k => 2 ^ N.of_nat k)%N <$> rev (seq 1 31).

Definition has_bit (x Q : N) : bool := negb (N.land x Q =? 0)%N.

(** The iterations of the inner loop for [i] equal to 0 and 1. *)
Definition exchange_0 (Q : N) (X : N * N) : N * N :=
  let '(X0, X1) := X in
  let P := (Q - 1)%N in
  if has_bit X0 Q then (N.lxor X0 P, X1)
  else let t := N.land (N.lxor X0 X0) P in (N.lxor (N.lxor X0 t) t, X1).

Definition exchange_1 (Q : N) (X : N * N) : N * N :=
  let '(X0, X1) := X in
  let P := (Q - 1)%N in
  if has_bit X1 Q then (N.lxor X0 P, X1)
  else let t := N.land (N.lxor X0 X1) P in (N.lxor X0 t, N.lxor X1 t).

(** The accumulation of [t] in the last loop. *)
Definition gray_mask (X1 : N) : N := foldl (fun t Q => if has_bit X1 Q then N.lxor t (Q - 1) else t) 0%N hilbert_masks.

Definition TransposeCoordinate (X : N * N) : N * N :=
  let '(X0, X1) := foldl (fun X Q => exchange_1 Q (exchange_0 Q X)) X hilbert_masks in
  let X1 := N.lxor X1 X0 in
  let t := gray_mask X1 in
  (N.lxor X0 t, N.lxor X1 t).

Definition u64 (x : N) : N := (x mod 18446744073709551616)%N.

Definition interleave_step (latitude longitude : N) (result index : N) : N :=
  let bit x := N.land (N.shiftr x index) 1 in
  let result := N.lor result (bit latitude) in
  let result := u64 (N.shiftl result 1) in
  let result := N.lor result (bit longitude) in
  if negb (index =? 0)%N then u64 (N.shiftl result 1) else result.

Definition BitInterleaving (latitude longitude : N) : N :=
  foldl (interleave_step latitude longitude) 0%N (N.of_nat <$> rev (seq 0 32)).

(** The sums are [int]s and may overflow. *)
Definition HilbertCode (current_coordinate : FixedPointCoordinate) : option N :=
  la ← iadd (lat current_coordinate) (90 * COORDINATE_PRECISION);
  lo ← iadd (lon current_coordinate) (180 * COORDINATE_PRECISION);
  let '(X0, X1) := TransposeCoordinate (of_int la, of_int lo) in
  Some (BitInterleaving X0 X1).

(** ** Interleaving *)

(** The bits of both numbers from [n + k - 1] down to [k]. *)
Fixpoint interleaved (a b : N) (k n : nat) : N :=
  match n with
  | O => 0%N
  | S n' => (4 * interleaved a b (S k) n' + 2 * N.b2n (N.testbit a (N.of_nat k)) + N.b2n (N.testbit b (N.of_nat k)))%N
  end.

Lemma interleaved_lt a b n : forall k, (interleaved a b k n < 4 ^ N.of_nat n)%N.
Proof.
  induction n as [|n IH]; intros k; [done|]. cbn [interleaved]. specialize (IH (S k)). rewrite Nat2N.inj_succ, N.pow_succ_r'.
  destruct (N.testbit a _), (N.testbit b _); cbn [N.b2n]; lia.
Qed.

Lemma interleaved_inj a b a' b' n : forall k, interleaved a b k n = interleaved a' b' k n ->
  forall i, (k <= i < k + n)%nat -> N.testbit a (N.of_nat i) = N.testbit a' (N.of_nat i) /\ N.testbit b (N.of_nat i) = N.testbit b' (N.of_nat i).
Proof.
  induction n as [|n IH]; intros k Heq i Hi; [lia|]. cbn [interleaved] in Heq.
  assert (interleaved a b (S k) n = interleaved a' b' (S k) n /\ N.testbit a (N.of_nat k) = N.testbit a' (N.of_nat k) /\
    N.testbit b (N.of_nat k) = N.testbit b' (N.of_nat k)) as (H & Ha & Hb).
  { destruct (N.testbit a _), (N.testbit b _), (N.testbit a' _), (N.testbit b' _); cbn [N.b2n] in Heq; repeat split; try reflexivity; lia. }
  destruct (decide (i = k)) as [->|]; [done|]. apply (IH (S k) H). lia.
Qed.

Lemma land_bit x i : N.land (N.shiftr x i) 1 = N.b2n (N.testbit x i).
Proof. change 1%N with (N.ones 1). rewrite N.land_ones, <- N.bit0_mod, N.shiftr_spec' by lia. done. Qed.

Lemma lor_even x b : N.lor (2 * x) (N.b2n b) = (2 * x + N.b2n b)%N.
Proof. by destruct x, b. Qed.

Lemma interleave_steps a b n : forall k, (k + n = 32)%nat ->
  foldl (interleave_step a b) 0%N (N.of_nat <$> rev (seq k n)) = ((if (k =? 0)%nat then 1 else 2) * interleaved a b k n)%N \/ n = 0%nat.
Proof.
  induction n as [|n IH]; intros k Hk; [by right|]. left. cbn [seq rev]. rewrite fmap_app, foldl_app. cbn [foldl fmap list_fmap].
  assert (foldl (interleave_step a b) 0%N (N.of_nat <$> rev (seq (S k) n)) = 2 * interleaved a b (S k) n)%N as ->.
  { destruct (IH (S k) ltac:(lia)) as [->| ->]; [done|]. done. }
  pose proof (interleaved_lt a b n (S k)) as Hlt. assert (4 ^ N.of_nat n <= 4 ^ 31)%N by (apply N.pow_le_mono_r; lia).
  change (4 ^ 31)%N with 4611686018427387904%N in *. unfold interleave_step. rewrite !land_bit, !N.shiftl_mul_pow2. cbn [interleaved].
  set (v := interleaved a b (S k) n) in *. change (2 ^ 1)%N with 2%N. rewrite lor_even.
  assert (N.b2n (N.testbit a (N.of_nat k)) <= 1 /\ N.b2n (N.testbit b (N.of_nat k)) <= 1)%N as [? ?] by (split; destruct (N.testbit _ _); cbn; lia).
  assert (forall x, (x < 18446744073709551616)%N -> u64 x = x) as Hu by (intros x Hx; by apply N.mod_small).
  rewrite (Hu ((2 * v + N.b2n (N.testbit a (N.of_nat k))) * 2)%N) by lia.
  replace ((2 * v + N.b2n (N.testbit a (N.of_nat k))) * 2)%N with (2 * (2 * v + N.b2n (N.testbit a (N.of_nat k))))%N by lia. rewrite lor_even.
  destruct (Nat.eqb_spec k 0) as [->|Hne]; [change (N.of_nat 0 =? 0)%N with true; cbn [negb]; lia|]. rewrite (proj2 (N.eqb_neq _ _)) by lia. cbn [negb].
  assert (4 ^ N.of_nat n <= 4 ^ 30)%N by (apply N.pow_le_mono_r; lia). change (4 ^ 30)%N with 1152921504606846976%N in *. rewrite Hu; lia.
Qed.

Lemma bit_interleaving_eq a b : BitInterleaving a b = interleaved a b 0 32.
Proof. unfold BitInterleaving. destruct (interleave_steps a b 32 0 eq_refl) as [->|]; [cbn [Nat.eqb]; lia|done]. Qed.

Lemma testbit_high x i : (x < 4294967296)%N -> (32 <= i)%N -> N.testbit x i = false.
Proof.
  intros Hx Hi. destruct (N.eq_dec x 0) as [->|Hne]; [apply N.bits_0|]. apply N.bits_above_log2. apply N.log2_lt_pow2; [lia|].
  eapply N.lt_le_trans; [exact Hx|]. change 4294967296%N with (2 ^ 32)%N. apply N.pow_le_mono_r; lia.
Qed.

Lemma bit_interleaving_inj a b a' b' : (a < 4294967296)%N -> (b < 4294967296)%N -> (a' < 4294967296)%N -> (b' < 4294967296)%N ->
  BitInterleaving a b = BitInterleaving a' b' -> a = a' /\ b = b'.
Proof.
  intros Ha Hb Ha' Hb'. rewrite !bit_interleaving_eq. intros Heq. pose proof (interleaved_inj _ _ _ _ _ _ Heq) as H.
  split; apply N.bits_inj; intros i; (destruct (N.lt_ge_cases i 32); [|rewrite !testbit_high by done; done]);
    rewrite <- (N2Nat.id i); apply H; lia.
Qed.

(** ** Transposition *)

Lemma has_bit_testbit x k : has_bit x (2 ^ k) = N.testbit x k.
Proof.
  unfold has_bit. destruct (N.testbit x k) eqn:Hb.
  - apply negb_true_iff, N.eqb_neq. intros H. assert (N.testbit (N.land x (2 ^ k)) k = false) as H' by (rewrite H; apply N.bits_0).
    rewrite N.land_spec, Hb, N.pow2_bits_true in H'. done.
  - apply negb_false_iff, N.eqb_eq, N.bits_inj. intros i. rewrite N.land_spec, N.bits_0, N.pow2_bits_eqb. destruct (N.eqb_spec k i) as [<-|]; [by rewrite Hb|apply andb_false_r].
Qed.

Lemma testbit_mask k i : N.testbit (2 ^ k - 1) i = (i <? k)%N.
Proof.
  replace (2 ^ k - 1)%N with (N.ones k) by (rewrite N.ones_equiv; lia). destruct (N.ltb_spec i k); [by apply N.ones_spec_low|by apply N.ones_spec_high].
Qed.

Lemma exchange_0_involutive k X : exchange_0 (2 ^ k) (exchange_0 (2 ^ k) X) = X.
Proof.
  destruct X as [x y]. unfold exchange_0 at 2. rewrite has_bit_testbit. destruct (N.testbit x k) eqn:Hb; unfold exchange_0; rewrite has_bit_testbit.
  - rewrite N.lxor_spec, testbit_mask, N.ltb_irrefl, Hb. cbn [xorb]. by rewrite N.lxor_assoc, N.lxor_nilpotent, N.lxor_0_r.
  - rewrite N.lxor_nilpotent, N.land_0_l, !N.lxor_0_r, Hb, N.lxor_nilpotent, N.land_0_l, !N.lxor_0_r. done.
Qed.

Lemma exchange_1_involutive k X : exchange_1 (2 ^ k) (exchange_1 (2 ^ k) X) = X.
Proof.
  destruct X as [x y]. unfold exchange_1 at 2. rewrite has_bit_testbit. destruct (N.testbit y k) eqn:Hb; unfold exchange_1; rewrite has_bit_testbit.
  - rewrite Hb. by rewrite N.lxor_assoc, N.lxor_nilpotent, N.lxor_0_r.
  - rewrite N.lxor_spec, N.land_spec, testbit_mask, N.ltb_irrefl, andb_false_r, Hb. cbn [xorb]. set (t := N.land (N.lxor x y) (2 ^ k - 1)).
    assert (N.lxor (N.lxor x t) (N.lxor y t) = N.lxor x y) as ->.
    { apply N.bits_inj. intros i. rewrite !N.lxor_spec. by destruct (N.testbit x i), (N.testbit y i), (N.testbit t i). }
    fold t. by rewrite !N.lxor_assoc, !N.lxor_nilpotent, !N.lxor_0_r.
Qed.

Definition below32 (X : N * N) : Prop := (fst X < 4294967296)%N /\ (snd X < 4294967296)%N.

Lemma bits_below x : (forall i, (32 <= i)%N -> N.testbit x i = false) -> (x < 4294967296)%N.
Proof.
  intros H. destruct (N.eq_dec x 0) as [->|Hne]; [done|]. change 4294967296%N with (2 ^ 32)%N. apply N.log2_lt_pow2; [lia|].
  destruct (N.lt_ge_cases (N.log2 x) 32) as [|Hge]; [done|]. specialize (H _ Hge). rewrite N.bit_log2 in H by done. done.
Qed.

Lemma lxor_below x y : (x < 4294967296)%N -> (y < 4294967296)%N -> (N.lxor x y < 4294967296)%N.
Proof. intros Hx Hy. apply bits_below. intros i Hi. by rewrite N.lxor_spec, !testbit_high. Qed.

Lemma mask_below k : (k <= 31)%N -> (2 ^ k - 1 < 4294967296)%N.
Proof. intros Hk. apply bits_below. intros i Hi. rewrite testbit_mask. apply N.ltb_ge. lia. Qed.

Lemma land_below x y : (y < 4294967296)%N -> (N.land x y < 4294967296)%N.
Proof. intros Hy. apply bits_below. intros i Hi. by rewrite N.land_spec, (testbit_high y), andb_false_r. Qed.

Lemma exchange_below k X : (k <= 31)%N -> below32 X -> below32 (exchange_1 (2 ^ k) (exchange_0 (2 ^ k) X)).
Proof.
  intros Hk. pose proof (mask_below k Hk) as Hm. assert (forall X, below32 X -> below32 (exchange_0 (2 ^ k) X)) as H0.
  { intros [x y] [Hx Hy]. unfold exchange_0. destruct (has_bit _ _); split; cbn in *; repeat apply lxor_below; try apply land_below; done. }
  intros HX%H0. destruct (exchange_0 _ X) as [x y]. destruct HX as [Hx Hy]. unfold exchange_1.
  destruct (has_bit _ _); split; cbn in *; repeat apply lxor_below; try apply land_below; done.
Qed.

(** The exponents of the masks. *)
Lemma masks_exponents : hilbert_masks = (fun k => 2 ^ k)%N <$> (N.of_nat <$> rev (seq 1 31)).
Proof. unfold hilbert_masks. by rewrite <- list_fmap_compose. Qed.

Lemma exchange_all_inj (ks : list N) : forall X Y, foldl (fun X Q => exchange_1 Q (exchange_0 Q X)) X ((fun k => 2 ^ k)%N <$> ks) =
  foldl (fun X Q => exchange_1 Q (exchange_0 Q X)) Y ((fun k => 2 ^ k)%N <$> ks) -> X = Y.
Proof.
  induction ks as [|k ks IH]; intros X Y; cbn [fmap list_fmap foldl]; [done|]. intros H%IH.
  apply (f_equal (exchange_1 (2 ^ k))) in H. rewrite !exchange_1_involutive in H.
  apply (f_equal (exchange_0 (2 ^ k))) in H. by rewrite !exchange_0_involutive in H.
Qed.

Lemma exchange_all_below (ks : list N) : Forall (fun k => k <= 31)%N ks -> forall X, below32 X ->
  below32 (foldl (fun X Q => exchange_1 Q (exchange_0 Q X)) X ((fun k => 2 ^ k)%N <$> ks)).
Proof.
  induction 1 as [|k ks Hk _ IH]; intros X HX; cbn [fmap list_fmap foldl]; [done|]. by apply IH, exchange_below.
Qed.

(** The bits of the mask: the parity of the higher bits. *)
Fixpoint parity_above (x : N) (ks : list N) (i : N) : bool :=
  match ks with
  | [] => false
  | k :: ks' => xorb (N.testbit x k && (i <? k)%N) (parity_above x ks' i)
  end.

Lemma gray_fold_bits x i (ks : list N) : forall t, N.testbit (foldl (fun t Q => if has_bit x Q then N.lxor t (Q - 1) else t) t ((fun k => 2 ^ k)%N <$> ks)) i =
  xorb (N.testbit t i) (parity_above x ks i).
Proof.
  induction ks as [|k ks IH]; intros t; cbn [fmap list_fmap foldl parity_above]; [by rewrite xorb_false_r|].
  rewrite IH, has_bit_testbit. destruct (N.testbit x k); cbn [andb]; [|by rewrite xorb_false_l].
  by rewrite N.lxor_spec, testbit_mask, xorb_assoc.
Qed.

Lemma parity_above_ext x y i (ks : list N) : (forall k, (i < k)%N -> N.testbit x k = N.testbit y k) -> parity_above x ks i = parity_above y ks i.
Proof.
  intros H. induction ks as [|k ks IH]; cbn [parity_above]; [done|]. rewrite IH. f_equal. destruct (N.ltb_spec i k); [by rewrite H|by rewrite !andb_false_r].
Qed.

Lemma gray_mask_bits x i : N.testbit (gray_mask x) i = parity_above x (N.of_nat <$> rev (seq 1 31)) i.
Proof. unfold gray_mask. by rewrite masks_exponents, gray_fold_bits, N.bits_0, xorb_false_l. Qed.

Lemma gray_decode_inj x y : (x < 4294967296)%N -> (y < 4294967296)%N -> N.lxor x (gray_mask x) = N.lxor y (gray_mask y) -> x = y.
Proof.
  intros Hx Hy Heq. assert (forall n i, (32 <= i + N.of_nat n)%N -> N.testbit x i = N.testbit y i) as H.
  { induction n as [|n IH]; intros i Hi; [rewrite !testbit_high by lia; done|].
    assert (N.testbit (N.lxor x (gray_mask x)) i = N.testbit (N.lxor y (gray_mask y)) i) as Hb by (by rewrite Heq).
    rewrite !N.lxor_spec, !gray_mask_bits, (parity_above_ext x y) in Hb by (intros k Hk; apply IH; lia).
    by destruct (N.testbit x i), (N.testbit y i), (parity_above y _ i). }
  apply N.bits_inj. intros i. apply (H 32%nat). lia.
Qed.

Lemma lxor_cancel a b t : N.lxor a t = N.lxor b t -> a = b.
Proof. intros H%(f_equal (fun x => N.lxor x t)). by rewrite !N.lxor_assoc, !N.lxor_nilpotent, !N.lxor_0_r in H. Qed.

Lemma gray_mask_below x : (gray_mask x < 4294967296)%N.
Proof.
  apply bits_below. intros i Hi. rewrite gray_mask_bits. assert (Forall (fun k => k <= 31)%N (N.of_nat <$> rev (seq 1 31))) as HF.
  { apply Forall_forall. intros k (j & -> & Hj)%list_elem_of_fmap. apply list_elem_of_In, in_rev, in_seq in Hj. lia. }
  induction HF as [|k ks Hk _ IH]; cbn [parity_above]; [done|]. rewrite IH, (proj2 (N.ltb_ge i k)), andb_false_r by lia. done.
Qed.

Lemma transpose_below X : below32 X -> below32 (TransposeCoordinate X).
Proof.
  intros HX. unfold TransposeCoordinate. rewrite masks_exponents.
  pose proof (exchange_all_below (N.of_nat <$> rev (seq 1 31))) as Hb. destruct (foldl _ X _) as [a b] eqn:HE. destruct (Hb) with (X := X) as [Ha Hb'].
  { apply Forall_forall. intros k (j & -> & Hj)%list_elem_of_fmap. apply list_elem_of_In, in_rev, in_seq in Hj. lia. }
  { done. }
  rewrite HE in Ha, Hb'. cbn in Ha, Hb'. pose proof (gray_mask_below (N.lxor b a)). split; cbn [fst snd]; repeat apply lxor_below; assumption.
Qed.

Lemma transpose_inj X Y : below32 X -> below32 Y -> TransposeCoordinate X = TransposeCoordinate Y -> X = Y.
Proof.
  intros HX HY. unfold TransposeCoordinate. rewrite !masks_exponents. assert (Forall (fun k => k <= 31)%N (N.of_nat <$> rev (seq 1 31))) as HF.
  { apply Forall_forall. intros k (j & -> & Hj)%list_elem_of_fmap. apply list_elem_of_In, in_rev, in_seq in Hj. lia. }
  pose proof (exchange_all_below _ HF X HX) as [B1 B2]. pose proof (exchange_all_below _ HF Y HY) as [B3 B4].
  pose proof (exchange_all_inj (N.of_nat <$> rev (seq 1 31)) X Y) as Hinj. destruct (foldl _ X _) as [a b], (foldl _ Y _) as [a' b']. cbn in B1, B2, B3, B4.
  intros [= H0 H1]. apply gray_decode_inj in H1; [|by apply lxor_below..]. rewrite H1 in H0. apply lxor_cancel in H0. subst a'. apply lxor_cancel in H1. subst b'.
  by apply Hinj.
Qed.

(** ** Properties *)

(** C37: different coordinates have different positions on the Hilbert curve, and
    a position has 64 bits. *)
Theorem hilbert_code_injective c d x y : HilbertCode c = Some x -> HilbertCode d = Some y -> (x < 18446744073709551616)%N /\ (x = y -> c = d).
Proof.
  assert (forall c x, HilbertCode c = Some x -> exists la lo, iadd (lat c) (90 * COORDINATE_PRECISION) = Some la /\ iadd (lon c) (180 * COORDINATE_PRECISION) = Some lo /\
    x = BitInterleaving (fst (TransposeCoordinate (of_int la, of_int lo))) (snd (TransposeCoordinate (of_int la, of_int lo)))) as Hcode.
  { intros e z. unfold HilbertCode. destruct (iadd (lat e) _) as [la|]; [|done]. cbn [mbind option_bind]. destruct (iadd (lon e) _) as [lo|]; [|done]. cbn [mbind option_bind].
    destruct (TransposeCoordinate _) as [X0 X1] eqn:HT. intros [= <-]. exists la, lo. by rewrite HT. }
  intros (la & lo & [-> Ha]%iadd_inv & [-> Ho]%iadd_inv & ->)%Hcode (la' & lo' & [-> Ha']%iadd_inv & [-> Ho']%iadd_inv & ->)%Hcode.
  assert (forall z, (of_int z < 4294967296)%N) as Hlt by (intros z; unfold of_int; pose proof (Z.mod_pos_bound z 4294967296); lia).
  split; [rewrite bit_interleaving_eq; apply (interleaved_lt _ _ 32 0)|]. intros Heq.
  set (X := (_, _)) in *. set (Y := (of_int (lat d + _), _)) in *. assert (below32 X) as HX by (split; apply Hlt). assert (below32 Y) as HY by (split; apply Hlt).
  apply bit_interleaving_inj in Heq as [H0 H1]; [|apply transpose_below; assumption..].
  assert (TransposeCoordinate X = TransposeCoordinate Y) as HT by (destruct (TransposeCoordinate X), (TransposeCoordinate Y); cbn [fst snd] in *; congruence).
  apply transpose_inj in HT; [|done|done]. unfold X, Y in HT. injection HT as E1%(f_equal to_int) E2%(f_equal to_int).
  rewrite !to_int_of_int in E1, E2 by done. destruct c as [a b], d as [a' b']. cbn [Text.lat Text.lon] in *. f_equal; lia.
Qed.

Lemma hilbert_code_injective_witness : exists x, HilbertCode (MkCoordinate 52520000 13405000) = Some x /\ (x < 18446744073709551616)%N.
Proof.
  eexists. split; [vm_compute; reflexivity|].
  eapply (hilbert_code_injective (MkCoordinate 52520000 13405000) (MkCoordinate 52520000 13405001)); vm_compute; reflexivity.
Defined.
