(* ===== verification/Json.v ===== *)
(** * DataStructures/JSONContainer.h: rendering of JSON values

    The values of the replies, the two visitors that render them and
    [cast::double_fixed_to_string] (Util/cast.hpp); a reader of JSON
    text shows that the rendered text determines the value. *)

From Stdlib Require Import Strings.String.
From S2P Require Import Prelude Text.

(** ** Values *)

#[local] Unset Elimination Schemes.

(** The pairs of an [Object] are in the iteration order of its
    [std::unordered_map]; [D] is [double]. *)
Inductive Value (D : Type) :=
  | JString (value : str)
  | JNumber (value : D)
  | JObject (values : list (str * Value D))
  | JArray (values : list (Value D))
  | JTrue
  | JFalse
  | JNull.
Arguments JString {D}.
Arguments JNumber {D}.
Arguments JObject {D}.
Arguments JArray {D}.
Arguments JTrue {D}.
Arguments JFalse {D}.
Arguments JNull {D}.

Section render.
  Context {D : Type}.

(** [double_fixed_to_string] on the text the generator of Boost.Spirit makes. *)
Definition double_fixed_to_string (karma_real : D -> str) (value : D) : str :=
  let output := karma_real value in
  if (2 <=? vsize output)%N &&
     match vget output (vsize output - 2), vget output (vsize output - 1) with
     | Some a, Some b => (a =? 46)%N && (b =? 48)%N
     | _, _ => false
     end
  then take (length output - 2) output
  else output.

(** [ArrayRenderer]: appends to the vector of characters. *)
Fixpoint ArrayRenderer (karma_real : D -> str) (out : str) (v : Value D) : str :=
  match v with
  | JString value => out ++ [34%N] ++ value ++ [34%N]
  | JNumber value => out ++ double_fixed_to_string karma_real value
  | JObject values =>
      (fix loop (out : str) (l : list (str * Value D)) : str :=
         match l with
         | [] => out
         | (first, second) :: l' =>
             let out1 := out ++ [34%N] ++ first ++ [34%N] ++ [58%N] in
             let out2 := ArrayRenderer karma_real out1 second in
             loop (match l' with [] => out2 | _ => out2 ++ [44%N] end) l'
         end) (out ++ [123%N]) values ++ [125%N]
  | JArray values =>
      (fix loop (out : str) (l : list (Value D)) : str :=
         match l with
         | [] => out
         | x :: l' =>
             let out1 := ArrayRenderer karma_real out x in
             loop (match l' with [] => out1 | _ => out1 ++ [44%N] end) l'
         end) (out ++ [91%N]) values ++ [93%N]
  | JTrue => out ++ lit "true"
  | JFalse => out ++ lit "false"
  | JNull => out ++ lit "null"
  end.

(** [Renderer]: writes to a stream, whose text is [out]; [stream_double] is
    what [operator<<] writes for a [double] with precision 10. *)
Fixpoint Renderer (stream_double : D -> str) (out : str) (v : Value D) : str :=
  match v with
  | JString value => out ++ [34%N] ++ value ++ [34%N]
  | JNumber value => out ++ stream_double value
  | JObject values =>
      (fix loop (out : str) (l : list (str * Value D)) : str :=
         match l with
         | [] => out
         | (first, second) :: l' =>
             let out1 := out ++ [34%N] ++ first ++ [34; 58]%N in
             let out2 := Renderer stream_double out1 second in
             loop (match l' with [] => out2 | _ => out2 ++ [44%N] end) l'
         end) (out ++ [123%N]) values ++ [125%N]
  | JArray values =>
      (fix loop (out : str) (l : list (Value D)) : str :=
         match l with
         | [] => out
         | x :: l' =>
             let out1 := Renderer stream_double out x in
             loop (match l' with [] => out1 | _ => out1 ++ [44%N] end) l'
         end) (out ++ [91%N]) values ++ [93%N]
  | JTrue => out ++ lit "true"
  | JFalse => out ++ lit "false"
  | JNull => out ++ lit "null"
  end.

(** [render(std::vector<char> &, const Object &)]. *)
Definition render (karma_real : D -> str) (out : str) (object : list (str * Value D)) : str :=
  ArrayRenderer karma_real out (JObject object).

(** [render(std::ostream &, const Object &)]. *)
Definition render_stream (stream_double : D -> str) (out : str) (object : list (str * Value D)) : str :=
  Renderer stream_double out (JObject object).

End render.

(** ** Reading JSON text *)

Inductive raw :=
  | RString (text : str)
  | RNumber (text : str)
  | RObject (members : list (str * raw))
  | RArray (elements : list raw)
  | RTrue
  | RFalse
  | RNull.

(** The characters up to the closing quote; an escape is kept as it is. *)
Fixpoint read_string (s : str) : option (str * str) :=
  match s with
  | [] => None
  | c :: s' =>
      if (c =? 34)%N then Some ([], s')
      else if (c =? 92)%N then
        match s' with
        | [] => None
        | d :: s'' => '(x, r) ← read_string s''; Some (c :: d :: x, r)
        end
      else '(x, r) ← read_string s'; Some (c :: x, r)
  end.

Definition number_char (c : N) : bool :=
  ((48 <=? c) && (c <=? 57) || (c =? 45) || (c =? 46))%N.

Fixpoint read_number (s : str) : str * str :=
  match s with
  | [] => ([], [])
  | c :: s' => if number_char c then let '(x, r) := read_number s' in (c :: x, r) else ([], s)
  end.

(** Values, the members of an object after its brace, and the elements of an array. *)
Fixpoint read_value (fuel : nat) (s : str) : option (raw * str) :=
  match fuel with
  | O => None
  | S fuel' =>
      match s with
      | 34%N :: r => '(x, r') ← read_string r; Some (RString x, r')
      | 123%N :: 125%N :: r => Some (RObject [], r)
      | 123%N :: r => '(l, r') ← read_members fuel' r; Some (RObject l, r')
      | 91%N :: 93%N :: r => Some (RArray [], r)
      | 91%N :: r => '(l, r') ← read_elements fuel' r; Some (RArray l, r')
      | 116%N :: 114%N :: 117%N :: 101%N :: r => Some (RTrue, r)
      | 102%N :: 97%N :: 108%N :: 115%N :: 101%N :: r => Some (RFalse, r)
      | 110%N :: 117%N :: 108%N :: 108%N :: r => Some (RNull, r)
      | c :: _ => if number_char c then let '(x, r) := read_number s in Some (RNumber x, r) else None
      | [] => None
      end
  end
with read_members (fuel : nat) (s : str) : option (list (str * raw) * str) :=
  match fuel with
  | O => None
  | S fuel' =>
      match s with
      | 34%N :: r =>
          '(key, r1) ← read_string r;
          match r1 with
          | 58%N :: r2 =>
              '(v, r3) ← read_value fuel' r2;
              match r3 with
              | 44%N :: r4 => '(l, r5) ← read_members fuel' r4; Some ((key, v) :: l, r5)
              | 125%N :: r4 => Some ([(key, v)], r4)
              | _ => None
              end
          | _ => None
          end
      | _ => None
      end
  end
with read_elements (fuel : nat) (s : str) : option (list raw * str) :=
  match fuel with
  | O => None
  | S fuel' =>
      '(v, r1) ← read_value fuel' s;
      match r1 with
      | 44%N :: r2 => '(l, r3) ← read_elements fuel' r2; Some (v :: l, r3)
      | 93%N :: r2 => Some ([v], r2)
      | _ => None
      end
  end.

(** ** The rendered text *)

Section text.
  Context {D : Type} (num : D -> str).

Lemma value_induction (P : Value D -> Prop) :
  (forall s, P (JString s)) -> (forall d, P (JNumber d)) ->
  (forall l, Forall (fun kv => P (kv.2)) l -> P (JObject l)) ->
  (forall l, Forall P l -> P (JArray l)) -> P JTrue -> P JFalse -> P JNull -> forall v, P v.
Proof.
  intros Hs Hd Ho Ha Ht Hf Hn. fix IH 1. intros [s|d|l|l| | |]; [apply Hs|apply Hd| | |apply Ht|apply Hf|apply Hn].
  - apply Ho. induction l as [|[k v] l IHl]; constructor; [apply IH|exact IHl].
  - apply Ha. induction l as [|v l IHl]; constructor; [apply IH|exact IHl].
Qed.

Fixpoint text (v : Value D) : str :=
  match v with
  | JString value => [34%N] ++ value ++ [34%N]
  | JNumber value => num value
  | JObject values =>
      [123%N] ++ (fix members (l : list (str * Value D)) : str :=
        match l with
        | [] => [125%N]
        | (key, x) :: l' =>
            [34%N] ++ key ++ [34; 58]%N ++ text x ++ match l' with [] => [] | _ => [44%N] end ++ members l'
        end) values
  | JArray values =>
      [91%N] ++ (fix elements (l : list (Value D)) : str :=
        match l with
        | [] => [93%N]
        | x :: l' => text x ++ match l' with [] => [] | _ => [44%N] end ++ elements l'
        end) values
  | JTrue => lit "true"
  | JFalse => lit "false"
  | JNull => lit "null"
  end.

Fixpoint members_text (l : list (str * Value D)) : str :=
  match l with
  | [] => [125%N]
  | (key, x) :: l' =>
      [34%N] ++ key ++ [34; 58]%N ++ text x ++ match l' with [] => [] | _ => [44%N] end ++ members_text l'
  end.

Fixpoint elements_text (l : list (Value D)) : str :=
  match l with
  | [] => [93%N]
  | x :: l' => text x ++ match l' with [] => [] | _ => [44%N] end ++ elements_text l'
  end.

Lemma renderer_text out v : Renderer num out v = out ++ text v.
Proof.
  revert out. induction v as [s|d|l IH|l IH| | |] using value_induction; intros out; try done.
  - change (text (JObject l)) with ([123%N] ++ members_text l). cbn [Renderer].
    cut (forall o, (fix loop (out : str) (l : list (str * Value D)) : str :=
         match l with
         | [] => out
         | (first, second) :: l' =>
             let out1 := out ++ [34%N] ++ first ++ [34; 58]%N in
             let out2 := Renderer num out1 second in
             loop (match l' with [] => out2 | _ => out2 ++ [44%N] end) l'
         end) o l ++ [125%N] = o ++ members_text l).
    { intros Hl. by rewrite Hl, <- app_assoc. }
    induction IH as [|[k x] l Hx Hl IHl]; intros o; [done|]. cbn [snd] in Hx. cbn zeta beta iota. rewrite IHl, Hx.
    cbn [members_text]. destruct l as [|kv l]; rewrite <- !app_assoc; done.
  - change (text (JArray l)) with ([91%N] ++ elements_text l). cbn [Renderer].
    cut (forall o, (fix loop (out : str) (l : list (Value D)) : str :=
         match l with
         | [] => out
         | x :: l' =>
             let out1 := Renderer num out x in
             loop (match l' with [] => out1 | _ => out1 ++ [44%N] end) l'
         end) o l ++ [93%N] = o ++ elements_text l).
    { intros Hl. by rewrite Hl, <- app_assoc. }
    induction IH as [|x l Hx Hl IHl]; intros o; [done|]. cbn zeta beta iota. rewrite IHl, Hx.
    cbn [elements_text]. destruct l as [|x' l]; rewrite <- !app_assoc; done.
Qed.
End text.

(** The two visitors write the same text, but for the numbers. *)
Lemma array_renderer_text {D} (karma_real : D -> str) v : forall out,
  ArrayRenderer karma_real out v = Renderer (double_fixed_to_string karma_real) out v.
Proof.
  induction v as [s|d|l IH|l IH| | |] using value_induction; intros out; try done.
  - cbn [ArrayRenderer Renderer]. f_equal. generalize (out ++ [123%N]).
    induction IH as [|[k x] l Hx Hl IHl]; intros o; [done|]. cbn [snd] in Hx. cbn zeta beta iota. rewrite Hx.
    apply IHl.
  - cbn [ArrayRenderer Renderer]. f_equal. generalize (out ++ [91%N]).
    induction IH as [|x l Hx Hl IHl]; intros o; [done|]. cbn zeta beta iota. rewrite Hx. apply IHl.
Qed.

(** ** Reading the rendered text *)

#[local] Set Elimination Schemes.

(** A string that can stand between quotes: no bare quote, and a backslash
    only in front of another character. *)
Inductive clean : str -> Prop :=
  | clean_nil : clean []
  | clean_char c s : c <> 34%N -> c <> 92%N -> clean s -> clean (c :: s)
  | clean_escape c s : clean s -> clean (92%N :: c :: s).

Lemma read_string_clean s rest : clean s -> read_string (s ++ 34%N :: rest) = Some (s, rest).
Proof.
  induction 1 as [|c s H1 H2 Hs IH|c s Hs IH]; [done| |].
  - cbn [app read_string]. apply N.eqb_neq in H1, H2. by rewrite H1, H2, IH.
  - cbn [app read_string]. rewrite IH. done.
Qed.

Definition numeral (s : str) : Prop := s <> [] /\ Forall (fun c => number_char c = true) s.

Definition delimited (s : str) : Prop := match s with [] => True | c :: _ => number_char c = false end.

Lemma read_number_ok s rest : Forall (fun c => number_char c = true) s -> delimited rest ->
  read_number (s ++ rest) = (s, rest).
Proof.
  intros Hs Hr. induction Hs as [|c s Hc Hs IH]; cbn [app read_number].
  - destruct rest as [|c rest]; [done|]. cbn [read_number]. simpl in Hr. by rewrite Hr.
  - by rewrite Hc, IH.
Qed.

Section reading.
  Context {D : Type} (num : D -> str).

Fixpoint well_formed (v : Value D) : Prop :=
  match v with
  | JString s => clean s
  | JNumber d => numeral (num d)
  | JObject l => (fix all (l : list (str * Value D)) : Prop :=
      match l with [] => True | (k, x) :: l' => clean k /\ well_formed x /\ all l' end) l
  | JArray l => (fix all (l : list (Value D)) : Prop :=
      match l with [] => True | x :: l' => well_formed x /\ all l' end) l
  | _ => True
  end.

(** The value with its numbers as text. *)
Fixpoint raw_of (v : Value D) : raw :=
  match v with
  | JString s => RString s
  | JNumber d => RNumber (num d)
  | JObject l => RObject ((fix map (l : list (str * Value D)) : list (str * raw) :=
      match l with [] => [] | (k, x) :: l' => (k, raw_of x) :: map l' end) l)
  | JArray l => RArray ((fix map (l : list (Value D)) : list raw :=
      match l with [] => [] | x :: l' => raw_of x :: map l' end) l)
  | JTrue => RTrue
  | JFalse => RFalse
  | JNull => RNull
  end.

Fixpoint value_size (v : Value D) : nat :=
  match v with
  | JObject l => S ((fix sum (l : list (str * Value D)) : nat :=
      match l with [] => 0 | (_, x) :: l' => S (value_size x + sum l') end) l)
  | JArray l => S ((fix sum (l : list (Value D)) : nat :=
      match l with [] => 0 | x :: l' => S (value_size x + sum l') end) l)
  | _ => 1
  end.

Definition readable (v : Value D) : Prop := forall fuel rest,
  well_formed v -> (value_size v <= fuel)%nat -> delimited rest ->
  read_value fuel (text num v ++ rest) = Some (raw_of v, rest).

Lemma read_members_ok l : Forall (fun kv => readable (kv.2)) l -> forall fuel rest,
  well_formed (JObject l) -> l <> [] -> (value_size (JObject l) <= S fuel)%nat -> delimited rest ->
  exists l', RObject l' = raw_of (JObject l) /\ read_members fuel (members_text num l ++ rest) = Some (l', rest).
Proof.
  induction 1 as [|[k x] l Hx Hl IH]; intros fuel rest Hwf Hne Hsz Hrest; [done|].
  cbn [snd] in Hx. destruct Hwf as (Hk & Hwx & Hwl). destruct fuel as [|fuel]; [cbn in Hsz; lia|].
  cbn [members_text]. rewrite <- !app_assoc. cbn [app read_members].
  rewrite read_string_clean by done. cbn [mbind option_bind].
  destruct l as [|kv l].
  - cbn [app members_text]. rewrite Hx; [|done|cbn in Hsz; lia|done]. cbn [mbind option_bind]. eexists. split; [|done]. done.
  - rewrite (Hx fuel); [|done|cbn in Hsz |- *; lia|done]. cbn [app mbind option_bind].
    destruct (IH fuel rest Hwl) as (l' & Hl' & ->); [done|cbn in Hsz |- *; lia|done|]. cbn [mbind option_bind].
    eexists. split; [|done]. injection Hl' as ->. done.
Qed.

Lemma read_elements_ok l : Forall readable l -> forall fuel rest,
  well_formed (JArray l) -> l <> [] -> (value_size (JArray l) <= S fuel)%nat -> delimited rest ->
  exists l', RArray l' = raw_of (JArray l) /\ read_elements fuel (elements_text num l ++ rest) = Some (l', rest).
Proof.
  induction 1 as [|x l Hx Hl IH]; intros fuel rest Hwf Hne Hsz Hrest; [done|].
  destruct Hwf as (Hwx & Hwl). destruct fuel as [|fuel]; [cbn in Hsz; lia|].
  cbn [elements_text]. rewrite <- !app_assoc. cbn [app read_elements].
  destruct l as [|x' l].
  - cbn [app elements_text]. rewrite Hx; [|done|cbn in Hsz; lia|done]. cbn [mbind option_bind]. eexists. split; [|done]. done.
  - rewrite (Hx fuel); [|done|cbn in Hsz |- *; lia|done]. cbn [app mbind option_bind].
    destruct (IH fuel rest Hwl) as (l' & Hl' & ->); [done|cbn in Hsz |- *; lia|done|]. cbn [mbind option_bind].
    eexists. split; [|done]. injection Hl' as ->. done.
Qed.

Lemma number_char_cases c : number_char c = true -> c ∈ [45; 46; 48; 49; 50; 51; 52; 53; 54; 55; 56; 57]%N.
Proof.
  unfold number_char. rewrite !orb_true_iff, andb_true_iff, !N.leb_le, !N.eqb_eq. intros Hc.
  rewrite !elem_of_cons. lia.
Qed.

(** Text that starts like a number is read as one. *)
Lemma read_value_number fuel c s : number_char c = true ->
  read_value (S fuel) (c :: s) = let '(x, r) := read_number (c :: s) in Some (RNumber x, r).
Proof.
  intros Hc. apply number_char_cases in Hc. repeat (apply elem_of_cons in Hc as [->|Hc]; [done|]). by apply elem_of_nil in Hc.
Qed.

(** The first character of a text. *)
Lemma members_text_head kv l : exists r, members_text num (kv :: l) = 34%N :: r.
Proof. destruct kv as [k x]. eexists. reflexivity. Qed.

Lemma elements_text_head x l : well_formed x -> exists c r, elements_text num (x :: l) = c :: r /\ c <> 93%N.
Proof.
  intros Hx. cbn [elements_text]. destruct x as [s|d|o|a| | |]; try (eexists _, _; split; [reflexivity|done]).
  destruct Hx as [Hne Hall]. cbn [text]. destruct (num d) as [|c s]; [done|]. eexists _, _. split; [reflexivity|].
  intros ->. apply Forall_cons in Hall as [Hc _]. done.
Qed.

Lemma render_readable v : readable v.
Proof.
  induction v as [s|d|l IH|l IH| | |] using value_induction; intros [|fuel] rest Hwf Hsz Hrest; try (cbn in Hsz; lia); try done.
  - cbn [text]. rewrite <- !app_assoc. cbn [app read_value]. rewrite read_string_clean by done. done.
  - destruct Hwf as [Hne Hall]. cbn [text raw_of]. pose proof (read_number_ok (num d) rest Hall Hrest) as Hn.
    destruct (num d) as [|c s]; [done|]. apply Forall_cons in Hall as [Hc _].
    cbn [app] in Hn |- *. rewrite read_value_number by done. by rewrite Hn.
  - change (text num (JObject l)) with ([123%N] ++ members_text num l). destruct l as [|kv l]; [done|].
    destruct (read_members_ok (kv :: l) IH fuel rest Hwf) as (l' & Hl' & Hrun); [done|done|done|].
    destruct (members_text_head kv l) as [r Hr]. rewrite <- app_assoc, Hr in *. cbn [app read_value] in Hrun |- *.
    rewrite Hrun. cbn [mbind option_bind]. by rewrite Hl'.
  - change (text num (JArray l)) with ([91%N] ++ elements_text num l). destruct l as [|x l]; [done|].
    destruct (read_elements_ok (x :: l) IH fuel rest Hwf) as (l' & Hl' & Hrun); [done|done|done|].
    destruct (elements_text_head x l) as (c & r & Hr & Hc); [apply Hwf|]. rewrite <- app_assoc, Hr in *. cbn [app] in Hrun |- *.
    assert (read_value (S fuel) (91%N :: c :: r ++ rest) = '(l, r') ← read_elements fuel (c :: r ++ rest); Some (RArray l, r')) as ->.
    { cbn [read_value]. destruct c as [|p]; [done|]. do 7 (destruct p as [p|p|]; try done). }
    rewrite Hrun. cbn [mbind option_bind]. by rewrite Hl'.
Qed.
End reading.

(** ** Escaped strings *)

Lemma escape_string_concat s : EscapeJSONString s = concat (escape_char <$> s).
Proof.
  unfold EscapeJSONString. rewrite <- (app_nil_l (concat _)). generalize (@nil N).
  induction s as [|c s IH]; intros out; cbn [fold_left fmap list_fmap concat]; [by rewrite app_nil_r|].
  rewrite IH. by rewrite <- app_assoc.
Qed.

(** What a reader of JSON makes of the escapes. *)
Definition unescape_char (c : N) : N :=
  if (c =? 98)%N then 8%N else if (c =? 102)%N then 12%N else if (c =? 110)%N then 10%N
  else if (c =? 114)%N then 13%N else if (c =? 116)%N then 9%N else c.

Fixpoint unescape (s : str) : str :=
  match s with
  | [] => []
  | c :: s' =>
      if (c =? 92)%N then match s' with [] => [] | d :: s'' => unescape_char d :: unescape s'' end
      else c :: unescape s'
  end.

Lemma escape_char_ok c s :
  (clean s -> clean (escape_char c ++ s)) /\ unescape (escape_char c ++ s) = c :: unescape s.
Proof.
  unfold escape_char.
  repeat (case_ltb; [subst; split; [intros Hs; by constructor|done]|]).
  split; [intros Hs; by constructor|]. cbn [app unescape]. case_ltb; done.
Qed.

(** ** Properties *)


(** The two visitors agree: on the same number format the renderer for
    vectors of characters and the renderer for streams append the same text. *)
Theorem json_renderers_agree {D} (karma_real : D -> str) out object :
  render karma_real out object = render_stream (double_fixed_to_string karma_real) out object /\
  render karma_real out object = out ++ render karma_real [] object.
Proof.
  unfold render, render_stream. rewrite array_renderer_text. split; [done|]. by rewrite array_renderer_text, !renderer_text.
Qed.

(** An escaped string can stand between the quotes of a JSON string, and
    a reader of JSON finds the original characters in it. *)
Theorem json_escape_roundtrip s : clean (EscapeJSONString s) /\ unescape (EscapeJSONString s) = s.
Proof.
  rewrite escape_string_concat. induction s as [|c s [IHc IHu]]; [by repeat constructor|]. cbn [fmap list_fmap concat].
  destruct (escape_char_ok c (concat (escape_char <$> s))) as [H1 H2]. split; [by apply H1|].
  change (concat (escape_char c :: list_fmap _ _ escape_char s)) with (escape_char c ++ concat (escape_char <$> s)).
  by rewrite H2, IHu.
Qed.

(** A reply with a nested array; the doubles are the integers, printed with one decimal. *)
Definition sample_real (d : bool) : str := if d then lit "400.0" else lit "-1.5".

Definition sample_reply : Value bool :=
  JObject [(lit "status", JNumber true); (lit "route", JArray [JNumber false; JString (lit "A 5"); JNull]); (lit "hints", JObject [])].

