(* ===== verification/RequestParser.v ===== *)
(** * Server/RequestParser.cpp: the state machine that reads HTTP requests

    The automaton of the parser, character by character, with the request it
    fills in. It accepts exactly the requests of a grammar, and reading a
    request in pieces is the same as reading it at once. *)

From Stdlib Require Import Strings.String.
From S2P Require Import Prelude Text.

(** ** Data *)

Record Header := MkHeader { h_name : str; h_value : str }.

Definition Header_Clear (h : Header) : Header := MkHeader [] [].

(** The address of the client is only logged. *)
Record Request := MkRequest { req_uri : str; req_referrer : str; req_agent : str }.

Definition Request_default : Request := MkRequest [] [] [].

Inductive CompressionType := noCompression | gzipRFC1952 | deflateRFC1951.

Inductive state :=
  | method_start
  | method
  | uri_start
  | uri
  | http_version_h
  | http_version_t_1
  | http_version_t_2
  | http_version_p
  | http_version_slash
  | http_version_major_start
  | http_version_major
  | http_version_minor_start
  | http_version_minor
  | expecting_newline_1
  | header_line_start
  | header_lws
  | header_name
  | space_before_header_value
  | header_value
  | expecting_newline_2
  | expecting_newline_3.

Record RequestParser := MkRequestParser { state_ : state; header : Header }.

Definition RequestParser_make : RequestParser := MkRequestParser method_start (MkHeader [] []).

Definition RequestParser_Reset (p : RequestParser) : RequestParser := MkRequestParser method_start (header p).

(** ** Classes of characters

    A [char] is signed: the bytes from 128 are negative numbers, which are in
    none of the classes. *)

Definition isChar (c : N) : bool := (c <=? 127)%N.

Definition isCTL (c : N) : bool := ((c <=? 31) || (c =? 127))%N.

Definition isTSpecial (c : N) : bool :=
  bool_decide (c ∈ [40; 41; 60; 62; 64; 44; 59; 58; 92; 34; 47; 91; 93; 63; 61; 123; 125; 32; 9]%N).

Definition isDigit (c : N) : bool := ((48 <=? c) && (c <=? 57))%N.

(** [find(needle) != npos]. *)
Definition contains (needle hay : str) : bool :=
  existsb (fun i => bool_decide (take (length needle) (drop i hay) = needle)) (seq 0 (S (length hay))).

(** ** The automaton *)

(** The result is [None] for [indeterminate]. *)
Definition answer : Type := option bool * RequestParser * Request * CompressionType.

Definition token_char (input : N) : bool := negb (negb (isChar input) || isCTL input || isTSpecial input).

(** The headers the parser looks at, when the next line starts. *)
Definition note_header (h : Header) (req : Request) (ct : CompressionType) : Request * CompressionType :=
  let ct1 :=
    if bool_decide (h_name h = lit "Accept-Encoding") then
      let ct0 := if contains (lit "deflate") (h_value h) then deflateRFC1951 else ct in
      if contains (lit "gzip") (h_value h) then gzipRFC1952 else ct0
    else ct in
  let req1 :=
    if bool_decide (lit "Referer" = h_name h) then MkRequest (req_uri req) (h_value h) (req_agent req) else req in
  let req2 :=
    if bool_decide (lit "User-Agent" = h_name h) then MkRequest (req_uri req1) (req_referrer req1) (h_value h) else req1 in
  (req2, ct1).

Definition push_uri (req : Request) (c : N) : Request :=
  MkRequest (req_uri req ++ [c]) (req_referrer req) (req_agent req).

(** The states of the header lines and the end of the request. *)
Definition consume_header (p : RequestParser) (req : Request) (input : N) (ct : CompressionType) : answer :=
  let go s := (None, MkRequestParser s (header p), req, ct) in
  let stay := (None, p, req, ct) in
  let no := (Some false, p, req, ct) in
  match state_ p with
  | header_line_start =>
      let '(req', ct') := note_header (header p) req ct in
      if (input =? 13)%N then (None, MkRequestParser expecting_newline_3 (header p), req', ct')
      else if negb (token_char input) then (Some false, p, req', ct')
      else
        let h := Header_Clear (header p) in
        (None, MkRequestParser header_name (MkHeader (h_name h ++ [input]) (h_value h)), req', ct')
  | header_lws =>
      if (input =? 13)%N then go expecting_newline_2
      else if ((input =? 32) || (input =? 9))%N then stay
      else if isCTL input then no else go header_value
  | header_name =>
      if (input =? 58)%N then go space_before_header_value
      else if negb (token_char input) then no
      else (None, MkRequestParser header_name (MkHeader (h_name (header p) ++ [input]) (h_value (header p))), req, ct)
  | space_before_header_value => if (input =? 32)%N then go header_value else no
  | header_value =>
      if (input =? 13)%N then go expecting_newline_2
      else if isCTL input then no
      else (None, MkRequestParser header_value (MkHeader (h_name (header p)) (h_value (header p) ++ [input])), req, ct)
  | expecting_newline_2 => if (input =? 10)%N then go header_line_start else no
  | _ => (Some (input =? 10)%N, p, req, ct)
  end.

Definition consume (p : RequestParser) (req : Request) (input : N) (ct : CompressionType) : answer :=
  let go s := (None, MkRequestParser s (header p), req, ct) in
  let stay := (None, p, req, ct) in
  let no := (Some false, p, req, ct) in
  match state_ p with
  | method_start => if negb (token_char input) then no else go method
  | method =>
      if (input =? 32)%N then go uri
      else if negb (token_char input) then no else stay
  | uri_start =>
      if isCTL input then no else (None, MkRequestParser uri (header p), push_uri req input, ct)
  | uri =>
      if (input =? 32)%N then go http_version_h
      else if isCTL input then no
      else (None, p, push_uri req input, ct)
  | http_version_h => if (input =? 72)%N then go http_version_t_1 else no
  | http_version_t_1 => if (input =? 84)%N then go http_version_t_2 else no
  | http_version_t_2 => if (input =? 84)%N then go http_version_p else no
  | http_version_p => if (input =? 80)%N then go http_version_slash else no
  | http_version_slash => if (input =? 47)%N then go http_version_major_start else no
  | http_version_major_start => if isDigit input then go http_version_major else no
  | http_version_major =>
      if (input =? 46)%N then go http_version_minor_start
      else if isDigit input then stay else no
  | http_version_minor_start => if isDigit input then go http_version_minor else no
  | http_version_minor =>
      if (input =? 13)%N then go expecting_newline_1
      else if isDigit input then stay else no
  | expecting_newline_1 => if (input =? 10)%N then go header_line_start else no
  | _ => consume_header p req input ct
  end.

(** [Parse]: the answer and the characters left. *)
Fixpoint Parse (p : RequestParser) (req : Request) (ct : CompressionType) (input : str) : answer * str :=
  match input with
  | [] => ((None, p, req, ct), [])
  | c :: rest =>
      let '(result, p', req', ct') := consume p req c ct in
      match result with
      | Some _ => ((result, p', req', ct'), rest)
      | None => Parse p' req' ct' rest
      end
  end.

(** ** The grammar *)

Record http_request := MkHttpRequest {
  r_method : str; r_uri : str; r_major : str; r_minor : str; r_headers : list Header }.

Definition header_line (h : Header) : str := h_name h ++ lit ": " ++ h_value h ++ [13; 10]%N.

Definition headers_text (l : list Header) : str := concat (header_line <$> l) ++ [13; 10]%N.

Definition request_text (r : http_request) : str :=
  r_method r ++ lit " " ++ r_uri r ++ lit " HTTP/" ++ r_major r ++ lit "." ++ r_minor r ++ [13; 10]%N ++
  headers_text (r_headers r).

Definition uri_char (c : N) : bool := negb (c =? 32)%N && negb (isCTL c).

Definition nonempty (ok : N -> bool) (s : str) : Prop := s <> [] /\ Forall (fun c => ok c = true) s.

Definition header_ok (h : Header) : Prop :=
  nonempty token_char (h_name h) /\ Forall (fun c => isCTL c = false) (h_value h).

Definition request_ok (r : http_request) : Prop :=
  nonempty token_char (r_method r) /\ Forall (fun c => uri_char c = true) (r_uri r) /\
  nonempty isDigit (r_major r) /\ nonempty isDigit (r_minor r) /\ Forall header_ok (r_headers r).

(** What the headers contribute to the request, in their order. *)
Fixpoint note_headers (l : list Header) (req : Request) (ct : CompressionType) : Request * CompressionType :=
  match l with
  | [] => (req, ct)
  | h :: l' => let '(req', ct') := note_header h req ct in note_headers l' req' ct'
  end.

(** ** Loops of the automaton *)

Lemma note_empty req ct : note_header (MkHeader [] []) req ct = (req, ct).
Proof. done. Qed.

(** A state that collects characters until [x] comes. *)
Section loop.
  Context (from to : str -> RequestParser * Request) (ct : CompressionType) (x : N) (ok : N -> bool).
  Hypothesis x_not_ok : ok x = false.
  Hypothesis leave : forall a, consume (from a).1 (from a).2 x ct = (None, (to a).1, (to a).2, ct).
  Hypothesis stay : forall a c, ok c = true ->
    consume (from a).1 (from a).2 c ct = (None, (from (a ++ [c])).1, (from (a ++ [c])).2, ct).
  Hypothesis reject : forall a c, c <> x -> ok c = false ->
    exists p req ct', consume (from a).1 (from a).2 c ct = (Some false, p, req, ct').
  #[local] Set Default Proof Using "All".

Lemma loop_accept l : forall a r, Forall (fun c => ok c = true) l ->
  Parse (from a).1 (from a).2 ct (l ++ x :: r) = Parse (to (a ++ l)).1 (to (a ++ l)).2 ct r.
Proof.
  induction l as [|c l IH]; intros a r Hl.
  - rewrite app_nil_r. cbn [app Parse]. by rewrite leave.
  - apply Forall_cons in Hl as [Hc Hl]. cbn [app Parse]. rewrite stay by done. rewrite IH by done.
    by rewrite <- app_assoc.
Qed.

Lemma loop_inv input : forall a p req ct' rest,
  Parse (from a).1 (from a).2 ct input = ((Some true, p, req, ct'), rest) ->
  exists l r, input = l ++ x :: r /\ Forall (fun c => ok c = true) l /\
    Parse (to (a ++ l)).1 (to (a ++ l)).2 ct r = ((Some true, p, req, ct'), rest).
Proof.
  induction input as [|c input IH]; intros a p req ct' rest; [done|]. cbn [Parse].
  destruct (decide (c = x)) as [->|Hne].
  - rewrite leave. intros Hp. exists [], input. rewrite app_nil_r. by split_and!.
  - destruct (ok c) eqn:Hc.
    + rewrite stay by done. intros (l & r & -> & Hl & Hp)%IH. exists (c :: l), r. rewrite <- app_assoc in Hp.
      split_and!; [done|by constructor|done].
    + destruct (reject a c Hne Hc) as (? & ? & ? & ->). done.
Qed.

Lemma loop_iff (a : str) input (ans : Request * CompressionType) rest :
  (exists p, Parse (from a).1 (from a).2 ct input = ((Some true, p, ans.1, ans.2), rest)) <->
  exists l r, input = l ++ x :: r /\ Forall (fun c => ok c = true) l /\
    exists p, Parse (to (a ++ l)).1 (to (a ++ l)).2 ct r = ((Some true, p, ans.1, ans.2), rest).
Proof.
  split.
  - intros [p (l & r & -> & Hl & Hp)%loop_inv]. eauto 10.
  - intros (l & r & -> & Hl & p & Hp). exists p. by rewrite loop_accept.
Qed.
End loop.

Abbreviation at_ s h := (MkRequestParser s h).

Definition accepted (s : state) (h : Header) (req : Request) (ct : CompressionType) (input : str) (a : Request * CompressionType) (rest : str) : Prop :=
  exists p, Parse (at_ s h) req ct input = ((Some true, p, a.1, a.2), rest).

(** A state that waits for one character. *)
Lemma expect_iff s s' h req ct x input ans rest :
  (forall c, consume (at_ s h) req c ct = if (c =? x)%N then (None, at_ s' h, req, ct) else (Some false, at_ s h, req, ct)) ->
  accepted s h req ct input ans rest <-> exists r, input = x :: r /\ accepted s' h req ct r ans rest.
Proof.
  intros Hc. unfold accepted. split.
  - intros [p Hp]. destruct input as [|c input]; [done|]. cbn [Parse] in Hp. rewrite Hc in Hp.
    destruct (N.eqb_spec c x) as [->|]; [|done]. eauto.
  - intros (r & -> & p & Hp). exists p. cbn [Parse]. rewrite Hc, N.eqb_refl. done.
Qed.

(** A state that takes the first character of a nonempty run. *)
Lemma first_iff s s' h req ct (ok : N -> bool) input ans rest :
  (forall c, consume (at_ s h) req c ct = if ok c then (None, at_ s' h, req, ct) else (Some false, at_ s h, req, ct)) ->
  accepted s h req ct input ans rest <-> exists c r, input = c :: r /\ ok c = true /\ accepted s' h req ct r ans rest.
Proof.
  intros Hc. unfold accepted. split.
  - intros [p Hp]. destruct input as [|c input]; [done|]. cbn [Parse] in Hp. rewrite Hc in Hp.
    destruct (ok c) eqn:Hok; [|done]. eauto 10.
  - intros (c & r & -> & Hok & p & Hp). exists p. cbn [Parse]. rewrite Hc, Hok. done.
Qed.

(** *** The request line *)

Lemma method_iff h req ct input ans rest :
  accepted method h req ct input ans rest <->
  exists l r, input = l ++ 32%N :: r /\ Forall (fun c => token_char c = true) l /\ accepted uri h req ct r ans rest.
Proof.
  apply (loop_iff (fun _ : str => (at_ method h, req)) (fun _ : str => (at_ uri h, req)) ct 32 token_char) with (a := []).
  - done.
  - done.
  - intros a c Hc. cbn. destruct (N.eqb_spec c 32) as [->|]; [done|]. by rewrite Hc.
  - intros a c Hne Hc. cbn. apply N.eqb_neq in Hne. rewrite Hne, Hc. eauto.
Qed.

Lemma uri_iff h u ref ag ct input ans rest :
  accepted uri h (MkRequest u ref ag) ct input ans rest <->
  exists l r, input = l ++ 32%N :: r /\ Forall (fun c => uri_char c = true) l /\
    accepted http_version_h h (MkRequest (u ++ l) ref ag) ct r ans rest.
Proof.
  apply (loop_iff (fun a : str => (at_ uri h, MkRequest a ref ag)) (fun a : str => (at_ http_version_h h, MkRequest a ref ag)) ct 32 uri_char)
    with (a := u).
  - done.
  - done.
  - intros a c Hc. unfold uri_char in Hc. cbn. destruct (c =? 32)%N; [done|].
    cbn in Hc. apply negb_true_iff in Hc. by rewrite Hc.
  - intros a c Hne Hc. unfold uri_char in Hc. cbn. apply N.eqb_neq in Hne. rewrite Hne in Hc |- *. cbn in Hc.
    apply negb_false_iff in Hc. rewrite Hc. eauto.
Qed.

Lemma major_iff h req ct input ans rest :
  accepted http_version_major h req ct input ans rest <->
  exists l r, input = l ++ 46%N :: r /\ Forall (fun c => isDigit c = true) l /\
    accepted http_version_minor_start h req ct r ans rest.
Proof.
  apply (loop_iff (fun _ : str => (at_ http_version_major h, req)) (fun _ : str => (at_ http_version_minor_start h, req)) ct 46 isDigit)
    with (a := []); try done.
  - intros a c Hc. cbn. destruct (N.eqb_spec c 46) as [->|]; [done|]. by rewrite Hc.
  - intros a c Hne Hc. cbn. apply N.eqb_neq in Hne. rewrite Hne, Hc. eauto.
Qed.

Lemma minor_iff h req ct input ans rest :
  accepted http_version_minor h req ct input ans rest <->
  exists l r, input = l ++ 13%N :: r /\ Forall (fun c => isDigit c = true) l /\
    accepted expecting_newline_1 h req ct r ans rest.
Proof.
  apply (loop_iff (fun _ : str => (at_ http_version_minor h, req)) (fun _ : str => (at_ expecting_newline_1 h, req)) ct 13 isDigit)
    with (a := []); try done.
  - intros a c Hc. cbn. destruct (N.eqb_spec c 13) as [->|]; [done|]. by rewrite Hc.
  - intros a c Hne Hc. cbn. apply N.eqb_neq in Hne. rewrite Hne, Hc. eauto.
Qed.

(** *** The headers *)

Lemma header_name_iff n v req ct input ans rest :
  accepted header_name (MkHeader n v) req ct input ans rest <->
  exists l r, input = l ++ 58%N :: r /\ Forall (fun c => token_char c = true) l /\
    accepted space_before_header_value (MkHeader (n ++ l) v) req ct r ans rest.
Proof.
  apply (loop_iff (fun a : str => (at_ header_name (MkHeader a v), req))
    (fun a : str => (at_ space_before_header_value (MkHeader a v), req)) ct 58 token_char) with (a := n); try done.
  - intros a c Hc. cbn. destruct (N.eqb_spec c 58) as [->|]; [done|]. by rewrite Hc.
  - intros a c Hne Hc. cbn. apply N.eqb_neq in Hne. rewrite Hne, Hc. eauto.
Qed.

Lemma header_value_iff n v req ct input ans rest :
  accepted header_value (MkHeader n v) req ct input ans rest <->
  exists l r, input = l ++ 13%N :: r /\ Forall (fun c => negb (isCTL c) = true) l /\
    accepted expecting_newline_2 (MkHeader n (v ++ l)) req ct r ans rest.
Proof.
  apply (loop_iff (fun a : str => (at_ header_value (MkHeader n a), req))
    (fun a : str => (at_ expecting_newline_2 (MkHeader n a), req)) ct 13 (fun c => negb (isCTL c))) with (a := v); try done.
  - intros a c Hc. cbn. destruct (N.eqb_spec c 13) as [->|]; [done|]. apply negb_true_iff in Hc. by rewrite Hc.
  - intros a c Hne Hc. cbn. apply N.eqb_neq in Hne. apply negb_false_iff in Hc. rewrite Hne, Hc. eauto.
Qed.

(** The start of a line, where the last header takes effect. *)
Lemma line_start_iff h req ct input ans rest :
  accepted header_line_start h req ct input ans rest <->
  let '(req', ct') := note_header h req ct in
  (ans = (req', ct') /\ input = 13%N :: 10%N :: rest) \/
  exists c r, input = c :: r /\ token_char c = true /\ accepted header_name (MkHeader [c] []) req' ct' r ans rest.
Proof.
  unfold accepted. destruct (note_header h req ct) as [req' ct'] eqn:Hn. split.
  - intros [p Hp]. destruct input as [|c input]; [done|]. cbn [Parse consume consume_header state_ header] in Hp. rewrite Hn in Hp.
    destruct (N.eqb_spec c 13) as [->|Hne].
    + left. destruct input as [|d input]; [done|]. cbn in Hp. injection Hp as Hd _ H1 H2 <-.
      apply N.eqb_eq in Hd as ->. split; [|done]. destruct ans. simpl in *. congruence.
    + destruct (token_char c) eqn:Hc; [|done]. cbn [negb] in Hp. right. eauto 10.
  - intros [[-> ->]|(c & r & -> & Hc & p & Hp)]; cbn [Parse consume consume_header state_ header]; rewrite Hn.
    + eexists. reflexivity.
    + destruct (N.eqb_spec c 13) as [->|Hne]; [done|]. rewrite Hc. by exists p.
Qed.

(** One header line. *)
Lemma header_line_iff c req ct input ans rest :
  accepted header_name (MkHeader [c] []) req ct input ans rest <->
  exists n v r, input = n ++ [58; 32]%N ++ v ++ [13; 10]%N ++ r /\ Forall (fun c => token_char c = true) n /\
    Forall (fun c => isCTL c = false) v /\ accepted header_line_start (MkHeader (c :: n) v) req ct r ans rest.
Proof.
  rewrite header_name_iff. split.
  - intros (n & r & -> & Hn & H). apply (expect_iff _ header_value _ _ _ 32) in H as (r1 & -> & H); [|done].
    apply header_value_iff in H as (v & r2 & -> & Hv & H).
    apply (expect_iff _ header_line_start _ _ _ 10) in H as (r3 & -> & H); [|done].
    exists n, v, r3. split_and!; try done. eapply Forall_impl; [exact Hv|]. intros x. cbn beta. by rewrite negb_true_iff.
  - intros (n & v & r & -> & Hn & Hv & H). exists n, (32%N :: v ++ [13; 10]%N ++ r). split_and!; [done|done|].
    apply (expect_iff _ header_value _ _ _ 32); [done|]. eexists. split; [reflexivity|].
    apply header_value_iff. exists v, (10%N :: r). split_and!; [done| |].
    + eapply Forall_impl; [exact Hv|]. intros x. cbn beta. by rewrite negb_true_iff.
    + apply (expect_iff _ header_line_start _ _ _ 10); [done|]. eauto.
Qed.

Lemma headers_text_cons h l : headers_text (h :: l) = h_name h ++ [58; 32]%N ++ h_value h ++ [13; 10]%N ++ headers_text l.
Proof. unfold headers_text, header_line. cbn [fmap list_fmap concat]. by rewrite <- !app_assoc. Qed.

Lemma note_headers_cons h l req ct :
  note_headers (h :: l) req ct = let '(req', ct') := note_header h req ct in note_headers l req' ct'.
Proof. done. Qed.

Lemma headers_sound n : forall h req ct input ans rest, (length input < n)%nat ->
  accepted header_line_start h req ct input ans rest ->
  exists l, Forall header_ok l /\ input = headers_text l ++ rest /\ ans = note_headers (h :: l) req ct.
Proof.
  induction n as [|n IH]; intros h req ct input ans rest Hlen Ha; [lia|].
  apply line_start_iff in Ha.
  destruct (note_header h req ct) as [req' ct'] eqn:Hn. destruct Ha as [[-> ->]|(c & r & -> & Hc & Ha)].
  - exists []. split; [done|]. split; [done|]. cbn [note_headers]. by rewrite Hn.
  - apply header_line_iff in Ha as (nm & v & r' & -> & Hnm & Hv & Ha).
    apply IH in Ha as (l & Hl & -> & ->).
    + exists (MkHeader (c :: nm) v :: l). split; [constructor; [|done]; split; [|done]; split; [done|by constructor]|].
      rewrite headers_text_cons. split; [by rewrite <- !app_assoc|].
      rewrite (note_headers_cons h), Hn. done.
    + cbn [length] in Hlen. rewrite !length_app in Hlen. lia.
Qed.

Lemma headers_complete l : forall h req ct rest, Forall header_ok l ->
  accepted header_line_start h req ct (headers_text l ++ rest) (note_headers (h :: l) req ct) rest.
Proof.
  induction l as [|[[|c nm] v] l IH]; intros h req ct rest Hl; apply line_start_iff; rewrite note_headers_cons;
    destruct (note_header h req ct) as [req' ct'].
  - by left.
  - by apply Forall_cons in Hl as [[[] _] _].
  - apply Forall_cons in Hl as [[[_ Hnm] Hv] Hl]. apply Forall_cons in Hnm as [Hc Hnm]. right.
    rewrite headers_text_cons, <- !app_assoc. cbn [h_name h_value app] in *. eexists _, _. split; [reflexivity|]. split; [done|].
    apply header_line_iff. exists nm, v, (headers_text l ++ rest). split; [done|]. split; [done|]. split; [done|]. by apply IH.
Qed.

(** *** The request *)

(** A run of characters with its first one. *)
Lemma nonempty_cons ok c l : nonempty ok (c :: l) <-> ok c = true /\ Forall (fun c => ok c = true) l.
Proof. unfold nonempty. rewrite Forall_cons. naive_solver. Qed.

Lemma version_iff h req ct input ans rest :
  accepted http_version_h h req ct input ans rest <->
  exists major minor r, input = lit "HTTP/" ++ major ++ lit "." ++ minor ++ [13; 10]%N ++ r /\
    nonempty isDigit major /\ nonempty isDigit minor /\ accepted header_line_start h req ct r ans rest.
Proof.
  split.
  - intros H.
    apply (expect_iff _ http_version_t_1 _ _ _ 72) in H as (? & -> & H); [|done].
    apply (expect_iff _ http_version_t_2 _ _ _ 84) in H as (? & -> & H); [|done].
    apply (expect_iff _ http_version_p _ _ _ 84) in H as (? & -> & H); [|done].
    apply (expect_iff _ http_version_slash _ _ _ 80) in H as (? & -> & H); [|done].
    apply (expect_iff _ http_version_major_start _ _ _ 47) in H as (? & -> & H); [|done].
    apply (first_iff _ http_version_major _ _ _ isDigit) in H as (a & ? & -> & Ha & H); [|done].
    apply major_iff in H as (l & ? & -> & Hl & H).
    apply (first_iff _ http_version_minor _ _ _ isDigit) in H as (b & ? & -> & Hb & H); [|done].
    apply minor_iff in H as (m & ? & -> & Hm & H).
    apply (expect_iff _ header_line_start _ _ _ 10) in H as (r & -> & H); [|done].
    exists (a :: l), (b :: m), r. rewrite !nonempty_cons. by split_and!.
  - intros ([|a l] & [|b m] & r & -> & H1 & H2 & H); [by destruct H1|by destruct H1|by destruct H2|].
    apply nonempty_cons in H1 as [Ha Hl], H2 as [Hb Hm]. cbn [app lit].
    apply (expect_iff _ http_version_t_1 _ _ _ 72); [done|]. eexists. split; [reflexivity|].
    apply (expect_iff _ http_version_t_2 _ _ _ 84); [done|]. eexists. split; [reflexivity|].
    apply (expect_iff _ http_version_p _ _ _ 84); [done|]. eexists. split; [reflexivity|].
    apply (expect_iff _ http_version_slash _ _ _ 80); [done|]. eexists. split; [reflexivity|].
    apply (expect_iff _ http_version_major_start _ _ _ 47); [done|]. eexists. split; [reflexivity|].
    apply (first_iff _ http_version_major _ _ _ isDigit); [done|]. eexists _, _. split; [reflexivity|]. split; [done|].
    apply major_iff. eexists _, _. split; [reflexivity|]. split; [done|].
    apply (first_iff _ http_version_minor _ _ _ isDigit); [done|]. eexists _, _. split; [reflexivity|]. split; [done|].
    apply minor_iff. eexists _, _. split; [reflexivity|]. split; [done|].
    apply (expect_iff _ header_line_start _ _ _ 10); [done|]. eauto.
Qed.

(** ** Properties *)

(** C33: the parser accepts exactly the requests of the grammar: a method, an
    URI and a version on the first line, and headers of the form name, colon,
    space, value. It stops after the empty line, and the request it has
    filled in holds the URI and the last Referer and User-Agent; the
    compression is that of the last Accept-Encoding header that names one,
    where gzip goes before deflate. *)
Theorem request_parser_grammar input req ct rest :
  (exists p, Parse RequestParser_make Request_default noCompression input = ((Some true, p, req, ct), rest)) <->
  exists r, request_ok r /\ input = request_text r ++ rest /\
    (req, ct) = note_headers (r_headers r) (MkRequest (r_uri r) [] []) noCompression.
Proof.
  change (accepted method_start (MkHeader [] []) Request_default noCompression input (req, ct) rest <-> 
    exists r, request_ok r /\ input = request_text r ++ rest /\
    (req, ct) = note_headers (r_headers r) (MkRequest (r_uri r) [] []) noCompression).
  rewrite (first_iff _ method _ _ _ token_char) by (intros c; cbn; by destruct (token_char c)). split.
  - intros (c & ? & -> & Hc & H). apply method_iff in H as (m & ? & -> & Hm & H).
    apply uri_iff in H as (u & ? & -> & Hu & H). apply version_iff in H as (major & minor & r & -> & H1 & H2 & H).
    apply (headers_sound (S (length r))) in H as (l & Hl & -> & H); [|lia].
    exists (MkHttpRequest (c :: m) u major minor l). split; [unfold request_ok; cbn [r_method r_uri r_major r_minor r_headers]; rewrite nonempty_cons; by split_and!|].
    split; [unfold request_text; cbn [r_method r_uri r_major r_minor r_headers]; by rewrite <- !app_assoc|].
    rewrite note_headers_cons, note_empty in H. exact H.
  - intros ([[|c m] u major minor l] & (H1 & Hu & Hma & Hmi & Hl) & -> & ->);
      cbn [r_method r_uri r_major r_minor r_headers] in *; [by destruct H1|].
    apply nonempty_cons in H1 as [Hc Hm]. unfold request_text. cbn [r_method r_uri r_major r_minor r_headers].
    rewrite <- !app_assoc. eexists _, _. split; [reflexivity|]. split; [done|].
    apply method_iff. eexists _, _. split; [reflexivity|]. split; [done|].
    apply uri_iff. eexists _, _. split; [reflexivity|]. split; [done|].
    apply version_iff. exists major, minor, (headers_text l ++ rest). split; [done|]. split; [done|]. split; [done|].
    pose proof (headers_complete l (MkHeader [] []) (MkRequest u [] []) noCompression rest Hl) as H.
    rewrite note_headers_cons, note_empty in H. exact H.
Qed.

(** A request that arrives in two pieces is parsed as if it had arrived at
    once: if the first piece does not decide, the parser goes on with the
    second one in the state it has reached, and otherwise the second
    piece is left over. *)
Theorem parse_in_pieces p req ct (a b : str) :
  Parse p req ct (a ++ b) =
  let '((result, p', req', ct'), rest) := Parse p req ct a in
  match result with
  | None => Parse p' req' ct' b
  | Some _ => ((result, p', req', ct'), rest ++ b)
  end.
Proof.
  revert p req ct. induction a as [|c a IH]; intros p req ct; [done|]. cbn [app Parse].
  destruct (consume p req c ct) as [[[[r|] p1] req1] ct1]; [done|]. apply IH.
Qed.
