(* ===== verification/RouteParameters.v ===== *)
(** * DataStructures/RouteParameters.cpp: the parameters of a query

    The setters the grammar of the API calls, in the order of the query
    string, and what holds of the parameters after any sequence of them. *)

From Stdlib Require Import Strings.String Floats.SpecFloat.
From S2P Require Import Prelude Float32 Text.

Record RouteParameters := MkRouteParameters {
  zoom_level : Z;
  print_instructions : bool;
  alternate_route : bool;
  geometry : bool;
  compression : bool;
  deprecatedAPI : bool;
  uturn_default : bool;
  check_sum : N;
  num_results : Z;
  service : str;
  output_format : str;
  jsonp_parameter : str;
  language : str;
  hints : list str;
  uturns : list bool;
  coordinates : list FixedPointCoordinate }.

Definition RouteParameters_make : RouteParameters :=
  MkRouteParameters 18 false true true true false false (of_int (-1)) 1 [] [] [] [] [] [] [].

Section setters.
  Implicit Types p : RouteParameters.

Definition setZoomLevel (level : Z) p : RouteParameters :=
  if ((level <=? 18) && (0 <=? level))%Z then
    let 'MkRouteParameters _ a b c d e f g h i j k l m n o := p in MkRouteParameters level a b c d e f g h i j k l m n o
  else p.

Definition setNumberOfResults (number : Z) p : RouteParameters :=
  if ((0 <? number) && (number <=? 100))%Z then
    let 'MkRouteParameters z a b c d e f g _ i j k l m n o := p in MkRouteParameters z a b c d e f g number i j k l m n o
  else p.

Definition setAlternateRouteFlag (flag : bool) p : RouteParameters :=
  let 'MkRouteParameters z a _ c d e f g h i j k l m n o := p in MkRouteParameters z a flag c d e f g h i j k l m n o.

(** [uturns.resize(...)] and, if there is one, [uturns.back() = flag]. *)
Definition set_back {A} (x : A) (l : list A) : list A :=
  match l with [] => [] | _ => vpop l ++ [x] end.

Definition setUTurn (flag : bool) p : RouteParameters :=
  let 'MkRouteParameters z a b c d e f g h i j k l m n o := p in
  MkRouteParameters z a b c d e f g h i j k l m (set_back flag (vresize n (vsize o) f)) o.

Definition setAllUTurns (flag : bool) p : RouteParameters :=
  if flag then
    let 'MkRouteParameters z a b c d e _ g h i j k l m _ o := p in
    MkRouteParameters z a b c d e flag g h i j k l m (vresize [] (vsize o) flag) o
  else p.

Definition setDeprecatedAPIFlag (_ : str) p : RouteParameters :=
  let 'MkRouteParameters z a b c d _ f g h i j k l m n o := p in MkRouteParameters z a b c d true f g h i j k l m n o.

Definition setChecksum (sum : N) p : RouteParameters :=
  let 'MkRouteParameters z a b c d e f _ h i j k l m n o := p in MkRouteParameters z a b c d e f sum h i j k l m n o.

Definition setInstructionFlag (flag : bool) p : RouteParameters :=
  let 'MkRouteParameters z _ b c d e f g h i j k l m n o := p in MkRouteParameters z flag b c d e f g h i j k l m n o.

Definition setService (s : str) p : RouteParameters :=
  let 'MkRouteParameters z a b c d e f g h _ j k l m n o := p in MkRouteParameters z a b c d e f g h s j k l m n o.

Definition setOutputFormat (s : str) p : RouteParameters :=
  let 'MkRouteParameters z a b c d e f g h i _ k l m n o := p in MkRouteParameters z a b c d e f g h i s k l m n o.

Definition setJSONpParameter (s : str) p : RouteParameters :=
  let 'MkRouteParameters z a b c d e f g h i j _ l m n o := p in MkRouteParameters z a b c d e f g h i j s l m n o.

Definition addHint (hint : str) p : RouteParameters :=
  let 'MkRouteParameters z a b c d e f g h i j k l m n o := p in
  MkRouteParameters z a b c d e f g h i j k l (set_back hint (vresize m (vsize o) [])) n o.

Definition setLanguage (s : str) p : RouteParameters :=
  let 'MkRouteParameters z a b c d e f g h i j k _ m n o := p in MkRouteParameters z a b c d e f g h i j k s m n o.

Definition setGeometryFlag (flag : bool) p : RouteParameters :=
  let 'MkRouteParameters z a b _ d e f g h i j k l m n o := p in MkRouteParameters z a b flag d e f g h i j k l m n o.

Definition setCompressionFlag (flag : bool) p : RouteParameters :=
  let 'MkRouteParameters z a b c _ e f g h i j k l m n o := p in MkRouteParameters z a b c flag e f g h i j k l m n o.

(** [static_cast<int>(COORDINATE_PRECISION * x)], undefined out of range. *)
Definition to_fixed_point (x : double) : option Z := truncate (dmul (double_of_int COORDINATE_PRECISION) x).

Definition addCoordinate (x y : double) p : option RouteParameters :=
  lat ← to_fixed_point x;
  lon ← to_fixed_point y;
  let 'MkRouteParameters z a b c d e f g h i j k l m n o := p in
  Some (MkRouteParameters z a b c d e f g h i j k l m n (o ++ [MkCoordinate lat lon])).
End setters.

(** ** Sequences of calls *)

Inductive setter :=
  | SetZoomLevel (level : Z) | SetNumberOfResults (number : Z) | SetAlternateRouteFlag (flag : bool)
  | SetUTurn (flag : bool) | SetAllUTurns (flag : bool) | SetDeprecatedAPIFlag (s : str) | SetChecksum (sum : N)
  | SetInstructionFlag (flag : bool) | SetService (s : str) | SetOutputFormat (s : str) | SetJSONpParameter (s : str)
  | AddHint (hint : str) | SetLanguage (s : str) | SetGeometryFlag (flag : bool) | SetCompressionFlag (flag : bool)
  | AddCoordinate (x y : double).

Definition set (p : RouteParameters) (s : setter) : option RouteParameters :=
  match s with
  | SetZoomLevel x => Some (setZoomLevel x p)
  | SetNumberOfResults x => Some (setNumberOfResults x p)
  | SetAlternateRouteFlag x => Some (setAlternateRouteFlag x p)
  | SetUTurn x => Some (setUTurn x p)
  | SetAllUTurns x => Some (setAllUTurns x p)
  | SetDeprecatedAPIFlag x => Some (setDeprecatedAPIFlag x p)
  | SetChecksum x => Some (setChecksum x p)
  | SetInstructionFlag x => Some (setInstructionFlag x p)
  | SetService x => Some (setService x p)
  | SetOutputFormat x => Some (setOutputFormat x p)
  | SetJSONpParameter x => Some (setJSONpParameter x p)
  | AddHint x => Some (addHint x p)
  | SetLanguage x => Some (setLanguage x p)
  | SetGeometryFlag x => Some (setGeometryFlag x p)
  | SetCompressionFlag x => Some (setCompressionFlag x p)
  | AddCoordinate x y => addCoordinate x y p
  end.

(** The hint given for each coordinate: the last one after it and before the
    next coordinate. *)
Definition note_hint (l : list (option str)) (s : setter) : list (option str) :=
  match s with
  | AddCoordinate _ _ => l ++ [None]
  | AddHint h => set_back (Some h) l
  | _ => l
  end.

Definition hints_given (l : list setter) : list (option str) := fold_left note_hint l [].

Record parameters_ok (p : RouteParameters) : Prop := {
  po_zoom : (0 <= zoom_level p <= 18)%Z;
  po_results : (1 <= num_results p <= 100)%Z;
  po_hints : (vsize (hints p) <= vsize (coordinates p))%N;
  po_uturns : (vsize (uturns p) <= vsize (coordinates p))%N;
  po_coordinates : Forall (fun c => in_i32 (lat c) = true /\ in_i32 (lon c) = true) (coordinates p);
}.

Lemma vsize_vresize {A} (l : list A) n x : vsize (vresize l n x) = n.
Proof. unfold vsize, vresize. rewrite length_app, length_take, length_replicate. lia. Qed.

Lemma vsize_set_back {A} (x : A) l : vsize (set_back x l) = vsize l.
Proof. unfold set_back, vpop, vsize. destruct l; [done|]. rewrite length_app, length_take. simpl. lia. Qed.

Lemma truncate_range f z : truncate f = Some z -> in_i32 z = true.
Proof.
  unfold truncate, i32. destruct f; try done.
  - by intros [= <-].
  - destruct (in_i32 _) eqn:E; [|done]. by intros [= <-].
Qed.

Lemma setter_ok p s p' : parameters_ok p -> set p s = Some p' -> parameters_ok p'.
Proof.
  intros [H1 H2 H3 H4 H5] Hset. destruct p, s; cbn in *; try (injection Hset as <-; by constructor).
  - injection Hset as <-. unfold setZoomLevel. destruct (_ && _)%Z eqn:E; constructor; cbn; try done.
    apply andb_true_iff in E as [?%Z.leb_le ?%Z.leb_le]. lia.
  - injection Hset as <-. unfold setNumberOfResults. destruct (_ && _)%Z eqn:E; constructor; cbn; try done.
    apply andb_true_iff in E as [?%Z.ltb_lt ?%Z.leb_le]. lia.
  - injection Hset as <-. constructor; cbn; try done. rewrite vsize_set_back, vsize_vresize. lia.
  - injection Hset as <-. destruct flag; constructor; cbn; try done. rewrite vsize_vresize. lia.
  - injection Hset as <-. constructor; cbn; try done. rewrite vsize_set_back, vsize_vresize. lia.
  - unfold addCoordinate, to_fixed_point in Hset. destruct (truncate (dmul _ x)) as [a|] eqn:Ea; [|done]. cbn in Hset.
    destruct (truncate (dmul _ y)) as [b|] eqn:Eb; [|done]. cbn in Hset. injection Hset as <-.
    constructor; cbn; try done; unfold vsize in *; rewrite ?length_app; cbn [length]; try lia.
    apply Forall_app. split; [done|]. repeat constructor; cbn; by eapply truncate_range.
Qed.

(** *** Hints *)

Definition hint_at (l : list str) (i : nat) : str := default [] (l !! i).

Lemma lookup_vresize_hint (l : list str) n i : (i < N.to_nat n)%nat -> hint_at (vresize l n []) i = hint_at l i.
Proof.
  intros Hi. unfold hint_at, vresize. destruct (decide (i < length l)%nat) as [Hl|Hl].
  - rewrite lookup_app_l by (rewrite length_take; lia). by rewrite lookup_take_lt by lia.
  - rewrite lookup_app_r by (rewrite length_take; lia). rewrite (lookup_ge_None_2 l) by lia.
    destruct (replicate _ [] !! _) as [x|] eqn:E; [|done]. by apply lookup_replicate in E as [-> _].
Qed.

Lemma lookup_set_back {A} (x : A) l i :
  set_back x l !! i = if decide (S i = length l) then Some x else l !! i.
Proof.
  unfold set_back, vpop. destruct l as [|y l]; [by case_decide|]. cbn [length]. rewrite Nat.sub_succ, Nat.sub_0_r.
  set (k := y :: l). assert (length k = S (length l)) as Hk by done.
  destruct (decide (S i = S (length l))) as [Hi|Hi].
  - injection Hi as ->. rewrite lookup_app_r by (rewrite length_take; lia). rewrite length_take, Hk.
    by replace (length l - length l `min` S (length l))%nat with 0%nat by lia.
  - destruct (decide (i < length l)%nat).
    + rewrite lookup_app_l by (rewrite length_take; lia). by rewrite lookup_take_lt by lia.
    + rewrite (lookup_ge_None_2 (_ ++ _)), (lookup_ge_None_2 k); [done|lia|]. rewrite length_app, length_take. simpl. lia.
Qed.

Definition hints_ok (p : RouteParameters) (given : list (option str)) : Prop :=
  length given = length (coordinates p) /\ forall i, hint_at (hints p) i = default [] (mjoin (given !! i)).

Lemma set_hints p s p' given : (vsize (hints p) <= vsize (coordinates p))%N -> hints_ok p given ->
  set p s = Some p' -> hints_ok p' (note_hint given s).
Proof.
  intros Hle [Hlen Hg] Hset. unfold vsize in Hle.
  assert (hints p' = hints p /\ coordinates p' = coordinates p /\ note_hint given s = given \/
    (exists h, s = AddHint h) \/ exists x y, s = AddCoordinate x y) as [(H1 & H2 & H3)|[[h ->]|(x & y & ->)]].
  { destruct p, s; cbn in *; try (injection Hset as <-; by left); try (right; eauto; fail).
    - injection Hset as <-. unfold setZoomLevel. destruct (_ && _)%Z; by left.
    - injection Hset as <-. unfold setNumberOfResults. destruct (_ && _)%Z; by left.
    - injection Hset as <-. destruct flag; by left. }
  - unfold hints_ok. rewrite H1, H2, H3. done.
  - destruct p. cbn in *. injection Hset as <-. unfold hints_ok. cbn. split.
    + assert (vsize (set_back (Some h) given) = vsize given) as Hs by apply vsize_set_back. unfold vsize in Hs. lia.
    + intros i. rewrite lookup_set_back. unfold hint_at. rewrite lookup_set_back.
      assert (length (vresize hints0 (vsize coordinates0) []) = length coordinates0) as Hr.
      { pose proof (vsize_vresize hints0 (vsize coordinates0) []) as Hv. unfold vsize in *. lia. }
      rewrite Hr, Hlen. case_decide; [done|]. rewrite <- Hg.
      destruct (decide (i < length coordinates0)%nat) as [Hi|Hi].
      * apply lookup_vresize_hint. unfold vsize. lia.
      * unfold hint_at. rewrite !lookup_ge_None_2 by lia. done.
  - unfold set, addCoordinate in Hset. destruct (to_fixed_point x) as [a|]; [|done]. cbn in Hset.
    destruct (to_fixed_point y) as [b|]; [|done]. cbn in Hset. destruct p. cbn in *. injection Hset as <-. split; cbn.
    + rewrite !length_app. simpl. lia.
    + intros i. rewrite Hg. destruct (decide (i < length given)%nat) as [Hi|Hi].
      * by rewrite lookup_app_l.
      * rewrite (lookup_ge_None_2 given) by lia. destruct ((given ++ [None]) !! i) as [z|] eqn:E; [|done].
        rewrite lookup_app_r in E by lia. destruct (i - length given)%nat; [by injection E as <-|done].
Qed.

(** ** Properties *)

(** C35: after any sequence of calls the zoom level is between 0 and 18 and the
    number of results between 1 and 100; the coordinates fit [int]; and there
    are at most as many hints and U-turn flags as coordinates, the hint at the
    place of a coordinate being the last one given after it and before the
    next one, or empty. *)
Theorem route_parameters_invariant (calls : list setter) p :
  fold_m set RouteParameters_make calls = Some p ->
  parameters_ok p /\ hints_ok p (hints_given calls).
Proof.
  unfold hints_given. assert (forall q given, parameters_ok q -> hints_ok q given -> fold_m set q calls = Some p ->
    parameters_ok p /\ hints_ok p (fold_left note_hint calls given)) as Hgen.
  { induction calls as [|s calls IH]; intros q given Hq Hg; cbn [fold_m fold_left]; [by intros [= <-]|].
    destruct (set q s) as [q'|] eqn:E; [|done]. cbn [mbind option_bind]. apply IH.
    - by eapply setter_ok.
    - eapply set_hints; [apply Hq|done|done]. }
  apply Hgen; [|done]. constructor; done.
Qed.

(** Two coordinates, the second one with a hint, and a zoom level that is out of range. *)
Definition sample_calls : list setter :=
  [SetZoomLevel 25; AddCoordinate (double_of_int 52) (double_of_int 13);
   AddCoordinate (double_of_int 53) (double_of_int 10); AddHint (lit "abc"); SetNumberOfResults 0].

Lemma route_parameters_invariant_witness : exists p, fold_m set RouteParameters_make sample_calls = Some p /\
  hints p = [[]; lit "abc"] /\ coordinates p = [MkCoordinate 52000000 13000000; MkCoordinate 53000000 10000000] /\
  zoom_level p = 18%Z /\ parameters_ok p /\ hints_ok p (hints_given sample_calls).
Proof.
  eexists. split; [vm_compute; reflexivity|]. split; [reflexivity|]. split; [reflexivity|]. split; [reflexivity|].
  apply (route_parameters_invariant sample_calls). vm_compute. reflexivity.
Defined.
