(* ===== verification/Server.v ===== *)
(** * Server: replies, the request handler and the connection

    Server/Http/Reply.cpp, Library/OSRM_impl.cpp (the dispatch to the
    plugins), Server/RequestHandler.cpp and Server/Connection.cpp: from the
    bytes that arrive to the buffers that are sent. *)

From Stdlib Require Import Strings.String Floats.SpecFloat.
From S2P Require Import Prelude Float32 Text Json RequestParser RouteParameters.

(** ** Reply *)

Inductive status_type := ok | badRequest | internalServerError.

Record Reply := MkReply { status : status_type; headers : list Header; content : str }.

Definition Reply_default : Reply := MkReply ok [] [].

Definition quoted (s : string) : str := [34%N] ++ lit s ++ [34%N].

Definition okHTML : str := [].
Definition badRequestHTML : str :=
  lit "{" ++ quoted "status" ++ lit ": 400," ++ quoted "status_message" ++ lit ":" ++ quoted "Bad Request" ++ lit "}".
Definition internalServerErrorHTML : str :=
  lit "{" ++ quoted "status" ++ lit ": 500," ++ quoted "status_message" ++ lit ":" ++ quoted "Internal Server Error" ++ lit "}".
Definition seperators : str := [58; 32]%N.
Definition crlf : str := [13; 10]%N.
Definition okString : str := lit "HTTP/1.0 200 OK" ++ crlf.
Definition badRequestString : str := lit "HTTP/1.0 400 Bad Request" ++ crlf.
Definition internalServerErrorString : str := lit "HTTP/1.0 500 Internal Server Error" ++ crlf.

Definition Reply_ToString (s : status_type) : str :=
  match s with ok => okHTML | badRequest => badRequestHTML | _ => internalServerErrorHTML end.

Definition Reply_ToBuffer (s : status_type) : str :=
  match s with ok => okString | internalServerError => internalServerErrorString | _ => badRequestString end.

Definition content_length : str := lit "Content-Length".

Section server.
  (** [cast::integral_to_string], by Boost.Spirit. *)
  Context (integral_to_string : N -> str).

Definition SetSize (size : N) (r : Reply) : Reply :=
  MkReply (status r)
    ((fun h => if bool_decide (content_length = h_name h) then MkHeader (h_name h) (integral_to_string size) else h) <$> headers r)
    (content r).

Definition SetUncompressedSize (r : Reply) : Reply := SetSize (u32 (vsize (content r))) r.

Definition header_buffers (h : Header) : list str := [h_name h; seperators; h_value h; crlf].

Definition ToBuffers (r : Reply) : list str :=
  [Reply_ToBuffer (status r)] ++ concat (header_buffers <$> headers r) ++ [crlf] ++ [content r].

Definition HeaderstoBuffers (r : Reply) : list str :=
  [Reply_ToBuffer (status r)] ++ concat (header_buffers <$> headers r) ++ [crlf].

Definition StockReply (s : status_type) : Reply :=
  let c := Reply_ToString s in
  MkReply s [MkHeader (lit "Access-Control-Allow-Origin") (lit "*");
             MkHeader content_length (integral_to_string (vsize c));
             MkHeader (lit "Content-Type") (lit "text/html")] c.

(** ** OSRM_impl: the plugins *)

(** Plugins are pointers; [deleted] holds those that were freed.
    [number_of_queries] is the counter of the shared memory barriers, if they
    are used. *)
Record OSRM_impl := MkOSRM { plugin_map : gmap str N; deleted : gset N; number_of_queries : option Z }.

Definition RegisterPlugin (descriptor : str) (plugin : N) (o : OSRM_impl) : OSRM_impl :=
  let deleted' := match plugin_map o !! descriptor with Some p => {[ p ]} ∪ deleted o | None => deleted o end in
  let map' := match plugin_map o !! descriptor with Some _ => plugin_map o | None => <[descriptor := plugin]> (plugin_map o) end in
  MkOSRM map' deleted' (number_of_queries o).

Inductive outcome := Returned (r : Reply) | Thrown | Undefined.

  (** [HandleRequest] of the plugins; [None] is an exception. *)
  Context (HandleRequest : N -> RouteParameters -> Reply -> option Reply).

Definition with_queries (o : OSRM_impl) (q : option Z) : OSRM_impl := MkOSRM (plugin_map o) (deleted o) q.

(** [RunQuery]. An exception of the plugin leaves the function between the two
    changes of the counter. *)
Definition RunQuery (o : OSRM_impl) (p : RouteParameters) (reply : Reply) : outcome * OSRM_impl :=
  match plugin_map o !! service p with
  | Some plugin =>
      let reply1 := MkReply ok (headers reply) (content reply) in
      let o1 := with_queries o (Z.succ <$> number_of_queries o) in
      if decide (plugin ∈ deleted o) then (Undefined, o1)
      else
        match HandleRequest plugin p reply1 with
        | Some reply2 => (Returned reply2, with_queries o1 (Z.pred <$> number_of_queries o1))
        | None => (Thrown, o1)
        end
  | None => (Returned (StockReply badRequest), o)
  end.

(** ** RequestHandler *)

  (** The grammar of the API, parsed by Boost.Spirit: the result, the number of
      characters consumed, and the parameters. *)
  Context (api_parse : str -> bool * N * RouteParameters).
  (** The text of a [double], and the order in which a JSON object is iterated. *)
  Context (karma_real : double -> str) (iteration : list (str * Value double) -> list (str * Value double)).

Definition emplace_header (name value : str) (r : Reply) : Reply :=
  MkReply (status r) (headers r ++ [MkHeader name value]) (content r).

Definition set_content (c : str) (r : Reply) : Reply := MkReply (status r) (headers r) c.

Definition disposition (kind name : string) : str := lit kind ++ lit "; filename=" ++ quoted name.

(** The headers by the output format. *)
Definition format_headers (p : RouteParameters) (r : Reply) : Reply :=
  let typed t d r := emplace_header (lit "Content-Disposition") d (emplace_header (lit "Content-Type") (lit t) r) in
  if bool_decide (lit "kml" = output_format p) then
    typed "application/json; charset=UTF-8"%string (disposition "inline" "kml.json") r
  else if bool_decide (lit "plain" = output_format p) then
    typed "application/json; charset=UTF-8"%string (disposition "inline" "route.json") r
  else if bool_decide (lit "gpx" = output_format p) then
    typed "application/gpx+xml; charset=UTF-8"%string (disposition "attachment" "route.gpx") r
  else if bool_decide (jsonp_parameter p = []) then
    typed "application/json; charset=UTF-8"%string (disposition "inline" "response.json") r
  else
    typed "text/javascript; charset=UTF-8"%string (disposition "inline" "response.js") r.

Definition malformed_reply (position : N) : Reply :=
  let reply := set_content [] (StockReply badRequest) in
  let message := lit "Query string malformed close to position " ++ integral_to_string position in
  set_content (render karma_real (content reply)
    (iteration [(lit "status", JNumber (double_of_int 400)); (lit "status_message", JString message)])) reply.

Definition handle_request (o : OSRM_impl) (req : Request) (reply : Reply) : outcome * OSRM_impl :=
  let request := URIDecode (req_uri req) in
  let '(result, consumed, p) := api_parse request in
  if negb result || negb (consumed =? vsize request)%N then (Returned (malformed_reply consumed), o)
  else
    let jsonp := negb (bool_decide (jsonp_parameter p = [])) in
    let reply1 := if jsonp then set_content (content reply ++ jsonp_parameter p ++ lit "(") reply else reply in
    match RunQuery o p reply1 with
    | (Returned reply2, o') =>
        let reply3 := if jsonp then set_content (content reply2 ++ lit ")") reply2 else reply2 in
        let reply4 := emplace_header content_length (integral_to_string (vsize (content reply3))) reply3 in
        (Returned (format_headers p reply4), o')
    | (Thrown, o') => (Returned (StockReply internalServerError), o')
    | (Undefined, o') => (Undefined, o')
    end.

(** ** Connection *)

  (** [CompressBufferCollection], by Boost.Iostreams. *)
  Context (compress : CompressionType -> str -> str).

Record Connection := MkConnection { request_parser : RequestParser; request : Request; reply : Reply }.

Definition Connection_make : Connection := MkConnection RequestParser_make Request_default Reply_default.

(** What the connection does next: nothing, read on, or send buffers. *)
Inductive action := NoAction | AsyncRead | AsyncWrite (output_buffer : list str) | Crash.

Definition encoded_reply (name : string) (ct : CompressionType) (r : Reply) : Reply * list str :=
  let r1 := MkReply (status r) (MkHeader (lit "Content-Encoding") (lit name) :: headers r) (content r) in
  let compressed_output := compress ct (content r1) in
  let r2 := SetSize (u32 (vsize compressed_output)) r1 in
  (r2, HeaderstoBuffers r2 ++ [compressed_output]).

(** The reply with its length, and the buffers. *)
Definition encode_reply (ct : CompressionType) (r : Reply) : Reply * list str :=
  match ct with
  | deflateRFC1951 => encoded_reply "deflate" ct r
  | gzipRFC1952 => encoded_reply "gzip" ct r
  | noCompression => let r1 := SetUncompressedSize r in (r1, ToBuffers r1)
  end.

Definition handle_read (o : OSRM_impl) (c : Connection) (error : bool) (incoming_data_buffer : str)
    : action * Connection * OSRM_impl :=
  if error then (NoAction, c, o) else
  let '((result, p, req, ct), _) := Parse (request_parser c) (request c) noCompression incoming_data_buffer in
  match result with
  | Some true =>
      match handle_request o req (reply c) with
      | (Returned r, o') => let '(r', output) := encode_reply ct r in (AsyncWrite output, MkConnection p req r', o')
      | (_, o') => (Crash, MkConnection p req (reply c), o')
      end
  | Some false =>
      let r := StockReply badRequest in (AsyncWrite (ToBuffers r), MkConnection p req r, o)
  | None => (AsyncRead, MkConnection p req (reply c), o)
  end.

(** ** The length of the body *)

Definition has_length (r : Reply) : Prop := exists h, h ∈ headers r /\ h_name h = content_length.

Definition length_is (n : N) (r : Reply) : Prop :=
  forall h, h ∈ headers r -> h_name h = content_length -> h_value h = integral_to_string n.

Lemma stock_has_length s : has_length (StockReply s).
Proof. exists (MkHeader content_length (integral_to_string (vsize (Reply_ToString s)))). split; [|done]. right. left. Qed.

Lemma stock_length s : length_is (vsize (content (StockReply s))) (StockReply s).
Proof.
  intros h Hh Hn. cbn in Hh. rewrite !elem_of_cons in Hh. destruct Hh as [->|[->|[->|Hh]]]; try done. by apply elem_of_nil in Hh.
Qed.

Lemma set_size_length n r : length_is n (SetSize n r).
Proof.
  intros h Hh Hn. cbn in Hh. apply list_elem_of_fmap in Hh as (h0 & -> & Hh0).
  case_bool_decide as E; [done|]. cbn in Hn. congruence.
Qed.

Lemma set_size_u32 n r : (n < 4294967296)%N -> length_is n (SetSize (u32 n) r).
Proof. intros Hn. rewrite u32_small by done. apply set_size_length. Qed.

Lemma set_size_has n r : has_length r -> has_length (SetSize n r).
Proof.
  intros (h & Hh & Hn). eexists. split; [apply list_elem_of_fmap; exists h; split; [reflexivity|exact Hh]|]. by case_bool_decide.
Qed.

Lemma emplace_has n v r : has_length r -> has_length (emplace_header n v r).
Proof. intros (h & Hh & Hn). exists h. split; [|done]. apply elem_of_app. by left. Qed.

Lemma format_has p r : has_length r -> has_length (format_headers p r).
Proof. intros Hr. unfold format_headers. repeat case_bool_decide; by apply emplace_has, emplace_has. Qed.

Lemma handle_request_has o req r0 r o' : handle_request o req r0 = (Returned r, o') -> has_length r.
Proof.
  unfold handle_request. destruct (api_parse _) as [[result consumed] p]. destruct (_ || _).
  { intros [= <- _]. apply (stock_has_length badRequest). }
  destruct (RunQuery _ _ _) as [[r2| |] o2]; [|intros [= <- _]; apply stock_has_length|done].
  intros [= <- _]. apply format_has. match goal with |- has_length (emplace_header _ _ ?r) => set (r3 := r) end. exists (MkHeader content_length (integral_to_string (vsize (content r3)))). split; [|done].
  apply elem_of_app. right. by left.
Qed.

Lemma encode_reply_ok ct r : has_length r ->
  exists body, (encode_reply ct r).2 = HeaderstoBuffers (encode_reply ct r).1 ++ [body] /\ has_length (encode_reply ct r).1 /\
    ((vsize body < 4294967296)%N -> length_is (vsize body) (encode_reply ct r).1).
Proof.
  intros Hr. assert (forall x, has_length (MkReply (status r) (x :: headers r) (content r))) as Hx.
  { intros x. destruct Hr as (h & Hh & Hn). exists h. split; [by right|done]. }
  destruct ct; cbn [encode_reply fst snd encoded_reply].
  - exists (content r). split; [unfold ToBuffers, HeaderstoBuffers; by rewrite <- !app_assoc|].
    split; [by apply set_size_has|apply set_size_u32].
  - eexists. split; [reflexivity|]. split; [apply set_size_has, Hx|apply set_size_u32].
  - eexists. split; [reflexivity|]. split; [apply set_size_has, Hx|apply set_size_u32].
Qed.


(** The counter of running queries goes back to its value after a query
    that returns, but a plugin that throws leaves it one too high, while the
    handler answers with an error and the server goes on. *)
Theorem query_counter o req r0 out o' :
  handle_request o req r0 = (out, o') ->
  number_of_queries o' = number_of_queries o \/
  (number_of_queries o' = Z.succ <$> number_of_queries o /\ (out = Returned (StockReply internalServerError) \/ out = Undefined)).
Proof.
  unfold handle_request. destruct (api_parse _) as [[result consumed] p]. destruct (_ || _); [intros [= _ <-]; by left|].
  unfold RunQuery. destruct (plugin_map o !! service p) as [ptr|]; [|intros [= _ <-]; by left].
  case_decide; [intros [= <- <-]; right; split; [done|by right]|].
  destruct (HandleRequest ptr p _) as [r2|].
  - intros [= _ <-]. left. cbn. destruct (number_of_queries o) as [z|]; [|done]. cbn. by rewrite Z.pred_succ.
  - intros [= <- <-]. right. split; [done|by left].
Qed.

(** The end of the header that asks for compression, and the rest. *)
Definition asks_gzip : str := lit "GET /hello HTTP/1.1" ++ crlf ++ lit "Accept-Encoding: gzip" ++ crlf ++ [13%N].

(** The compression a client asks for depends on how its request is cut
    into packets. If the request arrives at once, the reply is compressed; if
    its last character comes alone, the compression type is forgotten and the
    same reply is sent uncompressed. *)
Theorem compression_lost_between_packets o r o' :
  handle_request o (MkRequest (lit "/hello") [] []) Reply_default = (Returned r, o') ->
  (handle_read o Connection_make false (asks_gzip ++ [10%N])).1.1 = AsyncWrite (encode_reply gzipRFC1952 r).2 /\
  exists c, handle_read o Connection_make false asks_gzip = (AsyncRead, c, o) /\
    (handle_read o c false [10%N]).1.1 = AsyncWrite (encode_reply noCompression r).2.
Proof.
  intros Hr. split.
  - unfold handle_read. change (Parse _ _ _ _) with
      ((Some true, MkRequestParser expecting_newline_3 (MkHeader (lit "Accept-Encoding") (lit "gzip")),
        MkRequest (lit "/hello") [] [], gzipRFC1952), @nil N). cbn [reply Connection_make]. rewrite Hr. by destruct (encode_reply _ r).
  - exists (MkConnection (MkRequestParser expecting_newline_3 (MkHeader (lit "Accept-Encoding") (lit "gzip")))
      (MkRequest (lit "/hello") [] []) Reply_default).
    split; [vm_compute; reflexivity|]. unfold handle_read. cbn [request_parser request Parse consume consume_header state_]. cbn [N.eqb Pos.eqb].
    cbn [reply]. rewrite Hr. by destruct (encode_reply _ r).
Qed.
End server.

(** ** A server with one plugin *)

Fixpoint decimal (fuel : nat) (n : N) (tail : str) : str :=
  match fuel with
  | O => tail
  | S fuel' =>
      let tail' := (48 + n mod 10)%N :: tail in
      if (n <? 10)%N then tail' else decimal fuel' (n / 10) tail'
  end.

Definition sample_decimal (n : N) : str := decimal 20 n [].

Definition sample_plugin (plugin : N) (p : RouteParameters) (r : Reply) : option Reply :=
  if (plugin =? 7)%N then Some (MkReply (status r) (headers r) (content r ++ lit "hello")) else None.

Definition sample_api (s : str) : bool * N * RouteParameters :=
  (bool_decide (head s = Some 47%N), vsize s, setService (drop 1 s) RouteParameters_make).

Definition sample_osrm : OSRM_impl :=
  RegisterPlugin (lit "hello") 7 (RegisterPlugin (lit "fail") 8 (MkOSRM ∅ ∅ (Some 0%Z))).

Definition sample_read : OSRM_impl -> Connection -> bool -> str -> action * Connection * OSRM_impl :=
  handle_read sample_decimal sample_plugin sample_api (fun _ => lit "400.0") id (fun _ s => s ++ s).


(** The plugin with the number 8 throws. *)
Lemma query_counter_witness :
  let run := handle_request sample_decimal sample_plugin sample_api (fun _ => lit "400.0") id sample_osrm
    (MkRequest (lit "/fail") [] []) Reply_default in
  number_of_queries run.2 = Some 1%Z /\
  (number_of_queries run.2 = number_of_queries sample_osrm \/
   (number_of_queries run.2 = Z.succ <$> number_of_queries sample_osrm /\
    (run.1 = Returned (StockReply sample_decimal internalServerError) \/ run.1 = Undefined))).
Proof.
  split; [vm_compute; reflexivity|].
  exact (query_counter sample_decimal sample_plugin sample_api (fun _ => lit "400.0") id sample_osrm
    (MkRequest (lit "/fail") [] []) Reply_default _ _ (surjective_pairing _)).
Defined.

Lemma compression_lost_between_packets_witness : exists c r,
  sample_read sample_osrm Connection_make false asks_gzip = (AsyncRead, c, sample_osrm) /\
  content r = lit "hello" /\
  (sample_read sample_osrm c false [10%N]).1.1 = AsyncWrite (encode_reply sample_decimal (fun _ s => s ++ s) noCompression r).2.
Proof.
  destruct (handle_request sample_decimal sample_plugin sample_api (fun _ => lit "400.0") id sample_osrm
    (MkRequest (lit "/hello") [] []) Reply_default) as [[r| |] o'] eqn:E; [|vm_compute in E; discriminate E..].
  destruct (compression_lost_between_packets sample_decimal sample_plugin sample_api (fun _ => lit "400.0") id
    (fun _ s => s ++ s) sample_osrm r o' E) as [_ (c & H1 & H2)].
  exists c, r. split; [exact H1|]. split; [|exact H2]. vm_compute in E. injection E as <- _. reflexivity.
Defined.
