(* ===== verification/Routing.v ===== *)
(** * RoutingAlgorithms: searches on the contraction hierarchy

    RoutingAlgorithms/BasicRoutingInterface.h (the bidirectional search step
    and the unpacking of shortcuts), RoutingAlgorithms/ManyToManyRouting.h (the
    distance table), DataStructures/PhantomNodes.h and the accessors of
    Server/DataStructures/InternalDataFacade.h they use. *)

From S2P Require Import Prelude Types Edges Storage BinaryHeap DynamicGraph StaticGraph Text.

(** ** The data facade *)

Abbreviation QueryGraph := (StaticGraph QueryEdgeData).

(** Turn instructions and travel modes are numbers. *)
Record InternalDataFacade := MkFacade {
  m_query_graph : QueryGraph;
  m_via_node_list : list N;
  m_name_ID_list : list N;
  m_turn_instruction_list : list N;
  m_travel_mode_list : list N;
  m_edge_is_compressed : list bool;
  m_geometry_indices : list N;
  m_geometry_list : list N }.

Section facade.
  Implicit Types f : InternalDataFacade.

Definition EdgeIsCompressed (id : N) f : option bool := vget (m_edge_is_compressed f) id.

Definition GetTurnInstructionForEdgeID (id : N) f : option N := vget (m_turn_instruction_list f) id.

Definition GetTravelModeForEdgeID (id : N) f : option N := vget (m_travel_mode_list f) id.

Definition GetNameIndexFromEdgeID (id : N) f : option N := vget (m_name_ID_list f) id.

Definition GetGeometryIndexForEdgeID (id : N) f : option N := vget (m_via_node_list f) id.

(** Copying a range that is not inside the list is undefined. *)
Definition GetUncompressedGeometry (id : N) f : option (list N) :=
  b ← vget (m_geometry_indices f) id;
  e ← vget (m_geometry_indices f) (uadd id 1);
  if ((b <=? e) && (e <=? vsize (m_geometry_list f)))%N
  then Some (take (N.to_nat (e - b)) (drop (N.to_nat b) (m_geometry_list f)))
  else None.
End facade.

(** ** Phantom nodes *)

Record PhantomNode := MkPhantomNode {
  forward_node_id : N; reverse_node_id : N; ph_name_id : N;
  forward_weight : Z; reverse_weight : Z; forward_offset : Z; reverse_offset : Z;
  packed_geometry_id : N; location : FixedPointCoordinate; fwd_segment_position : N;
  forward_travel_mode : N; backward_travel_mode : N }.

Definition PhantomNode_default : PhantomNode :=
  MkPhantomNode SPECIAL_NODEID SPECIAL_NODEID UINT_MAX INVALID_EDGE_WEIGHT INVALID_EDGE_WEIGHT 0 0
    SPECIAL_EDGEID coordinate_default 0 0 0.

Definition GetForwardWeightPlusOffset (p : PhantomNode) : option Z :=
  if (SPECIAL_NODEID =? forward_node_id p)%N then Some 0%Z else iadd (forward_offset p) (forward_weight p).

Definition GetReverseWeightPlusOffset (p : PhantomNode) : option Z :=
  if (SPECIAL_NODEID =? reverse_node_id p)%N then Some 0%Z else iadd (reverse_offset p) (reverse_weight p).

Definition isBidirected (p : PhantomNode) : bool :=
  negb (forward_node_id p =? SPECIAL_NODEID)%N && negb (reverse_node_id p =? SPECIAL_NODEID)%N.

Definition IsCompressed (p : PhantomNode) : bool :=
  negb (forward_offset p =? 0)%Z || negb (reverse_offset p =? 0)%Z.

Definition phantom_isValid_for (numberOfNodes : N) (p : PhantomNode) : bool :=
  coordinate_isValid (location p) &&
  ((forward_node_id p <? numberOfNodes)%N || (reverse_node_id p <? numberOfNodes)%N) &&
  (negb (forward_weight p =? INVALID_EDGE_WEIGHT)%Z || negb (reverse_weight p =? INVALID_EDGE_WEIGHT)%Z) &&
  negb (ph_name_id p =? UINT_MAX)%N.

Definition phantom_isValid (p : PhantomNode) : bool :=
  coordinate_isValid (location p) && negb (ph_name_id p =? UINT_MAX)%N.

Definition phantom_eqb (p q : PhantomNode) : bool := coordinate_eqb (location p) (location q).

Record PhantomNodes := MkPhantomNodes { source_phantom : PhantomNode; target_phantom : PhantomNode }.

(** ** The heap of the searches *)

Record HeapData := MkHeapData { parent : N }.

Section routing.
  Context {St : Type} `{IndexStorage St}.

Abbreviation QueryHeap := (BinaryHeap HeapData St).
Implicit Types (g : QueryGraph) (h : QueryHeap).

(** An edge is used in the direction of the search, or against it. *)
Definition with_direction (forward_direction : bool) (data : QueryEdgeData) : bool :=
  if forward_direction then qd_forward data else qd_backward data.

Definition against_direction (forward_direction : bool) (data : QueryEdgeData) : bool :=
  if negb forward_direction then qd_forward data else qd_backward data.

(** ** Stalling and relaxing *)

(** The loop over the edges of the node, left when it can be stalled. *)
Fixpoint stall_scan g (forward_direction : bool) (distance : Z) (edges : list N) h : option (bool * QueryHeap) :=
  match edges with
  | [] => Some (false, h)
  | edge :: edges' =>
      data ← sg_GetEdgeData edge g;
      if against_direction forward_direction data then
        to ← sg_GetTarget edge g;
        '(inserted, h1) ← WasInserted to h;
        if inserted : bool then
          '(key, h2) ← GetKey to h1;
          sum ← iadd key (qd_distance data);
          if (sum <? distance)%Z then Some (true, h2)
          else stall_scan g forward_direction distance edges' h2
        else stall_scan g forward_direction distance edges' h1
      else stall_scan g forward_direction distance edges' h
  end.

Definition relax_edge g (forward_direction : bool) (node : N) (distance : Z) h (edge : N) : option QueryHeap :=
  data ← sg_GetEdgeData edge g;
  if with_direction forward_direction data then
    to ← sg_GetTarget edge g;
    to_distance ← iadd distance (qd_distance data);
    '(inserted, h1) ← WasInserted to h;
    if negb inserted then Insert to to_distance (MkHeapData node) h1
    else
      '(key, h2) ← GetKey to h1;
      if (to_distance <? key)%Z then
        h3 ← AssignData to (fun _ => MkHeapData node) h2;
        DecreaseKey to to_distance h3
      else Some h2
  else Some h.

(** ** The bidirectional step *)

(** The test whether the two searches meet better at [node]. *)
Definition meet_at (node : N) (distance : Z) (reverse_heap : QueryHeap) (middle_node_id : N) (upper_bound : Z)
    : option (QueryHeap * N * Z) :=
  '(inserted, r1) ← WasInserted node reverse_heap;
  if inserted : bool then
    '(key, r2) ← GetKey node r1;
    new_distance ← iadd key distance;
    if (new_distance <? upper_bound)%Z then
      if (0 <=? new_distance)%Z then Some (r2, node, new_distance) else Some (r2, middle_node_id, upper_bound)
    else Some (r2, middle_node_id, upper_bound)
  else Some (r1, middle_node_id, upper_bound).

Definition RoutingStep g (forward_heap reverse_heap : QueryHeap) (middle_node_id : N) (upper_bound : Z)
    (min_edge_offset : Z) (forward_direction : bool) : option (QueryHeap * QueryHeap * N * Z) :=
  '(node, h1) ← DeleteMin forward_heap;
  '(distance, h2) ← GetKey node h1;
  '(r, middle, upper) ← meet_at node distance reverse_heap middle_node_id upper_bound;
  sum ← iadd distance min_edge_offset;
  if (upper <? sum)%Z then
    h3 ← DeleteAll h2;
    Some (h3, r, middle, upper)
  else
    edges ← sg_GetAdjacentEdgeRange node g;
    '(stalled, h3) ← stall_scan g forward_direction distance edges h2;
    if stalled : bool then Some (h3, r, middle, upper)
    else
      h4 ← fold_m (relax_edge g forward_direction node distance) h3 edges;
      Some (h4, r, middle, upper).

(** ** The packed path *)

(** Follow the parents; at most every inserted node is visited. *)
Fixpoint parents (fuel : nat) h (current_node_id : N) (packed_path : list N) : option (list N) :=
  match fuel with
  | O => None
  | S fuel' =>
      '(data, _) ← GetData current_node_id h;
      if (current_node_id =? parent data)%N then Some packed_path
      else parents fuel' h (parent data) (packed_path ++ [parent data])
  end.

Definition RetrievePackedPathFromSingleHeap h (middle_node_id : N) (packed_path : list N) : option (list N) :=
  parents (S (length (inserted_nodes h))) h middle_node_id packed_path.

Definition RetrievePackedPathFromHeap (forward_heap reverse_heap : QueryHeap) (middle_node_id : N) (packed_path : list N)
    : option (list N) :=
  p ← RetrievePackedPathFromSingleHeap forward_heap middle_node_id packed_path;
  RetrievePackedPathFromSingleHeap reverse_heap middle_node_id (reverse p ++ [middle_node_id]).

(** ** The distance table *)

Record NodeBucket := MkNodeBucket { target_id : N; nb_distance : Z }.

Abbreviation SearchSpaceWithBuckets := (gmap N (list NodeBucket)).

Definition StallAtNode g (forward_direction : bool) (node : N) (distance : Z) (query_heap : QueryHeap)
    : option (bool * QueryHeap) :=
  edges ← sg_GetAdjacentEdgeRange node g;
  stall_scan g forward_direction distance edges query_heap.

Definition RelaxOutgoingEdges g (forward_direction : bool) (node : N) (distance : Z) (query_heap : QueryHeap)
    : option QueryHeap :=
  edges ← sg_GetAdjacentEdgeRange node g;
  fold_m (relax_edge g forward_direction node distance) query_heap edges.

Definition stall_or_relax g (forward_direction : bool) (node : N) (distance : Z) (query_heap : QueryHeap)
    : option QueryHeap :=
  '(stalled, h) ← StallAtNode g forward_direction node distance query_heap;
  if stalled : bool then Some h else RelaxOutgoingEdges g forward_direction node distance h.

Definition BackwardRoutingStep g (target : N) (query_heap : QueryHeap) (buckets : SearchSpaceWithBuckets)
    : option (QueryHeap * SearchSpaceWithBuckets) :=
  '(node, h1) ← DeleteMin query_heap;
  '(target_distance, h2) ← GetKey node h1;
  let buckets' := <[node := default [] (buckets !! node) ++ [MkNodeBucket target target_distance]]> buckets in
  h3 ← stall_or_relax g false node target_distance h2;
  Some (h3, buckets').

(** The entry of the table for one bucket. *)
Definition update_entry (source number_of_locations : N) (source_distance : Z) (table : list Z) (b : NodeBucket)
    : option (list Z) :=
  let entry := uadd (u32 (source * number_of_locations)) (target_id b) in
  current_distance ← vget table entry;
  new_distance ← iadd source_distance (nb_distance b);
  if ((0 <=? new_distance) && (new_distance <? current_distance))%Z
  then vset table entry new_distance else Some table.

Definition ForwardRoutingStep g (source number_of_locations : N) (query_heap : QueryHeap) (buckets : SearchSpaceWithBuckets)
    (result_table : list Z) : option (QueryHeap * list Z) :=
  '(node, h1) ← DeleteMin query_heap;
  '(source_distance, h2) ← GetKey node h1;
  table ← fold_m (update_entry source number_of_locations source_distance) result_table (default [] (buckets !! node));
  h3 ← stall_or_relax g true node source_distance h2;
  Some (h3, table).

(** [while (!query_heap.Empty())]: every step settles another node. *)
Fixpoint explore {T} (fuel : nat) (step : QueryHeap -> T -> option (QueryHeap * T)) (query_heap : QueryHeap) (t : T)
    : option (QueryHeap * T) :=
  if Empty query_heap then Some (query_heap, t)
  else
    match fuel with
    | O => None
    | S fuel' => '(h', t') ← step query_heap t; explore fuel' step h' t'
    end.

(** The insertion of the nodes of a location, at plus or minus their weight. *)
Definition insert_phantom (sign : Z -> option Z) (query_heap : QueryHeap) (p : PhantomNode) : option QueryHeap :=
  h1 ← (if negb (SPECIAL_NODEID =? forward_node_id p)%N then
          w ← GetForwardWeightPlusOffset p; k ← sign w;
          Insert (forward_node_id p) k (MkHeapData (forward_node_id p)) query_heap
        else Some query_heap);
  if negb (SPECIAL_NODEID =? reverse_node_id p)%N then
    w ← GetReverseWeightPlusOffset p; k ← sign w;
    Insert (reverse_node_id p) k (MkHeapData (reverse_node_id p)) h1
  else Some h1.

Definition ineg (z : Z) : option Z := i32 (- z)%Z.

Definition target_search g (s : QueryHeap * SearchSpaceWithBuckets * N) (phantoms : list PhantomNode)
    : option (QueryHeap * SearchSpaceWithBuckets * N) :=
  let '(query_heap, buckets, target) := s in
  h1 ← fold_m (insert_phantom Some) (Clear query_heap) phantoms;
  '(h2, buckets') ← explore (S (N.to_nat (sg_number_of_nodes g))) (BackwardRoutingStep g target) h1 buckets;
  Some (h2, buckets', uadd target 1).

Definition source_search g (number_of_locations : N) (buckets : SearchSpaceWithBuckets)
    (s : QueryHeap * list Z * N) (phantoms : list PhantomNode) : option (QueryHeap * list Z * N) :=
  let '(query_heap, table, source) := s in
  h1 ← fold_m (insert_phantom ineg) (Clear query_heap) phantoms;
  '(h2, table') ← explore (S (N.to_nat (sg_number_of_nodes g)))
     (fun h t => ForwardRoutingStep g source number_of_locations h buckets t) h1 table;
  Some (h2, table', uadd source 1).

(** [operator()], with the heap of the thread. *)
Definition ManyToManyRouting g (query_heap : QueryHeap) (phantom_nodes_array : list (list PhantomNode)) : option (list Z) :=
  let number_of_locations := u32 (vsize phantom_nodes_array) in
  let table := replicate (N.to_nat (u32 (number_of_locations * number_of_locations))) INT_MAX in
  '(h1, buckets, _) ← fold_m (target_search g) (query_heap, ∅, 0%N) phantom_nodes_array;
  '(_, table', _) ← fold_m (source_search g number_of_locations buckets) (h1, table, 0%N) phantom_nodes_array;
  Some table'.
End routing.
