(* ===== verification/QuerySearch.v ===== *)
(** * RoutingAlgorithms: correctness of an upward search with stalling

    One search of the query engine, from a set of start nodes with their
    offsets, over the edges of the hierarchy in one direction. A node is not
    relaxed if it is stalled, that is, if an edge against the direction shows
    that it was reached on a detour. Every key is at least a distance, and the
    nodes on shortest ways upwards get exactly their distances. *)

From S2P Require Import Prelude Types Paths Edges Storage BinaryHeap DynamicGraph StaticGraph Text Routing.

(** The arcs of the edges of the graph in one direction, and the arcs that
    the edges stand for in the other direction. *)
Definition graph_arcs (dir : bool) (g : QueryGraph) : arcs := fun u v w =>
  exists e, e ∈ sadj g u /\ (u < sg_number_of_nodes g)%N /\ e_target e = v /\ with_direction dir (e_data e) = true /\
    qd_distance (e_data e) = Z.of_N w.

Lemma against_flip dir data : against_direction dir data = with_direction (negb dir) data.
Proof. by destruct dir. Qed.

(** The weights and targets of the edges. *)
Definition weights_ok (W : Z) (g : QueryGraph) : Prop := forall u e, (u < sg_number_of_nodes g)%N -> e ∈ sadj g u ->
  (e_target e < sg_number_of_nodes g)%N /\ (0 < qd_distance (e_data e) <= W)%Z.

Lemma within_flip E u v l : within E u v l -> within (flip E) v u l.
Proof. intros (l' & Hl & Hp). exists l'. split; [done|by apply path_flip]. Qed.

Section search.
  Context {St : Type} `{IndexStorageLaws St}.
  Context (X : gset N) (g : QueryGraph) (dir : bool) (E0 : arcs) (start : gmap N Z) (W lo B : Z).
  Abbreviation n := (sg_number_of_nodes g).
  Hypothesis g_wf : static_wf g.
  Hypothesis g_weights : weights_ok W g.
  Hypothesis X_nodes : forall v, (v < n)%N -> v ∈ X.
  Hypothesis X_small : (N.of_nat (size X) < 2147483647)%N.
  Hypothesis with_sound : forall u v w, graph_arcs dir g u v w -> within E0 u v w.
  Hypothesis against_sound : forall u v w, graph_arcs (negb dir) g u v w -> within E0 v u w.
  Hypothesis start_ok : forall s k, start !! s = Some k -> (s < n)%N /\ (lo <= k)%Z.

(** [k] is the length of a way upwards to [v] plus the offset of its start. *)
Definition up_key (v : N) (k : Z) : Prop :=
  exists s k0 l, start !! s = Some k0 /\ path (graph_arcs dir g) s v l /\ k = (k0 + Z.of_N l)%Z.

(** [k] is at least the length of a path to [v] plus the offset of its start. *)
Definition key_ok (v : N) (k : Z) : Prop :=
  exists s k0 l, start !! s = Some k0 /\ path E0 s v l /\ (k0 + Z.of_N l <= k)%Z.

Definition optimal (v : N) (k : Z) : Prop := key_ok v k /\ forall k', key_ok v k' -> (k <= k')%Z.

  Hypothesis bounded : forall v k, up_key v k -> (k <= B)%Z.
  Hypothesis room : (INT_MIN <= lo /\ B + W <= INT_MAX)%Z.
  #[local] Set Default Proof Using "All".
  Implicit Types h : BinaryHeap HeapData St.

(** ** Keys *)

Lemma up_key_sound v k : up_key v k -> key_ok v k.
Proof.
  intros (s & k0 & l & Hs & Hp & ->). destruct (path_subst _ E0 s v l with_sound Hp) as (l' & Hl & Hp').
  exists s, k0, l'. split_and!; [done|done|lia].
Qed.

Lemma up_key_low v k : up_key v k -> (lo <= k)%Z.
Proof. intros (s & k0 & l & Hs & Hp & ->). pose proof (start_ok s k0 Hs). lia. Qed.

Lemma up_key_arc u v k w : up_key u k -> graph_arcs dir g u v w -> up_key v (k + Z.of_N w).
Proof.
  intros (s & k0 & l & Hs & Hp & ->) Ha. exists s, k0, (l + w)%N.
  split_and!; [done|by eapply path_snoc|lia].
Qed.

Lemma key_within u v k w : key_ok u k -> within E0 u v w -> key_ok v (k + Z.of_N w).
Proof.
  intros (s & k0 & l & Hs & Hp & Hle) (l' & Hl' & Hp'). exists s, k0, (l + l')%N.
  split_and!; [done|by eapply path_app|lia].
Qed.

(** ** The invariant *)

(** The keys of the nodes that are settled. *)
Definition settled h : gmap N Z := omap (fun x => if x.2 : bool then None else Some x.1.1) (queue h).

Lemma settled_lookup h v k : settled h !! v = Some k <-> exists d, queue h !! v = Some (k, d, false).
Proof using Type.
  unfold settled. rewrite lookup_omap. destruct (queue h !! v) as [[[k' d] q]|]; simpl; [|split; [done|by intros [? ?]]].
  destruct q; split; [done|by intros [? [=]]|intros [= ->]; by exists d|by intros [? [= -> _]]].
Qed.

(** The parent of an entry of the heap: the node itself at a start, or else a
    settled node with an edge to it. *)
Definition parent_ok h (v : N) (k : Z) (d : HeapData) : Prop :=
  parent d = v /\ start !! v = Some k \/
  exists kp dp w, queue h !! parent d = Some (kp, dp, false) /\ graph_arcs dir g (parent d) v w /\ k = (kp + Z.of_N w)%Z.

(** The invariant when the last node was settled at [delta]. *)
Record query_inv (c : N) (delta : Z) h : Prop := {
  si_wf : heap_wf X c h;
  si_keys v k d q : queue h !! v = Some (k, d, q) -> (v < n)%N /\ up_key v k;
  si_removed v k d : queue h !! v = Some (k, d, false) -> (k <= delta)%Z;
  si_queued v k d : queue h !! v = Some (k, d, true) -> (delta <= k)%Z;
  si_start s k0 : start !! s = Some k0 -> exists k d q, queue h !! s = Some (k, d, q) /\ (k <= k0)%Z;
  si_parent v k d q : queue h !! v = Some (k, d, q) -> parent_ok h v k d;
}.

(** What relaxing may do: queued keys get smaller, new nodes come in. *)
Definition grows h h' : Prop :=
  settled h' = settled h /\
  forall v k d q, queue h !! v = Some (k, d, q) -> exists k' d', queue h' !! v = Some (k', d', q) /\ (k' <= k)%Z.

Lemma grows_eq h h' : queue h' = queue h -> grows h h'.
Proof. intros E. unfold grows, settled. rewrite E. split; [done|]. intros v k d q Hq. exists k, d. split; [done|lia]. Qed.

Lemma grows_trans h h' h'' : grows h h' -> grows h' h'' -> grows h h''.
Proof.
  intros [E1 H1] [E2 H2]. split; [by rewrite E2|]. intros v k d q Hq. destruct (H1 v k d q Hq) as (k1 & d1 & Hq1 & Hle1).
  destruct (H2 v k1 d1 q Hq1) as (k2 & d2 & Hq2 & Hle2). exists k2, d2. split; [done|lia].
Qed.

(** The node [v] has been reached at [k] or less. *)
Definition reached h (v : N) (k : Z) : Prop := exists k' d q, queue h !! v = Some (k', d, q) /\ (k' <= k)%Z.

Lemma reached_grows h h' v k : grows h h' -> reached h v k -> reached h' v k.
Proof.
  intros [_ Hg] (k' & d & q & Hq & Hle). destruct (Hg v k' d q Hq) as (k2 & d2 & Hq2 & Hle2).
  exists k2, d2, q. split; [done|lia].
Qed.

(** Every way on from a node whose key is its distance has been taken. *)
Definition relaxed_at h (u : N) (k : Z) : Prop :=
  optimal u k -> forall v w, graph_arcs dir g u v w -> reached h v (k + Z.of_N w).

Definition relaxed h : Prop := forall u k, settled h !! u = Some k -> relaxed_at h u k.

Lemma relaxed_at_grows h h' u k : grows h h' -> relaxed_at h u k -> relaxed_at h' u k.
Proof. intros Hg Hr Hopt v w Hvw. eapply reached_grows; [done|]. by apply Hr. Qed.

Lemma query_inv_queue c delta h h' :
  heap_wf X c h' -> queue h' = queue h -> query_inv c delta h -> query_inv c delta h'.
Proof.
  intros Hwf Hq [_ Hk Hr Hd Hs Hp]. constructor; [done|..]; unfold parent_ok; rewrite Hq; [exact Hk|exact Hr|exact Hd|exact Hs|exact Hp].
Qed.

Lemma query_room c h v :
  heap_wf X c h -> (forall u x, queue h !! u = Some x -> (u < n)%N) -> (v < n)%N -> queue h !! v = None ->
  (vsize (inserted_nodes h) + 1 < 2147483648)%N.
Proof.
  intros Hwf Hdom Hn Hq. rewrite <- (size_queue X c h Hwf), <- size_dom.
  assert (dom (queue h) ∪ {[v]} ⊆ X) as Hsub.
  { intros m [Hm|Hm]%elem_of_union; [|apply elem_of_singleton in Hm as ->; by apply X_nodes].
    apply elem_of_dom in Hm as [x Hx]. apply X_nodes. by eapply Hdom. }
  apply subseteq_size in Hsub. rewrite size_union in Hsub.
  - rewrite size_singleton in Hsub. lia.
  - apply disjoint_singleton_r. by rewrite not_elem_of_dom.
Qed.

(** Setting the key of a node that is not settled to [k]. *)
Lemma set_queued c delta h h' v k d :
  query_inv c delta h -> heap_wf X c h' -> queue h' = <[v := (k, d, true)]> (queue h) ->
  (v < n)%N -> up_key v k -> (delta <= k)%Z -> parent_ok h v k d -> (forall k0 d0 q, queue h !! v = Some (k0, d0, q) -> q = true /\ (k <= k0)%Z) ->
  query_inv c delta h' /\ grows h h'.
Proof.
  intros [_ Hks Hrem Hque Hst Hpar] Hwf Hq Hv Hkey Hdelta Hnew Hold.
  assert (forall u ku du, parent_ok h u ku du -> parent_ok h' u ku du) as Hkeep.
  { intros u ku du [Hs|(kp & dp & w & Hp & Hrest)]; [by left|right]. exists kp, dp, w. split; [|done].
    rewrite Hq, lookup_insert_ne; [done|]. intros Heq. subst v. by destruct (Hold _ _ _ Hp). }
  split; [constructor; [done|..|intros u ku du q Hu; apply Hkeep; revert Hu]; rewrite Hq|].
  - intros u k' d' q' [[<- [= <- _ _]]|[Hne Hu]]%lookup_insert_Some; [done|by eapply Hks].
  - intros u k' d' [[_ [=]]|[Hne Hu]]%lookup_insert_Some. by eapply Hrem.
  - intros u k' d' [[_ [= <- _]]|[Hne Hu]]%lookup_insert_Some; [done|by eapply Hque].
  - intros s k0 Hs. destruct (Hst s k0 Hs) as (k' & d' & q' & Hq' & Hle).
    destruct (decide (s = v)) as [->|Hne].
    + exists k, d, true. rewrite lookup_insert_eq. split; [done|]. pose proof (Hold _ _ _ Hq') as [_ ?]. lia.
    + exists k', d', q'. by rewrite lookup_insert_ne.
  - intros [[<- [= <- <- _]]|[Hne Hu]]%lookup_insert_Some; [done|by eapply Hpar].
  - split.
    + unfold settled. rewrite Hq. apply map_eq. intros u. rewrite !lookup_omap.
      destruct (decide (u = v)) as [->|Hne]; [|by rewrite lookup_insert_ne].
      rewrite lookup_insert_eq. simpl. destruct (queue h !! v) as [[[k0 d0] q]|] eqn:Eq; [|done].
      destruct (Hold _ _ _ eq_refl) as [-> _]. done.
    + intros u k' d' q' Hu. rewrite Hq. destruct (decide (u = v)) as [->|Hne].
      * destruct (Hold _ _ _ Hu) as [-> Hle]. exists k, d. rewrite lookup_insert_eq. done.
      * exists k', d'. rewrite lookup_insert_ne by done. split; [done|lia].
Qed.

(** ** Relaxing *)

(** [relax_edge] on the edge itself. *)
Definition relax_adjacent (node : N) (distance : Z) h (e : Edge QueryEdgeData) : option (BinaryHeap HeapData St) :=
  if with_direction dir (e_data e) then
    to_distance ← iadd distance (qd_distance (e_data e));
    '(inserted, h1) ← WasInserted (e_target e) h;
    if negb inserted then Insert (e_target e) to_distance (MkHeapData node) h1
    else
      '(key, h2) ← GetKey (e_target e) h1;
      if (to_distance <? key)%Z then
        h3 ← AssignData (e_target e) (fun _ => MkHeapData node) h2;
        DecreaseKey (e_target e) to_distance h3
      else Some h2
  else Some h.

Lemma relax_adjacent_eq node distance h i e :
  vget (edge_array g) i = Some e -> relax_edge g dir node distance h i = relax_adjacent node distance h e.
Proof. intros He. unfold relax_edge, sg_GetEdgeData, sg_GetTarget. by rewrite He. Qed.

Lemma edge_arc b u e : (u < n)%N -> e ∈ sadj g u -> with_direction b (e_data e) = true ->
  graph_arcs b g u (e_target e) (Z.to_N (qd_distance (e_data e))).
Proof. intros Hu He Hd. exists e. destruct (g_weights u e Hu He). split_and!; [done|done|done|done|lia]. Qed.

Lemma get_key_ok c h v k d q : heap_wf X c h -> queue h !! v = Some (k, d, q) ->
  exists h', GetKey v h = Some (k, h') /\ heap_wf X c h' /\ queue h' = queue h.
Proof.
  intros Hwf Hq. destruct (read_slot X c h v (k, d, q) Hwf Hq) as (j & hn & h' & Hs & Hx & Hwf' & Hq').
  exists h'. injection Hx as <- _ _. unfold GetKey. by rewrite Hs.
Qed.

(** One edge of a node that is settled at [distance]. *)
Lemma relax_adjacent_ok c node distance h e :
  query_inv c distance h -> (node < n)%N -> e ∈ sadj g node -> up_key node distance -> settled h !! node = Some distance ->
  exists h', relax_adjacent node distance h e = Some h' /\ query_inv c distance h' /\ grows h h' /\
    (with_direction dir (e_data e) = true -> reached h' (e_target e) (distance + qd_distance (e_data e))).
Proof.
  intros Hinv Hnode He Hkey Hset. destruct (g_weights node e Hnode He) as [Ht Hw]. unfold relax_adjacent.
  destruct (with_direction dir (e_data e)) eqn:Hdir.
  2:{ exists h. split_and!; [done|done|by apply grows_eq|done]. }
  pose proof (bounded _ _ Hkey). pose proof (up_key_low _ _ Hkey).
  set (td := (distance + qd_distance (e_data e))%Z). rewrite iadd_Some by (unfold td in *; lia). fold td. cbn [mbind option_bind].
  assert (up_key (e_target e) td) as Hkey'.
  { unfold td. replace (qd_distance (e_data e)) with (Z.of_N (Z.to_N (qd_distance (e_data e)))) by lia.
    eapply up_key_arc; [done|by apply edge_arc]. }
  assert (parent_ok h (e_target e) td (MkHeapData node)) as Hpar.
  { right. apply settled_lookup in Hset as [d Hset]. exists distance, d, (Z.to_N (qd_distance (e_data e))).
    split; [done|]. split; [by apply edge_arc|]. unfold td. lia. }
  pose proof (si_wf _ _ _ Hinv) as Hwf.
  destruct (was_inserted_ok X c h (e_target e) Hwf) as (h1 & -> & Hwf1 & Hq1); [by apply X_nodes|]. cbn [mbind option_bind].
  destruct (queue h !! e_target e) as [[[k d] q]|] eqn:Eq.
  - rewrite bool_decide_true by done. cbn [negb].
    destruct (get_key_ok c h1 (e_target e) k d q Hwf1) as (h2 & -> & Hwf2 & Hq2); [by rewrite Hq1|]. cbn [mbind option_bind].
    assert (queue h2 = queue h) as Hqq by (by rewrite Hq2). case_ltb.
    + destruct q; [|pose proof (si_removed _ _ _ Hinv _ _ _ Eq); unfold td in *; lia].
      destruct (assign_data_ok X c h2 (e_target e) k d true (fun _ => MkHeapData node) Hwf2) as (h3 & -> & Hwf3 & Hq3);
        [by rewrite Hqq|]. cbn [mbind option_bind].
      destruct (decrease_ok X c h3 (e_target e) k (MkHeapData node) td Hwf3) as (h4 & -> & Hwf4 & Hq4).
      { by rewrite Hq3, lookup_insert_eq. } { unfold td in *. lia. }
      rewrite Hq3, insert_insert_eq, Hqq in Hq4. exists h4. split; [done|].
      destruct (set_queued c distance h h4 _ _ _ Hinv Hwf4 Hq4 Ht Hkey') as [Hinv4 Hg4]; [unfold td; lia|done| |].
      { rewrite Eq. intros k0 d0 q [= <- _ <-]. split; [done|lia]. }
      split_and!; [done|done|]. intros _. eexists _, _, _. rewrite Hq4, lookup_insert_eq. split; [done|]. lia.
    + exists h2. split_and!; [done|by apply (query_inv_queue _ _ h)|by apply grows_eq|].
      intros _. exists k, d, q. rewrite Hqq. split; [done|lia].
  - rewrite bool_decide_false by (by intros []). cbn [negb].
    destruct (insert_ok X c h1 (e_target e) td (MkHeapData node) Hwf1) as (h2 & -> & Hwf2 & Hq2).
    { by apply X_nodes. } { by rewrite Hq1. } { unfold td. lia. }
    { apply (query_room c h1 (e_target e) Hwf1); [|done|by rewrite Hq1].
      rewrite Hq1. intros m [[a b] q'] Hm. by eapply (si_keys _ _ _ Hinv). }
    rewrite Hq1 in Hq2. exists h2. split; [done|].
    destruct (set_queued c distance h h2 _ _ _ Hinv Hwf2 Hq2 Ht Hkey') as [Hinv2 Hg2]; [unfold td; lia|done| |].
    { rewrite Eq. done. }
    split_and!; [done|done|]. intros _. eexists _, _, _. rewrite Hq2, lookup_insert_eq. split; [done|]. lia.
Qed.

Lemma relax_outgoing_ok c node distance h :
  query_inv c distance h -> (node < n)%N -> up_key node distance -> settled h !! node = Some distance ->
  exists h', RelaxOutgoingEdges g dir node distance h = Some h' /\ query_inv c distance h' /\ grows h h' /\
    forall v w, graph_arcs dir g node v w -> reached h' v (distance + Z.of_N w).
Proof.
  intros Hinv Hnode Hkey Hset. unfold RelaxOutgoingEdges.
  destruct (sadj_range g node g_wf Hnode) as (r & -> & HF). cbn [mbind option_bind].
  rewrite (fold_m_Forall2 _ _ (relax_adjacent node distance) r (sadj g node) HF)
    by (intros s x y [Hx _]; by apply relax_adjacent_eq).
  destruct (fold_m_ind (relax_adjacent node distance)
    (fun pre h' => query_inv c distance h' /\ grows h h' /\ forall e, e ∈ pre -> with_direction dir (e_data e) = true ->
       reached h' (e_target e) (distance + qd_distance (e_data e))) (sadj g node) h) as (h' & Hrun & Hinv' & Hg & Hr).
  - split_and!; [done|by apply grows_eq|]. intros e He. by apply not_elem_of_nil in He.
  - intros pre e post h1 Hl (Hinv1 & Hg1 & Hr1).
    destruct (relax_adjacent_ok c node distance h1 e Hinv1 Hnode) as (h2 & Hrun & Hinv2 & Hg2 & Hr2); [|done| |].
    { rewrite Hl. apply elem_of_app. right. by left. } { by rewrite (proj1 Hg1). }
    exists h2. split_and!; [done|done|by eapply grows_trans|].
    intros e' [He'| ->%list_elem_of_singleton]%elem_of_app Hd; [|by apply Hr2].
    eapply reached_grows; [done|]. by apply Hr1.
  - exists h'. split_and!; [done|done|done|]. intros v w (e & He & _ & <- & Hd & <-). by apply Hr.
Qed.

(** ** Stalling *)

Lemma stall_at_node_ok c node distance h :
  query_inv c distance h -> (node < n)%N ->
  exists b h', StallAtNode g dir node distance h = Some (b, h') /\ heap_wf X c h' /\ queue h' = queue h /\
    (b = true -> ~ optimal node distance).
Proof.
  intros Hinv Hnode. unfold StallAtNode. destruct (sadj_range g node g_wf Hnode) as (r & -> & HF). cbn [mbind option_bind].
  assert (forall e, e ∈ sadj g node -> e ∈ sadj g node) as Hsub by done. revert HF Hsub. generalize (sadj g node) at 1 2.
  intros l HF. induction HF as [|i e r l [Hi _] HF IH] in h, Hinv |- *; intros Hsub.
  { exists false, h. split_and!; [done|exact (si_wf _ _ _ Hinv)|done|done]. }
  cbn [stall_scan]. unfold sg_GetEdgeData, sg_GetTarget. rewrite Hi. cbn [mbind option_bind].
  assert (e ∈ sadj g node) as He by (apply Hsub; by left).
  assert (forall x, x ∈ l -> x ∈ sadj g node) as Hsub' by (intros x Hx; apply Hsub; by right).
  destruct (g_weights node e Hnode He) as [Ht Hw].
  rewrite against_flip. destruct (with_direction (negb dir) (e_data e)) eqn:Hdir; [|by apply IH].
  destruct (was_inserted_ok X c h (e_target e) (si_wf _ _ _ Hinv)) as (h1 & -> & Hwf1 & Hq1); [by apply X_nodes|].
  cbn [mbind option_bind].
  assert (query_inv c distance h1) as Hinv1 by (by apply (query_inv_queue _ _ h)).
  case_bool_decide as Hins.
  2:{ destruct (IH h1 Hinv1 Hsub') as (b & h' & Hrun & Hwf' & Hq' & Hb). exists b, h'. split_and!; [done|done|by rewrite Hq'|done]. }
  destruct Hins as [[[k d] q] Eq].
  destruct (get_key_ok c h1 (e_target e) k d q Hwf1) as (h2 & -> & Hwf2 & Hq2); [by rewrite Hq1|]. cbn [mbind option_bind].
  destruct (si_keys _ _ _ Hinv _ _ _ _ Eq) as [_ Hkey].
  pose proof (bounded _ _ Hkey). pose proof (up_key_low _ _ Hkey). rewrite iadd_Some by lia. cbn [mbind option_bind].
  assert (query_inv c distance h2) as Hinv2 by (by apply (query_inv_queue _ _ h1)). case_ltb.
  - exists true, h2. split_and!; [done|done|by rewrite Hq2|]. intros _ [_ Hopt].
    assert (key_ok node (k + qd_distance (e_data e))) as Hk.
    { replace (qd_distance (e_data e)) with (Z.of_N (Z.to_N (qd_distance (e_data e)))) by lia.
      apply (key_within (e_target e)); [by apply up_key_sound|]. by apply against_sound, edge_arc. }
    apply Hopt in Hk. lia.
  - destruct (IH h2 Hinv2 Hsub') as (b & h' & Hrun & Hwf' & Hq' & Hb). exists b, h'.
    split_and!; [done|done|by rewrite Hq', Hq2|done].
Qed.

Lemma stall_or_relax_ok c node distance h :
  query_inv c distance h -> (node < n)%N -> up_key node distance -> settled h !! node = Some distance ->
  exists h', stall_or_relax g dir node distance h = Some h' /\ query_inv c distance h' /\ grows h h' /\
    relaxed_at h' node distance.
Proof.
  intros Hinv Hnode Hkey Hset. unfold stall_or_relax.
  destruct (stall_at_node_ok c node distance h Hinv Hnode) as (b & h1 & -> & Hwf1 & Hq1 & Hb). cbn [mbind option_bind].
  assert (query_inv c distance h1) as Hinv1 by (by apply (query_inv_queue _ _ h)). destruct b.
  - exists h1. split_and!; [done|done|by apply grows_eq|]. intros Hopt. by destruct (Hb eq_refl).
  - destruct (relax_outgoing_ok c node distance h1 Hinv1 Hnode Hkey) as (h2 & -> & Hinv2 & Hg2 & Hr2);
      [unfold settled; by rewrite Hq1|].
    exists h2. split_and!; [done|done|eapply grows_trans; [by apply grows_eq|done]|]. intros _. exact Hr2.
Qed.

(** ** Settling *)

Lemma delete_min_inv c delta h :
  query_inv c delta h -> Empty h = false ->
  exists node k d h', DeleteMin h = Some (node, h') /\ query_inv c k h' /\ queue h !! node = Some (k, d, true) /\
    queue h' = <[node := (k, d, false)]> (queue h) /\ (delta <= k)%Z.
Proof.
  intros [Hwf Hks Hrem Hque Hst Hpar] Hne.
  destruct (delete_min_ok X c h Hwf Hne) as (v & k & d & h' & Hrun & _ & Hwf' & Hq & Hmin & Hq').
  exists v, k, d, h'. split_and!; [done| |done|done|by eapply Hque]. constructor; [done|..]; rewrite Hq'.
  - intros u k' d' q' [[<- [= <- _ _]]|[Hm Hn]]%lookup_insert_Some; by eapply Hks.
  - intros u k' d' [[_ [= <- _]]|[Hm Hn]]%lookup_insert_Some; [lia|]. transitivity delta; [by eapply Hrem|by eapply Hque].
  - intros u k' d' [[_ [=]]|[Hm Hn]]%lookup_insert_Some. by eapply Hmin.
  - intros s k0 Hs. destruct (Hst s k0 Hs) as (k' & d' & q' & Hs' & Hle). destruct (decide (s = v)) as [->|Hsv].
    + exists k, d, false. rewrite lookup_insert_eq. split; [done|]. rewrite Hq in Hs'. by injection Hs' as <- _ _.
    + exists k', d', q'. by rewrite lookup_insert_ne.
  - intros u k' d' q' Hu. assert (parent_ok h u k' d') as [Hs|(kp & dp & w & Hp & Hrest)].
    { apply lookup_insert_Some in Hu as [[<- [= <- <- _]]|[_ Hu]]; by eapply Hpar. }
    + by left.
    + right. exists kp, dp, w. split; [|done]. rewrite Hq', lookup_insert_ne; [done|]. intros Heq. subst v. congruence.
Qed.

Lemma settled_insert h h' node k d :
  queue h' = <[node := (k, d, false)]> (queue h) -> settled h' = <[node := k]> (settled h).
Proof using Type.
  intros Hq. unfold settled. rewrite Hq. apply map_eq. intros u. rewrite lookup_omap.
  destruct (decide (u = node)) as [->|Hne]; [by rewrite !lookup_insert_eq|].
  rewrite !lookup_insert_ne by done. by rewrite lookup_omap.
Qed.

Lemma reached_settle h h' node k d v kv :
  queue h !! node = Some (k, d, true) -> queue h' = <[node := (k, d, false)]> (queue h) ->
  reached h v kv -> reached h' v kv.
Proof.
  intros Hq Hq' (k' & d' & q' & Hv & Hle). unfold reached. rewrite Hq'. destruct (decide (v = node)) as [->|Hne].
  - exists k, d, false. rewrite lookup_insert_eq. split; [done|]. rewrite Hq in Hv. by injection Hv as <- _ _.
  - exists k', d', q'. by rewrite lookup_insert_ne.
Qed.

(** One step of a search that acts on [t] when a node is settled. *)
Lemma step_ok c delta h :
  query_inv c delta h -> relaxed h -> Empty h = false ->
  exists node k h1 h2 h3, DeleteMin h = Some (node, h1) /\ GetKey node h1 = Some (k, h2) /\
    stall_or_relax g dir node k h2 = Some h3 /\ query_inv c k h3 /\ relaxed h3 /\
    settled h !! node = None /\ settled h3 = <[node := k]> (settled h) /\ (node < n)%N /\ up_key node k.
Proof.
  intros Hinv Hrel Hne. destruct (delete_min_inv c delta h Hinv Hne) as (v & k & d & h1 & Hdel & Hinv1 & Hq & Hq1 & Hk).
  assert (queue h1 !! v = Some (k, d, false)) as Hv1 by (by rewrite Hq1, lookup_insert_eq).
  destruct (get_key_ok c h1 v k d false (si_wf _ _ _ Hinv1) Hv1) as (h2 & Hkey & Hwf2 & Hq2).
  destruct (si_keys _ _ _ Hinv1 v k d false Hv1) as [Hvn Hup].
  assert (settled h2 = <[v := k]> (settled h)) as Hs2 by (eapply settled_insert; by rewrite Hq2).
  destruct (stall_or_relax_ok c v k h2) as (h3 & Hrun & Hinv3 & Hg3 & Hrel3); [by apply (query_inv_queue _ _ h1)|done|done|by rewrite Hs2, lookup_insert_eq|].
  exists v, k, h1, h2, h3.
  split_and!; [done|done|done|done| | |by rewrite (proj1 Hg3)|done|done].
  - intros u ku Hu. rewrite (proj1 Hg3), Hs2 in Hu. apply lookup_insert_Some in Hu as [[<- <-]|[Hne' Hu]]; [done|].
    intros Hopt x w Hx. eapply reached_grows; [done|]. eapply (reached_settle h h2); [exact Hq|by rewrite Hq2|]. by eapply Hrel.
  - destruct (settled h !! v) as [k'|] eqn:E; [|done]. apply settled_lookup in E as [d' E]. rewrite Hq in E. done.
Qed.

(** ** The loop *)

Definition loop_step {T} (act : N -> Z -> T -> option T) h (t : T) : option (BinaryHeap HeapData St * T) :=
  '(node, h1) ← DeleteMin h;
  '(k, h2) ← GetKey node h1;
  t' ← act node k t;
  h3 ← stall_or_relax g dir node k h2;
  Some (h3, t').

Lemma settled_size c delta h : query_inv c delta h -> (size (settled h) <= N.to_nat n)%nat.
Proof.
  intros Hinv. rewrite <- size_dom. transitivity (size (list_to_set (irange 0 n) : gset N)).
  - apply subseteq_size. intros v Hv. apply elem_of_dom in Hv as [k Hk]. apply settled_lookup in Hk as [d Hk].
    destruct (si_keys _ _ _ Hinv _ _ _ _ Hk) as [Hv _]. apply elem_of_list_to_set, elem_of_irange; [pose proof (sw_count g g_wf)|]; lia.
  - rewrite size_list_to_set by (apply NoDup_irange; pose proof (sw_count g g_wf); lia). rewrite length_irange; [lia|]. pose proof (sw_count g g_wf). lia.
Qed.

(** When the heap is empty every node is settled. *)
Record search_result (K : gmap N Z) : Prop := {
  sr_keys v k : K !! v = Some k -> (v < n)%N /\ up_key v k;
  sr_start s k0 : start !! s = Some k0 -> exists k, K !! s = Some k /\ (k <= k0)%Z;
  sr_relaxed u k : K !! u = Some k -> optimal u k -> forall v w, graph_arcs dir g u v w ->
    exists k', K !! v = Some k' /\ (k' <= k + Z.of_N w)%Z;
}.

Lemma empty_result c delta h : query_inv c delta h -> relaxed h -> Empty h = true -> search_result (settled h).
Proof.
  intros Hinv Hrel Hem. pose proof (proj1 (empty_ok X c h (si_wf _ _ _ Hinv)) Hem) as Hno.
  assert (forall v k, reached h v k -> exists k', settled h !! v = Some k' /\ (k' <= k)%Z) as Hall.
  { intros v k (k' & d & q & Hq & Hle). destruct q; [by apply Hno in Hq|]. exists k'. split; [|done].
    apply settled_lookup. by exists d. }
  constructor.
  - intros v k Hv. apply settled_lookup in Hv as [d Hv]. by eapply (si_keys _ _ _ Hinv).
  - intros s k0 Hs. apply Hall. by eapply (si_start _ _ _ Hinv).
  - intros u k Hu Hopt v w Hvw. apply Hall. by eapply Hrel.
Qed.

Section loop.
  Context {T : Type} (act : N -> Z -> T -> option T) (P : gmap N Z -> T -> Prop).
  Hypothesis act_ok : forall K t node k, P K t -> K !! node = None -> (node < n)%N -> up_key node k ->
    exists t', act node k t = Some t' /\ P (<[node := k]> K) t'.

Lemma explore_ok (step : BinaryHeap HeapData St -> T -> option (BinaryHeap HeapData St * T)) c :
  (forall h t, step h t = loop_step act h t) -> forall fuel delta h t,
  (N.to_nat n < fuel + size (settled h))%nat -> query_inv c delta h -> relaxed h -> P (settled h) t ->
  exists h' t', explore fuel step h t = Some (h', t') /\ P (settled h') t' /\ search_result (settled h') /\ heap_wf X c h'.
Proof.
  intros Hstep. induction fuel as [|fuel IH]; intros delta h t Hf Hinv Hrel HP; cbn [explore]; destruct (Empty h) eqn:Hem.
  1, 3: exists h, t; split_and!; [done|done|by eapply empty_result|exact (si_wf _ _ _ Hinv)].
  { pose proof (settled_size _ _ _ Hinv). lia. }
  destruct (step_ok c delta h Hinv Hrel Hem) as (v & k & h1 & h2 & h3 & Hd & Hk & Hr & Hinv3 & Hrel3 & Hnew & Hset & Hv & Hup).
  destruct (act_ok (settled h) t v k HP Hnew Hv Hup) as (t' & Hact & HP').
  rewrite Hstep. unfold loop_step. rewrite Hd. cbn [mbind option_bind]. rewrite Hk. cbn [mbind option_bind].
  rewrite Hact. cbn [mbind option_bind]. rewrite Hr. cbn [mbind option_bind].
  apply (IH k); [|done|done|by rewrite Hset]. rewrite Hset, map_size_insert_None by done. lia.
Qed.
End loop.

(** ** Distances *)

(** While the search runs, the nodes on a shortest way upwards are settled at
    their distances up to the point that the search has reached. *)
Lemma up_path_partial c delta h s k0 v l :
  query_inv c delta h -> relaxed h -> start !! s = Some k0 -> path (graph_arcs dir g) s v l -> optimal v (k0 + Z.of_N l) ->
  settled h !! v = Some (k0 + Z.of_N l)%Z \/ Empty h = false /\ (delta <= k0 + Z.of_N l)%Z.
Proof.
  intros Hinv Hrel Hs Hp. remember (N.to_nat l) as m eqn:Hm. revert v l Hp Hm. induction m as [m IH] using lt_wf_ind.
  intros v l Hp -> Hopt.
  assert (forall k, reached h v k -> k = (k0 + Z.of_N l)%Z ->
    settled h !! v = Some (k0 + Z.of_N l)%Z \/ Empty h = false /\ (delta <= k0 + Z.of_N l)%Z) as Hend.
  { intros k (k' & d & q & Hq & Hle) ->.
    pose proof (proj2 Hopt k' (up_key_sound _ _ (proj2 (si_keys _ _ _ Hinv _ _ _ _ Hq)))) as Hge.
    assert (k' = k0 + Z.of_N l)%Z as -> by lia. destruct q; [right|left; apply settled_lookup; by exists d].
    split; [|by eapply (si_queued _ _ _ Hinv)]. destruct (Empty h) eqn:E; [|done].
    by apply (proj1 (empty_ok X c h (si_wf _ _ _ Hinv)) E) in Hq. }
  destruct (path_snoc_inv _ _ _ _ Hp) as [[<- ->]|(u & l' & w & Hp' & Ha & ->)].
  - apply (Hend k0); [by apply (si_start _ _ _ Hinv)|lia].
  - assert (0 < w)%N as Hw.
    { destruct Ha as (e & He & Hu & <- & _ & Hd). destruct (g_weights u e Hu He). lia. }
    assert (optimal u (k0 + Z.of_N l')) as Hu.
    { split; [apply up_key_sound; by exists s, k0, l'|]. intros k' Hk'.
      pose proof (proj2 Hopt _ (key_within u v k' w Hk' (with_sound _ _ _ Ha))). lia. }
    destruct (IH (N.to_nat l') ltac:(lia) u l' Hp' eq_refl Hu) as [Hku|[He Hle]]; [|right; split; [done|lia]].
    apply (Hend (k0 + Z.of_N l' + Z.of_N w)%Z); [by apply (Hrel u _ Hku Hu v w Ha)|lia].
Qed.

(** On a shortest way upwards every node gets its distance. *)
Lemma up_path_exact K s k0 v l :
  search_result K -> start !! s = Some k0 -> path (graph_arcs dir g) s v l -> optimal v (k0 + Z.of_N l) ->
  K !! v = Some (k0 + Z.of_N l)%Z.
Proof.
  intros HK Hs Hp. remember (N.to_nat l) as m eqn:Hm. revert v l Hp Hm. induction m as [m IH] using lt_wf_ind.
  intros v l Hp -> Hopt. destruct (path_snoc_inv _ _ _ _ Hp) as [[<- ->]|(u & l' & w & Hp' & Ha & ->)].
  - destruct (sr_start K HK s k0 Hs) as (k & Hk & Hle). rewrite Hk. f_equal.
    pose proof (proj2 Hopt k (up_key_sound _ _ (proj2 (sr_keys K HK _ _ Hk)))). lia.
  - assert (0 < w)%N as Hw.
    { destruct Ha as (e & He & Hu & <- & _ & Hd). destruct (g_weights u e Hu He). lia. }
    assert (optimal u (k0 + Z.of_N l')) as Hu.
    { split; [apply up_key_sound; by exists s, k0, l'|]. intros k' Hk'.
      pose proof (proj2 Hopt _ (key_within u v k' w Hk' (with_sound _ _ _ Ha))). lia. }
    pose proof (IH (N.to_nat l') ltac:(lia) u l' Hp' eq_refl Hu) as Hku.
    destruct (sr_relaxed K HK u _ Hku Hu v w Ha) as (k' & Hk' & Hle). rewrite Hk'. f_equal.
    pose proof (proj2 Hopt k' (up_key_sound _ _ (proj2 (sr_keys K HK _ _ Hk')))). lia.
Qed.
End search.
