(* ===== verification/DistanceTable.v ===== *)
(** * RoutingAlgorithms/ManyToManyRouting.h: the distance table

    Every entry of the table is the length of a shortest way from one location
    to the other, on the network that the hierarchy represents. *)

From S2P Require Import Prelude Types Paths Edges Storage BinaryHeap DynamicGraph StaticGraph Text Routing QuerySearch.

(** ** Locations *)

(** The nodes of a location with their weights. *)
Definition phantom_starts (p : PhantomNode) : list (N * Z) :=
  (if negb (SPECIAL_NODEID =? forward_node_id p)%N then [(forward_node_id p, forward_offset p + forward_weight p)%Z] else []) ++
  (if negb (SPECIAL_NODEID =? reverse_node_id p)%N then [(reverse_node_id p, reverse_offset p + reverse_weight p)%Z] else []).

Definition location_starts (ps : list PhantomNode) : list (N * Z) := ps ≫= phantom_starts.

(** A location is on different nodes of the graph, at small weights. *)
Definition location_ok (nodes : N) (M : Z) (ps : list PhantomNode) : Prop :=
  NoDup (location_starts ps).*1 /\ Forall (fun s => (s.1 < nodes)%N /\ (0 <= s.2 <= M)%Z) (location_starts ps).

(** The ways from a location to another one: the part of the first edge that
    lies behind the start does not count, the part of the last one does. *)
Definition way (E : arcs) (from to : list PhantomNode) (s : Z) : Prop :=
  exists a wa b wb l, (a, wa) ∈ location_starts from /\ (b, wb) ∈ location_starts to /\ path E a b l /\
    s = (wb - wa + Z.of_N l)%Z.

(** The hierarchy [g] represents the network [E]. *)
Record represents (g : QueryGraph) (E : arcs) : Prop := {
  rp_forward u v w : graph_arcs true g u v w -> within E u v w;
  rp_backward u v w : graph_arcs false g u v w -> within E v u w;
  rp_complete s t l : path E s t l -> exists m l1 l2,
    path (graph_arcs true g) s m l1 /\ path (graph_arcs false g) t m l2 /\ (l1 + l2 <= l)%N;
}.

(** No way upwards is longer than [B]. *)
Definition upward_bound (dir : bool) (g : QueryGraph) (B : Z) : Prop :=
  forall s v l, path (graph_arcs dir g) s v l -> (Z.of_N l <= B)%Z.

(** The network as a search in one direction sees it. *)
Definition net (E : arcs) (dir : bool) : arcs := if dir then E else flip E.

Lemma net_with g E (g_rep : represents g E) dir u v w : graph_arcs dir g u v w -> within (net E dir) u v w.
Proof.
  intros Ha. destruct dir; [by apply (rp_forward g E g_rep)|]. apply (within_flip E v u w). by apply (rp_backward g E g_rep).
Qed.

Lemma net_against g E (g_rep : represents g E) dir u v w : graph_arcs (negb dir) g u v w -> within (net E dir) v u w.
Proof.
  intros Ha. destruct dir; [by apply (rp_backward g E g_rep)|]. apply (within_flip E u v w). by apply (rp_forward g E g_rep).
Qed.

(** ** Inserting the nodes of a location *)

Section insert.
  Context {St : Type} `{IndexStorageLaws St}.
  Context (X : gset N) (sg : Z) (sign : Z -> option Z) (nodes : N) (M : Z).
  Hypothesis X_nodes : forall v, (v < nodes)%N -> v ∈ X.
  Hypothesis X_small : (N.of_nat (size X) < 2147483647)%N.
  Hypothesis M_int : (M <= INT_MAX)%Z.
  Hypothesis sign_ok : forall w, (0 <= w <= M)%Z -> sign w = Some (sg * w)%Z /\ (INT_MIN <= sg * w)%Z.
  #[local] Set Default Proof Using "All".
  Implicit Types h : BinaryHeap HeapData St.

Definition start_map (l : list (N * Z)) : gmap N Z := list_to_map (prod_map id (Z.mul sg) <$> l).

Definition insert_start h (s : N * Z) : option (BinaryHeap HeapData St) :=
  k ← sign s.2; Insert s.1 k (MkHeapData s.1) h.

Lemma insert_side_eq (special : bool) v offset weight h :
  Forall (fun s => (s.1 < nodes)%N /\ (0 <= s.2 <= M)%Z) (if negb special then [(v, offset + weight)%Z] else []) ->
  (if negb special then
     w ← (if special then Some 0%Z else iadd offset weight); k ← sign w; Insert v k (MkHeapData v) h
   else Some h) = fold_m insert_start h (if negb special then [(v, offset + weight)%Z] else []).
Proof.
  destruct special; cbn [negb]; [done|]. intros [_ Hw]%Forall_singleton. simpl in Hw.
  rewrite iadd_Some by (unfold INT_MIN, INT_MAX in *; lia). cbn [mbind option_bind fold_m]. unfold insert_start.
  cbn [fst snd]. destruct (sign _) as [k|]; [|done]. cbn [mbind option_bind]. by destruct (Insert v k _ h).
Qed.

Lemma insert_phantom_eq h p :
  Forall (fun s => (s.1 < nodes)%N /\ (0 <= s.2 <= M)%Z) (phantom_starts p) ->
  insert_phantom sign h p = fold_m insert_start h (phantom_starts p).
Proof.
  unfold phantom_starts, insert_phantom, GetForwardWeightPlusOffset, GetReverseWeightPlusOffset. intros HF.
  apply Forall_app in HF as [HF1 HF2]. rewrite fold_m_app, insert_side_eq by done.
  destruct (fold_m insert_start h _) as [h1|]; [|done]. by apply insert_side_eq.
Qed.

Lemma insert_phantoms_eq ps : forall h, Forall (fun s => (s.1 < nodes)%N /\ (0 <= s.2 <= M)%Z) (location_starts ps) ->
  fold_m (insert_phantom sign) h ps = fold_m insert_start h (location_starts ps).
Proof.
  induction ps as [|p ps IH]; intros h HF; [done|]. unfold location_starts in *. rewrite bind_cons in HF |- *.
  apply Forall_app in HF as [H1 H2]. cbn [fold_m]. rewrite fold_m_app, insert_phantom_eq by done.
  destruct (fold_m insert_start h (phantom_starts p)) as [h1|]; [|done]. cbn [mbind option_bind]. by apply IH.
Qed.

Lemma insert_starts_ok c h l :
  heap_wf X c h -> queue h = ∅ -> NoDup l.*1 -> Forall (fun s => (s.1 < nodes)%N /\ (0 <= s.2 <= M)%Z) l ->
  exists h', fold_m insert_start h l = Some h' /\ heap_wf X c h' /\
    forall v, queue h' !! v = (fun k => (k, MkHeapData v, true)) <$> (start_map l !! v).
Proof.
  intros Hwf Hq Hnd HF.
  destruct (fold_m_ind insert_start (fun pre h' => heap_wf X c h' /\
    forall v, queue h' !! v = (fun k => (k, MkHeapData v, true)) <$> (start_map (reverse pre) !! v)) l h) as (h' & Hrun & Hwf' & Hq').
  - split; [done|]. intros v. by rewrite Hq, lookup_empty.
  - intros pre [v w] post h1 Hl [Hwf1 Hq1]. rewrite Hl in HF, Hnd. apply Forall_app in HF as [HFp HF].
    apply Forall_cons in HF as [[Hv Hw] _]. simpl in Hv, Hw.
    destruct (sign_ok w Hw) as [Hs Hmin]. unfold insert_start. simpl. rewrite Hs. cbn [mbind option_bind].
    rewrite fmap_app, fmap_cons, NoDup_app in Hnd. destruct Hnd as (_ & Hnin & _).
    assert (start_map (reverse pre) !! v = None) as Hnone.
    { apply not_elem_of_list_to_map_1. rewrite <- list_fmap_compose. intros [[v' w'] [Hv' Hin]]%list_elem_of_fmap.
      simpl in Hv'. subst v'. rewrite elem_of_reverse in Hin. apply (Hnin v); [|by left].
      apply list_elem_of_fmap. by exists (v, w'). }
    assert (queue h1 !! v = None) as Hqv by (by rewrite Hq1, Hnone).
    destruct (insert_ok X c h1 v (sg * w) (MkHeapData v) Hwf1) as (h2 & Hins & Hwf2 & Hq2); [by apply X_nodes|done|done| |].
    { rewrite <- (size_queue X c h1 Hwf1), <- size_dom. assert (dom (queue h1) ⊆ X) as Hsub.
      { intros u Hu. apply elem_of_dom in Hu as [x Hx]. rewrite Hq1 in Hx. apply X_nodes.
        destruct (start_map (reverse pre) !! u) as [k|] eqn:Eu; [|done]. apply elem_of_list_to_map_2 in Eu.
        apply list_elem_of_fmap in Eu as [[u' w'] [[= -> _] Hin]]. rewrite elem_of_reverse in Hin.
        rewrite Forall_forall in HFp. by destruct (HFp _ Hin). }
      apply subseteq_size in Hsub. lia. }
    exists h2. split; [done|]. split; [done|]. intros u. rewrite Hq2, reverse_snoc. unfold start_map at 1. simpl.
    destruct (decide (u = v)) as [->|Hne]; [by rewrite !lookup_insert_eq|]. rewrite !lookup_insert_ne by done. apply Hq1.
  - exists h'. split; [done|]. split; [done|]. intros v. rewrite Hq'. f_equal.
    unfold start_map. rewrite fmap_reverse.
    rewrite (list_to_map_proper (reverse (prod_map id (Z.mul sg) <$> l)) (prod_map id (Z.mul sg) <$> l)); [done| |apply reverse_Permutation].
    rewrite fmap_reverse, <- list_fmap_compose, reverse_Permutation. exact Hnd.
Qed.
End insert.

(** ** Least values *)

(** A value that is at most the least element of a set, and not below all of
    them, is the least element. *)
Lemma least_attained (P : Z -> Prop) x :
  (forall s, P s -> (0 <= s)%Z) -> (forall s, P s -> (forall s', P s' -> (s <= s')%Z) -> (x <= s)%Z /\ (s < INT_MAX)%Z) ->
  (x = INT_MAX \/ exists s, P s /\ (s <= x)%Z) ->
  x = INT_MAX /\ (forall s, ~ P s) \/ P x /\ forall s, P s -> (x <= s)%Z.
Proof.
  intros Hpos Hleast Hx.
  assert (forall m s, P s -> (Z.to_nat s <= m)%nat -> ~ ((s < x)%Z \/ x = INT_MAX)) as Hno.
  { induction m as [|m IH]; intros s Hs Hm Hbad; destruct (Hleast s Hs) as [Hle Hlt]; try lia.
    - intros s' Hs'. pose proof (Hpos s' Hs'). lia.
    - intros s' Hs'. destruct (decide (s <= s')%Z) as [|Hnot]; [done|]. exfalso. apply (IH s' Hs'); [|lia].
      pose proof (Hpos s' Hs'). lia. }
  destruct (decide (x = INT_MAX)) as [Heq|Hne].
  - left. split; [done|]. intros s Hs. eapply (Hno _ s Hs); [reflexivity|by right].
  - right. destruct Hx as [?|(s0 & Hs0 & Hle)]; [done|].
    assert (forall s, P s -> (x <= s)%Z) as Hall.
    { intros s Hs. destruct (decide (x <= s)%Z) as [|Hlt]; [done|]. exfalso. eapply (Hno _ s Hs); [reflexivity|left; lia]. }
    split; [|done]. pose proof (Hall s0 Hs0). replace x with s0 by lia. done.
Qed.

(** ** One search *)

Section searches.
  Context {St : Type} `{IndexStorageLaws St}.
  Context (X : gset N) (g : QueryGraph) (E : arcs) (W M B : Z).
  Abbreviation n := (sg_number_of_nodes g).
  Hypothesis g_wf : static_wf g.
  Hypothesis g_weights : weights_ok W g.
  Hypothesis X_nodes : forall v, (v < n)%N -> v ∈ X.
  Hypothesis X_small : (N.of_nat (size X) < 2147483647)%N.
  Hypothesis g_rep : represents g E.
  Hypothesis g_bound : forall dir, upward_bound dir g B.
  Hypothesis room : (0 <= M /\ 0 <= B /\ 0 <= W /\ M + 2 * B + W < INT_MAX)%Z.
  #[local] Set Default Proof Using "All".
  Implicit Types h : BinaryHeap HeapData St.

(** A forward search starts at minus the weights, a backward one at the
    weights, and runs on the reversed network. *)
Definition factor (dir : bool) : Z := if dir then (-1)%Z else 1%Z.
Definition sign_of (dir : bool) : Z -> option Z := if dir then ineg else Some.
Definition lowest (dir : bool) : Z := if dir then (- M)%Z else 0%Z.
Definition highest (dir : bool) : Z := if dir then B else (M + B)%Z.

(** What a search from a location finds. *)
Definition found (dir : bool) (ps : list PhantomNode) (K : gmap N Z) : Prop :=
  search_result g dir (net E dir) (start_map (factor dir) (location_starts ps)) K.

Lemma sign_of_ok dir w : (0 <= w <= M)%Z -> sign_of dir w = Some (factor dir * w)%Z /\ (INT_MIN <= factor dir * w)%Z.
Proof.
  intros Hw. unfold sign_of, factor, INT_MIN, INT_MAX in *. destruct dir.
  - replace (-1 * w)%Z with (- w)%Z by lia. split; [|lia]. apply i32_Some. unfold INT_MIN, INT_MAX. lia.
  - rewrite Z.mul_1_l. split; [done|lia].
Qed.

Lemma start_map_elem sg l v k : NoDup l.*1 -> start_map sg l !! v = Some k <-> exists w, (v, w) ∈ l /\ k = (sg * w)%Z.
Proof.
  intros Hnd. unfold start_map. rewrite <- elem_of_list_to_map.
  - rewrite list_elem_of_fmap. split.
    + intros [[v' w] [[= -> ->] Hin]]. by exists w.
    + intros (w & Hin & ->). by exists (v, w).
  - by rewrite <- list_fmap_compose.
Qed.

Lemma starts_in_range dir ps s k : location_ok n M ps -> start_map (factor dir) (location_starts ps) !! s = Some k ->
  (s < n)%N /\ (lowest dir <= k <= highest dir - B)%Z.
Proof.
  intros [Hnd HF] Hs. apply start_map_elem in Hs as (w & Hin & ->); [|done]. rewrite Forall_forall in HF.
  destruct (HF _ Hin) as [Hv Hw]. simpl in *. unfold factor, lowest, highest. destruct dir; lia.
Qed.

Lemma up_key_range dir ps v k : location_ok n M ps ->
  up_key g dir (start_map (factor dir) (location_starts ps)) v k -> (lowest dir <= k <= highest dir)%Z.
Proof.
  intros Hps (s & k0 & l & Hs & Hp & ->). destruct (starts_in_range dir ps s k0 Hps Hs). pose proof (g_bound dir s v l Hp). lia.
Qed.

Lemma location_search_ok {T} dir ps c h m (act : N -> Z -> T -> option T) (P : gmap N Z -> T -> Prop) step t :
  location_ok n M ps -> st_rep X (c + 1) (node_index h) m ->
  (forall h t, step h t = loop_step g dir act h t) -> P ∅ t ->
  (forall K t node k, P K t -> K !! node = None -> (node < n)%N -> (lowest dir <= k <= highest dir)%Z ->
    exists t', act node k t = Some t' /\ P (<[node := k]> K) t') ->
  exists h1 h2 t2 K, fold_m (insert_phantom (sign_of dir)) (Clear h) ps = Some h1 /\
    explore (S (N.to_nat n)) step h1 t = Some (h2, t2) /\ P K t2 /\ found dir ps K /\ heap_wf X c h2.
Proof.
  intros Hps Hrep Hstep HP Hact. destruct (clear_wf X c h m Hrep) as [Hwf Hq].
  destruct (insert_starts_ok X (factor dir) (sign_of dir) n M X_nodes X_small ltac:(lia) (sign_of_ok dir) c (Clear h) (location_starts ps)
    Hwf Hq) as (h1 & Hins & Hwf1 & Hq1); [exact (proj1 Hps)|exact (proj2 Hps)|].
  exists h1. rewrite (insert_phantoms_eq X (factor dir) (sign_of dir) n M X_nodes X_small ltac:(lia) (sign_of_ok dir)) by exact (proj2 Hps).
  set (start := start_map (factor dir) (location_starts ps)) in *.
  assert (query_inv X g dir start c (lowest dir) h1) as Hinv.
  { constructor; [done|..]; intros v k; setoid_rewrite Hq1.
    - intros d q Hv. destruct (start !! v) as [k'|] eqn:Ev; [|done]. injection Hv as <- _ _.
      split; [by eapply starts_in_range|]. exists v, k', 0%N. split_and!; [done|constructor|lia].
    - intros d Hv. by destruct (start !! v).
    - intros d Hv. destruct (start !! v) as [k'|] eqn:Ev; [|done]. injection Hv as <- _.
      destruct (starts_in_range dir ps v k' Hps Ev). lia.
    - intros Hv. rewrite Hv. eexists _, _, _. split; [done|lia].
    - intros d q Hv. destruct (start !! v) as [k'|] eqn:Ev; [|done]. injection Hv as <- <- _. by left. }
  assert (settled h1 = ∅) as Hset.
  { apply map_eq. intros v. unfold settled. rewrite lookup_omap, Hq1, lookup_empty. by destruct (start !! v). }
  assert (relaxed g dir (net E dir) start h1) as Hrel by (intros u k; by rewrite Hset).
  destruct (explore_ok X g dir (net E dir) start W (lowest dir) (highest dir)) with (act := act) (P := P) (step := step)
    (c := c) (fuel := S (N.to_nat n)) (delta := lowest dir) (h := h1) (t := t) as (h2 & t2 & Hrun & HP2 & Hres & Hwf2);
    try done.
  - apply (net_with g E g_rep).
  - apply (net_against g E g_rep).
  - intros s k Hs. destruct (starts_in_range dir ps s k Hps Hs). split; [done|lia].
  - intros v k Hk. apply (up_key_range dir ps v k Hps Hk).
  - unfold lowest, highest, INT_MIN, INT_MAX in *. destruct dir; lia.
  - intros K t' v k HPK Hnew Hv Hup. apply Hact; [done|done|done|]. exact (up_key_range dir ps v k Hps Hup).
  - rewrite Hset, map_size_empty. lia.
  - by rewrite Hset.
  - exists h2, t2, (settled h2). done.
Qed.

(** ** The buckets *)

Definition buckets_of (bk : gmap N (list NodeBucket)) (Ks : list (gmap N Z)) : Prop :=
  forall v b, b ∈ default [] (bk !! v) <-> exists K, vget Ks (target_id b) = Some K /\ K !! v = Some (nb_distance b).

Lemma backward_step_eq target h bk : BackwardRoutingStep g target h bk =
  loop_step g false (fun node k bk => Some (<[node := default [] (bk !! node) ++ [MkNodeBucket target k]]> bk)) h bk.
Proof. done. Qed.

Lemma target_location_search_ok c h m bk ps Ks :
  location_ok n M ps -> st_rep X (c + 1) (node_index h) m -> buckets_of bk Ks -> (vsize Ks < 65536)%N ->
  exists h' bk' K m', target_search g (h, bk, vsize Ks) ps = Some (h', bk', vsize (Ks ++ [K])) /\ found false ps K /\
    buckets_of bk' (Ks ++ [K]) /\ st_rep X c (node_index h') m'.
Proof.
  intros Hps Hrep Hbk Hsz.
  destruct (location_search_ok false ps c h m (fun node k bk => Some (<[node := default [] (bk !! node) ++ [MkNodeBucket (vsize Ks) k]]> bk))
    (fun K bk' => forall v b, b ∈ default [] (bk' !! v) <->
       b ∈ default [] (bk !! v) \/ target_id b = vsize Ks /\ K !! v = Some (nb_distance b))
    (BackwardRoutingStep g (vsize Ks)) bk Hps Hrep (backward_step_eq (vsize Ks))) as (h1 & h2 & bk' & K & Hins & Hrun & HP & Hf & Hwf).
  - intros v b. rewrite lookup_empty. naive_solver.
  - intros K t v k HP Hnew Hv Hk. eexists. split; [done|]. intros u b. destruct (decide (u = v)) as [->|Hne].
    + rewrite !lookup_insert_eq. simpl. rewrite elem_of_app, list_elem_of_singleton, HP, Hnew. destruct b as [t' d]. simpl. naive_solver.
    + rewrite !lookup_insert_ne by done. apply HP.
  - destruct (hw_index _ _ _ Hwf) as (m' & Hm' & _). exists h2, bk', K, m'. unfold target_search.
    change (@Some Z) with (sign_of false). rewrite Hins. cbn [mbind option_bind]. rewrite Hrun. cbn [mbind option_bind].
    rewrite vsize_app. change (vsize [K]) with 1%N. rewrite uadd_small by lia. split_and!; [done|done| |done].
    intros v b. rewrite HP, (Hbk v b). split.
    + intros [(K' & HK' & Hd)|[Ht Hd]].
      * exists K'. split; [|done]. rewrite vget_snoc. pose proof (vget_Some_lt _ _ _ HK'). case_decide; [lia|done].
      * exists K. split; [|done]. rewrite vget_snoc. by rewrite decide_True.
    + intros (K' & HK' & Hd). rewrite vget_snoc in HK'. case_decide; [injection HK' as <-; by right|left; by exists K'].
Qed.

Lemma target_searches_ok c h m locs :
  Forall (location_ok n M) locs -> st_rep X c (node_index h) m -> (vsize locs <= c)%N -> (vsize locs < 65536)%N ->
  exists h' bk Ks m', fold_m (target_search g) (h, ∅, 0%N) locs = Some (h', bk, vsize locs) /\
    Forall2 (found false) locs Ks /\ buckets_of bk Ks /\ st_rep X (c - vsize locs) (node_index h') m'.
Proof.
  intros Hlocs Hrep Hc Hsz.
  destruct (fold_m_ind (target_search g) (fun pre s => exists h' bk Ks m', s = (h', bk, vsize pre) /\
    Forall2 (found false) pre Ks /\ buckets_of bk Ks /\ st_rep X (c - vsize pre) (node_index h') m') locs (h, ∅, 0%N))
    as (s & Hrun & h' & bk & Ks & m' & -> & Hres).
  - exists h, ∅, [], m. change (vsize []) with 0%N. rewrite N.sub_0_r. split_and!; [done|done| |done].
    intros v b. rewrite lookup_empty. simpl. setoid_rewrite vget_nil. split; [by intros ?%not_elem_of_nil|naive_solver].
  - intros pre ps post s Hl (h' & bk & Ks & m' & -> & HF & Hbk & Hrep').
    assert (vsize pre = vsize Ks) as Hlen by (unfold vsize; by rewrite (Forall2_length _ _ _ HF)).
    assert (vsize pre + 1 <= vsize locs)%N as Hle by (rewrite Hl, vsize_app; unfold vsize; simpl; lia).
    rewrite Hl in Hlocs. apply Forall_app in Hlocs as [_ Hlocs]. apply Forall_cons in Hlocs as [Hps _].
    replace (c - vsize pre)%N with ((c - vsize pre - 1) + 1)%N in Hrep' by lia.
    destruct (target_location_search_ok _ h' m' bk ps Ks Hps Hrep' Hbk) as (h2 & bk2 & K & m2 & Hrun & Hf & Hbk2 & Hrep2); [lia|].
    rewrite Hlen, Hrun. eexists. split; [done|]. exists h2, bk2, (Ks ++ [K]), m2.
    rewrite !vsize_app, Hlen. split_and!; [done|apply Forall2_app; [done|by constructor]|done|].
    change (vsize [ps]) with 1%N. replace (c - (vsize Ks + 1))%N with (c - vsize pre - 1)%N by lia. done.
  - exists h', bk, Ks, m'. done.
Qed.

(** ** The table *)

(** The least element of a set that is not negative, if there is one. *)
Definition is_min (S : Z -> Prop) (x : Z) : Prop :=
  (x = INT_MAX \/ S x /\ (0 <= x)%Z) /\ forall y, S y -> (0 <= y)%Z -> (x <= y)%Z.

Lemma is_min_ext S S' x : (forall y, S y <-> S' y) -> is_min S x -> is_min S' x.
Proof. intros Hs [H1 H2]. split; [by rewrite <- Hs|]. intros y Hy. by apply H2, Hs. Qed.

Lemma is_min_step S x s : is_min S x ->
  is_min (fun y => S y \/ y = s) (if ((0 <=? s) && (s <? x))%Z then s else x).
Proof.
  intros [H1 H2]. destruct (Z.leb_spec 0 s); simpl; [destruct (Z.ltb_spec s x)|].
  - split; [right; split; [by right|done]|]. intros y [Hy| ->] Hy0; [|lia]. pose proof (H2 y Hy Hy0). lia.
  - split; [naive_solver|]. intros y [Hy| ->] Hy0; [by apply H2|lia].
  - split; [naive_solver|]. intros y [Hy| ->] Hy0; [by apply H2|lia].
Qed.

(** The sums over the nodes two searches have in common. *)
Definition sums (K KB : gmap N Z) (y : Z) : Prop := exists v a b, K !! v = Some a /\ KB !! v = Some b /\ y = (a + b)%Z.

Section rows.
  Context (nl : N) (KBs : list (gmap N Z)) (locs : list (list PhantomNode)).
  Hypothesis locs_ok : Forall (location_ok n M) locs.
  Hypothesis KBs_found : Forall2 (found false) locs KBs.
  Hypothesis nl_size : vsize locs = nl.
  Hypothesis nl_small : (nl * nl < 4294967296)%N.
  #[local] Set Default Proof Using "All".

Definition row_ok (i : N) (S : N -> gmap N Z -> Z -> Prop) (tab : list Z) : Prop :=
  forall j KB, vget KBs j = Some KB -> exists x, vget tab (i * nl + j) = Some x /\ is_min (S j KB) x.

Lemma KB_index j KB : vget KBs j = Some KB -> (j < nl)%N.
Proof. intros Hj%vget_Some_lt. rewrite <- nl_size. unfold vsize in *. by rewrite (Forall2_length _ _ _ KBs_found). Qed.

Lemma KB_range j KB v k : vget KBs j = Some KB -> KB !! v = Some k -> (0 <= k <= M + B)%Z.
Proof.
  intros Hj Hv. rewrite vget_lookup in Hj. destruct (Forall2_lookup_r _ _ _ _ _ KBs_found Hj) as (ps & Hps & Hf).
  rewrite Forall_lookup in locs_ok. exact (up_key_range false ps v k (locs_ok _ _ Hps) (proj2 (sr_keys _ _ _ _ _ Hf v k Hv))).
Qed.

Lemma cell_small i j : (i < nl)%N -> (j < nl)%N -> uadd (u32 (i * nl)) j = (i * nl + j)%N /\ (i * nl + j < nl * nl)%N.
Proof. intros Hi Hj. assert (i * nl + j < nl * nl)%N by nia. rewrite u32_small, uadd_small by nia. done. Qed.

Lemma update_entry_ok i S k tab b KB :
  (i < nl)%N -> row_ok i S tab -> vget KBs (target_id b) = Some KB -> (- M <= k <= B)%Z -> (0 <= nb_distance b <= M + B)%Z ->
  exists tab', update_entry i nl k tab b = Some tab' /\
    row_ok i (fun j KB y => S j KB y \/ target_id b = j /\ y = (k + nb_distance b)%Z) tab' /\
    vsize tab' = vsize tab /\ forall e, (forall j, (j < nl)%N -> e <> i * nl + j)%N -> vget tab' e = vget tab e.
Proof.
  intros Hi Hrow Hb Hk Hd. pose proof (KB_index _ _ Hb) as Hj. destruct (cell_small i _ Hi Hj) as [Hcell Hlt].
  destruct (Hrow _ _ Hb) as (x & Hx & Hmin). unfold update_entry. rewrite Hcell, Hx. cbn [mbind option_bind].
  rewrite iadd_Some by (unfold INT_MIN, INT_MAX in *; lia). cbn [mbind option_bind].
  pose proof (vget_Some_lt _ _ _ Hx) as Hin. set (y := (k + nb_distance b)%Z) in *.
  pose proof (is_min_step _ x y Hmin) as Hmin'. exists (<[N.to_nat (i * nl + target_id b) := if ((0 <=? y) && (y <? x))%Z then y else x]> tab).
  split_and!.
  - destruct ((0 <=? y) && (y <? x))%Z; [by apply vset_lt|]. rewrite list_insert_id; [done|]. by rewrite <- vget_lookup.
  - intros j KB' HKB'. rewrite vget_insert. destruct (decide (j = target_id b)) as [->|Hne].
    + rewrite decide_True by done. eexists. split; [done|].
      rewrite Hb in HKB'. injection HKB' as <-. eapply is_min_ext; [|exact Hmin']. naive_solver.
    + rewrite decide_False by lia. destruct (Hrow j KB' HKB') as (x' & Hx' & Hm'). exists x'. split; [done|].
      eapply is_min_ext; [|exact Hm']. naive_solver.
  - by rewrite vsize_insert.
  - intros e He. rewrite vget_insert. rewrite decide_False; [done|]. intros [Heq _]. by apply (He (target_id b)).
Qed.

(** The buckets of one node. *)
Lemma scan_bucket_ok i K k bk v tab :
  (i < nl)%N -> buckets_of bk KBs -> row_ok i (fun _ => sums K) tab -> K !! v = None -> (- M <= k <= B)%Z ->
  exists tab', fold_m (update_entry i nl k) tab (default [] (bk !! v)) = Some tab' /\
    row_ok i (fun _ => sums (<[v := k]> K)) tab' /\ vsize tab' = vsize tab /\
    forall e, (forall j, (j < nl)%N -> e <> i * nl + j)%N -> vget tab' e = vget tab e.
Proof.
  intros Hi Hbk Hrow Hnew Hk. set (bl := default [] (bk !! v)).
  destruct (fold_m_ind (update_entry i nl k) (fun pre tab' =>
    row_ok i (fun j KB y => sums K KB y \/ exists b, b ∈ pre /\ target_id b = j /\ y = (k + nb_distance b)%Z) tab' /\
    vsize tab' = vsize tab /\ forall e, (forall j, (j < nl)%N -> e <> i * nl + j)%N -> vget tab' e = vget tab e) bl tab)
    as (tab' & Hrun & Hrow' & Hsz & Hrest).
  - split_and!; [|done|done]. intros j KB HKB. destruct (Hrow j KB HKB) as (x & Hx & Hm). exists x. split; [done|].
    eapply is_min_ext; [|exact Hm]. intros y. split; [by left|]. intros [Hy|(b & Hb%not_elem_of_nil & _)]; done.
  - intros pre b post tab1 Hl (Hrow1 & Hsz1 & Hrest1).
    assert (b ∈ bl) as Hb by (rewrite Hl; apply elem_of_app; right; by left).
    apply Hbk in Hb as (KB & HKB & Hv). pose proof (KB_range _ _ _ _ HKB Hv) as Hd.
    destruct (update_entry_ok i _ k tab1 b KB Hi Hrow1 HKB Hk Hd) as (tab2 & Hrun & Hrow2 & Hsz2 & Hrest2).
    exists tab2. split_and!; [done| |by rewrite Hsz2|intros e He; rewrite Hrest2 by done; by apply Hrest1].
    intros j KB' HKB'. destruct (Hrow2 j KB' HKB') as (x & Hx & Hm). exists x. split; [done|].
    eapply is_min_ext; [|exact Hm]. intros y. split.
    + intros [[Hy|(b' & Hb' & ? & ?)]|[? ?]]; [by left|right; exists b'; split_and!; [apply elem_of_app; by left|done|done]|].
      right. exists b. split_and!; [apply elem_of_app; right; by left|done|done].
    + intros [Hy|(b' & [Hb'| ->%list_elem_of_singleton]%elem_of_app & ? & ?)]; [by left; left|left; right; by exists b'|by right].
  - exists tab'. split_and!; [done| |done|done]. intros j KB HKB. destruct (Hrow' j KB HKB) as (x & Hx & Hm).
    exists x. split; [done|]. eapply is_min_ext; [|exact Hm]. intros y. split.
    + intros [(u & a & b & Hu & Hb & ->)|(b & Hb & <- & ->)].
      * exists u, a, b. rewrite lookup_insert_ne by (intros ->; congruence). done.
      * apply Hbk in Hb as (KB' & HKB' & Hv). rewrite HKB in HKB'. injection HKB' as <-.
        exists v, k, (nb_distance b). by rewrite lookup_insert_eq.
    + intros (u & a & b & [[<- <-]|[Hne Hu]]%lookup_insert_Some & Hb & ->).
      * right. exists (MkNodeBucket j b). split_and!; [|done|done]. apply Hbk. by exists KB.
      * left. by exists u, a, b.
Qed.

Lemma forward_step_eq i bk h tab : ForwardRoutingStep g i nl h bk tab =
  loop_step g true (fun node k tab => fold_m (update_entry i nl k) tab (default [] (bk !! node))) h tab.
Proof. done. Qed.

Lemma source_location_search_ok c h m bk tab ps i :
  location_ok n M ps -> st_rep X (c + 1) (node_index h) m -> buckets_of bk KBs -> (i < nl)%N ->
  (forall j, (j < nl)%N -> vget tab (i * nl + j) = Some INT_MAX) ->
  exists h' tab' K m', source_search g nl bk (h, tab, i) ps = Some (h', tab', (i + 1)%N) /\ found true ps K /\
    row_ok i (fun _ => sums K) tab' /\ st_rep X c (node_index h') m' /\ vsize tab' = vsize tab /\
    forall e, (forall j, (j < nl)%N -> e <> i * nl + j)%N -> vget tab' e = vget tab e.
Proof.
  intros Hps Hrep Hbk Hi Htab.
  destruct (location_search_ok true ps c h m (fun node k tab => fold_m (update_entry i nl k) tab (default [] (bk !! node)))
    (fun K tab' => row_ok i (fun _ => sums K) tab' /\ vsize tab' = vsize tab /\
       forall e, (forall j, (j < nl)%N -> e <> i * nl + j)%N -> vget tab' e = vget tab e)
    (fun h t => ForwardRoutingStep g i nl h bk t) tab Hps Hrep (forward_step_eq i bk))
    as (h1 & h2 & tab' & K & Hins & Hrun & (Hrow & Hsz & Hrest) & Hf & Hwf).
  - split_and!; [|done|done]. intros j KB HKB. exists INT_MAX. split; [apply Htab; by eapply KB_index|].
    split; [by left|]. intros y (v & a & b & Hv & _). by rewrite lookup_empty in Hv.
  - intros K t v k (Hrow & Hsz & Hrest) Hnew Hv Hk.
    destruct (scan_bucket_ok i K k bk v t Hi Hbk Hrow Hnew Hk) as (t' & Hrun & Hrow' & Hsz' & Hrest').
    exists t'. split_and!; [done|done|by rewrite Hsz'|]. intros e He. rewrite Hrest' by done. by apply Hrest.
  - destruct (hw_index _ _ _ Hwf) as (m' & Hm' & _). exists h2, tab', K, m'. unfold source_search.
    change ineg with (sign_of true). rewrite Hins. cbn [mbind option_bind]. rewrite Hrun. cbn [mbind option_bind].
    rewrite uadd_small by nia. done.
Qed.

Lemma source_searches_ok c h m bk tab :
  st_rep X c (node_index h) m -> (nl <= c)%N -> buckets_of bk KBs ->
  (forall i j, (i < nl)%N -> (j < nl)%N -> vget tab (i * nl + j) = Some INT_MAX) ->
  exists h' tab' KFs, fold_m (source_search g nl bk) (h, tab, 0%N) locs = Some (h', tab', nl) /\
    Forall2 (found true) locs KFs /\ vsize tab' = vsize tab /\
    forall i KF, vget KFs i = Some KF -> row_ok i (fun _ => sums KF) tab'.
Proof.
  intros Hrep Hc Hbk Htab.
  destruct (fold_m_ind (source_search g nl bk) (fun pre s => exists h' tab' KFs m', s = (h', tab', vsize pre) /\
    st_rep X (c - vsize pre) (node_index h') m' /\ Forall2 (found true) pre KFs /\ vsize tab' = vsize tab /\
    (forall i KF, vget KFs i = Some KF -> row_ok i (fun _ => sums KF) tab') /\
    forall i j, (vsize pre <= i < nl)%N -> (j < nl)%N -> vget tab' (i * nl + j) = Some INT_MAX) locs (h, tab, 0%N))
    as (s & Hrun & h' & tab' & KFs & m' & -> & _ & HF & Hsz & Hrows & _).
  - exists h, tab, [], m. change (vsize []) with 0%N. rewrite N.sub_0_r. split_and!; try done; [by intros i KF; rewrite vget_nil|].
    intros i j [_ Hi]. by apply Htab.
  - intros pre ps post s Hl (h' & tab' & KFs & m' & -> & Hrep' & HF & Hsz & Hrows & Hrest).
    assert (vsize pre = vsize KFs) as Hlen by (unfold vsize; by rewrite (Forall2_length _ _ _ HF)).
    assert (vsize pre + 1 <= nl)%N as Hle by (rewrite <- nl_size, Hl, vsize_app; unfold vsize; simpl; lia).
    assert (location_ok n M ps) as Hps by (rewrite Forall_forall in locs_ok; apply locs_ok; rewrite Hl; apply elem_of_app; right; by left).
    replace (c - vsize pre)%N with ((c - vsize pre - 1) + 1)%N in Hrep' by lia.
    destruct (source_location_search_ok _ h' m' bk tab' ps (vsize pre) Hps Hrep' Hbk) as (h2 & tab2 & K & m2 & Hrun & Hf & Hrow & Hrep2 & Hsz2 & Hkeep);
      [lia|intros j Hj; apply Hrest; lia|].
    rewrite Hrun. eexists. split; [done|]. exists h2, tab2, (KFs ++ [K]), m2. rewrite !vsize_app. change (vsize [ps]) with 1%N.
    split_and!; [done| |apply Forall2_app; [done|by constructor]|by rewrite Hsz2| |].
    + replace (c - (vsize pre + 1))%N with (c - vsize pre - 1)%N by lia. done.
    + intros i KF. rewrite vget_snoc. case_decide as Hi; [intros [= <-]; by rewrite Hi, <- Hlen|].
      intros HKF j KB HKB. destruct (Hrows i KF HKF j KB HKB) as (x & Hx & Hm). exists x. split; [|done]. rewrite Hkeep; [done|].
      intros j' Hj'. pose proof (KB_index _ _ HKB). pose proof (vget_Some_lt _ _ _ HKF). nia.
    + intros i j Hi Hj. rewrite Hkeep; [apply Hrest; lia|]. intros j' Hj'. nia.
  - exists h', tab', KFs. rewrite Hrun, nl_size. done.
Qed.
End rows.

(** ** Shortest ways *)

Lemma found_sound dir ps K v k : location_ok n M ps -> found dir ps K -> K !! v = Some k ->
  exists a w l, (a, w) ∈ location_starts ps /\ path (net E dir) a v l /\ (factor dir * w + Z.of_N l <= k)%Z.
Proof.
  intros Hps HK Hv. destruct (sr_keys _ _ _ _ _ HK v k Hv) as (_ & s & k0 & l & Hs & Hp & ->).
  apply start_map_elem in Hs as (w & Hin & ->); [|exact (proj1 Hps)].
  destruct (path_subst _ _ _ _ _ (net_with g E g_rep dir) Hp) as (l' & Hl & Hp'). exists s, w, l'. split_and!; [done|done|lia].
Qed.

Lemma found_exact dir ps K a w v l : location_ok n M ps -> found dir ps K -> (a, w) ∈ location_starts ps ->
  path (graph_arcs dir g) a v l ->
  (forall a' w' l', (a', w') ∈ location_starts ps -> path (net E dir) a' v l' ->
     factor dir * w + Z.of_N l <= factor dir * w' + Z.of_N l')%Z ->
  K !! v = Some (factor dir * w + Z.of_N l)%Z.
Proof.
  intros Hps HK Hin Hp Hmin. set (start := start_map (factor dir) (location_starts ps)).
  assert (start !! a = Some (factor dir * w)%Z) as Ha by (apply start_map_elem; [exact (proj1 Hps)|by exists w]).
  apply (up_path_exact X g dir (net E dir) start W (lowest dir) (highest dir) g_wf g_weights X_nodes X_small (net_with g E g_rep dir) (net_against g E g_rep dir))
    with (s := a); try done.
  - intros s k Hs. destruct (starts_in_range dir ps s k Hps Hs). split; [done|lia].
  - intros u k Hk. apply (up_key_range dir ps u k Hps Hk).
  - unfold lowest, highest, INT_MIN, INT_MAX in *. destruct dir; lia.
  - split.
    + destruct (path_subst _ _ _ _ _ (net_with g E g_rep dir) Hp) as (l' & Hl & Hp'). eexists a, _, l'. split_and!; [exact Ha|done|lia].
    + intros k' (s & k0 & l' & Hs & Hp' & Hle). apply start_map_elem in Hs as (w' & Hin' & ->); [|exact (proj1 Hps)].
      pose proof (Hmin s w' l' Hin' Hp'). lia.
Qed.

Lemma sums_way from to KF KB y : location_ok n M from -> location_ok n M to -> found true from KF -> found false to KB ->
  sums KF KB y -> exists s, way E from to s /\ (s <= y)%Z.
Proof.
  intros Hfrom Hto HF HB (v & a & b & Ha & Hb & ->).
  destruct (found_sound true from KF v a Hfrom HF Ha) as (s & ws & l1 & Hs & Hp1 & Hle1).
  destruct (found_sound false to KB v b Hto HB Hb) as (t & wt & l2 & Ht & Hp2 & Hle2). apply path_flip in Hp2.
  exists (wt - ws + Z.of_N (l1 + l2))%Z. split; [|unfold factor in *; lia].
  exists s, ws, t, wt, (l1 + l2)%N. split_and!; [done|done|by eapply path_app|done].
Qed.

(** A shortest way is among the sums. *)
Lemma way_sums from to KF KB s : location_ok n M from -> location_ok n M to -> found true from KF -> found false to KB ->
  way E from to s -> (forall s', way E from to s' -> (s <= s')%Z) -> sums KF KB s /\ (s < INT_MAX)%Z.
Proof.
  intros Hfrom Hto HF HB (a & wa & b & wb & l & Ha & Hb & Hp & ->) Hmin.
  destruct (rp_complete g E g_rep a b l Hp) as (v & l1 & l2 & Hp1 & Hp2 & Hle).
  destruct (path_subst _ _ _ _ _ (net_with g E g_rep true) Hp1) as (l1' & Hl1 & Hp1').
  destruct (path_subst _ _ _ _ _ (net_with g E g_rep false) Hp2) as (l2' & Hl2 & Hp2').
  pose proof (path_flip _ _ _ _ Hp2') as Hp2''.
  assert (KF !! v = Some (factor true * wa + Z.of_N l1)%Z) as HKF.
  { apply (found_exact true from KF a); [done|done|done|done|]. intros a' wa' l' Ha' Hp'.
    assert (way E from to (wb - wa' + Z.of_N (l' + l2'))) as Hw
      by (exists a', wa', b, wb, (l' + l2')%N; split_and!; [done|done|by eapply path_app|done]).
    pose proof (Hmin _ Hw). unfold factor. lia. }
  assert (KB !! v = Some (factor false * wb + Z.of_N l2)%Z) as HKB.
  { apply (found_exact false to KB b); [done|done|done|done|]. intros b' wb' l' Hb' Hp'. apply path_flip in Hp'.
    assert (way E from to (wb' - wa + Z.of_N (l1' + l'))) as Hw
      by (exists a, wa, b', wb', (l1' + l')%N; split_and!; [done|done|by eapply path_app|done]).
    pose proof (Hmin _ Hw). unfold factor. lia. }
  assert (way E from to (wb - wa + Z.of_N (l1' + l2'))) as Hw
    by (exists a, wa, b, wb, (l1' + l2')%N; split_and!; [done|done|by eapply path_app|done]).
  pose proof (Hmin _ Hw). split.
  - eexists v, _, _. split_and!; [exact HKF|exact HKB|unfold factor; lia].
  - pose proof (up_key_range true from v _ Hfrom (proj2 (sr_keys _ _ _ _ _ HF v _ HKF))) as Hr1.
    pose proof (up_key_range false to v _ Hto (proj2 (sr_keys _ _ _ _ _ HB v _ HKB))) as Hr2.
    unfold lowest, highest, factor in *. lia.
Qed.

(** The length of the shortest way, or [INT_MAX] if there is none. *)
Definition shortest (from to : list PhantomNode) (x : Z) : Prop :=
  x = INT_MAX /\ (forall s, ~ way E from to s) \/ way E from to x /\ forall s, way E from to s -> (x <= s)%Z.

Lemma entry_shortest from to KF KB x : location_ok n M from -> location_ok n M to -> found true from KF -> found false to KB ->
  (forall s, way E from to s -> (0 <= s)%Z) -> is_min (sums KF KB) x -> shortest from to x.
Proof.
  intros Hfrom Hto HF HB Hpos [Hx Hmin]. apply least_attained; [done| |].
  - intros s Hs Hleast. destruct (way_sums from to KF KB s Hfrom Hto HF HB Hs Hleast) as [Hsum Hlt].
    split; [|done]. apply Hmin; [done|by apply Hpos].
  - destruct Hx as [?|[Hx _]]; [by left|right]. by apply (sums_way from to KF KB).
Qed.
End searches.

(** The nodes of the graph. *)
Definition graph_nodes (g : QueryGraph) : gset N := list_to_set (irange 0 (sg_number_of_nodes g)).

Lemma distance_table_ok g E W M B (query_heap : BinaryHeap HeapData map_storage) (locs : list (list PhantomNode)) :
  static_wf g -> (sg_number_of_nodes g < 2147483647)%N -> weights_ok W g -> represents g E ->
  (forall dir, upward_bound dir g B) -> (0 <= M /\ 0 <= B /\ 0 <= W /\ M + 2 * B + W < INT_MAX)%Z ->
  Forall (location_ok (sg_number_of_nodes g) M) locs -> (vsize locs * vsize locs < 4294967296)%N ->
  exists table, ManyToManyRouting g query_heap locs = Some table /\ vsize table = (vsize locs * vsize locs)%N /\
    forall i j from to, vget locs i = Some from -> vget locs j = Some to ->
      exists x, vget table (i * vsize locs + j) = Some x /\
        (x = INT_MAX \/ (0 <= x)%Z /\ exists s, way E from to s /\ (s <= x)%Z) /\
        ((forall s, way E from to s -> (0 <= s)%Z) -> shortest E from to x).
Proof.
  intros Hwf Hn Hw Hrep Hb Hroom Hlocs Hsmall. set (X := graph_nodes g). set (nl := vsize locs) in *.
  assert (forall v, (v < sg_number_of_nodes g)%N -> v ∈ X) as HX
    by (intros v Hv; apply elem_of_list_to_set, elem_of_irange; lia).
  assert (N.of_nat (size X) < 2147483647)%N as HXs.
  { unfold X, graph_nodes. rewrite size_list_to_set by (apply NoDup_irange; lia). rewrite length_irange; lia. }
  assert (st_rep X (2 * nl) (node_index query_heap) ∅) as Hst by done.
  destruct (target_searches_ok X g E W M B Hwf Hw HX HXs Hrep Hb Hroom (2 * nl) query_heap ∅ locs Hlocs Hst)
    as (h1 & bk & KBs & m1 & Ht & HKB & Hbk & Hst1); [lia|nia|]. fold nl in Hst1, Ht.
  destruct (source_searches_ok X g E W M B Hwf Hw HX HXs Hrep Hb Hroom nl KBs locs Hlocs HKB eq_refl Hsmall (2 * nl - nl) h1 m1 bk
    (replicate (N.to_nat (nl * nl)) INT_MAX) Hst1) as (h2 & table & KFs & Hs & HKF & Hsz & Hrows); [lia|done| |].
  { intros i j Hi Hj. rewrite vget_lookup. apply lookup_replicate_2. nia. }
  exists table. unfold ManyToManyRouting. rewrite !u32_small by (try rewrite u32_small; nia). fold nl. rewrite Ht. cbn [mbind option_bind].
  rewrite Hs. cbn [mbind option_bind]. split; [done|]. split; [rewrite Hsz; unfold vsize; rewrite length_replicate; lia|].
  intros i j from to Hi Hj. rewrite vget_lookup in Hi, Hj.
  destruct (Forall2_lookup_l _ _ _ _ _ HKF Hi) as (KF & HKFi & HfF). destruct (Forall2_lookup_l _ _ _ _ _ HKB Hj) as (KB & HKBj & HfB).
  rewrite <- vget_lookup in HKFi, HKBj. destruct (Hrows i KF HKFi j KB HKBj) as (x & Hx & Hm). exists x. split; [done|].
  rewrite Forall_lookup in Hlocs. pose proof (Hlocs _ _ Hi) as Hfrom. pose proof (Hlocs _ _ Hj) as Hto. split.
  - destruct (proj1 Hm) as [?|[Hsum Hx0]]; [by left|]. right. split; [done|].
    by eapply (sums_way X g E W M B Hwf Hw HX HXs Hrep Hb Hroom).
  - intros Hpos. by eapply (entry_shortest X g E W M B Hwf Hw HX HXs Hrep Hb Hroom).
Qed.

(** ** Properties *)

(** C3: on a hierarchy [g] that represents the network [E] and in which ways
    upwards have at most the length [B], the distance table for locations on
    distinct nodes is computed without an error from any heap, and every entry
    that is not [INT_MAX] is an upper bound of a way from the one location to
    the other. If no way between the two locations is negative, the
    entry is the length of the shortest way, and [INT_MAX] exactly if there is
    none. *)
Theorem distance_table_shortest g E W M B (query_heap : BinaryHeap HeapData map_storage) (locs : list (list PhantomNode)) :
  static_wf g -> (sg_number_of_nodes g < 2147483647)%N -> weights_ok W g -> represents g E ->
  (forall dir, upward_bound dir g B) -> (0 <= M /\ 0 <= B /\ 0 <= W /\ M + 2 * B + W < INT_MAX)%Z ->
  Forall (location_ok (sg_number_of_nodes g) M) locs -> (vsize locs * vsize locs < 4294967296)%N ->
  exists table, ManyToManyRouting g query_heap locs = Some table /\ vsize table = (vsize locs * vsize locs)%N /\
    forall i j from to, vget locs i = Some from -> vget locs j = Some to ->
      exists x, vget table (i * vsize locs + j) = Some x /\
        (x = INT_MAX \/ (0 <= x)%Z /\ exists s, way E from to s /\ (s <= x)%Z) /\
        ((forall s, way E from to s -> (0 <= s)%Z) -> shortest E from to x).
Proof. apply distance_table_ok. Qed.

(** ** Bounding the ways upwards *)

(** A height that grows along every edge by at least its weight. *)
Definition potential_ok (height : N -> Z) (g : QueryGraph) (B : Z) : bool :=
  forallb (fun u => ((0 <=? height u) && (height u <=? B))%Z &&
    forallb (fun e => (height u + qd_distance (e_data e) <=? height (e_target e))%Z) (sadj g u)) (irange 0 (sg_number_of_nodes g)).

Lemma potential_bound height g B dir :
  (sg_number_of_nodes g < 4294967296)%N -> (0 <= B)%Z ->
  (forall u e, (u < sg_number_of_nodes g)%N -> e ∈ sadj g u -> (e_target e < sg_number_of_nodes g)%N) ->
  potential_ok height g B = true -> upward_bound dir g B.
Proof.
  intros Hn HB Ht Hok. unfold potential_ok in Hok. rewrite forallb_forall in Hok.
  assert (forall u, (u < sg_number_of_nodes g)%N -> (0 <= height u <= B)%Z /\
    forall e, e ∈ sadj g u -> (height u + qd_distance (e_data e) <= height (e_target e))%Z) as Hall.
  { intros u Hu. assert (In u (irange 0 (sg_number_of_nodes g))) as Hin by (apply list_elem_of_In, elem_of_irange; lia).
    specialize (Hok u Hin). rewrite !andb_true_iff, !Z.leb_le, forallb_forall in Hok. destruct Hok as [Hr He].
    split; [done|]. intros e Hin'. apply Z.leb_le, He. by apply list_elem_of_In. }
  intros s v l Hp. destruct Hp as [|s v0 v w l (e & He & Hs & <- & _ & Hw) Hp]; [done|].
  assert (forall a l, path (graph_arcs dir g) a v l -> (a < sg_number_of_nodes g)%N ->
    (v < sg_number_of_nodes g)%N /\ (height a + Z.of_N l <= height v)%Z) as Hpath.
  { clear -Hall Ht. intros a l Hp. induction Hp as [u|u v t w l (e & He & Hu & <- & _ & Hw) Hp IH]; intros Ha; [split; [done|lia]|].
    destruct (IH (Ht u e Hu He)) as [Hv Hle]. split; [done|]. pose proof (proj2 (Hall u Hu) e He). lia. }
  destruct (Hpath _ l Hp (Ht s e Hs He)) as [Hv Hle]. pose proof (proj2 (Hall s Hs) e He). pose proof (proj1 (Hall s Hs)).
  pose proof (proj1 (Hall v Hv)). lia.
Qed.

(** *** One edge between two nodes *)

Definition two_nodes : QueryGraph := StaticGraph_swap [0; 1; 1]%N [MkEdge 1%N (MkQueryEdgeData 3 false 5 true true)].

Definition two_arcs : arcs := fun u v w => (u = 0%N /\ v = 1%N \/ u = 1%N /\ v = 0%N) /\ w = 5%N.

Definition at_node (v : N) (w : Z) : PhantomNode :=
  MkPhantomNode v SPECIAL_NODEID 0 w 0 0 0 SPECIAL_EDGEID coordinate_default 0 1 1.

Lemma two_adj u e : (u < 2)%N -> e ∈ sadj two_nodes u -> u = 0%N /\ e = MkEdge 1%N (MkQueryEdgeData 3 false 5 true true).
Proof.
  intros Hu He. assert (u = 0 \/ u = 1)%N as [->| ->] by lia; vm_compute in He.
  - split; [done|]. by apply list_elem_of_singleton in He.
  - by apply elem_of_nil in He.
Qed.

Lemma two_graph_arcs dir u v w : graph_arcs dir two_nodes u v w <-> u = 0%N /\ v = 1%N /\ w = 5%N.
Proof.
  split.
  - intros (e & He & Hu & <- & _ & Hw). apply two_adj in He as [-> ->]; [|done]. simpl in *. split_and!; [done|done|lia].
  - intros (-> & -> & ->). exists (MkEdge 1%N (MkQueryEdgeData 3 false 5 true true)).
    split_and!; [vm_compute; by left|done|done|by destruct dir|done].
Qed.

Lemma two_paths s t l : path two_arcs s t l -> s = t \/ ((s = 0 /\ t = 1 \/ s = 1 /\ t = 0) /\ 5 <= l)%N.
Proof. induction 1 as [|u v t w l [Ha ->] Hp IH]; [by left|]. lia. Qed.

Lemma two_represents : represents two_nodes two_arcs.
Proof.
  constructor.
  - intros u v w (-> & -> & ->)%two_graph_arcs. exists 5%N. split; [done|]. apply path_arc. split; [by left|done].
  - intros u v w (-> & -> & ->)%two_graph_arcs. exists 5%N. split; [done|]. apply path_arc. split; [by right|done].
  - intros s t l [->|[[[-> ->]|[-> ->]] Hl]]%two_paths.
    + exists t, 0%N, 0%N. split_and!; [constructor|constructor|lia].
    + exists 1%N, 5%N, 0%N. split_and!; [apply path_arc; by apply two_graph_arcs|constructor|lia].
    + exists 1%N, 0%N, 5%N. split_and!; [constructor|apply path_arc; by apply two_graph_arcs|lia].
Qed.

Lemma two_wf : static_wf two_nodes.
Proof.
  constructor; [done|done|done|]. intros n b e Hb He. pose proof (vget_Some_lt _ _ _ He) as Hlt. change (vsize _) with 3%N in Hlt.
  assert (n = 0 \/ n = 1)%N as [->| ->] by lia; vm_compute in Hb, He; injection Hb as <-; injection He as <-; done.
Qed.

Lemma distance_table_shortest_witness :
  exists table x, ManyToManyRouting two_nodes (BinaryHeap_make UnorderedMapStorage_make) [[at_node 1 2]; [at_node 0 1]] = Some table /\
    vget table 1 = Some x /\ shortest two_arcs [at_node 1 2] [at_node 0 1] x.
Proof.
  destruct (distance_table_shortest two_nodes two_arcs 5 2 5 (BinaryHeap_make UnorderedMapStorage_make) [[at_node 1 2]; [at_node 0 1]])
    as (table & Ht & _ & Hx).
  - exact two_wf.
  - done.
  - intros u e Hu He. apply two_adj in He as [-> ->]; done.
  - exact two_represents.
  - intros dir. apply (potential_bound (fun u => if (u =? 0)%N then 0 else 5)%Z); [done|done| |done].
    intros u e Hu He. by apply two_adj in He as [-> ->].
  - done.
  - repeat constructor; simpl; try lia; by intros ?%elem_of_nil.
  - done.
  - destruct (Hx 0%N 1%N [at_node 1 2] [at_node 0 1]) as (x & Hv & _ & Hs); [done|done|].
    exists table, x. split; [exact Ht|]. split; [exact Hv|]. apply Hs.
    intros s (a & wa & b & wb & l & Ha & Hb & Hp & ->).
    apply list_elem_of_singleton in Ha as [= -> ->]. apply list_elem_of_singleton in Hb as [= -> ->].
    apply two_paths in Hp as [[=]|[_ Hl]]. lia.
Defined.
