(* ===== verification/Hsgr.v ===== *)
(** * Contractor/Prepare.cpp, Util/GraphLoader.h: the file of the hierarchy

    [Prepare::Process] sorts the contracted edges, builds the node array of the
    static graph and writes both behind the fingerprint of the build;
    [readHSGRFromStream] and [LoadGraph] read them back. The structures are
    written as they are in memory: little endian words, bit fields from the
    lowest bit on. *)

From S2P Require Import Prelude Types Paths Edges DynamicGraph StaticGraph.

(** ** Words *)

Definition le32 (x : N) : list N := [x mod 256; x / 256 mod 256; x / 65536 mod 256; x / 16777216 mod 256]%N.

(** Reading past the end of the file is not defined. *)
Definition read_word (s : list N) : option (N * list N) :=
  match s with
  | a :: b :: c :: d :: s' => Some (a + 256 * b + 65536 * c + 16777216 * d, s')%N
  | _ => None
  end.

(** [n] values one after the other. *)
Fixpoint read_many {A} (rd : list N -> option (A * list N)) (n : nat) (s : list N) : option (list A * list N) :=
  match n with
  | O => Some ([], s)
  | S n' => '(x, s1) ← rd s; '(l, s2) ← read_many rd n' s1; Some (x :: l, s2)
  end.

(** ** FingerPrint *)

Record FingerPrint := MkFingerPrint {
  magic_number : N; md5_prepare : list N; md5_tree : list N; md5_graph : list N; md5_objects : list N;
  named_uuid : list N; has_64_bits : N }.

(** The constructor, from the hashes and the id of the build. *)
Definition FingerPrint_new (MD5PREPARE MD5RTREE MD5GRAPH MD5OBJECTS uuid : list N) (HAS64BITS : N) : FingerPrint :=
  MkFingerPrint 1297240911 (take 32 MD5PREPARE ++ [0%N]) (take 32 MD5RTREE ++ [0%N]) (take 32 MD5GRAPH ++ [0%N])
    (take 32 MD5OBJECTS ++ [0%N]) uuid HAS64BITS.

Definition IsMagicNumberOK (f : FingerPrint) : bool := (1297240911 =? magic_number f)%N.

(** The tests throw an exception, or tell whether the hashes are equal. *)
Inductive test_result := Throws | Returns (same : bool).

Definition test_hash (hash : FingerPrint -> list N) (f other : FingerPrint) : test_result :=
  if negb (IsMagicNumberOK other) then Throws
  else Returns (bool_decide (take 32 (hash f) = take 32 (hash other))).

Definition TestGraphUtil : FingerPrint -> FingerPrint -> test_result := test_hash md5_graph.
Definition TestPrepare : FingerPrint -> FingerPrint -> test_result := test_hash md5_prepare.
Definition TestRTree : FingerPrint -> FingerPrint -> test_result := test_hash md5_tree.
Definition TestQueryObjects : FingerPrint -> FingerPrint -> test_result := test_hash md5_objects.

(** [sizeof(FingerPrint)] is 156: the flag is followed by three bytes of padding. *)
Definition fingerprint_bytes (f : FingerPrint) : list N :=
  le32 (magic_number f) ++ md5_prepare f ++ md5_tree f ++ md5_graph f ++ md5_objects f ++ named_uuid f ++
  [has_64_bits f; 0; 0; 0]%N.

Definition read_chars (n : nat) (s : list N) : option (list N * list N) :=
  if decide (n <= length s)%nat then Some (take n s, drop n s) else None.

Definition read_fingerprint (s : list N) : option (FingerPrint * list N) :=
  '(magic, s) ← read_word s;
  '(prepare, s) ← read_chars 33 s;
  '(tree, s) ← read_chars 33 s;
  '(graph, s) ← read_chars 33 s;
  '(objects, s) ← read_chars 33 s;
  '(uuid, s) ← read_chars 16 s;
  '(flag, s) ← read_chars 4 s;
  has64 ← head flag;
  Some (MkFingerPrint magic prepare tree graph objects uuid has64, s).

(** ** Writing *)

(** One above the largest node id of an edge. *)
Definition max_used_node_id (es : list QueryEdge) : N :=
  uadd 1 (foldl (fun tmp_max e => N.max (N.max tmp_max (qe_source e)) (qe_target e)) 0%N es).

Definition query_input (q : QueryEdge) : InputEdge QueryEdgeData := MkInputEdge (qe_source q) (qe_target q) (qe_data q).

(** The node array, filled up with the number of edges. *)
Definition build_node_array (number_of_edge_based_nodes : N) (es : list QueryEdge) : option (list N) :=
  let contracted_edge_count := u32 (vsize es) in
  let max_used := max_used_node_id es in
  '(node_array, _, _) ← fold_m (place_node (query_input <$> es))
      (replicate (N.to_nat (uadd number_of_edge_based_nodes 1)) 0%N, 0%N, 0%N) (irange 0 max_used);
  fold_m (fun na sentinel_counter => vset na sentinel_counter contracted_edge_count) node_array
    (irange max_used (u32 (vsize node_array))).

Definition bit (b : bool) : N := if b then 1%N else 0%N.

(** An [EdgeArrayEntry]: the target, the 31-bit id with the flag for
    shortcuts, and the 30-bit distance with the two directions. *)
Definition entry_bytes (q : QueryEdge) : list N :=
  let d := qe_data q in
  le32 (qe_target q) ++ le32 (qd_id d + 2147483648 * bit (qd_shortcut d)) ++
  le32 (Z.to_N (qd_distance d mod 1073741824) + 1073741824 * bit (qd_forward d) + 2147483648 * bit (qd_backward d)).

(** The part of [Process] that follows the contraction. *)
Definition write_hsgr (sort_edges : list QueryEdge -> list QueryEdge) (fingerprint : FingerPrint) (crc32 : N)
    (number_of_edge_based_nodes : N) (contracted_edge_list : list QueryEdge) : option (list N) :=
  let es := sort_edges contracted_edge_list in
  node_array ← build_node_array number_of_edge_based_nodes es;
  Some (fingerprint_bytes fingerprint ++ le32 crc32 ++ le32 (u32 (vsize node_array)) ++ le32 (u32 (vsize es)) ++
    (node_array ≫= le32) ++ (es ≫= entry_bytes)).

(** ** Reading *)

Definition read_entry (s : list N) : option (Edge QueryEdgeData * list N) :=
  '(target, s1) ← read_word s;
  '(w1, s2) ← read_word s1;
  '(w2, s3) ← read_word s2;
  Some (MkEdge target (MkQueryEdgeData (w1 mod 2147483648)%N (N.testbit w1 31)
    (sbits 30 (Z.of_N (w2 mod 1073741824))) (N.testbit w2 30) (N.testbit w2 31)), s3).

Inductive hsgr_exception := FileMissing | FileEmpty | MagicMissing.

(** The number of nodes, the two arrays and the checksum. With no nodes the
    code takes the address of an element of an empty vector. *)
Definition readHSGRFromStream (fingerprint_orig : FingerPrint) (hsgr_file : option (list N))
    : option (hsgr_exception + N * list N * list (Edge QueryEdgeData) * N) :=
  match hsgr_file with
  | None => Some (inl FileMissing)
  | Some [] => Some (inl FileEmpty)
  | Some bytes =>
      '(fingerprint_loaded, s) ← read_fingerprint bytes;
      match TestGraphUtil fingerprint_loaded fingerprint_orig with
      | Throws => Some (inl MagicMissing)
      | Returns _ =>
          '(check_sum, s1) ← read_word s;
          '(number_of_nodes, s2) ← read_word s1;
          '(number_of_edges, s3) ← read_word s2;
          if (number_of_nodes =? 0)%N then None
          else
            '(node_list, s4) ← read_many read_word (N.to_nat number_of_nodes) s3;
            '(edge_list, _) ← read_many read_entry (N.to_nat number_of_edges) s4;
            Some (inr (number_of_nodes, node_list, edge_list, check_sum))
      end
  end.

(** [InternalDataFacade::LoadGraph]: the graph and the checksum. *)
Definition LoadGraph (fingerprint_orig : FingerPrint) (hsgr_file : option (list N))
    : option (hsgr_exception + StaticGraph QueryEdgeData * N) :=
  r ← readHSGRFromStream fingerprint_orig hsgr_file;
  match r with
  | inl e => Some (inl e)
  | inr (_, node_list, edge_list, check_sum) => Some (inr (StaticGraph_swap node_list edge_list, check_sum))
  end.

(** ** Lemmas: words *)

Lemma read_le32 x s : (x < 4294967296)%N -> read_word (le32 x ++ s) = Some (x, s).
Proof.
  intros Hx. unfold le32. cbn [app read_word]. f_equal. f_equal.
  pose proof (N.div_mod x 256 ltac:(lia)). pose proof (N.div_mod (x / 256) 256 ltac:(lia)).
  pose proof (N.div_mod (x / 65536) 256 ltac:(lia)). pose proof (N.Div0.div_div x 256 256) as D1.
  pose proof (N.Div0.div_div x 65536 256) as D2. change (256 * 256)%N with 65536%N in D1. change (65536 * 256)%N with 16777216%N in D2.
  assert (x / 16777216 < 256)%N by (apply N.Div0.div_lt_upper_bound; lia). rewrite (N.mod_small (x / 16777216)) by done. lia.
Qed.

Lemma read_many_ok {A B} (rd : list N -> option (A * list N)) (wr : B -> list N) (f : B -> A) l s :
  (forall x s, x ∈ l -> rd (wr x ++ s) = Some (f x, s)) -> read_many rd (length l) ((l ≫= wr) ++ s) = Some (f <$> l, s).
Proof.
  induction l as [|x l IH]; intros Hl; [done|]. rewrite bind_cons, <- app_assoc. cbn [length read_many].
  rewrite Hl by (by left). cbn [mbind option_bind]. rewrite IH by (intros y s' Hy; apply Hl; by right). done.
Qed.

Record fingerprint_wf (f : FingerPrint) : Prop := {
  fw_magic : (magic_number f < 4294967296)%N;
  fw_prepare : length (md5_prepare f) = 33%nat;
  fw_tree : length (md5_tree f) = 33%nat;
  fw_graph : length (md5_graph f) = 33%nat;
  fw_objects : length (md5_objects f) = 33%nat;
  fw_uuid : length (named_uuid f) = 16%nat;
}.

Lemma read_chars_ok n l s : length l = n -> read_chars n (l ++ s) = Some (l, s).
Proof.
  intros <-. unfold read_chars. rewrite decide_True by (rewrite length_app; lia).
  by rewrite take_app_length, drop_app_length.
Qed.

Lemma read_fingerprint_ok f s : fingerprint_wf f -> read_fingerprint (fingerprint_bytes f ++ s) = Some (f, s).
Proof.
  intros [Hm H1 H2 H3 H4 H5]. unfold read_fingerprint, fingerprint_bytes. rewrite <- !app_assoc, read_le32 by done.
  cbn [mbind option_bind]. do 5 (rewrite read_chars_ok by done; cbn [mbind option_bind]).
  rewrite read_chars_ok by done. by destruct f.
Qed.

(** ** Lemmas: edges *)

(** The fields of an edge fit their widths. *)
Definition entry_fits (q : QueryEdge) : Prop :=
  (qe_target q < 4294967296)%N /\ (qd_id (qe_data q) < 2147483648)%N /\
  (- 536870912 <= qd_distance (qe_data q) < 536870912)%Z.

Definition query_edge (q : QueryEdge) : Edge QueryEdgeData := MkEdge (qe_target q) (qe_data q).

Lemma bit_lt b : (bit b <= 1)%N.
Proof. destruct b; simpl; lia. Qed.

Lemma testbit_bit x k b : (x < 2 ^ k)%N -> N.testbit (x + 2 ^ k * bit b) k = b.
Proof.
  intros Hx. rewrite <- (N.add_0_l k) at 2. rewrite N.testbit_eqb, N.add_0_l.
  assert ((x + 2 ^ k * bit b) / 2 ^ k = bit b)%N as ->.
  { rewrite N.mul_comm, N.div_add by (apply N.pow_nonzero; lia). rewrite N.div_small by done. lia. }
  by destruct b.
Qed.

Lemma read_entry_ok q s : entry_fits q -> read_entry (entry_bytes q ++ s) = Some (query_edge q, s).
Proof.
  intros (Ht & Hid & Hd). destruct q as [src t [id sc d f b]]. cbn [qe_target qe_data qd_id qd_distance] in *.
  unfold read_entry, entry_bytes, query_edge. cbn [qe_target qe_data qd_id qd_distance qd_shortcut qd_forward qd_backward].
  pose proof (bit_lt sc). pose proof (bit_lt f). pose proof (bit_lt b). pose proof (Z.mod_pos_bound d 1073741824 ltac:(lia)).
  set (z := Z.to_N (d mod 1073741824)). assert (z < 1073741824)%N by (unfold z; lia).
  rewrite <- !app_assoc, !read_le32 by lia. cbn [mbind option_bind]. rewrite read_le32 by lia. cbn [mbind option_bind].
  rewrite read_le32 by lia. cbn [mbind option_bind]. do 4 f_equal.
  - rewrite (N.mul_comm 2147483648), N.Div0.mod_add, N.mod_small; done.
  - by apply (testbit_bit id 31).
  - replace (z + 1073741824 * bit f + 2147483648 * bit b)%N with (z + (bit f + 2 * bit b) * 1073741824)%N by lia.
    rewrite N.Div0.mod_add, N.mod_small by done. unfold z. rewrite Z2N.id by lia. unfold sbits.
    change (2 ^ (30 - 1))%Z with 536870912%Z. change (2 ^ 30)%Z with 1073741824%Z.
    rewrite Z.add_mod_idemp_l by lia. rewrite Z.mod_small by lia. lia.
  - rewrite N.testbit_eqb. change (2 ^ 30)%N with 1073741824%N.
    replace (z + 1073741824 * bit f + 2147483648 * bit b)%N with (z + (bit f + 2 * bit b) * 1073741824)%N by lia.
    rewrite N.div_add, N.div_small by lia. by destruct f, b.
  - apply (testbit_bit (z + 1073741824 * bit f) 31). change (2 ^ 31)%N with 2147483648%N. lia.
Qed.

(** ** Lemmas: the node array *)

Lemma max_used_ge es q m0 : q ∈ es ->
  (N.max (qe_source q) (qe_target q) <= foldl (fun m e => N.max (N.max m (qe_source e)) (qe_target e)) m0 es)%N.
Proof.
  revert m0. assert (forall l m, (m <= foldl (fun m e => N.max (N.max m (qe_source e)) (qe_target e)) m l)%N) as Hmono.
  { intros l. induction l as [|x l IH]; intros m; simpl; [done|]. etrans; [|apply IH]. lia. }
  induction es as [|x es IH]; intros m0; [by intros ?%elem_of_nil|]. intros [->|Hq]%elem_of_cons; simpl; [|by apply IH].
  etrans; [|apply Hmono]. lia.
Qed.

Lemma max_used_le es n m0 : (m0 < n)%N -> (forall q, q ∈ es -> (qe_source q < n)%N /\ (qe_target q < n)%N) ->
  (foldl (fun m e => N.max (N.max m (qe_source e)) (qe_target e)) m0 es < n)%N.
Proof.
  revert m0. induction es as [|x es IH]; intros m0 Hm Hes; simpl; [done|]. apply IH; [|intros q Hq; apply Hes; by right].
  destruct (Hes x); [by left|]. lia.
Qed.

Abbreviation source_ordered := (StronglySorted (fun a b : QueryEdge => (qe_source a <= qe_source b)%N)).

Lemma source_ordered_input es : source_ordered es ->
  StronglySorted (fun a b : InputEdge QueryEdgeData => (ie_source a <= ie_source b)%N) (query_input <$> es).
Proof.
  induction 1 as [|x l Hs IH HF]; [constructor|]. rewrite fmap_cons. constructor; [done|].
  rewrite Forall_fmap. eapply Forall_impl; [exact HF|]. done.
Qed.

Lemma build_node_array_ok n es :
  source_ordered es -> (forall q, q ∈ es -> (qe_source q < n)%N /\ (qe_target q < n)%N) -> (vsize es < 2147483648)%N -> (0 < n < 4294967295)%N ->
  exists na, build_node_array n es = Some na /\ vsize na = (n + 1)%N /\
    forall m, (m <= n)%N -> vget na m = Some (pos m (query_input <$> es)).
Proof.
  intros Hs Hes Hsz Hn. unfold build_node_array, max_used_node_id. set (graph := query_input <$> es).
  set (mx := foldl _ 0%N es). assert (mx < n)%N as Hmx by (apply max_used_le; [lia|done]).
  assert (vsize graph = vsize es) as Hv by (unfold graph, vsize; by rewrite length_fmap).
  assert (vsize (replicate (N.to_nat (n + 1)) 0%N) = (n + 1)%N) as Hrep by (unfold vsize; rewrite length_replicate; lia).
  rewrite !uadd_small by lia.
  destruct (place_nodes_ok (1 + mx) (replicate (N.to_nat (n + 1)) 0%N) graph) as (na & -> & Hna & Hget);
    [by apply source_ordered_input|lia|lia|lia|].
  cbn [mbind option_bind]. rewrite Hrep in Hna. rewrite Hna, u32_small by lia.
  assert (forall m, (1 + mx <= m)%N -> pos m graph = vsize es) as Hall.
  { intros m Hm. rewrite <- Hv. apply pos_all. apply Forall_forall. intros x (q & -> & Hq)%list_elem_of_fmap.
    pose proof (max_used_ge es q 0 Hq) as Hge. fold mx in Hge. cbn [query_input ie_source]. lia. }
  rewrite u32_small by lia.
  destruct (fold_m_ind (fun na k => vset na k (vsize es)) (fun pre na' => vsize na' = (n + 1)%N /\
    forall m, (m < 1 + mx + vsize pre)%N -> (m <= n)%N -> vget na' m = Some (pos m graph)) (irange (1 + mx) (n + 1)) na)
    as (na' & -> & Hsz' & Hget').
  - split; [done|]. change (vsize []) with 0%N. intros m Hm _. apply Hget. lia.
  - intros pre x post na1 Heq (Hsz1 & Hget1).
    assert (irange (1 + mx) (n + 1) !! length pre = Some x) as Hx by (rewrite Heq; apply list_lookup_middle; done).
    rewrite irange_lookup in Hx by lia. case_decide; [|done]. injection Hx as Hx.
    assert (x = 1 + mx + vsize pre)%N as -> by (unfold vsize; lia).
    rewrite vset_lt by (rewrite Hsz1; unfold vsize in *; lia). eexists. split; [done|]. rewrite vsize_insert. split; [done|].
    rewrite vsize_app. change (vsize [_]) with 1%N. intros m Hm Hmn. rewrite vget_insert. case_decide as Hd.
    + destruct Hd as [<- _]. rewrite Hall by lia. done.
    + apply Hget1; [|done]. unfold vsize in *. lia.
  - exists na'. split_and!; [done|done|]. intros m Hm. apply Hget'; [|done]. unfold vsize. rewrite length_irange by lia. lia.
Qed.

(** ** Lemmas: the file *)

Lemma read_nonempty own bytes : bytes <> [] -> readHSGRFromStream own (Some bytes) =
  '(fingerprint_loaded, s) ← read_fingerprint bytes;
  match TestGraphUtil fingerprint_loaded own with
  | Throws => Some (inl MagicMissing)
  | Returns _ =>
      '(check_sum, s1) ← read_word s; '(nn, s2) ← read_word s1; '(ne, s3) ← read_word s2;
      if (nn =? 0)%N then None
      else
        '(node_list, s4) ← read_many read_word (N.to_nat nn) s3; '(edge_list, _) ← read_many read_entry (N.to_nat ne) s4;
        Some (inr (nn, node_list, edge_list, check_sum))
  end.
Proof. by destruct bytes. Qed.

Lemma read_written fingerprint own crc32 na l :
  fingerprint_wf fingerprint -> IsMagicNumberOK own = true -> (crc32 < 4294967296)%N ->
  (0 < vsize na < 4294967296)%N -> (vsize l < 4294967296)%N -> (forall x, x ∈ na -> (x < 4294967296)%N) ->
  (forall q, q ∈ l -> entry_fits q) ->
  readHSGRFromStream own (Some (fingerprint_bytes fingerprint ++ le32 crc32 ++ le32 (vsize na) ++ le32 (vsize l) ++
    (na ≫= le32) ++ (l ≫= entry_bytes))) = Some (inr (vsize na, na, query_edge <$> l, crc32)).
Proof.
  intros Hfp Hmagic Hcrc Hna Hl Hx Hq. rewrite read_nonempty by done.
  rewrite read_fingerprint_ok by done. cbn [mbind option_bind]. unfold TestGraphUtil, test_hash. rewrite Hmagic. cbn [negb].
  do 3 (rewrite read_le32 by lia; cbn [mbind option_bind]). destruct (N.eqb_spec (vsize na) 0); [lia|].
  replace (N.to_nat (vsize na)) with (length na) by (unfold vsize; lia). rewrite (read_many_ok read_word le32 id).
  2:{ intros x s Hin. by apply read_le32, Hx. }
  rewrite list_fmap_id. cbn [mbind option_bind]. replace (N.to_nat (vsize l)) with (length l) by (unfold vsize; lia).
  rewrite <- (app_nil_r (l ≫= entry_bytes)), (read_many_ok read_entry entry_bytes query_edge); [done|].
  intros q s Hin. by apply read_entry_ok, Hq.
Qed.

Lemma load_written sort_edges fingerprint own crc32 n (es : list QueryEdge) :
  sort_edges es ≡ₚ es -> source_ordered (sort_edges es) -> fingerprint_wf fingerprint -> IsMagicNumberOK own = true ->
  (crc32 < 4294967296)%N -> (0 < n < 4294967295)%N -> (vsize es < 2147483648)%N ->
  (forall q, q ∈ es -> (qe_source q < n)%N /\ (qe_target q < n)%N /\ entry_fits q) ->
  exists bytes g, write_hsgr sort_edges fingerprint crc32 n es = Some bytes /\
    LoadGraph own (Some bytes) = Some (inr (g, crc32)) /\ static_wf g /\ sg_number_of_nodes g = n /\
    forall u, (u < n)%N -> sadj g u = query_edge <$> filter (fun q => qe_source q = u) (sort_edges es).
Proof.
  intros Hperm Hs Hfp Hmagic Hcrc Hn Hsz Hes. unfold write_hsgr. set (l := sort_edges es) in *.
  assert (forall q, q ∈ l -> (qe_source q < n)%N /\ (qe_target q < n)%N /\ entry_fits q) as Hl by (intros q Hq; apply Hes; by rewrite <- Hperm).
  assert (vsize l < 2147483648)%N as Hlsz by (unfold vsize in *; by rewrite Hperm).
  destruct (build_node_array_ok n l Hs) as (na & -> & Hna & Hget); [intros q Hq; by destruct (Hl q Hq) as (? & ? & _)|done|done|].
  cbn [mbind option_bind]. rewrite !u32_small by lia.
  assert (query_edge <$> l = to_edge <$> (query_input <$> l)) as Hedges by (by rewrite <- list_fmap_compose).
  destruct (static_arrays_ok n (vsize l) (query_input <$> l) na) as [Hwf Hadj];
    [by apply source_ordered_input|unfold vsize in *; by rewrite length_fmap|lia|done|done|].
  eexists _, (StaticGraph_swap na (query_edge <$> l)). split; [done|].
  assert (StaticGraph_swap na (query_edge <$> l) = MkStaticGraph n (vsize l) na (to_edge <$> (query_input <$> l))) as ->.
  { unfold StaticGraph_swap. rewrite Hedges, usub_small, u32_small by (unfold vsize in *; rewrite ?length_fmap; lia).
    f_equal; [lia|]. unfold vsize. by rewrite !length_fmap. }
  split; [|split; [done|split; [done|]]].
  - unfold LoadGraph. rewrite (read_written fingerprint own crc32 na l); try done; [|lia|lia| |intros q Hq; by destruct (Hl q Hq) as (_ & _ & ?)].
    + cbn [mbind option_bind]. unfold StaticGraph_swap.
      rewrite Hedges, usub_small, u32_small by (unfold vsize in *; rewrite ?length_fmap; lia).
      do 4 f_equal; [lia|]. unfold vsize. by rewrite !length_fmap.
    + intros x Hx. apply list_elem_of_lookup in Hx as [k Hk]. pose proof (lookup_lt_Some _ _ _ Hk) as Hlt.
      assert (vget na (N.of_nat k) = Some x) as Hv by (by rewrite vget_lookup, Nat2N.id).
      unfold vsize in Hna. rewrite Hget in Hv by lia. injection Hv as <-. pose proof (pos_le (N.of_nat k) (query_input <$> l)) as Hp.
      unfold vsize in Hp, Hlsz. rewrite length_fmap in Hp. lia.
  - intros u Hu. rewrite Hadj by done. clear. induction l as [|q l IH]; [done|]. rewrite fmap_cons, !filter_cons.
    cbn [query_input ie_source]. case_decide; [rewrite !fmap_cons; by f_equal|done].
Qed.

(** ** Properties *)

(** C25: the file that is written for the contracted edges can be loaded again:
    the loader returns the checksum and a well-formed graph in which every
    node has exactly the edges with that source, unchanged in all their
    fields, in the order of the sort. *)
Theorem hsgr_roundtrip sort_edges fingerprint own crc32 n (es : list QueryEdge) :
  sort_edges es ≡ₚ es -> source_ordered (sort_edges es) -> fingerprint_wf fingerprint -> IsMagicNumberOK own = true ->
  (crc32 < 4294967296)%N -> (0 < n < 4294967295)%N -> (vsize es < 2147483648)%N ->
  (forall q, q ∈ es -> (qe_source q < n)%N /\ (qe_target q < n)%N /\ entry_fits q) ->
  exists bytes g, write_hsgr sort_edges fingerprint crc32 n es = Some bytes /\
    LoadGraph own (Some bytes) = Some (inr (g, crc32)) /\ static_wf g /\ sg_number_of_nodes g = n /\
    forall u, (u < n)%N -> sadj g u = query_edge <$> filter (fun q => qe_source q = u) (sort_edges es).
Proof. apply load_written. Qed.

(** The magic number at the start of the file is never looked at: files
    that differ only in it are loaded alike, so the exception for a missing
    magic number is not thrown for any file. The test is made on the
    fingerprint of the program itself. *)
Theorem hsgr_magic_unchecked own m m' body :
  IsMagicNumberOK own = true -> readHSGRFromStream own (Some (le32 m ++ body)) = readHSGRFromStream own (Some (le32 m' ++ body)) /\
  readHSGRFromStream own (Some (le32 m ++ body)) <> Some (inl MagicMissing).
Proof.
  intros Hown. assert (forall m, readHSGRFromStream own (Some (le32 m ++ body)) <> Some (inl MagicMissing)) as Hno.
  { intros m0. rewrite read_nonempty by done. destruct (read_fingerprint _) as [[f s]|]; [|done]. cbn [mbind option_bind].
    unfold TestGraphUtil, test_hash. rewrite Hown. cbn [negb]. destruct (read_word s) as [[c s1]|]; [|done]. cbn [mbind option_bind].
    destruct (read_word s1) as [[nn s2]|]; [|done]. cbn [mbind option_bind]. destruct (read_word s2) as [[ne s3]|]; [|done].
    cbn [mbind option_bind]. destruct (nn =? 0)%N; [done|]. destruct (read_many _ _ s3) as [[l s4]|]; [|done].
    cbn [mbind option_bind]. by destruct (read_many _ _ s4) as [[l' s5]|]. }
  split; [|apply Hno]. rewrite !read_nonempty by done. unfold read_fingerprint, le32. cbn [app read_word mbind option_bind].
  do 5 (destruct (read_chars _ _) as [[? ?]|]; [|done]; cbn [mbind option_bind]).
  destruct (read_chars 4 _) as [[fl ?]|]; [|done]. cbn [mbind option_bind]. destruct (head fl); [|done]. cbn [mbind option_bind].
  unfold TestGraphUtil, test_hash. by rewrite Hown.
Qed.

(** *** Two edges of a graph with three nodes *)

Definition sample_print : FingerPrint :=
  FingerPrint_new (replicate 32 97%N) (replicate 32 98%N) (replicate 32 99%N) (replicate 32 100%N) (replicate 16 7%N) 1.

Definition sample_query_edges : list QueryEdge :=
  [MkQueryEdge 2 0 (MkQueryEdgeData 2147483647 true (-1) false true); MkQueryEdge 1 2 (MkQueryEdgeData 5 false 536870911 true false)].

Definition by_query_source (a b : QueryEdge) : Prop := (qe_source a <= qe_source b)%N.

#[export] Instance by_query_source_dec : RelDecision by_query_source := fun a b => N.le_dec (qe_source a) (qe_source b).

#[export] Instance by_query_source_total : Total by_query_source.
Proof. intros a b. unfold by_query_source. lia. Qed.

#[export] Instance by_query_source_trans : Transitive by_query_source.
Proof. intros a b c. unfold by_query_source. lia. Qed.

Definition sample_query_sort : list QueryEdge -> list QueryEdge := merge_sort by_query_source.

Lemma sample_query_perm l : sample_query_sort l ≡ₚ l.
Proof. apply merge_sort_Permutation. Qed.

Lemma sample_query_sorted l : source_ordered (sample_query_sort l).
Proof. apply (StronglySorted_merge_sort by_query_source). Qed.

Lemma sample_print_wf : fingerprint_wf sample_print.
Proof. by constructor. Qed.

Lemma hsgr_roundtrip_witness :
  exists bytes g, write_hsgr sample_query_sort sample_print 17 3 sample_query_edges = Some bytes /\
    LoadGraph sample_print (Some bytes) = Some (inr (g, 17%N)) /\
    sadj g 2 = [MkEdge 0%N (MkQueryEdgeData 2147483647 true (-1) false true)] /\ length bytes = 208%nat.
Proof.
  destruct (hsgr_roundtrip sample_query_sort sample_print sample_print 17 3 sample_query_edges) as (bytes & g & Hw & Hl & _ & _ & Hadj).
  - apply sample_query_perm.
  - apply sample_query_sorted.
  - exact sample_print_wf.
  - done.
  - done.
  - done.
  - done.
  - intros q [->|[->|?%elem_of_nil]%elem_of_cons]%elem_of_cons; done.
  - exists bytes, g. split; [exact Hw|]. split; [exact Hl|]. split; [rewrite Hadj by done; reflexivity|].
    vm_compute in Hw. by injection Hw as <-.
Defined.

Lemma hsgr_magic_unchecked_witness :
  exists g, readHSGRFromStream sample_print (Some (le32 0 ++ drop 4 (fingerprint_bytes sample_print) ++ le32 9 ++ le32 1 ++ le32 0 ++ le32 0)) =
    Some (inr g) /\ readHSGRFromStream sample_print
      (Some (le32 1297240911 ++ drop 4 (fingerprint_bytes sample_print) ++ le32 9 ++ le32 1 ++ le32 0 ++ le32 0)) = Some (inr g).
Proof.
  destruct (hsgr_magic_unchecked sample_print 0 1297240911
    (drop 4 (fingerprint_bytes sample_print) ++ le32 9 ++ le32 1 ++ le32 0 ++ le32 0)) as [Heq _]; [done|].
  eexists. split; [|rewrite <- Heq]; reflexivity.
Defined.
