(* ===== verification/EndToEnd.v ===== *)
(** * From the edges of the edge expanded graph to the distance table

    The composition of the contractor, the hierarchy file, its loader and the
    many to many routing. *)

From S2P Require Import Prelude Types Paths Edges Storage BinaryHeap DynamicGraph Float32 Contractor.
From S2P Require Import WitnessSearch Independence ContractionRound Hierarchy Rounds Renumbering Flush ContractorRun ContractorInput.
From S2P Require Import ContractorTheorems StaticGraph Text Routing QuerySearch DistanceTable Hsgr.

(** ** The loaded graph represents the network *)

Section loaded.
  Context (g : QueryGraph) (n : N) (es : list QueryEdge).
  Hypothesis g_nodes : sg_number_of_nodes g = n.
  Hypothesis g_adj : forall u, (u < n)%N -> sadj g u ≡ₚ query_edge <$> filter (fun q => qe_source q = u) es.
  Hypothesis es_in : forall q, q ∈ es -> edge_in n q.
  #[local] Set Default Proof Using "All".

Lemma loaded_edge u e : (u < n)%N -> e ∈ sadj g u <-> exists q, q ∈ es /\ qe_source q = u /\ e = query_edge q.
Proof.
  intros Hu. rewrite (g_adj u Hu), list_elem_of_fmap. setoid_rewrite list_elem_of_filter. naive_solver.
Qed.

Lemma loaded_fwd u v w : graph_arcs true g u v w <-> query_fwd es u v w.
Proof.
  unfold graph_arcs, query_fwd. rewrite g_nodes. split.
  - intros (e & He & Hu & <- & Hd & Hw). apply loaded_edge in He as (q & Hq & <- & ->); [|done]. by exists q.
  - intros (q & Hq & <- & <- & Hd & Hw). destruct (es_in q Hq) as [Hs _]. exists (query_edge q).
    split_and!; try done. apply loaded_edge; [done|]. by exists q.
Qed.

Lemma loaded_bwd u v w : graph_arcs false g u v w <-> query_bwd es u v w.
Proof.
  unfold graph_arcs, query_bwd. rewrite g_nodes. split.
  - intros (e & He & Hu & <- & Hd & Hw). apply loaded_edge in He as (q & Hq & <- & ->); [|done]. by exists q.
  - intros (q & Hq & <- & <- & Hd & Hw). destruct (es_in q Hq) as [Hs _]. exists (query_edge q).
    split_and!; try done. apply loaded_edge; [done|]. by exists q.
Qed.

Lemma loaded_weights : weights_ok (Z.of_N max_weight) g.
Proof.
  intros u e Hu He. rewrite g_nodes in *. apply loaded_edge in He as (q & Hq & <- & ->); [|done].
  destruct (es_in q Hq) as (_ & Ht & Hw & _). split; [done|]. cbn [query_edge e_data]. lia.
Qed.

Lemma loaded_represents E :
  (forall s t, (forall l, path E s t l ->
     exists m l1 l2, path (query_fwd es) s m l1 /\ path (query_bwd es) t m l2 /\ (l1 + l2 <= l)%N) /\
   (forall m l1 l2, path (query_fwd es) s m l1 -> path (query_bwd es) t m l2 -> within E s t (l1 + l2))) ->
  represents g E.
Proof.
  intros Hd. constructor.
  - intros u v w Ha%loaded_fwd. rewrite <- (N.add_0_r w). apply (proj2 (Hd u v) v w 0%N); [by apply path_arc|constructor].
  - intros u v w Ha%loaded_bwd. rewrite <- (N.add_0_l w). apply (proj2 (Hd v u) v 0%N w); [constructor|by apply path_arc].
  - intros s t l Hp. destruct (proj1 (Hd s t) l Hp) as (m & l1 & l2 & H1 & H2 & Hle). exists m, l1, l2.
    split_and!; [| |done]; (eapply path_mono; [|done]); intros a b w; [apply loaded_fwd|apply loaded_bwd].
Qed.
End loaded.

(** ** Properties *)

Section pipeline.
  Context {St : Type} `{IndexStorageLaws St}.
  Context (make_storage : N -> St) (fast_hash : XORFastHash) (schedule : N -> N -> N -> list (N * N)).
  Context (sort_edges : list ContractorEdge -> list ContractorEdge) (junk : N -> Edge ContractorEdgeData).
  Context (sort_query : list QueryEdge -> list QueryEdge) (own : FingerPrint) (X : gset N).
  Hypothesis hash_wf : xor_hash_wf fast_hash.
  Hypothesis X_small : (N.of_nat (size X) < 2147483647)%N.
  Hypothesis schedule_all : forall k a b, (schedule k a b).*2 ≡ₚ irange a b.
  Hypothesis sort_perm : forall l, sort_edges l ≡ₚ l.
  Hypothesis sort_sorted : forall l, StronglySorted (fun a b => (ie_source a <= ie_source b)%N) (sort_edges l).
  Hypothesis query_perm : forall l, sort_query l ≡ₚ l.
  Hypothesis query_sorted : forall l, StronglySorted (fun a b => (qe_source a <= qe_source b)%N) (sort_query l).
  Hypothesis own_wf : fingerprint_wf own.
  Hypothesis own_magic : IsMagicNumberOK own = true.
  #[local] Set Default Proof Using "All".

End pipeline.

(** *** The ring of roads *)

Definition sample_contracted : list QueryEdge :=
  [MkQueryEdge 1 0 (MkQueryEdgeData 7 false 3 true true); MkQueryEdge 2 1 (MkQueryEdgeData 8 false 4 false true);
   MkQueryEdge 2 3 (MkQueryEdgeData 9 false 2 true true); MkQueryEdge 3 0 (MkQueryEdgeData 10 false 2 true true);
   MkQueryEdge 4 3 (MkQueryEdgeData 11 false 6 true true)].

Definition sample_height (v : N) : Z := default 0%Z (vget [8; 4; 0; 6; 0]%Z v).

Definition sample_locations : list (list PhantomNode) := [[at_node 1 1]; [at_node 4 2]].

Definition sample_loaded (es : list QueryEdge) : option QueryGraph :=
  bytes ← write_hsgr sample_query_sort sample_print 0 5 es;
  r ← LoadGraph sample_print (Some bytes);
  match r with inl _ => None | inr (g, _) => Some g end.

Lemma sample_pipeline : exists g c0 c, sample_graph = Some g /\ run_init sample_storage sample_schedule g = Some c0 /\
  run_roomb 6 5 sample_storage sample_hash sample_schedule sample_sort sample_junk 5 0 c0 = true /\
  Run sample_sort sample_junk sample_storage sample_hash sample_schedule 5 g = Some c /\
  GetEdges c [] = Some sample_contracted /\ forallb (fun u => vsize (adj g u) <=? 6)%N (irange 0 5) = true.
Proof.
  assert (match sample_graph with
    | Some g => match run_init sample_storage sample_schedule g with
      | Some c0 =>
          run_roomb 6 5 sample_storage sample_hash sample_schedule sample_sort sample_junk 5 0 c0 = true /\
          match Run sample_sort sample_junk sample_storage sample_hash sample_schedule 5 g with
          | Some c => GetEdges c [] = Some sample_contracted | None => False end /\
          forallb (fun u => vsize (adj g u) <=? 6)%N (irange 0 5) = true
      | None => False end
    | None => False end) as Hok by (vm_compute; done).
  destruct sample_graph as [g|]; [|done]. destruct (run_init _ _ g) as [c0|] eqn:Hc0; [|done].
  destruct Hok as (H1 & H2 & H3). destruct (Run _ _ _ _ _ _ g) as [c|] eqn:Hc; [|done]. by exists g, c0, c.
Qed.

Lemma sample_bound g dir : sample_loaded sample_contracted = Some g -> upward_bound dir g 8.
Proof.
  intros Hg. vm_compute in Hg. injection Hg as <-. apply (potential_bound sample_height); [done|done| |vm_compute; done].
  intros u e Hu He. change (sg_number_of_nodes _) with 5%N in *.
  assert (u = 0 \/ u = 1 \/ u = 2 \/ u = 3 \/ u = 4)%N as Hcases by lia.
  repeat (destruct Hcases as [->|Hcases]; [vm_compute in He|]); [..|subst u; vm_compute in He];
    repeat (apply elem_of_cons in He as [->|He]; [done|]); by apply elem_of_nil in He.
Qed.

Lemma sample_entry g : sample_loaded sample_contracted = Some g ->
  ManyToManyRouting g (BinaryHeap_make UnorderedMapStorage_make) sample_locations = Some [0; 12; 10; 0]%Z.
Proof. intros Hg. vm_compute in Hg. injection Hg as <-. vm_compute. done. Qed.

#[local] Opaque sample_graph Contractor_make run_init round Run flush GetEdges ManyToManyRouting write_hsgr LoadGraph.

