(* ===== verification/Unpacking.v ===== *)
(** * RoutingAlgorithms/BasicRoutingInterface.h: unpacking of shortcuts

    [UnpackPath] and [UnpackEdge] replace the shortcuts of a packed path by
    the edges they stand for, with an explicit stack. *)

From S2P Require Import Prelude Types Paths Edges Storage BinaryHeap DynamicGraph StaticGraph Text Routing QuerySearch.

(** ** Choosing an edge *)

Section unpack.
  Implicit Types g : QueryGraph.

(** One step of the loops that look for the lightest edge to [target] that
    [usable] allows: the edge and its weight so far. *)
Definition smaller_edge g (usable : QueryEdgeData -> bool) (target : N) (s : N * Z) (edge_id : N) : option (N * Z) :=
  let '(smaller_edge_id, edge_weight) := s in
  data ← sg_GetEdgeData edge_id g;
  t ← sg_GetTarget edge_id g;
  if (t =? target)%N && (qd_distance data <? edge_weight)%Z && usable data
  then Some (edge_id, qd_distance data) else Some (smaller_edge_id, edge_weight).

(** The edge from [first] to [second]: a forward edge of the first node, or
    else a backward edge of the second one. *)
Definition select_edge g (first second : N) : option (N * Z) :=
  r1 ← sg_GetAdjacentEdgeRange first g;
  '(id, weight) ← fold_m (smaller_edge g qd_forward second) (SPECIAL_EDGEID, INT_MAX) r1;
  if (SPECIAL_EDGEID =? id)%N then
    r2 ← sg_GetAdjacentEdgeRange second g;
    fold_m (smaller_edge g qd_backward first) (id, weight) r2
  else Some (id, weight).

(** ** UnpackEdge *)

(** The loop over the stack, whose top is the head of the list. *)
Fixpoint unpack_loop (fuel : nat) g (recursion_stack : list (N * N)) (unpacked_path : list N) : option (list N) :=
  match recursion_stack with
  | [] => Some unpacked_path
  | (first, second) :: stack =>
      match fuel with
      | O => None
      | S fuel' =>
          '(id, _) ← select_edge g first second;
          ed ← sg_GetEdgeData id g;
          if qd_shortcut ed then unpack_loop fuel' g ((first, qd_id ed) :: (qd_id ed, second) :: stack) unpacked_path
          else unpack_loop fuel' g stack (unpacked_path ++ [first])
      end
  end.

Definition UnpackEdge (fuel : nat) g (s t : N) (unpacked_path : list N) : option (list N) :=
  p ← unpack_loop fuel g [(s, t)] unpacked_path;
  Some (p ++ [t]).

(** ** UnpackPath *)

Record PathData := MkPathData {
  pd_node : N; pd_name_id : N; pd_segment_duration : Z; pd_turn_instruction : N; pd_travel_mode : N }.

Definition NoTurn : N := 0.

(** [std::size_t] arithmetic. *)
Definition size_sub (a b : N) : N := ((a + 18446744073709551616 - b) mod 18446744073709551616)%N.

(** The nodes of an edge that is not a shortcut. *)
Definition append_original (f : InternalDataFacade) (start_in_reverse : bool) (start_position : N)
    (ed : QueryEdgeData) (path : list PathData) : option (list PathData) :=
  name_index ← GetNameIndexFromEdgeID (qd_id ed) f;
  turn_instruction ← GetTurnInstructionForEdgeID (qd_id ed) f;
  travel_mode ← GetTravelModeForEdgeID (qd_id ed) f;
  compressed ← EdgeIsCompressed (qd_id ed) f;
  geometry ← GetGeometryIndexForEdgeID (qd_id ed) f;
  if negb compressed then
    Some (path ++ [MkPathData geometry name_index (qd_distance ed) turn_instruction travel_mode])
  else
    id_vector ← GetUncompressedGeometry geometry f;
    let start_index :=
      match path with
      | [] => if start_in_reverse then size_sub (size_sub (vsize id_vector) start_position) 1 else start_position
      | _ => 0%N
      end in
    let added := (fun id => MkPathData id name_index 0 NoTurn travel_mode) <$> drop (N.to_nat start_index) id_vector in
    last_entry ← vback (path ++ added);
    Some (vpop (path ++ added) ++
      [MkPathData (pd_node last_entry) (pd_name_id last_entry) (qd_distance ed) turn_instruction (pd_travel_mode last_entry)]).

Fixpoint unpack_path_loop (fuel : nat) (f : InternalDataFacade) (start_in_reverse : bool) (start_position : N)
    (recursion_stack : list (N * N)) (unpacked_path : list PathData) : option (list PathData) :=
  match recursion_stack with
  | [] => Some unpacked_path
  | (first, second) :: stack =>
      match fuel with
      | O => None
      | S fuel' =>
          '(id, _) ← select_edge (m_query_graph f) first second;
          ed ← sg_GetEdgeData id (m_query_graph f);
          if qd_shortcut ed then
            unpack_path_loop fuel' f start_in_reverse start_position
              ((first, qd_id ed) :: (qd_id ed, second) :: stack) unpacked_path
          else
            path ← append_original f start_in_reverse start_position ed unpacked_path;
            unpack_path_loop fuel' f start_in_reverse start_position stack path
      end
  end.

(** [for (i = start; i != end; (start < end ? ++i : --i))]: the nodes of the
    geometry of the target. *)
Fixpoint walk (fuel : nat) (up : bool) (i stop : N) (ids : list N) (acc : list N) : option (list N) :=
  if (i =? stop)%N then Some acc
  else
    match fuel with
    | O => None
    | S fuel' =>
        x ← vget ids i;
        walk fuel' up (if up then i + 1 else size_sub i 1)%N stop ids (acc ++ [x])
    end.

Definition append_target (f : InternalDataFacade) (p : PhantomNodes) (target_in_reverse : bool) (path : list PathData)
    : option (list PathData) :=
  let tp := target_phantom p in
  let sp := source_phantom p in
  id_vector ← GetUncompressedGeometry (packed_geometry_id tp) f;
  let is_local_path := (packed_geometry_id sp =? packed_geometry_id tp)%N && match path with [] => true | _ => false end in
  let start0 :=
    if is_local_path then
      if target_in_reverse then size_sub (vsize id_vector) (fwd_segment_position sp) else fwd_segment_position sp
    else 0%N in
  let ids := if target_in_reverse then reverse id_vector else id_vector in
  let end_index :=
    if target_in_reverse then size_sub (vsize ids) (fwd_segment_position tp) else fwd_segment_position tp in
  let start_index := if (end_index <? start0)%N then N.min start0 (size_sub (vsize ids) 1) else start0 in
  added ← walk (S (length ids)) (start_index <? end_index)%N start_index end_index ids [];
  Some (path ++ ((fun id => MkPathData id (ph_name_id tp) 0 NoTurn (forward_travel_mode tp)) <$> added)).

(** The last node is dropped if it repeats the one before. *)
Definition drop_repeated (path : list PathData) : option (list PathData) :=
  if (1 <? vsize path)%N then
    a ← vget path (vsize path - 1);
    b ← vget path (vsize path - 2);
    Some (if (pd_node a =? pd_node b)%N then vpop path else path)
  else Some path.

(** The consecutive pairs of the packed path, in order: the first pair is
    pushed last. *)
Definition path_pairs (packed_path : list N) : list (N * N) := zip packed_path (drop 1 packed_path).

Definition UnpackPath (fuel : nat) (f : InternalDataFacade) (packed_path : list N) (p : PhantomNodes)
    (unpacked_path : list PathData) : option (list PathData) :=
  front ← head packed_path;
  back ← vback packed_path;
  let start_in_reverse := negb (front =? forward_node_id (source_phantom p))%N in
  let target_in_reverse := negb (back =? forward_node_id (target_phantom p))%N in
  path1 ← unpack_path_loop fuel f start_in_reverse (fwd_segment_position (source_phantom p)) (path_pairs packed_path) unpacked_path;
  path2 ← (if negb (SPECIAL_EDGEID =? packed_geometry_id (target_phantom p))%N
           then append_target f p target_in_reverse path1 else Some path1);
  drop_repeated path2.
End unpack.

(** ** Lemmas *)

Section unpack_lemmas.
  Context (g : QueryGraph) (W : Z).
  Abbreviation n := (sg_number_of_nodes g).

(** The edge [e] may be travelled from [s] to [t]. *)
Definition usable (s t : N) (e : Edge QueryEdgeData) : Prop :=
  (s < n)%N /\ e ∈ sadj g s /\ e_target e = t /\ qd_forward (e_data e) = true \/
  (t < n)%N /\ e ∈ sadj g t /\ e_target e = s /\ qd_backward (e_data e) = true.

(** An arc is recorded at one of its ends only. *)
Definition one_sided : Prop := forall s t e e', e ∈ sadj g s -> e_target e = t -> qd_forward (e_data e) = true ->
  e' ∈ sadj g t -> e_target e' = s -> qd_backward (e_data e') = true -> False.

(** The middle node of a shortcut is on two arcs that are not longer. *)
Definition shortcuts_ok : Prop := forall s t e, usable s t e -> qd_shortcut (e_data e) = true ->
  exists e1 e2, usable s (qd_id (e_data e)) e1 /\ usable (qd_id (e_data e)) t e2 /\
    (qd_distance (e_data e1) + qd_distance (e_data e2) <= qd_distance (e_data e))%Z.

(** [p] are the nodes from [s] on, without [t], on a way over original edges. *)
Inductive route : N -> N -> list N -> Z -> Prop :=
  | route_nil t : route t t [] 0
  | route_cons s v t e p l : usable s v e -> qd_shortcut (e_data e) = false -> route v t p l ->
      route s t (s :: p) (qd_distance (e_data e) + l).

Lemma route_app s v t p q l1 l2 : route s v p l1 -> route v t q l2 -> route s t (p ++ q) (l1 + l2).
Proof.
  induction 1 as [|s u v e p l Hu Hs Hr IH]; intros Hq; [done|]. rewrite <- Z.add_assoc. cbn [app]. eapply route_cons; eauto.
Qed.

Lemma smaller_fold_ok (ok : QueryEdgeData -> bool) to r l :
  Forall2 (fun i e => vget (edge_array g) i = Some e /\ (i < vsize (edge_array g))%N) r l ->
  (vsize (edge_array g) < 2147483648)%N -> forall e w,
  exists e' w', fold_m (smaller_edge g ok to) (e, w) r = Some (e', w') /\
    ((e' = e /\ w' = w /\ forall x, x ∈ l -> e_target x = to -> ok (e_data x) = true -> (w <= qd_distance (e_data x))%Z) \/
     exists x, vget (edge_array g) e' = Some x /\ x ∈ l /\ e_target x = to /\ ok (e_data x) = true /\ e' <> SPECIAL_EDGEID /\
       w' = qd_distance (e_data x) /\ (w' < w)%Z /\
       forall y, y ∈ l -> e_target y = to -> ok (e_data y) = true -> (w' <= qd_distance (e_data y))%Z).
Proof.
  intros HF Hb. induction HF as [|i x r l [Hi Hlt] HF IH]; intros e w; cbn [fold_m].
  { exists e, w. split; [done|]. left. split_and!; [done|done|]. by intros x ?%elem_of_nil. }
  assert (smaller_edge g ok to (e, w) i = Some (if (e_target x =? to)%N && (qd_distance (e_data x) <? w)%Z && ok (e_data x)
    then (i, qd_distance (e_data x)) else (e, w))) as ->.
  { unfold smaller_edge, sg_GetTarget, sg_GetEdgeData. rewrite Hi. cbn [mbind option_bind]. by destruct (_ && _). }
  cbn [mbind option_bind].
  destruct ((e_target x =? to)%N && (qd_distance (e_data x) <? w)%Z && ok (e_data x)) eqn:E.
  - rewrite !andb_true_iff, N.eqb_eq, Z.ltb_lt in E. destruct E as [[Ht Hw] Hok].
    destruct (IH i (qd_distance (e_data x))) as (e' & w' & -> & Hres). exists e', w'. split; [done|]. right.
    destruct Hres as [(-> & -> & Hall)|(z & Hz & Hin & Htz & Hoz & Hne & -> & Hlt' & Hall)].
    + exists x. split_and!; try done; [by left|unfold SPECIAL_EDGEID, UINT_MAX; lia|].
      intros y [->|Hy]%elem_of_cons Hty Hoy; [lia|by apply Hall].
    + exists z. split_and!; try done; [by right|lia|]. intros y [->|Hy]%elem_of_cons Hty Hoy; [lia|by apply Hall].
  - assert (e_target x = to -> ok (e_data x) = true -> (w <= qd_distance (e_data x))%Z) as Hx.
    { intros Ht Ho. rewrite Ht, Ho, N.eqb_refl, andb_true_r in E. by apply Z.ltb_ge in E. }
    destruct (IH e w) as (e' & w' & -> & Hres). exists e', w'. split; [done|].
    destruct Hres as [(-> & -> & Hall)|(z & Hz & Hin & Htz & Hoz & Hne & -> & Hlt' & Hall)]; [left|right].
    + split_and!; try done. intros y [->|Hy]%elem_of_cons Hty Hoy; [by apply Hx|by apply Hall].
    + exists z. split_and!; try done; [by right|]. intros y [->|Hy]%elem_of_cons Hty Hoy; [specialize (Hx Hty Hoy); lia|by apply Hall].
Qed.

  Hypothesis g_wf : static_wf g.
  Hypothesis g_weights : weights_ok W g.
  Hypothesis W_int : (W < INT_MAX)%Z.
  Hypothesis g_sided : one_sided.
  Hypothesis g_shortcuts : shortcuts_ok.
  #[local] Set Default Proof Using "All".

Lemma usable_ends s t e : usable s t e -> (s < n)%N /\ (t < n)%N /\ (0 < qd_distance (e_data e) <= W)%Z.
Proof. intros [(Hs & He & <- & _)|(Ht & He & <- & _)]; [destruct (g_weights s e Hs He)|destruct (g_weights t e Ht He)]; done. Qed.

Lemma select_edge_ok s t e0 : usable s t e0 ->
  exists id e, select_edge g s t = Some (id, qd_distance (e_data e)) /\ sg_GetEdgeData id g = Some (e_data e) /\ usable s t e /\
    (qd_distance (e_data e) <= qd_distance (e_data e0))%Z.
Proof.
  intros Hu0. destruct (usable_ends s t e0 Hu0) as (Hs & Ht & Hd0). unfold select_edge.
  destruct (sadj_range g s g_wf Hs) as (r1 & -> & HF1). cbn [mbind option_bind].
  destruct (smaller_fold_ok qd_forward t r1 (sadj g s) HF1 (sw_edges g g_wf) SPECIAL_EDGEID INT_MAX) as (id & w & -> & Hres).
  cbn [mbind option_bind]. destruct Hres as [(-> & -> & Hno)|(x & Hx & Hin & Htx & Hfx & Hne & -> & _ & Hall)].
  - rewrite N.eqb_refl. destruct (sadj_range g t g_wf Ht) as (r2 & -> & HF2). cbn [mbind option_bind].
    destruct (smaller_fold_ok qd_backward s r2 (sadj g t) HF2 (sw_edges g g_wf) SPECIAL_EDGEID INT_MAX) as (id & w & -> & Hres).
    destruct Hu0 as [(_ & He0 & Ht0 & Hf0)|(_ & He0 & Ht0 & Hb0)]; [pose proof (Hno e0 He0 Ht0 Hf0); lia|].
    destruct Hres as [(-> & -> & Hno')|(x & Hx & Hin & Htx & Hfx & Hne & -> & _ & Hall)]; [pose proof (Hno' e0 He0 Ht0 Hb0); lia|].
    exists id, x. unfold sg_GetEdgeData. rewrite Hx. split_and!; [done|done|by right|by apply Hall].
  - destruct (N.eqb_spec SPECIAL_EDGEID id) as [<-|_]; [done|]. exists id, x. unfold sg_GetEdgeData. rewrite Hx.
    split_and!; [done|done|by left|]. destruct Hu0 as [(_ & He0 & Ht0 & Hf0)|(_ & He0 & Ht0 & Hb0)]; [by apply Hall|].
    destruct (g_sided s t x e0); done.
Qed.

(** Every pair on the stack is replaced by original edges. *)
Lemma unpack_pair k : forall s t e, usable s t e -> (Z.to_nat (qd_distance (e_data e)) <= k)%nat ->
  exists steps p l, (steps < 2 * k)%nat /\ route s t p l /\ (l <= qd_distance (e_data e))%Z /\
    forall fuel stack acc, unpack_loop (steps + fuel) g ((s, t) :: stack) acc = unpack_loop fuel g stack (acc ++ p).
Proof.
  induction k as [k IH] using lt_wf_ind. intros s t e0 Hu0 Hk. destruct (usable_ends s t e0 Hu0) as (_ & _ & Hd0).
  destruct (select_edge_ok s t e0 Hu0) as (id & e & Hsel & Hdata & Hu & Hle). destruct (usable_ends s t e Hu) as (_ & _ & Hd).
  destruct (qd_shortcut (e_data e)) eqn:Hsc.
  - destruct (g_shortcuts s t e Hu Hsc) as (e1 & e2 & Hu1 & Hu2 & Hsum).
    destruct (usable_ends _ _ _ Hu1) as (_ & _ & Hd1). destruct (usable_ends _ _ _ Hu2) as (_ & _ & Hd2).
    destruct (IH (Z.to_nat (qd_distance (e_data e1))) ltac:(lia) _ _ e1 Hu1) as (st1 & p1 & l1 & Hst1 & Hr1 & Hl1 & Hrun1); [lia|].
    destruct (IH (Z.to_nat (qd_distance (e_data e2))) ltac:(lia) _ _ e2 Hu2) as (st2 & p2 & l2 & Hst2 & Hr2 & Hl2 & Hrun2); [lia|].
    exists (S (st1 + st2)), (p1 ++ p2), (l1 + l2)%Z. split; [lia|]. split; [by eapply route_app|]. split; [lia|].
    intros fuel stack acc. cbn [Nat.add unpack_loop]. rewrite Hsel. cbn [mbind option_bind]. rewrite Hdata. cbn [mbind option_bind].
    rewrite Hsc, <- Nat.add_assoc, Hrun1, Hrun2. by rewrite app_assoc.
  - exists 1%nat, [s], (qd_distance (e_data e) + 0)%Z. split; [lia|]. split; [eapply route_cons; [done|done|constructor]|]. split; [lia|].
    intros fuel stack acc. cbn [Nat.add unpack_loop]. rewrite Hsel. cbn [mbind option_bind]. rewrite Hdata. cbn [mbind option_bind].
    by rewrite Hsc.
Qed.
End unpack_lemmas.

(** ** Properties *)

(** C22: unpacking an arc of the hierarchy ends, and gives the nodes of a way
    over original edges that is not longer than the arc. A fuel of twice the
    weight of the arc is enough, as the weights of the two parts of a shortcut
    are positive and add up to at most its own. *)
Theorem unpack_edge_original g W s t e fuel unpacked_path :
  static_wf g -> weights_ok W g -> (W < INT_MAX)%Z -> one_sided g -> shortcuts_ok g -> usable g s t e ->
  (2 * Z.to_nat (qd_distance (e_data e)) <= fuel)%nat ->
  exists p l, UnpackEdge fuel g s t unpacked_path = Some (unpacked_path ++ p ++ [t]) /\ route g s t p l /\
    (l <= qd_distance (e_data e))%Z.
Proof.
  intros Hwf Hw HW H1 Hs Hu Hf.
  destruct (unpack_pair g W Hwf Hw HW H1 Hs _ s t e Hu (Nat.le_refl _)) as (steps & p & l & Hst & Hr & Hl & Hrun).
  exists p, l. split; [|done]. unfold UnpackEdge. replace fuel with (steps + (fuel - steps))%nat by lia.
  rewrite Hrun. destruct (fuel - steps)%nat; cbn [unpack_loop mbind option_bind]; by rewrite app_assoc.
Qed.

(** *** A shortcut over one node *)

Definition sample_hierarchy : QueryGraph := StaticGraph_swap [0; 2; 3; 3]%N
  [MkEdge 1%N (MkQueryEdgeData 10 false 2 false true); MkEdge 2%N (MkQueryEdgeData 11 false 3 true false);
   MkEdge 2%N (MkQueryEdgeData 0 true 5 true false)].

Lemma sample_hierarchy_adj u e : (u < 3)%N -> e ∈ sadj sample_hierarchy u ->
  u = 0%N /\ (e = MkEdge 1%N (MkQueryEdgeData 10 false 2 false true) \/ e = MkEdge 2%N (MkQueryEdgeData 11 false 3 true false)) \/
  u = 1%N /\ e = MkEdge 2%N (MkQueryEdgeData 0 true 5 true false).
Proof.
  intros Hu He. assert (u = 0 \/ u = 1 \/ u = 2)%N as [->|[->| ->]] by lia; vm_compute in He.
  - left. split; [done|]. apply elem_of_cons in He as [->|He]; [by left|right]. by apply list_elem_of_singleton in He.
  - right. split; [done|]. by apply list_elem_of_singleton in He.
  - by apply elem_of_nil in He.
Qed.

Lemma sample_hierarchy_wf : static_wf sample_hierarchy.
Proof.
  constructor; [done|done|done|]. intros n b e Hb He. pose proof (vget_Some_lt _ _ _ He) as Hlt. change (vsize _) with 4%N in Hlt.
  assert (n = 0 \/ n = 1 \/ n = 2)%N as [->|[->| ->]] by lia; vm_compute in Hb, He; injection Hb as <-; injection He as <-; done.
Qed.

Lemma sample_hierarchy_far u e : (3 <= u)%N -> e ∈ sadj sample_hierarchy u -> False.
Proof.
  intros Hu. unfold sadj. destruct (vget (node_array sample_hierarchy) (u + 1)) as [x|] eqn:E.
  - apply vget_Some_lt in E. change (vsize _) with 4%N in E. lia.
  - destruct (vget _ u); by intros ?%elem_of_nil.
Qed.

Lemma unpack_edge_original_witness :
  UnpackEdge 10 sample_hierarchy 1 2 [] = Some [1; 0; 2]%N /\
  exists p l, Some [1; 0; 2]%N = Some ([] ++ p ++ [2%N]) /\ route sample_hierarchy 1 2 p l /\ (l <= 5)%Z.
Proof.
  split; [reflexivity|].
  apply (unpack_edge_original sample_hierarchy 5 1 2 (MkEdge 2%N (MkQueryEdgeData 0 true 5 true false)) 10 []).
  - exact sample_hierarchy_wf.
  - intros u e Hu He. apply sample_hierarchy_adj in He as [[-> [-> | ->]]|[-> ->]]; [..|done]; done.
  - done.
  - intros s t e e' He Ht Hf He' Ht' Hb.
    destruct (decide (s < 3)%N) as [Hs|Hs]; [|apply (sample_hierarchy_far s e); [lia|done]].
    destruct (decide (t < 3)%N) as [Htl|Htl]; [|apply (sample_hierarchy_far t e'); [lia|done]].
    apply sample_hierarchy_adj in He as [[-> [-> | ->]]|[-> ->]]; [done|..]; simpl in Ht; subst t;
      apply sample_hierarchy_adj in He' as [[? _]|[? _]]; done.
  - intros s t e [(Hs & He & <- & Hf)|(Ht & He & <- & Hb)] Hsc.
    + apply sample_hierarchy_adj in He as [[-> [-> | ->]]|[-> ->]]; [done|done| |done].
      exists (MkEdge 1%N (MkQueryEdgeData 10 false 2 false true)), (MkEdge 2%N (MkQueryEdgeData 11 false 3 true false)).
      split; [right; split_and!; [done|vm_compute; by left|done|done]|].
      split; [left; split_and!; [done|vm_compute; right; by left|done|done]|]. done.
    + apply sample_hierarchy_adj in He as [[-> [-> | ->]]|[-> ->]]; done.
  - left. split_and!; [done|vm_compute; by left|done|done].
  - simpl. lia.
Defined.
