(* ===== verification/ShortestPath.v ===== *)
(** * RoutingAlgorithms/ShortestPathRouting.h: routes over several points

    The search from one pair of snapped points to the next one, the choice
    between the two directions of a target, and the unpacking of the legs;
    with the heaps of a thread of DataStructures/SearchEngineData.cpp and the
    result of DataStructures/RawRouteData.h. *)

From S2P Require Import Prelude Types Edges Storage BinaryHeap DynamicGraph StaticGraph Text Routing QuerySearch Unpacking.

Abbreviation QueryHeap := (BinaryHeap HeapData map_storage).

(** ** SearchEngineData *)

(** The heaps of a thread, made when they are first needed. *)
Record SearchEngineData := MkSearchEngineData {
  forwardHeap : option QueryHeap; backwardHeap : option QueryHeap;
  forwardHeap2 : option QueryHeap; backwardHeap2 : option QueryHeap;
  forwardHeap3 : option QueryHeap; backwardHeap3 : option QueryHeap }.

Definition clear_or_new (h : option QueryHeap) : QueryHeap :=
  match h with Some h => Clear h | None => BinaryHeap_make UnorderedMapStorage_make end.

Definition InitializeOrClearFirstThreadLocalStorage (d : SearchEngineData) : SearchEngineData :=
  MkSearchEngineData (Some (clear_or_new (forwardHeap d))) (Some (clear_or_new (backwardHeap d)))
    (forwardHeap2 d) (backwardHeap2 d) (forwardHeap3 d) (backwardHeap3 d).

Definition InitializeOrClearSecondThreadLocalStorage (d : SearchEngineData) : SearchEngineData :=
  MkSearchEngineData (forwardHeap d) (backwardHeap d)
    (Some (clear_or_new (forwardHeap2 d))) (Some (clear_or_new (backwardHeap2 d))) (forwardHeap3 d) (backwardHeap3 d).

Definition InitializeOrClearThirdThreadLocalStorage (d : SearchEngineData) : SearchEngineData :=
  MkSearchEngineData (forwardHeap d) (backwardHeap d) (forwardHeap2 d) (backwardHeap2 d)
    (Some (clear_or_new (forwardHeap3 d))) (Some (clear_or_new (backwardHeap3 d))).

(** ** RawRouteData *)

Record RawRouteData := MkRawRouteData {
  unpacked_path_segments : list (list PathData); unpacked_alternative : list PathData;
  segment_end_coordinates : list PhantomNodes; raw_via_node_coordinates : list FixedPointCoordinate;
  source_traversed_in_reverse : list bool; target_traversed_in_reverse : list bool;
  alt_source_traversed_in_reverse : list bool; alt_target_traversed_in_reverse : list bool;
  raw_check_sum : N; shortest_path_length : Z; alternative_path_length : Z }.

Definition RawRouteData_default : RawRouteData :=
  MkRawRouteData [] [] [] [] [] [] [] [] SPECIAL_NODEID INVALID_EDGE_WEIGHT INVALID_EDGE_WEIGHT.

Definition is_via_leg (leg : N) (r : RawRouteData) : bool :=
  negb (leg =? size_sub (vsize (unpacked_path_segments r)) 1)%N.

Definition set_no_route (r : RawRouteData) : RawRouteData :=
  MkRawRouteData (unpacked_path_segments r) (unpacked_alternative r) (segment_end_coordinates r) (raw_via_node_coordinates r)
    (source_traversed_in_reverse r) (target_traversed_in_reverse r) (alt_source_traversed_in_reverse r)
    (alt_target_traversed_in_reverse r) (raw_check_sum r) INVALID_EDGE_WEIGHT INVALID_EDGE_WEIGHT.

(** ** The search of one leg *)

(** [while (0 < forward_heap.Size() + reverse_heap.Size())]: a step of each
    search that is not finished. Every iteration settles a node of one of
    them, so two times the number of nodes are enough. *)
Fixpoint route_loop (fuel : nat) (g : QueryGraph) (min_edge_offset : Z) (s : QueryHeap * QueryHeap * N * Z)
    : option (QueryHeap * QueryHeap * N * Z) :=
  let '(forward_heap, reverse_heap, middle, upper_bound) := s in
  if (0 <? Size forward_heap + Size reverse_heap)%N then
    match fuel with
    | O => None
    | S fuel' =>
        '(f1, r1, middle1, upper1) ←
          (if negb (Empty forward_heap) then RoutingStep g forward_heap reverse_heap middle upper_bound min_edge_offset true
           else Some s);
        '(f2, r2, middle2, upper2) ←
          (if negb (Empty r1) then
             '(r2, f2, m2, u2) ← RoutingStep g r1 f1 middle1 upper1 min_edge_offset false; Some (f2, r2, m2, u2)
           else Some (f1, r1, middle1, upper1));
        route_loop fuel' g min_edge_offset (f2, r2, middle2, upper2)
    end
  else Some s.

Definition route_search (g : QueryGraph) (min_edge_offset : Z) (forward_heap reverse_heap : QueryHeap)
    : option (QueryHeap * QueryHeap * N * Z) :=
  route_loop (S (2 * N.to_nat (sg_number_of_nodes g))) g min_edge_offset
    (forward_heap, reverse_heap, SPECIAL_NODEID, INVALID_EDGE_WEIGHT).

(** The four heaps of a leg: two forward ones and two reverse ones. *)
Record leg_heaps := MkLegHeaps { lh_forward1 : QueryHeap; lh_reverse1 : QueryHeap; lh_forward2 : QueryHeap; lh_reverse2 : QueryHeap }.

(** The insertion of one node of the source into both forward heaps, with the
    smallest offset so far. *)
Definition insert_source (use : bool) (node : N) (weight : option Z) (base : Z) (s : QueryHeap * QueryHeap * Z)
    : option (QueryHeap * QueryHeap * Z) :=
  let '(f1, f2, offset) := s in
  if use && negb (node =? SPECIAL_NODEID)%N then
    w ← weight; k ← isub base w;
    f1' ← Insert node k (MkHeapData node) f1;
    f2' ← Insert node k (MkHeapData node) f2;
    Some (f1', f2', Z.min offset k)
  else Some s.

Definition insert_target (node : N) (weight : option Z) (reverse_heap : QueryHeap) : option QueryHeap :=
  if negb (node =? SPECIAL_NODEID)%N then w ← weight; Insert node w (MkHeapData node) reverse_heap else Some reverse_heap.

(** ** The legs *)

Record leg_state := MkLegState {
  distance1 : Z; distance2 : Z; search_from_1st_node : bool; search_from_2nd_node : bool;
  packed_legs1 : list (list N); packed_legs2 : list (list N); current_leg : N; ls_heaps : leg_heaps }.

Definition is_nil {A} (l : list A) : bool := match l with [] => true | _ => false end.

(** Both searches of a leg: the heaps, the middle nodes and the lengths. *)
Definition search_leg (g : QueryGraph) (allow_u_turn : bool) (phantoms : PhantomNodes) (s : leg_state)
    : option (leg_heaps * N * N * Z * Z) :=
  let h := ls_heaps s in
  let sp := source_phantom phantoms in let tp := target_phantom phantoms in
  let base1 := if allow_u_turn then 0%Z else distance1 s in
  let base2 := if allow_u_turn then 0%Z else distance2 s in
  '(fa, fb, offset0) ← insert_source (allow_u_turn || search_from_1st_node s) (forward_node_id sp) (GetForwardWeightPlusOffset sp)
       base1 (Clear (lh_forward1 h), Clear (lh_forward2 h), 0%Z);
  '(f1, f2, offset) ← insert_source (allow_u_turn || search_from_2nd_node s) (reverse_node_id sp) (GetReverseWeightPlusOffset sp)
       base2 (fa, fb, offset0);
  r1 ← insert_target (forward_node_id tp) (GetForwardWeightPlusOffset tp) (Clear (lh_reverse1 h));
  r2 ← insert_target (reverse_node_id tp) (GetReverseWeightPlusOffset tp) (Clear (lh_reverse2 h));
  '(f1', r1', middle1, upper1) ← route_search g offset f1 r1;
  '(f2', r2', middle2, upper2) ←
    (if negb (Empty r2) then route_search g offset f2 r2 else Some (f2, r2, SPECIAL_NODEID, INVALID_EDGE_WEIGHT));
  Some (MkLegHeaps f1' r1' f2' r2', middle1, middle2, upper1, upper2).

(** "if one of the paths was not found, replace it with the other one". *)
Definition replace_legs (allow_u_turn : bool) (leg1 leg2 : list N) (upper1 upper2 : Z) : list N * list N * Z * Z :=
  let '(leg1', upper1') :=
    if (allow_u_turn && (upper2 <? upper1)%Z) || is_nil leg1 then (leg2, upper2) else (leg1, upper1) in
  let '(leg2', upper2') :=
    if (allow_u_turn && (upper1' <? upper2)%Z) || is_nil leg2 then (leg1', upper1') else (leg2, upper2) in
  (leg1', leg2', upper1', upper2').

(** The legs are made to continue the ones before. *)
Definition join_legs (leg : N) (leg1 leg2 : list N) (upper1 upper2 : Z) (legs1 legs2 : list (list N))
    : option (list N * list N * Z * Z * list (list N) * list (list N)) :=
  before1 ← vget legs1 (leg - 1); before2 ← vget legs2 (leg - 1);
  end1 ← vback before1; end2 ← vback before2;
  start1 ← head leg1; start2 ← head leg2;
  let '(a, b, ua, ub) :=
    if negb (end1 =? start1)%N && negb (end2 =? start2)%N then (leg2, leg1, upper2, upper1) else (leg1, leg2, upper1, upper2) in
  Some (if (start1 =? start2)%N then
          if negb (start1 =? end1)%N then (a, b, ua, ub, legs2, legs2)
          else if negb (start2 =? end2)%N then (a, b, ua, ub, legs1, legs1)
          else (a, b, ua, ub, legs1, legs2)
        else (a, b, ua, ub, legs1, legs2)).

(** One iteration of the loop over the pairs; [inl] is the early return. *)
Definition route_leg (g : QueryGraph) (uturn_indicators : list bool) (s : leg_state) (phantoms : PhantomNodes)
    : option (leg_heaps + leg_state) :=
  let leg := current_leg s in
  allow_u_turn ← (if (0 <? leg)%N && (leg <? vsize uturn_indicators)%N then vget uturn_indicators (leg - 1) else Some false);
  '(heaps, middle1, middle2, upper1, upper2) ← search_leg g allow_u_turn phantoms s;
  if (INVALID_EDGE_WEIGHT =? upper1)%Z && (INVALID_EDGE_WEIGHT =? upper2)%Z then Some (inl heaps)
  else
    let from1 := negb (SPECIAL_NODEID =? middle1)%N in
    let from2 := negb (SPECIAL_NODEID =? middle2)%N in
    leg1 ← (if negb (INVALID_EDGE_WEIGHT =? upper1)%Z
            then RetrievePackedPathFromHeap (lh_forward1 heaps) (lh_reverse1 heaps) middle1 [] else Some []);
    leg2 ← (if negb (INVALID_EDGE_WEIGHT =? upper2)%Z
            then RetrievePackedPathFromHeap (lh_forward2 heaps) (lh_reverse2 heaps) middle2 [] else Some []);
    let '(leg1, leg2, upper1, upper2) := replace_legs allow_u_turn leg1 leg2 upper1 upper2 in
    '(leg1, leg2, upper1, upper2, legs1, legs2) ←
      (if negb allow_u_turn && (0 <? leg)%N then join_legs leg leg1 leg2 upper1 upper2 (packed_legs1 s) (packed_legs2 s)
       else Some (leg1, leg2, upper1, upper2, packed_legs1 s, packed_legs2 s));
    old1 ← vget legs1 leg; old2 ← vget legs2 leg;
    legs1 ← vset legs1 leg (old1 ++ leg1);
    legs2 ← vset legs2 leg (old2 ++ leg2);
    back1 ← vback (old1 ++ leg1); back2 ← vback (old2 ++ leg2);
    let target := target_phantom phantoms in
    let same_end := negb allow_u_turn && (back1 =? back2)%N && isBidirected target in
    let from1 := from1 && negb (same_end && (back2 =? reverse_node_id target)%N) in
    let from2 := from2 && negb (same_end && (back2 =? forward_node_id target)%N) in
    Some (inr (MkLegState upper1 upper2 from1 from2 legs1 legs2 (leg + 1) heaps)).

Fixpoint route_legs (g : QueryGraph) (uturn_indicators : list bool) (s : leg_state) (pairs : list PhantomNodes)
    : option (leg_heaps + leg_state) :=
  match pairs with
  | [] => Some (inr s)
  | phantoms :: pairs' =>
      r ← route_leg g uturn_indicators s phantoms;
      match r with inl h => Some (inl h) | inr s' => route_legs g uturn_indicators s' pairs' end
  end.

(** Unpacking of one leg and the two flags. *)
Definition unpack_leg (fuel : nat) (f : InternalDataFacade) (pairs : list PhantomNodes) (legs : list (list N))
    (s : list (list PathData) * list bool * list bool) (index : N) : option (list (list PathData) * list bool * list bool) :=
  let '(segments, from_reverse, to_reverse) := s in
  phantoms ← vget pairs index; leg ← vget legs index; segment ← vget segments index;
  unpacked ← UnpackPath fuel f leg phantoms segment;
  segments' ← vset segments index unpacked;
  front ← head leg; back ← vback leg;
  Some (segments', from_reverse ++ [negb (front =? forward_node_id (source_phantom phantoms))%N],
    to_reverse ++ [negb (back =? forward_node_id (target_phantom phantoms))%N]).

(** [operator()]; [fuel] bounds the unpacking of a leg. *)
Definition ShortestPathRouting (fuel : nat) (f : InternalDataFacade) (engine : SearchEngineData)
    (phantom_nodes_vector : list PhantomNodes) (uturn_indicators : list bool) (raw : RawRouteData)
    : option (SearchEngineData * RawRouteData) :=
  let g := m_query_graph f in
  let engine := InitializeOrClearThirdThreadLocalStorage (InitializeOrClearSecondThreadLocalStorage
    (InitializeOrClearFirstThreadLocalStorage engine)) in
  f1 ← forwardHeap engine; r1 ← backwardHeap engine; f2 ← forwardHeap2 engine; r2 ← backwardHeap2 engine;
  let legs := replicate (length phantom_nodes_vector) [] in
  let put h := MkSearchEngineData (Some (lh_forward1 h)) (Some (lh_reverse1 h)) (Some (lh_forward2 h)) (Some (lh_reverse2 h))
    (forwardHeap3 engine) (backwardHeap3 engine) in
  r ← route_legs g uturn_indicators (MkLegState 0 0 true true legs legs 0 (MkLegHeaps f1 r1 f2 r2)) phantom_nodes_vector;
  match r with
  | inl h => Some (put h, set_no_route raw)
  | inr s =>
      let legs := if (distance2 s <? distance1 s)%Z then packed_legs2 s else packed_legs1 s in
      '(segments, from_reverse, to_reverse) ←
        fold_m (unpack_leg fuel f phantom_nodes_vector legs)
          (vresize (unpacked_path_segments raw) (vsize legs) [], source_traversed_in_reverse raw, target_traversed_in_reverse raw)
          (irange 0 (vsize legs));
      Some (put (ls_heaps s),
        MkRawRouteData segments (unpacked_alternative raw) (segment_end_coordinates raw) (raw_via_node_coordinates raw)
          from_reverse to_reverse (alt_source_traversed_in_reverse raw) (alt_target_traversed_in_reverse raw)
          (raw_check_sum raw) (Z.min (distance1 s) (distance2 s)) (alternative_path_length raw))
  end.
