(* ===== verification/RouteSearch.v ===== *)
(** * RoutingAlgorithms: correctness of the search of a leg

    A forward and a backward search upwards take turns and meet at the middle
    node of a shortest way. Each of them stops when it cannot improve the
    length that was found any more. *)

From S2P Require Import Prelude Types Paths Edges Storage BinaryHeap DynamicGraph StaticGraph Text Routing QuerySearch DistanceTable.
From S2P Require Import Unpacking ShortestPath.

Lemma reached_grow (h h' : QueryHeap) v k : grows h h' -> reached h v k -> reached h' v k.
Proof.
  intros [_ Hg] (k' & d & q & Hq & Hle). destruct (Hg v k' d q Hq) as (k2 & d2 & Hq2 & Hle2).
  exists k2, d2, q. split; [done|lia].
Qed.

(** ** Lists of nodes *)

(** The nodes of a path, with its length. *)
Inductive node_path (A : arcs) : list N -> N -> Prop :=
  | node_path_one v : node_path A [v] 0
  | node_path_cons u v l w len : A u v w -> node_path A (v :: l) len -> node_path A (u :: v :: l) (w + len).

Lemma node_path_mono (A A' : arcs) l len : (forall u v w, A u v w -> A' u v w) -> node_path A l len -> node_path A' l len.
Proof. intros HA. induction 1; constructor; eauto. Qed.

Lemma node_path_join A l1 m l2 a b : node_path A (l1 ++ [m]) a -> node_path A (m :: l2) b -> node_path A (l1 ++ [m] ++ l2) (a + b).
Proof.
  remember (l1 ++ [m]) as l eqn:Hl. intros Hp Hq. revert l1 Hl. induction Hp as [v|u v l w len Ha Hp IH]; intros l1 Hl.
  - destruct l1 as [|x [|]]; [|done..]. injection Hl as ->. done.
  - destruct l1 as [|x l1]; [done|]. injection Hl as -> Hl. destruct l1 as [|y l1].
    + injection Hl as -> ->. rewrite <- N.add_assoc. constructor; [done|]. by apply (IH []).
    + injection Hl as -> Hl. rewrite <- N.add_assoc. constructor; [done|]. apply (IH (y :: l1)). by rewrite Hl.
Qed.

Lemma node_path_reverse A l len : node_path (flip A) l len -> node_path A (reverse l) len.
Proof.
  induction 1 as [v|u v l w len Ha Hp IH]; [constructor|]. rewrite reverse_cons. rewrite reverse_cons in IH |- *.
  rewrite <- app_assoc, N.add_comm. apply (node_path_join A (reverse l) v [u] len w IH).
  rewrite <- (N.add_0_r w). constructor; [exact Ha|constructor].
Qed.

Section two_sided.
  Context (g : QueryGraph) (E : arcs) (start : bool -> gmap N Z) (W M B off : Z).
  Abbreviation n := (sg_number_of_nodes g).
  Abbreviation X := (graph_nodes g).
  Hypothesis g_wf : static_wf g.
  Hypothesis g_small : (n < 2147483647)%N.
  Hypothesis g_weights : weights_ok W g.
  Hypothesis g_rep : represents g E.
  Hypothesis g_bound : forall dir, upward_bound dir g B.
  Hypothesis forward_starts : forall s k, start true !! s = Some k -> (s < n)%N /\ (off <= k <= M)%Z.
  Hypothesis backward_starts : forall s k, start false !! s = Some k -> (s < n)%N /\ (0 <= k <= M)%Z.
  Hypothesis room : (INT_MIN <= 2 * off /\ off <= 0 /\ 0 <= M /\ 0 <= B /\ 0 <= W /\ 2 * (M + B) + W < INT_MAX)%Z.
  #[local] Set Default Proof Using "All".
  Implicit Types h r : QueryHeap.

Definition lows (dir : bool) : Z := if dir then off else 0%Z.
Abbreviation up_key dir := (up_key g dir (start dir)).
Abbreviation key_ok dir := (key_ok (net E dir) (start dir)).
Abbreviation optimal dir := (optimal (net E dir) (start dir)).
Abbreviation query_inv dir := (query_inv X g dir (start dir)).
Abbreviation relaxed dir := (relaxed g dir (net E dir) (start dir)).
Abbreviation parent_ok dir := (parent_ok g dir (start dir)).

Lemma all_nodes v : (v < n)%N -> v ∈ X.
Proof. intros Hv. apply elem_of_list_to_set, elem_of_irange; lia. Qed.

Lemma nodes_small : (N.of_nat (size X) < 2147483647)%N.
Proof. unfold graph_nodes. rewrite size_list_to_set by (apply NoDup_irange; lia). rewrite length_irange; lia. Qed.

Lemma starts_ok dir s k : start dir !! s = Some k -> (s < n)%N /\ (lows dir <= k <= M)%Z.
Proof. destruct dir; [apply forward_starts|apply backward_starts]. Qed.

Lemma starts_low dir s k : start dir !! s = Some k -> (s < n)%N /\ (lows dir <= k)%Z.
Proof. intros Hs. destruct (starts_ok dir s k Hs). split; [done|lia]. Qed.

Lemma up_key_bound dir v k : up_key dir v k -> (k <= M + B)%Z.
Proof. intros (s & k0 & l & Hs & Hp & ->). pose proof (starts_ok dir s k0 Hs). pose proof (g_bound dir s v l Hp). lia. Qed.

Lemma up_key_ge dir v k : up_key dir v k -> (lows dir <= k)%Z.
Proof. intros (s & k0 & l & Hs & Hp & ->). pose proof (starts_ok dir s k0 Hs). lia. Qed.

Lemma search_room dir : (INT_MIN <= lows dir /\ M + B + W <= INT_MAX)%Z.
Proof. unfold lows, INT_MIN, INT_MAX in *. destruct dir; lia. Qed.

(** The lemmas on one search, for both directions. *)
Lemma get_key_side (dir : bool) c h v k d q : heap_wf X c h -> queue h !! v = Some (k, d, q) ->
  exists h', GetKey v h = Some (k, h') /\ heap_wf X c h' /\ queue h' = queue h.
Proof.
  apply (get_key_ok X g dir (net E dir) (start dir) W (lows dir) (M + B) g_wf g_weights all_nodes nodes_small
    (net_with g E g_rep dir) (net_against g E g_rep dir) (starts_low dir) (up_key_bound dir) (search_room dir)).
Qed.

Lemma delete_min_side dir c delta h : query_inv dir c delta h -> Empty h = false ->
  exists node k d h', DeleteMin h = Some (node, h') /\ query_inv dir c k h' /\ queue h !! node = Some (k, d, true) /\
    queue h' = <[node := (k, d, false)]> (queue h) /\ (delta <= k)%Z.
Proof.
  apply (delete_min_inv X g dir (net E dir) (start dir) W (lows dir) (M + B) g_wf g_weights all_nodes nodes_small
    (net_with g E g_rep dir) (net_against g E g_rep dir) (starts_low dir) (up_key_bound dir) (search_room dir)).
Qed.

Lemma stall_or_relax_side dir c node k h : query_inv dir c k h -> (node < n)%N -> up_key dir node k -> settled h !! node = Some k ->
  exists h', stall_or_relax g dir node k h = Some h' /\ query_inv dir c k h' /\ grows h h' /\
    relaxed_at g dir (net E dir) (start dir) h' node k.
Proof.
  apply (stall_or_relax_ok X g dir (net E dir) (start dir) W (lows dir) (M + B) g_wf g_weights all_nodes nodes_small
    (net_with g E g_rep dir) (net_against g E g_rep dir) (starts_low dir) (up_key_bound dir) (search_room dir)).
Qed.

Lemma up_path_side dir c delta h s k0 v l :
  query_inv dir c delta h -> relaxed dir h -> start dir !! s = Some k0 -> path (graph_arcs dir g) s v l ->
  optimal dir v (k0 + Z.of_N l) ->
  settled h !! v = Some (k0 + Z.of_N l)%Z \/ Empty h = false /\ (delta <= k0 + Z.of_N l)%Z.
Proof.
  apply (up_path_partial X g dir (net E dir) (start dir) W (lows dir) (M + B) g_wf g_weights all_nodes nodes_small
    (net_with g E g_rep dir) (net_against g E g_rep dir) (starts_low dir) (up_key_bound dir) (search_room dir)).
Qed.

(** ** One side *)

(** What holds of a heap also after its search was stopped. *)
Record tree_ok (dir : bool) (c : N) h : Prop := {
  to_wf : heap_wf X c h;
  to_keys v k d q : queue h !! v = Some (k, d, q) -> (v < n)%N /\ up_key dir v k;
  to_parent v k d q : queue h !! v = Some (k, d, q) -> parent_ok dir h v k d;
}.

(** Every node with a shortest way upwards is in [K] or not closer than [D]. *)
Definition complete_to (dir : bool) (K : gmap N Z) (D : Z) : Prop :=
  forall s k0 v l, start dir !! s = Some k0 -> path (graph_arcs dir g) s v l -> optimal dir v (k0 + Z.of_N l) ->
    K !! v = Some (k0 + Z.of_N l)%Z \/ (D <= k0 + Z.of_N l)%Z.

(** A side runs, or it is stopped at [D]; [K] are the nodes it has settled. *)
Definition side (dir : bool) (c : N) h (K : gmap N Z) (ub : Z) : Prop :=
  tree_ok dir c h /\ (forall v k, K !! v = Some k -> settled h !! v = Some k) /\
  ((exists delta, query_inv dir c delta h /\ relaxed dir h /\ K = settled h) \/
   Empty h = true /\ exists D, (ub < D + off)%Z /\ complete_to dir K D).

Lemma tree_of_inv dir c delta h : query_inv dir c delta h -> tree_ok dir c h.
Proof. intros [Hwf Hk _ _ _ Hp]. by constructor. Qed.

Lemma tree_queue dir c h h' : heap_wf X c h' -> queue h' = queue h -> tree_ok dir c h -> tree_ok dir c h'.
Proof.
  intros Hwf Hq [_ Hk Hp]. constructor; [done|..]; unfold QuerySearch.parent_ok; rewrite Hq; [exact Hk|exact Hp].
Qed.

Lemma side_queue dir c h h' K ub ub' :
  heap_wf X c h' -> queue h' = queue h -> (ub' <= ub)%Z -> side dir c h K ub -> side dir c h' K ub'.
Proof.
  intros Hwf Hq Hub (Htree & HK & Hph). assert (settled h' = settled h) as Hs by (unfold settled; by rewrite Hq).
  split; [by apply (tree_queue dir c h)|]. rewrite Hs. split; [done|]. destruct Hph as [(delta & Hinv & Hrel & ->)|(Hem & D & HD & Hc)].
  - left. exists delta. split_and!; [|intros u k; rewrite Hs; intros Hu Hopt v w Hvw; unfold reached; rewrite Hq; by eapply Hrel|done].
    eapply (query_inv_queue X g dir (net E dir) (start dir) W (lows dir) (M + B)); try done.
    + apply all_nodes.
    + apply nodes_small.
    + apply (net_with g E g_rep).
    + apply (net_against g E g_rep).
    + apply starts_low.
    + apply up_key_bound.
    + apply search_room.
  - right. split; [|exists D; split; [lia|done]].
    apply (empty_ok X c h' Hwf). rewrite Hq. by apply (empty_ok X c h (to_wf _ _ _ Htree)).
Qed.

(** ** One step *)

(** How a step at [node] changes the best length. *)
Definition met (r : QueryHeap) (node : N) (k : Z) (m : N) (ub : Z) (m' : N) (ub' : Z) : Prop :=
  (exists kr d q, queue r !! node = Some (kr, d, q) /\ (0 <= kr + k < ub)%Z /\ m' = node /\ ub' = (kr + k)%Z) \/
  (m' = m /\ ub' = ub /\ forall kr d q, queue r !! node = Some (kr, d, q) -> (0 <= kr + k)%Z -> (ub <= kr + k)%Z).

Lemma meet_ok dir c r node k m ub : tree_ok (negb dir) c r -> (node < n)%N -> up_key dir node k ->
  exists r' m' ub', meet_at node k r m ub = Some (r', m', ub') /\ heap_wf X c r' /\ queue r' = queue r /\ met r node k m ub m' ub'.
Proof.
  intros Htree Hnode Hup. unfold meet_at.
  destruct (was_inserted_ok X c r node (to_wf _ _ _ Htree) (all_nodes _ Hnode)) as (r1 & -> & Hwf1 & Hq1). cbn [mbind option_bind].
  case_bool_decide as Hin.
  2:{ exists r1, m, ub. split_and!; [done|done|done|]. right. split_and!; [done|done|]. intros kr d q Hr. destruct Hin. rewrite Hr. by eexists. }
  destruct Hin as [[[kr d] q] Hr]. rewrite <- Hq1 in Hr. destruct (get_key_side dir c r1 node kr d q Hwf1 Hr) as (r2 & -> & Hwf2 & Hq2).
  rewrite Hq1 in Hr. cbn [mbind option_bind]. destruct (to_keys _ _ _ Htree _ _ _ _ Hr) as [_ Hupr].
  pose proof (up_key_bound _ _ _ Hup). pose proof (up_key_bound _ _ _ Hupr). pose proof (up_key_ge _ _ _ Hup). pose proof (up_key_ge _ _ _ Hupr).
  rewrite iadd_Some by (unfold lows, INT_MIN, INT_MAX in *; destruct dir; simpl in *; lia). cbn [mbind option_bind].
  assert (queue r2 = queue r) as Hqq by (by rewrite Hq2). case_ltb; [destruct (Z.leb_spec 0 (kr + k))|].
  - exists r2, node, (kr + k)%Z. split_and!; [done|done|done|]. left. exists kr, d, q. split_and!; try done; lia.
  - exists r2, m, ub. split_and!; [done|done|done|]. right. split_and!; [done|done|]. rewrite Hr. intros ? ? ? [= <- _ _]. lia.
  - exists r2, m, ub. split_and!; [done|done|done|]. right. split_and!; [done|done|]. rewrite Hr. intros ? ? ? [= <- _ _]. lia.
Qed.

Lemma routing_step_eq h r m ub dir : RoutingStep g h r m ub off dir =
  '(node, h1) ← DeleteMin h;
  '(distance, h2) ← GetKey node h1;
  '(r', middle, upper) ← meet_at node distance r m ub;
  sum ← iadd distance off;
  if (upper <? sum)%Z then h3 ← DeleteAll h2; Some (h3, r', middle, upper)
  else h3 ← stall_or_relax g dir node distance h2; Some (h3, r', middle, upper).
Proof.
  unfold RoutingStep, stall_or_relax, StallAtNode, RelaxOutgoingEdges. destruct (DeleteMin h) as [[node h1]|]; [|done].
  cbn [mbind option_bind]. destruct (GetKey node h1) as [[k h2]|]; [|done]. cbn [mbind option_bind].
  destruct (meet_at node k r m ub) as [[[r' m'] ub']|]; [|done]. cbn [mbind option_bind].
  destruct (iadd k off) as [sum|]; [|done]. cbn [mbind option_bind]. destruct (ub' <? sum)%Z; [done|].
  destruct (sg_GetAdjacentEdgeRange node g) as [edges|]; [|done]. cbn [mbind option_bind].
  destruct (stall_scan g dir k edges h2) as [[[] h3]|]; done.
Qed.

(** The search may also be seen as having reached its next key. *)
Lemma inv_next dir c delta h h' node k d :
  query_inv dir c delta h -> query_inv dir c k h' -> queue h !! node = Some (k, d, true) ->
  queue h' = <[node := (k, d, false)]> (queue h) -> (delta <= k)%Z -> query_inv dir c k h.
Proof.
  intros [Hwf Hk Hr _ Hs Hp] Hinv' Hq Hq' Hle. constructor; [done|done| | |done|done].
  - intros v kv dv Hv. pose proof (Hr v kv dv Hv). lia.
  - intros v kv dv Hv. destruct (decide (v = node)) as [->|Hne]; [rewrite Hq in Hv; injection Hv as <- _; lia|].
    apply (si_queued _ _ _ _ _ _ _ Hinv' v kv dv). by rewrite Hq', lookup_insert_ne.
Qed.

Lemma stop_side dir c h h3 : tree_ok dir c h -> heap_wf X c h3 -> queue h3 = (fun x => (x.1.1, x.1.2, false)) <$> queue h ->
  tree_ok dir c h3 /\ Empty h3 = true /\ forall v k d q, queue h !! v = Some (k, d, q) -> settled h3 !! v = Some k.
Proof.
  intros [Hwf Hk Hp] Hwf3 Hq3.
  assert (forall v k d q, queue h3 !! v = Some (k, d, q) -> q = false /\ exists q', queue h !! v = Some (k, d, q')) as Hback.
  { intros v k d q. rewrite Hq3, lookup_fmap_Some. intros ([[k' d'] q'] & [= <- <- <-] & Hv). split; [done|by exists q']. }
  assert (forall v k d q, queue h !! v = Some (k, d, q) -> queue h3 !! v = Some (k, d, false)) as Hforth.
  { intros v k d q Hv. rewrite Hq3, lookup_fmap, Hv. done. }
  split_and!.
  - constructor; [done|..]; intros v k d q Hv; destruct (Hback v k d q Hv) as (_ & q' & Hv'); [by eapply Hk|].
    destruct (Hp v k d q' Hv') as [Hs|(kp & dp & w & Hpp & Hrest)]; [by left|right]. exists kp, dp, w. split; [by eapply Hforth|done].
  - apply (empty_ok X c h3 Hwf3). intros v k d Hv. by destruct (Hback v k d true Hv) as [[=] _].
  - intros v k d q Hv. apply settled_lookup. exists d. by eapply Hforth.
Qed.

(** The next node is settled. *)
Lemma settle_side dir c delta h : query_inv dir c delta h -> relaxed dir h -> Empty h = false -> exists v k d h1 h2,
  DeleteMin h = Some (v, h1) /\ GetKey v h1 = Some (k, h2) /\ queue h2 !! v = Some (k, d, false) /\ (v < n)%N /\ up_key dir v k /\
  query_inv dir c k h /\ query_inv dir c k h2 /\ settled h2 = <[v := k]> (settled h) /\ settled h !! v = None /\
  forall u ku, reached h u ku -> reached h2 u ku.
Proof.
  intros Hinv Hrel Hne. destruct (delete_min_side dir c delta h Hinv Hne) as (v & k & d & h1 & Hdel & Hinv1 & Hq & Hq1 & Hk).
  assert (queue h1 !! v = Some (k, d, false)) as Hv1 by (by rewrite Hq1, lookup_insert_eq).
  destruct (get_key_side dir c h1 v k d false (si_wf _ _ _ _ _ _ _ Hinv1) Hv1) as (h2 & Hkey & Hwf2 & Hq2).
  destruct (si_keys _ _ _ _ _ _ _ Hinv1 v k d false Hv1) as [Hvn Hup].
  exists v, k, d, h1, h2. split_and!; [done|done|by rewrite Hq2|done|done|by eapply inv_next| | | |].
  - eapply (query_inv_queue X g dir (net E dir) (start dir) W (lows dir) (M + B) g_wf g_weights all_nodes nodes_small
      (net_with g E g_rep dir) (net_against g E g_rep dir) (starts_low dir) (up_key_bound dir) (search_room dir)); done.
  - apply (settled_insert h h2 v k d). by rewrite Hq2.
  - destruct (settled h !! v) as [k'|] eqn:Es; [|done]. apply settled_lookup in Es as [d' Es]. congruence.
  - intros u ku (k' & d' & q' & Hu & Hle). unfold reached. rewrite Hq2, Hq1. destruct (decide (u = v)) as [->|Hne'].
    + exists k, d, false. rewrite lookup_insert_eq. split; [done|]. rewrite Hq in Hu. by injection Hu as <- _ _.
    + exists k', d', q'. by rewrite lookup_insert_ne.
Qed.

(** The search is stopped at a node that is too far away. *)
Lemma stopped_side dir c v k h h2 (K : gmap N Z) ub : query_inv dir c k h -> relaxed dir h -> query_inv dir c k h2 ->
  settled h2 = <[v := k]> (settled h) -> settled h !! v = None -> settled h ⊆ K -> K ⊆ settled h2 -> (ub < k + off)%Z ->
  exists h3, DeleteAll h2 = Some h3 /\ Empty h3 = true /\ side dir c h3 K ub /\ forall u ku, reached h2 u ku -> reached h3 u ku.
Proof.
  intros Hinv Hrel Hinv2 Hs2 Hnew HK1 HK2 Hub. destruct (delete_all_ok X c h2 (si_wf _ _ _ _ _ _ _ Hinv2)) as (h3 & Hdel & Hwf3 & Hq3).
  destruct (stop_side dir c h2 h3 (tree_of_inv _ _ _ _ Hinv2) Hwf3 Hq3) as (Htree3 & Hem3 & Hs3). exists h3. split_and!; [done|done|split; [done|split]|].
  - intros u ku Hu. apply (lookup_weaken _ (settled h2)) in Hu; [|done]. apply settled_lookup in Hu as [du Hu]. by eapply Hs3.
  - right. split; [done|]. exists k. split; [lia|]. intros s k0 u l Hs Hp Hopt.
    destruct (up_path_side dir c k h s k0 u l) as [Hu|[_ Hu]]; [done|done|done|done|done| |by right]. left. by eapply lookup_weaken.
  - intros u ku (k' & d' & q' & Hu' & Hle). apply Hs3, settled_lookup in Hu' as [d2 Hu']. exists k', d2, false. done.
Qed.

(** The search goes on from the node. *)
Lemma continued_side dir c v k h h2 h3 ub : relaxed dir h -> settled h2 = <[v := k]> (settled h) -> (forall u ku, reached h u ku -> reached h2 u ku) ->
  query_inv dir c k h3 -> grows h2 h3 -> relaxed_at g dir (net E dir) (start dir) h3 v k ->
  side dir c h3 (<[v := k]> (settled h)) ub /\ forall u ku, reached h u ku -> reached h3 u ku.
Proof.
  intros Hrel Hs2 Hreach2 Hinv3 Hg3 Hrel3. split; [split; [by eapply tree_of_inv|split]|].
  - intros u ku Hu. by rewrite (proj1 Hg3), Hs2.
  - left. exists k. split_and!; [done| |by rewrite (proj1 Hg3)].
    intros u ku Hu. rewrite (proj1 Hg3), Hs2 in Hu. apply lookup_insert_Some in Hu as [[<- <-]|[Hne' Hu]]; [done|].
    intros Hopt x w Hx. apply (reached_grow h2); [done|]. apply Hreach2. by eapply Hrel.
  - intros u ku Hu. apply (reached_grow h2); [done|]. by apply Hreach2.
Qed.

Lemma step_side dir c c' h K r m ub :
  side dir c h K ub -> tree_ok (negb dir) c' r -> Empty h = false ->
  exists h' r' m' ub' node k, RoutingStep g h r m ub off dir = Some (h', r', m', ub') /\
    K !! node = None /\ (node < n)%N /\ heap_wf X c' r' /\ queue r' = queue r /\ met r node k m ub m' ub' /\
    side dir c h' (<[node := k]> K) ub' /\ forall v kv, reached h v kv -> reached h' v kv.
Proof.
  intros (Htree & HK & Hph) Hr Hne. destruct Hph as [(delta & Hinv0 & Hrel & ->)|[Hem _]]; [|congruence].
  destruct (settle_side dir c delta h Hinv0 Hrel Hne) as (v & k & d & h1 & h2 & Hdel & Hkey & Hv2 & Hvn & Hup & Hinv & Hinv2 & Hs2 & Hnew & Hreach2).
  destruct (meet_ok dir c' r v k m ub Hr Hvn Hup) as (r' & m' & ub' & Hmeet & Hwr & Hqr & Hmet).
  pose proof (up_key_bound _ _ _ Hup). pose proof (up_key_ge _ _ _ Hup).
  rewrite routing_step_eq, Hdel. cbn [mbind option_bind]. rewrite Hkey. cbn [mbind option_bind]. rewrite Hmeet. cbn [mbind option_bind].
  rewrite iadd_Some by (unfold lows, INT_MIN, INT_MAX in *; destruct dir; lia). cbn [mbind option_bind]. case_ltb.
  - destruct (stopped_side dir c v k h h2 (<[v := k]> (settled h)) ub') as (h3 & -> & _ & Hside & Hreach3); try done;
      [by apply insert_subseteq|by rewrite Hs2|]. cbn [mbind option_bind]. exists h3, r', m', ub', v, k. split_and!; try done. auto.
  - destruct (stall_or_relax_side dir c v k h2) as (h3 & -> & Hinv3 & Hg3 & Hrel3); [done|done|done|by rewrite Hs2, lookup_insert_eq|].
    cbn [mbind option_bind]. destruct (continued_side dir c v k h h2 h3 ub' Hrel Hs2 Hreach2 Hinv3 Hg3 Hrel3) as [Hside Hreach3].
    by exists h3, r', m', ub', v, k.
Qed.

(** ** Both sides *)

(** The state of both searches: all nodes that both have settled were
    compared, and the best length is one of a node that both have reached. *)
Record joint (dir : bool) (c : N) h r (K Kr : gmap N Z) (m : N) (ub : Z) : Prop := {
  jt_side : side dir c h K ub;
  jt_other : side (negb dir) c r Kr ub;
  jt_checked v a b : K !! v = Some a -> Kr !! v = Some b -> (0 <= a + b)%Z -> (ub <= a + b)%Z;
  jt_best : ub = INT_MAX /\ m = SPECIAL_NODEID \/
    (0 <= ub < INT_MAX)%Z /\ exists a b, reached h m a /\ reached r m b /\ (a + b <= ub)%Z;
}.

Lemma joint_swap dir c h r K Kr m ub : joint dir c h r K Kr m ub -> joint (negb dir) c r h Kr K m ub.
Proof.
  intros [Hs Ho Hc Hb]. constructor; [done|by rewrite negb_involutive| |].
  - intros v a b Ha Hb' Hge. rewrite Z.add_comm in Hge |- *. by eapply Hc.
  - destruct Hb as [Hb|(Hr & a & b & Ha & Hb & Hle)]; [by left|right]. split; [done|]. exists b, a. split_and!; [done|done|lia].
Qed.

Lemma side_size dir c h K ub : side dir c h K ub -> (size K <= N.to_nat n)%nat.
Proof.
  intros (Htree & HK & _). rewrite <- size_dom. transitivity (size X).
  - apply subseteq_size. intros v Hv. apply elem_of_dom in Hv as [k Hk]. apply HK, settled_lookup in Hk as [d Hk].
    apply all_nodes. by eapply (to_keys _ _ _ Htree).
  - unfold graph_nodes. rewrite size_list_to_set by (apply NoDup_irange; lia). rewrite length_irange by lia. lia.
Qed.

(** Both searches after one of them has settled [v]. *)
Lemma joint_settled dir c h r K Kr m ub h' r' m' ub' v k : joint dir c h r K Kr m ub -> heap_wf X c r' -> queue r' = queue r -> met r v k m ub m' ub' ->
  side dir c h' (<[v := k]> K) ub' -> (forall u ku, reached h u ku -> reached h' u ku) -> joint dir c h' r' (<[v := k]> K) Kr m' ub'.
Proof.
  intros [Hs Ho Hc Hb] Hwr Hqr Hmet Hs' Hreach.
  assert (ub' <= ub)%Z as Hub by (destruct Hmet as [(? & ? & ? & _ & ? & _ & ->)|(_ & -> & _)]; lia).
  constructor; [done|by apply (side_queue _ _ r r' _ ub)| |].
  - intros u a b [[<- <-]|[Hne' Ha]]%lookup_insert_Some Hb' Hge; [|pose proof (Hc u a b Ha Hb' Hge); lia].
    destruct Ho as (_ & HKr & _). apply HKr, settled_lookup in Hb' as [d Hb'].
    destruct Hmet as [(kr & d' & q' & Hr & _ & _ & ->)|(_ & -> & Hall)]; [rewrite Hr in Hb'; injection Hb' as -> _ _; lia|].
    pose proof (Hall b d false Hb'). lia.
  - destruct Hmet as [(kr & d' & q' & Hr & Hrange & -> & ->)|(-> & -> & _)].
    + right. split; [destruct Hb as [[-> _]|[? _]]; lia|]. exists k, kr. split_and!; [| |lia].
      * destruct Hs' as (_ & HK' & _). specialize (HK' v k). rewrite lookup_insert_eq in HK'. specialize (HK' eq_refl).
        apply settled_lookup in HK' as [dk HK']. exists k, dk, false. done.
      * unfold reached. rewrite Hqr. exists kr, d', q'. done.
    + destruct Hb as [Hb|(Hr & a & b & Ha & Hb & Hle)]; [by left|right]. split; [done|]. exists a, b.
      split_and!; [by apply Hreach|unfold reached; by rewrite Hqr|done].
Qed.

Lemma joint_step dir c h r K Kr m ub : joint dir c h r K Kr m ub -> Empty h = false ->
  exists h' r' m' ub' K', RoutingStep g h r m ub off dir = Some (h', r', m', ub') /\ joint dir c h' r' K' Kr m' ub' /\ size K' = S (size K).
Proof.
  intros Hj Hne. destruct (step_side dir c c h K r m ub (jt_side _ _ _ _ _ _ _ _ Hj) (proj1 (jt_other _ _ _ _ _ _ _ _ Hj)) Hne)
    as (h' & r' & m' & ub' & v & k & Hrun & Hnew & Hv & Hwr & Hqr & Hmet & Hs' & Hreach).
  exists h', r', m', ub', (<[v := k]> K). split; [done|]. split; [by eapply joint_settled|by rewrite map_size_insert_None].
Qed.

Lemma route_loop_ok fuel : forall c f r K Kr m ub, joint true c f r K Kr m ub ->
  (2 * N.to_nat n < fuel + size K + size Kr)%nat ->
  exists f' r' K' Kr' m' ub', route_loop fuel g off (f, r, m, ub) = Some (f', r', m', ub') /\
    joint true c f' r' K' Kr' m' ub' /\ Empty f' = true /\ Empty r' = true.
Proof.
  assert (forall h, Empty h = true <-> Size h = 0%N) as Hsize.
  { intros h. unfold Empty. rewrite N.eqb_eq. split; congruence. }
  induction fuel as [|fuel IH]; intros c f r K Kr m ub Hj Hf; cbn [route_loop].
  { pose proof (side_size _ _ _ _ _ (jt_side _ _ _ _ _ _ _ _ Hj)). pose proof (side_size _ _ _ _ _ (jt_other _ _ _ _ _ _ _ _ Hj)). lia. }
  destruct (N.ltb_spec 0 (Size f + Size r)) as [Hpos|Hzero].
  2:{ exists f, r, K, Kr, m, ub. split_and!; [done|done|apply Hsize; lia|apply Hsize; lia]. }
  assert (exists f1 r1 K1 m1 ub1, (if negb (Empty f) then RoutingStep g f r m ub off true else Some (f, r, m, ub)) = Some (f1, r1, m1, ub1) /\
    joint true c f1 r1 K1 Kr m1 ub1 /\ (if Empty f then f1 = f /\ r1 = r /\ size K1 = size K else size K1 = S (size K)))
    as (f1 & r1 & K1 & m1 & ub1 & -> & Hj1 & HK1).
  { destruct (Empty f) eqn:Ef; cbn [negb]; [by exists f, r, K, m, ub|].
    destruct (joint_step true c f r K Kr m ub Hj Ef) as (f1 & r1 & m1 & ub1 & K1 & Hrun & Hj1 & Hsz). by exists f1, r1, K1, m1, ub1. }
  cbn [mbind option_bind].
  assert (exists f2 r2 Kr2 m2 ub2, (if negb (Empty r1) then '(r2, f2, m2, u2) ← RoutingStep g r1 f1 m1 ub1 off false; Some (f2, r2, m2, u2)
      else Some (f1, r1, m1, ub1)) = Some (f2, r2, m2, ub2) /\
    joint true c f2 r2 K1 Kr2 m2 ub2 /\ size Kr2 = (if Empty r1 then size Kr else S (size Kr)))
    as (f2 & r2 & Kr2 & m2 & ub2 & -> & Hj2 & HK2).
  { destruct (Empty r1) eqn:Er; cbn [negb]; [by exists f1, r1, Kr, m1, ub1|].
    destruct (joint_step false c r1 f1 Kr K1 m1 ub1 (joint_swap _ _ _ _ _ _ _ _ Hj1) Er) as (r2 & f2 & m2 & ub2 & Kr2 & -> & Hj2 & Hsz).
    cbn [mbind option_bind]. exists f2, r2, Kr2, m2, ub2. split_and!; [done|by apply joint_swap in Hj2|done]. }
  cbn [mbind option_bind]. apply (IH c f2 r2 K1 Kr2 m2 ub2 Hj2).
  destruct (Empty f) eqn:Ef.
  - destruct HK1 as (-> & -> & ->). destruct (Empty r) eqn:Er; [|lia].
    apply Hsize in Ef. apply Hsize in Er. lia.
  - destruct (Empty r1); lia.
Qed.

(** ** The length that is found *)

(** The ways between the starts of both searches. *)
Definition leg_way (s : Z) : Prop := exists a ka b kb l,
  start true !! a = Some ka /\ start false !! b = Some kb /\ path E a b l /\ s = (ka + kb + Z.of_N l)%Z.

Lemma reached_way f r c m a b : tree_ok true c f -> tree_ok false c r -> reached f m a -> reached r m b ->
  exists s, leg_way s /\ (s <= a + b)%Z.
Proof.
  intros Hf Hr (a' & da & qa & Ha & Hale) (b' & db & qb & Hb & Hble).
  destruct (to_keys _ _ _ Hf _ _ _ _ Ha) as (_ & s & ks & l1 & Hs & Hp1 & ->).
  destruct (to_keys _ _ _ Hr _ _ _ _ Hb) as (_ & t & kt & l2 & Ht & Hp2 & ->).
  destruct (path_subst _ _ _ _ _ (net_with g E g_rep true) Hp1) as (l1' & Hl1 & Hp1').
  destruct (path_subst _ _ _ _ _ (net_with g E g_rep false) Hp2) as (l2' & Hl2 & Hp2'). apply path_flip in Hp2'.
  exists (ks + kt + Z.of_N (l1' + l2'))%Z. split; [|lia]. exists s, ks, t, kt, (l1' + l2')%N. split_and!; [done|done|by eapply path_app|done].
Qed.

Lemma empty_complete dir c h K ub : side dir c h K ub -> Empty h = true ->
  forall D, exists D', complete_to dir K D' /\ ((ub < D' + off)%Z \/ D = D').
Proof.
  intros (_ & _ & [(delta & Hinv & Hrel & ->)|(_ & D' & HD & Hc)]) Hem D.
  - exists D. split; [|by right]. intros s k0 v l Hs Hp Hopt.
    destruct (up_path_side dir c delta h s k0 v l Hinv Hrel Hs Hp Hopt) as [Hv|[Hne _]]; [by left|congruence].
  - exists D'. split; [done|by left].
Qed.

(** A shortest way is found at its top. *)
Lemma least_met c f r K Kr m ub s :
  joint true c f r K Kr m ub -> Empty f = true -> Empty r = true -> leg_way s -> (0 <= s)%Z ->
  (forall s', leg_way s' -> (s <= s')%Z) -> (ub <= s)%Z /\ (s < INT_MAX)%Z.
Proof.
  intros [Hsf Hsr Hc _] Hef Her (a & ka & b & kb & l & Ha & Hb & Hp & ->) Hs0 Hmin.
  destruct (rp_complete g E g_rep a b l Hp) as (v & l1 & l2 & Hp1 & Hp2 & Hle).
  destruct (path_subst _ _ _ _ _ (net_with g E g_rep true) Hp1) as (l1' & Hl1 & Hp1').
  destruct (path_subst _ _ _ _ _ (net_with g E g_rep false) Hp2) as (l2' & Hl2 & Hp2').
  pose proof (path_flip _ _ _ _ Hp2') as Hp2''.
  assert (forall a' ka' b' kb' x y, start true !! a' = Some ka' -> start false !! b' = Some kb' ->
    path E a' v x -> path E v b' y -> ka + kb + Z.of_N l <= ka' + kb' + Z.of_N (x + y))%Z as Hmin'.
  { intros a' ka' b' kb' x y Ha' Hb' Hx Hy. apply Hmin. exists a', ka', b', kb', (x + y)%N. split_and!; [done|done|by eapply path_app|done]. }
  pose proof (Hmin' a ka b kb l1' l2' Ha Hb Hp1' Hp2'') as Hself.
  assert (optimal true v (ka + Z.of_N l1)) as Hof.
  { split; [exists a, ka, l1'; split_and!; [done|done|lia]|]. intros k' (a' & ka' & x & Ha' & Hx & Hkx).
    pose proof (Hmin' a' ka' b kb x l2' Ha' Hb Hx Hp2''). lia. }
  assert (optimal false v (kb + Z.of_N l2)) as Hob.
  { split; [exists b, kb, l2'; split_and!; [done|done|lia]|]. intros k' (b' & kb' & y & Hb' & Hy & Hky). apply path_flip in Hy.
    pose proof (Hmin' a ka b' kb' l1' y Ha Hb' Hp1' Hy). lia. }
  pose proof (starts_ok true a ka Ha) as [_ Hka]. pose proof (starts_ok false b kb Hb) as [_ Hkb].
  pose proof (g_bound true _ _ _ Hp1). pose proof (g_bound false _ _ _ Hp2). unfold lows in *.
  destruct (empty_complete true c f K ub Hsf Hef (ka + Z.of_N l1 + 1)%Z) as (Df & Hcf & HDf).
  destruct (empty_complete false c r Kr ub Hsr Her (kb + Z.of_N l2 + 1)%Z) as (Db & Hcb & HDb).
  split; [|lia]. destruct (Hcf a ka v l1 Ha Hp1 Hof) as [HKf|HKf]; [|lia].
  destruct (Hcb b kb v l2 Hb Hp2 Hob) as [HKb|HKb]; [|lia]. pose proof (Hc v _ _ HKf HKb). lia.
Qed.

Lemma joint_shortest c f r K Kr m ub :
  joint true c f r K Kr m ub -> Empty f = true -> Empty r = true -> (forall s, leg_way s -> (0 <= s)%Z) ->
  ub = INT_MAX /\ (forall s, ~ leg_way s) \/ leg_way ub /\ forall s, leg_way s -> (ub <= s)%Z.
Proof.
  intros Hj Hef Her Hpos. apply least_attained; [done| |].
  - intros s Hs Hmin. by apply (least_met c f r K Kr m ub s); [..|apply Hpos|].
  - destruct (jt_best _ _ _ _ _ _ _ _ Hj) as [[-> _]|(_ & a & b & Ha & Hb & Hle)]; [by left|right].
    destruct (reached_way f r c m a b (proj1 (jt_side _ _ _ _ _ _ _ _ Hj)) (proj1 (jt_other _ _ _ _ _ _ _ _ Hj)) Ha Hb) as (s & Hs & Hle').
    exists s. split; [done|lia].
Qed.

(** ** The packed path *)

(** The number of nodes with a smaller key. *)
Definition below h (k : Z) : nat := size (filter (fun x => (x.2.1.1 < k)%Z) (queue h)).

Lemma below_parent h k kp p d q : queue h !! p = Some (kp, d, q) -> (kp < k)%Z -> (below h kp < below h k)%nat.
Proof.
  intros Hp Hlt. apply map_subset_size. split.
  - apply map_subseteq_spec. intros v x [Hv Hx]%map_lookup_filter_Some. apply map_lookup_filter_Some. split; [done|]. simpl in *. lia.
  - intros Hsub. rewrite map_subseteq_spec in Hsub. specialize (Hsub p (kp, d, q)).
    rewrite !map_lookup_filter_Some in Hsub. destruct Hsub as [_ Hx]; [done|]. simpl in Hx. lia.
Qed.

Lemma parents_ok dir c h : tree_ok dir c h -> forall fuel v k d q acc, queue h !! v = Some (k, d, q) -> (below h k < fuel)%nat ->
  exists p s k0 len, parents fuel h v acc = Some (acc ++ p) /\ node_path (flip (graph_arcs dir g)) (v :: p) len /\
    last (v :: p) = Some s /\ start dir !! s = Some k0 /\ k = (k0 + Z.of_N len)%Z.
Proof.
  intros Htree. induction fuel as [|fuel IH]; intros v k d q acc Hv Hf; [lia|]. cbn [parents].
  destruct (read_slot X c h v (k, d, q) (to_wf _ _ _ Htree) Hv) as (j & hn & h' & Hs & Hx & _ & _).
  assert (GetData v h = Some (d, h')) as -> by (unfold GetData; rewrite Hs; cbn [mbind option_bind]; by injection Hx as _ <- _).
  cbn [mbind option_bind]. destruct (to_parent _ _ _ Htree v k d q Hv) as [[Hp Hst]|(kp & dp & w & Hp & Ha & Hk)].
  - rewrite Hp, N.eqb_refl. exists [], v, k, 0%N. rewrite app_nil_r. split_and!; [done|constructor|done|done|lia].
  - assert (0 < w)%N as Hw by (destruct Ha as (e & He & Hu & <- & _ & Hd); destruct (g_weights _ e Hu He); lia).
    destruct (N.eqb_spec v (parent d)) as [Heq|_].
    { rewrite <- Heq, Hv in Hp. injection Hp as Hp _ _. lia. }
    destruct (IH (parent d) kp dp false (acc ++ [parent d]) Hp) as (p & s & k0 & len & Hrun & Hpath & Hlast & Hs0 & Hkp).
    { pose proof (below_parent h k kp (parent d) dp false Hp). lia. }
    exists (parent d :: p), s, k0, (w + len)%N. split_and!; [by rewrite Hrun, <- app_assoc|by constructor|done|done|lia].
Qed.

(** Arcs of the hierarchy in the direction of travel. *)
Definition hier : arcs := fun u v w => graph_arcs true g u v w \/ graph_arcs false g v u w.

(** A list of nodes from a start of the one search to a start of the other
    one, of the length [s] with both offsets. *)
Definition leg_ok (leg : list N) (s : Z) : Prop := exists len a ka b kb, node_path hier leg len /\
  head leg = Some a /\ last leg = Some b /\ start true !! a = Some ka /\ start false !! b = Some kb /\ s = (ka + kb + Z.of_N len)%Z.

Lemma retrieve_exact c c' f r m a da qa b db qb : tree_ok true c f -> tree_ok false c' r -> queue f !! m = Some (a, da, qa) -> queue r !! m = Some (b, db, qb) ->
  exists leg, RetrievePackedPathFromHeap f r m [] = Some leg /\ leg_ok leg (a + b).
Proof.
  intros Hf Hr Ha Hb.
  assert (forall dir c h k d q, tree_ok dir c h -> queue h !! m = Some (k, d, q) -> (below h k < S (length (inserted_nodes h)))%nat) as Hbelow.
  { intros dir c1 h k d q Ht _. pose proof (size_queue X c1 h (to_wf _ _ _ Ht)) as Hsz. unfold vsize in Hsz.
    assert (below h k <= size (queue h))%nat by (apply map_subseteq_size, map_filter_subseteq). lia. }
  unfold RetrievePackedPathFromHeap, RetrievePackedPathFromSingleHeap.
  destruct (parents_ok true c f Hf _ m a da qa [] Ha (Hbelow true c f a da qa Hf Ha)) as (p & s & ks & l1 & -> & Hp & Hlast & Hs & Hka).
  cbn [mbind option_bind app].
  destruct (parents_ok false c' r Hr _ m b db qb (reverse p ++ [m]) Hb (Hbelow false c' r b db qb Hr Hb)) as (p' & t & kt & l2 & -> & Hp' & Hlast' & Ht & Hkb).
  exists (reverse p ++ [m] ++ p'). split; [by rewrite app_assoc|]. exists (l1 + l2)%N, s, ks, t, kt.
  assert (head (reverse p ++ [m] ++ p') = last (m :: p)) as Hhd.
  { destruct p as [|x p0 _] using rev_ind; [done|]. rewrite reverse_snoc. rewrite app_comm_cons, last_snoc. done. }
  assert (last (reverse p ++ [m] ++ p') = last (m :: p')) as Hlt by (rewrite last_app; destruct p' as [|x p0 _] using rev_ind; [done|]; cbn [app]; by rewrite app_comm_cons, last_snoc).
  split_and!; [|by rewrite Hhd|by rewrite Hlt|done|done|lia].
  apply node_path_join.
  - rewrite <- reverse_cons. apply node_path_reverse. eapply node_path_mono; [|exact Hp]. intros ? ? ? ?. by left.
  - eapply node_path_mono; [|exact Hp']. intros ? ? ? ?. by right.
Qed.

Lemma retrieve_ok c f r m a b : tree_ok true c f -> tree_ok false c r -> reached f m a -> reached r m b ->
  exists leg s, RetrievePackedPathFromHeap f r m [] = Some leg /\ leg_ok leg s /\ (s <= a + b)%Z.
Proof.
  intros Hf Hr (a' & da & qa & Ha & Hale) (b' & db & qb & Hb & Hble).
  destruct (retrieve_exact c c f r m a' da qa b' db qb Hf Hr Ha Hb) as (leg & Hrun & Hleg). exists leg, (a' + b')%Z. split_and!; [done|done|lia].
Qed.

(** ** The whole search *)

(** The heap holds exactly the starts in [m]. *)
Definition holds (c : N) (m : gmap N Z) h : Prop :=
  heap_wf X c h /\ forall v, queue h !! v = (fun k => (k, MkHeapData v, true)) <$> m !! v.

Lemma fresh_side dir c h ub : holds c (start dir) h -> side dir c h ∅ ub.
Proof.
  intros [Hwf Hq].
  assert (query_inv dir c (lows dir) h) as Hinv.
  { constructor; [done|..]; intros v k; setoid_rewrite Hq.
    - intros d q Hv. destruct (start dir !! v) as [k'|] eqn:Ev; [|done]. injection Hv as <- _ _.
      split; [by eapply starts_ok|]. exists v, k', 0%N. split_and!; [done|constructor|lia].
    - intros d Hv. by destruct (start dir !! v).
    - intros d Hv. destruct (start dir !! v) as [k'|] eqn:Ev; [|done]. injection Hv as <- _.
      destruct (starts_ok dir v k' Ev). lia.
    - intros Hv. rewrite Hv. eexists _, _, _. split; [done|lia].
    - intros d q Hv. destruct (start dir !! v) as [k'|] eqn:Ev; [|done]. injection Hv as <- <- _. by left. }
  assert (settled h = ∅) as Hset.
  { apply map_eq. intros v. unfold settled. rewrite lookup_omap, Hq, lookup_empty. by destruct (start dir !! v). }
  split; [by eapply tree_of_inv|]. split; [intros v k; by rewrite lookup_empty|].
  left. exists (lows dir). split_and!; [done|intros u k; by rewrite Hset|done].
Qed.

Lemma node_path_within l len a b : node_path hier l len -> head l = Some a -> last l = Some b -> within E a b len.
Proof.
  intros Hp. revert a. induction Hp as [v|u v l w len Ha Hp IH]; intros a.
  - intros [= ->] [= ->]. apply within_refl.
  - intros [= ->] Hl. apply (within_app _ _ v); [|by apply IH].
    destruct Ha as [Ha|Ha]; [by apply (rp_forward g E g_rep)|by apply (rp_backward g E g_rep)].
Qed.

Lemma leg_ok_way leg s : leg_ok leg s -> exists s', leg_way s' /\ (s' <= s)%Z.
Proof.
  intros (len & a & ka & b & kb & Hp & Hh & Hl & Ha & Hb & ->). destruct (node_path_within leg len a b Hp Hh Hl) as (l & Hle & Hpl).
  exists (ka + kb + Z.of_N l)%Z. split; [|lia]. by exists a, ka, b, kb, l.
Qed.

(** The result of a search: no way, or the shortest one with its nodes. *)
Definition found_leg f r (m : N) (ub : Z) : Prop :=
  ub = INT_MAX /\ m = SPECIAL_NODEID /\ (forall s, ~ leg_way s) \/
  ub <> INT_MAX /\ leg_way ub /\ (forall s, leg_way s -> (ub <= s)%Z) /\
  exists leg, RetrievePackedPathFromHeap f r m [] = Some leg /\ leg_ok leg ub.

Lemma joint_found c f r K Kr m ub : joint true c f r K Kr m ub -> Empty f = true -> Empty r = true -> (forall s, leg_way s -> (0 <= s)%Z) ->
  found_leg f r m ub.
Proof.
  intros Hj Hef Her Hpos. destruct (joint_shortest c f r K Kr m ub Hj Hef Her Hpos) as [[-> Hno]|[Hway Hmin]].
  - left. split_and!; [done| |done]. destruct (jt_best _ _ _ _ _ _ _ _ Hj) as [[_ Hm]|(? & _)]; [done|lia].
  - right. destruct (jt_best _ _ _ _ _ _ _ _ Hj) as [[-> ->]|(Hub & a & b & Ha & Hb & Hle)].
    { destruct Hway as (a & ka & b & kb & l & Ha & Hb & Hp & Heq).
      destruct (least_met c f r K Kr SPECIAL_NODEID INT_MAX INT_MAX Hj Hef Her) as [_ Hlt]; [by exists a, ka, b, kb, l|done|done|lia]. }
    split; [lia|]. split; [done|]. split; [done|].
    destruct (retrieve_ok c f r m a b (proj1 (jt_side _ _ _ _ _ _ _ _ Hj)) (proj1 (jt_other _ _ _ _ _ _ _ _ Hj)) Ha Hb)
      as (leg & s & Hrun' & Hleg & Hsum).
    exists leg. split; [done|]. destruct (leg_ok_way _ _ Hleg) as (s' & Hs' & Hle'). pose proof (Hmin s' Hs'). by replace ub with s by lia.
Qed.

(** Two fresh heaps. *)
Lemma fresh_joint c f r : holds c (start true) f -> holds c (start false) r -> joint true c f r ∅ ∅ SPECIAL_NODEID INT_MAX.
Proof.
  intros Hf Hr. constructor; [by apply fresh_side|by apply fresh_side| |by left]. intros v a b. by rewrite lookup_empty.
Qed.

Lemma route_search_ok c f r : holds c (start true) f -> holds c (start false) r -> (forall s, leg_way s -> (0 <= s)%Z) ->
  exists f' r' m ub, route_search g off f r = Some (f', r', m, ub) /\ found_leg f' r' m ub.
Proof.
  intros Hf Hr Hpos. unfold route_search.
  destruct (route_loop_ok (S (2 * N.to_nat n)) c f r ∅ ∅ SPECIAL_NODEID INT_MAX (fresh_joint c f r Hf Hr)) as (f' & r' & K & Kr & m & ub & Hrun & Hj & Hef & Her).
  { rewrite !map_size_empty. lia. }
  exists f', r', m, ub. split; [exact Hrun|]. by eapply joint_found.
Qed.
End two_sided.
