(* ===== verification/RouteLeg.v ===== *)
(** * RoutingAlgorithms/ShortestPathRouting.h: the route between two points

    The two searches of a leg, one for each direction of the target, find the
    shortest way from the source to the target, and their packed paths are
    paths of the hierarchy of the lengths that are reported. *)

From S2P Require Import Prelude Types Paths Edges Storage BinaryHeap DynamicGraph StaticGraph Text Routing QuerySearch DistanceTable.
From S2P Require Import Unpacking ShortestPath RouteSearch.

(** ** The nodes of a snapped point *)

Definition side_map (v : N) (k : Z) (m : gmap N Z) : gmap N Z := if (v =? SPECIAL_NODEID)%N then m else <[v := k]> m.

Definition forward_way (p : PhantomNode) : Z := (forward_offset p + forward_weight p)%Z.
Definition reverse_way (p : PhantomNode) : Z := (reverse_offset p + reverse_weight p)%Z.

(** What both forward heaps hold, and what the two reverse heaps hold. *)
Definition source_starts (p : PhantomNode) : gmap N Z :=
  side_map (reverse_node_id p) (- reverse_way p) (side_map (forward_node_id p) (- forward_way p) ∅).

Definition target_starts (forward : bool) (p : PhantomNode) : gmap N Z :=
  if forward then side_map (forward_node_id p) (forward_way p) ∅ else side_map (reverse_node_id p) (reverse_way p) ∅.

(** The starts of both searches of one of the two runs. *)
Definition leg_starts (forward : bool) (phantoms : PhantomNodes) (dir : bool) : gmap N Z :=
  if dir then source_starts (source_phantom phantoms) else target_starts forward (target_phantom phantoms).

Lemma elem_phantom_starts p a w : (a, w) ∈ location_starts [p] <->
  forward_node_id p <> SPECIAL_NODEID /\ a = forward_node_id p /\ w = forward_way p \/
  reverse_node_id p <> SPECIAL_NODEID /\ a = reverse_node_id p /\ w = reverse_way p.
Proof.
  unfold location_starts, phantom_starts. cbn [mbind list_bind]; rewrite app_nil_r, elem_of_app.
  rewrite (N.eqb_sym SPECIAL_NODEID (forward_node_id p)), (N.eqb_sym SPECIAL_NODEID (reverse_node_id p)).
  destruct (N.eqb_spec (forward_node_id p) SPECIAL_NODEID), (N.eqb_spec (reverse_node_id p) SPECIAL_NODEID); cbn [negb];
    rewrite ?list_elem_of_singleton, ?elem_of_nil; unfold forward_way, reverse_way; naive_solver.
Qed.

Lemma target_starts_elem p b w : (b, w) ∈ location_starts [p] <->
  target_starts true p !! b = Some w \/ target_starts false p !! b = Some w.
Proof.
  rewrite elem_phantom_starts. unfold target_starts, side_map.
  destruct (N.eqb_spec (forward_node_id p) SPECIAL_NODEID), (N.eqb_spec (reverse_node_id p) SPECIAL_NODEID);
    rewrite ?lookup_insert_Some, ?lookup_empty; naive_solver.
Qed.

Lemma location_nodes_differ nodes M p : location_ok nodes M [p] -> forward_node_id p <> SPECIAL_NODEID ->
  reverse_node_id p <> SPECIAL_NODEID -> forward_node_id p <> reverse_node_id p.
Proof.
  unfold location_ok, location_starts, phantom_starts. cbn [mbind list_bind]; rewrite app_nil_r.
  rewrite (N.eqb_sym SPECIAL_NODEID (forward_node_id p)), (N.eqb_sym SPECIAL_NODEID (reverse_node_id p)).
  destruct (N.eqb_spec (forward_node_id p) SPECIAL_NODEID), (N.eqb_spec (reverse_node_id p) SPECIAL_NODEID); try done.
  intros [Hnd _] _ _ Heq. simpl in Hnd. apply NoDup_cons in Hnd as [Hnin _]. apply Hnin. rewrite Heq. by left.
Qed.

Lemma source_starts_elem nodes M p a k : location_ok nodes M [p] ->
  source_starts p !! a = Some k <-> exists w, (a, w) ∈ location_starts [p] /\ k = (- w)%Z.
Proof.
  intros Hp. pose proof (location_nodes_differ nodes M p Hp) as Hne.
  setoid_rewrite elem_phantom_starts. unfold source_starts, side_map.
  destruct (N.eqb_spec (forward_node_id p) SPECIAL_NODEID), (N.eqb_spec (reverse_node_id p) SPECIAL_NODEID);
    rewrite ?lookup_insert_Some, ?lookup_empty; naive_solver.
Qed.

Lemma location_in_range nodes M p a w : location_ok nodes M [p] -> (a, w) ∈ location_starts [p] -> (a < nodes)%N /\ (0 <= w <= M)%Z.
Proof. intros [_ HF] Hin. rewrite Forall_forall in HF. apply (HF _ Hin). Qed.

(** The ways between two points are the ways of the two runs. *)
Lemma leg_ways nodes M E phantoms s : location_ok nodes M [source_phantom phantoms] ->
  way E [source_phantom phantoms] [target_phantom phantoms] s <->
    leg_way E (leg_starts true phantoms) s \/ leg_way E (leg_starts false phantoms) s.
Proof.
  intros Hs. unfold way, leg_way. cbn [leg_starts]. setoid_rewrite (source_starts_elem nodes M _ _ _ Hs). setoid_rewrite target_starts_elem. split.
  - intros (a & wa & b & wb & l & Ha & [Hb|Hb] & Hp & ->); [left|right]; exists a, (- wa)%Z, b, wb, l;
      (split; [by exists wa|]); (split; [done|]); (split; [done|]); lia.
  - intros [(a & ka & b & kb & l & (wa & Ha & ->) & Hb & Hp & ->)|(a & ka & b & kb & l & (wa & Ha & ->) & Hb & Hp & ->)];
      exists a, wa, b, kb, l; (split; [done|]); (split; [tauto|]); (split; [done|]); lia.
Qed.

(** ** The two searches of a leg *)

Section leg.
  Context (g : QueryGraph) (E : arcs) (W M B : Z) (phantoms : PhantomNodes).
  Abbreviation n := (sg_number_of_nodes g).
  Abbreviation sp := (source_phantom phantoms).
  Abbreviation tp := (target_phantom phantoms).
  Abbreviation holds := (holds g).
  Hypothesis g_wf : static_wf g.
  Hypothesis g_small : (n < 2147483647)%N.
  Hypothesis g_weights : weights_ok W g.
  Hypothesis g_rep : represents g E.
  Hypothesis g_bound : forall dir, upward_bound dir g B.
  Hypothesis source_ok : location_ok n M [sp].
  Hypothesis target_ok : location_ok n M [tp].
  Hypothesis room : (0 <= M /\ 0 <= B /\ 0 <= W /\ 2 * (M + B) + W < INT_MAX)%Z.
  Hypothesis positive : forall s, way E [sp] [tp] s -> (0 <= s)%Z.
  #[local] Set Default Proof Using "All".

Lemma holds_clear (h : QueryHeap) : holds 0 ∅ (Clear h).
Proof.
  destruct (clear_wf (graph_nodes g) 0 h ∅) as [Hwf Hq]; [done|]. split; [done|]. intros v. by rewrite Hq, lookup_empty.
Qed.

Lemma holds_insert m (h : QueryHeap) v k : holds 0 m h -> (v < n)%N -> m !! v = None -> (INT_MIN <= k)%Z ->
  (forall u k', m !! u = Some k' -> (u < n)%N) ->
  exists h', Insert v k (MkHeapData v) h = Some h' /\ holds 0 (<[v := k]> m) h'.
Proof.
  intros [Hwf Hq] Hv Hm Hk Hin. set (X := graph_nodes g).
  assert (forall v, (v < n)%N -> v ∈ X) as HX by (intros u Hu; apply elem_of_list_to_set, elem_of_irange; lia).
  destruct (insert_ok X 0 h v k (MkHeapData v) Hwf) as (h' & Hins & Hwf' & Hq'); [by apply HX|by rewrite Hq, Hm|done| |].
  - assert (dom (queue h) ⊆ X) as Hsub.
    { intros u [x Hx]%elem_of_dom. apply HX. rewrite Hq in Hx. destruct (m !! u) as [k'|] eqn:Eu; [by eapply Hin|done]. }
    apply subseteq_size in Hsub. rewrite size_dom in Hsub. pose proof (size_queue X 0 h Hwf). unfold X, graph_nodes in Hsub.
    rewrite size_list_to_set in Hsub by (apply NoDup_irange; lia). rewrite length_irange in Hsub; lia.
  - exists h'. split; [done|]. split; [done|]. intros u. rewrite Hq'.
    destruct (decide (u = v)) as [->|Hne]; [by rewrite !lookup_insert_eq|]. by rewrite !lookup_insert_ne.
Qed.

(** The nodes of [m] and the new one are nodes of the graph at small weights. *)
Definition insertable (m : gmap N Z) (v : N) (weight : option Z) (w : Z) : Prop :=
  (forall u k, m !! u = Some k -> (u < n)%N) /\
  (v <> SPECIAL_NODEID -> (v < n)%N /\ m !! v = None /\ weight = Some w /\ (0 <= w <= M)%Z).

Lemma insert_source_ok m f1 f2 v weight w offset :
  holds 0 m f1 -> holds 0 m f2 -> insertable m v weight w -> (- M <= offset <= 0)%Z ->
  exists f1' f2' offset', insert_source true v weight 0 (f1, f2, offset) = Some (f1', f2', offset') /\
    holds 0 (side_map v (- w) m) f1' /\ holds 0 (side_map v (- w) m) f2' /\
    (- M <= offset' <= 0)%Z /\ (offset' <= offset)%Z /\ (v <> SPECIAL_NODEID -> offset' <= - w)%Z.
Proof.
  intros H1 H2 [Hm Hv] Ho. unfold insert_source, side_map. destruct (N.eqb_spec v SPECIAL_NODEID) as [->|Hne]; cbn [negb andb].
  { exists f1, f2, offset. split; [done|]. split; [done|]. split; [done|]. split; [done|]. split; [lia|done]. }
  destruct (Hv Hne) as (Hvn & Hnone & -> & Hw). cbn [mbind option_bind].
  replace (isub 0 w) with (Some (- w)%Z) by (symmetry; apply (iadd_Some 0 (- w)); unfold INT_MIN, INT_MAX in *; lia).
  cbn [mbind option_bind].
  assert (INT_MIN <= - w)%Z as Hmin by (unfold INT_MIN, INT_MAX in *; lia).
  destruct (holds_insert m f1 v (- w) H1 Hvn Hnone Hmin Hm) as (f1' & -> & H1').
  destruct (holds_insert m f2 v (- w) H2 Hvn Hnone Hmin Hm) as (f2' & -> & H2'). cbn [mbind option_bind].
  exists f1', f2', (Z.min offset (- w)). split; [done|]. split; [done|]. split; [done|]. lia.
Qed.

Lemma insert_target_ok h v weight w : holds 0 ∅ h -> insertable ∅ v weight w ->
  exists h', insert_target v weight h = Some h' /\ holds 0 (side_map v w ∅) h'.
Proof.
  intros Hh [Hm Hv]. unfold insert_target, side_map. destruct (N.eqb_spec v SPECIAL_NODEID) as [->|Hne]; cbn [negb]; [by exists h|].
  destruct (Hv Hne) as (Hvn & Hnone & -> & Hw). cbn [mbind option_bind]. apply holds_insert; try done. unfold INT_MIN. lia.
Qed.

Lemma forward_insertable p m : location_ok n M [p] -> (forall u k, m !! u = Some k -> (u < n)%N) ->
  (forward_node_id p <> SPECIAL_NODEID -> m !! forward_node_id p = None) ->
  insertable m (forward_node_id p) (GetForwardWeightPlusOffset p) (forward_way p).
Proof.
  intros Hp Hm Hnone. split; [done|]. intros Hne.
  destruct (location_in_range n M p (forward_node_id p) (forward_way p) Hp) as [Hn Hw]; [apply elem_phantom_starts; tauto|].
  unfold GetForwardWeightPlusOffset. destruct (N.eqb_spec SPECIAL_NODEID (forward_node_id p)) as [Heq|_]; [by rewrite Heq in Hne|]. split; [done|]. split; [auto|]. split; [|done].
  apply iadd_Some. unfold forward_way, INT_MIN, INT_MAX in *. lia.
Qed.

Lemma reverse_insertable p m : location_ok n M [p] -> (forall u k, m !! u = Some k -> (u < n)%N) ->
  (reverse_node_id p <> SPECIAL_NODEID -> m !! reverse_node_id p = None) ->
  insertable m (reverse_node_id p) (GetReverseWeightPlusOffset p) (reverse_way p).
Proof.
  intros Hp Hm Hnone. split; [done|]. intros Hne.
  destruct (location_in_range n M p (reverse_node_id p) (reverse_way p) Hp) as [Hn Hw]; [apply elem_phantom_starts; tauto|].
  unfold GetReverseWeightPlusOffset. destruct (N.eqb_spec SPECIAL_NODEID (reverse_node_id p)) as [Heq|_]; [by rewrite Heq in Hne|]. split; [done|]. split; [auto|]. split; [|done].
  apply iadd_Some. unfold reverse_way, INT_MIN, INT_MAX in *. lia.
Qed.

Lemma start_nodes_in dir forward v k : leg_starts forward phantoms dir !! v = Some k ->
  (v < n)%N /\ ((if dir then - M else 0) <= k <= (if dir then 0 else M))%Z.
Proof.
  destruct dir; cbn [leg_starts]; intros Hv.
  - apply (source_starts_elem n M) in Hv as (w & Hin & ->); [|done]. destruct (location_in_range n M sp v w source_ok Hin). split; [done|lia].
  - apply (location_in_range n M tp v k target_ok), target_starts_elem. destruct forward; tauto.
Qed.

(** One of the two runs. *)
Lemma run_ok forward offset f r : holds 0 (leg_starts forward phantoms true) f -> holds 0 (leg_starts forward phantoms false) r ->
  (- M <= offset <= 0)%Z -> (forall v k, leg_starts forward phantoms true !! v = Some k -> (offset <= k)%Z) ->
  exists f' r' m ub, route_search g offset f r = Some (f', r', m, ub) /\ found_leg g E (leg_starts forward phantoms) f' r' m ub.
Proof.
  intros Hf Hr Ho Hlow. apply (route_search_ok g E (leg_starts forward phantoms) W M B offset) with (c := 0%N); try done.
  - intros v k Hv. pose proof (Hlow v k Hv). destruct (start_nodes_in true forward v k Hv). split; [done|lia].
  - intros v k Hv. apply (start_nodes_in false forward v k Hv).
  - unfold INT_MIN, INT_MAX in *. lia.
  - intros s Hs. apply positive, (leg_ways n M); [done|]. destruct forward; tauto.
Qed.

Lemma sources_ok h1 h2 : exists fa fb o1 f1 f2 offset,
  insert_source true (forward_node_id sp) (GetForwardWeightPlusOffset sp) 0 (Clear h1, Clear h2, 0%Z) = Some (fa, fb, o1) /\
  insert_source true (reverse_node_id sp) (GetReverseWeightPlusOffset sp) 0 (fa, fb, o1) = Some (f1, f2, offset) /\
  holds 0 (source_starts sp) f1 /\ holds 0 (source_starts sp) f2 /\ (- M <= offset <= 0)%Z /\
  forall v k, source_starts sp !! v = Some k -> (offset <= k)%Z.
Proof.
  destruct (insert_source_ok ∅ (Clear h1) (Clear h2) (forward_node_id sp) (GetForwardWeightPlusOffset sp) (forward_way sp) 0)
    as (fa & fb & o1 & Hins1 & Ha & Hb & Ho1 & _ & Hle1); [apply holds_clear|apply holds_clear| |lia|].
  { apply forward_insertable; [done| |done]. intros u k. by rewrite lookup_empty. }
  destruct (insert_source_ok (side_map (forward_node_id sp) (- forward_way sp) ∅) fa fb (reverse_node_id sp)
    (GetReverseWeightPlusOffset sp) (reverse_way sp) o1 Ha Hb) as (f1 & f2 & offset & Hins2 & H1 & H2 & Ho2 & Hle & Hle2).
  { apply reverse_insertable; [done| |]; unfold side_map; destruct (N.eqb_spec (forward_node_id sp) SPECIAL_NODEID) as [|Hne].
    - intros u k. by rewrite lookup_empty.
    - intros u k [[<- _]|[_ ?]]%lookup_insert_Some; [|by rewrite lookup_empty in *].
      apply (location_in_range n M sp (forward_node_id sp) (forward_way sp) source_ok), elem_phantom_starts. tauto.
    - done.
    - intros Hr. rewrite lookup_insert_ne; [done|]. by eapply location_nodes_differ. }
  { done. }
  exists fa, fb, o1, f1, f2, offset. do 5 (split; [done|]). intros v k Hv.
  apply (source_starts_elem n M) in Hv as (w & Hin & ->); [|done]. apply elem_phantom_starts in Hin as [(Hne & _ & ->)|(Hne & _ & ->)].
  - specialize (Hle1 Hne). lia.
  - by apply Hle2.
Qed.

Lemma target_nodes_ok h1 h2 : exists r1 r2,
  insert_target (forward_node_id tp) (GetForwardWeightPlusOffset tp) (Clear h1) = Some r1 /\
  insert_target (reverse_node_id tp) (GetReverseWeightPlusOffset tp) (Clear h2) = Some r2 /\
  holds 0 (target_starts true tp) r1 /\ holds 0 (target_starts false tp) r2.
Proof.
  assert (forall (u : N) (k : Z), (∅ : gmap N Z) !! u = Some k -> (u < n)%N) as Hempty by (intros u k; by rewrite lookup_empty).
  destruct (insert_target_ok (Clear h1) _ _ _ (holds_clear h1) (forward_insertable tp ∅ target_ok Hempty (fun _ => lookup_empty _)))
    as (r1 & Hr1 & H1).
  destruct (insert_target_ok (Clear h2) _ _ _ (holds_clear h2) (reverse_insertable tp ∅ target_ok Hempty (fun _ => lookup_empty _)))
    as (r2 & Hr2 & H2).
  by exists r1, r2.
Qed.

Lemma holds_empty m (h : QueryHeap) : holds 0 m h -> Empty h = true -> m = ∅.
Proof.
  intros [Hwf Hq] He. apply map_eq. intros v. rewrite lookup_empty. destruct (m !! v) as [k|] eqn:Ev; [|done]. exfalso.
  specialize (Hq v). rewrite Ev in Hq. by apply (proj1 (empty_ok _ _ _ Hwf) He) in Hq.
Qed.

Lemma search_leg_ok legs1 legs2 leg h : exists heaps middle1 middle2 upper1 upper2,
  search_leg g false phantoms (MkLegState 0 0 true true legs1 legs2 leg h) = Some (heaps, middle1, middle2, upper1, upper2) /\
  found_leg g E (leg_starts true phantoms) (lh_forward1 heaps) (lh_reverse1 heaps) middle1 upper1 /\
  found_leg g E (leg_starts false phantoms) (lh_forward2 heaps) (lh_reverse2 heaps) middle2 upper2.
Proof.
  unfold search_leg. cbn [ls_heaps search_from_1st_node search_from_2nd_node distance1 distance2 orb].
  destruct (sources_ok (lh_forward1 h) (lh_forward2 h)) as (fa & fb & o1 & f1 & f2 & offset & -> & Hins & H1 & H2 & Ho & Hlow).
  cbn [mbind option_bind]. rewrite Hins. cbn [mbind option_bind].
  destruct (target_nodes_ok (lh_reverse1 h) (lh_reverse2 h)) as (r1 & r2 & -> & -> & Hr1 & Hr2). cbn [mbind option_bind].
  destruct (run_ok true offset f1 r1 H1 Hr1 Ho Hlow) as (f1' & r1' & m1 & u1 & -> & Hfound1). cbn [mbind option_bind].
  destruct (Empty r2) eqn:He; cbn [negb mbind option_bind].
  - exists (MkLegHeaps f1' r1' f2 r2), m1, SPECIAL_NODEID, u1, INVALID_EDGE_WEIGHT. split; [done|]. split; [done|].
    left. split; [done|]. split; [done|]. intros s (a & ka & b & kb & l & _ & Hb & _).
    cbn [leg_starts] in Hb. by rewrite (holds_empty _ r2 Hr2 He), lookup_empty in Hb.
  - destruct (run_ok false offset f2 r2 H2 Hr2 Ho Hlow) as (f2' & r2' & m2 & u2 & -> & Hfound2). cbn [mbind option_bind].
    by exists (MkLegHeaps f1' r1' f2' r2'), m1, m2, u1, u2.
Qed.

(** ** The leg that is chosen *)

(** [leg] are the nodes of a path of the hierarchy between nodes of the two
    points, and [x] is its length. *)
Definition leg_between (leg : list N) (x : Z) : Prop := exists len a wa b wb, node_path (hier g) leg len /\
  head leg = Some a /\ last leg = Some b /\ (a, wa) ∈ location_starts [sp] /\ (b, wb) ∈ location_starts [tp] /\
  x = (wb - wa + Z.of_N len)%Z.

Lemma leg_ok_between forward leg x : leg_ok g (leg_starts forward phantoms) leg x -> leg_between leg x.
Proof.
  intros (len & a & ka & b & kb & Hp & Hh & Hl & Ha & Hb & ->). cbn [leg_starts] in Ha, Hb.
  apply (source_starts_elem n M) in Ha as (wa & Ha & ->); [|done]. exists len, a, wa, b, kb. do 4 (split; [done|]).
  split; [apply target_starts_elem; destruct forward; tauto|lia].
Qed.

(** A run gives the nodes of a leg, or the empty leg. *)
Definition run_leg forward (leg : list N) (upper : Z) : Prop :=
  leg = [] /\ upper = INVALID_EDGE_WEIGHT /\ (forall s, ~ leg_way E (leg_starts forward phantoms) s) \/
  leg <> [] /\ upper <> INVALID_EDGE_WEIGHT /\ leg_between leg upper /\ leg_way E (leg_starts forward phantoms) upper /\
    forall s, leg_way E (leg_starts forward phantoms) s -> (upper <= s)%Z.

Lemma found_run_leg forward f r m ub : found_leg g E (leg_starts forward phantoms) f r m ub ->
  exists leg, (if negb (INVALID_EDGE_WEIGHT =? ub)%Z then RetrievePackedPathFromHeap f r m [] else Some []) = Some leg /\
    run_leg forward leg ub.
Proof.
  intros [(-> & _ & Hno)|(Hub & Hway & Hmin & leg & Hleg & Hok)].
  - exists []. split; [done|]. by left.
  - exists leg. destruct (Z.eqb_spec INVALID_EDGE_WEIGHT ub) as [Heq|_]; [by rewrite <- Heq in Hub|]. split; [done|].
    right. split; [by destruct Hok as (? & ? & ? & ? & ? & _ & Hh & _); intros ->|]. split; [done|]. split; [by eapply leg_ok_between|done].
Qed.

(** The two lengths after one of the legs replaced a missing one. *)
Lemma replaced leg1 leg2 u1 u2 : run_leg true leg1 u1 -> run_leg false leg2 u2 -> u1 <> INVALID_EDGE_WEIGHT \/ u2 <> INVALID_EDGE_WEIGHT ->
  exists l1 l2 v1 v2, replace_legs false leg1 leg2 u1 u2 = (l1, l2, v1, v2) /\
    leg_between l1 v1 /\ leg_between l2 v2 /\ way E [sp] [tp] (Z.min v1 v2) /\ forall s, way E [sp] [tp] s -> (Z.min v1 v2 <= s)%Z.
Proof.
  intros H1 H2 Hone. setoid_rewrite (leg_ways n M E phantoms _ source_ok). unfold replace_legs. cbn [andb orb].
  destruct H1 as [(-> & -> & Hno1)|(Hne1 & Hu1 & Hb1 & Hw1 & Hm1)], H2 as [(-> & -> & Hno2)|(Hne2 & Hu2 & Hb2 & Hw2 & Hm2)].
  - by destruct Hone.
  - exists leg2, leg2, u2, u2. destruct leg2; [done|]. rewrite Z.min_id. split; [done|]. split; [done|]. split; [done|].
    split; [tauto|]. intros s [Hs|Hs]; [by apply Hno1 in Hs|auto].
  - exists leg1, leg1, u1, u1. destruct leg1; [done|]. rewrite Z.min_id. split; [done|]. split; [done|]. split; [done|].
    split; [tauto|]. intros s [Hs|Hs]; [auto|by apply Hno2 in Hs].
  - exists leg1, leg2, u1, u2. destruct leg1; [done|]. destruct leg2; [done|]. split; [done|]. split; [done|]. split; [done|].
    split; [destruct (Z.min_spec u1 u2) as [[_ ->]|[_ ->]]; tauto|].
    intros s [Hs|Hs]; [specialize (Hm1 s Hs)|specialize (Hm2 s Hs)]; lia.
Qed.

Lemma leg_between_back leg x : leg_between leg x -> exists a b, head leg = Some a /\ vback leg = Some b.
Proof.
  intros (len & a & wa & b & wb & _ & Hh & Hl & _). exists a, b. by split.
Qed.

(** The loop over the pairs of points, for one pair. *)
Lemma route_pair_ok ut h : exists r, route_legs g ut (MkLegState 0 0 true true [[]] [[]] 0 h) [phantoms] = Some r /\
  match r with
  | inl _ => forall s, ~ way E [sp] [tp] s
  | inr s' => exists leg1 leg2, packed_legs1 s' = [leg1] /\ packed_legs2 s' = [leg2] /\
      leg_between leg1 (distance1 s') /\ leg_between leg2 (distance2 s') /\ way E [sp] [tp] (Z.min (distance1 s') (distance2 s')) /\
      forall s, way E [sp] [tp] s -> (Z.min (distance1 s') (distance2 s') <= s)%Z
  end.
Proof.
  unfold route_legs, route_leg. cbn [current_leg N.ltb N.compare andb mbind option_bind].
  destruct (search_leg_ok [[]] [[]] 0 h) as (heaps & m1 & m2 & u1 & u2 & -> & Hf1 & Hf2). cbn [mbind option_bind].
  destruct (found_run_leg true _ _ _ _ Hf1) as (leg1 & Hl1 & Hr1). destruct (found_run_leg false _ _ _ _ Hf2) as (leg2 & Hl2 & Hr2).
  destruct ((INVALID_EDGE_WEIGHT =? u1) && (INVALID_EDGE_WEIGHT =? u2))%Z eqn:Hnone.
  { apply andb_true_iff in Hnone as [<-%Z.eqb_eq <-%Z.eqb_eq]. eexists. split; [reflexivity|].
    intros s Hs. apply (leg_ways n M) in Hs as [Hs|Hs]; [| |done].
    - destruct Hr1 as [(_ & _ & Hno)|(_ & ? & _)]; [by apply Hno in Hs|done].
    - destruct Hr2 as [(_ & _ & Hno)|(_ & ? & _)]; [by apply Hno in Hs|done]. }
  rewrite Hl1, Hl2. cbn [mbind option_bind].
  destruct (replaced leg1 leg2 u1 u2 Hr1 Hr2) as (l1 & l2 & v1 & v2 & -> & Hb1 & Hb2 & Hway & Hmin).
  { apply andb_false_iff in Hnone as [Hne|Hne]; apply Z.eqb_neq in Hne; [left|right]; by intros ->. }
  cbn [negb andb packed_legs1 packed_legs2 mbind option_bind]. change (vget [[]] 0) with (Some (@nil N)).
  cbn [mbind option_bind app].
  change (vset [[]] 0 l1) with (Some [l1]). change (vset [[]] 0 l2) with (Some [l2]). cbn [mbind option_bind].
  destruct (leg_between_back l1 v1 Hb1) as (a1 & b1 & _ & ->). destruct (leg_between_back l2 v2 Hb2) as (a2 & b2 & _ & ->).
  cbn [mbind option_bind]. eexists. split; [reflexivity|]. by exists l1, l2.
Qed.
End leg.

(** ** Properties *)


(** *** Two nodes *)

Definition two_facade : InternalDataFacade :=
  MkFacade two_nodes [0; 0; 0; 6]%N [0; 0; 0; 1]%N [0; 0; 0; 2]%N [0; 0; 0; 1]%N [false; false; false; false] [] [].

Definition two_engine : SearchEngineData := MkSearchEngineData None None None None None None.

Definition two_phantoms : PhantomNodes := MkPhantomNodes (at_node 0 2) (at_node 1 1).

Lemma two_way_length s : way two_arcs [at_node 0 2] [at_node 1 1] s -> (4 <= s)%Z.
Proof.
  intros (a & wa & b & wb & l & Ha & Hb & Hp & ->).
  apply list_elem_of_singleton in Ha as [= -> ->]. apply list_elem_of_singleton in Hb as [= -> ->].
  apply two_paths in Hp as [[=]|[_ Hl]]. lia.
Qed.

Lemma two_upward dir : upward_bound dir two_nodes 5.
Proof.
  apply (potential_bound (fun u => if (u =? 0)%N then 0 else 5)%Z); [done|done| |done].
  intros u e Hu He. by apply two_adj in He as [-> ->].
Qed.

