(* ===== verification/AlternativeRoutes.v ===== *)
(** * RoutingAlgorithms/AlternativePathRouting.h: a route and an alternative

    A search without stalling, which goes on a little beyond the shortest way
    and notes the nodes that both sides have settled; the choice of a node that
    the alternative leads over, by its length, its overlap with the shortest way
    and a test that it is locally shortest; and the unpacking of both routes. *)

From Stdlib Require Import Floats.SpecFloat.
From stdpp Require Import sorting.
From S2P Require Import Prelude Types Float32 Paths Edges Storage BinaryHeap DynamicGraph StaticGraph Text Routing QuerySearch DistanceTable.
From S2P Require Import Unpacking ShortestPath RouteSearch RouteLeg.

Definition VIAPATH_ALPHA : double := S754_finite false 7205759403792794 (-56).
Definition VIAPATH_EPSILON : double := S754_finite false 5404319552844595 (-55).
Definition VIAPATH_GAMMA : double := S754_finite false 6755399441055744 (-53).

(** [1 + x] in [double]. *)
Definition one_plus (x : double) : double := dadd (double_of_int 1) x.

Record RankedCandidateNode := MkCandidate { rc_node : N; rc_length : Z; rc_sharing : Z }.

(** [2 * length + sharing], by which candidates are compared. *)
Definition candidate_rank (c : RankedCandidateNode) : option Z := d ← i32 (2 * rc_length c); iadd d (rc_sharing c).

(** ** Util/container.hpp *)

(** [std::unique] on a sorted vector. *)
Fixpoint unique (l : list N) : list N :=
  match l with
  | a :: l' => match l' with b :: _ => if (a =? b)%N then unique l' else a :: unique l' | [] => l end
  | [] => []
  end.

Definition sort_unique_resize (l : list N) : list N := unique (merge_sort N.le l).

Section alternative.
  Context (g : QueryGraph).
  Implicit Types forward_heap reverse_heap : QueryHeap.

(** ** The search *)

(** The test where both searches have been; [candidates] is
    [search_space_intersection]. *)
Definition note_meeting (node : N) (distance : Z) reverse_heap (middle_node : N) (upper_bound : Z) (candidates : list N)
    : option (QueryHeap * N * Z * list N) :=
  '(inserted, r1) ← WasInserted node reverse_heap;
  if inserted : bool then
    '(key, r2) ← GetKey node r1;
    new_distance ← iadd key distance;
    Some (if (new_distance <? upper_bound)%Z && (0 <=? new_distance)%Z then (r2, node, new_distance, candidates ++ [node])
          else (r2, middle_node, upper_bound, candidates ++ [node]))
  else Some (r1, middle_node, upper_bound, candidates).

(** [static_cast<int>((distance + min_edge_offset) / (1. + VIAPATH_EPSILON))]. *)
Definition scaled_distance (distance min_edge_offset : Z) : option Z :=
  sum ← iadd distance min_edge_offset; truncate (ddiv (double_of_int sum) (one_plus VIAPATH_EPSILON)).

Definition AlternativeRoutingStep (is_forward_directed : bool) forward_heap reverse_heap (middle_node : N) (upper_bound : Z) (candidates : list N)
    (search_space : list (N * N)) (min_edge_offset : Z) : option (QueryHeap * QueryHeap * N * Z * list N * list (N * N)) :=
  '(node, h1) ← DeleteMin forward_heap;
  '(distance, h2) ← GetKey node h1;
  scaled ← scaled_distance distance min_edge_offset;
  if negb (INVALID_EDGE_WEIGHT =? upper_bound)%Z && (upper_bound <? scaled)%Z then
    h3 ← DeleteAll h2;
    Some (h3, reverse_heap, middle_node, upper_bound, candidates, search_space)
  else
    '(data, h3) ← GetData node h2;
    '(r, middle, upper, candidates) ← note_meeting node distance reverse_heap middle_node upper_bound candidates;
    edges ← sg_GetAdjacentEdgeRange node g;
    h4 ← fold_m (relax_edge g is_forward_directed node distance) h3 edges;
    Some (h4, r, middle, upper, candidates, search_space ++ [(parent data, node)]).

Record alternative_state := MkAlternativeState {
  as_forward : QueryHeap; as_reverse : QueryHeap; as_middle : N; as_upper : Z; as_candidates : list N;
  as_forward_space : list (N * N); as_reverse_space : list (N * N) }.

Definition forward_step (off : Z) (s : alternative_state) : option alternative_state :=
  '(f, r, m, u, c, space) ← AlternativeRoutingStep true (as_forward s) (as_reverse s) (as_middle s) (as_upper s) (as_candidates s) (as_forward_space s) off;
  Some (MkAlternativeState f r m u c space (as_reverse_space s)).

Definition reverse_step (off : Z) (s : alternative_state) : option alternative_state :=
  '(r, f, m, u, c, space) ← AlternativeRoutingStep false (as_reverse s) (as_forward s) (as_middle s) (as_upper s) (as_candidates s) (as_reverse_space s) off;
  Some (MkAlternativeState f r m u c (as_forward_space s) space).

(** Every iteration settles a node of one of the searches or ends one. *)
Fixpoint alternative_loop (fuel : nat) (off : Z) (s : alternative_state) : option alternative_state :=
  if (0 <? Size (as_forward s) + Size (as_reverse s))%N then
    match fuel with
    | O => None
    | S fuel' =>
        s1 ← (if (0 <? Size (as_forward s))%N then forward_step off s else Some s);
        s2 ← (if (0 <? Size (as_reverse s1))%N then reverse_step off s1 else Some s1);
        alternative_loop fuel' off s2
    end
  else Some s.

(** The offset of the source, and the search from both points. *)
Definition source_offset (p : PhantomNode) : option Z :=
  fw ← GetForwardWeightPlusOffset p; nf ← ineg fw; rw ← GetReverseWeightPlusOffset p; nr ← ineg rw; Some (Z.min (Z.min 0 nf) nr).

Definition alternative_search (phantoms : PhantomNodes) forward_heap reverse_heap : option (Z * alternative_state) :=
  off ← source_offset (source_phantom phantoms);
  f ← insert_phantom ineg forward_heap (source_phantom phantoms);
  r ← insert_phantom Some reverse_heap (target_phantom phantoms);
  s ← alternative_loop (3 + 2 * N.to_nat (sg_number_of_nodes g)) off (MkAlternativeState f r SPECIAL_NODEID INVALID_EDGE_WEIGHT [] [] []);
  Some (off, s).

(** ** The preselection *)

(** [emplace] of an [unordered_map]: an entry is kept. *)
Definition emplace (k : N) (x : Z) (m : gmap N Z) : gmap N Z := match m !! k with Some _ => m | None => <[k := x]> m end.

Definition note_sharing (nodes_in_path : gset N) (s : gmap N Z * QueryHeap) (edge : N * N) : option (gmap N Z * QueryHeap) :=
  let '(sharing, h) := s in
  let '(u, v) := edge in
  if bool_decide (v ∈ nodes_in_path) then '(key, h) ← GetKey v h; Some (emplace v key sharing, h)
  else Some (match sharing !! u with Some x => emplace v x sharing | None => sharing end, h).

Definition preselect (upper_bound : Z) (forward_sharing reverse_sharing : gmap N Z) (s : list N * QueryHeap * QueryHeap) (node : N)
    : option (list N * QueryHeap * QueryHeap) :=
  let '(preselected, f, r) := s in
  sharing ← iadd (default 0%Z (forward_sharing !! node)) (default 0%Z (reverse_sharing !! node));
  '(fk, f) ← GetKey node f; '(rk, r) ← GetKey node r;
  length ← iadd fk rk;
  let length_passes := SFltb (double_of_int length) (dmul (double_of_int upper_bound) (one_plus VIAPATH_EPSILON)) in
  let sharing_passes := SFleb (double_of_int sharing) (dmul (double_of_int upper_bound) VIAPATH_GAMMA) in
  rest ← isub length sharing; upper_rest ← isub upper_bound sharing;
  let stretch_passes := SFltb (double_of_int rest) (dmul (one_plus VIAPATH_ALPHA) (double_of_int upper_rest)) in
  Some (if length_passes && sharing_passes && stretch_passes then preselected ++ [node] else preselected, f, r).

(** ** Ways over a node *)

(** The heaps of the query. *)
Record alternative_heaps := MkAlternativeHeaps {
  ah_f1 : QueryHeap; ah_r1 : QueryHeap; ah_f2 : QueryHeap; ah_r2 : QueryHeap; ah_f3 : QueryHeap; ah_r3 : QueryHeap }.

(** [while (!heap.Empty())]: a search against an existing one. *)
Fixpoint half_search (fuel : nat) (off : Z) (dir : bool) (h other : QueryHeap) (middle : N) (upper : Z) : option (QueryHeap * QueryHeap * N * Z) :=
  if Empty h then Some (h, other, middle, upper)
  else
    match fuel with
    | O => None
    | S fuel' => '(h, other, middle, upper) ← RoutingStep g h other middle upper off dir; half_search fuel' off dir h other middle upper
    end.

Definition search_from (off : Z) (dir : bool) (via : N) (h other : QueryHeap) : option (QueryHeap * QueryHeap * N * Z) :=
  h ← Insert via 0 (MkHeapData via) h;
  half_search (S (N.to_nat (sg_number_of_nodes g))) off dir h other SPECIAL_NODEID INVALID_EDGE_WEIGHT.

(** The weight of an edge in either direction. *)
Definition edge_length (u v : N) : option Z :=
  e ← sg_FindEdgeInEitherDirection qd_distance u v g; data ← sg_GetEdgeData e g; Some (qd_distance data).

(** The common edges from the source on; at the first fork both edges are
    unpacked. *)
Fixpoint share_forward (fuel : nat) (indices : list N) (via shortest : list N) (sharing : Z) (via_part shortest_part : list N)
    : option (Z * list N * list N) :=
  match indices with
  | [] => Some (sharing, via_part, shortest_part)
  | i :: indices =>
      a ← vget via i; b ← vget shortest i; a' ← vget via (i + 1); b' ← vget shortest (i + 1);
      if (a =? b)%N && (a' =? b')%N then
        l ← edge_length a a'; sharing ← iadd sharing l; share_forward fuel indices via shortest sharing via_part shortest_part
      else if (a =? b)%N then
        via_part ← UnpackEdge fuel g a a' via_part; shortest_part ← UnpackEdge fuel g b b' shortest_part;
        Some (sharing, via_part, shortest_part)
      else share_forward fuel indices via shortest sharing via_part shortest_part
  end.

(** The common edges at the front of two unpacked edges. *)
Fixpoint share_prefix (indices : list N) (via shortest : list N) (sharing : Z) : option Z :=
  match indices with
  | [] => Some sharing
  | i :: indices =>
      a ← vget via i; b ← vget shortest i; a' ← vget via (i + 1); b' ← vget shortest (i + 1);
      if (a =? b)%N && (a' =? b')%N then l ← edge_length a a'; sharing ← iadd sharing l; share_prefix indices via shortest sharing
      else Some sharing
  end.

(** The common edges towards the target, from the back. *)
Fixpoint share_backward (fuel : nat) (indices : list (N * N)) (via shortest : list N) (sharing : Z) (via_part shortest_part : list N)
    : option (Z * list N * list N) :=
  match indices with
  | [] => Some (sharing, via_part, shortest_part)
  | (i, j) :: indices =>
      a ← vget via (i - 1); b ← vget shortest (j - 1); a' ← vget via i; b' ← vget shortest j;
      if (a =? b)%N && (a' =? b')%N then
        l ← edge_length a a'; sharing ← iadd sharing l; share_backward fuel indices via shortest sharing via_part shortest_part
      else if (a' =? b')%N then
        via_part ← UnpackEdge fuel g a a' via_part; shortest_part ← UnpackEdge fuel g b b' shortest_part;
        Some (sharing, via_part, shortest_part)
      else share_backward fuel indices via shortest sharing via_part shortest_part
  end.

Fixpoint share_suffix (indices : list (N * N)) (via shortest : list N) (sharing : Z) : option Z :=
  match indices with
  | [] => Some sharing
  | (i, j) :: indices =>
      a ← vget via (i - 1); b ← vget shortest (j - 1); a' ← vget via i; b' ← vget shortest j;
      if (a =? b)%N && (a' =? b')%N then l ← edge_length a a'; sharing ← iadd sharing l; share_suffix indices via shortest sharing
      else Some sharing
  end.

(** The indices of two paths down to 1, and those of a common front. *)
Definition backward_indices (via shortest : list N) : list (N * N) := zip (reverse (irange 1 (vsize via))) (reverse (irange 1 (vsize shortest))).

Definition forward_indices (via shortest : list N) : list N := irange 0 (N.min (vsize via) (vsize shortest) - 1).

(** The unpacked edges of both ends are in the same two vectors. *)
Definition sharing_of_paths (fuel : nat) (packed_s_v packed_v_t packed_shortest : list N) : option Z :=
  '(sharing, via, shortest) ← share_forward fuel (forward_indices packed_s_v packed_shortest) packed_s_v packed_shortest 0 [] [];
  sharing ← share_prefix (forward_indices via shortest) via shortest sharing;
  '(sharing, via, shortest) ← share_backward fuel (backward_indices packed_v_t packed_shortest) packed_v_t packed_shortest sharing via shortest;
  share_suffix (backward_indices via shortest) via shortest sharing.

Definition ComputeLengthAndSharingOfViaPath (fuel : nat) (via_node : N) (packed_shortest_path : list N) (off : Z) (h : alternative_heaps)
    : option (Z * Z * alternative_heaps) :=
  '(r2, f1, s_v_middle, upper_s_v) ← search_from off false via_node (Clear (ah_r2 h)) (ah_f1 h);
  '(f2, r1, v_t_middle, upper_v_t) ← search_from off true via_node (Clear (ah_f2 h)) (ah_r1 h);
  let h := MkAlternativeHeaps f1 r1 f2 r2 (ah_f3 h) (ah_r3 h) in
  real_length ← iadd upper_s_v upper_v_t;
  if (SPECIAL_NODEID =? s_v_middle)%N || (SPECIAL_NODEID =? v_t_middle)%N then Some (real_length, 0%Z, h)
  else
    packed_s_v ← RetrievePackedPathFromHeap f1 r2 s_v_middle [];
    packed_v_t ← RetrievePackedPathFromHeap f2 r1 v_t_middle [];
    sharing ← sharing_of_paths fuel packed_s_v packed_v_t packed_shortest_path;
    Some (real_length, sharing, h).

(** ** The T-test *)

(** The edges next to the via node, up to the one that exceeds the threshold;
    [far] is the end of an edge away from the via node. *)
Fixpoint t_walk (far : N * N -> N) (threshold : Z) (edges : list (N * N)) (P : N) (until : Z) : option (N * Z * list (N * N)) :=
  match edges with
  | [] => Some (P, until, [])
  | e :: edges =>
      l ← edge_length e.1 e.2; sum ← iadd l until;
      if (threshold <=? sum)%Z then Some (P, until, [e]) else t_walk far threshold edges (far e) sum
  end.

(** The exceeding edge is unpacked towards the via node: from its second node on
    the way to it, from its first node behind it. [Some None] is the early
    [return false]. *)
Fixpoint t_unpack (fuel : nat) (towards : bool) (threshold : Z) (unpack_stack : list (N * N)) (P : N) (until : Z) : option (option (N * Z)) :=
  match unpack_stack with
  | [] => Some (Some (P, until))
  | (u, v) :: stack =>
      match fuel with
      | O => None
      | S fuel' =>
          e ← sg_FindEdgeInEitherDirection qd_distance u v g;
          if (SPECIAL_EDGEID =? e)%N then Some None
          else
            data ← sg_GetEdgeData e g;
            if qd_shortcut data then
              let middle := qd_id data in
              let '(near, rest) := if towards then ((middle, v), (u, middle)) else ((u, middle), (middle, v)) in
              l ← edge_length near.1 near.2; sum ← iadd until l;
              if (threshold <=? sum)%Z then t_unpack fuel' towards threshold (near :: stack) P until
              else t_unpack fuel' towards threshold (rest :: stack) P sum
            else
              sum ← iadd until (qd_distance data);
              t_unpack fuel' towards threshold stack (if towards then u else v) sum
      end
  end.

Definition t_end (fuel : nat) (towards : bool) (threshold : Z) (path : list N) (middle : N) : option (option (N * Z)) :=
  let edges := if towards then reverse (path_pairs path) else path_pairs path in
  '(P, until, stack) ← t_walk (if towards then fst else snd) threshold edges middle 0;
  t_unpack fuel towards threshold stack P until.

(** The result of a candidate that passes: its length and the two middle nodes. *)
Definition ViaNodeCandidatePassesTTest (fuel : nat) (candidate : RankedCandidateNode) (length_of_shortest_path off : Z) (h : alternative_heaps)
    : option (option (Z * N * N) * alternative_heaps) :=
  '(r2, f1, s_v_middle, upper_s_v) ← search_from off false (rc_node candidate) (Clear (ah_r2 h)) (ah_f1 h);
  if (INVALID_EDGE_WEIGHT =? upper_s_v)%Z then Some (None, MkAlternativeHeaps f1 (ah_r1 h) (Clear (ah_f2 h)) r2 (ah_f3 h) (ah_r3 h))
  else
    '(f2, r1, v_t_middle, upper_v_t) ← search_from off true (rc_node candidate) (Clear (ah_f2 h)) (ah_r1 h);
    let h := MkAlternativeHeaps f1 r1 f2 r2 (ah_f3 h) (ah_r3 h) in
    if (INVALID_EDGE_WEIGHT =? upper_v_t)%Z then Some (None, h)
    else
      length_of_via_path ← iadd upper_s_v upper_v_t;
      packed_s_v ← RetrievePackedPathFromHeap f1 r2 s_v_middle [];
      packed_v_t ← RetrievePackedPathFromHeap f2 r1 v_t_middle [];
      if (SPECIAL_NODEID =? s_v_middle)%N || (SPECIAL_NODEID =? v_t_middle)%N then Some (None, h)
      else
        threshold ← truncate (dmul VIAPATH_EPSILON (double_of_int length_of_shortest_path));
        s_end ← t_end fuel true threshold packed_s_v s_v_middle;
        match s_end with
        | None => Some (None, h)
        | Some (s_P, s_until) =>
            t_end_result ← t_end fuel false threshold packed_v_t v_t_middle;
            match t_end_result with
            | None => Some (None, h)
            | Some (t_P, t_until) =>
                t_test_path_length ← iadd s_until t_until;
                f3 ← Insert s_P 0 (MkHeapData s_P) (Clear (ah_f3 h));
                r3 ← Insert t_P 0 (MkHeapData t_P) (Clear (ah_r3 h));
                '(f3, r3, _, upper) ← route_search g off f3 r3;
                Some (if (upper <=? t_test_path_length)%Z then Some (length_of_via_path, s_v_middle, v_t_middle) else None,
                      MkAlternativeHeaps f1 r1 f2 r2 f3 r3)
            end
        end.

(** The first candidate that passes. *)
Fixpoint select_candidate (fuel : nat) (candidates : list RankedCandidateNode) (length_of_shortest_path off : Z) (h : alternative_heaps)
    : option (option (Z * N * N) * alternative_heaps) :=
  match candidates with
  | [] => Some (None, h)
  | c :: candidates =>
      '(r, h) ← ViaNodeCandidatePassesTTest fuel c length_of_shortest_path off h;
      match r with Some _ => Some (r, h) | None => select_candidate fuel candidates length_of_shortest_path off h end
  end.

Definition rank_candidate (fuel : nat) (upper_bound off : Z) (packed_shortest_path : list N) (s : list RankedCandidateNode * alternative_heaps) (node : N)
    : option (list RankedCandidateNode * alternative_heaps) :=
  let '(ranked, h) := s in
  '(length, sharing, h) ← ComputeLengthAndSharingOfViaPath fuel node packed_shortest_path off h;
  maximum_allowed_sharing ← truncate (dmul (double_of_int upper_bound) VIAPATH_GAMMA);
  Some (if (sharing <=? maximum_allowed_sharing)%Z && SFleb (double_of_int length) (dmul (double_of_int upper_bound) (one_plus VIAPATH_EPSILON))
        then ranked ++ [MkCandidate node length sharing] else ranked, h).

(** The middle node is in both halves of the alternative. *)
Definition RetrievePackedAlternatePath (h : alternative_heaps) (s_v_middle v_t_middle : N) : option (list N) :=
  packed_path ← RetrievePackedPathFromHeap (ah_f1 h) (ah_r2 h) s_v_middle [];
  packed_v_t ← RetrievePackedPathFromHeap (ah_f2 h) (ah_r1 h) v_t_middle [];
  Some (vpop packed_path ++ packed_v_t).

End alternative.

(** ** [operator()] *)

Section query.
  (** [std::sort] by the ranks. *)
  Context (sort_ranked : list RankedCandidateNode -> list RankedCandidateNode).
  Context (fuel : nat) (f : InternalDataFacade).
  Abbreviation g := (m_query_graph f).

(** The nodes of the shortest way. *)
Definition packed_shortest_path (s : alternative_state) : option (list N * list N * list N) :=
  packed_forward ← RetrievePackedPathFromSingleHeap (as_forward s) (as_middle s) [];
  packed_reverse ← RetrievePackedPathFromSingleHeap (as_reverse s) (as_middle s) [];
  Some (packed_forward, packed_reverse, reverse packed_forward ++ [as_middle s] ++ packed_reverse).

(** The candidates for the via node, best first. *)
Definition ranked_candidates (off : Z) (s : alternative_state) (packed_forward packed_reverse shortest : list N) (h : alternative_heaps)
    : option (list RankedCandidateNode * alternative_heaps) :=
  let upper := as_upper s in
  let nodes_in_path : gset N := list_to_set packed_forward ∪ {[as_middle s]} ∪ list_to_set packed_reverse in
  '(forward_sharing, f1) ← fold_m (note_sharing nodes_in_path) (∅, ah_f1 h) (as_forward_space s);
  '(reverse_sharing, r1) ← fold_m (note_sharing nodes_in_path) (∅, ah_r1 h) (as_reverse_space s);
  '(preselected, f1, r1) ← fold_m (preselect upper forward_sharing reverse_sharing) ([], f1, r1) (sort_unique_resize (as_candidates s));
  '(ranked, h) ← fold_m (rank_candidate g fuel upper off shortest) ([], MkAlternativeHeaps f1 r1 (ah_f2 h) (ah_r2 h) (ah_f3 h) (ah_r3 h)) preselected;
  Some (sort_ranked ranked, h).

(** The alternative in the result. *)
Definition add_alternative (phantoms : PhantomNodes) (selected : option (Z * N * N)) (h : alternative_heaps) (raw : RawRouteData) : option RawRouteData :=
  match selected with
  | None => Some raw
  | Some (length_of_via_path, s_v_middle, v_t_middle) =>
      packed ← RetrievePackedAlternatePath h s_v_middle v_t_middle;
      front ← head packed; back ← vback packed;
      unpacked ← UnpackPath fuel f packed phantoms (unpacked_alternative raw);
      Some (MkRawRouteData (unpacked_path_segments raw) unpacked (segment_end_coordinates raw) (raw_via_node_coordinates raw)
              (source_traversed_in_reverse raw) (target_traversed_in_reverse raw)
              (alt_source_traversed_in_reverse raw ++ [negb (front =? forward_node_id (source_phantom phantoms))%N])
              (alt_target_traversed_in_reverse raw ++ [negb (back =? forward_node_id (target_phantom phantoms))%N])
              (raw_check_sum raw) (shortest_path_length raw) length_of_via_path)
  end.

(** The shortest route in the result. *)
Definition add_shortest (phantoms : PhantomNodes) (shortest : list N) (upper : Z) (raw : RawRouteData) : option RawRouteData :=
  front ← head shortest; back ← vback shortest;
  let segments := vresize (unpacked_path_segments raw) 1 [] in
  segment ← vget segments 0;
  unpacked ← UnpackPath fuel f shortest phantoms segment;
  segments ← vset segments 0 unpacked;
  Some (MkRawRouteData segments (unpacked_alternative raw) (segment_end_coordinates raw) (raw_via_node_coordinates raw)
          (source_traversed_in_reverse raw ++ [negb (front =? forward_node_id (source_phantom phantoms))%N])
          (target_traversed_in_reverse raw ++ [negb (back =? forward_node_id (target_phantom phantoms))%N])
          (alt_source_traversed_in_reverse raw) (alt_target_traversed_in_reverse raw) (raw_check_sum raw) upper (alternative_path_length raw)).

Definition engine_of (h : alternative_heaps) : SearchEngineData :=
  MkSearchEngineData (Some (ah_f1 h)) (Some (ah_r1 h)) (Some (ah_f2 h)) (Some (ah_r2 h)) (Some (ah_f3 h)) (Some (ah_r3 h)).

Definition AlternativeRouting (engine : SearchEngineData) (phantoms : PhantomNodes) (raw : RawRouteData) : option (SearchEngineData * RawRouteData) :=
  let engine := InitializeOrClearThirdThreadLocalStorage (InitializeOrClearSecondThreadLocalStorage
    (InitializeOrClearFirstThreadLocalStorage engine)) in
  f1 ← forwardHeap engine; r1 ← backwardHeap engine; f2 ← forwardHeap2 engine; r2 ← backwardHeap2 engine;
  f3 ← forwardHeap3 engine; r3 ← backwardHeap3 engine;
  '(off, s) ← alternative_search g phantoms f1 r1;
  let h := MkAlternativeHeaps (as_forward s) (as_reverse s) f2 r2 f3 r3 in
  if (INVALID_EDGE_WEIGHT =? as_upper s)%Z then Some (engine_of h, raw)
  else
    '(packed_forward, packed_reverse, shortest) ← packed_shortest_path s;
    '(ranked, h) ← ranked_candidates off s packed_forward packed_reverse shortest h;
    '(selected, h) ← select_candidate g fuel ranked (as_upper s) off h;
    raw ← add_shortest phantoms shortest (as_upper s) raw;
    raw ← add_alternative phantoms selected h raw;
    Some (engine_of h, raw).
End query.
