(* ===== verification/AlternativeSearch.v ===== *)
(** * RoutingAlgorithms/AlternativePathRouting.h: the search

    The search for alternatives stops later than that for a route and does not
    stall. It finds the shortest way all the same, and every candidate for the
    via node was reached from both ends. *)

From Stdlib Require Import Floats.SpecFloat.
From S2P Require Import Prelude Types Float32 FloatBounds Paths Edges Storage BinaryHeap DynamicGraph StaticGraph Text Routing QuerySearch DistanceTable.
From S2P Require Import Unpacking ShortestPath RouteSearch RouteLeg AlternativeRoutes.

(** A distance is not made larger by the scaling. *)
Lemma scaled_distance_le k off : (INT_MIN <= k + off <= INT_MAX)%Z -> exists y, scaled_distance k off = Some y /\ (y <= Z.max 0 (k + off))%Z.
Proof.
  intros Hr. unfold scaled_distance. rewrite iadd_Some by done. cbn [mbind option_bind].
  change (one_plus VIAPATH_EPSILON) with (S754_finite false 5179139571476070 (-52)).
  destruct (div_int_le 5179139571476070 ltac:(done) (k + off) Hr) as (y & -> & Hy). exists y. split; [done|lia].
Qed.

Lemma parents_acc fuel (h : QueryHeap) : forall v acc, parents fuel h v acc = (fun p => acc ++ p) <$> parents fuel h v [].
Proof.
  induction fuel as [|fuel IH]; intros v acc; [done|]. cbn [parents]. destruct (GetData v h) as [[d h']|]; [|done]. cbn [mbind option_bind].
  destruct (v =? parent d)%N; [cbn; by rewrite app_nil_r|]. rewrite IH, (IH _ ([] ++ _)). destruct (parents fuel h (parent d) []); [|done].
  cbn. by rewrite <- app_assoc.
Qed.

Section search.
  Context (g : QueryGraph) (E : arcs) (start : bool -> gmap N Z) (W M B off : Z).
  Abbreviation n := (sg_number_of_nodes g).
  Abbreviation X := (graph_nodes g).
  Hypothesis g_wf : static_wf g.
  Hypothesis g_small : (n < 2147483647)%N.
  Hypothesis g_weights : weights_ok W g.
  Hypothesis g_rep : represents g E.
  Hypothesis g_bound : forall dir, upward_bound dir g B.
  Hypothesis forward_starts : forall s k, start true !! s = Some k -> (s < n)%N /\ (off <= k <= M)%Z.
  Hypothesis backward_starts : forall s k, start false !! s = Some k -> (s < n)%N /\ (0 <= k <= M)%Z.
  Hypothesis room : (INT_MIN <= 2 * off /\ off <= 0 /\ 0 <= M /\ 0 <= B /\ 0 <= W /\ 2 * (M + B) + W < INT_MAX)%Z.
  #[local] Set Default Proof Using "All".
  Implicit Types h r : QueryHeap.

(** A lemma of the two-sided search at these hypotheses. *)
Abbreviation here lem := (lem g E start W M B off g_wf g_small g_weights g_rep g_bound forward_starts backward_starts room).
Abbreviation tree_ok := (tree_ok g start).
Abbreviation side := (side g E start off).
Abbreviation joint := (joint g E start off).

Lemma note_meeting_ok dir c r node k m ub cs : tree_ok (negb dir) c r -> (node < n)%N -> up_key g dir (start dir) node k ->
  exists r' m' ub' cs', note_meeting node k r m ub cs = Some (r', m', ub', cs') /\ heap_wf X c r' /\ queue r' = queue r /\ met r node k m ub m' ub' /\
    (cs' = cs \/ cs' = cs ++ [node] /\ is_Some (queue r !! node)).
Proof.
  intros Htree Hnode Hup. destruct (here meet_ok dir c r node k m ub Htree Hnode Hup) as (r' & m' & ub' & Hrun & Hwf & Hq & Hmet).
  unfold meet_at in Hrun. unfold note_meeting. destruct (was_inserted_ok X c r node (to_wf _ _ _ _ _ Htree) (here all_nodes _ Hnode)) as (r1 & Hw & _ & Hq1).
  rewrite Hw in Hrun |- *. cbn [mbind option_bind] in Hrun |- *. case_bool_decide as Hin.
  2:{ injection Hrun as <- <- <-. exists r1, m, ub, cs. split_and!; try done. by left. }
  destruct (GetKey node r1) as [[key r2]|]; [|done]. cbn [mbind option_bind] in Hrun |- *. destruct (iadd key k) as [x|]; [|done].
  cbn [mbind option_bind] in Hrun |- *. exists r', m', ub', (cs ++ [node]). split_and!; try done; [|by right].
  destruct (x <? ub)%Z; cbn [andb]; [destruct (0 <=? x)%Z|]; by injection Hrun as <- <- <-.
Qed.

(** What the search notes: candidates were reached by both sides. *)
Definition noted h r (cs : list N) : Prop := Forall (fun v => (v < n)%N /\ is_Some (queue h !! v) /\ is_Some (queue r !! v)) cs.

Lemma reach_some h h' v : (forall u ku, reached h u ku -> reached h' u ku) -> is_Some (queue h !! v) -> is_Some (queue h' !! v).
Proof. intros Hreach [[[k d] q] Hv]. destruct (Hreach v k) as (k' & d' & q' & -> & _); [by exists k, d, q|]. by eexists. Qed.

Lemma get_data_ok c h v k d q : heap_wf X c h -> queue h !! v = Some (k, d, q) -> exists h', GetData v h = Some (d, h') /\ heap_wf X c h' /\ queue h' = queue h.
Proof.
  intros Hwf Hv. destruct (read_slot X c h v (k, d, q) Hwf Hv) as (j & hn & h' & Hs & Hx & Hwf' & Hq').
  exists h'. split_and!; [|done|done]. unfold GetData. rewrite Hs. cbn [mbind option_bind]. by injection Hx as _ <- _.
Qed.

Lemma empty_queue c h h' : heap_wf X c h -> heap_wf X c h' -> queue h = queue h' -> Empty h = Empty h'.
Proof.
  intros Hwf Hwf' Hq. pose proof (empty_ok X c h Hwf) as Ha. rewrite Hq, <- (empty_ok X c h' Hwf') in Ha.
  destruct (Empty h), (Empty h'); naive_solver.
Qed.

Lemma relax_side dir c v k h2 h3 : query_inv X g dir (start dir) c k h2 -> heap_wf X c h3 -> queue h3 = queue h2 -> (v < n)%N ->
  up_key g dir (start dir) v k -> settled h3 !! v = Some k -> exists h4, RelaxOutgoingEdges g dir v k h3 = Some h4 /\
    query_inv X g dir (start dir) c k h4 /\ grows h3 h4 /\ relaxed_at g dir (net E dir) (start dir) h4 v k.
Proof.
  intros Hinv2 Hwf3 Hq3 Hv Hup Hset.
  assert (query_inv X g dir (start dir) c k h3) as Hinv3.
  { eapply (query_inv_queue X g dir (net E dir) (start dir) W (lows off dir) (M + B) g_wf g_weights (here all_nodes) (here nodes_small)
      (net_with g E g_rep dir) (net_against g E g_rep dir) (here starts_low dir) (here up_key_bound dir) (here search_room dir)); done. }
  destruct (relax_outgoing_ok X g dir (net E dir) (start dir) W (lows off dir) (M + B) g_wf g_weights (here all_nodes) (here nodes_small)
    (net_with g E g_rep dir) (net_against g E g_rep dir) (here starts_low dir) (here up_key_bound dir) (here search_room dir) c v k h3 Hinv3 Hv Hup Hset)
    as (h4 & Hrun & Hinv4 & Hg4 & Hr4). exists h4. split_and!; [done|done|done|]. intros _. exact Hr4.
Qed.

(** The edges of the search space end at nodes of the heap. *)
Definition spaced h (space : list (N * N)) : Prop := Forall (fun e => (e.2 < n)%N /\ is_Some (queue h !! e.2)) space.

(** A search step: it settles a node or ends the search. *)
Lemma alternative_step_ok dir c h r K Kr m ub cs space : joint dir c h r K Kr m ub -> noted h r cs -> spaced h space -> Empty h = false ->
  exists h' r' m' ub' cs' space' K', AlternativeRoutingStep g dir h r m ub cs space off = Some (h', r', m', ub', cs', space') /\
    joint dir c h' r' K' Kr m' ub' /\ noted h' r' cs' /\ spaced h' space' /\ queue r' = queue r /\
    (size K' = S (size K) \/ size K' = size K /\ Empty h' = true) /\ Empty r' = Empty r.
Proof.
  intros [Hs Ho Hc Hb] Hcs Hsp Hne. destruct Hs as (Htree & HK & [(delta & Hinv0 & Hrel & ->)|[Hem _]]); [|congruence].
  destruct (here settle_side dir c delta h Hinv0 Hrel Hne) as (v & k & d & h1 & h2 & Hdel & Hkey & Hv2 & Hvn & Hup & Hinv & Hinv2 & Hs2 & Hnew & Hreach2).
  pose proof (here up_key_bound _ _ _ Hup). pose proof (here up_key_ge _ _ _ Hup).
  destruct (scaled_distance_le k off) as (y & Hy & Hyle); [unfold lows, INT_MIN, INT_MAX in *; destruct dir; lia|].
  assert (Hj : joint dir c h r (settled h) Kr m ub) by (constructor; [split; [done|]; split; [done|]; left; by exists delta|done|done|done]).
  unfold AlternativeRoutingStep. rewrite Hdel. cbn [mbind option_bind]. rewrite Hkey. cbn [mbind option_bind]. rewrite Hy. cbn [mbind option_bind].
  destruct (negb (INVALID_EDGE_WEIGHT =? ub)%Z && (ub <? y)%Z) eqn:Hstop.
  - apply andb_true_iff in Hstop as [Hub%negb_true_iff%Z.eqb_neq Hlt%Z.ltb_lt].
    destruct (here stopped_side dir c v k h h2 (settled h) ub) as (h3 & -> & Hem3 & Hside & Hreach3); try done.
    { rewrite Hs2. by apply insert_subseteq. }
    { destruct Hb as [[-> _]|[? _]]; [done|lia]. }
    cbn [mbind option_bind]. exists h3, r, m, ub, cs, space, (settled h). split; [done|]. split; [|split; [|split; [|split; [done|split; [by right|done]]]]].
    + constructor; [done|done|done|]. destruct Hb as [Hb|(Hr & a & b & Ha & Hb & Hle)]; [by left|right]. split; [done|]. exists a, b. split_and!; [|done|done].
      by apply Hreach3, Hreach2.
    + eapply Forall_impl; [exact Hcs|]. intros u (Hu & Huh & Hur). split_and!; [done| |done]. by apply (reach_some h h3); [intros ? ? ?; by apply Hreach3, Hreach2|].
    + eapply Forall_impl; [exact Hsp|]. intros e [He Hs]. split; [done|]. by apply (reach_some h h3); [intros ? ? ?; by apply Hreach3, Hreach2|].
  - destruct (get_data_ok c h2 v k d false (si_wf _ _ _ _ _ _ _ Hinv2) Hv2) as (h3 & -> & Hwf3 & Hq3). cbn [mbind option_bind].
    destruct (note_meeting_ok dir c r v k m ub cs (proj1 Ho) Hvn Hup) as (r' & m' & ub' & cs' & -> & Hwr & Hqr & Hmet & Hcs'). cbn [mbind option_bind].
    assert (settled h3 = <[v := k]> (settled h)) as Hs3 by (rewrite <- Hs2; unfold settled; by rewrite Hq3).
    assert (forall u ku, reached h u ku -> reached h3 u ku) as Hreach3 by (intros u ku Hu; apply Hreach2 in Hu; unfold reached; by rewrite Hq3).
    destruct (relax_side dir c v k h2 h3 Hinv2 Hwf3 Hq3 Hvn Hup) as (h4 & Hrelax & Hinv4 & Hg4 & Hrel4); [by rewrite Hs3, lookup_insert_eq|].
    unfold RelaxOutgoingEdges in Hrelax. destruct (sg_GetAdjacentEdgeRange v g) as [edges|]; [|done]. cbn [mbind option_bind] in Hrelax |- *.
    rewrite Hrelax. cbn [mbind option_bind]. destruct (here continued_side dir c v k h h3 h4 ub' Hrel Hs3 Hreach3 Hinv4 Hg4 Hrel4) as [Hside Hreach4].
    do 6 eexists. exists (<[v := k]> (settled h)). split; [done|]. split; [by eapply (here joint_settled)|].
    assert (is_Some (queue h4 !! v)) as Hv4.
    { apply (reach_some h3); [intros u ku; apply reached_grow; exact Hg4|]. rewrite Hq3, Hv2. by eexists. }
    split; [|split; [|split; [done|split; [left; by rewrite map_size_insert_None|]]]].
    + assert (noted h4 r' cs) as Hold.
      { eapply Forall_impl; [exact Hcs|]. intros u (Hu & Huh & Hur). split_and!; [done|by eapply reach_some|by rewrite Hqr]. }
      destruct Hcs' as [-> |[-> Hr]]; [done|]. apply Forall_app. split; [done|]. constructor; [|constructor]. by rewrite Hqr.
    + apply Forall_app. split; [|by constructor]. eapply Forall_impl; [exact Hsp|]. intros e [He Hs]. split; [done|by eapply reach_some].
    + apply (empty_queue c); [done|exact (to_wf _ _ _ _ _ (proj1 Ho))|done].
Qed.

(** ** The loop *)

Definition searching (s : alternative_state) (K Kr : gmap N Z) : Prop :=
  joint true 0 (as_forward s) (as_reverse s) K Kr (as_middle s) (as_upper s) /\ noted (as_forward s) (as_reverse s) (as_candidates s) /\
  spaced (as_forward s) (as_forward_space s) /\ spaced (as_reverse s) (as_reverse_space s).

(** The settled nodes and the searches that have ended. *)
Definition progress (s : alternative_state) (K Kr : gmap N Z) : nat :=
  size K + size Kr + (if Empty (as_forward s) then 1 else 0) + (if Empty (as_reverse s) then 1 else 0).

Lemma size_empty h : (0 <? Size h)%N = negb (Empty h).
Proof. unfold Empty. destruct (Size h); done. Qed.

Lemma noted_swap h r cs : noted h r cs -> noted r h cs.
Proof. intros Hn. eapply Forall_impl; [exact Hn|]. naive_solver. Qed.

Lemma forward_part s K Kr : searching s K Kr -> exists s1 K1, (if (0 <? Size (as_forward s))%N then forward_step g off s else Some s) = Some s1 /\
  searching s1 K1 Kr /\ (progress s K Kr + (if Empty (as_forward s) then 0 else 1) <= progress s1 K1 Kr)%nat /\
  Empty (as_reverse s1) = Empty (as_reverse s).
Proof.
  intros (Hj & Hn & Hf & Hr). rewrite size_empty. unfold progress. destruct (Empty (as_forward s)) eqn:He; cbn [negb].
  { exists s, K. rewrite He. split_and!; [done|done|lia|done]. }
  destruct (alternative_step_ok true 0 _ _ K Kr _ _ _ (as_forward_space s) Hj Hn Hf He) as (f & r & m & u & cs & space & K1 & Hrun & Hj1 & Hn1 & Hsp & Hq & Hsz & He1).
  unfold forward_step. rewrite Hrun. cbn [mbind option_bind]. eexists _, K1. split; [done|].
  split; [split_and!; [done|done|done|unfold spaced; cbn [as_reverse]; by rewrite Hq]|]. cbn [as_forward as_reverse]. rewrite He1. split; [|done].
  destruct Hsz as [-> |[-> ->]]; destruct (Empty f); lia.
Qed.

Lemma reverse_part s K Kr : searching s K Kr -> exists s1 Kr1, (if (0 <? Size (as_reverse s))%N then reverse_step g off s else Some s) = Some s1 /\
  searching s1 K Kr1 /\ (progress s K Kr + (if Empty (as_reverse s) then 0 else 1) <= progress s1 K Kr1)%nat.
Proof.
  intros (Hj & Hn & Hf & Hr). rewrite size_empty. unfold progress. destruct (Empty (as_reverse s)) eqn:He; cbn [negb].
  { exists s, Kr. rewrite He. split_and!; [done|done|lia]. }
  destruct (alternative_step_ok false 0 _ _ Kr K _ _ _ (as_reverse_space s) (here joint_swap _ _ _ _ _ _ _ _ Hj) (noted_swap _ _ _ Hn) Hr He)
    as (r & f & m & u & cs & space & Kr1 & Hrun & Hj1 & Hn1 & Hsp & Hq & Hsz & He1).
  unfold reverse_step. rewrite Hrun. cbn [mbind option_bind]. eexists _, Kr1. split; [done|]. split.
  { split_and!; [exact (here joint_swap _ _ _ _ _ _ _ _ Hj1)|by apply noted_swap|unfold spaced; cbn [as_forward]; by rewrite Hq|done]. }
  cbn [as_forward as_reverse]. rewrite He1. destruct Hsz as [-> |[-> ->]]; destruct (Empty r); lia.
Qed.

Lemma alternative_loop_ok fuel : forall s K Kr, searching s K Kr -> (2 * N.to_nat n + 2 < fuel + progress s K Kr)%nat ->
  exists s' K' Kr', alternative_loop g fuel off s = Some s' /\ searching s' K' Kr' /\ Empty (as_forward s') = true /\ Empty (as_reverse s') = true.
Proof.
  induction fuel as [|fuel IH]; intros s K Kr Hs Hf.
  { destruct Hs as [Hj _]. pose proof (here side_size _ _ _ _ _ (jt_side _ _ _ _ _ _ _ _ _ _ _ _ Hj)).
    pose proof (here side_size _ _ _ _ _ (jt_other _ _ _ _ _ _ _ _ _ _ _ _ Hj)). unfold progress in Hf.
    destruct (Empty (as_forward s)), (Empty (as_reverse s)); lia. }
  cbn [alternative_loop]. pose proof (size_empty (as_forward s)) as Ef. pose proof (size_empty (as_reverse s)) as Er.
  destruct (N.ltb_spec 0 (Size (as_forward s) + Size (as_reverse s))) as [Hpos|Hzero].
  2:{ exists s, K, Kr. split_and!; [done|done| |]; [destruct (Empty (as_forward s))|destruct (Empty (as_reverse s))]; try done;
      (apply N.ltb_lt in Ef || apply N.ltb_lt in Er); lia. }
  destruct (forward_part s K Kr Hs) as (s1 & K1 & -> & Hs1 & Hp1 & Hr1). cbn [mbind option_bind].
  destruct (reverse_part s1 K1 Kr Hs1) as (s2 & Kr2 & -> & Hs2 & Hp2). cbn [mbind option_bind]. apply (IH s2 K1 Kr2 Hs2). rewrite Hr1 in Hp2.
  destruct (Empty (as_forward s)); [|lia]. destruct (Empty (as_reverse s)); [|lia].
  apply N.ltb_ge in Ef. apply N.ltb_ge in Er. lia.
Qed.

(** ** The result *)

(** The shortest way with its nodes, and candidates that both searches know. *)
Definition found (s : alternative_state) : Prop :=
  (tree_ok true 0 (as_forward s) /\ tree_ok false 0 (as_reverse s)) /\
  (noted (as_forward s) (as_reverse s) (as_candidates s) /\ spaced (as_forward s) (as_forward_space s) /\ spaced (as_reverse s) (as_reverse_space s)) /\
  (as_upper s = INVALID_EDGE_WEIGHT /\ (forall x, ~ leg_way E start x) \/
   as_upper s <> INVALID_EDGE_WEIGHT /\ leg_way E start (as_upper s) /\ (forall x, leg_way E start x -> (as_upper s <= x)%Z) /\
   exists p q leg, packed_shortest_path s = Some (p, q, leg) /\ leg_ok g start leg (as_upper s)).

Lemma packed_path_eq s leg : RetrievePackedPathFromHeap (as_forward s) (as_reverse s) (as_middle s) [] = Some leg ->
  exists p q, packed_shortest_path s = Some (p, q, leg).
Proof.
  unfold RetrievePackedPathFromHeap, packed_shortest_path, RetrievePackedPathFromSingleHeap.
  destruct (parents _ (as_forward s) (as_middle s) []) as [p|]; [|done]. cbn [mbind option_bind]. rewrite parents_acc.
  destruct (parents _ (as_reverse s) (as_middle s) []) as [q|]; [|done]. intros [= <-]. exists p, q. cbn [mbind option_bind]. by rewrite <- app_assoc.
Qed.

Lemma alternative_found f r : holds g 0 (start true) f -> holds g 0 (start false) r -> (forall x, leg_way E start x -> (0 <= x)%Z) ->
  exists s, alternative_loop g (3 + 2 * N.to_nat n) off (MkAlternativeState f r SPECIAL_NODEID INVALID_EDGE_WEIGHT [] [] []) = Some s /\ found s.
Proof.
  intros Hf Hr Hpos. destruct (alternative_loop_ok (3 + 2 * N.to_nat n) (MkAlternativeState f r SPECIAL_NODEID INVALID_EDGE_WEIGHT [] [] []) ∅ ∅)
    as (s & K & Kr & Hrun & [Hj Hn] & Hef & Her); [split_and!; [by apply (here fresh_joint)|constructor|constructor|constructor]|lia|].
  exists s. split; [done|]. split; [split; [exact (proj1 (jt_side _ _ _ _ _ _ _ _ _ _ _ _ Hj))|exact (proj1 (jt_other _ _ _ _ _ _ _ _ _ _ _ _ Hj))]|]. split; [done|].
  destruct (here joint_found _ _ _ _ _ _ _ Hj Hef Her Hpos) as [(Hub & _ & Hno)|(Hub & Hway & Hmin & leg & Hleg & Hok)]; [by left|right].
  destruct (packed_path_eq s leg Hleg) as (p & q & Hp). split_and!; [done|done|done|]. by exists p, q, leg.
Qed.
(** ** A search against an existing one *)

(** The length is that of a node that the search has settled and the existing
    one has reached. *)
Definition meets (K : gmap N Z) (other : QueryHeap) (m : N) (ub : Z) : Prop :=
  ub = INVALID_EDGE_WEIGHT /\ m = SPECIAL_NODEID \/
  (ub < INVALID_EDGE_WEIGHT)%Z /\ exists a b d q, K !! m = Some a /\ queue other !! m = Some (b, d, q) /\ ub = (a + b)%Z.

Lemma half_search_ok dir fuel : forall h K other m ub, side dir 0 h K ub -> tree_ok (negb dir) 0 other -> meets K other m ub ->
  (N.to_nat n < fuel + size K)%nat -> exists h' K' other' m' ub', half_search g fuel off dir h other m ub = Some (h', other', m', ub') /\
    side dir 0 h' K' ub' /\ heap_wf X 0 other' /\ queue other' = queue other /\ meets K' other' m' ub'.
Proof.
  induction fuel as [|fuel IH]; intros h K other m ub Hside Htree Hmeets Hf.
  { pose proof (here side_size _ _ _ _ _ Hside). lia. }
  cbn [half_search]. destruct (Empty h) eqn:He; [by exists h, K, other, m, ub; split_and!; try done; exact (to_wf _ _ _ _ _ Htree)|].
  destruct (here step_side dir 0 0 h K other m ub Hside Htree He) as (h1 & other1 & m1 & ub1 & v & k & -> & Hnew & Hv & Hwf1 & Hq1 & Hmet & Hside1 & _).
  cbn [mbind option_bind]. destruct (IH h1 (<[v := k]> K) other1 m1 ub1) as (h' & K' & other' & m' & ub' & Hrun & Hs' & Hwf' & Hq' & Hm').
  - done.
  - by apply (here tree_queue _ _ other).
  - destruct Hmet as [(kr & d & q & Hr & Hrange & -> & ->)|(-> & -> & _)].
    + right. split; [destruct Hmeets as [[-> _]|[? _]]; lia|]. exists k, kr, d, q. rewrite lookup_insert_eq, Hq1. split_and!; [done|done|lia].
    + destruct Hmeets as [?|(Hub & a & b & d & q & Ha & Hb & ->)]; [by left|right]. split; [done|]. exists a, b, d, q.
      rewrite Hq1, lookup_insert_ne by congruence. done.
  - rewrite map_size_insert_None by done. lia.
  - exists h', K', other', m', ub'. split_and!; [done|done|done|by rewrite Hq'|done].
Qed.

(** The nodes of the way over [m]. *)
Lemma met_path f r m ub K : tree_ok true 0 f -> tree_ok false 0 r ->
  (forall v k, K !! v = Some k -> settled f !! v = Some k) /\ meets K r m ub \/ (forall v k, K !! v = Some k -> settled r !! v = Some k) /\ meets K f m ub ->
  ub <> INVALID_EDGE_WEIGHT -> exists leg, RetrievePackedPathFromHeap f r m [] = Some leg /\ leg_ok g start leg ub.
Proof.
  intros Hf Hr [[HK Hm]|[HK Hm]] Hub; destruct Hm as [[? _]|(_ & a & b & d & q & Ha & Hb & ->)]; try done; apply HK, settled_lookup in Ha as [da Ha].
  - by eapply (here retrieve_exact).
  - rewrite Z.add_comm. by eapply (here retrieve_exact).
Qed.
End search.

(** ** A query *)

(** What the reverse heap holds: both nodes of the target. *)
Definition target_both (p : PhantomNode) : gmap N Z :=
  side_map (reverse_node_id p) (reverse_way p) (side_map (forward_node_id p) (forward_way p) ∅).

Definition query_starts (phantoms : PhantomNodes) (dir : bool) : gmap N Z :=
  if dir then source_starts (source_phantom phantoms) else target_both (target_phantom phantoms).

Lemma target_both_elem nodes M p b w : location_ok nodes M [p] -> target_both p !! b = Some w <-> (b, w) ∈ location_starts [p].
Proof.
  intros Hp. pose proof (location_nodes_differ nodes M p Hp) as Hne. rewrite elem_phantom_starts. unfold target_both, side_map.
  destruct (N.eqb_spec (forward_node_id p) SPECIAL_NODEID), (N.eqb_spec (reverse_node_id p) SPECIAL_NODEID);
    rewrite ?lookup_insert_Some, ?lookup_empty; naive_solver.
Qed.

Lemma query_ways nodes M E phantoms x : location_ok nodes M [source_phantom phantoms] -> location_ok nodes M [target_phantom phantoms] ->
  leg_way E (query_starts phantoms) x <-> way E [source_phantom phantoms] [target_phantom phantoms] x.
Proof.
  intros Hs Ht. unfold leg_way, way. cbn [query_starts]. setoid_rewrite (source_starts_elem nodes M _ _ _ Hs).
  setoid_rewrite (target_both_elem nodes M _ _ _ Ht). split.
  - intros (a & ka & b & kb & l & (wa & Ha & ->) & Hb & Hp & ->). exists a, wa, b, kb, l. split_and!; try done. lia.
  - intros (a & wa & b & wb & l & Ha & Hb & Hp & ->). exists a, (- wa)%Z, b, wb, l. split_and!; [by exists wa|done|done|lia].
Qed.

Section query.
  Context (g : QueryGraph) (E : arcs) (W M B : Z) (phantoms : PhantomNodes).
  Abbreviation n := (sg_number_of_nodes g).
  Abbreviation sp := (source_phantom phantoms).
  Abbreviation tp := (target_phantom phantoms).
  Abbreviation holds := (holds g).
  Hypothesis g_wf : static_wf g.
  Hypothesis g_small : (n < 2147483647)%N.
  Hypothesis g_weights : weights_ok W g.
  Hypothesis g_rep : represents g E.
  Hypothesis g_bound : forall dir, upward_bound dir g B.
  Hypothesis source_ok : location_ok n M [sp].
  Hypothesis target_ok : location_ok n M [tp].
  Hypothesis room : (0 <= M /\ 0 <= B /\ 0 <= W /\ 2 * (M + B) + W < INT_MAX)%Z.
  Hypothesis positive : forall s, way E [sp] [tp] s -> (0 <= s)%Z.
  #[local] Set Default Proof Using "All".

Abbreviation here lem := (lem g E W M B phantoms g_wf g_small g_weights g_rep g_bound source_ok target_ok room positive).

Lemma insert_node_ok (sign : Z -> option Z) (m : gmap N Z) (h : QueryHeap) v weight w k :
  holds 0 m h -> insertable g M m v weight w -> ((0 <= w <= M)%Z -> sign w = Some k /\ (INT_MIN <= k)%Z) ->
  exists h', (if negb (SPECIAL_NODEID =? v)%N then w ← weight; k ← sign w; Insert v k (MkHeapData v) h else Some h) = Some h' /\ holds 0 (side_map v k m) h'.
Proof.
  intros Hh [Hm Hv] Hsign. unfold side_map. rewrite N.eqb_sym. destruct (N.eqb_spec v SPECIAL_NODEID) as [->|Hne]; cbn [negb]; [by exists h|].
  destruct (Hv Hne) as (Hvn & Hnone & -> & Hw). destruct (Hsign Hw) as [Hk Hmin]. cbn [mbind option_bind]. rewrite Hk. cbn [mbind option_bind].
  by apply (here holds_insert).
Qed.

Lemma insert_phantom_ok (sign : Z -> option Z) (f : Z -> Z) (h : QueryHeap) p : location_ok n M [p] -> holds 0 ∅ h ->
  (forall w, (0 <= w <= M)%Z -> sign w = Some (f w) /\ (INT_MIN <= f w)%Z) ->
  exists h', insert_phantom sign h p = Some h' /\
    holds 0 (side_map (reverse_node_id p) (f (reverse_way p)) (side_map (forward_node_id p) (f (forward_way p)) ∅)) h'.
Proof.
  intros Hp Hh Hsign. unfold insert_phantom.
  destruct (insert_node_ok sign ∅ h (forward_node_id p) (GetForwardWeightPlusOffset p) (forward_way p) (f (forward_way p))) as (h1 & -> & H1); [done| |apply Hsign|].
  { apply (here forward_insertable); [done| |done]. intros u k. by rewrite lookup_empty. }
  cbn [mbind option_bind]. apply (insert_node_ok sign _ h1 _ _ (reverse_way p)); [done| |apply Hsign].
  apply (here reverse_insertable); [done| |]; unfold side_map; destruct (N.eqb_spec (forward_node_id p) SPECIAL_NODEID) as [|Hne].
  - intros u k. by rewrite lookup_empty.
  - intros u k [[<- _]|[_ ?]]%lookup_insert_Some; [|by rewrite lookup_empty in *].
    apply (location_in_range n M p (forward_node_id p) (forward_way p) Hp), elem_phantom_starts. tauto.
  - done.
  - intros Hr. rewrite lookup_insert_ne; [done|]. by eapply location_nodes_differ.
Qed.

Lemma source_offset_ok : exists off, source_offset sp = Some off /\ (- M <= off <= 0)%Z /\ forall v k, source_starts sp !! v = Some k -> (off <= k)%Z.
Proof.
  assert (exists a, GetForwardWeightPlusOffset sp = Some a /\ (0 <= a <= M)%Z /\ (forward_node_id sp <> SPECIAL_NODEID -> a = forward_way sp)) as (a & Ha & Har & Haw).
  { unfold GetForwardWeightPlusOffset. destruct (N.eqb_spec SPECIAL_NODEID (forward_node_id sp)) as [Heq|Hne]; [exists 0%Z; split_and!; [done|lia|lia|congruence]|].
    destruct (location_in_range n M sp (forward_node_id sp) (forward_way sp) source_ok) as [_ Hw]; [apply elem_phantom_starts; left; split_and!; congruence|].
    exists (forward_way sp). split_and!; [|lia|lia|done]. apply iadd_Some. unfold forward_way, INT_MIN, INT_MAX in *. lia. }
  assert (exists b, GetReverseWeightPlusOffset sp = Some b /\ (0 <= b <= M)%Z /\ (reverse_node_id sp <> SPECIAL_NODEID -> b = reverse_way sp)) as (b & Hb & Hbr & Hbw).
  { unfold GetReverseWeightPlusOffset. destruct (N.eqb_spec SPECIAL_NODEID (reverse_node_id sp)) as [Heq|Hne]; [exists 0%Z; split_and!; [done|lia|lia|congruence]|].
    destruct (location_in_range n M sp (reverse_node_id sp) (reverse_way sp) source_ok) as [_ Hw]; [apply elem_phantom_starts; right; split_and!; congruence|].
    exists (reverse_way sp). split_and!; [|lia|lia|done]. apply iadd_Some. unfold reverse_way, INT_MIN, INT_MAX in *. lia. }
  unfold source_offset, ineg. rewrite Ha. cbn [mbind option_bind]. rewrite i32_Some by (unfold INT_MIN, INT_MAX in *; lia). cbn [mbind option_bind].
  rewrite Hb. cbn [mbind option_bind]. rewrite i32_Some by (unfold INT_MIN, INT_MAX in *; lia). cbn [mbind option_bind].
  exists (Z.min (Z.min 0 (- a)) (- b)). split; [done|]. split; [lia|]. intros v k Hv.
  apply (source_starts_elem n M) in Hv as (w & Hin & ->); [|done]. apply elem_phantom_starts in Hin as [(Hne & _ & ->)|(Hne & _ & ->)].
  - specialize (Haw Hne). lia.
  - specialize (Hbw Hne). lia.
Qed.

Lemma alternative_search_ok f r : holds 0 ∅ f -> holds 0 ∅ r -> exists off s, alternative_search g phantoms f r = Some (off, s) /\
  found g E (query_starts phantoms) s /\ (- M <= off <= 0)%Z /\ forall v k, source_starts sp !! v = Some k -> (off <= k)%Z.
Proof.
  intros Hf Hr. destruct source_offset_ok as (off & Hoff & Hrange & Hlow).
  destruct (insert_phantom_ok ineg Z.opp f sp source_ok Hf) as (f' & Hf' & Hhf).
  { intros w Hw. unfold ineg. rewrite i32_Some by (unfold INT_MIN, INT_MAX in *; lia). split; [done|unfold INT_MIN, INT_MAX in *; lia]. }
  destruct (insert_phantom_ok Some id r tp target_ok Hr) as (r' & Hr' & Hhr); [intros w Hw; split; [done|unfold INT_MIN, id; lia]|].
  destruct (alternative_found g E (query_starts phantoms) W M B off g_wf g_small g_weights g_rep g_bound) with (f := f') (r := r') as (s & Hs & Hfound).
  - intros v k Hv. pose proof (Hlow v k Hv). apply (source_starts_elem n M) in Hv as (w & Hin & ->); [|done].
    destruct (location_in_range n M sp v w source_ok Hin). split; [done|lia].
  - intros v k Hv. apply (target_both_elem n M) in Hv; [|done]. by apply (location_in_range n M tp v k target_ok).
  - unfold INT_MIN, INT_MAX in *. lia.
  - exact Hhf.
  - exact Hhr.
  - intros x Hx. by apply positive, (query_ways n M).
  - exists off, s. split; [|done]. unfold alternative_search. rewrite Hoff. cbn [mbind option_bind]. rewrite Hf'. cbn [mbind option_bind].
    rewrite Hr'. cbn [mbind option_bind]. by rewrite Hs.
Qed.
End query.
