(* ===== verification/AlternativeTheorems.v ===== *)
(** * RoutingAlgorithms/AlternativePathRouting.h: the routes that are returned

    Both routes of a query are ways between the two points: the first one is a
    shortest way, and an alternative is a path of the hierarchy of the length
    that is reported for it. *)

From Stdlib Require Import Floats.SpecFloat.
From stdpp Require Import sorting.
From S2P Require Import Prelude Types Float32 Paths Edges Storage BinaryHeap DynamicGraph StaticGraph Text Routing QuerySearch DistanceTable.
From S2P Require Import Unpacking ShortestPath RouteSearch RouteLeg AlternativeRoutes AlternativeSearch.

(** ** Lists *)

Lemma unique_subset l : unique l ⊆ l.
Proof.
  induction l as [|a [|b l] IH]; [done|done|]. change (unique (a :: b :: l)) with (if (a =? b)%N then unique (b :: l) else a :: unique (b :: l)).
  destruct (a =? b)%N; set_solver.
Qed.

Lemma sort_unique_subset l : sort_unique_resize l ⊆ l.
Proof. intros x Hx%unique_subset. by rewrite (merge_sort_Permutation N.le l) in Hx. Qed.

(** ** A node in between *)

Lemma tree_ext g start start' dir c h : start dir = start' dir -> tree_ok g start dir c h -> tree_ok g start' dir c h.
Proof. intros Heq [Hwf Hk Hp]. rewrite Heq in Hk, Hp. by constructor. Qed.

Section query.
  Context (g : QueryGraph) (E : arcs) (W M B off : Z) (phantoms : PhantomNodes).
  Abbreviation n := (sg_number_of_nodes g).
  Abbreviation sp := (source_phantom phantoms).
  Abbreviation tp := (target_phantom phantoms).
  Abbreviation holds := (holds g).
  Hypothesis g_wf : static_wf g.
  Hypothesis g_small : (n < 2147483647)%N.
  Hypothesis g_weights : weights_ok W g.
  Hypothesis g_rep : represents g E.
  Hypothesis g_bound : forall dir, upward_bound dir g B.
  Hypothesis source_ok : location_ok n M [sp].
  Hypothesis target_ok : location_ok n M [tp].
  Hypothesis room : (0 <= M /\ 0 <= B /\ 0 <= W /\ 2 * (M + B) + W < INT_MAX)%Z.
  Hypothesis positive : forall s, way E [sp] [tp] s -> (0 <= s)%Z.
  Hypothesis off_range : (- M <= off <= 0)%Z.
  Hypothesis off_low : forall v k, source_starts sp !! v = Some k -> (off <= k)%Z.
  #[local] Set Default Proof Using "All".

Abbreviation point lem := (lem g E W M B phantoms g_wf g_small g_weights g_rep g_bound source_ok target_ok room positive).
Abbreviation tree := (tree_ok g (query_starts phantoms)).

(** The starts of the searches from the source to [via] and on to the target. *)
Definition starts_to (via : N) (dir : bool) : gmap N Z := if dir then source_starts sp else {[via := 0%Z]}.
Definition starts_from (via : N) (dir : bool) : gmap N Z := if dir then {[via := 0%Z]} else target_both tp.

Lemma source_range s k : source_starts sp !! s = Some k -> (s < n)%N /\ (off <= k <= M)%Z.
Proof.
  intros Hs. pose proof (off_low s k Hs). apply (source_starts_elem n M) in Hs as (w & Hin & ->); [|done].
  destruct (location_in_range n M sp s w source_ok Hin). split; [done|lia].
Qed.

Lemma target_range s k : target_both tp !! s = Some k -> (s < n)%N /\ (0 <= k <= M)%Z.
Proof. intros Hs. apply (target_both_elem n M) in Hs; [|done]. by apply (location_in_range n M tp s k target_ok). Qed.

Lemma via_range via s k : (via < n)%N -> ({[via := 0%Z]} : gmap N Z) !! s = Some k -> (s < n)%N /\ k = 0%Z.
Proof. intros Hv [<- <-]%lookup_singleton_Some. done. Qed.

Lemma wide_room : (INT_MIN <= 2 * off /\ off <= 0 /\ 0 <= M /\ 0 <= B /\ 0 <= W /\ 2 * (M + B) + W < INT_MAX)%Z.
Proof. unfold INT_MIN, INT_MAX in *. lia. Qed.

Abbreviation leg lem starts H1 H2 := (lem g E starts W M B off g_wf g_small g_weights g_rep g_bound H1 H2 wide_room).

Lemma insert_via (h : QueryHeap) via : (via < n)%N -> exists h', Insert via 0 (MkHeapData via) (Clear h) = Some h' /\ holds 0 {[via := 0%Z]} h'.
Proof. intros Hv. apply (point holds_insert ∅); [apply (point holds_clear)|done|done|done|]. intros u k. by rewrite lookup_empty. Qed.

Lemma search_to via (f1 r2 : QueryHeap) : (via < n)%N -> tree true 0 f1 -> exists r2' f1' m ub,
  search_from g off false via (Clear r2) f1 = Some (r2', f1', m, ub) /\ tree true 0 f1' /\ (ub = INVALID_EDGE_WEIGHT \/
    exists leg, RetrievePackedPathFromHeap f1' r2' m [] = Some leg /\ leg_ok g (starts_to via) leg ub).
Proof.
  intros Hv Hf. unfold search_from. destruct (insert_via r2 via Hv) as (r & -> & Hr). cbn [mbind option_bind].
  assert (forall s k, starts_to via true !! s = Some k -> (s < n)%N /\ (off <= k <= M)%Z) as H1 by (intros s k; apply source_range).
  assert (forall s k, starts_to via false !! s = Some k -> (s < n)%N /\ (0 <= k <= M)%Z) as H2.
  { intros s k Hs. apply (via_range via) in Hs as [? ->]; [|done]. split; [done|lia]. }
  assert (tree_ok g (starts_to via) true 0 f1) as Hf' by (by apply (tree_ext _ (query_starts phantoms))).
  destruct (leg half_search_ok (starts_to via) H1 H2 false (S (N.to_nat n)) r ∅ f1 SPECIAL_NODEID INVALID_EDGE_WEIGHT)
    as (r' & K & f' & m & ub & -> & Hside & Hwf & Hq & Hm); [by apply (leg fresh_side (starts_to via) H1 H2)|done|by left|lia|].
  assert (tree_ok g (starts_to via) true 0 f') as Ht by (by apply (leg tree_queue (starts_to via) H1 H2) with (h := f1)).
  exists r', f', m, ub. split_and!; [done|by apply (tree_ext _ (starts_to via))|]. destruct (Z.eq_dec ub INVALID_EDGE_WEIGHT) as [|Hub]; [by left|right].
  apply (leg met_path (starts_to via) H1 H2 f' r' m ub K Ht (proj1 Hside)); [|done].
  right. split; [exact (proj1 (proj2 Hside))|done].
Qed.

Lemma search_onwards via (f2 r1 : QueryHeap) : (via < n)%N -> tree false 0 r1 -> exists f2' r1' m ub,
  search_from g off true via (Clear f2) r1 = Some (f2', r1', m, ub) /\ tree false 0 r1' /\ (ub = INVALID_EDGE_WEIGHT \/
    exists leg, RetrievePackedPathFromHeap f2' r1' m [] = Some leg /\ leg_ok g (starts_from via) leg ub).
Proof.
  intros Hv Hr. unfold search_from. destruct (insert_via f2 via Hv) as (f & -> & Hf). cbn [mbind option_bind].
  assert (forall s k, starts_from via true !! s = Some k -> (s < n)%N /\ (off <= k <= M)%Z) as H1.
  { intros s k Hs. apply (via_range via) in Hs as [? ->]; [|done]. split; [done|lia]. }
  assert (forall s k, starts_from via false !! s = Some k -> (s < n)%N /\ (0 <= k <= M)%Z) as H2 by (intros s k; apply target_range).
  assert (tree_ok g (starts_from via) false 0 r1) as Hr' by (by apply (tree_ext _ (query_starts phantoms))).
  destruct (leg half_search_ok (starts_from via) H1 H2 true (S (N.to_nat n)) f ∅ r1 SPECIAL_NODEID INVALID_EDGE_WEIGHT)
    as (f' & K & r' & m & ub & -> & Hside & Hwf & Hq & Hm); [by apply (leg fresh_side (starts_from via) H1 H2)|done|by left|lia|].
  assert (tree_ok g (starts_from via) false 0 r') as Ht by (by apply (leg tree_queue (starts_from via) H1 H2) with (h := r1)).
  exists f', r', m, ub. split_and!; [done|by apply (tree_ext _ (starts_from via))|]. destruct (Z.eq_dec ub INVALID_EDGE_WEIGHT) as [|Hub]; [by left|right].
  apply (leg met_path (starts_from via) H1 H2 f' r' m ub K (proj1 Hside) Ht); [|done].
  left. split; [exact (proj1 (proj2 Hside))|done].
Qed.

(** Two ways that meet at [via] make a way between the points. *)
Lemma joined_leg via l1 l2 a b : leg_ok g (starts_to via) l1 a -> leg_ok g (starts_from via) l2 b -> leg_between g phantoms (vpop l1 ++ l2) (a + b).
Proof.
  intros (n1 & s & ks & v & kv & Hp1 & Hh1 & Hl1 & Hs & Hv & ->) (n2 & v' & kv' & t & kt & Hp2 & Hh2 & Hl2 & Hv' & Ht & ->).
  cbn [starts_to starts_from] in *. apply lookup_singleton_Some in Hv as [<- <-]. apply lookup_singleton_Some in Hv' as [<- <-].
  destruct l1 as [|v l1 _] using rev_ind; [done|]. rewrite last_snoc in Hl1. injection Hl1 as ->. destruct l2 as [|v l2]; [done|]. injection Hh2 as ->.
  assert (vpop (l1 ++ [via]) = l1) as ->.
  { unfold vpop. rewrite length_app. cbn. by rewrite Nat.add_sub, take_app_length. }
  apply (source_starts_elem n M) in Hs as (ws & Hs & ->); [|done]. apply (target_both_elem n M) in Ht; [|done].
  exists (n1 + n2)%N, s, ws, t, kt. split_and!; [by apply (node_path_join _ l1 via l2)|by destruct l1| |done|done|lia].
  rewrite last_app. cbn [app] in *. by rewrite Hl2.
Qed.

(** ** The choice of the alternative *)

Definition heaps_ok (h : alternative_heaps) : Prop := tree true 0 (ah_f1 h) /\ tree false 0 (ah_r1 h).

(** The alternative over the chosen node. *)
Definition selected_ok (h : alternative_heaps) (x : Z * N * N) : Prop :=
  exists l, RetrievePackedAlternatePath h x.1.2 x.2 = Some l /\ leg_between g phantoms l x.1.1.

Lemma via_path_heaps fuel via p h x : heaps_ok h -> (via < n)%N -> ComputeLengthAndSharingOfViaPath g fuel via p off h = Some x -> heaps_ok x.2.
Proof.
  intros [Hf Hr] Hv. unfold ComputeLengthAndSharingOfViaPath.
  destruct (search_to via (ah_f1 h) (ah_r2 h) Hv Hf) as (r2 & f1 & m & ub & -> & Hf1 & _). cbn [mbind option_bind].
  destruct (search_onwards via (ah_f2 h) (ah_r1 h) Hv Hr) as (f2 & r1 & m' & ub' & -> & Hr1 & _). cbn [mbind option_bind].
  destruct (iadd ub ub') as [len|]; [|done]. cbn [mbind option_bind].
  destruct ((SPECIAL_NODEID =? m) || (SPECIAL_NODEID =? m'))%N; [by intros [= <-]|].
  destruct (RetrievePackedPathFromHeap f1 r2 m []) as [q1|]; [|done]. cbn [mbind option_bind].
  destruct (RetrievePackedPathFromHeap f2 r1 m' []) as [q2|]; [|done]. cbn [mbind option_bind].
  destruct (sharing_of_paths g fuel q1 q2 p) as [sh|]; [|done]. by intros [= <-].
Qed.

Lemma t_test_result fuel c x h res h' : heaps_ok h -> (rc_node c < n)%N -> ViaNodeCandidatePassesTTest g fuel c x off h = Some (res, h') ->
  heaps_ok h' /\ forall y, res = Some y -> selected_ok h' y.
Proof.
  intros [Hf Hr] Hv. unfold ViaNodeCandidatePassesTTest.
  destruct (search_to (rc_node c) (ah_f1 h) (ah_r2 h) Hv Hf) as (r2 & f1 & m & ub & -> & Hf1 & Hleg1). cbn [mbind option_bind].
  destruct (Z.eqb_spec INVALID_EDGE_WEIGHT ub) as [|Hub]; [by intros [= <- <-]|].
  destruct (search_onwards (rc_node c) (ah_f2 h) (ah_r1 h) Hv Hr) as (f2 & r1 & m' & ub' & -> & Hr1 & Hleg2). cbn [mbind option_bind].
  destruct (Z.eqb_spec INVALID_EDGE_WEIGHT ub') as [|Hub']; [by intros [= <- <-]|].
  destruct Hleg1 as [?|(l1 & Hl1 & Hok1)]; [congruence|]. destruct Hleg2 as [?|(l2 & Hl2 & Hok2)]; [congruence|].
  destruct (iadd ub ub') as [len|] eqn:Hlen; [|done]. apply iadd_inv in Hlen as [-> _]. cbn [mbind option_bind].
  rewrite Hl1. cbn [mbind option_bind]. rewrite Hl2. cbn [mbind option_bind].
  destruct ((SPECIAL_NODEID =? m) || (SPECIAL_NODEID =? m'))%N; [by intros [= <- <-]|].
  destruct (truncate _) as [threshold|]; [|done]. cbn [mbind option_bind].
  destruct (t_end g fuel true threshold l1 m) as [[[sP su]|]|]; [|by intros [= <- <-]|done]. cbn [mbind option_bind].
  destruct (t_end g fuel false threshold l2 m') as [[[tP tu]|]|]; [|by intros [= <- <-]|done]. cbn [mbind option_bind].
  destruct (iadd su tu) as [tl|]; [|done]. cbn [mbind option_bind]. destruct (Insert sP _ _ _) as [f3|]; [|done]. cbn [mbind option_bind].
  destruct (Insert tP _ _ _) as [r3|]; [|done]. cbn [mbind option_bind]. destruct (route_search g off f3 r3) as [[[[f3' r3'] mm] uu]|]; [|done].
  intros [= <- <-]. split; [done|]. intros y Hy. destruct (uu <=? tl)%Z; [|done]. injection Hy as <-.
  exists (vpop l1 ++ l2). split; [|by eapply joined_leg]. unfold RetrievePackedAlternatePath. cbn [ah_f1 ah_r1 ah_f2 ah_r2 fst snd].
  rewrite Hl1. cbn [mbind option_bind]. by rewrite Hl2.
Qed.

Lemma select_result fuel cs x : forall h res h', heaps_ok h -> Forall (fun c => (rc_node c < n)%N) cs -> select_candidate g fuel cs x off h = Some (res, h') ->
  heaps_ok h' /\ forall y, res = Some y -> selected_ok h' y.
Proof.
  induction cs as [|c cs IH]; intros h res h' Hh HF; cbn [select_candidate]; [by intros [= <- <-]|]. apply Forall_cons in HF as [Hc HF].
  destruct (ViaNodeCandidatePassesTTest g fuel c x off h) as [[r h1]|] eqn:Et; [|done]. cbn [mbind option_bind].
  destruct (t_test_result fuel c x h r h1 Hh Hc Et) as [Hh1 Hr]. destruct r as [y|]; [|by apply IH]. intros [= <- <-]. split; [done|exact Hr].
Qed.

(** Reading a key changes neither the tree nor its entries. *)
Lemma key_tree dir (h0 h h' : QueryHeap) v k : tree dir 0 h -> queue h = queue h0 -> is_Some (queue h0 !! v) -> GetKey v h = Some (k, h') ->
  tree dir 0 h' /\ queue h' = queue h0.
Proof.
  intros Ht Hq [[[k' d] q] Hv]. rewrite <- Hq in Hv.
  assert (forall s k, query_starts phantoms true !! s = Some k -> (s < n)%N /\ (off <= k <= M)%Z) as H1 by (intros ? ?; apply source_range).
  assert (forall s k, query_starts phantoms false !! s = Some k -> (s < n)%N /\ (0 <= k <= M)%Z) as H2 by (intros ? ?; apply target_range).
  destruct (leg get_key_side (query_starts phantoms) H1 H2 dir 0 h v k' d q (to_wf _ _ _ _ _ Ht) Hv) as (h1 & -> & Hwf & Hq1). intros [= -> <-].
  split; [by apply (leg tree_queue (query_starts phantoms) H1 H2) with (h := h)|by rewrite Hq1].
Qed.

Lemma sharing_heap dir nodes (h0 : QueryHeap) space m h' : tree dir 0 h0 -> spaced g h0 space ->
  fold_m (note_sharing nodes) (∅, h0) space = Some (m, h') -> tree dir 0 h' /\ queue h' = queue h0.
Proof.
  intros Ht Hsp. apply (fold_m_inv (note_sharing nodes) (fun s => tree dir 0 s.2 /\ queue s.2 = queue h0) space); [done|].
  intros [u v] [m1 h1] [m2 h2] Hin [Ht1 Hq1]. unfold note_sharing. cbn [snd] in *. case_bool_decide; [|by intros [= <- <-]].
  destruct (GetKey v h1) as [[k h3]|] eqn:Ek; [|done]. intros [= <- <-]. unfold spaced in Hsp. rewrite Forall_forall in Hsp.
  eapply key_tree; [done|done|exact (proj2 (Hsp _ Hin))|done].
Qed.

Lemma preselect_heaps upper fs rs (f0 r0 : QueryHeap) cs pre f r : tree true 0 f0 -> tree false 0 r0 -> noted g f0 r0 cs ->
  fold_m (preselect upper fs rs) ([], f0, r0) cs = Some (pre, f, r) -> tree true 0 f /\ tree false 0 r /\ Forall (fun v => (v < n)%N) pre.
Proof.
  intros Hf Hr Hn Hrun. unfold noted in Hn. rewrite Forall_forall in Hn.
  destruct (fold_m_inv (preselect upper fs rs) (fun s => (tree true 0 s.1.2 /\ queue s.1.2 = queue f0) /\ (tree false 0 s.2 /\ queue s.2 = queue r0) /\
    Forall (fun v => (v < n)%N) s.1.1) cs) with (s := ([] : list N, f0, r0)) (s' := (pre, f, r)) as ([? _] & [? _] & ?); [done| |done|done].
  intros v [[p1 f1] r1] [[p2 f2] r2] Hin ([Hf1 Hq1] & [Hr1 Hq2] & HF). cbn [fst snd] in *. unfold preselect. destruct (Hn v Hin) as (Hv & Hvf & Hvr).
  destruct (iadd _ _) as [sh|]; [|done]. cbn [mbind option_bind]. destruct (GetKey v f1) as [[fk f3]|] eqn:Ef; [|done]. cbn [mbind option_bind].
  destruct (GetKey v r1) as [[rk r3]|] eqn:Er; [|done]. cbn [mbind option_bind]. destruct (iadd fk rk) as [len|]; [|done]. cbn [mbind option_bind].
  destruct (isub len sh) as [x|]; [|done]. cbn [mbind option_bind]. destruct (isub upper sh) as [y|]; [|done]. intros [= <- <- <-].
  split; [by eapply key_tree|]. split; [by eapply key_tree|]. destruct (_ && _ && _); [|done]. apply Forall_app. by split; [|constructor].
Qed.

Lemma ranked_result sort_ranked fuel f s p q l h cs h' : m_query_graph f = g -> (forall l, sort_ranked l ≡ₚ l) -> heaps_ok h ->
  noted g (ah_f1 h) (ah_r1 h) (as_candidates s) -> spaced g (ah_f1 h) (as_forward_space s) -> spaced g (ah_r1 h) (as_reverse_space s) ->
  ranked_candidates sort_ranked fuel f off s p q l h = Some (cs, h') -> heaps_ok h' /\ Forall (fun c => (rc_node c < n)%N) cs.
Proof.
  intros Hg Hsort [Hf Hr] Hn Hsf Hsr. unfold ranked_candidates. rewrite Hg.
  destruct (fold_m _ (∅, ah_f1 h) _) as [[fs f1]|] eqn:Ef; [|done]. destruct (sharing_heap true _ _ _ _ _ Hf Hsf Ef) as [Hf1 Hq1]. cbn [mbind option_bind].
  destruct (fold_m _ (∅, ah_r1 h) _) as [[rs r1]|] eqn:Er; [|done]. destruct (sharing_heap false _ _ _ _ _ Hr Hsr Er) as [Hr1 Hq2]. cbn [mbind option_bind].
  destruct (fold_m _ ([], f1, r1) _) as [[[pre f2] r2]|] eqn:Ep; [|done]. cbn [mbind option_bind].
  assert (noted g f1 r1 (sort_unique_resize (as_candidates s))) as Hn1.
  { unfold noted in *. rewrite Hq1, Hq2. rewrite Forall_forall in Hn |- *. intros v Hv%sort_unique_subset. by apply Hn. }
  destruct (preselect_heaps _ _ _ f1 r1 _ pre f2 r2 Hf1 Hr1 Hn1 Ep) as (Hf2 & Hr2 & Hpre).
  destruct (fold_m _ ([], _) pre) as [[ranked h3]|] eqn:Ek; [|done]. intros [= <- <-].
  assert (heaps_ok h3 /\ Forall (fun c => (rc_node c < n)%N) ranked) as [Hh3 HF]; [|split; [done|by rewrite Hsort]].
  eapply (fold_m_inv (rank_candidate g fuel (as_upper s) off l) (fun x => heaps_ok x.2 /\ Forall (fun c => (rc_node c < n)%N) x.1) pre) with (3 := Ek).
  - by split; [split|constructor].
  - intros v [r3 h4] [r4 h5] Hin [Hh4 HF]. unfold rank_candidate. cbn [fst snd] in *. rewrite Forall_forall in Hpre.
    destruct (ComputeLengthAndSharingOfViaPath g fuel v l off h4) as [[[len sh] h6]|] eqn:Ec; [|done]. cbn [mbind option_bind].
    destruct (truncate _) as [t|]; [|done]. intros [= <- <-]. split; [by apply (via_path_heaps fuel v l h4 (len, sh, h6) Hh4 (Hpre v Hin))|].
    destruct (_ && _); [|done]. apply Forall_app. split; [done|]. constructor; [by apply Hpre|constructor].
Qed.
End query.

(** ** The result *)

Lemma leg_ok_points g M phantoms l x : location_ok (sg_number_of_nodes g) M [source_phantom phantoms] ->
  location_ok (sg_number_of_nodes g) M [target_phantom phantoms] -> leg_ok g (query_starts phantoms) l x -> leg_between g phantoms l x.
Proof.
  intros Hs Ht (len & a & ka & b & kb & Hp & Hh & Hl & Ha & Hb & ->). cbn [query_starts] in *.
  apply (source_starts_elem (sg_number_of_nodes g) M) in Ha as (wa & Ha & ->); [|done]. apply (target_both_elem (sg_number_of_nodes g) M) in Hb; [|done]. exists len, a, wa, b, kb. split_and!; try done. lia.
Qed.

(** What the last steps store. *)
Lemma routes_added fuel f phantoms l x raw sel h raw1 raw2 : unpacked_path_segments raw = [] ->
  (forall y, sel = Some y -> selected_ok (m_query_graph f) phantoms h y) ->
  add_shortest fuel f phantoms l x raw = Some raw1 -> add_alternative fuel f phantoms sel h raw1 = Some raw2 ->
  shortest_path_length raw2 = x /\ (exists segment, UnpackPath fuel f l phantoms [] = Some segment /\ unpacked_path_segments raw2 = [segment]) /\
  (alternative_path_length raw2 = alternative_path_length raw /\ unpacked_alternative raw2 = unpacked_alternative raw \/
   exists l', leg_between (m_query_graph f) phantoms l' (alternative_path_length raw2) /\
     UnpackPath fuel f l' phantoms (unpacked_alternative raw) = Some (unpacked_alternative raw2)).
Proof.
  intros Hraw Hsel. unfold add_shortest. rewrite Hraw. destruct (head l) as [front|]; [|done]. cbn [mbind option_bind].
  destruct (vback l) as [back|]; [|done]. cbn [mbind option_bind]. change (vresize [] 1 []) with [@nil PathData].
  change (vget [@nil PathData] 0) with (Some (@nil PathData)). cbn [mbind option_bind].
  destruct (UnpackPath fuel f l phantoms []) as [segment|]; [|done]. cbn [mbind option_bind]. change (vset [[]] 0 segment) with (Some [segment]).
  cbn [mbind option_bind]. intros [= <-]. unfold add_alternative. destruct sel as [[[len sv] vt]|].
  2:{ intros [= <-]. split; [done|]. split; [by exists segment|by left]. }
  destruct (Hsel _ eq_refl) as (l' & Hl' & Hb). cbn [fst snd] in *. rewrite Hl'. cbn [mbind option_bind].
  destruct (head l') as [front'|]; [|done]. cbn [mbind option_bind]. destruct (vback l') as [back'|]; [|done].
  cbn [mbind option_bind unpacked_alternative]. destruct (UnpackPath fuel f l' phantoms (unpacked_alternative raw)) as [u|] eqn:Eu; [|done]. intros [= <-].
  split; [done|]. split; [by exists segment|right]. by exists l'.
Qed.

(** ** Properties *)


(** ** A network with two routes *)

(** From node 0 to node 3 over node 1 with length 20, or over node 2 with
    length 21. *)
Definition diamond : QueryGraph := StaticGraph_swap [0; 2; 2; 2; 4]%N
  [MkEdge 1%N (MkQueryEdgeData 0 false 10 true false); MkEdge 2%N (MkQueryEdgeData 1 false 10 true false);
   MkEdge 1%N (MkQueryEdgeData 2 false 10 false true); MkEdge 2%N (MkQueryEdgeData 3 false 11 false true)].

Definition diamond_arcs : arcs := fun u v w => (u, v, w) ∈ [(0, 1, 10); (0, 2, 10); (1, 3, 10); (2, 3, 11)]%N.

Definition diamond_facade : InternalDataFacade :=
  MkFacade diamond [5; 6; 7; 8]%N [1; 1; 2; 2]%N [0; 0; 2; 3]%N [1; 1; 1; 1]%N [false; false; false; false] [] [].

Definition diamond_phantoms : PhantomNodes := MkPhantomNodes (at_node 0 0) (at_node 3 0).

Lemma diamond_adj u e : (u < 4)%N -> e ∈ sadj diamond u ->
  (u = 0%N /\ (e = MkEdge 1%N (MkQueryEdgeData 0 false 10 true false) \/ e = MkEdge 2%N (MkQueryEdgeData 1 false 10 true false))) \/
  (u = 3%N /\ (e = MkEdge 1%N (MkQueryEdgeData 2 false 10 false true) \/ e = MkEdge 2%N (MkQueryEdgeData 3 false 11 false true))).
Proof.
  intros Hu He. assert (u = 0 \/ u = 1 \/ u = 2 \/ u = 3)%N as [->|[->|[->| ->]]] by lia; vm_compute in He; set_solver.
Qed.

Lemma diamond_graph_arcs dir u v w : graph_arcs dir diamond u v w <->
  (if dir then u = 0 /\ (v = 1 /\ w = 10 \/ v = 2 /\ w = 10) else u = 3 /\ (v = 1 /\ w = 10 \/ v = 2 /\ w = 11))%N.
Proof.
  split.
  - intros (e & He & Hu & <- & Hd & Hw). destruct (diamond_adj _ _ Hu He) as [[-> [-> | ->]]|[-> [-> | ->]]]; destruct dir; simpl in *; try done; lia.
  - destruct dir; intros (-> & [[-> ->]|[-> ->]]).
    + exists (MkEdge 1%N (MkQueryEdgeData 0 false 10 true false)). split_and!; [vm_compute; by left|done..].
    + exists (MkEdge 2%N (MkQueryEdgeData 1 false 10 true false)). split_and!; [vm_compute; by right; left|done..].
    + exists (MkEdge 1%N (MkQueryEdgeData 2 false 10 false true)). split_and!; [vm_compute; by left|done..].
    + exists (MkEdge 2%N (MkQueryEdgeData 3 false 11 false true)). split_and!; [vm_compute; by right; left|done..].
Qed.

Lemma diamond_arc u v w : diamond_arcs u v w <-> (u = 0 /\ (v = 1 /\ w = 10 \/ v = 2 /\ w = 10) \/ v = 3 /\ (u = 1 /\ w = 10 \/ u = 2 /\ w = 11))%N.
Proof. unfold diamond_arcs. rewrite !elem_of_cons, elem_of_nil, !pair_equal_spec. lia. Qed.

Lemma diamond_paths s t l : path diamond_arcs s t l ->
  s = t \/ (s = 0 /\ (t = 1 /\ 10 <= l \/ t = 2 /\ 10 <= l \/ t = 3 /\ 20 <= l) \/ t = 3 /\ (s = 1 /\ 10 <= l \/ s = 2 /\ 11 <= l))%N.
Proof. induction 1 as [|u v t w l Ha%diamond_arc Hp IH]; [by left|]. lia. Qed.

Lemma diamond_represents : represents diamond diamond_arcs.
Proof.
  constructor.
  - intros u v w H%diamond_graph_arcs. exists w. split; [done|]. apply path_arc, diamond_arc. by left.
  - intros u v w H%diamond_graph_arcs. exists w. split; [done|]. apply path_arc, diamond_arc. lia.
  - assert (forall v, v = 1 \/ v = 2 -> path (graph_arcs true diamond) 0 v 10)%N as Hup.
    { intros v Hv. apply path_arc, diamond_graph_arcs. lia. }
    assert (path (graph_arcs false diamond) 3 1 10 /\ path (graph_arcs false diamond) 3 2 11)%N as [H1 H2].
    { split; apply path_arc, diamond_graph_arcs; lia. }
    intros s t l [->|[[-> [[-> Hl]|[[-> Hl]|[-> Hl]]]]|[-> [[-> Hl]|[-> Hl]]]]]%diamond_paths.
    + exists t, 0%N, 0%N. split_and!; [constructor|constructor|lia].
    + exists 1%N, 10%N, 0%N. split_and!; [by apply Hup; left|constructor|lia].
    + exists 2%N, 10%N, 0%N. split_and!; [by apply Hup; right|constructor|lia].
    + exists 1%N, 10%N, 10%N. split_and!; [by apply Hup; left|done|lia].
    + exists 1%N, 0%N, 10%N. split_and!; [constructor|done|lia].
    + exists 2%N, 0%N, 11%N. split_and!; [constructor|done|lia].
Qed.

Lemma diamond_wf : static_wf diamond.
Proof.
  constructor; [done|done|done|]. intros n b e Hb He. pose proof (vget_Some_lt _ _ _ He) as Hlt. change (vsize _) with 5%N in Hlt.
  assert (n = 0 \/ n = 1 \/ n = 2 \/ n = 3)%N as [->|[->|[->| ->]]] by lia; vm_compute in Hb, He; injection Hb as <-; injection He as <-; done.
Qed.

Lemma diamond_upward dir : upward_bound dir diamond 11.
Proof.
  apply (potential_bound (fun u => if (u =? 0)%N || (u =? 3)%N then 0 else 11)%Z); [done|done| |done].
  intros u e Hu He. by apply diamond_adj in He as [[-> [-> | ->]]|[-> [-> | ->]]].
Qed.

Lemma diamond_way s : way diamond_arcs [at_node 0 0] [at_node 3 0] s -> (20 <= s)%Z.
Proof.
  intros (a & wa & b & wb & l & Ha & Hb & Hp & ->).
  apply list_elem_of_singleton in Ha as [= -> ->]. apply list_elem_of_singleton in Hb as [= -> ->]. apply diamond_paths in Hp. lia.
Qed.


(** *** The test for local optimality *)

(** The detour over node 2, which is longer than the way over node 1 between
    the same two nodes, passes the test for local optimality: the test accepts
    a stretch whose ends are at most as far apart as the stretch is long, and
    all of them are. *)
Lemma detour_passes_t_test : exists off s,
  alternative_search diamond diamond_phantoms (clear_or_new None) (clear_or_new None) = Some (off, s) /\ as_upper s = 20%Z /\
  fst <$> ViaNodeCandidatePassesTTest diamond 10 (MkCandidate 2 21 0) 20 off
    (MkAlternativeHeaps (as_forward s) (as_reverse s) (clear_or_new None) (clear_or_new None) (clear_or_new None) (clear_or_new None)) =
    Some (Some (21%Z, 2%N, 2%N)).
Proof. eexists _, _. split; [vm_compute; reflexivity|]. split; vm_compute; reflexivity. Qed.

(** *** Two directions of a road as starts *)

(** A road with the nodes 0 and 1 for its directions, and two ways to node 3. *)
Definition two_starts : QueryGraph := StaticGraph_swap [0; 1; 2; 2; 4]%N
  [MkEdge 2%N (MkQueryEdgeData 0 false 100 true false); MkEdge 2%N (MkQueryEdgeData 1 false 104 true false);
   MkEdge 2%N (MkQueryEdgeData 2 false 10 false true); MkEdge 1%N (MkQueryEdgeData 3 false 120 false true)].

Definition two_starts_phantoms : PhantomNodes :=
  MkPhantomNodes (MkPhantomNode 0 1 0 2 3 0 0 SPECIAL_EDGEID coordinate_default 0 1 1) (at_node 3 0).

Definition two_starts_facade : InternalDataFacade :=
  MkFacade two_starts [5; 6; 7; 8]%N [1; 1; 2; 2]%N [0; 0; 2; 3]%N [1; 1; 1; 1]%N [false; false; false; false] [] [].

(** The node of a direction is a candidate, but the search for a way from the
    start to it finds none, as the length of such a way would be negative. The
    sum of the two parts of the way over it is then beyond [int]. *)
Lemma via_length_overflows : exists off s,
  alternative_search two_starts two_starts_phantoms (clear_or_new None) (clear_or_new None) = Some (off, s) /\
  as_upper s = 108%Z /\ 1%N ∈ as_candidates s /\
  (fun r => r.2) <$> search_from two_starts off false 1 (clear_or_new None) (as_forward s) = Some INVALID_EDGE_WEIGHT /\
  (fun r => r.2) <$> search_from two_starts off true 1 (clear_or_new None) (as_reverse s) = Some 114%Z /\
  iadd INVALID_EDGE_WEIGHT 114 = None /\
  AlternativeRouting id 10 two_starts_facade two_engine two_starts_phantoms RawRouteData_default = None.
Proof.
  eexists _, _. split; [vm_compute; reflexivity|]. split; [vm_compute; reflexivity|].
  split; [vm_compute; set_solver|]. split_and!; vm_compute; reflexivity.
Qed.
