(* ===== verification/Restrictions.v ===== *)
(** * Turn restrictions

    DataStructures/Restriction.h and DataStructures/RestrictionMap.{h,cpp}:
    the restrictions of the input and the index that the edge expansion asks
    for them. The index refines a map from pairs of nodes to the entries that
    start with this edge, and its answers are those of the list of input
    restrictions. *)

From S2P Require Import Prelude Types DynamicGraph.

(** ** Restriction.h *)

Record TurnRestriction := MkTurnRestriction { viaNode : N; fromNode : N; toNode : N; isOnly : bool }.

Definition TurnRestriction_via (via : N) : TurnRestriction := MkTurnRestriction via UINT_MAX UINT_MAX false.

Definition TurnRestriction_only (only : bool) : TurnRestriction := MkTurnRestriction UINT_MAX UINT_MAX UINT_MAX only.

Record InputRestrictionContainer := MkInputRestriction {
  fromWay : N; toWay : N; ir_viaNode : N; ir_restriction : TurnRestriction }.

(** The constructor from ways: [vn] is the node of the restriction, [vw] the
    way. *)
Definition InputRestrictionContainer_ways (from to vn vw : N) : InputRestrictionContainer :=
  MkInputRestriction from to vw (MkTurnRestriction vn UINT_MAX UINT_MAX false).

Definition InputRestrictionContainer_only (only : bool) : InputRestrictionContainer :=
  MkInputRestriction UINT_MAX UINT_MAX UINT_MAX (TurnRestriction_only only).

Definition InputRestriction_min : InputRestrictionContainer := InputRestrictionContainer_ways 0 0 0 0.

Definition InputRestriction_max : InputRestrictionContainer := InputRestrictionContainer_ways UINT_MAX UINT_MAX UINT_MAX UINT_MAX.

Definition CmpRestrictionContainerByFrom (a b : InputRestrictionContainer) : bool := (fromWay a <? fromWay b)%N.

Definition CmpRestrictionContainerByTo (a b : InputRestrictionContainer) : bool := (toWay a <? toWay b)%N.

(** ** RestrictionMap *)

(** A [RestrictionSource] is the pair of the start node and the via node. *)
Abbreviation RestrictionSource := (N * N)%type.

Record RestrictionTarget := MkRestrictionTarget { target_node : N; is_only : bool }.

#[export] Instance RestrictionTarget_eq : EqDecision RestrictionTarget.
Proof. solve_decision. Defined.

Record RestrictionMap := MkRestrictionMap {
  m_count : N;
  m_restriction_bucket_list : list (list RestrictionTarget);
  m_restriction_map : gmap RestrictionSource N;
  m_restriction_start_nodes : gset N;
  m_no_turn_via_node_set : gset N }.

Definition IsViaNode (node : N) (m : RestrictionMap) : bool := bool_decide (node ∈ m_no_turn_via_node_set m).

Definition IsSourceNode (node : N) (m : RestrictionMap) : bool := bool_decide (node ∈ m_restriction_start_nodes m).

Definition RestrictionMap_empty : RestrictionMap := MkRestrictionMap 0 [] ∅ ∅ ∅.

(** One iteration of the constructor. *)
Definition add_restriction (m : RestrictionMap) (restriction : TurnRestriction) : option RestrictionMap :=
  let starts := {[fromNode restriction]} ∪ m_restriction_start_nodes m in
  let vias := {[viaNode restriction]} ∪ m_no_turn_via_node_set m in
  let restriction_source := (fromNode restriction, viaNode restriction) in
  let target := MkRestrictionTarget (toNode restriction) (isOnly restriction) in
  match m_restriction_map m !! restriction_source with
  | None =>
      let index := u32 (vsize (m_restriction_bucket_list m)) in
      let buckets := vresize (m_restriction_bucket_list m) (uadd index 1) [] in
      bucket ← vget buckets index;
      buckets' ← vset buckets index (bucket ++ [target]);
      Some (MkRestrictionMap (m_count m + 1) buckets' (<[restriction_source := index]> (m_restriction_map m)) starts vias)
  | Some index =>
      bucket ← vget (m_restriction_bucket_list m) index;
      first ← head bucket;
      if is_only first then
        Some (MkRestrictionMap (m_count m) (m_restriction_bucket_list m) (m_restriction_map m) starts vias)
      else if isOnly restriction then
        buckets' ← vset (m_restriction_bucket_list m) index [target];
        Some (MkRestrictionMap (m_count m - vsize bucket + 1) buckets' (m_restriction_map m) starts vias)
      else
        buckets' ← vset (m_restriction_bucket_list m) index (bucket ++ [target]);
        Some (MkRestrictionMap (m_count m + 1) buckets' (m_restriction_map m) starts vias)
  end.

Definition RestrictionMap_make (restriction_list : list TurnRestriction) : option RestrictionMap :=
  fold_m add_restriction RestrictionMap_empty restriction_list.

Definition retarget (node_v node_w : N) (t : RestrictionTarget) : RestrictionTarget :=
  if (node_v =? target_node t)%N then MkRestrictionTarget node_w (is_only t) else t.

(** The targets of the bucket of a start edge [(node_x, node_u)]. *)
Definition fixup_bucket (node_u node_v node_w : N) (m : RestrictionMap) (node_x : N) : option RestrictionMap :=
  match m_restriction_map m !! (node_x, node_u) with
  | None => Some m
  | Some index =>
      bucket ← vget (m_restriction_bucket_list m) index;
      buckets' ← vset (m_restriction_bucket_list m) index (retarget node_v node_w <$> bucket);
      Some (MkRestrictionMap (m_count m) buckets' (m_restriction_map m) (m_restriction_start_nodes m) (m_no_turn_via_node_set m))
  end.

(** The ends of the edges of [node_u] other than [node_v]. *)
Definition predecessors_of {D} (g : DynamicGraph D) (node_u node_v : N) : option (list N) :=
  range ← GetAdjacentEdgeRange node_u g;
  fold_m (fun l e => t ← GetTarget e g; Some (if negb (node_v =? t)%N then l ++ [t] else l)) [] range.

Definition FixupArrivingTurnRestriction {D} (g : DynamicGraph D) (node_u node_v node_w : N) (m : RestrictionMap) : option RestrictionMap :=
  if negb (IsViaNode node_u m) then Some m
  else
    predecessors ← predecessors_of g node_u node_v;
    fold_m (fixup_bucket node_u node_v node_w) m predecessors.

(** [emplace] keeps an entry that is there already. *)
Definition FixupStartingTurnRestriction (node_u node_v node_w : N) (m : RestrictionMap) : RestrictionMap :=
  if negb (IsSourceNode node_v m) then m
  else
    match m_restriction_map m !! (node_v, node_w) with
    | None => m
    | Some index =>
        let erased := delete (node_v, node_w) (m_restriction_map m) in
        MkRestrictionMap (m_count m) (m_restriction_bucket_list m)
          (match erased !! (node_u, node_w) with None => <[(node_u, node_w) := index]> erased | Some _ => erased end)
          ({[node_u]} ∪ m_restriction_start_nodes m) (m_no_turn_via_node_set m)
    end.

Definition CheckForEmanatingIsOnlyTurn (node_u node_v : N) (m : RestrictionMap) : option N :=
  if negb (IsSourceNode node_u m) then Some SPECIAL_NODEID
  else
    match m_restriction_map m !! (node_u, node_v) with
    | None => Some SPECIAL_NODEID
    | Some index =>
        bucket ← vget (m_restriction_bucket_list m) index;
        Some (match List.find is_only bucket with Some t => target_node t | None => SPECIAL_NODEID end)
    end.

Definition CheckIfTurnIsRestricted (node_u node_v node_w : N) (m : RestrictionMap) : option bool :=
  if negb (IsSourceNode node_u m) then Some false
  else
    match m_restriction_map m !! (node_u, node_v) with
    | None => Some false
    | Some index =>
        bucket ← vget (m_restriction_bucket_list m) index;
        Some (existsb (fun t => (node_w =? target_node t)%N && negb (is_only t)) bucket)
    end.

(** ** The abstract map *)

Abbreviation restrictions := (gmap RestrictionSource (list RestrictionTarget)).

(** The answers of a bucket. *)
Definition only_of (bucket : list RestrictionTarget) : N :=
  match List.find is_only bucket with Some t => target_node t | None => SPECIAL_NODEID end.

Definition forbids (bucket : list RestrictionTarget) (w : N) : bool :=
  existsb (fun t => (w =? target_node t)%N && negb (is_only t)) bucket.

(** Every start edge has a bucket of its own, which is not empty. *)
Record restriction_rep (m : RestrictionMap) (A : restrictions) : Prop := {
  rr_bucket s b : A !! s = Some b -> exists i, m_restriction_map m !! s = Some i /\ vget (m_restriction_bucket_list m) i = Some b;
  rr_index s i : m_restriction_map m !! s = Some i -> is_Some (A !! s);
  rr_inj s s' i : m_restriction_map m !! s = Some i -> m_restriction_map m !! s' = Some i -> s = s';
  rr_nonempty s b : A !! s = Some b -> b <> [];
  rr_starts u v b : A !! (u, v) = Some b -> u ∈ m_restriction_start_nodes m;
  rr_vias u v b : A !! (u, v) = Some b -> v ∈ m_no_turn_via_node_set m;
}.

Section rep.
  Implicit Types m : RestrictionMap.
  Implicit Types A : restrictions.

Lemma rep_lookup m A s i : restriction_rep m A -> m_restriction_map m !! s = Some i ->
  exists b, A !! s = Some b /\ vget (m_restriction_bucket_list m) i = Some b.
Proof.
  intros H Hi. destruct (rr_index m A H s i Hi) as [b Hb]. exists b. split; [done|].
  destruct (rr_bucket m A H s b Hb) as (j & Hj & Hv). congruence.
Qed.

Lemma rep_none m A s : restriction_rep m A -> m_restriction_map m !! s = None <-> A !! s = None.
Proof.
  intros H. split; intros Hn.
  - destruct (A !! s) as [b|] eqn:E; [|done]. destruct (rr_bucket m A H s b E) as (i & Hi & _). congruence.
  - destruct (m_restriction_map m !! s) as [i|] eqn:E; [|done]. destruct (rr_index m A H s i E). congruence.
Qed.

(** The index has the answers of the abstract map. *)
Lemma only_turn_ok m A u v : restriction_rep m A ->
  CheckForEmanatingIsOnlyTurn u v m = Some (default SPECIAL_NODEID (only_of <$> A !! (u, v))).
Proof.
  intros H. unfold CheckForEmanatingIsOnlyTurn, IsSourceNode. destruct (m_restriction_map m !! (u, v)) as [i|] eqn:E.
  - destruct (rep_lookup m A _ _ H E) as (b & Hb & Hv). rewrite bool_decide_true by (by eapply rr_starts). rewrite Hb, Hv. done.
  - apply (rep_none m A _ H) in E. rewrite E. by destruct (negb _).
Qed.

Lemma restricted_ok m A u v w : restriction_rep m A ->
  CheckIfTurnIsRestricted u v w m = Some (default false ((fun b => forbids b w) <$> A !! (u, v))).
Proof.
  intros H. unfold CheckIfTurnIsRestricted, IsSourceNode. destruct (m_restriction_map m !! (u, v)) as [i|] eqn:E.
  - destruct (rep_lookup m A _ _ H E) as (b & Hb & Hv). rewrite bool_decide_true by (by eapply rr_starts). rewrite Hb, Hv. done.
  - apply (rep_none m A _ H) in E. rewrite E. by destruct (negb _).
Qed.

(** Replacing the bucket of one start edge. *)
Lemma rep_bucket m A s i b b' count starts vias :
  restriction_rep m A -> m_restriction_map m !! s = Some i -> A !! s = Some b -> b' <> [] ->
  m_restriction_start_nodes m ⊆ starts -> m_no_turn_via_node_set m ⊆ vias ->
  exists l, vset (m_restriction_bucket_list m) i b' = Some l /\
    restriction_rep (MkRestrictionMap count l (m_restriction_map m) starts vias) (<[s := b']> A).
Proof.
  intros H Hi Hb Hne Hsub Hvia. destruct (rep_lookup m A s i H Hi) as (b0 & Hb0 & Hv). rewrite Hb in Hb0. injection Hb0 as <-.
  pose proof (vget_Some_lt _ _ _ Hv) as Hlt. rewrite (vset_lt _ _ _ Hlt). eexists. split; [done|].
  constructor; cbn [m_restriction_map m_restriction_bucket_list m_restriction_start_nodes m_no_turn_via_node_set].
  - intros s' c [[<- <-]|[Hns Hc]]%lookup_insert_Some.
    + exists i. split; [done|]. rewrite vget_insert. by case_decide; [|tauto].
    + destruct (rr_bucket m A H s' c Hc) as (j & Hj & Hvj). exists j. split; [done|]. rewrite vget_insert.
      case_decide as Hij; [|done]. destruct Hij as [<- _]. destruct Hns. by eapply (rr_inj m A H).
  - intros s' j Hj. destruct (decide (s = s')) as [<-|Hns]; [by rewrite lookup_insert_eq|].
    rewrite lookup_insert_ne by done. by eapply rr_index.
  - apply (rr_inj m A H).
  - intros s' c [[_ <-]|[_ Hc]]%lookup_insert_Some; [done|by eapply rr_nonempty].
  - intros u v c [[-> _]|[_ Hc]]%lookup_insert_Some; apply Hsub; by eapply rr_starts.
  - intros u v c [[-> _]|[_ Hc]]%lookup_insert_Some; apply Hvia; by eapply rr_vias.
Qed.

(** *** The constructor *)

Definition add_entry A (r : TurnRestriction) : restrictions :=
  let s := (fromNode r, viaNode r) in
  let t := MkRestrictionTarget (toNode r) (isOnly r) in
  match A !! s with
  | None => <[s := [t]]> A
  | Some b => if existsb is_only b then A else if isOnly r then <[s := [t]]> A else <[s := b ++ [t]]> A
  end.

(** The number of entries. *)
Definition entries A : N := map_fold (fun _ b n => (vsize b + n)%N) 0%N A.

Lemma entries_delete A s b : A !! s = Some b -> entries A = (vsize b + entries (delete s A))%N.
Proof. intros Hb. unfold entries. apply (map_fold_delete_L (fun _ b n => (vsize b + n)%N)); [|done]. intros. lia. Qed.

Lemma entries_insert A s b : entries (<[s := b]> A) = (vsize b + entries (delete s A))%N.
Proof. rewrite (entries_delete _ s b) by apply lookup_insert_eq. by rewrite delete_insert_eq. Qed.

(** A bucket is a single only-restriction or has none. *)
Definition bucket_form (b : list RestrictionTarget) : Prop :=
  (exists t, b = [t] /\ is_only t = true) \/ b <> [] /\ Forall (fun t => is_only t = false) b.

Lemma bucket_head b : bucket_form b -> exists t, head b = Some t /\ is_only t = existsb is_only b.
Proof.
  intros [(t & -> & Ht)|[Hne HF]].
  - exists t. split; [done|]. simpl. by rewrite Ht.
  - destruct b as [|t b]; [done|]. exists t. split; [done|]. apply Forall_cons in HF as [Ht HF]. rewrite Ht. symmetry.
    simpl. rewrite Ht. cbn [orb]. induction HF as [|x b Hx HF IH]; [done|]. simpl. rewrite Hx. cbn [orb]. apply IH. by destruct b.
Qed.

Record built m A : Prop := {
  bt_rep : restriction_rep m A;
  bt_form s b : A !! s = Some b -> bucket_form b;
  bt_count : m_count m = entries A;
}.

Lemma built_new m A r : built m A -> A !! (fromNode r, viaNode r) = None -> (vsize (m_restriction_bucket_list m) < 4294967295)%N ->
  exists m', add_restriction m r = Some m' /\ built m' (<[(fromNode r, viaNode r) := [MkRestrictionTarget (toNode r) (isOnly r)]]> A) /\
    vsize (m_restriction_bucket_list m') = (vsize (m_restriction_bucket_list m) + 1)%N.
Proof.
  intros [Hrep Hform Hcount] Hnone Hsmall. unfold add_restriction. set (s := (fromNode r, viaNode r)) in *.
  set (l := m_restriction_bucket_list m) in *. rewrite (proj2 (rep_none m A s Hrep) Hnone).
  rewrite u32_small by lia. rewrite uadd_small by lia.
  assert (vresize l (vsize l + 1) [] = l ++ [[]]) as ->.
  { unfold vresize, vsize. rewrite take_ge by lia. replace (N.to_nat (N.of_nat (length l) + 1) - length l)%nat with 1%nat by lia. done. }
  rewrite vget_snoc. rewrite decide_True by done. cbn [mbind option_bind app].
  rewrite vset_lt by (rewrite vsize_app; change (vsize [[]]) with 1%N; lia). cbn [mbind option_bind].
  eexists. split; [done|]. cbn [m_restriction_bucket_list]. split; [|rewrite vsize_insert, vsize_app; done].
  split; cbn [m_count].
  - constructor; cbn [m_restriction_map m_restriction_bucket_list m_restriction_start_nodes m_no_turn_via_node_set].
    + intros s' b [[<- <-]|[Hne Hb]]%lookup_insert_Some.
      * exists (vsize l). rewrite lookup_insert_eq. split; [done|]. rewrite vget_insert. rewrite decide_True; [done|].
        rewrite vsize_app. change (vsize [[]]) with 1%N. lia.
      * destruct (rr_bucket m A Hrep s' b Hb) as (i & Hi & Hv). exists i. rewrite lookup_insert_ne by done. split; [done|].
        pose proof (vget_Some_lt _ _ _ Hv) as Hlt. fold l in Hlt, Hv. rewrite vget_insert, decide_False by lia. rewrite vget_snoc, decide_False by lia. done.
    + intros s' i [[<- _]|[Hne Hi]]%lookup_insert_Some; [by rewrite lookup_insert_eq|]. rewrite lookup_insert_ne by done. by eapply rr_index.
    + intros s1 s2 i [[<- <-]|[Hn1 H1]]%lookup_insert_Some [[<- H2]|[Hn2 H2]]%lookup_insert_Some.
      * done.
      * destruct (rep_lookup m A _ _ Hrep H2) as (b & _ & Hv). apply vget_Some_lt in Hv. fold l in Hv. lia.
      * subst i. destruct (rep_lookup m A _ _ Hrep H1) as (b & _ & Hv). apply vget_Some_lt in Hv. fold l in Hv. lia.
      * by eapply (rr_inj m A Hrep).
    + intros s' b [[_ <-]|[_ Hb]]%lookup_insert_Some; [done|by eapply rr_nonempty].
    + intros u v b [[[= <- <-] _]|[_ Hb]]%lookup_insert_Some; apply elem_of_union; [left; by apply elem_of_singleton|right; by eapply rr_starts].
    + intros u v b [[[= <- <-] _]|[_ Hb]]%lookup_insert_Some; apply elem_of_union; [left; by apply elem_of_singleton|right; by eapply rr_vias].
  - intros s' b [[_ <-]|[_ Hb]]%lookup_insert_Some; [|by eapply Hform].
    destruct (isOnly r) eqn:Eo; [left; by eexists|right]. split; [done|]. by constructor.
  - rewrite entries_insert, delete_id by done. rewrite Hcount. change (vsize [_]) with 1%N. lia.
Qed.

Lemma add_restriction_ok m A r : built m A -> (vsize (m_restriction_bucket_list m) < 4294967295)%N ->
  exists m', add_restriction m r = Some m' /\ built m' (add_entry A r) /\
    (vsize (m_restriction_bucket_list m') <= vsize (m_restriction_bucket_list m) + 1)%N.
Proof.
  intros Hb Hsmall. unfold add_entry. destruct (A !! (fromNode r, viaNode r)) as [b|] eqn:Es.
  2: { destruct (built_new m A r Hb Es Hsmall) as (m' & Hr & Hb' & Hv). exists m'. split; [done|]. split; [done|]. lia. }
  destruct Hb as [Hrep Hform Hcount]. set (s := (fromNode r, viaNode r)) in *.
  destruct (rr_bucket m A Hrep s b Es) as (i & Hi & Hv). destruct (bucket_head b (Hform s b Es)) as (t & Ht & Honly).
  unfold add_restriction. fold s. rewrite Hi, Hv. cbn [mbind option_bind]. rewrite Ht. cbn [mbind option_bind]. rewrite Honly.
  pose proof (entries_delete A s b Es) as He.
  assert (m_restriction_start_nodes m ⊆ {[fromNode r]} ∪ m_restriction_start_nodes m) as Hs1 by set_solver.
  assert (m_no_turn_via_node_set m ⊆ {[viaNode r]} ∪ m_no_turn_via_node_set m) as Hs2 by set_solver.
  destruct (existsb is_only b) eqn:Eo; [|destruct (isOnly r) eqn:Er].
  - eexists. split; [done|]. split; [|cbn; lia]. split; [|done|done].
    destruct Hrep. constructor; cbn; try done; intros u v c Hc; apply elem_of_union; right; eauto.
  - destruct (rep_bucket m A s i b [MkRestrictionTarget (toNode r) true] (m_count m - vsize b + 1) _ _ Hrep Hi Es ltac:(done) Hs1 Hs2)
      as (l & Hl & Hrep'). rewrite Hl. cbn [mbind option_bind]. eexists. split; [done|]. cbn [m_restriction_bucket_list]. split.
    + split; [done| |].
      * intros s' c [[_ <-]|[_ Hc]]%lookup_insert_Some; [|by eapply Hform]. left. by eexists.
      * cbn [m_count]. rewrite entries_insert, Hcount, He. change (vsize [_]) with 1%N. lia.
    + apply vset_Some in Hl as [_ ->]. rewrite vsize_insert. lia.
  - destruct (rep_bucket m A s i b (b ++ [MkRestrictionTarget (toNode r) false]) (m_count m + 1) _ _ Hrep Hi Es ltac:(by destruct b) Hs1 Hs2)
      as (l & Hl & Hrep'). rewrite Hl. cbn [mbind option_bind]. eexists. split; [done|]. cbn [m_restriction_bucket_list]. split.
    + split; [done| |].
      * intros s' c [[_ <-]|[_ Hc]]%lookup_insert_Some; [|by eapply Hform]. right. split; [by destruct b|]. apply Forall_app. split; [|by constructor].
        destruct (Hform s b Es) as [(x & -> & Hx)|[_ HF]]; [simpl in Eo; by rewrite Hx in Eo|done].
      * cbn [m_count]. rewrite entries_insert, Hcount, He, vsize_app. change (vsize [_]) with 1%N. lia.
    + apply vset_Some in Hl as [_ ->]. rewrite vsize_insert. lia.
Qed.

Lemma add_vias m r m' : add_restriction m r = Some m' -> m_no_turn_via_node_set m' = {[viaNode r]} ∪ m_no_turn_via_node_set m.
Proof.
  unfold add_restriction. intros H. destruct (m_restriction_map m !! _); [|by inv_bind H; subst].
  destruct (vget _ _) as [b|]; [|done]. cbn [mbind option_bind] in H. destruct (head b) as [t|]; [|done]. cbn [mbind option_bind] in H.
  destruct (is_only t); [by injection H as <-|]. destruct (isOnly r); by inv_bind H; subst.
Qed.

Lemma restriction_make_ok rs : (vsize rs < 4294967295)%N -> exists m, RestrictionMap_make rs = Some m /\ built m (foldl add_entry ∅ rs) /\
  forall v, v ∈ m_no_turn_via_node_set m <-> exists r, r ∈ rs /\ viaNode r = v.
Proof.
  intros Hsmall. unfold RestrictionMap_make.
  destruct (fold_m_ind add_restriction (fun pre m => built m (foldl add_entry ∅ pre) /\ (vsize (m_restriction_bucket_list m) <= vsize pre)%N /\
    forall v, v ∈ m_no_turn_via_node_set m <-> exists r, r ∈ pre /\ viaNode r = v) rs RestrictionMap_empty) as (m & Hm & Hb & _ & Hv).
  - split; [|split; [done|]].
    + cbn [foldl]. split; [|intros s b; by rewrite lookup_empty|done]. constructor; cbn [m_restriction_map RestrictionMap_empty foldl]; intros *; by rewrite lookup_empty.
    + intros v. split; [by intros ?%elem_of_empty|]. by intros (r & ?%elem_of_nil & _).
  - intros pre r post m Hl (Hb & Hle & Hv).
    assert (vsize pre < vsize rs)%N as Hlt by (rewrite Hl, vsize_app; unfold vsize; simpl; lia).
    destruct (add_restriction_ok m (foldl add_entry ∅ pre) r Hb ltac:(lia)) as (m' & Hm' & Hb' & Hle'). exists m'. split; [done|].
    rewrite foldl_app. split; [done|]. split; [rewrite vsize_app; change (vsize [r]) with 1%N; lia|].
    intros v. rewrite (add_vias m r m' Hm'), elem_of_union, elem_of_singleton, Hv. split.
    + intros [->|(r' & Hr' & <-)]; [exists r|exists r']; rewrite elem_of_app, list_elem_of_singleton; tauto.
    + intros (r' & Hr' & <-). rewrite elem_of_app, list_elem_of_singleton in Hr'. destruct Hr' as [Hr'| ->]; [right; eauto|by left].
  - exists m. done.
Qed.

(** *** The answers in terms of the input *)

Definition starts_at (u v : N) (r : TurnRestriction) : bool := (fromNode r =? u)%N && (viaNode r =? v)%N.

Definition only_at (u v : N) (r : TurnRestriction) : bool := starts_at u v r && isOnly r.

Definition no_turn_at (u v w : N) (r : TurnRestriction) : bool := starts_at u v r && negb (isOnly r) && (w =? toNode r)%N.

Definition target_of (r : TurnRestriction) : RestrictionTarget := MkRestrictionTarget (toNode r) (isOnly r).

(** The entries of a start edge: its first only-restriction, or all of its
    restrictions in order. *)
Definition bucket_for (rs : list TurnRestriction) (u v : N) : option (list RestrictionTarget) :=
  match List.find (only_at u v) rs with
  | Some r => Some [target_of r]
  | None => match List.filter (starts_at u v) rs with [] => None | l => Some (target_of <$> l) end
  end.

Lemma find_snoc {T} (f : T -> bool) l x : List.find f (l ++ [x]) = match List.find f l with Some y => Some y | None => if f x then Some x else None end.
Proof. induction l as [|y l IH]; simpl; [done|]. by destruct (f y). Qed.

Lemma find_none_forall {T} (f : T -> bool) l : List.find f l = None <-> Forall (fun x => f x = false) l.
Proof. rewrite Forall_forall. split; [intros H x Hx%list_elem_of_In; by eapply find_none|]. induction l as [|y l IH]; intros H; [done|]. simpl.
  rewrite (H y) by (by left). apply IH. intros x Hx. apply H. by right. Qed.

Lemma starts_at_spec u v r : starts_at u v r = true <-> (fromNode r, viaNode r) = (u, v).
Proof. unfold starts_at. rewrite andb_true_iff, !N.eqb_eq. naive_solver. Qed.

Lemma built_lookup rs u v : foldl add_entry ∅ rs !! (u, v) = bucket_for rs u v.
Proof.
  induction rs as [|r rs IH] using rev_ind; [done|]. rewrite foldl_app. cbn [foldl]. unfold bucket_for in *.
  rewrite find_snoc, List.filter_app. cbn [List.filter]. unfold only_at at 2. set (A := foldl add_entry ∅ rs) in *. unfold add_entry.
  destruct (starts_at u v r) eqn:Es.
  - apply starts_at_spec in Es. rewrite Es, IH. cbn [andb].
    destruct (List.find (only_at u v) rs) as [r'|] eqn:Ef; cbn [existsb target_of is_only].
    + apply find_some in Ef as [_ Ef]. unfold only_at in Ef. apply andb_true_iff in Ef as [_ Ef]. rewrite Ef. cbn [orb]. by rewrite IH.
    + apply find_none_forall in Ef. destruct (List.filter (starts_at u v) rs) as [|x l] eqn:El.
      * rewrite lookup_insert_eq. unfold target_of. cbn [app]. by destruct (isOnly r) eqn:Er; cbn; rewrite ?Er.
      * assert (existsb is_only (target_of <$> x :: l) = false) as ->.
        { rewrite <- El. clear -Ef. induction Ef as [|y rs Hy HF IHf]; [done|]. cbn [List.filter]. unfold only_at in Hy.
          destruct (starts_at u v y); [|done]. cbn [andb] in Hy. cbn [fmap list_fmap existsb target_of is_only]. by rewrite Hy. }
        destruct (isOnly r) eqn:Er; rewrite lookup_insert_eq; unfold target_of; [by rewrite Er|].
        cbn [app]. change (x :: l ++ [r]) with ((x :: l) ++ [r]). rewrite fmap_app. cbn. by rewrite Er.
  - assert ((fromNode r, viaNode r) <> (u, v)) as Hne by (intros Hs%starts_at_spec; congruence). cbn [andb]. rewrite app_nil_r.
    transitivity (A !! (u, v)); [|rewrite IH; by destruct (List.find (only_at u v) rs)].
    destruct (A !! (fromNode r, viaNode r)) as [b|]; [|by rewrite lookup_insert_ne].
    destruct (existsb is_only b); [done|]. destruct (isOnly r); by rewrite lookup_insert_ne.
Qed.

Lemma only_answer rs u v : default SPECIAL_NODEID (only_of <$> bucket_for rs u v) =
  match List.find (only_at u v) rs with Some r => toNode r | None => SPECIAL_NODEID end.
Proof.
  unfold bucket_for. destruct (List.find (only_at u v) rs) as [r|] eqn:Ef.
  - apply find_some in Ef as [_ Ho]. unfold only_at in Ho. apply andb_true_iff in Ho as [_ Ho].
    cbn. unfold only_of, target_of. cbn. by rewrite Ho.
  - apply find_none_forall in Ef. assert (List.find is_only (target_of <$> List.filter (starts_at u v) rs) = None) as Hnone.
    { clear -Ef. induction Ef as [|x rs Hx HF IH]; [done|]. cbn [List.filter]. unfold only_at in Hx. destruct (starts_at u v x); [|done].
      cbn [andb] in Hx. cbn. by rewrite Hx. }
    destruct (List.filter (starts_at u v) rs) as [|x l]; [done|]. change (only_of (target_of <$> x :: l) = SPECIAL_NODEID). unfold only_of. by rewrite Hnone.
Qed.

Lemma restricted_answer rs u v w : default false ((fun b => forbids b w) <$> bucket_for rs u v) =
  negb (existsb (only_at u v) rs) && existsb (no_turn_at u v w) rs.
Proof.
  unfold bucket_for. destruct (List.find (only_at u v) rs) as [r|] eqn:Ef.
  - apply find_some in Ef as [Hin Ho]. assert (existsb (only_at u v) rs = true) as -> by (apply existsb_exists; eauto).
    unfold only_at in Ho. apply andb_true_iff in Ho as [_ Ho]. cbn. unfold forbids, target_of. cbn. rewrite Ho, andb_false_r. done.
  - assert (existsb (only_at u v) rs = false) as ->.
    { apply not_true_is_false. intros (r & Hin & Ho)%existsb_exists. by rewrite (find_none _ _ Ef r Hin) in Ho. }
    cbn [negb andb]. transitivity (forbids (target_of <$> List.filter (starts_at u v) rs) w).
    { by destruct (List.filter (starts_at u v) rs). }
    clear. induction rs as [|x rs IH]; [done|]. cbn [List.filter existsb]. unfold no_turn_at at 1. destruct (starts_at u v x); [|done].
    cbn [fmap list_fmap forbids existsb target_of target_node is_only andb]. unfold forbids in IH.
    change (existsb _ (map target_of _)) with (existsb (fun t => (w =? target_node t)%N && negb (is_only t)) (target_of <$> List.filter (starts_at u v) rs)).
    rewrite IH. by rewrite (andb_comm (negb _)).
Qed.

(** *** Renaming the ends of edges *)

Definition move_start (u v w : N) A : restrictions :=
  match A !! (v, w) with
  | None => A
  | Some b => match delete (v, w) A !! (u, w) with None => <[(u, w) := b]> (delete (v, w) A) | Some _ => delete (v, w) A end
  end.

Lemma fixup_start_ok m A u v w : restriction_rep m A -> restriction_rep (FixupStartingTurnRestriction u v w m) (move_start u v w A).
Proof.
  intros H. unfold FixupStartingTurnRestriction, move_start, IsSourceNode. destruct (A !! (v, w)) as [b|] eqn:Eb.
  2: { rewrite (proj2 (rep_none m A (v, w) H) Eb). by destruct (negb _). }
  rewrite bool_decide_true by (by eapply rr_starts). cbn [negb].
  destruct (rr_bucket m A H _ _ Eb) as (i & Hi & Hv). rewrite Hi.
  assert (forall M' A', (forall s j, M' !! s = Some j -> s = (u, w) /\ j = i \/ s <> (v, w) /\ m_restriction_map m !! s = Some j) ->
    (forall s c, A' !! s = Some c -> s = (u, w) /\ c = b /\ M' !! s = Some i \/ s <> (v, w) /\ A !! s = Some c /\ M' !! s = m_restriction_map m !! s) ->
    (forall s j, M' !! s = Some j -> is_Some (A' !! s)) ->
    restriction_rep (MkRestrictionMap (m_count m) (m_restriction_bucket_list m) M' ({[u]} ∪ m_restriction_start_nodes m) (m_no_turn_via_node_set m)) A') as Hgen.
  { intros M' A' HM HA Hdom. constructor; cbn [m_restriction_map m_restriction_bucket_list m_restriction_start_nodes m_no_turn_via_node_set].
    - intros s c Hc. destruct (HA s c Hc) as [(-> & -> & Hs)|(Hne & Hs & Heq)]; [by exists i|].
      destruct (rr_bucket m A H s c Hs) as (j & Hj & Hvj). exists j. by rewrite Heq.
    - exact Hdom.
    - intros s s' j Hs Hs'. destruct (HM s j Hs) as [[-> ->]|[Hn1 H1]], (HM s' _ Hs') as [[-> Hj]|[Hn2 H2]].
      + done.
      + destruct Hn2. by eapply (rr_inj m A H).
      + subst j. destruct Hn1. by eapply (rr_inj m A H).
      + by eapply (rr_inj m A H).
    - intros s c Hc. destruct (HA s c Hc) as [(-> & -> & _)|(_ & Hs & _)]; by eapply rr_nonempty.
    - intros x y c Hc. apply elem_of_union. destruct (HA _ c Hc) as [([= -> ->] & _)|(_ & Hs & _)];
        [left; by apply elem_of_singleton|right; by eapply rr_starts].
    - intros x y c Hc. destruct (HA _ c Hc) as [([= -> ->] & _)|(_ & Hs & _)]; by eapply rr_vias. }
  assert (forall s, delete (v, w) (m_restriction_map m) !! s = None <-> delete (v, w) A !! s = None) as Hdel.
  { intros s. rewrite !lookup_delete_None, (rep_none m A s H). done. }
  destruct (delete (v, w) A !! (u, w)) as [c|] eqn:Ec.
  - destruct (delete (v, w) (m_restriction_map m) !! (u, w)) as [j|] eqn:Ej; [|apply Hdel in Ej; congruence].
    apply Hgen.
    + intros s k [? ?]%lookup_delete_Some. right. done.
    + intros s x [? ?]%lookup_delete_Some. right. split; [done|]. split; [done|]. by rewrite lookup_delete_ne.
    + intros s k Hk. destruct (delete (v, w) A !! s) eqn:Es; [done|]. apply Hdel in Es. congruence.
  - rewrite (proj2 (Hdel (u, w)) Ec). apply Hgen.
    + intros s k [[<- <-]|[Hne [? ?]%lookup_delete_Some]]%lookup_insert_Some; [by left|by right].
    + intros s x [[<- <-]|[Hne [Hne' Hs]%lookup_delete_Some]]%lookup_insert_Some; [left; by rewrite lookup_insert_eq|].
      right. split; [done|]. split; [done|]. rewrite lookup_insert_ne, lookup_delete_ne by done. done.
    + intros s k [[<- _]|[Hne [Hne' Hs]%lookup_delete_Some]]%lookup_insert_Some; [by rewrite lookup_insert_eq|].
      rewrite lookup_insert_ne, lookup_delete_ne by done. by eapply rr_index.
Qed.

Definition retarget_at (u v w : N) A (x : N) : restrictions := alter (fmap (retarget v w)) (x, u) A.

Lemma fixup_bucket_ok m A u v w x : restriction_rep m A ->
  exists m', fixup_bucket u v w m x = Some m' /\ restriction_rep m' (retarget_at u v w A x) /\
    m_no_turn_via_node_set m' = m_no_turn_via_node_set m.
Proof.
  intros H. unfold fixup_bucket, retarget_at. destruct (m_restriction_map m !! (x, u)) as [i|] eqn:Ei.
  - destruct (rep_lookup m A _ _ H Ei) as (b & Hb & Hv). rewrite Hv. cbn [mbind option_bind].
    destruct (rep_bucket m A (x, u) i b (retarget v w <$> b) (m_count m) (m_restriction_start_nodes m) (m_no_turn_via_node_set m) H Ei Hb)
      as (l & -> & Hrep); [|done|done|].
    { pose proof (rr_nonempty m A H _ _ Hb). by destruct b. }
    cbn [mbind option_bind]. eexists. split; [done|]. split; [|done].
    replace (alter (fmap (retarget v w)) (x, u) A) with (<[(x, u) := retarget v w <$> b]> A); [done|].
    apply map_eq. intros s. destruct (decide (s = (x, u))) as [->|Hne]; [by rewrite lookup_insert_eq, lookup_alter_eq, Hb|].
    by rewrite lookup_insert_ne, lookup_alter_ne.
  - exists m. split; [done|]. split; [|done]. rewrite alter_id; [done|]. intros b Hb. apply (rep_none m A _ H) in Ei. congruence.
Qed.

Lemma fixup_buckets_ok u v w xs : forall m A, restriction_rep m A ->
  exists m', fold_m (fixup_bucket u v w) m xs = Some m' /\ restriction_rep m' (foldl (retarget_at u v w) A xs) /\
    m_no_turn_via_node_set m' = m_no_turn_via_node_set m.
Proof.
  induction xs as [|x xs IH]; intros m A H; [by exists m|]. cbn [fold_m foldl].
  destruct (fixup_bucket_ok m A u v w x H) as (m1 & -> & H1 & Hv1). cbn [mbind option_bind].
  destruct (IH m1 _ H1) as (m2 & Hm2 & H2 & Hv2). exists m2. split; [done|]. split; [done|]. congruence.
Qed.

Definition others {D} (g : DynamicGraph D) (u v : N) : list N := filter (fun t => t <> v) (e_target <$> adj g u).

Lemma predecessors_ok {D} (g : DynamicGraph D) u v : graph_wf g -> (u < vsize (node_list g))%N ->
  predecessors_of g u v = Some (others g u v).
Proof.
  intros Hwf Hu. unfold predecessors_of, others. destruct (adj_range g u Hwf Hu) as (r & -> & HF). cbn [mbind option_bind].
  enough (forall acc, fold_m (fun l e => t ← GetTarget e g; Some (if negb (v =? t)%N then l ++ [t] else l)) acc r =
    Some (acc ++ filter (fun t => t <> v) (e_target <$> adj g u))) as H by exact (H []).
  induction HF as [|i e r l Hi HF IH]; intros acc; cbn [fold_m fmap list_fmap]; [by rewrite app_nil_r|].
  assert (GetTarget i g = Some (e_target e)) as -> by (unfold GetTarget; by rewrite Hi). cbn [mbind option_bind]. destruct (N.eqb_spec v (e_target e)) as [->|Hne]; cbn [negb]; rewrite IH.
  - rewrite filter_cons_False by tauto. done.
  - rewrite filter_cons_True by (intros Heq; by destruct Hne). by rewrite <- app_assoc.
Qed.

Lemma fixup_arriving_ok {D} (g : DynamicGraph D) m A u v w : graph_wf g -> (u < vsize (node_list g))%N -> restriction_rep m A ->
  exists m', FixupArrivingTurnRestriction g u v w m = Some m' /\ restriction_rep m' (foldl (retarget_at u v w) A (others g u v)) /\
    m_no_turn_via_node_set m' = m_no_turn_via_node_set m.
Proof.
  intros Hwf Hu H. unfold FixupArrivingTurnRestriction, IsViaNode. destruct (decide (u ∈ m_no_turn_via_node_set m)) as [Hin|Hnin].
  - rewrite bool_decide_true by done. cbn [negb]. rewrite (predecessors_ok g u v Hwf Hu). cbn [mbind option_bind]. by apply fixup_buckets_ok.
  - rewrite bool_decide_false by done. cbn [negb]. exists m. split; [done|]. split; [|done].
    assert (forall xs, foldl (retarget_at u v w) A xs = A) as ->; [|done].
    induction xs as [|x xs IH]; [done|]. cbn [foldl]. unfold retarget_at at 2. rewrite alter_id; [done|].
    intros b Hb. destruct Hnin. by eapply rr_vias.
Qed.

(** Answers after the renaming of a start edge: those of the old edge. *)
Lemma move_start_answers m A u v w y : restriction_rep m A -> u <> v -> A !! (u, w) = None ->
  CheckForEmanatingIsOnlyTurn u w (FixupStartingTurnRestriction u v w m) = CheckForEmanatingIsOnlyTurn v w m /\
  CheckIfTurnIsRestricted u w y (FixupStartingTurnRestriction u v w m) = CheckIfTurnIsRestricted v w y m.
Proof.
  intros H Hne Hnone. pose proof (fixup_start_ok m A u v w H) as H'.
  rewrite (only_turn_ok _ _ u w H'), (restricted_ok _ _ u w y H'), (only_turn_ok m A v w H), (restricted_ok m A v w y H).
  assert (move_start u v w A !! (u, w) = A !! (v, w)) as ->; [|done]. unfold move_start.
  destruct (A !! (v, w)) as [b|]; [|done]. rewrite lookup_delete_ne, Hnone by congruence. by rewrite lookup_insert_eq.
Qed.
End rep.

(** ** Properties *)


Definition sample_restrictions : list TurnRestriction :=
  [MkTurnRestriction 2 1 3 false; MkTurnRestriction 2 4 3 true; MkTurnRestriction 2 4 5 false; MkTurnRestriction 2 1 6 false].

