(* ===== verification/GeometryCompressor.v ===== *)
(** * Contractor/GeometryCompressor.{h,cpp}

    The nodes and weights that an edge keeps when a chain of edges is merged
    into it. The buckets with their free list refine a map from edges to
    lists, and the file that is written gives back their nodes through the
    loader of Server/DataStructures/InternalDataFacade.h. *)

From S2P Require Import Prelude Types Edges Storage BinaryHeap DynamicGraph StaticGraph Text Routing Hsgr.

(** ** The buckets *)

(** A [CompressedNode]: a node and the weight of the edge to it. *)
Abbreviation CompressedNode := (N * Z)%type.

Record GeometryCompressor := MkGeometryCompressor {
  m_compressed_geometries : list (list CompressedNode);
  m_free_list : list N;
  m_edge_id_to_list_index_map : gmap N N }.

(** The state of the program has the counter [free_list_maximum] beside. *)
Abbreviation geometry_state := (GeometryCompressor * Z)%type.

Definition UniqueNumber (free_list_maximum : Z) : option (Z * Z) :=
  n ← iadd free_list_maximum 1; Some (n, n).

Definition grow_free_list (s : list N * Z) (i : N) : option (list N * Z) :=
  let '(free, free_list_maximum) := s in
  next ← iadd free_list_maximum 1;
  Some (free ++ [of_int free_list_maximum], next).

Definition IncreaseFreeList (s : geometry_state) : option geometry_state :=
  let '(c, free_list_maximum) := s in
  '(free, next) ← fold_m grow_free_list (m_free_list c, free_list_maximum) (irange 0 100);
  Some (MkGeometryCompressor (vresize (m_compressed_geometries c) (vsize (m_compressed_geometries c) + 100) [])
    free (m_edge_id_to_list_index_map c), next).

Definition GeometryCompressor_make (free_list_maximum : Z) : option geometry_state :=
  IncreaseFreeList (MkGeometryCompressor [] [] ∅, free_list_maximum).

Definition HasEntryForID (edge_id : N) (c : GeometryCompressor) : bool :=
  match m_edge_id_to_list_index_map c !! edge_id with Some _ => true | None => false end.

Definition GetPositionForID (edge_id : N) (c : GeometryCompressor) : option N := m_edge_id_to_list_index_map c !! edge_id.

(** [m_edge_id_to_list_index_map[edge_id_1] = m_free_list.back()]. *)
Definition create_entry (edge_id_1 : N) (s : geometry_state) : option geometry_state :=
  '(c, free_list_maximum) ← (if (vsize (m_free_list (fst s)) =? 0)%N then IncreaseFreeList s else Some s);
  index ← vback (m_free_list c);
  Some (MkGeometryCompressor (m_compressed_geometries c) (vpop (m_free_list c))
    (<[edge_id_1 := index]> (m_edge_id_to_list_index_map c)), free_list_maximum).

(** Both lists are references into the buckets: appending a list to itself is
    not defined. *)
Definition CompressEdge (edge_id_1 edge_id_2 via_node_id target_node_id : N) (weight1 weight2 : Z) (s : geometry_state)
    : option geometry_state :=
  '(c, free_list_maximum) ← (if negb (HasEntryForID edge_id_1 (fst s)) then create_entry edge_id_1 s else Some s);
  edge_bucket_id1 ← GetPositionForID edge_id_1 c;
  found ← vget (m_compressed_geometries c) edge_bucket_id1;
  let edge_bucket_list1 := match found with [] => [(via_node_id, weight1)] | l => l end in
  if HasEntryForID edge_id_2 c then
    list_to_remove_index ← GetPositionForID edge_id_2 c;
    if (list_to_remove_index =? edge_bucket_id1)%N then None
    else
      edge_bucket_list2 ← vget (m_compressed_geometries c) list_to_remove_index;
      buckets1 ← vset (m_compressed_geometries c) edge_bucket_id1 (edge_bucket_list1 ++ edge_bucket_list2);
      buckets2 ← vset buckets1 list_to_remove_index [];
      Some (MkGeometryCompressor buckets2 (m_free_list c ++ [list_to_remove_index])
        (delete edge_id_2 (m_edge_id_to_list_index_map c)), free_list_maximum)
  else
    buckets1 ← vset (m_compressed_geometries c) edge_bucket_id1 (edge_bucket_list1 ++ [(target_node_id, weight2)]);
    Some (MkGeometryCompressor buckets1 (m_free_list c) (m_edge_id_to_list_index_map c), free_list_maximum).

(** [at] throws when there is no entry. *)
Definition GetBucketReference (edge_id : N) (c : GeometryCompressor) : option (list CompressedNode) :=
  index ← m_edge_id_to_list_index_map c !! edge_id; vget (m_compressed_geometries c) index.

Definition GetFirstNodeIDOfBucket (edge_id : N) (c : GeometryCompressor) : option N :=
  bucket ← GetBucketReference edge_id c; x ← vget bucket 1; Some (fst x).

Definition GetLastNodeIDOfBucket (edge_id : N) (c : GeometryCompressor) : option N :=
  bucket ← GetBucketReference edge_id c;
  if (vsize bucket <? 2)%N then None else x ← vget bucket (vsize bucket - 2); Some (fst x).

(** ** The file *)

(** The indices with the sum of the sizes before each bucket. *)
Fixpoint write_indices (l : list (list CompressedNode)) (prefix_sum_of_list_indices : N) : list N :=
  match l with
  | [] => le32 prefix_sum_of_list_indices ++ le32 prefix_sum_of_list_indices
  | elem :: l' => le32 prefix_sum_of_list_indices ++ write_indices l' (uadd prefix_sum_of_list_indices (u32 (vsize elem)))
  end.

Definition SerializeInternalVector (c : GeometryCompressor) : list N :=
  let l := m_compressed_geometries c in
  le32 (u32 (vsize l + 1)) ++ write_indices l 0 ++ (l ≫= fun current_vector => current_vector ≫= fun current_node => le32 (fst current_node)).

(** [LoadGeometries]. *)
Definition LoadGeometries (geometry_file : list N) (f : InternalDataFacade) : option InternalDataFacade :=
  '(number_of_indices, s1) ← read_word geometry_file;
  '(indices, s2) ← read_many read_word (N.to_nat number_of_indices) s1;
  '(number_of_compressed_geometries, s3) ← read_word s2;
  '(geometries, _) ← read_many read_word (N.to_nat number_of_compressed_geometries) s3;
  Some (MkFacade (m_query_graph f) (m_via_node_list f) (m_name_ID_list f) (m_turn_instruction_list f) (m_travel_mode_list f)
    (m_edge_is_compressed f) indices geometries).

(** ** The abstract geometries *)

Record compression := MkCompression { cp_first : N; cp_second : N; cp_via : N; cp_target : N; cp_weight1 : Z; cp_weight2 : Z }.

Definition run_compression (s : geometry_state) (o : compression) : option geometry_state :=
  CompressEdge (cp_first o) (cp_second o) (cp_via o) (cp_target o) (cp_weight1 o) (cp_weight2 o) s.

(** The first edge gets the nodes of both edges. *)
Definition compress_geometry (G : gmap N (list CompressedNode)) (o : compression) : gmap N (list CompressedNode) :=
  <[cp_first o := default [(cp_via o, cp_weight1 o)] (G !! cp_first o) ++ default [(cp_target o, cp_weight2 o)] (G !! cp_second o)]>
    (delete (cp_second o) G).

(** Every entry has a bucket of its own; the free buckets are empty. *)
Record geometry_inv (s : geometry_state) (G : gmap N (list CompressedNode)) : Prop := {
  ge_bucket e l : G !! e = Some l -> exists i, m_edge_id_to_list_index_map (fst s) !! e = Some i /\
    vget (m_compressed_geometries (fst s)) i = Some l;
  ge_entry e i : m_edge_id_to_list_index_map (fst s) !! e = Some i -> is_Some (G !! e);
  ge_inj e e' i : m_edge_id_to_list_index_map (fst s) !! e = Some i -> m_edge_id_to_list_index_map (fst s) !! e' = Some i -> e = e';
  ge_nonempty e l : G !! e = Some l -> l <> [];
  ge_free i : i ∈ m_free_list (fst s) -> vget (m_compressed_geometries (fst s)) i = Some [];
  ge_unused i e : i ∈ m_free_list (fst s) -> m_edge_id_to_list_index_map (fst s) !! e <> Some i;
  ge_nodup : NoDup (m_free_list (fst s));
  ge_next : snd s = Z.of_N (vsize (m_compressed_geometries (fst s)));
}.

Section compressor.
  Implicit Types G : gmap N (list CompressedNode).
  Implicit Types s : geometry_state.
  Implicit Types c : GeometryCompressor.

Lemma geometry_none s G e : geometry_inv s G -> m_edge_id_to_list_index_map (fst s) !! e = None <-> G !! e = None.
Proof.
  intros H. split; intros Hn.
  - destruct (G !! e) as [l|] eqn:E; [|done]. destruct (ge_bucket s G H e l E) as (i & Hi & _). congruence.
  - destruct (m_edge_id_to_list_index_map (fst s) !! e) as [i|] eqn:E; [|done]. destruct (ge_entry s G H e i E). congruence.
Qed.

Lemma grow_free_ok n : forall free flm, (0 <= flm)%Z -> (flm + Z.of_nat n <= INT_MAX)%Z -> forall is_, length is_ = n ->
  fold_m grow_free_list (free, flm) is_ = Some (free ++ ((fun k => (Z.to_N flm + N.of_nat k)%N) <$> seq 0 n), (flm + Z.of_nat n)%Z).
Proof.
  induction n as [|n IH]; intros free flm H0 Hb is_ Hlen.
  { destruct is_; [|done]. cbn. by rewrite app_nil_r, Z.add_0_r. }
  destruct is_ as [|x is_]; [done|]. cbn [fold_m].
  assert (grow_free_list (free, flm) x = Some (free ++ [Z.to_N flm], (flm + 1)%Z)) as ->.
  { unfold grow_free_list. rewrite iadd_Some by (unfold INT_MIN, INT_MAX in *; lia). cbn [mbind option_bind].
    unfold of_int. rewrite Z.mod_small by (unfold INT_MAX in *; lia). done. }
  cbn [mbind option_bind]. rewrite IH; [|lia|lia|simpl in Hlen; lia]. f_equal. f_equal; [|lia].
  rewrite <- app_assoc. f_equal. change (seq 0 (S n)) with (0%nat :: seq 1 n). rewrite fmap_cons, N.add_0_r. cbn [app]. f_equal.
  rewrite <- seq_shift, <- list_fmap_compose. apply list_fmap_ext. intros i k _. cbn. lia.
Qed.

Lemma increase_ok s G : geometry_inv s G -> (vsize (m_compressed_geometries (fst s)) + 100 < 2147483648)%N ->
  exists s', IncreaseFreeList s = Some s' /\ geometry_inv s' G /\ m_free_list (fst s') <> [] /\
    m_edge_id_to_list_index_map (fst s') = m_edge_id_to_list_index_map (fst s) /\
    vsize (m_compressed_geometries (fst s')) = (vsize (m_compressed_geometries (fst s)) + 100)%N.
Proof.
  destruct s as [c flm]. intros H Hsmall. cbn [fst] in *. pose proof (ge_next _ _ H) as Hnext. cbn [fst snd] in Hnext.
  unfold IncreaseFreeList. rewrite (grow_free_ok 100 (m_free_list c) flm); [|lia|unfold INT_MAX; lia|done]. cbn [mbind option_bind].
  eexists. split; [done|]. cbn [fst m_compressed_geometries m_free_list m_edge_id_to_list_index_map].
  set (l := m_compressed_geometries c) in *. set (k := vsize l) in *.
  set (l' := vresize l (k + 100) []).
  assert (l' = l ++ replicate 100 []) as Hl'.
  { unfold l', vresize, k, vsize. rewrite take_ge by lia. f_equal. f_equal. lia. }
  assert (forall i b, vget l i = Some b -> vget l' i = Some b) as Hkeep.
  { intros i b Hi. rewrite Hl', vget_lookup. apply lookup_app_l_Some. by rewrite <- vget_lookup. }
  set (new := (fun j => (Z.to_N flm + N.of_nat j)%N) <$> seq 0 100).
  assert (forall i, i ∈ new -> (k <= i)%N /\ vget l' i = Some []) as Hnew.
  { intros i (j & -> & Hj%elem_of_seq)%list_elem_of_fmap. split; [lia|]. rewrite Hl', vget_lookup.
    rewrite lookup_app_r by (unfold k, vsize in *; lia). apply lookup_replicate_2. unfold k, vsize in *. lia. }
  assert (forall e i, m_edge_id_to_list_index_map c !! e = Some i -> (i < k)%N) as Hused.
  { intros e i Hi. destruct (ge_entry _ _ H e i Hi) as [b Hb]. destruct (ge_bucket _ _ H e b Hb) as (i' & Hi' & Hv). cbn [fst] in *.
    assert (i' = i) as -> by congruence. by apply vget_Some_lt in Hv. }
  split; [|split; [|split; [done|]]].
  - constructor; cbn [fst snd m_compressed_geometries m_free_list m_edge_id_to_list_index_map].
    + intros e b Hb. destruct (ge_bucket _ _ H e b Hb) as (i & Hi & Hv). exists i. split; [done|]. by apply Hkeep.
    + apply (ge_entry _ _ H).
    + apply (ge_inj _ _ H).
    + apply (ge_nonempty _ _ H).
    + intros i [Hi|Hi]%elem_of_app; [apply Hkeep, (ge_free _ _ H i Hi)|apply (Hnew i Hi)].
    + intros i e [Hi|Hi]%elem_of_app He; [by apply (ge_unused _ _ H i e Hi)|]. apply Hused in He. destruct (Hnew i Hi). lia.
    + apply NoDup_app. split; [apply (ge_nodup _ _ H)|]. split.
      * intros i Hi Hi'. pose proof (ge_free _ _ H i Hi) as Hf. apply vget_Some_lt in Hf. destruct (Hnew i Hi'). cbn [fst] in Hf. fold l k in Hf. lia.
      * apply NoDup_fmap_2; [intros a b Hab; lia|apply NoDup_seq].
    + fold l'. rewrite Hl', vsize_app. change (vsize (replicate 100 [])) with 100%N. fold k. lia.
  - intros Hnil. apply app_eq_nil in Hnil as [_ Hnil]. done.
  - fold l'. rewrite Hl', vsize_app. done.
Qed.

(** The abstract map with a new entry is not yet represented: its bucket is
    empty. *)
Lemma create_entry_ok s G e : geometry_inv s G -> G !! e = None -> (vsize (m_compressed_geometries (fst s)) + 100 < 2147483648)%N ->
  exists s1 s' i, create_entry e s = Some s' /\ geometry_inv s1 G /\ m_free_list (fst s1) = m_free_list (fst s') ++ [i] /\
    m_compressed_geometries (fst s') = m_compressed_geometries (fst s1) /\ snd s' = snd s1 /\
    m_edge_id_to_list_index_map (fst s') = <[e := i]> (m_edge_id_to_list_index_map (fst s1)) /\
    (vsize (m_compressed_geometries (fst s')) <= vsize (m_compressed_geometries (fst s)) + 100)%N.
Proof.
  intros H Hnone Hsmall. unfold create_entry.
  assert (exists s1, (if (vsize (m_free_list (fst s)) =? 0)%N then IncreaseFreeList s else Some s) = Some s1 /\ geometry_inv s1 G /\
    m_free_list (fst s1) <> [] /\ (vsize (m_compressed_geometries (fst s1)) <= vsize (m_compressed_geometries (fst s)) + 100)%N) as (s1 & -> & H1 & Hne & Hle).
  { destruct (N.eqb_spec (vsize (m_free_list (fst s))) 0) as [Hz|Hz].
    - destruct (increase_ok s G H Hsmall) as (s1 & Hr & H1 & Hne & _ & Hv). exists s1. split; [done|]. split; [done|]. split; [done|]. lia.
    - exists s. split; [done|]. split; [done|]. split; [by intros Hnil; rewrite Hnil in Hz|lia]. }
  destruct s1 as [c flm]. cbn [fst snd] in *. cbn [mbind option_bind]. destruct (exists_last Hne) as (free & i & Hfree). unfold vback. rewrite Hfree, last_snoc. cbn [mbind option_bind].
  exists (c, flm). eexists _, i. split; [done|]. cbn [fst snd m_compressed_geometries m_free_list m_edge_id_to_list_index_map].
  split; [done|]. split; [|done]. rewrite Hfree. unfold vpop. rewrite length_app, Nat.add_sub. by rewrite take_app_length.
Qed.

(** The state after the first edge has an entry: its bucket [i1] may still be
    empty. *)
Record opened (s : geometry_state) G (e1 i1 : N) : Prop := {
  op_first : m_edge_id_to_list_index_map (fst s) !! e1 = Some i1;
  op_other e : e <> e1 -> match m_edge_id_to_list_index_map (fst s) !! e with
    | None => G !! e = None
    | Some i => i <> i1 /\ exists l, G !! e = Some l /\ l <> [] /\ vget (m_compressed_geometries (fst s)) i = Some l
    end;
  op_inj e e' i : m_edge_id_to_list_index_map (fst s) !! e = Some i -> m_edge_id_to_list_index_map (fst s) !! e' = Some i -> e = e';
  op_free i : i ∈ m_free_list (fst s) -> i <> i1 /\ vget (m_compressed_geometries (fst s)) i = Some [] /\
    forall e, m_edge_id_to_list_index_map (fst s) !! e <> Some i;
  op_nodup : NoDup (m_free_list (fst s));
  op_next : snd s = Z.of_N (vsize (m_compressed_geometries (fst s)));
}.

Lemma other_entry s G e : geometry_inv s G -> match m_edge_id_to_list_index_map (fst s) !! e with
  | None => G !! e = None
  | Some i => exists l, G !! e = Some l /\ l <> [] /\ vget (m_compressed_geometries (fst s)) i = Some l
  end.
Proof.
  intros H. destruct (m_edge_id_to_list_index_map (fst s) !! e) as [i|] eqn:E; [|by apply (geometry_none s G e H)].
  destruct (ge_entry s G H _ _ E) as [l Hl]. destruct (ge_bucket s G H _ _ Hl) as (j & Hj & Hv). exists l. split; [done|].
  split; [by eapply ge_nonempty|congruence].
Qed.

Lemma compress_first s G o : geometry_inv s G -> (vsize (m_compressed_geometries (fst s)) + 100 < 2147483648)%N ->
  exists s1 i1 l1, (if negb (HasEntryForID (cp_first o) (fst s)) then create_entry (cp_first o) s else Some s) = Some s1 /\
    opened s1 G (cp_first o) i1 /\ vget (m_compressed_geometries (fst s1)) i1 = Some l1 /\
    match l1 with [] => [(cp_via o, cp_weight1 o)] | l => l end = default [(cp_via o, cp_weight1 o)] (G !! cp_first o) /\
    (vsize (m_compressed_geometries (fst s1)) <= vsize (m_compressed_geometries (fst s)) + 100)%N.
Proof.
  intros H Hsmall. unfold HasEntryForID. pose proof (other_entry s G (cp_first o) H) as Hfirst.
  destruct (m_edge_id_to_list_index_map (fst s) !! cp_first o) as [i1|] eqn:E1; cbn [negb].
  - destruct Hfirst as (l1 & Hl1 & Hne & Hv). exists s, i1, l1. split; [done|]. split; [|split; [done|split; [rewrite Hl1; by destruct l1|lia]]].
    constructor; [done| |apply (ge_inj s G H)| |apply (ge_nodup s G H)|apply (ge_next s G H)].
    + intros e Hee. pose proof (other_entry s G e H) as He. destruct (m_edge_id_to_list_index_map (fst s) !! e) as [i|] eqn:Ei; [|done].
      split; [|done]. intros ->. by apply Hee, (ge_inj s G H _ _ i1).
    + intros i Hf. split; [intros ->; by eapply (ge_unused s G H)|]. split; [by apply (ge_free s G H)|]. intros e. by apply (ge_unused s G H).
  - destruct (create_entry_ok s G (cp_first o) H Hfirst Hsmall) as (s0 & s1 & i1 & Hc & H0 & Hfree & Hgeo & Hsnd & Hmap & Hle).
    assert (i1 ∈ m_free_list (fst s0)) as Hi1 by (rewrite Hfree, elem_of_app, list_elem_of_singleton; tauto).
    pose proof (ge_nodup s0 G H0) as Hnd. rewrite Hfree in Hnd. apply NoDup_app in Hnd as (Hnd & Hdis & _).
    exists s1, i1, []. split; [done|]. rewrite Hgeo. split; [|split; [by apply (ge_free s0 G H0)|split; [by rewrite Hfirst|by rewrite <- Hgeo]]].
    constructor; rewrite ?Hmap, ?Hgeo.
    + by rewrite lookup_insert_eq.
    + intros e Hne. rewrite lookup_insert_ne by done. pose proof (other_entry s0 G e H0) as He.
      destruct (m_edge_id_to_list_index_map (fst s0) !! e) as [i|] eqn:Ei; [|done]. split; [intros ->; by eapply (ge_unused s0 G H0)|done].
    + intros e e' i [[<- <-]|[Hn1 Ha]]%lookup_insert_Some [[<- Hb]|[Hn2 Hb]]%lookup_insert_Some.
      * done.
      * by apply (ge_unused s0 G H0) in Hb.
      * subst i. by apply (ge_unused s0 G H0) in Ha.
      * by eapply (ge_inj s0 G H0).
    + intros i Hf. assert (i ∈ m_free_list (fst s0)) as Hf0 by (rewrite Hfree, elem_of_app; tauto).
      assert (i <> i1) as Hne by (intros ->; apply (Hdis i1 Hf), list_elem_of_singleton; done).
      split; [done|]. split; [by apply (ge_free s0 G H0)|].
      intros e [[_ ?]|[_ He]]%lookup_insert_Some; [done|]. by eapply (ge_unused s0 G H0).
    + done.
    + rewrite Hsnd. apply (ge_next s0 G H0).
Qed.

(** Filling the bucket of the first edge. *)
Lemma fill_bucket s G e1 i1 l : opened s G e1 i1 -> (i1 < vsize (m_compressed_geometries (fst s)))%N -> l <> [] ->
  geometry_inv (MkGeometryCompressor (<[N.to_nat i1 := l]> (m_compressed_geometries (fst s))) (m_free_list (fst s))
    (m_edge_id_to_list_index_map (fst s)), snd s) (<[e1 := l]> G).
Proof.
  intros [Hf Ho Hi Hfr Hnd Hnx] Hlt Hne.
  constructor; cbn [fst snd m_compressed_geometries m_free_list m_edge_id_to_list_index_map].
  - intros e l' [[<- <-]|[Hee Hl]]%lookup_insert_Some.
    + exists i1. split; [done|]. by rewrite vget_insert, decide_True.
    + specialize (Ho e (not_eq_sym Hee)). destruct (m_edge_id_to_list_index_map (fst s) !! e) as [i|]; [|congruence].
      destruct Ho as (Hii & l0 & Hl0 & _ & Hv). exists i. split; [done|]. rewrite vget_insert, decide_False by (intros [? _]; congruence). congruence.
  - intros e i He. destruct (decide (e1 = e)) as [<-|Hee]; [by rewrite lookup_insert_eq|]. rewrite lookup_insert_ne by done.
    specialize (Ho e (not_eq_sym Hee)). rewrite He in Ho. destruct Ho as (_ & l0 & -> & _). done.
  - done.
  - intros e l' [[_ <-]|[Hee Hl]]%lookup_insert_Some; [done|]. specialize (Ho e (not_eq_sym Hee)).
    destruct (m_edge_id_to_list_index_map (fst s) !! e) as [i|]; [|congruence]. destruct Ho as (_ & l0 & Hl0 & ? & _). congruence.
  - intros i Hin. destruct (Hfr i Hin) as (Hii & Hv & _). rewrite vget_insert, decide_False by (intros [? _]; congruence). done.
  - intros i e Hin. by apply (Hfr i Hin).
  - done.
  - by rewrite vsize_insert.
Qed.

(** Giving the bucket of an entry back. *)
Lemma free_bucket s G e i : geometry_inv s G -> m_edge_id_to_list_index_map (fst s) !! e = Some i ->
  geometry_inv (MkGeometryCompressor (<[N.to_nat i := []]> (m_compressed_geometries (fst s))) (m_free_list (fst s) ++ [i])
    (delete e (m_edge_id_to_list_index_map (fst s))), snd s) (delete e G).
Proof.
  intros H Hi. pose proof (other_entry s G e H) as He. rewrite Hi in He. destruct He as (l & Hl & _ & Hv).
  apply vget_Some_lt in Hv. constructor; cbn [fst snd m_compressed_geometries m_free_list m_edge_id_to_list_index_map].
  - intros e' l' [Hne Hl']%lookup_delete_Some. destruct (ge_bucket s G H e' l' Hl') as (j & Hj & Hvj). exists j.
    rewrite lookup_delete_ne by done. split; [done|]. rewrite vget_insert, decide_False; [done|]. intros [-> _]. by apply Hne, (ge_inj s G H _ _ j).
  - intros e' j [Hne Hj]%lookup_delete_Some. rewrite lookup_delete_ne by done. by eapply ge_entry.
  - intros e' e'' j [_ Ha]%lookup_delete_Some [_ Hb]%lookup_delete_Some. by eapply (ge_inj s G H).
  - intros e' l' [_ Hl']%lookup_delete_Some. by eapply ge_nonempty.
  - intros j [Hj| ->%list_elem_of_singleton]%elem_of_app.
    + rewrite vget_insert. case_decide; [done|]. by apply (ge_free s G H).
    + rewrite vget_insert, decide_True; done.
  - intros j e' [Hj| ->%list_elem_of_singleton]%elem_of_app [Hne He']%lookup_delete_Some; [by eapply (ge_unused s G H)|].
    by apply Hne, (ge_inj s G H _ _ i).
  - apply NoDup_app. split; [apply (ge_nodup s G H)|]. split; [|apply NoDup_singleton].
    intros j Hj ->%list_elem_of_singleton. by eapply (ge_unused s G H).
  - rewrite vsize_insert. apply (ge_next s G H).
Qed.

Lemma compress_edge_ok s G o : geometry_inv s G -> cp_first o <> cp_second o -> (vsize (m_compressed_geometries (fst s)) + 100 < 2147483648)%N ->
  exists s', run_compression s o = Some s' /\ geometry_inv s' (compress_geometry G o) /\
    (vsize (m_compressed_geometries (fst s')) <= vsize (m_compressed_geometries (fst s)) + 100)%N.
Proof.
  intros H Hne Hsmall. unfold run_compression, CompressEdge.
  destruct (compress_first s G o H Hsmall) as ([c flm] & i1 & l1 & -> & Hop & Hv1 & Hl1 & Hle).
  cbn [mbind option_bind]. unfold GetPositionForID. pose proof (op_first _ _ _ _ Hop) as Hi1. cbn [fst] in *. rewrite Hi1. cbn [mbind option_bind].
  rewrite Hv1. cbn [mbind option_bind]. rewrite Hl1. unfold compress_geometry, HasEntryForID. set (L1 := default _ (G !! cp_first o)).
  assert (L1 <> []) as HL1 by (unfold L1; destruct (G !! cp_first o) eqn:E; [by apply (ge_nonempty s G H _ _ E)|done]).
  pose proof (vget_Some_lt _ _ _ Hv1) as Hlt1. pose proof (op_other _ _ _ _ Hop (cp_second o) (not_eq_sym Hne)) as H2. cbn [fst] in H2.
  destruct (m_edge_id_to_list_index_map c !! cp_second o) as [i2|] eqn:E2.
  - destruct H2 as (Hi & l2 & Hl2 & _ & Hv2). cbn [mbind option_bind]. rewrite (proj2 (N.eqb_neq i2 i1) Hi), Hv2.
    cbn [mbind option_bind]. rewrite vset_lt by done. cbn [mbind option_bind].
    pose proof (vget_Some_lt _ _ _ Hv2) as Hlt2. rewrite vset_lt by (by rewrite vsize_insert). cbn [mbind option_bind].
    rewrite Hl2. cbn [default]. eexists. split; [done|]. cbn [fst m_compressed_geometries]. split; [|by rewrite !vsize_insert].
    rewrite <- delete_insert_ne by done.
    exact (free_bucket _ _ _ _ (fill_bucket _ _ _ _ (L1 ++ l2) Hop Hlt1 ltac:(by destruct L1)) E2).
  - rewrite vset_lt by done. cbn [mbind option_bind]. rewrite H2, delete_id by done. cbn [default]. eexists. split; [done|].
    cbn [fst m_compressed_geometries]. split; [|by rewrite vsize_insert].
    exact (fill_bucket _ _ _ _ (L1 ++ [(cp_target o, cp_weight2 o)]) Hop Hlt1 ltac:(by destruct L1)).
Qed.

Lemma geometry_make_ok : exists s, GeometryCompressor_make 0 = Some s /\ geometry_inv s ∅ /\ vsize (m_compressed_geometries (fst s)) = 100%N.
Proof.
  destruct (increase_ok (MkGeometryCompressor [] [] ∅, 0%Z) ∅) as (s & Hs & Hinv & _ & _ & Hv); [|done|].
  - constructor; cbn [fst snd m_compressed_geometries m_free_list m_edge_id_to_list_index_map]; try done;
      try (intros *; by rewrite lookup_empty); try (by intros * ?%elem_of_nil); constructor.
  - exists s. done.
Qed.

Lemma compressions_ok ops : forall s G, geometry_inv s G -> Forall (fun o => cp_first o <> cp_second o) ops ->
  (vsize (m_compressed_geometries (fst s)) + 100 * vsize ops + 100 < 2147483648)%N ->
  exists s', fold_m run_compression s ops = Some s' /\ geometry_inv s' (foldl compress_geometry G ops) /\
    (vsize (m_compressed_geometries (fst s')) <= vsize (m_compressed_geometries (fst s)) + 100 * vsize ops)%N.
Proof.
  induction ops as [|o ops IH]; intros s G H HF Hsmall; [exists s; split; [done|]; split; [done|lia]|].
  apply Forall_cons in HF as [Ho HF]. change (vsize (o :: ops)) with (N.of_nat (S (length ops))) in *. fold (vsize ops) in *.
  assert (N.of_nat (S (length ops)) = vsize ops + 1)%N as Hlen by (unfold vsize; lia). rewrite Hlen in *.
  destruct (compress_edge_ok s G o H Ho ltac:(lia)) as (s1 & Hs1 & H1 & Hle1). cbn [fold_m foldl]. rewrite Hs1. cbn [mbind option_bind].
  destruct (IH s1 _ H1 HF ltac:(lia)) as (s2 & Hs2 & H2 & Hle2). exists s2. split; [done|]. split; [done|]. lia.
Qed.
End compressor.

(** ** The number of stored nodes *)

Definition stored (c : GeometryCompressor) : N := vsize (concat (m_compressed_geometries c)).

Lemma vset_concat {A} (l l' : list (list A)) i x y : vset l i x = Some l' -> vget l i = Some y ->
  (vsize (concat l') + vsize y = vsize (concat l) + vsize x)%N.
Proof.
  intros [_ ->]%vset_Some Hy. rewrite vget_lookup in Hy. apply list_elem_of_split_length in Hy as (l1 & l2 & -> & Hi).
  rewrite insert_app_r_alt by lia. rewrite Hi, Nat.sub_diag. cbn [insert list_insert]. rewrite !concat_app. cbn [concat].
  rewrite !vsize_app. lia.
Qed.

Lemma concat_replicate_nil {A} n : concat (replicate n (@nil A)) = [].
Proof. by induction n. Qed.

Lemma increase_stored s s' : IncreaseFreeList s = Some s' -> stored (fst s') = stored (fst s).
Proof.
  destruct s as [c flm]. unfold IncreaseFreeList. intros Hs. destruct (fold_m _ _ _) as [[free next]|]; [|done]. injection Hs as <-.
  unfold stored. cbn [fst m_compressed_geometries]. unfold vresize, vsize. rewrite take_ge by lia.
  by rewrite concat_app, concat_replicate_nil, app_nil_r.
Qed.

Lemma create_stored e s s' : create_entry e s = Some s' -> stored (fst s') = stored (fst s).
Proof.
  unfold create_entry. intros Hs. destruct (if (_ =? 0)%N then _ else _) as [[c flm]|] eqn:E; [|done]. cbn [mbind option_bind] in Hs.
  destruct (vback (m_free_list c)); [|done]. injection Hs as <-. unfold stored at 1. cbn [fst m_compressed_geometries].
  destruct (vsize (m_free_list (fst s)) =? 0)%N; [by apply increase_stored in E|by injection E as ->].
Qed.

Lemma compress_stored s o s' : run_compression s o = Some s' -> (stored (fst s') <= stored (fst s) + 2)%N.
Proof.
  unfold run_compression, CompressEdge. intros Hs.
  destruct (if negb _ then _ else _) as [[c flm]|] eqn:E; [|done]. cbn [mbind option_bind] in Hs.
  assert (stored c = stored (fst s)) as Hst.
  { destruct (negb _); [by apply create_stored in E|by injection E as ->]. }
  destruct (GetPositionForID (cp_first o) c) as [i1|]; [|done]. cbn [mbind option_bind] in Hs.
  destruct (vget (m_compressed_geometries c) i1) as [l1|] eqn:E1; [|done]. cbn [mbind option_bind] in Hs.
  set (L1 := match l1 with [] => _ | _ => l1 end) in *. assert (vsize L1 <= vsize l1 + 1)%N as HL1 by (unfold L1, vsize; destruct l1; simpl; lia).
  destruct (HasEntryForID (cp_second o) c).
  - destruct (GetPositionForID (cp_second o) c) as [i2|]; [|done]. cbn [mbind option_bind] in Hs.
    destruct (N.eqb_spec i2 i1) as [|Hne]; [done|]. destruct (vget (m_compressed_geometries c) i2) as [l2|] eqn:E2; [|done].
    cbn [mbind option_bind] in Hs. destruct (vset _ i1 _) as [b1|] eqn:Eb1; [|done]. cbn [mbind option_bind] in Hs.
    destruct (vset b1 i2 []) as [b2|] eqn:Eb2; [|done]. injection Hs as <-. unfold stored. cbn [fst m_compressed_geometries].
    pose proof (vset_concat _ _ _ _ _ Eb1 E1) as T1. assert (vget b1 i2 = Some l2) as E2'.
    { apply vset_Some in Eb1 as [_ ->]. rewrite vget_insert, decide_False by (intros [? _]; congruence). done. }
    pose proof (vset_concat _ _ _ _ _ Eb2 E2') as T2. rewrite vsize_app in T1. change (vsize []) with 0%N in T2. unfold stored in Hst. lia.
  - destruct (vset _ i1 _) as [b1|] eqn:Eb1; [|done]. injection Hs as <-. unfold stored. cbn [fst m_compressed_geometries].
    pose proof (vset_concat _ _ _ _ _ Eb1 E1) as T1. rewrite vsize_app in T1. change (vsize [_]) with 1%N in T1. unfold stored in Hst. lia.
Qed.

Lemma compressions_stored ops : forall s s', fold_m run_compression s ops = Some s' -> (stored (fst s') <= stored (fst s) + 2 * vsize ops)%N.
Proof.
  induction ops as [|o ops IH]; intros s s' Hs; cbn [fold_m] in Hs; [injection Hs as <-; lia|].
  destruct (run_compression s o) as [s1|] eqn:E1; [|done]. cbn [mbind option_bind] in Hs. apply IH in Hs. apply compress_stored in E1.
  assert (vsize (o :: ops) = vsize ops + 1)%N by (unfold vsize; simpl; lia). lia.
Qed.

(** ** Reading the file back *)

Fixpoint offsets {A} (l : list (list A)) (p : N) : list N :=
  match l with [] => [p] | x :: l' => p :: offsets l' (p + vsize x) end.

Lemma offsets_lookup {A} (l : list (list A)) : forall p i, (i <= length l)%nat ->
  offsets l p !! i = Some (p + vsize (concat (take i l)))%N.
Proof.
  induction l as [|x l IH]; intros p i Hi.
  - assert (i = 0)%nat as -> by (simpl in Hi; lia). cbn. f_equal. unfold vsize. simpl. lia.
  - destruct i as [|i]; [cbn; f_equal; unfold vsize; simpl; lia|]. cbn [offsets take concat lookup list_lookup]. simpl in Hi.
    change (offsets l (p + vsize x) !! i = Some (p + vsize (x ++ concat (take i l)))%N). rewrite IH by lia. rewrite vsize_app. f_equal. lia.
Qed.

Lemma offsets_length {A} (l : list (list A)) p : length (offsets l p) = S (length l).
Proof. revert p. induction l as [|x l IH]; intros p; [done|]. cbn. by rewrite IH. Qed.

Lemma offsets_bound {A} (l : list (list A)) p x : x ∈ offsets l p -> (x <= p + vsize (concat l))%N.
Proof.
  intros [i Hi]%list_elem_of_lookup_1. pose proof (lookup_lt_Some _ _ _ Hi) as Hlt. rewrite offsets_length in Hlt.
  rewrite offsets_lookup in Hi by lia. injection Hi as <-. rewrite <- (take_drop i l) at 2. rewrite concat_app, vsize_app. lia.
Qed.

Lemma write_indices_eq l : forall p, (p + vsize (concat l) < 4294967296)%N ->
  write_indices l p = (offsets l p ≫= le32) ++ le32 (p + vsize (concat l)).
Proof.
  induction l as [|x l IH]; intros p Hp; cbn [write_indices offsets concat].
  - cbn [mbind list_bind]. rewrite app_nil_r, N.add_0_r. done.
  - cbn [concat] in Hp. rewrite vsize_app in Hp. rewrite bind_cons, <- app_assoc. f_equal.
    rewrite (u32_small (vsize x)), uadd_small by lia. rewrite IH by lia. rewrite vsize_app. do 2 f_equal. lia.
Qed.

Lemma load_serialized c f : (vsize (m_compressed_geometries c) < 4294967295)%N -> (stored c < 4294967296)%N ->
  Forall (Forall (fun x => (fst x < 4294967296)%N)) (m_compressed_geometries c) ->
  exists f', LoadGeometries (SerializeInternalVector c) f = Some f' /\ m_geometry_indices f' = offsets (m_compressed_geometries c) 0 /\
    m_geometry_list f' = fst <$> concat (m_compressed_geometries c).
Proof.
  intros Hn Hst HF. unfold LoadGeometries, SerializeInternalVector. set (l := m_compressed_geometries c) in *. unfold stored in Hst. fold l in Hst.
  rewrite read_le32 by apply u32_lt. cbn [mbind option_bind]. rewrite u32_small by lia.
  rewrite write_indices_eq by lia. rewrite <- !app_assoc.
  replace (N.to_nat (vsize l + 1)) with (length (offsets l 0)) by (rewrite offsets_length; unfold vsize; lia).
  rewrite (read_many_ok read_word le32 id).
  2: { intros x s Hx%offsets_bound. apply (read_le32 x s). lia. }
  cbn [mbind option_bind]. rewrite read_le32 by lia. cbn [mbind option_bind]. rewrite N.add_0_l.
  assert ((l ≫= fun v => v ≫= fun x => le32 (fst x)) = (concat l ≫= fun x => le32 (fst x))) as ->.
  { clear. induction l as [|x l IH]; [done|]. cbn [concat]. by rewrite bind_cons, bind_app, IH. }
  rewrite <- (app_nil_r (concat l ≫= _)). unfold vsize. rewrite Nat2N.id.
  rewrite (read_many_ok read_word (fun x => le32 (fst x)) fst).
  2: { intros x s Hx. apply read_le32. apply list_elem_of_In, in_concat in Hx as (v & Hv%list_elem_of_In & Hx%list_elem_of_In).
       rewrite Forall_forall in HF. specialize (HF v Hv). rewrite Forall_forall in HF. by apply HF. }
  cbn [mbind option_bind]. eexists. split; [done|]. split; [|done]. cbn. by rewrite list_fmap_id.
Qed.

Lemma geometry_of f (l : list (list CompressedNode)) i b : m_geometry_indices f = offsets l 0 -> m_geometry_list f = fst <$> concat l ->
  vget l i = Some b -> (vsize l < 4294967295)%N -> GetUncompressedGeometry i f = Some (fst <$> b).
Proof.
  intros Hi Hg Hb Hn. pose proof (vget_Some_lt _ _ _ Hb) as Hlt. unfold GetUncompressedGeometry. rewrite Hi, Hg.
  assert (N.to_nat i < length l)%nat as Hl by (unfold vsize in Hlt; lia). rewrite uadd_small by lia.
  rewrite !vget_lookup, !offsets_lookup by lia. cbn [mbind option_bind]. rewrite vget_lookup in Hb.
  replace (N.to_nat (i + 1)) with (S (N.to_nat i)) by lia. rewrite (take_S_r _ _ _ Hb), concat_app, vsize_app. cbn [concat].
  rewrite app_nil_r, !N.add_0_l. set (p := vsize (concat (take (N.to_nat i) l))).
  assert (concat l = concat (take (N.to_nat i) l) ++ b ++ concat (drop (S (N.to_nat i)) l)) as Hsplit.
  { rewrite <- (take_drop_middle l _ _ Hb) at 1. by rewrite concat_app. }
  assert (vsize (fst <$> concat l) = vsize (concat l)) as -> by (unfold vsize; by rewrite length_fmap).
  destruct (N.leb_spec p (p + vsize b)); [|lia]. destruct (N.leb_spec (p + vsize b) (vsize (concat l))) as [_|Hgt].
  2: { rewrite Hsplit, !vsize_app in Hgt. unfold p in Hgt. lia. }
  cbn [andb]. f_equal. rewrite Hsplit, !fmap_app. unfold p, vsize.
  rewrite drop_app_length' by (rewrite length_fmap; lia). rewrite take_app_length' by (rewrite length_fmap; lia). done.
Qed.

Section nodes.
  Context (P : CompressedNode -> Prop).

Definition buckets_hold (c : GeometryCompressor) : Prop := Forall (Forall P) (m_compressed_geometries c).

Lemma vset_hold (l l' : list (list CompressedNode)) i x : Forall (Forall P) l -> vset l i x = Some l' -> Forall P x -> Forall (Forall P) l'.
Proof. intros HF [_ ->]%vset_Some Hx. by apply Forall_insert. Qed.

Lemma vget_hold (l : list (list CompressedNode)) i x : Forall (Forall P) l -> vget l i = Some x -> Forall P x.
Proof. intros HF Hx. rewrite vget_lookup in Hx. by eapply Forall_lookup_1. Qed.

Lemma increase_hold s s' : buckets_hold (fst s) -> IncreaseFreeList s = Some s' -> buckets_hold (fst s').
Proof.
  destruct s as [c flm]. unfold IncreaseFreeList, buckets_hold. intros HF Hs. destruct (fold_m _ _ _) as [[free next]|]; [|done]. injection Hs as <-.
  cbn [fst m_compressed_geometries]. apply Forall_app. split; [by apply Forall_take|]. by apply Forall_replicate.
Qed.

Lemma create_hold e s s' : buckets_hold (fst s) -> create_entry e s = Some s' -> buckets_hold (fst s').
Proof.
  unfold create_entry. intros HF Hs. destruct (if (_ =? 0)%N then _ else _) as [[c flm]|] eqn:E; [|done]. cbn [mbind option_bind] in Hs.
  destruct (vback (m_free_list c)); [|done]. injection Hs as <-. change (buckets_hold (fst (c, flm))).
  destruct (vsize (m_free_list (fst s)) =? 0)%N; [by eapply increase_hold|by injection E as ->].
Qed.

Lemma compress_hold s o s' : buckets_hold (fst s) -> P (cp_via o, cp_weight1 o) -> P (cp_target o, cp_weight2 o) ->
  run_compression s o = Some s' -> buckets_hold (fst s').
Proof.
  unfold run_compression, CompressEdge. intros HF HP1 HP2 Hs.
  destruct (if negb _ then _ else _) as [[c flm]|] eqn:E; [|done]. cbn [mbind option_bind] in Hs.
  assert (buckets_hold c) as Hc by (destruct (negb _); [by apply create_hold in E|by injection E as ->]).
  destruct (GetPositionForID (cp_first o) c) as [i1|]; [|done]. cbn [mbind option_bind] in Hs.
  destruct (vget (m_compressed_geometries c) i1) as [l1|] eqn:E1; [|done]. cbn [mbind option_bind] in Hs.
  apply (vget_hold _ _ _ Hc) in E1. set (L1 := match l1 with [] => _ | _ => l1 end) in *.
  assert (Forall P L1) as HL1 by (unfold L1; destruct l1; [by constructor|done]).
  destruct (HasEntryForID (cp_second o) c).
  - destruct (GetPositionForID (cp_second o) c) as [i2|]; [|done]. cbn [mbind option_bind] in Hs.
    destruct (N.eqb_spec i2 i1) as [|Hne]; [done|]. destruct (vget (m_compressed_geometries c) i2) as [l2|] eqn:E2; [|done].
    apply (vget_hold _ _ _ Hc) in E2. cbn [mbind option_bind] in Hs. destruct (vset _ i1 _) as [b1|] eqn:Eb1; [|done]. cbn [mbind option_bind] in Hs.
    apply (vset_hold _ _ _ _ Hc) in Eb1; [|by apply Forall_app]. destruct (vset b1 i2 []) as [b2|] eqn:Eb2; [|done]. injection Hs as <-.
    by apply (vset_hold _ _ _ _ Eb1) in Eb2.
  - destruct (vset _ i1 _) as [b1|] eqn:Eb1; [|done]. injection Hs as <-. apply (vset_hold _ _ _ _ Hc) in Eb1; [done|].
    apply Forall_app. split; [done|]. by constructor.
Qed.

Lemma compressions_hold ops : forall s s', buckets_hold (fst s) ->
  Forall (fun o => P (cp_via o, cp_weight1 o) /\ P (cp_target o, cp_weight2 o)) ops ->
  fold_m run_compression s ops = Some s' -> buckets_hold (fst s').
Proof.
  induction ops as [|o ops IH]; intros s s' HF Hops Hs; cbn [fold_m] in Hs; [by injection Hs as <-|]. apply Forall_cons in Hops as [[H1 H2] Hops].
  destruct (run_compression s o) as [s1|] eqn:E1; [|done]. cbn [mbind option_bind] in Hs. eapply IH; [|done|done]. by eapply compress_hold.
Qed.
End nodes.

(** ** Properties *)

(** An operation on two different edges and on node ids. *)
Definition compression_ok (o : compression) : Prop :=
  cp_first o <> cp_second o /\ (cp_via o < 4294967296)%N /\ (cp_target o < 4294967296)%N.

(** C24: after any sequence of compressions the edges with a geometry are the
    expected ones: the first edge of a compression has the nodes and weights
    of both edges one after the other, and the second one has none. The file
    that is written can be loaded, and what the data facade returns at the
    position of an edge are the nodes of its geometry. *)
Theorem geometry_roundtrip ops f : Forall compression_ok ops -> (100 * vsize ops + 200 < 2147483648)%N ->
  exists s0 s f', GeometryCompressor_make 0 = Some s0 /\ fold_m run_compression s0 ops = Some s /\
    LoadGeometries (SerializeInternalVector (fst s)) f = Some f' /\
    forall e, match foldl compress_geometry ∅ ops !! e with
      | Some l => HasEntryForID e (fst s) = true /\ GetBucketReference e (fst s) = Some l /\
          exists i, GetPositionForID e (fst s) = Some i /\ GetUncompressedGeometry i f' = Some (fst <$> l)
      | None => HasEntryForID e (fst s) = false
      end.
Proof.
  intros Hops Hn. destruct geometry_make_ok as (s0 & Hs0 & Hinv0 & Hv0). exists s0.
  destruct (compressions_ok ops s0 ∅ Hinv0) as (s & Hs & Hinv & Hv); [by eapply Forall_impl; [done|]; intros o (? & _)|lia|].
  exists s. assert (stored (fst s0) = 0%N) as Hz by exact (increase_stored _ _ Hs0).
  pose proof (compressions_stored ops s0 s Hs) as Hst.
  assert (buckets_hold (fun x => (fst x < 4294967296)%N) (fst s)) as Hhold.
  { eapply compressions_hold; [|eapply Forall_impl; [exact Hops|]; intros o (_ & H1 & H2); by split|exact Hs].
    eapply increase_hold; [|exact Hs0]. constructor. }
  destruct (load_serialized (fst s) f) as (f' & Hf & Hi & Hg); [lia|lia|exact Hhold|].
  exists f'. split; [done|]. split; [done|]. split; [done|]. intros e. unfold HasEntryForID, GetBucketReference, GetPositionForID.
  destruct (foldl compress_geometry ∅ ops !! e) as [l|] eqn:El.
  - destruct (ge_bucket s _ Hinv e l El) as (i & -> & Hb). split; [done|]. cbn [mbind option_bind]. split; [done|].
    exists i. split; [done|]. eapply geometry_of; [exact Hi|exact Hg|exact Hb|lia].
  - by rewrite (proj2 (geometry_none s _ e Hinv) El).
Qed.

(** A chain of three edges: the last two are merged first. *)
Definition sample_compressions : list compression := [MkCompression 5 6 2 3 10 20; MkCompression 4 5 1 2 7 10].

Definition empty_facade : InternalDataFacade := MkFacade (StaticGraph_swap [0%N] []) [] [] [] [] [] [] [].

Lemma geometry_roundtrip_witness : exists s0 s f' i, GeometryCompressor_make 0 = Some s0 /\
  fold_m run_compression s0 sample_compressions = Some s /\ LoadGeometries (SerializeInternalVector (fst s)) empty_facade = Some f' /\
  GetPositionForID 4 (fst s) = Some i /\ GetUncompressedGeometry i f' = Some [1; 2; 3]%N /\ HasEntryForID 5 (fst s) = false.
Proof.
  destruct (geometry_roundtrip sample_compressions empty_facade) as (s0 & s & f' & H0 & Hs & Hf & He).
  - repeat constructor; discriminate.
  - reflexivity.
  - destruct (He 4%N) as (_ & _ & i & Hi & Hg). exists s0, s, f', i. split; [exact H0|]. split; [exact Hs|]. split; [exact Hf|].
    split; [exact Hi|]. split; [exact Hg|exact (He 5%N)].
Defined.
