(* ===== verification/NodeBasedGraph.v ===== *)
(** * DataStructures/NodeBasedGraph.h

    The graph of the road network before the edge expansion, built from the
    edges of the import: parallel edges are merged, and an edge that can be
    used in both directions at the same weight is stored once at each end. *)

From S2P Require Import Prelude Types Edges DynamicGraph.

(** ** The data of an edge *)

Record NodeBasedEdgeData := MkNodeBasedEdgeData {
  nd_distance : Z; nd_edgeBasedNodeID : N; nd_nameID : N; nd_isAccessRestricted : bool; nd_shortcut : bool;
  nd_forward : bool; nd_backward : bool; nd_roundabout : bool; nd_ignore_in_grid : bool; nd_travel_mode : N }.

Definition TRAVEL_MODE_INACCESSIBLE : N := 0.
Definition TRAVEL_MODE_DEFAULT : N := 1.

Definition NodeBasedEdgeData_default : NodeBasedEdgeData :=
  MkNodeBasedEdgeData INVALID_EDGE_WEIGHT SPECIAL_NODEID UINT_MAX false false false false false false TRAVEL_MODE_INACCESSIBLE.

Definition SwapDirectionFlags (d : NodeBasedEdgeData) : NodeBasedEdgeData :=
  MkNodeBasedEdgeData (nd_distance d) (nd_edgeBasedNodeID d) (nd_nameID d) (nd_isAccessRestricted d) (nd_shortcut d)
    (nd_backward d) (nd_forward d) (nd_roundabout d) (nd_ignore_in_grid d) (nd_travel_mode d).

Definition IsEqualTo (d other : NodeBasedEdgeData) : bool :=
  Bool.eqb (nd_forward d) (nd_forward other) && Bool.eqb (nd_backward d) (nd_backward other) &&
  (nd_nameID d =? nd_nameID other)%N && Bool.eqb (nd_ignore_in_grid d) (nd_ignore_in_grid other) &&
  (nd_travel_mode d =? nd_travel_mode other)%N.

Definition set_distance (w : Z) (d : NodeBasedEdgeData) : NodeBasedEdgeData :=
  MkNodeBasedEdgeData w (nd_edgeBasedNodeID d) (nd_nameID d) (nd_isAccessRestricted d) (nd_shortcut d)
    (nd_forward d) (nd_backward d) (nd_roundabout d) (nd_ignore_in_grid d) (nd_travel_mode d).

Definition set_edge_based_id (id : N) (d : NodeBasedEdgeData) : NodeBasedEdgeData :=
  MkNodeBasedEdgeData (nd_distance d) id (nd_nameID d) (nd_isAccessRestricted d) (nd_shortcut d)
    (nd_forward d) (nd_backward d) (nd_roundabout d) (nd_ignore_in_grid d) (nd_travel_mode d).

Abbreviation NodeBasedDynamicGraph := (DynamicGraph NodeBasedEdgeData).
Abbreviation NodeBasedInputEdge := (InputEdge NodeBasedEdgeData).

(** ** From the edges of the import *)

(** The half edges that an edge of the import is stored as. *)
Definition import_half_edges (import_edge : NodeBasedEdge) : list NodeBasedInputEdge :=
  let '(source, target, forward, backward) :=
    if nb_forward import_edge
    then (nb_source import_edge, nb_target import_edge, nb_forward import_edge, nb_backward import_edge)
    else (nb_target import_edge, nb_source import_edge, nb_backward import_edge, nb_forward import_edge) in
  if (source =? target)%N then []
  else
    let data := MkNodeBasedEdgeData (Z.max (nb_weight import_edge) 1) SPECIAL_NODEID (nb_name_id import_edge)
      (nb_access_restricted import_edge) false forward backward (nb_roundabout import_edge) (nb_in_tiny_cc import_edge)
      (ubits 4 (nb_travel_mode import_edge)) in
    MkInputEdge source target data ::
    (if negb (nb_is_split import_edge) then [MkInputEdge target source (SwapDirectionFlags data)] else []).

(** The parallel edges from position [i] on: the next position and the least
    distances of both directions. *)
Fixpoint scan_parallel_edges (fuel : nat) (edges_list : list NodeBasedInputEdge) (source target i : N)
    (forward_distance reverse_distance : Z) : option (N * Z * Z) :=
  match fuel with
  | O => None
  | S fuel' =>
      if (i <? vsize edges_list)%N then
        e ← vget edges_list i;
        if ((ie_source e =? source) && (ie_target e =? target))%N then
          let d := ie_data e in
          scan_parallel_edges fuel' edges_list source target (uadd i 1)
            (if nd_forward d then Z.min (nd_distance d) forward_distance else forward_distance)
            (if nd_backward d then Z.min (nd_distance d) reverse_distance else reverse_distance)
        else Some (i, forward_distance, reverse_distance)
      else Some (i, forward_distance, reverse_distance)
  end.

Definition directed_copy (e : NodeBasedInputEdge) (distance : Z) (forward backward : bool) : NodeBasedInputEdge :=
  let d := ie_data e in
  MkInputEdge (ie_source e) (ie_target e)
    (MkNodeBasedEdgeData distance (nd_edgeBasedNodeID d) (nd_nameID d) (nd_isAccessRestricted d) false
      forward backward (nd_roundabout d) (nd_ignore_in_grid d) (nd_travel_mode d)).

(** The edges that replace the group that starts with [e]. *)
Definition merged_group (e : NodeBasedInputEdge) (forward_distance reverse_distance : Z) : list NodeBasedInputEdge :=
  if (forward_distance =? reverse_distance)%Z then
    if negb (forward_distance =? INT_MAX)%Z then [directed_copy e forward_distance true true] else []
  else
    (if negb (forward_distance =? INT_MAX)%Z then [directed_copy e forward_distance true false] else []) ++
    (if negb (reverse_distance =? INT_MAX)%Z then [directed_copy e reverse_distance false true] else []).

(** [edges_list[edge_count++] = x] for each [x]. *)
Fixpoint store_edges {E} (out edges_list : list E) (edge_count : N) : option (list E * N) :=
  match out with
  | [] => Some (edges_list, edge_count)
  | x :: out' => edges' ← vset edges_list edge_count x; store_edges out' edges' (uadd edge_count 1)
  end.

Fixpoint merge_parallel (fuel : nat) (edges_list : list NodeBasedInputEdge) (i edge_count : N)
    : option (list NodeBasedInputEdge * N) :=
  match fuel with
  | O => None
  | S fuel' =>
      if (i <? vsize edges_list)%N then
        e ← vget edges_list i;
        if (ie_source e =? ie_target e)%N then merge_parallel fuel' edges_list (uadd i 1) edge_count
        else
          '(i', fd, rd) ← scan_parallel_edges (S (length edges_list)) edges_list (ie_source e) (ie_target e) i INT_MAX INT_MAX;
          '(edges', count') ← store_edges (merged_group e fd rd) edges_list edge_count;
          merge_parallel fuel' edges' i' count'
      else Some (edges_list, edge_count)
  end.

Definition NodeBasedDynamicGraphFromImportEdges (sort_edges : list NodeBasedInputEdge -> list NodeBasedInputEdge)
    (junk : N -> Edge NodeBasedEdgeData) (number_of_nodes : Z) (input_edge_list : list NodeBasedEdge) : option NodeBasedDynamicGraph :=
  let edges_list := sort_edges (input_edge_list ≫= import_half_edges) in
  '(edges', edge_count) ← merge_parallel (S (length edges_list)) edges_list 0 0;
  DynamicGraph_from junk (of_int number_of_nodes) (take (N.to_nat edge_count) edges').

(** ** The graph without data *)

Record SimpleEdgeData := MkSimpleEdgeData { capacity : Z }.

Definition SimpleEdgeData_default : SimpleEdgeData := MkSimpleEdgeData 0.

Abbreviation SimpleNodeBasedDynamicGraph := (DynamicGraph SimpleEdgeData).

Section simple.
  Context {SimpleEdgeT : Type} (simple_source simple_target : SimpleEdgeT -> N).

Definition simple_half_edges (import_edge : SimpleEdgeT) : list (InputEdge SimpleEdgeData) :=
  if (simple_source import_edge =? simple_target import_edge)%N then []
  else [MkInputEdge (simple_source import_edge) (simple_target import_edge) (MkSimpleEdgeData 1);
        MkInputEdge (simple_target import_edge) (simple_source import_edge) (MkSimpleEdgeData 1)].

Fixpoint scan_simple (fuel : nat) (edges_list : list (InputEdge SimpleEdgeData)) (source target i : N) (forward reverse : Z)
    : option (N * Z * Z) :=
  match fuel with
  | O => None
  | S fuel' =>
      if (i <? vsize edges_list)%N then
        e ← vget edges_list i;
        if ((ie_source e =? source) && (ie_target e =? target))%N then
          scan_simple fuel' edges_list source target (uadd i 1)
            (Z.min (capacity (ie_data e)) forward) (Z.min (capacity (ie_data e)) reverse)
        else Some (i, forward, reverse)
      else Some (i, forward, reverse)
  end.

Definition merged_simple (e : InputEdge SimpleEdgeData) (forward reverse : Z) : list (InputEdge SimpleEdgeData) :=
  let copy c := MkInputEdge (ie_source e) (ie_target e) (MkSimpleEdgeData c) in
  if (forward =? reverse)%Z then if negb (forward =? INVALID_EDGE_WEIGHT)%Z then [copy forward] else []
  else
    (if negb (forward =? INVALID_EDGE_WEIGHT)%Z then [copy forward] else []) ++
    (if negb (reverse =? INVALID_EDGE_WEIGHT)%Z then [copy reverse] else []).

Fixpoint merge_simple (fuel : nat) (edges_list : list (InputEdge SimpleEdgeData)) (i edge_count : N)
    : option (list (InputEdge SimpleEdgeData) * N) :=
  match fuel with
  | O => None
  | S fuel' =>
      if (i <? vsize edges_list)%N then
        e ← vget edges_list i;
        if (ie_source e =? ie_target e)%N then merge_simple fuel' edges_list (uadd i 1) edge_count
        else
          '(i', f, r) ← scan_simple (S (length edges_list)) edges_list (ie_source e) (ie_target e) i INVALID_EDGE_WEIGHT INVALID_EDGE_WEIGHT;
          '(edges', count') ← store_edges (merged_simple e f r) edges_list edge_count;
          merge_simple fuel' edges' i' count'
      else Some (edges_list, edge_count)
  end.

(** The list is not shrunk to the merged edges before the graph is built. *)
Definition SimpleNodeBasedDynamicGraphFromEdges (sort_input : list SimpleEdgeT -> list SimpleEdgeT)
    (sort_edges : list (InputEdge SimpleEdgeData) -> list (InputEdge SimpleEdgeData)) (junk : N -> Edge SimpleEdgeData)
    (number_of_nodes : Z) (input_edge_list : list SimpleEdgeT) : option SimpleNodeBasedDynamicGraph :=
  let edges_list := sort_edges (sort_input input_edge_list ≫= simple_half_edges) in
  '(edges', _) ← merge_simple (S (length edges_list)) edges_list 0 0;
  DynamicGraph_from junk (of_int number_of_nodes) edges'.
End simple.
