(* ===== verification/EdgeExpansion.v ===== *)
(** * Contractor/EdgeBasedGraphFactory.{h,cpp}

    The edge expansion: chains of nodes of degree two are compressed, every
    directed edge becomes a node of the new graph, and every allowed turn an
    edge of it. With Algorithms/BFSComponentExplorer.h,
    DataStructures/EdgeBasedNode.h, DataStructures/OriginalEdgeData.h and
    DataStructures/TurnInstructions.h. *)

From Stdlib Require Import Floats.SpecFloat.
From S2P Require Import Prelude Types Float32 Edges Storage BinaryHeap DynamicGraph StaticGraph Text Routing Hsgr.
From S2P Require Import Restrictions GeometryCompressor NodeBasedGraph.

(** ** Turn instructions *)

Inductive TurnInstruction :=
  | TI_NoTurn | GoStraight | TurnSlightRight | TurnRight | TurnSharpRight | UTurn
  | TurnSharpLeft | TurnLeft | TurnSlightLeft | ReachViaLocation | HeadOn | EnterRoundAbout
  | LeaveRoundAbout | StayOnRoundAbout | StartAtEndOfStreet | ReachedYourDestination
  | EnterAgainstAllowedDirection | LeaveAgainstAllowedDirection
  | InverseAccessRestrictionFlag | AccessRestrictionFlag | AccessRestrictionPenalty.

#[export] Instance TurnInstruction_eq : EqDecision TurnInstruction.
Proof. solve_decision. Defined.

(** The values of the enumeration. *)
Definition turn_code (t : TurnInstruction) : N :=
  match t with
  | TI_NoTurn => 0 | GoStraight => 1 | TurnSlightRight => 2 | TurnRight => 3 | TurnSharpRight => 4 | UTurn => 5
  | TurnSharpLeft => 6 | TurnLeft => 7 | TurnSlightLeft => 8 | ReachViaLocation => 9 | HeadOn => 10 | EnterRoundAbout => 11
  | LeaveRoundAbout => 12 | StayOnRoundAbout => 13 | StartAtEndOfStreet => 14 | ReachedYourDestination => 15
  | EnterAgainstAllowedDirection => 16 | LeaveAgainstAllowedDirection => 17
  | InverseAccessRestrictionFlag => 127 | AccessRestrictionFlag => 128 | AccessRestrictionPenalty => 129
  end.

(** [lo <= angle && angle < hi]. *)
Definition angle_in (lo hi : Z) (angle : double) : bool :=
  SFleb (double_of_int lo) angle && SFltb angle (double_of_int hi).

Definition GetTurnDirectionOfInstruction (angle : double) : TurnInstruction :=
  if angle_in 23 67 angle then TurnSharpRight
  else if angle_in 67 113 angle then TurnRight
  else if angle_in 113 158 angle then TurnSlightRight
  else if angle_in 158 202 angle then GoStraight
  else if angle_in 202 248 angle then TurnSlightLeft
  else if angle_in 248 292 angle then TurnLeft
  else if angle_in 292 336 angle then TurnSharpLeft
  else UTurn.

Definition TurnIsNecessary (turn_instruction : TurnInstruction) : bool :=
  negb (bool_decide (TI_NoTurn = turn_instruction) || bool_decide (StayOnRoundAbout = turn_instruction)).

(** ** The data of the new graph *)

Record NodeInfo := MkNodeInfo { ni_lat : Z; ni_lon : Z; ni_node_id : N }.

Record EdgeBasedNode := MkEdgeBasedNode {
  forward_edge_based_node_id : N; reverse_edge_based_node_id : N; en_u : N; en_v : N; en_name_id : N;
  en_forward_weight : Z; en_reverse_weight : Z; en_forward_offset : Z; en_reverse_offset : Z;
  en_packed_geometry_id : N; en_fwd_segment_position : N; is_in_tiny_cc : bool;
  en_forward_travel_mode : N; en_backward_travel_mode : N }.

(** The constructor: the position is an [unsigned short], the travel modes are
    fields of four bits. *)
Definition EdgeBasedNode_make (forward_id reverse_id u v name_id : N) (forward_weight reverse_weight forward_offset reverse_offset : Z)
    (packed_geometry_id fwd_segment_position : N) (tiny : bool) (forward_mode backward_mode : N) : EdgeBasedNode :=
  MkEdgeBasedNode forward_id reverse_id u v name_id forward_weight reverse_weight forward_offset reverse_offset
    packed_geometry_id (u16 fwd_segment_position) tiny (ubits 4 forward_mode) (ubits 4 backward_mode).

Definition EdgeBasedNode_IsCompressed (n : EdgeBasedNode) : bool := negb (en_packed_geometry_id n =? SPECIAL_EDGEID)%N.

(** Division truncates towards zero. *)
Definition Centroid (a b : FixedPointCoordinate) : option FixedPointCoordinate :=
  lat_sum ← iadd (lat a) (lat b); lon_sum ← iadd (lon a) (lon b);
  Some (MkCoordinate (Z.quot lat_sum 2) (Z.quot lon_sum 2)).

Record OriginalEdgeData := MkOriginalEdgeData {
  oe_via_node : N; oe_name_id : N; oe_turn_instruction : TurnInstruction; oe_compressed_geometry : bool; oe_travel_mode : N }.

Definition OriginalEdgeData_default : OriginalEdgeData := MkOriginalEdgeData UINT_MAX UINT_MAX TI_NoTurn false TRAVEL_MODE_INACCESSIBLE.

(** The twelve bytes of an entry; the last one is padding. *)
Definition original_bytes (d : OriginalEdgeData) : list N :=
  le32 (oe_via_node d) ++ le32 (oe_name_id d) ++
  [turn_code (oe_turn_instruction d); bit (oe_compressed_geometry d); u8 (oe_travel_mode d); 0]%N.

Record SpeedProfileProperties := MkSpeedProfile {
  traffic_signal_penalty : Z; u_turn_penalty : Z; has_turn_penalty_function : bool }.

Definition SpeedProfileProperties_default : SpeedProfileProperties := MkSpeedProfile 0 0 false.

(** ** The factory *)

Record EdgeBasedGraphFactory := MkFactory {
  speed_profile : SpeedProfileProperties;
  m_number_of_edge_based_nodes : N;
  m_node_info_list : list NodeInfo;
  m_edge_based_node_list : list EdgeBasedNode;
  m_edge_based_edge_list : list EdgeBasedEdge;
  m_node_based_graph : NodeBasedDynamicGraph;
  m_barrier_nodes : gset N;
  m_traffic_lights : gset N;
  fa_restriction_map : RestrictionMap;
  m_geometry_compressor : geometry_state;
  max_id : N }.

Definition EdgeBasedGraphFactory_make (node_based_graph : NodeBasedDynamicGraph) (restriction_map : RestrictionMap)
    (barrier_node_list traffic_light_node_list : list N) (node_info_list : list NodeInfo) (profile : SpeedProfileProperties)
    (free_list_maximum : Z) : option EdgeBasedGraphFactory :=
  compressor ← GeometryCompressor_make free_list_maximum;
  Some (MkFactory profile UINT_MAX node_info_list [] [] node_based_graph (list_to_set barrier_node_list)
    (list_to_set traffic_light_node_list) restriction_map compressor 0).

Implicit Types f : EdgeBasedGraphFactory.

(** The setters of the fields that the steps change. *)
Definition with_graph (g : NodeBasedDynamicGraph) f : EdgeBasedGraphFactory :=
  MkFactory (speed_profile f) (m_number_of_edge_based_nodes f) (m_node_info_list f) (m_edge_based_node_list f) (m_edge_based_edge_list f)
    g (m_barrier_nodes f) (m_traffic_lights f) (fa_restriction_map f) (m_geometry_compressor f) (max_id f).

Definition with_nodes (l : list EdgeBasedNode) (m : N) f : EdgeBasedGraphFactory :=
  MkFactory (speed_profile f) (m_number_of_edge_based_nodes f) (m_node_info_list f) l (m_edge_based_edge_list f)
    (m_node_based_graph f) (m_barrier_nodes f) (m_traffic_lights f) (fa_restriction_map f) (m_geometry_compressor f) m.

(** *** CompressGeometry *)

(** The two half edges of [node_v] and those that lead to it: the ids
    [forward_e1], [forward_e2], [reverse_e1], [reverse_e2] and the nodes
    [node_u], [node_w]. *)
Definition chain_edges (g : NodeBasedDynamicGraph) (node_v : N) : option (N * N * N * N * N * N) :=
  begin ← BeginEdges node_v g;
  first ← GetEdgeData begin g;
  let reverse_edge_order := if negb (nd_forward first) then 1%N else 0%N in
  let forward_e2 := uadd begin reverse_edge_order in
  let reverse_e2 := usub (uadd begin 1) reverse_edge_order in
  node_w ← GetTarget forward_e2 g;
  node_u ← GetTarget reverse_e2 g;
  forward_e1 ← FindEdge node_u node_v g;
  reverse_e1 ← FindEdge node_w node_v g;
  Some (forward_e1, forward_e2, reverse_e1, reverse_e2, node_u, node_w).

(** [GetEdgeData(e).distance += x]. *)
Definition add_distance (e : N) (x : Z) (g : NodeBasedDynamicGraph) : option NodeBasedDynamicGraph :=
  d ← GetEdgeData e g;
  sum ← iadd (nd_distance d) x;
  AssignEdgeData e (set_distance sum) g.

(** The graph after the half edges of [node_v] are merged into the ones that
    lead to it. [fwd_edge_data2] and [rev_edge_data2] are references. *)
Definition merge_at (g : NodeBasedDynamicGraph) (node_v forward_e1 forward_e2 reverse_e1 reverse_e2 node_u node_w : N)
    (penalty : option Z) : option NodeBasedDynamicGraph :=
  fwd_edge_data2 ← GetEdgeData forward_e2 g;
  g1 ← add_distance forward_e1 (nd_distance fwd_edge_data2) g;
  rev_edge_data2 ← GetEdgeData reverse_e2 g1;
  g2 ← add_distance reverse_e1 (nd_distance rev_edge_data2) g1;
  g3 ← (match penalty with
        | Some p => g' ← add_distance forward_e1 p g2; add_distance reverse_e1 p g'
        | None => Some g2
        end);
  g4 ← SetTarget forward_e1 node_w g3;
  g5 ← SetTarget reverse_e1 node_u g4;
  g6 ← DeleteEdge node_v forward_e2 g5;
  DeleteEdge node_v reverse_e2 g6.

Definition fixup_restrictions (g : NodeBasedDynamicGraph) (node_u node_v node_w : N) (m : RestrictionMap) : option RestrictionMap :=
  m1 ← FixupArrivingTurnRestriction g node_u node_v node_w (FixupStartingTurnRestriction node_u node_v node_w m);
  FixupArrivingTurnRestriction g node_w node_v node_u (FixupStartingTurnRestriction node_w node_v node_u m1).

(** One iteration of the loop over the nodes. *)
Definition compress_node f (node_v : N) : option EdgeBasedGraphFactory :=
  let g := m_node_based_graph f in
  degree ← GetOutDegree node_v g;
  if negb (degree =? 2)%N then Some f
  else if bool_decide (node_v ∈ m_barrier_nodes f) then Some f
  else if IsViaNode node_v (fa_restriction_map f) then Some f
  else
    '(forward_e1, forward_e2, reverse_e1, reverse_e2, node_u, node_w) ← chain_edges g node_v;
    fwd_edge_data1 ← GetEdgeData forward_e1 g;
    rev_edge_data1 ← GetEdgeData reverse_e1 g;
    fwd_edge_data2 ← GetEdgeData forward_e2 g;
    rev_edge_data2 ← GetEdgeData reverse_e2 g;
    e_uw ← FindEdge node_u node_w g; end_u ← EndEdges node_u g;
    e_wu ← FindEdge node_w node_u g; end_w ← EndEdges node_w g;
    if negb (e_uw =? end_u)%N || negb (e_wu =? end_w)%N then Some f
    else if IsEqualTo fwd_edge_data1 fwd_edge_data2 && IsEqualTo rev_edge_data1 rev_edge_data2 then
      let add_traffic_signal_penalty := bool_decide (node_v ∈ m_traffic_lights f) in
      let penalty := traffic_signal_penalty (speed_profile f) in
      g' ← merge_at g node_v forward_e1 forward_e2 reverse_e1 reverse_e2 node_u node_w
             (if add_traffic_signal_penalty then Some penalty else None);
      restrictions' ← fixup_restrictions g' node_u node_v node_w (fa_restriction_map f);
      weight1 ← iadd (nd_distance fwd_edge_data1) (if add_traffic_signal_penalty then penalty else 0%Z);
      weight2 ← iadd (nd_distance rev_edge_data2) (if add_traffic_signal_penalty then penalty else 0%Z);
      c1 ← CompressEdge forward_e1 forward_e2 node_v node_w weight1 (nd_distance fwd_edge_data2) (m_geometry_compressor f);
      c2 ← CompressEdge reverse_e1 reverse_e2 node_v node_u (nd_distance rev_edge_data1) weight2 c1;
      Some (MkFactory (speed_profile f) (m_number_of_edge_based_nodes f) (m_node_info_list f) (m_edge_based_node_list f)
        (m_edge_based_edge_list f) g' (m_barrier_nodes f) (m_traffic_lights f) restrictions' c2 (max_id f))
    else Some f.

Definition CompressGeometry f : option EdgeBasedGraphFactory :=
  fold_m compress_node f (irange 0 (GetNumberOfNodes (m_node_based_graph f))).

(** *** RenumberEdges *)

Definition renumber_edge (s : NodeBasedDynamicGraph * N) (current_edge : N) : option (NodeBasedDynamicGraph * N) :=
  let '(g, numbered_edges_count) := s in
  d ← GetEdgeData current_edge g;
  if negb (nd_forward d) then Some s
  else
    g' ← AssignEdgeData current_edge (set_edge_based_id numbered_edges_count) g;
    Some (g', uadd numbered_edges_count 1).

Definition renumber_node (s : NodeBasedDynamicGraph * N) (current_node : N) : option (NodeBasedDynamicGraph * N) :=
  range ← GetAdjacentEdgeRange current_node (fst s);
  fold_m renumber_edge s range.

Definition RenumberEdges f : option EdgeBasedGraphFactory :=
  '(g, count) ← fold_m renumber_node (m_node_based_graph f, 0%N) (irange 0 (GetNumberOfNodes (m_node_based_graph f)));
  Some (MkFactory (speed_profile f) count (m_node_info_list f) (m_edge_based_node_list f) (m_edge_based_edge_list f)
    g (m_barrier_nodes f) (m_traffic_lights f) (fa_restriction_map f) (m_geometry_compressor f) (max_id f)).

(** *** BFSComponentExplorer *)

Record BFSComponentExplorer := MkExplorer { m_component_index_list : list N; m_component_index_size : list N }.

Definition GetComponentSize (node : N) (x : BFSComponentExplorer) : option N :=
  c ← vget (m_component_index_list x) node; vget (m_component_index_size x) c.

Definition GetNumberOfComponents (x : BFSComponentExplorer) : N := u32 (vsize (m_component_index_size x)).

Section explorer.
  Context (g : NodeBasedDynamicGraph) (restriction_map : RestrictionMap) (barrier_nodes : gset N) (current_component : N).

(** The edge [e2] of [v], which was reached from [u]. *)
Definition explore_edge (u v to_node_of_only_restriction : N) (s : list N * list (N * N)) (e2 : N) : option (list N * list (N * N)) :=
  let '(index_list, bfs_queue) := s in
  w ← GetTarget e2 g;
  if negb (to_node_of_only_restriction =? UINT_MAX)%N && negb (w =? to_node_of_only_restriction)%N then Some s
  else if negb (u =? w)%N then
    restricted ← CheckIfTurnIsRestricted u v w restriction_map;
    if negb restricted then
      c ← vget index_list w;
      if (UINT_MAX =? c)%N then
        index_list' ← vset index_list w current_component;
        Some (index_list', bfs_queue ++ [(w, v)])
      else Some s
    else Some s
  else Some s.

(** The queue holds the nodes with their parents, the front first. Every node
    is put into the queue once. *)
Fixpoint explore_queue (fuel : nat) (index_list : list N) (bfs_queue : list (N * N)) (size : N) : option (list N * N) :=
  match bfs_queue with
  | [] => Some (index_list, size)
  | (v, u) :: queue =>
      match fuel with
      | O => None
      | S fuel' =>
          if bool_decide (v ∈ barrier_nodes) then explore_queue fuel' index_list queue (uadd size 1)
          else
            only ← CheckForEmanatingIsOnlyTurn u v restriction_map;
            range ← GetAdjacentEdgeRange v g;
            '(index_list', queue') ← fold_m (explore_edge u v only) (index_list, queue) range;
            explore_queue fuel' index_list' queue' (uadd size 1)
      end
  end.

Definition ExploreComponent (index_list : list N) (node : N) : option (list N * N) :=
  index_list' ← vset index_list node current_component;
  explore_queue (S (length index_list)) index_list' [(node, node)] 1.
End explorer.

Definition explore_from (g : NodeBasedDynamicGraph) (restriction_map : RestrictionMap) (barrier_nodes : gset N)
    (x : BFSComponentExplorer) (node : N) : option BFSComponentExplorer :=
  c ← vget (m_component_index_list x) node;
  if (UINT_MAX =? c)%N then
    '(index_list, size) ← ExploreComponent g restriction_map barrier_nodes (u32 (vsize (m_component_index_size x))) (m_component_index_list x) node;
    Some (MkExplorer index_list (m_component_index_size x ++ [size]))
  else Some x.

Definition explorer_run (g : NodeBasedDynamicGraph) (restriction_map : RestrictionMap) (barrier_nodes : gset N) : option BFSComponentExplorer :=
  let num_nodes := GetNumberOfNodes g in
  fold_m (explore_from g restriction_map barrier_nodes) (MkExplorer (replicate (N.to_nat num_nodes) UINT_MAX) []) (irange 0 num_nodes).

(** *** GenerateEdgeExpandedNodes *)

(** The two prefix sums over a geometry. *)
Fixpoint forward_prefix (l : list CompressedNode) (temp_sum : Z) : option (list Z) :=
  match l with
  | [] => Some []
  | x :: l' => next ← iadd temp_sum (snd x); rest ← forward_prefix l' next; Some (temp_sum :: rest)
  end.

Fixpoint reverse_prefix (distance : Z) (l : list CompressedNode) (temp_sum : Z) : option (list Z) :=
  match l with
  | [] => Some []
  | x :: l' =>
      next ← iadd temp_sum (snd x);
      offset ← i32 (distance - next);
      rest ← reverse_prefix distance l' next;
      Some (offset :: rest)
  end.

(** The node of segment [i], with the source of the segment. *)
Definition insert_segment (forward_data reverse_data : NodeBasedEdgeData) (position : N) (tiny : bool)
    (forward_geometry reverse_geometry : list CompressedNode) (forward_sums reverse_sums : list Z)
    (s : list EdgeBasedNode * N) (i : N) : option (list EdgeBasedNode * N) :=
  let '(nodes, current_edge_source_coordinate_id) := s in
  x ← vget forward_geometry i;
  y ← vget reverse_geometry (usub (usub (vsize forward_geometry) 1) i);
  fs ← vget forward_sums i; rs ← vget reverse_sums i;
  Some (nodes ++ [EdgeBasedNode_make (nd_edgeBasedNodeID forward_data) (nd_edgeBasedNodeID reverse_data)
      current_edge_source_coordinate_id (fst x) (nd_nameID forward_data) (snd x) (snd y) fs rs position i tiny
      (nd_travel_mode forward_data) (nd_travel_mode reverse_data)], fst x).

Definition InsertEdgeBasedNode f (node_u node_v : N) (belongs_to_tiny_cc : bool) : option EdgeBasedGraphFactory :=
  let g := m_node_based_graph f in
  let c := fst (m_geometry_compressor f) in
  e1 ← FindEdge node_u node_v g;
  forward_data ← GetEdgeData e1 g;
  e2 ← FindEdge node_v node_u g;
  reverse_data ← GetEdgeData e2 g;
  if (nd_edgeBasedNodeID forward_data =? SPECIAL_NODEID)%N && (nd_edgeBasedNodeID reverse_data =? SPECIAL_NODEID)%N then Some f
  else if HasEntryForID e1 c then
    forward_geometry ← GetBucketReference e1 c;
    reverse_geometry ← GetBucketReference e2 c;
    let geometry_size := u32 (vsize forward_geometry) in
    if (vsize reverse_geometry <? vsize forward_geometry)%N then None
    else
      forward_sums ← forward_prefix forward_geometry 0;
      reverse_sums ← reverse_prefix (nd_distance reverse_data) (take (length forward_geometry) (reverse reverse_geometry)) 0;
      position ← GetPositionForID e1 c;
      let m1 := if negb (SPECIAL_NODEID =? nd_edgeBasedNodeID forward_data)%N then N.max (nd_edgeBasedNodeID forward_data) (max_id f) else max_id f in
      let m2 := if negb (SPECIAL_NODEID =? nd_edgeBasedNodeID reverse_data)%N then N.max (nd_edgeBasedNodeID reverse_data) m1 else m1 in
      '(nodes, _) ← fold_m (insert_segment forward_data reverse_data position belongs_to_tiny_cc forward_geometry reverse_geometry
          forward_sums reverse_sums) (m_edge_based_node_list f, node_u) (irange 0 geometry_size);
      Some (with_nodes nodes m2 f)
  else
    Some (with_nodes (m_edge_based_node_list f ++
      [EdgeBasedNode_make (nd_edgeBasedNodeID forward_data) (nd_edgeBasedNodeID reverse_data) node_u node_v (nd_nameID forward_data)
        (nd_distance forward_data) (nd_distance reverse_data) 0 0 SPECIAL_EDGEID 0 belongs_to_tiny_cc
        (nd_travel_mode forward_data) (nd_travel_mode reverse_data)]) (max_id f) f).

Definition generate_node (x : BFSComponentExplorer) (u : N) f (e1 : N) : option EdgeBasedGraphFactory :=
  edge_data ← GetEdgeData e1 (m_node_based_graph f);
  v ← GetTarget e1 (m_node_based_graph f);
  if (v <? u)%N then Some f
  else
    size_u ← GetComponentSize u x; size_v ← GetComponentSize v x;
    let component_is_tiny := (N.min size_u size_v <? 1000)%N in
    if (nd_edgeBasedNodeID edge_data =? SPECIAL_NODEID)%N then InsertEdgeBasedNode f v u component_is_tiny
    else InsertEdgeBasedNode f u v component_is_tiny.

Definition GenerateEdgeExpandedNodes f : option EdgeBasedGraphFactory :=
  let g := m_node_based_graph f in
  x ← explorer_run g (fa_restriction_map f) (m_barrier_nodes f);
  fold_m (fun f' u => range ← GetAdjacentEdgeRange u g; fold_m (generate_node x u) f' range) f (irange 0 (GetNumberOfNodes g)).

(** *** GenerateEdgeExpandedEdges *)

Section turns.
  (** [ComputeAngle::OfThreeFixedPointCoordinates], and the function of the
      profile script for the penalty of a turn, which may fail. *)
  Context (turn_angle : NodeInfo -> NodeInfo -> NodeInfo -> double) (turn_function : double -> option Z).

Definition GetTurnPenalty (angle : double) f : Z :=
  if has_turn_penalty_function (speed_profile f) then default 0%Z (turn_function (dsub (double_of_int 180) angle)) else 0%Z.

Definition AnalyzeTurn f (node_u node_v node_w : N) (angle : double) : option TurnInstruction :=
  let g := m_node_based_graph f in
  if (node_u =? node_w)%N then Some UTurn
  else
    edge1 ← FindEdge node_u node_v g; edge2 ← FindEdge node_v node_w g;
    data1 ← GetEdgeData edge1 g; data2 ← GetEdgeData edge2 g;
    if nd_roundabout data1 && nd_roundabout data2 then
      degree ← GetDirectedOutDegree nd_forward node_v g;
      Some (if (1 =? degree)%N then TI_NoTurn else StayOnRoundAbout)
    else if nd_roundabout data2 then Some EnterRoundAbout
    else if nd_roundabout data1 then Some LeaveRoundAbout
    else
      degree ← GetOutDegree node_v g;
      Some (if (nd_nameID data1 =? nd_nameID data2)%N && (negb (0 =? nd_nameID data1)%N || (degree <=? 2)%N)
            then TI_NoTurn else GetTurnDirectionOfInstruction angle).

(** The edges so far, the data of the original edges that are not written yet,
    the file and the counter. *)
Record turn_state := MkTurnState {
  ts_edges : list EdgeBasedEdge; ts_original : list OriginalEdgeData; ts_file : list N; ts_counter : N }.

Definition FlushVectorToStream (s : turn_state) : turn_state :=
  MkTurnState (ts_edges s) [] (ts_file s ++ (ts_original s ≫= original_bytes)) (ts_counter s).

(** The guards of the inner loop: whether the turn from [u] over [v] to [w] is
    left out. *)
Definition turn_skipped f (u v w to_node_of_only_restriction : N) (is_barrier_node : bool) : option bool :=
  if negb (to_node_of_only_restriction =? SPECIAL_NODEID)%N && negb (w =? to_node_of_only_restriction)%N then Some true
  else
    skip ← (if is_barrier_node then Some (negb (u =? w)%N)
            else degree ← GetOutDegree v (m_node_based_graph f); Some ((u =? w)%N && (1 <? degree)%N));
    if skip : bool then Some true
    else
      restricted ← CheckIfTurnIsRestricted u v w (fa_restriction_map f);
      Some (restricted && (to_node_of_only_restriction =? SPECIAL_NODEID)%N && negb (w =? to_node_of_only_restriction)%N).

(** The node at the end of a geometry, or the end of the edge. *)
Definition last_of_segment f (e node : N) : option N :=
  if HasEntryForID e (fst (m_geometry_compressor f)) then GetLastNodeIDOfBucket e (fst (m_geometry_compressor f)) else Some node.

Definition first_of_segment f (e node : N) : option N :=
  if HasEntryForID e (fst (m_geometry_compressor f)) then GetFirstNodeIDOfBucket e (fst (m_geometry_compressor f)) else Some node.

(** The weight of a turn, in unsigned arithmetic. *)
Definition turn_weight f (v : N) (edge_data1 : NodeBasedEdgeData) (turn_penalty : Z) (turn_instruction : TurnInstruction) : N :=
  let d0 := of_int (nd_distance edge_data1) in
  let d1 := if bool_decide (v ∈ m_traffic_lights f) then uadd d0 (of_int (traffic_signal_penalty (speed_profile f))) else d0 in
  let d2 := if bool_decide (turn_instruction = UTurn) then uadd d1 (of_int (u_turn_penalty (speed_profile f))) else d1 in
  uadd d2 (of_int turn_penalty).

(** The edge of a turn that is not left out. *)
Definition add_turn f (u v w e1 e2 : N) (s : turn_state) : option turn_state :=
  let g := m_node_based_graph f in
  edge_data1 ← GetEdgeData e1 g; edge_data2 ← GetEdgeData e2 g;
  a ← last_of_segment f e1 u; first_coordinate ← vget (m_node_info_list f) a;
  b ← first_of_segment f e2 w; third_coordinate ← vget (m_node_info_list f) b;
  middle ← vget (m_node_info_list f) v;
  let angle := turn_angle first_coordinate middle third_coordinate in
  let turn_penalty := GetTurnPenalty angle f in
  turn_instruction ← AnalyzeTurn f u v w angle;
  let edge_is_compressed := HasEntryForID e1 (fst (m_geometry_compressor f)) in
  via ← (if edge_is_compressed then GetPositionForID e1 (fst (m_geometry_compressor f)) else Some v);
  let s1 := MkTurnState (ts_edges s)
    (ts_original s ++ [MkOriginalEdgeData via (nd_nameID edge_data1) turn_instruction edge_is_compressed (nd_travel_mode edge_data2)])
    (ts_file s) (uadd (ts_counter s) 1) in
  let s2 := if (10485760 <? vsize (ts_original s1))%N then FlushVectorToStream s1 else s1 in
  Some (MkTurnState
    (ts_edges s2 ++ [EdgeBasedEdge_make (nd_edgeBasedNodeID edge_data1) (nd_edgeBasedNodeID edge_data2) (u32 (vsize (ts_edges s2)))
      (to_int (turn_weight f v edge_data1 turn_penalty turn_instruction)) true false])
    (ts_original s2) (ts_file s2) (ts_counter s2)).

Definition generate_turn f (u v e1 only : N) (is_barrier_node : bool) (s : turn_state) (e2 : N) : option turn_state :=
  data2 ← GetEdgeData e2 (m_node_based_graph f);
  if negb (nd_forward data2) then Some s
  else
    w ← GetTarget e2 (m_node_based_graph f);
    skipped ← turn_skipped f u v w only is_barrier_node;
    if skipped : bool then Some s else add_turn f u v w e1 e2 s.

Definition generate_turns f (u : N) (s : turn_state) (e1 : N) : option turn_state :=
  data1 ← GetEdgeData e1 (m_node_based_graph f);
  if negb (nd_forward data1) then Some s
  else
    v ← GetTarget e1 (m_node_based_graph f);
    only ← CheckForEmanatingIsOnlyTurn u v (fa_restriction_map f);
    range ← GetAdjacentEdgeRange v (m_node_based_graph f);
    fold_m (generate_turn f u v e1 only (bool_decide (v ∈ m_barrier_nodes f))) s range.

(** The file starts with the number of edges, which is written again at the
    end. *)
Definition GenerateEdgeExpandedEdges f : option (EdgeBasedGraphFactory * list N) :=
  let g := m_node_based_graph f in
  s ← fold_m (fun s u => range ← GetAdjacentEdgeRange u g; fold_m (generate_turns f u) s range)
        (MkTurnState (m_edge_based_edge_list f) [] [] 0) (irange 0 (GetNumberOfNodes g));
  let s' := FlushVectorToStream s in
  Some (MkFactory (speed_profile f) (m_number_of_edge_based_nodes f) (m_node_info_list f) (m_edge_based_node_list f) (ts_edges s')
    g (m_barrier_nodes f) (m_traffic_lights f) (fa_restriction_map f) (m_geometry_compressor f) (max_id f),
    le32 (ts_counter s') ++ ts_file s').

(** The factory with the contents of the two files. *)
Definition EdgeBasedGraphFactory_Run f : option (EdgeBasedGraphFactory * list N * list N) :=
  f1 ← CompressGeometry f;
  f2 ← RenumberEdges f1;
  f3 ← GenerateEdgeExpandedNodes f2;
  '(f4, original_edge_data) ← GenerateEdgeExpandedEdges f3;
  Some (f4, original_edge_data, SerializeInternalVector (fst (m_geometry_compressor f4))).
End turns.

(** The lists are swapped with those of the caller. *)
Definition GetEdgeBasedEdges f (output_edge_list : list EdgeBasedEdge) : EdgeBasedGraphFactory * list EdgeBasedEdge :=
  (MkFactory (speed_profile f) (m_number_of_edge_based_nodes f) (m_node_info_list f) (m_edge_based_node_list f) output_edge_list
    (m_node_based_graph f) (m_barrier_nodes f) (m_traffic_lights f) (fa_restriction_map f) (m_geometry_compressor f) (max_id f),
   m_edge_based_edge_list f).

Definition GetEdgeBasedNodes f (nodes : list EdgeBasedNode) : EdgeBasedGraphFactory * list EdgeBasedNode :=
  (with_nodes nodes (max_id f) f, m_edge_based_node_list f).

Definition GetNumberOfEdgeBasedNodes f : N := m_number_of_edge_based_nodes f.

(** ** Loading the data of the original edges *)

(** An entry of the file: the via node, the name, the instruction, the flag
    and the travel mode. *)
Definition read_original (s : list N) : option (N * N * N * bool * N * list N) :=
  '(via, s1) ← read_word s;
  '(name, s2) ← read_word s1;
  match s2 with
  | turn :: compressed :: mode :: _ :: s3 => Some (via, name, turn, negb (compressed =? 0)%N, mode, s3)
  | _ => None
  end.

Fixpoint read_originals (n : nat) (s : list N) : option (list (N * N * N * bool * N)) :=
  match n with
  | O => Some []
  | S n' => '(x, s') ← read_original s; l ← read_originals n' s'; Some (x :: l)
  end.

(** The edges part of [LoadNodeAndEdgeInformation]. *)
Definition LoadEdgeInformation (edges_file : list N) (d : InternalDataFacade) : option InternalDataFacade :=
  '(number_of_edges, s) ← read_word edges_file;
  l ← read_originals (N.to_nat number_of_edges) s;
  Some (MkFacade (m_query_graph d) ((fun x => x.1.1.1.1) <$> l) ((fun x => x.1.1.1.2) <$> l) ((fun x => x.1.1.2) <$> l)
    (snd <$> l) ((fun x => x.1.2) <$> l) (m_geometry_indices d) (m_geometry_list d)).
