(* ===== verification/Turns.v ===== *)
(** * Contractor/EdgeBasedGraphFactory.cpp: the turns of the expanded graph

    [GenerateEdgeExpandedEdges] makes one edge for every allowed turn, in
    order, and the data that is written for it is what the data facade has at
    the id of the edge. *)

From Stdlib Require Import Floats.SpecFloat.
From S2P Require Import Prelude Types Float32 Edges Storage BinaryHeap DynamicGraph StaticGraph Text Routing Hsgr.
From S2P Require Import Restrictions GeometryCompressor NodeBasedGraph EdgeExpansion.

(** ** The turns of a graph *)

Record turn := MkTurn { tn_u : N; tn_v : N; tn_w : N; tn_e1 : N; tn_e2 : N }.

(** The slot [e] belongs to node [u] and leads to [t] with the data [d]. *)
Definition slot {D} (g : DynamicGraph D) (u e t : N) (d : D) : Prop :=
  exists nd, vget (node_list g) u = Some nd /\ in_range nd e /\ vget (edge_list g) e = Some (MkEdge t d).

Definition slots {D} (g : DynamicGraph D) (u : N) : list N :=
  match vget (node_list g) u with Some nd => irange (firstEdge nd) (firstEdge nd + edges nd) | None => [] end.

(** Whether the restrictions, barriers and the rule for turning around permit
    the turn from [u] over [v] to [w]. *)
Definition permitted (A : restrictions) (f : EdgeBasedGraphFactory) (u v w : N) : bool :=
  let bucket := default [] (A !! (u, v)) in
  let degree := length (slots (m_node_based_graph f) v) in
  (if (only_of bucket =? SPECIAL_NODEID)%N then negb (forbids bucket w) else (w =? only_of bucket)%N) &&
  (if bool_decide (v ∈ m_barrier_nodes f) then (u =? w)%N else negb (u =? w)%N || Nat.leb degree 1).

Definition turns_from (A : restrictions) f (u e1 : N) : list turn :=
  match vget (edge_list (m_node_based_graph f)) e1 with
  | Some x =>
      if nd_forward (e_data x) then
        slots (m_node_based_graph f) (e_target x) ≫= fun e2 =>
          match vget (edge_list (m_node_based_graph f)) e2 with
          | Some y => if nd_forward (e_data y) && permitted A f u (e_target x) (e_target y)
                      then [MkTurn u (e_target x) (e_target y) e1 e2] else []
          | None => []
          end
      else []
  | None => []
  end.

Definition turns (A : restrictions) f : list turn :=
  irange 0 (number_of_nodes (m_node_based_graph f)) ≫= fun u => slots (m_node_based_graph f) u ≫= turns_from A f u.

(** A graph whose edges lead to nodes of the graph. *)
Record road_graph (g : NodeBasedDynamicGraph) : Prop := {
  rg_wf : graph_wf g;
  rg_nodes : (number_of_nodes g <= vsize (node_list g))%N;
  rg_small : (number_of_nodes g < 4294967295)%N;
  rg_targets u e t d : slot g u e t d -> (t < number_of_nodes g)%N;
}.

Section slots.
  Context {D : Type}.
  Implicit Types g : DynamicGraph D.

Lemma slots_range g u : graph_wf g -> (u < vsize (node_list g))%N -> GetAdjacentEdgeRange u g = Some (slots g u).
Proof.
  intros Hwf Hu. destruct (vget_lt (node_list g) u Hu) as [nd Hnd]. pose proof (gw_range g Hwf _ _ Hnd). pose proof (gw_bound g Hwf).
  unfold GetAdjacentEdgeRange, BeginEdges, EndEdges, slots. rewrite Hnd. cbn [mbind option_bind]. by rewrite uadd_small by lia.
Qed.

Lemma slots_degree g u : graph_wf g -> (u < vsize (node_list g))%N -> GetOutDegree u g = Some (N.of_nat (length (slots g u))).
Proof.
  intros Hwf Hu. destruct (vget_lt (node_list g) u Hu) as [nd Hnd]. pose proof (gw_range g Hwf _ _ Hnd). pose proof (gw_bound g Hwf).
  unfold GetOutDegree, slots. rewrite Hnd. cbn [fmap option_fmap option_map mbind option_bind]. rewrite length_irange by lia. f_equal. lia.
Qed.

Lemma elem_of_slots g u e : graph_wf g -> e ∈ slots g u <-> exists t d, slot g u e t d.
Proof.
  intros Hwf. unfold slots, slot. destruct (vget (node_list g) u) as [nd|] eqn:Hnd.
  - pose proof (gw_range g Hwf _ _ Hnd). pose proof (gw_bound g Hwf). rewrite elem_of_irange by lia. split.
    + intros He. destruct (vget_lt (edge_list g) e) as [[t d] Hv]; [lia|]. exists t, d, nd. done.
    + intros (t & d & nd' & [= <-] & Hr & _). exact Hr.
  - split; [by intros ?%elem_of_nil|]. by intros (t & d & nd & ? & _).
Qed.

Lemma slots_node g u e : e ∈ slots g u -> (u < vsize (node_list g))%N.
Proof. unfold slots. destruct (vget (node_list g) u) eqn:E; [intros _; by eapply vget_Some_lt|by intros ?%elem_of_nil]. Qed.

Lemma slot_unique g u u' e t t' d d' : graph_wf g -> slot g u e t d -> slot g u' e t' d' -> u = u' /\ t = t' /\ d = d'.
Proof.
  intros Hwf (nd & Hn & Hr & He) (nd' & Hn' & Hr' & He'). split; [by eapply (gw_disjoint g Hwf)|]. rewrite He in He'. by injection He' as -> ->.
Qed.

Lemma slot_adj g u e t d : slot g u e t d -> MkEdge t d ∈ adj g u.
Proof.
  intros (nd & Hnd & Hr & He). unfold adj. rewrite Hnd.
  apply list_elem_of_lookup_2 with (i := N.to_nat (e - firstEdge nd)). rewrite <- vget_lookup, vget_slice.
  unfold in_range in Hr. rewrite decide_True by lia. by replace (firstEdge nd + (e - firstEdge nd))%N with e by lia.
Qed.

Lemma slot_of g u e : graph_wf g -> e ∈ slots g u -> exists t d, slot g u e t d /\ GetTarget e g = Some t /\ GetEdgeData e g = Some d.
Proof.
  intros Hwf (t & d & Hs)%elem_of_slots; [|done]. exists t, d. split; [done|]. destruct Hs as (nd & _ & _ & He).
  unfold GetTarget, GetEdgeData. by rewrite He.
Qed.
End slots.

(** The turns are the pairs of directed edges that are permitted. *)
Lemma elem_of_turns A f t : road_graph (m_node_based_graph f) -> t ∈ turns A f <->
  exists d1 d2, slot (m_node_based_graph f) (tn_u t) (tn_e1 t) (tn_v t) d1 /\ slot (m_node_based_graph f) (tn_v t) (tn_e2 t) (tn_w t) d2 /\
    (tn_u t < number_of_nodes (m_node_based_graph f))%N /\ nd_forward d1 = true /\ nd_forward d2 = true /\
    permitted A f (tn_u t) (tn_v t) (tn_w t) = true.
Proof.
  intros [Hwf Hn Hsm Ht]. set (g := m_node_based_graph f) in *. unfold turns. rewrite list_elem_of_bind. fold g. split.
  - intros (u & Hin & Hu). apply list_elem_of_bind in Hin as (e1 & Hin & He1). unfold turns_from in Hin. fold g in Hin.
    apply elem_of_irange in Hu; [|lia]. destruct (slot_of g u e1 Hwf He1) as (v & d1 & Hs1 & _). destruct Hs1 as (nd1 & Hnd1 & Hr1 & Hv1).
    rewrite Hv1 in Hin. cbn [e_data e_target] in Hin. destruct (nd_forward d1) eqn:Hf1; [|by apply elem_of_nil in Hin].
    apply list_elem_of_bind in Hin as (e2 & Hin & He2). destruct (slot_of g v e2 Hwf He2) as (w & d2 & Hs2 & _). pose proof Hs2 as (nd2 & Hnd2 & Hr2 & Hv2).
    rewrite Hv2 in Hin. cbn [e_data e_target] in Hin. destruct (nd_forward d2 && permitted A f u v w) eqn:Hp; [|by apply elem_of_nil in Hin].
    apply list_elem_of_singleton in Hin as ->. apply andb_true_iff in Hp as [Hf2 Hp]. exists d1, d2. cbn [tn_u tn_v tn_w tn_e1 tn_e2]. split_and!; try done; [by exists nd1|lia].
  - intros (d1 & d2 & Hs1 & Hs2 & Hu & Hf1 & Hf2 & Hp). exists (tn_u t). split; [|apply elem_of_irange; lia].
    apply list_elem_of_bind. exists (tn_e1 t). split; [|by apply elem_of_slots; eauto]. unfold turns_from. fold g.
    destruct Hs1 as (nd1 & _ & _ & Hv1). rewrite Hv1. cbn [e_data e_target]. rewrite Hf1. apply list_elem_of_bind. exists (tn_e2 t).
    split; [|by apply elem_of_slots; eauto]. destruct Hs2 as (nd2 & _ & _ & Hv2). rewrite Hv2. cbn [e_data e_target]. rewrite Hf2, Hp.
    destruct t. by left.
Qed.

(** ** Generating the edges *)

Lemma fold_m_bind {S A T} (body : S -> A -> option S) (g : A -> list T) (inv : list T -> S -> Prop) l :
  (forall x ts s, x ∈ l -> inv ts s -> exists s', body s x = Some s' /\ inv (ts ++ g x) s') ->
  forall ts s, inv ts s -> exists s', fold_m body s l = Some s' /\ inv (ts ++ (l ≫= g)) s'.
Proof.
  induction l as [|x l IH]; intros Hstep ts s Hinv; [exists s; cbn; by rewrite app_nil_r|]. cbn [fold_m].
  destruct (Hstep x ts s) as (s1 & -> & H1); [by left|done|]. cbn [mbind option_bind].
  destruct (IH (fun y ts' s' Hy => Hstep y ts' s' (list_elem_of_further _ _ _ Hy)) _ _ H1) as (s2 & -> & H2).
  exists s2. split; [done|]. by rewrite bind_cons, app_assoc.
Qed.

Section generate.
  Context (turn_angle : NodeInfo -> NodeInfo -> NodeInfo -> double) (turn_function : double -> option Z).
  Context (A : restrictions) (f : EdgeBasedGraphFactory).
  Abbreviation g := (m_node_based_graph f).
  Abbreviation compressor := (fst (m_geometry_compressor f)).
  Hypothesis g_ok : road_graph g.
  Hypothesis restrictions_ok : restriction_rep (fa_restriction_map f) A.
  Hypothesis info_ok : (number_of_nodes g <= vsize (m_node_info_list f))%N.
  (** The geometry of an edge has an inner node. *)
  Hypothesis geometry_ok : forall e, HasEntryForID e compressor = true -> exists bucket, GetBucketReference e compressor = Some bucket /\
    (2 <= vsize bucket)%N /\ Forall (fun x => (fst x < vsize (m_node_info_list f))%N) bucket.
  #[local] Set Default Proof Using "All".

Lemma find_slot u v e d : slot g u e v d -> exists i d', FindEdge u v g = Some i /\ slot g u i v d' /\ GetEdgeData i g = Some d'.
Proof.
  intros (nd & Hnd & Hr & He). destruct (find_edge_ok g u v nd (rg_wf _ g_ok) Hnd) as (i & Hi & [(Hri & ([t d'] & Hvi & Ht) & _)|(_ & HF)]).
  - cbn in Ht. subst t. exists i, d'. split; [done|]. split; [by exists nd|]. unfold GetEdgeData. by rewrite Hvi.
  - exfalso. rewrite Forall_forall in HF. apply (HF (MkEdge v d)); [|done]. apply (slot_adj g u e). by exists nd.
Qed.

Lemma count_forward_ok l : forall k, Forall (fun e => (e < vsize (edge_list g))%N) l -> exists k', count_forward nd_forward l g k = Some k'.
Proof.
  induction l as [|e l IH]; intros k HF; [by eexists|]. apply Forall_cons in HF as [He HF]. cbn [count_forward].
  destruct (vget_lt (edge_list g) e He) as [x Hx]. unfold GetEdgeData. rewrite Hx. cbn [fmap option_fmap option_map mbind option_bind].
  destruct (nd_forward (e_data x)); by apply IH.
Qed.

Lemma node_of_slot u e t d : slot g u e t d -> (u < vsize (node_list g))%N.
Proof. intros (nd & Hnd & _). by eapply vget_Some_lt. Qed.

Lemma analyze_ok u v w e1 e2 d1 d2 angle : slot g u e1 v d1 -> slot g v e2 w d2 -> exists instr, AnalyzeTurn f u v w angle = Some instr.
Proof.
  intros H1 H2. unfold AnalyzeTurn. destruct (u =? w)%N; [by eexists|]. destruct (find_slot _ _ _ _ H1) as (i1 & x1 & -> & _ & Hx1).
  destruct (find_slot _ _ _ _ H2) as (i2 & x2 & -> & _ & Hx2). cbn [mbind option_bind]. rewrite Hx1, Hx2. cbn [mbind option_bind].
  pose proof (node_of_slot _ _ _ _ H2) as Hv. destruct (nd_roundabout x1 && nd_roundabout x2).
  - unfold GetDirectedOutDegree. rewrite (slots_range g v (rg_wf _ g_ok) Hv). cbn [mbind option_bind].
    destruct (count_forward_ok (slots g v) 0) as [k Hk]; [|rewrite Hk; by eexists].
    apply Forall_forall. intros e (t & d & nd & Hnd & Hr & He)%elem_of_slots; [|apply (rg_wf _ g_ok)]. by eapply vget_Some_lt.
  - destruct (nd_roundabout x2); [by eexists|]. destruct (nd_roundabout x1); [by eexists|].
    rewrite (slots_degree g v (rg_wf _ g_ok) Hv). by eexists.
Qed.

Lemma segment_ok e node : (node < number_of_nodes g)%N ->
  exists a x b y, last_of_segment f e node = Some a /\ vget (m_node_info_list f) a = Some x /\
    first_of_segment f e node = Some b /\ vget (m_node_info_list f) b = Some y.
Proof.
  intros Hn. unfold last_of_segment, first_of_segment, GetLastNodeIDOfBucket, GetFirstNodeIDOfBucket. destruct (HasEntryForID e compressor) eqn:He.
  - destruct (geometry_ok e He) as (bucket & -> & Hsz & HF). cbn [mbind option_bind]. rewrite (proj2 (N.ltb_ge _ _) Hsz).
    destruct (vget_lt bucket 1) as [p Hp]; [lia|]. destruct (vget_lt bucket (vsize bucket - 2)) as [q Hq]; [lia|]. rewrite Hp, Hq. cbn [mbind option_bind].
    rewrite vget_lookup in Hp, Hq. apply (Forall_lookup_1 _ _ _ _ HF) in Hp, Hq. destruct (vget_lt _ _ Hp) as [y Hy]. destruct (vget_lt _ _ Hq) as [x Hx].
    by exists (fst q), x, (fst p), y.
  - destruct (vget_lt (m_node_info_list f) node) as [x Hx]; [lia|]. by exists node, x, node, x.
Qed.

(** What is made for the turn [t] at position [i]. *)
Record describes (t : turn) (i : N) (e : EdgeBasedEdge) (o : OriginalEdgeData) : Prop := {
  ds_make : exists d1 d2 angle instr via, slot g (tn_u t) (tn_e1 t) (tn_v t) d1 /\ slot g (tn_v t) (tn_e2 t) (tn_w t) d2 /\
    AnalyzeTurn f (tn_u t) (tn_v t) (tn_w t) angle = Some instr /\
    (if HasEntryForID (tn_e1 t) compressor then GetPositionForID (tn_e1 t) compressor = Some via else via = tn_v t) /\
    e = EdgeBasedEdge_make (nd_edgeBasedNodeID d1) (nd_edgeBasedNodeID d2) (u32 i)
      (to_int (turn_weight f (tn_v t) d1 (GetTurnPenalty turn_function angle f) instr)) true false /\
    o = MkOriginalEdgeData via (nd_nameID d1) instr (HasEntryForID (tn_e1 t) compressor) (nd_travel_mode d2)
}.

Definition written (s : turn_state) : list N := ts_file s ++ (ts_original s ≫= original_bytes).

(** After the turns [ts]: one edge and one entry for each of them. *)
Definition generated (ts : list turn) (s : turn_state) : Prop := exists os,
  length (ts_edges s) = length ts /\ length os = length ts /\ written s = (os ≫= original_bytes) /\ ts_counter s = u32 (vsize ts) /\
  forall k t e o, ts !! k = Some t -> ts_edges s !! k = Some e -> os !! k = Some o -> describes t (N.of_nat k) e o.

Lemma add_turn_ok ts s u v w e1 e2 d1 d2 : generated ts s -> slot g u e1 v d1 -> slot g v e2 w d2 -> (u < number_of_nodes g)%N ->
  exists s', add_turn turn_angle turn_function f u v w e1 e2 s = Some s' /\ generated (ts ++ [MkTurn u v w e1 e2]) s'.
Proof.
  intros (os & Hle & Hlo & Hwr & Hct & Hds) H1 H2 Hu. unfold add_turn.
  pose proof (rg_targets _ g_ok _ _ _ _ H1) as Hv. pose proof (rg_targets _ g_ok _ _ _ _ H2) as Hw.
  pose proof H1 as (_ & _ & _ & Hx1). pose proof H2 as (_ & _ & _ & Hx2).
  assert (GetEdgeData e1 g = Some d1) as -> by (unfold GetEdgeData; by rewrite Hx1).
  assert (GetEdgeData e2 g = Some d2) as -> by (unfold GetEdgeData; by rewrite Hx2). cbn [mbind option_bind].
  destruct (segment_ok e1 u Hu) as (a & x & _ & _ & -> & Ha & _). cbn [mbind option_bind]. rewrite Ha. cbn [mbind option_bind].
  destruct (segment_ok e2 w Hw) as (_ & _ & b & y & _ & _ & -> & Hb). cbn [mbind option_bind]. rewrite Hb. cbn [mbind option_bind].
  destruct (vget_lt (m_node_info_list f) v) as [z Hz]; [lia|]. rewrite Hz. cbn [mbind option_bind]. set (angle := turn_angle x z y).
  destruct (analyze_ok u v w e1 e2 d1 d2 angle H1 H2) as [instr Hinstr]. rewrite Hinstr. cbn [mbind option_bind].
  assert (exists via, (if HasEntryForID e1 compressor then GetPositionForID e1 compressor else Some v) = Some via /\
    if HasEntryForID e1 compressor then GetPositionForID e1 compressor = Some via else via = v) as (via & -> & Hvia).
  { unfold HasEntryForID, GetPositionForID. destruct (m_edge_id_to_list_index_map compressor !! e1) as [p|]; by eexists. }
  cbn [mbind option_bind ts_edges ts_original ts_file ts_counter].
  set (o := MkOriginalEdgeData via _ _ _ _). eexists. split; [done|]. exists (os ++ [o]).
  set (s1 := MkTurnState (ts_edges s) (ts_original s ++ [o]) (ts_file s) (uadd (ts_counter s) 1)).
  set (s2 := if (10485760 <? vsize (ts_original s ++ [o]))%N then FlushVectorToStream s1 else s1).
  assert (ts_edges s2 = ts_edges s /\ written s2 = written s ++ original_bytes o /\ ts_counter s2 = uadd (ts_counter s) 1) as (He2 & Hw2 & Hc2).
  { assert (written s1 = written s ++ original_bytes o) as Hw1.
    { unfold written, s1. cbn [ts_file ts_original]. rewrite bind_app. cbn [mbind list_bind]. by rewrite app_nil_r, app_assoc. }
    unfold s2. destruct (_ <? _)%N; [|done]. split; [done|]. split; [|done]. rewrite <- Hw1. unfold written, FlushVectorToStream. cbn [ts_file ts_original]. cbn [mbind list_bind]. by rewrite app_nil_r. }
  change (written (MkTurnState _ (ts_original s2) (ts_file s2) (ts_counter s2))) with (written s2). cbn [ts_edges ts_counter].
  rewrite He2, Hc2, Hw2, !length_app, Hle, Hlo, Hwr, Hct. split; [done|]. split; [done|].
  split; [rewrite bind_app; cbn [mbind list_bind]; by rewrite app_nil_r|]. split; [rewrite vsize_app, uadd_u32; done|].
  intros k t e o' Hk He Ho. destruct (decide (k < length ts)%nat) as [Hlt|Hge].
  - rewrite lookup_app_l in Hk by lia. rewrite lookup_app_l in He by lia. rewrite lookup_app_l in Ho by lia. by eapply Hds.
  - pose proof (lookup_lt_Some _ _ _ Hk) as Hlen. rewrite length_app in Hlen. cbn in Hlen. assert (k = length ts) as -> by lia.
    rewrite lookup_app_r, Nat.sub_diag in Hk by lia. rewrite lookup_app_r, Hle, Nat.sub_diag in He by lia. rewrite lookup_app_r, Hlo, Nat.sub_diag in Ho by lia.
    injection Hk as <-. injection He as <-. injection Ho as <-. constructor. exists d1, d2, angle, instr, via. cbn [tn_u tn_v tn_w tn_e1 tn_e2].
    split_and!; try done. unfold vsize. by rewrite Hle.
Qed.

Lemma skipped_ok u v w : (v < vsize (node_list g))%N -> (w < number_of_nodes g)%N ->
  turn_skipped f u v w (default SPECIAL_NODEID (only_of <$> A !! (u, v))) (bool_decide (v ∈ m_barrier_nodes f)) =
    Some (negb (permitted A f u v w)).
Proof.
  intros Hv Hw. unfold turn_skipped, permitted. rewrite (restricted_ok _ A u v w restrictions_ok), (slots_degree g v (rg_wf _ g_ok) Hv).
  assert (w <> SPECIAL_NODEID) as Hws by (pose proof (rg_small _ g_ok); unfold SPECIAL_NODEID, UINT_MAX; lia).
  set (bucket := default [] (A !! (u, v))).
  assert (default SPECIAL_NODEID (only_of <$> A !! (u, v)) = only_of bucket) as -> by (unfold bucket; by destruct (A !! (u, v))).
  assert (default false ((fun b => forbids b w) <$> A !! (u, v)) = forbids bucket w) as -> by (unfold bucket; by destruct (A !! (u, v))).
  set (guard := if bool_decide (v ∈ m_barrier_nodes f) then (u =? w)%N else negb (u =? w)%N || Nat.leb (length (slots g v)) 1).
  assert ((if bool_decide (v ∈ m_barrier_nodes f) then Some (negb (u =? w)%N)
    else degree ← Some (N.of_nat (length (slots g v))); Some ((u =? w)%N && (1 <? degree)%N)) = Some (negb guard)) as ->.
  { unfold guard. destruct (bool_decide _); [done|]. cbn [mbind option_bind]. f_equal. rewrite negb_orb, negb_involutive. f_equal.
    destruct (N.ltb_spec 1 (N.of_nat (length (slots g v)))), (Nat.leb_spec (length (slots g v)) 1); try done; lia. }
  destruct (N.eqb_spec (only_of bucket) SPECIAL_NODEID) as [Ho|Ho]; cbn [negb andb].
  - cbn [mbind option_bind]. rewrite Ho, (proj2 (N.eqb_neq w SPECIAL_NODEID) Hws). destruct guard; cbn; [|by rewrite andb_false_r].
    by rewrite !andb_true_r, negb_involutive.
  - destruct (N.eqb_spec w (only_of bucket)); cbn [negb andb]; [|done]. cbn [mbind option_bind]. destruct guard; cbn; [|done].
    by rewrite andb_false_r.
Qed.

Lemma generate_turn_ok u v e1 d1 : slot g u e1 v d1 -> (u < number_of_nodes g)%N -> nd_forward d1 = true -> forall e2 ts s, e2 ∈ slots g v -> generated ts s ->
  exists s', generate_turn turn_angle turn_function f u v e1 (default SPECIAL_NODEID (only_of <$> A !! (u, v)))
      (bool_decide (v ∈ m_barrier_nodes f)) s e2 = Some s' /\
    generated (ts ++ match vget (edge_list g) e2 with
      | Some y => if nd_forward (e_data y) && permitted A f u v (e_target y) then [MkTurn u v (e_target y) e1 e2] else []
      | None => [] end) s'.
Proof.
  intros H1 Hu Hf1 e2 ts s He2 Hgen. pose proof (slots_node g v e2 He2) as Hv.
  destruct (slot_of g v e2 (rg_wf _ g_ok) He2) as (w & d2 & H2 & Ht2 & Hd2). pose proof H2 as (_ & _ & _ & Hx2).
  unfold generate_turn. rewrite Hd2, Hx2. cbn [mbind option_bind e_data e_target]. destruct (nd_forward d2); cbn [negb andb].
  2: { exists s. by rewrite app_nil_r. }
  rewrite Ht2. cbn [mbind option_bind]. rewrite (skipped_ok u v w Hv (rg_targets _ g_ok _ _ _ _ H2)). cbn [mbind option_bind].
  destruct (permitted A f u v w); cbn [negb]; [|exists s; by rewrite app_nil_r]. by eapply add_turn_ok.
Qed.

Lemma generate_turns_ok u : (u < number_of_nodes g)%N -> forall e1 ts s, e1 ∈ slots g u -> generated ts s ->
  exists s', generate_turns turn_angle turn_function f u s e1 = Some s' /\ generated (ts ++ turns_from A f u e1) s'.
Proof.
  intros Hu e1 ts s He1 Hgen. destruct (slot_of g u e1 (rg_wf _ g_ok) He1) as (v & d1 & H1 & Ht1 & Hd1). pose proof H1 as (_ & _ & _ & Hx1).
  unfold generate_turns, turns_from. rewrite Hd1, Hx1. cbn [mbind option_bind e_data e_target]. destruct (nd_forward d1) eqn:Hf1; cbn [negb].
  2: { exists s. by rewrite app_nil_r. }
  rewrite Ht1. cbn [mbind option_bind]. rewrite (only_turn_ok _ A u v restrictions_ok). cbn [mbind option_bind].
  pose proof (rg_targets _ g_ok _ _ _ _ H1) as Hv. pose proof (rg_nodes _ g_ok) as Hn.
  rewrite (slots_range g v (rg_wf _ g_ok)) by lia. cbn [mbind option_bind].
  apply (fold_m_bind _ (fun e2 => match vget (edge_list g) e2 with
      | Some y => if nd_forward (e_data y) && permitted A f u v (e_target y) then [MkTurn u v (e_target y) e1 e2] else []
      | None => [] end) generated); [|done].
  intros e2 ts' s' He2 Hgen'. by eapply generate_turn_ok.
Qed.

Lemma generate_ok : m_edge_based_edge_list f = [] -> exists f' file os,
  GenerateEdgeExpandedEdges turn_angle turn_function f = Some (f', file) /\
  length (m_edge_based_edge_list f') = length (turns A f) /\ length os = length (turns A f) /\
  file = le32 (u32 (vsize (turns A f))) ++ (os ≫= original_bytes) /\
  forall k t, turns A f !! k = Some t -> exists e o, m_edge_based_edge_list f' !! k = Some e /\ os !! k = Some o /\ describes t (N.of_nat k) e o.
Proof.
  intros Hnil. unfold GenerateEdgeExpandedEdges. rewrite Hnil. pose proof (rg_nodes _ g_ok) as Hn. pose proof (rg_small _ g_ok) as Hsm.
  change (GetNumberOfNodes g) with (number_of_nodes g).
  destruct (fold_m_bind (fun s u => range ← GetAdjacentEdgeRange u g; fold_m (generate_turns turn_angle turn_function f u) s range)
    (fun u => slots g u ≫= turns_from A f u) generated (irange 0 (number_of_nodes g))) with (ts := @nil turn) (s := MkTurnState [] [] [] 0)
    as (s & Hs & os & Hle & Hlo & Hwr & Hct & Hds).
  - intros u ts s Hu Hgen. apply elem_of_irange in Hu; [|lia].
    rewrite (slots_range g u (rg_wf _ g_ok)) by lia. cbn [mbind option_bind].
    apply (fold_m_bind _ (turns_from A f u) generated); [|done]. intros e1 ts' s' He1 Hgen'. apply generate_turns_ok; [lia|done|done].
  - exists []. split; [done|]. split; [done|]. split; [done|]. split; [done|]. intros k t e o Hk. by rewrite lookup_nil in Hk.
  - rewrite app_nil_l in *. fold (turns A f) in *. rewrite Hs. cbn [mbind option_bind]. eexists _, _, os. split; [done|].
    cbn [m_edge_based_edge_list FlushVectorToStream ts_edges ts_file ts_counter]. split; [done|]. split; [done|].
    split; [unfold written in Hwr; by rewrite Hct, Hwr|]. intros k t Hk. pose proof (lookup_lt_Some _ _ _ Hk) as Hlt.
    destruct (lookup_lt_is_Some_2 (ts_edges s) k) as [e He]; [lia|]. destruct (lookup_lt_is_Some_2 os k) as [o Ho]; [lia|].
    exists e, o. split; [done|]. split; [done|]. by eapply Hds.
Qed.
End generate.

(** ** Weights *)

Lemma uadd_of_int a b : uadd (of_int a) (of_int b) = of_int (a + b).
Proof.
  unfold uadd, u32, of_int. apply N2Z.inj. rewrite N2Z.inj_mod, N2Z.inj_add, !Z2N.id by (apply Z.mod_pos_bound; lia).
  change (Z.of_N 4294967296) with 4294967296%Z. by rewrite <- Zplus_mod.
Qed.

(** The weight of a turn: the first edge, the traffic light and the turn. *)
Definition turn_cost (f : EdgeBasedGraphFactory) (v : N) (d : NodeBasedEdgeData) (turn_penalty : Z) (instr : TurnInstruction) : Z :=
  (nd_distance d + (if bool_decide (v ∈ m_traffic_lights f) then traffic_signal_penalty (speed_profile f) else 0) +
   (if bool_decide (instr = UTurn) then u_turn_penalty (speed_profile f) else 0) + turn_penalty)%Z.

Lemma turn_weight_ok f v d pen instr : (-536870912 <= turn_cost f v d pen instr < 536870912)%Z ->
  sbits 30 (to_int (turn_weight f v d pen instr)) = turn_cost f v d pen instr.
Proof.
  intros Hr. assert (turn_weight f v d pen instr = of_int (turn_cost f v d pen instr)) as ->.
  { unfold turn_weight, turn_cost. destruct (bool_decide (v ∈ _)), (bool_decide (instr = UTurn)); rewrite !uadd_of_int; f_equal; lia. }
  rewrite to_int_of_int by (unfold INT_MIN, INT_MAX; lia). apply sbits_small; [lia|]. change (2 ^ (30 - 1))%Z with 536870912%Z. lia.
Qed.

(** ** Loading the data of the edges *)

Definition original_fits (o : OriginalEdgeData) : Prop :=
  (oe_via_node o < 4294967296)%N /\ (oe_name_id o < 4294967296)%N /\ (oe_travel_mode o < 256)%N.

Lemma read_original_ok o s : original_fits o -> read_original (original_bytes o ++ s) =
  Some (oe_via_node o, oe_name_id o, turn_code (oe_turn_instruction o), oe_compressed_geometry o, oe_travel_mode o, s).
Proof.
  intros (H1 & H2 & H3). unfold read_original, original_bytes. rewrite <- !app_assoc, read_le32 by done. cbn [mbind option_bind].
  rewrite read_le32 by done. cbn [mbind option_bind app]. unfold u8. rewrite N.mod_small by done. by destruct (oe_compressed_geometry o).
Qed.

Lemma read_originals_ok os s : Forall original_fits os -> read_originals (length os) ((os ≫= original_bytes) ++ s) =
  Some ((fun o => (oe_via_node o, oe_name_id o, turn_code (oe_turn_instruction o), oe_compressed_geometry o, oe_travel_mode o)) <$> os).
Proof.
  induction 1 as [|o os Ho HF IH]; [done|]. rewrite bind_cons, <- app_assoc. cbn [length read_originals].
  rewrite read_original_ok by done. cbn [mbind option_bind]. rewrite IH. done.
Qed.

Lemma load_edges_ok os d : Forall original_fits os -> (vsize os < 4294967296)%N -> exists d',
  LoadEdgeInformation (le32 (u32 (vsize os)) ++ (os ≫= original_bytes)) d = Some d' /\
  forall k o, os !! k = Some o -> GetGeometryIndexForEdgeID (N.of_nat k) d' = Some (oe_via_node o) /\
    GetNameIndexFromEdgeID (N.of_nat k) d' = Some (oe_name_id o) /\
    GetTurnInstructionForEdgeID (N.of_nat k) d' = Some (turn_code (oe_turn_instruction o)) /\
    EdgeIsCompressed (N.of_nat k) d' = Some (oe_compressed_geometry o) /\ GetTravelModeForEdgeID (N.of_nat k) d' = Some (oe_travel_mode o).
Proof.
  intros HF Hn. unfold LoadEdgeInformation. rewrite read_le32 by apply u32_lt. cbn [mbind option_bind]. rewrite u32_small by done.
  unfold vsize at 1. rewrite Nat2N.id, <- (app_nil_r (os ≫= original_bytes)), read_originals_ok by done. cbn [mbind option_bind].
  eexists. split; [done|]. intros k o Ho.
  unfold GetGeometryIndexForEdgeID, GetNameIndexFromEdgeID, GetTurnInstructionForEdgeID, EdgeIsCompressed, GetTravelModeForEdgeID.
  cbn [m_via_node_list m_name_ID_list m_turn_instruction_list m_travel_mode_list m_edge_is_compressed].
  rewrite !vget_lookup, !Nat2N.id, !list_lookup_fmap, Ho. done.
Qed.

(** ** Properties *)

(** The data of the edges and the positions of the geometries fit into the
    fields of the file. *)
Definition data_fits (f : EdgeBasedGraphFactory) : Prop :=
  (forall u e t d, slot (m_node_based_graph f) u e t d -> (nd_nameID d < 4294967296)%N /\ (nd_travel_mode d < 256)%N) /\
  (forall e p, GetPositionForID e (fst (m_geometry_compressor f)) = Some p -> (p < 4294967296)%N).

(** C6: the edge expansion makes exactly one edge for every pair of directed
    edges that meet at a node where the turn is permitted: by the restrictions
    [A], by the barriers, and turning around only in dead ends. The edge has
    the numbers of the two directed edges, its position as its id, and the
    length of the first edge with the penalties as its weight; and the file
    that is written, once loaded, has the name, the instruction, the travel
    mode and the geometry of the turn at this id. *)
Theorem edge_expansion_turns turn_angle turn_function A f d :
  road_graph (m_node_based_graph f) -> restriction_rep (fa_restriction_map f) A ->
  (number_of_nodes (m_node_based_graph f) <= vsize (m_node_info_list f))%N ->
  (forall e, HasEntryForID e (fst (m_geometry_compressor f)) = true ->
    exists bucket, GetBucketReference e (fst (m_geometry_compressor f)) = Some bucket /\
      (2 <= vsize bucket)%N /\ Forall (fun x => (fst x < vsize (m_node_info_list f))%N) bucket) ->
  data_fits f -> m_edge_based_edge_list f = [] -> (vsize (turns A f) < 4294967296)%N ->
  exists f' file d', GenerateEdgeExpandedEdges turn_angle turn_function f = Some (f', file) /\ LoadEdgeInformation file d = Some d' /\
    length (m_edge_based_edge_list f') = length (turns A f) /\
    (forall t, t ∈ turns A f <-> exists d1 d2,
      slot (m_node_based_graph f) (tn_u t) (tn_e1 t) (tn_v t) d1 /\ slot (m_node_based_graph f) (tn_v t) (tn_e2 t) (tn_w t) d2 /\
      (tn_u t < number_of_nodes (m_node_based_graph f))%N /\ nd_forward d1 = true /\ nd_forward d2 = true /\
      permitted A f (tn_u t) (tn_v t) (tn_w t) = true) /\
    forall k t, turns A f !! k = Some t -> exists e d1 d2 angle instr via,
      m_edge_based_edge_list f' !! k = Some e /\
      slot (m_node_based_graph f) (tn_u t) (tn_e1 t) (tn_v t) d1 /\ slot (m_node_based_graph f) (tn_v t) (tn_e2 t) (tn_w t) d2 /\
      eb_source e = nd_edgeBasedNodeID d1 /\ eb_target e = nd_edgeBasedNodeID d2 /\ eb_edge_id e = N.of_nat k /\
      eb_forward e = true /\ eb_backward e = false /\
      (let cost := turn_cost f (tn_v t) d1 (GetTurnPenalty turn_function angle f) instr in
       (-536870912 <= cost < 536870912)%Z -> eb_weight e = cost) /\
      AnalyzeTurn f (tn_u t) (tn_v t) (tn_w t) angle = Some instr /\
      GetTurnInstructionForEdgeID (N.of_nat k) d' = Some (turn_code instr) /\
      GetNameIndexFromEdgeID (N.of_nat k) d' = Some (nd_nameID d1) /\ GetTravelModeForEdgeID (N.of_nat k) d' = Some (nd_travel_mode d2) /\
      EdgeIsCompressed (N.of_nat k) d' = Some (HasEntryForID (tn_e1 t) (fst (m_geometry_compressor f))) /\
      GetGeometryIndexForEdgeID (N.of_nat k) d' = Some via /\
      (if HasEntryForID (tn_e1 t) (fst (m_geometry_compressor f))
       then GetPositionForID (tn_e1 t) (fst (m_geometry_compressor f)) = Some via else via = tn_v t).
Proof.
  intros Hg HA Hinfo Hgeo [Hfits Hpos] Hnil Hsmall.
  destruct (generate_ok turn_angle turn_function A f Hg HA Hinfo Hgeo Hnil) as (f' & file & os & Hrun & Hle & Hlo & -> & Hds).
  assert (vsize os = vsize (turns A f)) as Hvs by (unfold vsize; by rewrite Hlo).
  assert (Forall original_fits os) as HF.
  { apply Forall_lookup_2. intros k o Ho. destruct (lookup_lt_is_Some_2 (turns A f) k) as [t Ht]; [rewrite <- Hlo; by eapply lookup_lt_Some|].
    destruct (Hds k t Ht) as (e & o' & _ & Ho' & [(d1 & d2 & angle & instr & via & H1 & H2 & _ & Hvia & _ & ->)]). rewrite Ho in Ho'. injection Ho' as ->.
    split; [|split; [apply (Hfits _ _ _ _ H1)|apply (Hfits _ _ _ _ H2)]]. cbn [oe_via_node].
    destruct (HasEntryForID (tn_e1 t) (fst (m_geometry_compressor f))); [by eapply Hpos|]. subst via.
    pose proof (rg_targets _ Hg _ _ _ _ H1). pose proof (rg_small _ Hg). lia. }
  destruct (load_edges_ok os d HF ltac:(lia)) as (d' & Hload & Htab). rewrite Hvs in Hload. exists f', (le32 (u32 (vsize (turns A f))) ++ (os ≫= original_bytes)), d'.
  split; [done|]. split; [done|]. split; [done|]. split; [intros t; by apply elem_of_turns|]. intros k t Hk.
  destruct (Hds k t Hk) as (e & o & He & Ho & [(d1 & d2 & angle & instr & via & H1 & H2 & Hi & Hvia & -> & ->)]).
  destruct (Htab k _ Ho) as (T1 & T2 & T3 & T4 & T5). cbn [oe_via_node oe_name_id oe_turn_instruction oe_compressed_geometry oe_travel_mode] in *.
  eexists _, d1, d2, angle, instr, via. split; [exact He|]. unfold EdgeBasedEdge_make. cbn [eb_source eb_target eb_edge_id eb_weight eb_forward eb_backward].
  do 4 (split; [done|]). split; [rewrite u32_small; [done|]|].
  { apply lookup_lt_Some in Hk. unfold vsize in Hsmall. lia. }
  do 2 (split; [done|]). split; [intros Hc; by apply turn_weight_ok|]. done.
Qed.

(** *** Two roads that meet, with a forbidden turn *)

Definition road (w id : N) : NodeBasedEdgeData := MkNodeBasedEdgeData (Z.of_N w) id 4 false false true true false false 1.

Definition corner_edges : list NodeBasedInputEdge :=
  [MkInputEdge 0 1 (road 7 0); MkInputEdge 1 0 (road 7 1); MkInputEdge 1 2 (road 9 2); MkInputEdge 2 1 (road 9 3)].

Definition corner_junk (_ : N) : Edge NodeBasedEdgeData := MkEdge 0 NodeBasedEdgeData_default.

Definition corner_restrictions : list TurnRestriction := [MkTurnRestriction 1 0 2 false].

Definition corner_factory : option EdgeBasedGraphFactory :=
  g ← DynamicGraph_from corner_junk 3 corner_edges;
  m ← RestrictionMap_make corner_restrictions;
  EdgeBasedGraphFactory_make g m [] [2%N] [MkNodeInfo 0 0 0; MkNodeInfo 0 1 1; MkNodeInfo 1 1 2] (MkSpeedProfile 3 5 false) 0.

Definition corner_angle (_ _ _ : NodeInfo) : double := double_of_int 90.

(** What is computed of the sample. *)
Lemma corner_values : match corner_factory with
  | Some f => bool_decide (number_of_nodes (m_node_based_graph f) = 3%N) && bool_decide (vsize (m_node_info_list f) = 3%N) &&
      match m_edge_based_edge_list f with [] => true | _ => false end &&
      bool_decide (m_edge_id_to_list_index_map (fst (m_geometry_compressor f)) = ∅) &&
      forallb (fun x => (e_target x <? 3)%N && (nd_nameID (e_data x) =? 4)%N && (nd_travel_mode (e_data x) =? 1)%N) (edge_list (m_node_based_graph f))
  | None => false
  end = true /\
  turns (foldl add_entry ∅ corner_restrictions) <$> corner_factory = Some [MkTurn 1 0 1 1 0; MkTurn 1 2 1 2 3; MkTurn 2 1 0 3 1].
Proof. split; vm_compute; reflexivity. Qed.

Lemma corner_ok : exists f, corner_factory = Some f /\ road_graph (m_node_based_graph f) /\
  restriction_rep (fa_restriction_map f) (foldl add_entry ∅ corner_restrictions) /\
  (number_of_nodes (m_node_based_graph f) <= vsize (m_node_info_list f))%N /\ m_edge_based_edge_list f = [] /\
  (forall e, m_edge_id_to_list_index_map (fst (m_geometry_compressor f)) !! e = None) /\
  (forall u e t d, slot (m_node_based_graph f) u e t d -> nd_nameID d = 4%N /\ nd_travel_mode d = 1%N) /\
  turns (foldl add_entry ∅ corner_restrictions) f = [MkTurn 1 0 1 1 0; MkTurn 1 2 1 2 3; MkTurn 2 1 0 3 1].
Proof.
  destruct (from_ok corner_junk 3 corner_edges) as (g & Hg & Hwf & Hn & _ & Hnl & _); [repeat constructor; discriminate|repeat constructor; done|done|done|].
  destruct (restriction_make_ok corner_restrictions) as (m & Hm & Hb & _); [done|]. destruct geometry_make_ok as (c & Hc & _).
  destruct corner_values as [Hval Hturns]. destruct corner_factory as [f|] eqn:Hf; [|done]. exists f. split; [done|].
  rewrite !andb_true_iff in Hval. destruct Hval as ((((H1 & H2) & H3) & H4) & H5). apply bool_decide_eq_true in H1, H2, H4. rewrite forallb_forall in H5.
  unfold corner_factory in Hf. rewrite Hg, Hm in Hf. cbn [mbind option_bind] in Hf. unfold EdgeBasedGraphFactory_make in Hf. rewrite Hc in Hf.
  cbn [mbind option_bind] in Hf. assert (m_node_based_graph f = g) as Hgf by (by injection Hf as <-).
  assert (fa_restriction_map f = m) as Hmf by (by injection Hf as <-).
  assert (forall u e t d, slot (m_node_based_graph f) u e t d -> (t < 3)%N /\ nd_nameID d = 4%N /\ nd_travel_mode d = 1%N) as Hslot.
  { intros u e t d (nd & _ & _ & He). rewrite vget_lookup in He. apply list_elem_of_lookup_2, list_elem_of_In, H5 in He. cbn in He.
    rewrite !andb_true_iff, N.ltb_lt, !N.eqb_eq in He. tauto. }
  split; [|split; [rewrite Hmf; apply (bt_rep _ _ Hb)|split; [rewrite H1, H2; done|split; [by destruct (m_edge_based_edge_list f)|split; [|split]]]]].
  - constructor; rewrite Hgf; [done|rewrite Hn, Hnl; lia|rewrite Hn; lia|]. intros u e t d Hs. rewrite <- Hgf in Hs. rewrite Hn. apply (Hslot _ _ _ _ Hs).
  - intros e. by rewrite H4, lookup_empty.
  - intros u e t d Hs. apply (Hslot _ _ _ _ Hs).
  - cbn in Hturns. by injection Hturns.
Qed.

Lemma edge_expansion_turns_witness : exists f f' file d',
  corner_factory = Some f /\ GenerateEdgeExpandedEdges corner_angle (fun _ => None) f = Some (f', file) /\
  LoadEdgeInformation file empty_facade = Some d' /\ length (m_edge_based_edge_list f') = 3%nat /\
  exists e, m_edge_based_edge_list f' !! 2%nat = Some e /\ eb_edge_id e = 2%N /\ GetNameIndexFromEdgeID 2 d' = Some 4%N.
Proof.
  destruct corner_ok as (f & Hf & Hg & HA & Hinfo & Hnil & Hmap & Hdata & Hturns).
  destruct (edge_expansion_turns corner_angle (fun _ => None) (foldl add_entry ∅ corner_restrictions) f empty_facade)
    as (f' & file & d' & Hrun & Hload & Hlen & _ & Hk).
  - exact Hg.
  - exact HA.
  - exact Hinfo.
  - intros e He. unfold HasEntryForID in He. by rewrite Hmap in He.
  - split; [intros u e t d Hs; destruct (Hdata u e t d Hs) as [-> ->]; done|]. intros e p Hp. unfold GetPositionForID in Hp. by rewrite Hmap in Hp.
  - exact Hnil.
  - by rewrite Hturns.
  - exists f, f', file, d'. split; [exact Hf|]. split; [exact Hrun|]. split; [exact Hload|]. rewrite Hturns in Hlen, Hk. split; [exact Hlen|].
    destruct (Hk 2%nat (MkTurn 2 1 0 3 1)) as (e & d1 & d2 & angle & instr & via & He & H1 & _ & _ & _ & Hid & _ & _ & _ & _ & _ & Hname & _); [reflexivity|].
    exists e. split; [exact He|]. split; [exact Hid|]. destruct (Hdata _ _ _ _ H1) as [Hn _]. rewrite Hn in Hname. exact Hname.
Defined.
