(* ===== verification/Compression.v ===== *)
(** * Contractor/EdgeBasedGraphFactory.cpp: the compression of the geometry

    [CompressGeometry] removes nodes of degree two. The graph is seen as a map
    from the slots to the edges in them; every edge that is left stands for a
    chain of edges of the input graph, whose nodes are its geometry. *)

From Stdlib Require Import Floats.SpecFloat.
From S2P Require Import Prelude Types Float32 Edges Storage BinaryHeap DynamicGraph StaticGraph Text Routing Hsgr.
From S2P Require Import Restrictions GeometryCompressor NodeBasedGraph EdgeExpansion Turns.

(** ** The graph as a map of its edges *)

Record half_edge := MkHalfEdge { he_source : N; he_target : N; he_data : NodeBasedEdgeData }.

Abbreviation edge_map := (gmap N half_edge).
Implicit Types (g : NodeBasedDynamicGraph) (E : edge_map).

Definition edges_rep g E : Prop := graph_wf g /\
  forall e u t d, E !! e = Some (MkHalfEdge u t d) <-> slot g u e t d.

Definition edge_at g (u e : N) : list (N * half_edge) :=
  match vget (edge_list g) e with Some x => [(e, MkHalfEdge u (e_target x) (e_data x))] | None => [] end.

Definition edges_of g : edge_map :=
  list_to_map (irange 0 (vsize (node_list g)) ≫= fun u => slots g u ≫= edge_at g u).

Lemma list_to_map_unique {V} (l : list (N * V)) : (forall k x y, (k, x) ∈ l -> (k, y) ∈ l -> x = y) ->
  forall k x, (list_to_map l : gmap N V) !! k = Some x <-> (k, x) ∈ l.
Proof.
  intros Hu k x. split; [apply elem_of_list_to_map_2|]. intros Hin.
  induction l as [|[k' x'] l IH]; [by apply elem_of_nil in Hin|]. cbn. destruct (decide (k = k')) as [->|Hne].
  - rewrite lookup_insert_eq. f_equal. eapply Hu; [by left|exact Hin].
  - rewrite lookup_insert_ne by done. apply IH; [intros j a b Ha Hb; eapply Hu; by right|].
    apply elem_of_cons in Hin as [[= -> ->]|Hin]; done.
Qed.

Lemma edges_of_rep g : graph_wf g -> (vsize (node_list g) < 4294967296)%N -> edges_rep g (edges_of g).
Proof.
  intros Hwf Hn. split; [done|]. intros e u t d. unfold edges_of.
  assert (forall e x, (e, x) ∈ (irange 0 (vsize (node_list g)) ≫= fun u => slots g u ≫= edge_at g u) <-> slot g (he_source x) e (he_target x) (he_data x)) as Hin.
  { intros e' [u' t' d']. cbn [he_source he_target he_data]. rewrite list_elem_of_bind. setoid_rewrite list_elem_of_bind. split.
    - intros (a & (s & Hx & Hs) & _). destruct (slot_of g a s Hwf Hs) as (t1 & d1 & Hsl & _). pose proof Hsl as (_ & _ & _ & Hv).
      unfold edge_at in Hx. rewrite Hv in Hx. apply list_elem_of_singleton in Hx as [= -> -> -> ->]. done.
    - intros Hs. exists u'. split; [|apply elem_of_irange; [done|]; destruct Hs as (nd & Hnd & _); apply vget_Some_lt in Hnd; lia].
      exists e'. split; [|apply elem_of_slots; eauto]. destruct Hs as (_ & _ & _ & Hv). unfold edge_at. rewrite Hv. by left. }
  rewrite list_to_map_unique; [apply (Hin e (MkHalfEdge u t d))|]. intros k [u1 t1 d1] [u2 t2 d2] H1%Hin H2%Hin. cbn in H1, H2.
  by destruct (slot_unique g _ _ _ _ _ _ _ Hwf H1 H2) as (-> & -> & ->).
Qed.

(** Two edges get new values and two are deleted. *)
Definition joined {V} (M : gmap N V) (e1f e1r e2f e2r : N) (xf xr : V) : gmap N V := <[e1f := xf]> (<[e1r := xr]> (delete e2f (delete e2r M))).

Lemma joined_lookup {V} (M : gmap N V) e1f e1r e2f e2r xf xr e : joined M e1f e1r e2f e2r xf xr !! e =
  if decide (e = e1f) then Some xf else if decide (e = e1r) then Some xr else if decide (e = e2f \/ e = e2r) then None else M !! e.
Proof.
  unfold joined. case_decide as H1; [subst e; by rewrite lookup_insert_eq|]. rewrite lookup_insert_ne by done.
  case_decide as H2; [subst e; by rewrite lookup_insert_eq|]. rewrite lookup_insert_ne by done. rewrite !lookup_delete.
  destruct (decide (e2f = e)), (decide (e2r = e)); case_decide; try done; exfalso; intuition congruence.
Qed.

Lemma joined_entry {V} (M : gmap N V) e1f e1r e2f e2r xf xr e x : joined M e1f e1r e2f e2r xf xr !! e = Some x ->
  e = e1f /\ x = xf \/ e = e1r /\ x = xr \/ e <> e1f /\ e <> e1r /\ e <> e2f /\ e <> e2r /\ M !! e = Some x.
Proof.
  rewrite joined_lookup. destruct (decide (e = e1f)); [intros [= <-]; tauto|]. destruct (decide (e = e1r)); [intros [= <-]; tauto|].
  destruct (decide (e = e2f \/ e = e2r)); [done|]. intros He. right. right. tauto.
Qed.

Section edits.
Lemma rep_slot g E e x : edges_rep g E -> E !! e = Some x -> slot g (he_source x) e (he_target x) (he_data x).
Proof. intros [_ H] He. destruct x as [u t d]. by apply H. Qed.

Lemma rep_data g E e u t d : edges_rep g E -> E !! e = Some (MkHalfEdge u t d) -> GetEdgeData e g = Some d.
Proof. intros Hrep He. destruct (rep_slot g E e _ Hrep He) as (_ & _ & _ & Hv). unfold GetEdgeData. by rewrite Hv. Qed.

Lemma rep_target g E e u t d : edges_rep g E -> E !! e = Some (MkHalfEdge u t d) -> GetTarget e g = Some t.
Proof. intros Hrep He. destruct (rep_slot g E e _ Hrep He) as (_ & _ & _ & Hv). unfold GetTarget. by rewrite Hv. Qed.

(** Changing the edge in one slot. *)
Lemma edit_slot g E e x F : edges_rep g E -> E !! e = Some x -> e_target (F (MkEdge (he_target x) (he_data x))) <> UINT_MAX ->
  exists el, vupd (edge_list g) e F = Some el /\
    edges_rep (set_edge_list el g)
      (<[e := MkHalfEdge (he_source x) (e_target (F (MkEdge (he_target x) (he_data x)))) (e_data (F (MkEdge (he_target x) (he_data x))))]> E).
Proof.
  intros [Hwf HE] He Ht. pose proof (rep_slot g E e x (conj Hwf HE) He) as (nd & Hnd & Hr & Hv).
  rewrite vupd_lt by (by eapply vget_Some_lt). eexists. split; [done|]. set (el := alter F (N.to_nat e) (edge_list g)).
  set (y := F (MkEdge (he_target x) (he_data x))) in *.
  assert (forall j, vget el j = if decide (e = j) then Some y else vget (edge_list g) j) as Hget.
  { intros j. unfold el. rewrite vget_alter. case_decide as Hj; [|done]. rewrite <- Hj, Hv. done. }
  split.
  - destruct Hwf as [Hb Hrg Hd Hu]. constructor; unfold set_edge_list; cbn [edge_list node_list]; rewrite ?vsize_alter; try done.
    + unfold el. by rewrite vsize_alter.
    + intros m nd' Hm. unfold el. rewrite vsize_alter. by eapply Hrg.
    + intros m nd' i z Hm Hi. rewrite Hget. case_decide; [by intros [= <-]|by eapply Hu].
  - intros e' u t d. destruct (decide (e = e')) as [<-|Hne].
    + rewrite lookup_insert_eq. unfold slot, set_edge_list. cbn [edge_list node_list]. rewrite Hget, decide_True by done. split.
      * intros [= <- <- <-]. exists nd. split; [done|]. split; [done|]. by destruct y.
      * intros (nd' & Hnd' & Hr' & [= Hy]). rewrite Hy. cbn. f_equal. f_equal. by eapply (gw_disjoint g Hwf).
    + rewrite lookup_insert_ne by done. rewrite HE. unfold slot, set_edge_list. cbn [edge_list node_list].
      rewrite Hget, decide_False by done. done.
Qed.

Lemma add_distance_ok g E e u t d z : edges_rep g E -> E !! e = Some (MkHalfEdge u t d) -> (INT_MIN <= nd_distance d + z <= INT_MAX)%Z ->
  exists g', add_distance e z g = Some g' /\ number_of_nodes g' = number_of_nodes g /\ node_list g' = node_list g /\
    edges_rep g' (<[e := MkHalfEdge u t (set_distance (nd_distance d + z) d)]> E).
Proof.
  intros Hrep He Hz. pose proof (rep_slot g E e _ Hrep He) as (nd & Hnd & Hr & Hv). cbn in Hv.
  unfold add_distance, GetEdgeData. rewrite Hv. cbn [mbind option_bind e_data]. rewrite iadd_Some by done. cbn [mbind option_bind].
  unfold AssignEdgeData. destruct (edit_slot g E e _ (fun x => MkEdge (e_target x) (set_distance (nd_distance d + z) (e_data x))) Hrep He) as (el & -> & Hrep').
  { cbn. by eapply (gw_used g (proj1 Hrep) u nd e (MkEdge t d)). }
  cbn [mbind option_bind]. eexists. split; [done|]. done.
Qed.

Lemma set_target_ok g E e u t d t' : edges_rep g E -> E !! e = Some (MkHalfEdge u t d) -> t' <> UINT_MAX ->
  exists g', SetTarget e t' g = Some g' /\ number_of_nodes g' = number_of_nodes g /\ node_list g' = node_list g /\
    edges_rep g' (<[e := MkHalfEdge u t' d]> E).
Proof.
  intros Hrep He Ht. unfold SetTarget. destruct (edit_slot g E e _ (set_target t') Hrep He Ht) as (el & -> & Hrep').
  cbn [mbind option_bind]. eexists. split; [done|]. done.
Qed.

(** Deleting both edges of a node of degree two. *)
Lemma delete_both g E v b a1 a2 : edges_rep g E -> vget (node_list g) v = Some (MkNode b 2) -> (a1 = b /\ a2 = b + 1 \/ a1 = b + 1 /\ a2 = b)%N ->
  exists g1 g', DeleteEdge v a1 g = Some g1 /\ DeleteEdge v a2 g1 = Some g' /\ number_of_nodes g' = number_of_nodes g /\
    node_list g' = <[N.to_nat v := MkNode b 0]> (node_list g) /\ edges_rep g' (delete a1 (delete a2 E)).
Proof.
  intros [Hwf HE] Hv Ha. pose proof (vget_Some_lt _ _ _ Hv) as Hlt. pose proof (gw_range g Hwf _ _ Hv) as Hr. cbn in Hr. pose proof (gw_bound g Hwf) as Hb.
  destruct (vget_lt (edge_list g) (b + 1)) as [x Hx]; [lia|].
  set (el1 := alter (set_target UINT_MAX) (N.to_nat (b + 1)) (<[N.to_nat a1 := x]> (edge_list g))).
  set (g1 := MkDynamicGraph (number_of_nodes g) (usub (number_of_edges g) 1) (<[N.to_nat v := MkNode b 1]> (node_list g)) el1).
  assert (vsize el1 = vsize (edge_list g)) as Hsz1 by (unfold el1; by rewrite vsize_alter, vsize_insert).
  destruct (vget_lt el1 b) as [y Hy]; [lia|].
  set (el2 := alter (set_target UINT_MAX) (N.to_nat b) (<[N.to_nat a2 := y]> el1)).
  set (g2 := MkDynamicGraph (number_of_nodes g) (usub (number_of_edges g1) 1) (<[N.to_nat v := MkNode b 0]> (node_list g)) el2).
  assert (vsize el2 = vsize (edge_list g)) as Hsz2 by (unfold el2; by rewrite vsize_alter, vsize_insert).
  assert (forall i, i <> b -> i <> (b + 1)%N -> vget el2 i = vget (edge_list g) i) as Hkeep.
  { intros i H1 H2. unfold el2, el1. rewrite vget_alter, decide_False by done. rewrite vget_insert, decide_False by lia.
    rewrite vget_alter, decide_False by done. rewrite vget_insert, decide_False by lia. done. }
  exists g1, g2. split; [|split; [|split; [done|split; [done|]]]].
  - unfold DeleteEdge. rewrite Hv. cbn [mbind option_bind edges firstEdge set_edges]. rewrite (usub_small 2 1), uadd_small by lia.
    change (2 - 1)%N with 1%N. rewrite vset_lt by done. cbn [mbind option_bind]. rewrite Hx. cbn [mbind option_bind].
    rewrite vset_lt by lia. cbn [mbind option_bind]. rewrite makeDummy_ok by (rewrite vsize_insert; lia). done.
  - unfold DeleteEdge, g1. cbn [node_list edge_list number_of_nodes number_of_edges]. rewrite vget_insert, decide_True by done.
    cbn [mbind option_bind edges firstEdge set_edges]. rewrite (usub_small 1 1), uadd_small by lia. change (1 - 1)%N with 0%N. rewrite N.add_0_r.
    rewrite vset_lt by (by rewrite vsize_insert). cbn [mbind option_bind]. rewrite Hy. cbn [mbind option_bind].
    rewrite vset_lt by lia. cbn [mbind option_bind]. rewrite makeDummy_ok by (rewrite vsize_insert; lia). unfold g2. by rewrite list_insert_insert_eq.
  - assert (forall i, foreign g v i -> i <> b /\ i <> (b + 1)%N) as Hfor.
    { intros i Hf. split; intros ->; revert Hf; apply (foreign_own g v (MkNode b 2)); try done; unfold in_range; cbn; lia. }
    split.
    + apply (update_node g v (MkNode b 0) _ _ el2 Hwf Hlt); cbn [firstEdge edges]; [lia|lia| | |].
      * intros i Hf. destruct (Hfor i Hf). by apply Hkeep.
      * intros i Hi. unfold in_range in Hi. cbn in Hi. lia.
      * intros i z Hi. unfold in_range in Hi. cbn in Hi. lia.
    + intros e u t d. rewrite !lookup_delete_Some, HE. unfold slot, g2. cbn [node_list edge_list]. rewrite vget_insert. split.
      * intros (H1 & H2 & nd & Hnd & Hrg & He). exists nd. rewrite Hkeep by lia. split; [|done]. rewrite decide_False; [done|].
        intros [-> _]. rewrite Hv in Hnd. injection Hnd as <-. unfold in_range in Hrg. cbn in Hrg. lia.
      * intros (nd & Hnd & Hrg & He). case_decide as Hd.
        { injection Hnd as <-. unfold in_range in Hrg. cbn in Hrg. lia. }
        assert (u <> v) as Huv by (intros ->; apply Hd; done). assert (e <> b /\ e <> b + 1)%N as [H1 H2] by (apply Hfor; by exists u, nd).
        rewrite Hkeep in He by done. split; [lia|]. split; [lia|]. by exists nd.
Qed.

Definition light (penalty : option Z) : Z := match penalty with Some p => p | None => 0%Z end.

(** The graph after the edges at a node of degree two are merged. *)
Lemma merge_at_ok g E v b e1f e2f e1r e2r u w d1f d2f d1r d2r penalty :
  edges_rep g E -> vget (node_list g) v = Some (MkNode b 2) -> (e2f = b /\ e2r = b + 1 \/ e2f = b + 1 /\ e2r = b)%N ->
  E !! e1f = Some (MkHalfEdge u v d1f) -> E !! e1r = Some (MkHalfEdge w v d1r) ->
  E !! e2f = Some (MkHalfEdge v w d2f) -> E !! e2r = Some (MkHalfEdge v u d2r) -> u <> v -> w <> v -> u <> w ->
  (0 <= nd_distance d1f)%Z -> (0 <= nd_distance d2f)%Z -> (0 <= nd_distance d1r)%Z -> (0 <= nd_distance d2r)%Z -> (0 <= light penalty)%Z ->
  (nd_distance d1f + nd_distance d2f + light penalty <= INT_MAX)%Z -> (nd_distance d1r + nd_distance d2r + light penalty <= INT_MAX)%Z ->
  exists g', merge_at g v e1f e2f e1r e2r u w penalty = Some g' /\ number_of_nodes g' = number_of_nodes g /\
    node_list g' = <[N.to_nat v := MkNode b 0]> (node_list g) /\
    edges_rep g' (joined E e1f e1r e2f e2r (MkHalfEdge u w (set_distance (nd_distance d1f + nd_distance d2f + light penalty) d1f))
      (MkHalfEdge w u (set_distance (nd_distance d1r + nd_distance d2r + light penalty) d1r))).
Proof.
  intros Hrep Hv Hab H1f H1r H2f H2r Huv Hwv Huw P1 P2 P3 P4 Pp Bf Br.
  assert (e1f <> e1r /\ e1f <> e2f /\ e1f <> e2r /\ e1r <> e2f /\ e1r <> e2r /\ e2f <> e2r) as (N1 & N2 & N3 & N4 & N5 & N6).
  { split_and!; intros ->; try congruence. }
  assert (u <> UINT_MAX /\ w <> UINT_MAX) as [Hu Hw].
  { split; intros ->.
    - destruct (rep_slot g E e2r _ Hrep H2r) as (nd & Hnd & Hr & He). by eapply (gw_used g (proj1 Hrep) _ _ _ _ Hnd Hr He).
    - destruct (rep_slot g E e2f _ Hrep H2f) as (nd & Hnd & Hr & He). by eapply (gw_used g (proj1 Hrep) _ _ _ _ Hnd Hr He). }
  unfold merge_at. rewrite (rep_data g E e2f v w d2f Hrep H2f). cbn [mbind option_bind].
  destruct (add_distance_ok g E e1f u v d1f (nd_distance d2f) Hrep H1f) as (g1 & -> & Hn1 & Hl1 & Hrep1); [unfold INT_MIN in *; lia|]. cbn [mbind option_bind].
  set (E1 := <[e1f := _]> E) in Hrep1. assert (E1 !! e2r = Some (MkHalfEdge v u d2r)) as H2r1 by (unfold E1; by rewrite lookup_insert_ne).
  rewrite (rep_data g1 E1 e2r v u d2r Hrep1 H2r1). cbn [mbind option_bind].
  destruct (add_distance_ok g1 E1 e1r w v d1r (nd_distance d2r) Hrep1) as (g2 & -> & Hn2 & Hl2 & Hrep2); [unfold E1; by rewrite lookup_insert_ne|unfold INT_MIN in *; lia|].
  cbn [mbind option_bind]. set (E2 := <[e1r := _]> E1) in Hrep2.
  assert (exists g3 E3, match penalty with Some p => g' ← add_distance e1f p g2; add_distance e1r p g' | None => Some g2 end = Some g3 /\
    number_of_nodes g3 = number_of_nodes g /\ node_list g3 = node_list g /\ edges_rep g3 E3 /\
    E3 = <[e1f := MkHalfEdge u v (set_distance (nd_distance d1f + nd_distance d2f + light penalty) d1f)]>
      (<[e1r := MkHalfEdge w v (set_distance (nd_distance d1r + nd_distance d2r + light penalty) d1r)]> E)) as (g3 & E3 & -> & Hn3 & Hl3 & Hrep3 & HE3).
  { destruct penalty as [p|]; cbn [light] in *.
    - destruct (add_distance_ok g2 E2 e1f u v (set_distance (nd_distance d1f + nd_distance d2f) d1f) p Hrep2) as (ga & -> & Hna & Hla & Hrepa);
        [unfold E2, E1; by rewrite lookup_insert_ne, lookup_insert_eq|cbn; unfold INT_MIN in *; lia|]. cbn [mbind option_bind].
      set (Ea := <[e1f := _]> E2) in Hrepa.
      destruct (add_distance_ok ga Ea e1r w v (set_distance (nd_distance d1r + nd_distance d2r) d1r) p Hrepa) as (gb & -> & Hnb & Hlb & Hrepb);
        [unfold Ea, E2; by rewrite lookup_insert_ne, lookup_insert_eq|cbn; unfold INT_MIN in *; lia|].
      eexists gb, _. split; [done|]. split; [congruence|]. split; [congruence|]. split; [exact Hrepb|]. unfold Ea, E2, E1. apply map_eq. intros e.
      destruct (decide (e = e1r)) as [->|Hr]; [rewrite lookup_insert_eq, lookup_insert_ne, lookup_insert_eq by done; done|].
      destruct (decide (e = e1f)) as [->|Hf]; [rewrite lookup_insert_ne, !lookup_insert_eq by done; done|]. rewrite !lookup_insert_ne by done. done.
    - exists g2, E2. split; [done|]. split; [congruence|]. split; [congruence|]. split; [done|]. unfold E2, E1. rewrite !Z.add_0_r. by apply insert_insert_ne. }
  cbn [mbind option_bind].
  destruct (set_target_ok g3 E3 e1f u v (set_distance (nd_distance d1f + nd_distance d2f + light penalty) d1f) w Hrep3) as (g4 & -> & Hn4 & Hl4 & Hrep4);
    [rewrite HE3; by rewrite lookup_insert_eq|done|]. cbn [mbind option_bind]. set (E4 := <[e1f := _]> E3) in Hrep4.
  destruct (set_target_ok g4 E4 e1r w v (set_distance (nd_distance d1r + nd_distance d2r + light penalty) d1r) u Hrep4) as (g5 & -> & Hn5 & Hl5 & Hrep5);
    [unfold E4; rewrite HE3; by rewrite !(lookup_insert_ne _ e1f), lookup_insert_eq|done|]. cbn [mbind option_bind]. set (E5 := <[e1r := _]> E4) in Hrep5.
  assert (vget (node_list g5) v = Some (MkNode b 2)) as Hv5 by (rewrite Hl5, Hl4, Hl3; done).
  destruct (delete_both g5 E5 v b e2f e2r Hrep5 Hv5 Hab) as (g6 & g7 & -> & H7 & Hn7 & Hl7 & Hrep7). cbn [mbind option_bind].
  exists g7. split; [done|]. split; [congruence|]. split; [congruence|].
  unfold joined. replace (<[e1f := _]> (<[e1r := _]> (delete e2f (delete e2r E)))) with (delete e2f (delete e2r E5)); [done|].
  unfold E5, E4. rewrite HE3. apply map_eq. intros e. destruct (decide (e = e1f)) as [->|Hf].
  { rewrite !lookup_delete_ne by done. rewrite lookup_insert_ne, !lookup_insert_eq by done. done. }
  rewrite (lookup_insert_ne _ e1f) by done. destruct (decide (e = e1r)) as [->|Hr].
  { rewrite !lookup_delete_ne by done. by rewrite !lookup_insert_eq. }
  rewrite (lookup_insert_ne _ e1r) by done. rewrite !lookup_delete. repeat case_decide; try done. by rewrite !lookup_insert_ne.
Qed.
End edits.

(** ** Nodes of degree two *)

Definition same_way (d d' : NodeBasedEdgeData) : Prop := nd_forward d = nd_forward d' /\ nd_backward d = nd_backward d'.

Definition opposite (d d' : NodeBasedEdgeData) : Prop := nd_forward d = nd_backward d' /\ nd_backward d = nd_forward d'.

(** The graphs that are compressed: no loops, at most one edge of a kind from
    one node to another, and every edge is stored at both of its ends. *)
Record two_way E : Prop := {
  tw_loop e h : E !! e = Some h -> he_source h <> he_target h;
  tw_single e e' u t d d' : E !! e = Some (MkHalfEdge u t d) -> E !! e' = Some (MkHalfEdge u t d') -> same_way d d' -> e = e';
  tw_twin e u t d : E !! e = Some (MkHalfEdge u t d) -> exists e' d', E !! e' = Some (MkHalfEdge t u d') /\ opposite d d';
  tw_distance e h : E !! e = Some h -> (0 <= nd_distance (he_data h))%Z;
}.

Lemma is_equal_fields d d' : IsEqualTo d d' = true <-> same_way d d' /\ nd_nameID d = nd_nameID d' /\
  nd_ignore_in_grid d = nd_ignore_in_grid d' /\ nd_travel_mode d = nd_travel_mode d'.
Proof. unfold IsEqualTo, same_way. rewrite !andb_true_iff, !eqb_true_iff, !N.eqb_eq. tauto. Qed.

(** What is found around a node of degree two. *)
Record degree_two E (v u w e1f e1r e2f e2r : N) (d1f d1r d2f d2r : NodeBasedEdgeData) : Prop := {
  dt_forward2 : E !! e2f = Some (MkHalfEdge v w d2f);
  dt_reverse2 : E !! e2r = Some (MkHalfEdge v u d2r);
  dt_all e t d : E !! e = Some (MkHalfEdge v t d) -> e = e2f \/ e = e2r;
  dt_two : e2f <> e2r;
  dt_forward1 : E !! e1f = Some (MkHalfEdge u v d1f);
  dt_reverse1 : E !! e1r = Some (MkHalfEdge w v d1r);
  dt_found : u = w -> e1f = e1r;
}.

Section degree_two.
  Context (E : edge_map) (v u w e1f e1r e2f e2r : N) (d1f d1r d2f d2r : NodeBasedEdgeData).
  Hypothesis E_ok : two_way E.
  Hypothesis at_v : degree_two E v u w e1f e1r e2f e2r d1f d1r d2f d2r.
  Hypothesis forward_equal : IsEqualTo d1f d2f = true.
  Hypothesis reverse_equal : IsEqualTo d1r d2r = true.
#[local] Set Default Proof Using "All".

Lemma ends_differ : u <> v /\ w <> v /\ u <> w.
Proof.
  destruct at_v as [Hf2 Hr2 Hall Htwo Hf1 Hr1 Hfound].
  split; [exact (tw_loop E E_ok _ _ Hf1)|]. split; [exact (tw_loop E E_ok _ _ Hr1)|]. intros Huw. apply Htwo.
  specialize (Hfound Huw). subst. rewrite Hf1 in Hr1. injection Hr1 as ->.
  apply (tw_single E E_ok _ _ _ _ _ _ Hf2 Hr2). apply is_equal_fields in forward_equal, reverse_equal. unfold same_way in *. intuition congruence.
Qed.

Lemma slots_differ : e1f <> e1r /\ e1f <> e2f /\ e1f <> e2r /\ e1r <> e2f /\ e1r <> e2r.
Proof.
  destruct ends_differ as (Hu & Hw & Huw). destruct at_v as [Hf2 Hr2 Hall Htwo Hf1 Hr1 Hfound].
  split_and!; intros ->; congruence.
Qed.

Lemma arriving_unique e d : (E !! e = Some (MkHalfEdge u v d) -> e = e1f) /\ (E !! e = Some (MkHalfEdge w v d) -> e = e1r).
Proof.
  destruct ends_differ as (Hu & Hw & Huw). destruct at_v as [Hf2 Hr2 Hall Htwo Hf1 Hr1 Hfound].
  split; intros He.
  - destruct (tw_twin E E_ok _ _ _ _ He) as (e' & d' & He' & Ho). destruct (tw_twin E E_ok _ _ _ _ Hf1) as (e'' & d'' & He'' & Ho').
    assert (e' = e2r) as -> by (destruct (Hall _ _ _ He') as [->| ->]; [congruence|done]).
    assert (e'' = e2r) as -> by (destruct (Hall _ _ _ He'') as [->| ->]; [congruence|done]).
    apply (tw_single E E_ok _ _ _ _ _ _ He Hf1). unfold opposite, same_way in *. rewrite He' in He''. injection He'' as ->. intuition congruence.
  - destruct (tw_twin E E_ok _ _ _ _ He) as (e' & d' & He' & Ho). destruct (tw_twin E E_ok _ _ _ _ Hr1) as (e'' & d'' & He'' & Ho').
    assert (e' = e2f) as -> by (destruct (Hall _ _ _ He') as [->| ->]; [done|congruence]).
    assert (e'' = e2f) as -> by (destruct (Hall _ _ _ He'') as [->| ->]; [done|congruence]).
    apply (tw_single E E_ok _ _ _ _ _ _ He Hr1). unfold opposite, same_way in *. rewrite He' in He''. injection He'' as ->. intuition congruence.
Qed.

Lemma arriving_opposite : opposite d1f d1r.
Proof.
  destruct ends_differ as (Hu & Hw & Huw). destruct at_v as [Hf2 Hr2 Hall Htwo Hf1 Hr1 Hfound].
  destruct (tw_twin E E_ok _ _ _ _ Hf1) as (e' & d' & He' & Ho).
  assert (e' = e2r) as -> by (destruct (Hall _ _ _ He') as [->| ->]; [congruence|done]).
  rewrite Hr2 in He'. injection He' as <-. apply is_equal_fields in reverse_equal as [[H1 H2] _]. unfold opposite in *. intuition congruence.
Qed.

Lemma joined_two_way sf sr : (forall e d, E !! e <> Some (MkHalfEdge u w d)) -> (forall e d, E !! e <> Some (MkHalfEdge w u d)) ->
  (0 <= sf)%Z -> (0 <= sr)%Z ->
  two_way (joined E e1f e1r e2f e2r (MkHalfEdge u w (set_distance sf d1f)) (MkHalfEdge w u (set_distance sr d1r))).
Proof.
  intros Huw Hwu Hsf Hsr. destruct ends_differ as (Du & Dw & Duw). destruct slots_differ as (S1 & S2 & S3 & S4 & S5).
  pose proof arriving_opposite as Hop. pose proof arriving_unique as Harr.
  destruct at_v as [Hf2 Hr2 Hall Htwo Hf1 Hr1 Hfound]. constructor.
  - intros e h. rewrite joined_lookup. repeat case_decide; intros Hh; simplify_eq; cbn; [done|congruence|by eapply tw_loop].
  - intros e e' a t d d' K1%joined_entry K2%joined_entry Hs.
    destruct K1 as [[-> [= -> -> ->]]|[[-> [= -> -> ->]]|(_ & _ & _ & _ & K1)]], K2 as [[-> K2]|[[-> K2]|(_ & _ & _ & _ & K2)]];
      [done|by injection K2|by destruct (Huw _ _ K2)|by injection K2|done|by destruct (Hwu _ _ K2)| | |by eapply tw_single].
    + injection K2 as -> -> _. by destruct (Huw _ _ K1).
    + injection K2 as -> -> _. by destruct (Hwu _ _ K1).
  - intros e a t d. rewrite joined_lookup. repeat case_decide; intros K1; simplify_eq.
    + exists e1r, (set_distance sr d1r). rewrite joined_lookup, decide_False, decide_True by done. split; [done|]. unfold opposite in *. cbn. tauto.
    + exists e1f, (set_distance sf d1f). rewrite joined_lookup, decide_True by done. split; [done|]. unfold opposite in *. cbn. intuition congruence.
    + destruct (tw_twin E E_ok _ _ _ _ K1) as (e' & d' & He' & Ho). exists e', d'. rewrite joined_lookup. split; [|done].
      destruct (decide (e' = e1f)) as [->|]; [rewrite Hf1 in He'; injection He' as <- <- <-; destruct (Hall _ _ _ K1); tauto|].
      destruct (decide (e' = e1r)) as [->|]; [rewrite Hr1 in He'; injection He' as <- <- <-; destruct (Hall _ _ _ K1); tauto|].
      rewrite decide_False; [done|]. intros [->| ->].
      * rewrite Hf2 in He'. injection He' as <- <- <-. by apply (proj2 (Harr e d)) in K1.
      * rewrite Hr2 in He'. injection He' as <- <- <-. by apply (proj1 (Harr e d)) in K1.
  - intros e h. rewrite joined_lookup. repeat case_decide; intros Hh; simplify_eq; cbn; [done|done|by eapply tw_distance].
Qed.
End degree_two.

(** *** What the code finds *)

Lemma source_lt g E e u t d : edges_rep g E -> E !! e = Some (MkHalfEdge u t d) -> (u < vsize (node_list g))%N.
Proof. intros Hrep He. destruct (rep_slot g E e _ Hrep He) as (nd & Hnd & _). by eapply vget_Some_lt. Qed.

Lemma target_lt g E e u t d : edges_rep g E -> two_way E -> E !! e = Some (MkHalfEdge u t d) -> (t < vsize (node_list g))%N.
Proof. intros Hrep H2 He. destruct (tw_twin E H2 _ _ _ _ He) as (e' & d' & He' & _). by eapply source_lt. Qed.

Lemma find_rep g E u t : edges_rep g E -> (u < vsize (node_list g))%N ->
  exists i iend, FindEdge u t g = Some i /\ EndEdges u g = Some iend /\
    ((exists d, E !! i = Some (MkHalfEdge u t d)) /\ i <> iend \/ i = iend /\ forall e d, E !! e <> Some (MkHalfEdge u t d)).
Proof.
  intros [Hwf HE] Hu. destruct (vget_lt (node_list g) u Hu) as [nd Hnd]. pose proof (gw_range g Hwf _ _ Hnd). pose proof (gw_bound g Hwf).
  destruct (find_edge_ok g u t nd Hwf Hnd) as (i & Hi & Hcase).
  assert (EndEdges u g = Some (firstEdge nd + edges nd)%N) as Hend by (unfold EndEdges; rewrite Hnd; cbn [mbind option_bind]; by rewrite uadd_small by lia).
  exists i, (firstEdge nd + edges nd)%N. split; [done|]. split; [done|].
  destruct Hcase as [(Hri & ([t' d] & Hv & Ht) & _)|(Hi' & HF)]; cbn in *.
  - left. subst t'. split; [|unfold in_range in Hri; lia]. exists d. apply HE. by exists nd.
  - right. split; [congruence|]. intros e d He. apply HE in He. rewrite Forall_forall in HF. by apply (HF (MkEdge t d)); [eapply slot_adj|].
Qed.

Lemma degree_node g E v : edges_rep g E -> (v < vsize (node_list g))%N -> exists b k, vget (node_list g) v = Some (MkNode b k) /\
  GetOutDegree v g = Some k /\ (b + k < 4294967296)%N.
Proof.
  intros [Hwf _] Hv. destruct (vget_lt (node_list g) v Hv) as [[b k] Hnd]. exists b, k. split; [done|]. unfold GetOutDegree. rewrite Hnd.
  pose proof (gw_range g Hwf _ _ Hnd). pose proof (gw_bound g Hwf). cbn in *. split; [done|lia].
Qed.

Lemma node_slots g E v b : edges_rep g E -> vget (node_list g) v = Some (MkNode b 2) ->
  (exists t d, E !! b = Some (MkHalfEdge v t d)) /\ (exists t d, E !! (b + 1)%N = Some (MkHalfEdge v t d)) /\
  forall e t d, E !! e = Some (MkHalfEdge v t d) -> e = b \/ e = (b + 1)%N.
Proof.
  intros [Hwf HE] Hv. pose proof (gw_range g Hwf _ _ Hv) as Hr. cbn in Hr. split; [|split].
  - destruct (vget_lt (edge_list g) b) as [[t d] Hx]; [lia|]. exists t, d. apply HE. exists (MkNode b 2). unfold in_range. cbn. split; [done|]. split; [lia|done].
  - destruct (vget_lt (edge_list g) (b + 1)) as [[t d] Hx]; [lia|]. exists t, d. apply HE. exists (MkNode b 2). unfold in_range. cbn. split; [done|]. split; [lia|done].
  - intros e t d He. apply HE in He as (nd & Hnd & Hi & _). rewrite Hv in Hnd. injection Hnd as <-. unfold in_range in Hi. cbn in Hi. lia.
Qed.

Lemma chain_edges_ok g E v b : edges_rep g E -> two_way E -> vget (node_list g) v = Some (MkNode b 2) ->
  exists e1f e2f e1r e2r u w d1f d1r d2f d2r, chain_edges g v = Some (e1f, e2f, e1r, e2r, u, w) /\
    degree_two E v u w e1f e1r e2f e2r d1f d1r d2f d2r /\ (e2f = b /\ e2r = b + 1 \/ e2f = b + 1 /\ e2r = b)%N.
Proof.
  intros Hrep H2 Hv. destruct (node_slots g E v b Hrep Hv) as ((tb & db & Hb) & (tc & dc & Hc) & Hall).
  pose proof (gw_range g (proj1 Hrep) _ _ Hv) as Hr. pose proof (gw_bound g (proj1 Hrep)) as Hbound. cbn in Hr.
  unfold chain_edges. assert (BeginEdges v g = Some b) as -> by (unfold BeginEdges; by rewrite Hv). cbn [mbind option_bind].
  rewrite (rep_data g E b v tb db Hrep Hb). cbn [mbind option_bind].
  set (r := if negb (nd_forward db) then 1%N else 0%N). set (e2f := uadd b r). set (e2r := usub (uadd b 1) r).
  assert (e2f = b /\ e2r = b + 1 \/ e2f = b + 1 /\ e2r = b)%N as Hab.
  { unfold e2f, e2r, r. destruct (negb (nd_forward db)); rewrite !uadd_small, usub_small by lia; lia. }
  assert (exists w d2f, E !! e2f = Some (MkHalfEdge v w d2f)) as (w & d2f & Hf2) by (destruct Hab as [[-> _]|[-> _]]; eauto).
  assert (exists u d2r, E !! e2r = Some (MkHalfEdge v u d2r)) as (u & d2r & Hr2) by (destruct Hab as [[_ ->]|[_ ->]]; eauto).
  rewrite (rep_target g E e2f v w d2f Hrep Hf2), (rep_target g E e2r v u d2r Hrep Hr2). cbn [mbind option_bind].
  assert (forall e t d, E !! e = Some (MkHalfEdge v t d) -> exists i d', FindEdge t v g = Some i /\ E !! i = Some (MkHalfEdge t v d')) as Hfind.
  { intros e t d He. destruct (find_rep g E t v Hrep (target_lt g E e v t d Hrep H2 He)) as (i & iend & Hi & _ & [[[d' Hd'] _]|[_ Hno]]); [eauto|].
    destruct (tw_twin E H2 _ _ _ _ He) as (e' & d' & He' & _). by destruct (Hno _ _ He'). }
  destruct (Hfind _ _ _ Hr2) as (e1f & d1f & Hi1 & Hf1). destruct (Hfind _ _ _ Hf2) as (e1r & d1r & Hi2 & Hr1).
  rewrite Hi1, Hi2. cbn [mbind option_bind]. exists e1f, e2f, e1r, e2r, u, w, d1f, d1r, d2f, d2r. split; [done|]. split; [|done].
  constructor; try done; [|lia|intros ->; congruence]. intros e t d He. destruct (Hall _ _ _ He); lia.
Qed.

(** *** The sum of the distances *)

Definition total E : Z := map_fold (fun _ h z => (nd_distance (he_data h) + z)%Z) 0%Z E.

Definition nonnegative E : Prop := forall e h, E !! e = Some h -> (0 <= nd_distance (he_data h))%Z.

Lemma total_delete E e h : E !! e = Some h -> total E = (nd_distance (he_data h) + total (delete e E))%Z.
Proof. intros He. unfold total. apply (map_fold_delete_L (fun _ h z => (nd_distance (he_data h) + z)%Z)); [|done]. intros. lia. Qed.

Lemma total_insert E e h : total (<[e := h]> E) = (nd_distance (he_data h) + total (delete e E))%Z.
Proof. rewrite (total_delete _ e h) by apply lookup_insert_eq. by rewrite delete_insert_eq. Qed.

Lemma nonnegative_delete E e : nonnegative E -> nonnegative (delete e E).
Proof. intros H e' h [_ He]%lookup_delete_Some. by eapply H. Qed.

Lemma total_nonneg E : nonnegative E -> (0 <= total E)%Z.
Proof.
  induction E as [|e h E He IH] using map_ind; intros H; [done|]. rewrite total_insert, delete_id by done.
  pose proof (H e h (lookup_insert_eq _ _ _)). assert (0 <= total E)%Z; [|lia]. apply IH. intros e' h' He'. apply (H e').
  rewrite lookup_insert_ne; [done|congruence].
Qed.

Lemma total_four E a b c d ha hb hc hd : a <> b -> a <> c -> a <> d -> b <> c -> b <> d -> c <> d ->
  E !! a = Some ha -> E !! b = Some hb -> E !! c = Some hc -> E !! d = Some hd ->
  total E = (nd_distance (he_data ha) + nd_distance (he_data hb) + nd_distance (he_data hc) + nd_distance (he_data hd) +
    total (delete a (delete b (delete c (delete d E)))))%Z.
Proof.
  intros. rewrite (total_delete E d hd) by done. rewrite (total_delete (delete d E) c hc) by (by rewrite lookup_delete_ne).
  rewrite (total_delete _ b hb) by (by rewrite !lookup_delete_ne). rewrite (total_delete _ a ha) by (by rewrite !lookup_delete_ne). lia.
Qed.

Lemma total_joined E e1f e1r e2f e2r hf hr : e1f <> e1r ->
  total (joined E e1f e1r e2f e2r hf hr) =
    (nd_distance (he_data hf) + nd_distance (he_data hr) + total (delete e1f (delete e1r (delete e2f (delete e2r E)))))%Z.
Proof. intros Hne. unfold joined. rewrite total_insert, delete_insert_ne, total_insert by done. rewrite (delete_delete _ e1r e1f). lia. Qed.

(** ** Chains of edges *)

Section chains.
  Context (E0 : edge_map) (barriers vias lights : gset N) (signal_penalty : Z).

Definition crossing (v : N) : Prop := (v ∉ barriers) /\ (v ∉ vias).

Definition light_at (v : N) : Z := if bool_decide (v ∈ lights) then signal_penalty else 0%Z.

(** The slots and the nodes of a path of edges that are equal to [d], and its
    length with the penalties of the traffic lights it crosses. *)
Inductive chain (d : NodeBasedEdgeData) : N -> list N -> list N -> Z -> Prop :=
| chain_one u e t d' : E0 !! e = Some (MkHalfEdge u t d') -> IsEqualTo d d' = true -> chain d u [e] [t] (nd_distance d')
| chain_more u e t d' es ns s : E0 !! e = Some (MkHalfEdge u t d') -> IsEqualTo d d' = true -> crossing t -> chain d t es ns s ->
    chain d u (e :: es) (t :: ns) (nd_distance d' + light_at t + s).

Lemma chain_app d u es ns s v es' ns' s' : chain d u es ns s -> last ns = Some v -> crossing v -> chain d v es' ns' s' ->
  chain d u (es ++ es') (ns ++ ns') (s + light_at v + s').
Proof.
  intros Hc. induction Hc as [u e t d' He Heq|u e t d' es ns s He Heq Ht Hc IH]; intros Hl Hv Hc'; cbn [app].
  - injection Hl as ->. by constructor.
  - replace (nd_distance d' + light_at t + s + light_at v + s')%Z with (nd_distance d' + light_at t + (s + light_at v + s'))%Z by lia.
    constructor; [done..|]. apply IH; [|done..]. destruct ns as [|n ns]; [inversion Hc|done].
Qed.

Lemma chain_equal d d2 u es ns s : IsEqualTo d2 d = true -> chain d u es ns s -> chain d2 u es ns s.
Proof.
  intros Heq Hc. assert (forall x, IsEqualTo d x = true -> IsEqualTo d2 x = true) as Htr.
  { intros x. rewrite is_equal_fields. apply is_equal_fields in Heq. rewrite is_equal_fields. unfold same_way in *. intuition congruence. }
  induction Hc; constructor; auto.
Qed.

Lemma chain_nonempty d u es ns s : chain d u es ns s -> es <> [] /\ ns <> [].
Proof. by intros []. Qed.

Definition nodes_at (G : gmap N (list CompressedNode)) (e t : N) : list N := match G !! e with Some l => l.*1 | None => [t] end.

(** The edges of [E] are chains of the edges of [E0]; [G] has their nodes. *)
Record segmented (E : edge_map) (G : gmap N (list CompressedNode)) (C : gmap N (list N)) : Prop := {
  sg_chain e u t d : E !! e = Some (MkHalfEdge u t d) -> exists es ns, C !! e = Some es /\ chain d u es ns (nd_distance d) /\ last ns = Some t /\
    ns = nodes_at G e t;
  sg_edge e es : C !! e = Some es -> is_Some (E !! e) /\ NoDup es;
  sg_all e0 : is_Some (E0 !! e0) -> exists e es, C !! e = Some es /\ e0 ∈ es;
  sg_once e e' es es' e0 : C !! e = Some es -> C !! e' = Some es' -> e0 ∈ es -> e0 ∈ es' -> e = e';
}.

Lemma geometry_joined G e1f e1r e2f e2r v w u w1 w2 w3 w4 : e1f <> e1r -> e1f <> e2f -> e1f <> e2r -> e1r <> e2f -> e2f <> e2r ->
  compress_geometry (compress_geometry G (MkCompression e1f e2f v w w1 w2)) (MkCompression e1r e2r v u w3 w4) =
  joined G e1f e1r e2f e2r (default [(v, w1)] (G !! e1f) ++ default [(w, w2)] (G !! e2f)) (default [(v, w3)] (G !! e1r) ++ default [(u, w4)] (G !! e2r)).
Proof.
  intros N1 N2 N3 N4 N6. unfold compress_geometry, joined. cbn [cp_first cp_second cp_via cp_target cp_weight1 cp_weight2].
  rewrite (lookup_insert_ne _ e1f e1r), (lookup_delete_ne _ e2f e1r), (lookup_insert_ne _ e1f e2r), (lookup_delete_ne _ e2f e2r) by done.
  rewrite delete_insert_ne, insert_insert_ne by done. by rewrite (delete_delete _ e2r e2f).
Qed.

Lemma nodes_app G e1 e2 v w w1 w2 : (default [(v, w1)] (G !! e1) ++ default [(w, w2)] (G !! e2)).*1 = nodes_at G e1 v ++ nodes_at G e2 w.
Proof. unfold nodes_at. rewrite fmap_app. by destruct (G !! e1), (G !! e2). Qed.

Lemma chain_join d d2 u es ns s v es' ns' s' : IsEqualTo d d2 = true -> chain d u es ns s -> last ns = Some v -> crossing v -> chain d2 v es' ns' s' ->
  chain (set_distance (s + s' + light_at v) d) u (es ++ es') (ns ++ ns') (s + s' + light_at v).
Proof.
  intros Heq Hc Hl Hv Hc'. apply (chain_equal d); [by apply is_equal_fields; rewrite is_equal_fields in *|].
  replace (s + s' + light_at v)%Z with (s + light_at v + s')%Z by lia. apply chain_app; [done..|]. by apply (chain_equal d2).
Qed.

Lemma segmented_joined E G C v u w e1f e1r e2f e2r d1f d1r d2f d2r w1 w2 w3 w4 : two_way E ->
  degree_two E v u w e1f e1r e2f e2r d1f d1r d2f d2r -> IsEqualTo d1f d2f = true -> IsEqualTo d1r d2r = true -> crossing v ->
  segmented E G C -> exists C', segmented
    (joined E e1f e1r e2f e2r (MkHalfEdge u w (set_distance (nd_distance d1f + nd_distance d2f + light_at v) d1f))
      (MkHalfEdge w u (set_distance (nd_distance d1r + nd_distance d2r + light_at v) d1r)))
    (compress_geometry (compress_geometry G (MkCompression e1f e2f v w w1 w2)) (MkCompression e1r e2r v u w3 w4)) C'.
Proof.
  intros H2 Hdt Hf Hr Hcr HS. destruct (slots_differ E v u w e1f e1r e2f e2r d1f d1r d2f d2r H2 Hdt Hf Hr) as (S1 & S2 & S3 & S4 & S5).
  destruct Hdt as [Hf2 Hr2 Hall Htwo Hf1 Hr1 Hfound]. rewrite geometry_joined by done.
  destruct (sg_chain E G C HS _ _ _ _ Hf1) as (a1 & n1 & Ca1 & Ch1 & L1 & N1). destruct (sg_chain E G C HS _ _ _ _ Hf2) as (a2 & n2 & Ca2 & Ch2 & L2 & N2).
  destruct (sg_chain E G C HS _ _ _ _ Hr1) as (b1 & m1 & Cb1 & Kh1 & K1 & M1). destruct (sg_chain E G C HS _ _ _ _ Hr2) as (b2 & m2 & Cb2 & Kh2 & K2 & M2).
  assert (forall e e' es es' e0, C !! e = Some es -> C !! e' = Some es' -> e <> e' -> e0 ∈ es -> e0 ∉ es') as Hdis.
  { intros e e' es es' e0 He He' Hne Hin Hin'. apply Hne. by eapply (sg_once E G C HS). }
  exists (joined C e1f e1r e2f e2r (a1 ++ a2) (b1 ++ b2)). constructor.
  - intros e a t d. rewrite !joined_lookup. unfold nodes_at. rewrite joined_lookup. repeat case_decide; intros He; simplify_eq.
    + exists (a1 ++ a2), (nodes_at G e1f v ++ nodes_at G e2f t). split; [done|]. split; [by eapply chain_join|]. split; [by rewrite last_app, L2|by rewrite nodes_app].
    + exists (b1 ++ b2), (nodes_at G e1r v ++ nodes_at G e2r t). split; [done|]. split; [by eapply chain_join|]. split; [by rewrite last_app, K2|by rewrite nodes_app].
    + by apply (sg_chain E G C HS).
  - intros e es. rewrite !joined_lookup. repeat case_decide; intros He; simplify_eq; [| |by eapply sg_edge].
    + split; [done|]. apply NoDup_app. split; [by eapply (sg_edge E G C HS)|]. split; [|by eapply (sg_edge E G C HS)]. intros e0. by eapply Hdis.
    + split; [done|]. apply NoDup_app. split; [by eapply (sg_edge E G C HS)|]. split; [|by eapply (sg_edge E G C HS)]. intros e0. by eapply Hdis.
  - intros e0 H0. destruct (sg_all E G C HS e0 H0) as (e & es & He & Hin).
    destruct (decide (e = e1f \/ e = e2f)) as [Hef|Hef]; [|destruct (decide (e = e1r \/ e = e2r)) as [Her|Her]].
    + exists e1f, (a1 ++ a2). rewrite joined_lookup, decide_True by done. split; [done|]. apply elem_of_app. destruct Hef as [->| ->]; simplify_eq; tauto.
    + exists e1r, (b1 ++ b2). rewrite joined_lookup, decide_False, decide_True by done. split; [done|]. apply elem_of_app. destruct Her as [->| ->]; simplify_eq; tauto.
    + exists e, es. rewrite joined_lookup, !decide_False by tauto. done.
  - assert (forall e es e0, joined C e1f e1r e2f e2r (a1 ++ a2) (b1 ++ b2) !! e = Some es -> e0 ∈ es ->
      exists e' es', C !! e' = Some es' /\ e0 ∈ es' /\ ((e' = e1f \/ e' = e2f) /\ e = e1f \/ (e' = e1r \/ e' = e2r) /\ e = e1r \/
        ~ (e' = e1f \/ e' = e2f) /\ ~ (e' = e1r \/ e' = e2r) /\ e = e')) as Hfrom.
    { intros e es e0. rewrite joined_lookup. repeat case_decide; intros He Hin; simplify_eq.
      - apply elem_of_app in Hin as [Hin|Hin]; [exists e1f, a1|exists e2f, a2]; tauto.
      - apply elem_of_app in Hin as [Hin|Hin]; [exists e1r, b1|exists e2r, b2]; tauto.
      - exists e, es. tauto. }
    intros e e' es es' e0 He He' Hin Hin'. destruct (Hfrom _ _ _ He Hin) as (x & xs & Hx & Hx0 & Hc), (Hfrom _ _ _ He' Hin') as (y & ys & Hy & Hy0 & Hc').
    assert (x = y) as -> by (by eapply (sg_once E G C HS)). destruct Hc as [[Hc ->]|[[Hc ->]|(Hc1 & Hc2 & ->)]], Hc' as [[Hc' ->]|[[Hc' ->]|(Hc1' & Hc2' & ->)]]; try done; try tauto;
      exfalso; destruct Hc, Hc'; congruence.
Qed.
End chains.

(** ** CompressGeometry *)

Definition frame_of (f : EdgeBasedGraphFactory) :=
  (speed_profile f, m_number_of_edge_based_nodes f, m_node_info_list f, m_edge_based_node_list f, m_edge_based_edge_list f,
   m_barrier_nodes f, m_traffic_lights f, m_no_turn_via_node_set (fa_restriction_map f), number_of_nodes (m_node_based_graph f),
   vsize (node_list (m_node_based_graph f)), max_id f).

Lemma start_vias u v w m : m_no_turn_via_node_set (FixupStartingTurnRestriction u v w m) = m_no_turn_via_node_set m.
Proof. unfold FixupStartingTurnRestriction. destruct (negb _); [done|]. by destruct (m_restriction_map m !! _). Qed.

Lemma fixup_restrictions_ok g m A u v w : graph_wf g -> (u < vsize (node_list g))%N -> (w < vsize (node_list g))%N -> restriction_rep m A ->
  exists m' A', fixup_restrictions g u v w m = Some m' /\ restriction_rep m' A' /\ m_no_turn_via_node_set m' = m_no_turn_via_node_set m.
Proof.
  intros Hwf Hu Hw H. unfold fixup_restrictions.
  destruct (fixup_arriving_ok g _ _ u v w Hwf Hu (fixup_start_ok m A u v w H)) as (m1 & -> & H1 & V1). cbn [mbind option_bind].
  destruct (fixup_arriving_ok g _ _ w v u Hwf Hw (fixup_start_ok m1 _ w v u H1)) as (m2 & -> & H2 & V2).
  eexists _, _. split; [done|]. split; [exact H2|]. by rewrite V2, start_vias, V1, start_vias.
Qed.

Section compress.
  Context (f0 : EdgeBasedGraphFactory) (E0 : edge_map).
Let penalty := traffic_signal_penalty (speed_profile f0).
Let nodes := number_of_nodes (m_node_based_graph f0).

Definition segments := segmented E0 (m_barrier_nodes f0) (m_no_turn_via_node_set (fa_restriction_map f0)) (m_traffic_lights f0)
  (traffic_signal_penalty (speed_profile f0)).

Record compressing (k : N) (f : EdgeBasedGraphFactory) (E : edge_map) : Prop := {
  co_rep : edges_rep (m_node_based_graph f) E;
  co_two : two_way E;
  co_segments : exists G C, geometry_inv (m_geometry_compressor f) G /\ segments E G C;
  co_restrictions : exists A, restriction_rep (fa_restriction_map f) A;
  co_frame : frame_of f = frame_of f0;
  co_total : (total E <= total E0 + 2 * penalty * Z.of_N k)%Z;
  co_size : (vsize (m_compressed_geometries (fst (m_geometry_compressor f))) <=
             vsize (m_compressed_geometries (fst (m_geometry_compressor f0))) + 200 * k)%N;
}.

  Hypothesis penalty_ok : (0 <= penalty)%Z.
  Hypothesis nodes_ok : (nodes <= vsize (node_list (m_node_based_graph f0)))%N.
  Hypothesis total_ok : (total E0 + 2 * penalty * Z.of_N nodes <= INT_MAX)%Z.
  Hypothesis size_ok : (vsize (m_compressed_geometries (fst (m_geometry_compressor f0))) + 200 * nodes < 2147483648)%N.
#[local] Set Default Proof Using "All".

(** Both directions of the geometry get the removed node. *)
Lemma compress_both c G e1f e1r e2f e2r v w u w1 w2 w3 w4 : geometry_inv c G -> e1f <> e2f -> e1r <> e2r ->
  (vsize (m_compressed_geometries (fst c)) + 200 < 2147483648)%N ->
  exists c1 c2, CompressEdge e1f e2f v w w1 w2 c = Some c1 /\ CompressEdge e1r e2r v u w3 w4 c1 = Some c2 /\
    geometry_inv c2 (compress_geometry (compress_geometry G (MkCompression e1f e2f v w w1 w2)) (MkCompression e1r e2r v u w3 w4)) /\
    (vsize (m_compressed_geometries (fst c2)) <= vsize (m_compressed_geometries (fst c)) + 200)%N.
Proof.
  intros Hc N1 N2 Hsz. destruct (compress_edge_ok c G (MkCompression e1f e2f v w w1 w2) Hc N1) as (c1 & H1 & I1 & S1); [lia|].
  destruct (compress_edge_ok c1 _ (MkCompression e1r e2r v u w3 w4) I1 N2) as (c2 & H2 & I2 & S2); [lia|].
  exists c1, c2. split; [done|]. split; [done|]. split; [done|]. lia.
Qed.

Lemma compressing_next k f E : compressing k f E -> compressing (k + 1) f E.
Proof. intros [? ? ? ? ? Ht Hs]. constructor; [done..| |]; [|lia]. assert (2 * penalty * Z.of_N k <= 2 * penalty * Z.of_N (k + 1))%Z by nia. lia. Qed.

Lemma merge_step k f E b u w e1f e1r e2f e2r d1f d1r d2f d2r : compressing k f E -> (k < nodes)%N ->
  degree_two E k u w e1f e1r e2f e2r d1f d1r d2f d2r -> IsEqualTo d1f d2f = true -> IsEqualTo d1r d2r = true ->
  crossing (m_barrier_nodes f0) (m_no_turn_via_node_set (fa_restriction_map f0)) k ->
  (forall e d, E !! e <> Some (MkHalfEdge u w d)) -> (forall e d, E !! e <> Some (MkHalfEdge w u d)) ->
  vget (node_list (m_node_based_graph f)) k = Some (MkNode b 2) -> (e2f = b /\ e2r = b + 1 \/ e2f = b + 1 /\ e2r = b)%N ->
  let lit := bool_decide (k ∈ m_traffic_lights f0) in
  exists g' m' weight1 weight2 c1 c2 E',
    merge_at (m_node_based_graph f) k e1f e2f e1r e2r u w (if lit then Some penalty else None) = Some g' /\
    fixup_restrictions g' u k w (fa_restriction_map f) = Some m' /\
    iadd (nd_distance d1f) (if lit then penalty else 0%Z) = Some weight1 /\ iadd (nd_distance d2r) (if lit then penalty else 0%Z) = Some weight2 /\
    CompressEdge e1f e2f k w weight1 (nd_distance d2f) (m_geometry_compressor f) = Some c1 /\
    CompressEdge e1r e2r k u (nd_distance d1r) weight2 c1 = Some c2 /\
    compressing (k + 1) (MkFactory (speed_profile f) (m_number_of_edge_based_nodes f) (m_node_info_list f) (m_edge_based_node_list f)
        (m_edge_based_edge_list f) g' (m_barrier_nodes f) (m_traffic_lights f) m' c2 (max_id f)) E'.
Proof.
  intros H Hk Hdt Hf Hr Hcr Huw Hwu Hnd Hab lit. destruct H as [Hrep H2 (G & C & Hgeo & Hseg) [A HA] Hfr Htot Hsz].
  unfold frame_of in Hfr. injection Hfr as Hsp Hne Hni Hnl Hel Hbar Hli Hvia Hn Hvs Hmax.
  destruct (ends_differ E k u w e1f e1r e2f e2r d1f d1r d2f d2r H2 Hdt Hf Hr) as (Du & Dw & Duw).
  destruct (slots_differ E k u w e1f e1r e2f e2r d1f d1r d2f d2r H2 Hdt Hf Hr) as (S1 & S2 & S3 & S4 & S5).
  pose proof Hdt as [Hf2 Hr2 Hall Htwo Hf1 Hr1 Hfound].
  pose proof (tw_distance E H2 _ _ Hf1) as P1. pose proof (tw_distance E H2 _ _ Hr1) as P2. pose proof (tw_distance E H2 _ _ Hf2) as P3.
  pose proof (tw_distance E H2 _ _ Hr2) as P4. cbn in P1, P2, P3, P4.
  assert (nonnegative E) as Hnn by (intros ??; apply (tw_distance E H2)).
  pose proof (total_four E e1f e1r e2f e2r _ _ _ _ S1 S2 S3 S4 S5 Htwo Hf1 Hr1 Hf2 Hr2) as HT. cbn [he_data] in HT.
  pose proof (total_nonneg _ (nonnegative_delete _ e1f (nonnegative_delete _ e1r (nonnegative_delete _ e2f (nonnegative_delete _ e2r Hnn))))) as HT0.
  set (L := light_at (m_traffic_lights f0) penalty k). assert (light (if lit then Some penalty else None) = L) as HL by (unfold lit, L, light_at; by destruct (bool_decide _)).
  assert (0 <= L <= penalty)%Z as HLp by (unfold L, light_at; destruct (bool_decide _); lia).
  assert (2 * penalty * Z.of_N k + 2 * penalty <= 2 * penalty * Z.of_N nodes)%Z as Hpk by nia. unfold INT_MAX in *.
  destruct (merge_at_ok (m_node_based_graph f) E k b e1f e2f e1r e2r u w d1f d2f d1r d2r (if lit then Some penalty else None))
    as (g' & Hg' & Hn' & Hl' & Hrep'); [done..|rewrite ?HL; unfold INT_MAX; lia|rewrite ?HL; unfold INT_MAX; lia|rewrite ?HL; unfold INT_MAX; lia|].
  rewrite HL in Hrep'. destruct (fixup_restrictions_ok g' (fa_restriction_map f) A u k w (proj1 Hrep')) as (m' & A' & Hm' & HA' & Hv');
    [rewrite Hl', vsize_insert; by eapply source_lt..|done|].
  assert ((if lit then penalty else 0%Z) = L) as HL2 by done.
  rewrite HL2. rewrite !iadd_Some by (unfold INT_MIN, INT_MAX; lia).
  destruct (compress_both (m_geometry_compressor f) G e1f e1r e2f e2r k w u (nd_distance d1f + L) (nd_distance d2f) (nd_distance d1r) (nd_distance d2r + L) Hgeo S2 S5)
    as (c1 & c2 & Hc1 & Hc2 & Hgeo' & Hsz'); [lia|].
  destruct (segmented_joined E0 _ _ _ _ E G C k u w e1f e1r e2f e2r d1f d1r d2f d2r (nd_distance d1f + L) (nd_distance d2f) (nd_distance d1r) (nd_distance d2r + L)
    H2 Hdt Hf Hr Hcr Hseg) as (C' & Hseg').
  eexists g', m', _, _, c1, c2, _. split; [done|]. split; [done|]. split; [done|]. split; [done|]. split; [done|]. split; [done|].
  constructor; cbn [m_node_based_graph m_geometry_compressor fa_restriction_map speed_profile]; [exact Hrep'| |by eexists _, _|by exists A'| | |lia].
  - eapply joined_two_way; [done|done|done|done|done|done|lia|lia].
  - unfold frame_of. cbn. rewrite Hl', vsize_insert, Hn', Hv'. congruence.
  - rewrite total_joined by done. cbn [he_data nd_distance set_distance]. lia.
Qed.

Lemma compress_node_ok k f E : compressing k f E -> (k < nodes)%N -> exists f' E', compress_node f k = Some f' /\ compressing (k + 1) f' E'.
Proof.
  intros H Hk. pose proof (co_frame _ _ _ H) as Hfr. unfold frame_of in Hfr. injection Hfr as Hsp Hne Hni Hnl Hel Hbar Hli Hvia Hn Hvs Hmax.
  pose proof (compressing_next _ _ _ H) as Hsame. pose proof (co_rep _ _ _ H) as Hrep. pose proof (co_two _ _ _ H) as H2.
  destruct (degree_node (m_node_based_graph f) E k Hrep) as (b & deg & Hnd & Hdeg & _); [lia|].
  unfold compress_node. rewrite Hdeg. cbn [mbind option_bind]. destruct (N.eqb_spec deg 2) as [->|]; cbn [negb]; [|by exists f, E].
  destruct (bool_decide (k ∈ m_barrier_nodes f)) eqn:Hb; [by exists f, E|]. unfold IsViaNode.
  destruct (bool_decide (k ∈ m_no_turn_via_node_set (fa_restriction_map f))) eqn:Hv; [by exists f, E|]. apply bool_decide_eq_false in Hb, Hv.
  destruct (chain_edges_ok _ E k b Hrep H2 Hnd) as (e1f & e2f & e1r & e2r & u & w & d1f & d1r & d2f & d2r & -> & Hdt & Hab). cbn [mbind option_bind].
  pose proof Hdt as [Hf2 Hr2 Hall Htwo Hf1 Hr1 Hfound].
  rewrite (rep_data _ E _ _ _ _ Hrep Hf1), (rep_data _ E _ _ _ _ Hrep Hr1), (rep_data _ E _ _ _ _ Hrep Hf2), (rep_data _ E _ _ _ _ Hrep Hr2).
  cbn [mbind option_bind].
  destruct (find_rep _ E u w Hrep (source_lt _ _ _ _ _ _ Hrep Hf1)) as (i & iend & -> & -> & Huw).
  destruct (find_rep _ E w u Hrep (source_lt _ _ _ _ _ _ Hrep Hr1)) as (j & jend & -> & -> & Hwu). cbn [mbind option_bind].
  destruct (N.eqb_spec i iend) as [Hi|]; cbn [negb orb]; [|by exists f, E]. destruct (N.eqb_spec j jend) as [Hj|]; cbn [negb orb]; [|by exists f, E].
  destruct Huw as [[_ ?]|[_ Huw]]; [done|]. destruct Hwu as [[_ ?]|[_ Hwu]]; [done|].
  destruct (IsEqualTo d1f d2f && IsEqualTo d1r d2r) eqn:Heq; [|by exists f, E]. apply andb_true_iff in Heq as [Hf Hr].
  destruct (merge_step k f E b u w e1f e1r e2f e2r d1f d1r d2f d2r H Hk Hdt Hf Hr) as (g' & m' & x1 & x2 & c1 & c2 & E' & K1 & K2 & K3 & K4 & K5 & K6 & K7);
    [split; congruence|done..|]. rewrite Hli, Hsp. fold penalty. cbn zeta. rewrite K1. cbn [mbind option_bind]. rewrite K2. cbn [mbind option_bind].
  rewrite K3, K4. cbn [mbind option_bind]. rewrite K5. cbn [mbind option_bind]. rewrite K6. cbn [mbind option_bind]. rewrite <- Hli, <- Hsp. by eexists _, E'.
Qed.
End compress.

Lemma rep_unique g E E' : edges_rep g E -> edges_rep g E' -> E = E'.
Proof.
  intros [_ H] [_ H']. apply map_eq. intros e. destruct (E !! e) as [[u t d]|] eqn:He.
  - symmetry. by apply H', H.
  - destruct (E' !! e) as [[u t d]|] eqn:He'; [|done]. apply H', H in He'. congruence.
Qed.

Lemma segmented_start E barriers vias lights p : segmented E barriers vias lights p E ∅ (map_imap (fun e _ => Some [e]) E).
Proof.
  constructor.
  - intros e u t d He. exists [e], [t]. rewrite map_lookup_imap, He. cbn. split; [done|]. split; [constructor; [done|by apply is_equal_fields]|]. split; [done|].
    unfold nodes_at. by rewrite lookup_empty.
  - intros e es. rewrite map_lookup_imap. destruct (E !! e); [|done]. intros [= <-]. split; [done|apply NoDup_singleton].
  - intros e0 [h Hh]. exists e0, [e0]. rewrite map_lookup_imap, Hh. split; [done|]. by left.
  - intros e e' es es' e0. rewrite !map_lookup_imap. destruct (E !! e), (E !! e'); try done. intros [= <-] [= <-] ->%list_elem_of_singleton ->%list_elem_of_singleton. done.
Qed.

Lemma compress_nodes_ok f : edges_rep (m_node_based_graph f) (edges_of (m_node_based_graph f)) -> two_way (edges_of (m_node_based_graph f)) ->
  geometry_inv (m_geometry_compressor f) ∅ -> (exists A, restriction_rep (fa_restriction_map f) A) ->
  (number_of_nodes (m_node_based_graph f) <= vsize (node_list (m_node_based_graph f)) < 4294967296)%N ->
  (0 <= traffic_signal_penalty (speed_profile f))%Z ->
  (total (edges_of (m_node_based_graph f)) + 2 * traffic_signal_penalty (speed_profile f) * Z.of_N (number_of_nodes (m_node_based_graph f)) <= INT_MAX)%Z ->
  (vsize (m_compressed_geometries (fst (m_geometry_compressor f))) + 200 * number_of_nodes (m_node_based_graph f) < 2147483648)%N ->
  exists f' E', CompressGeometry f = Some f' /\ compressing f (edges_of (m_node_based_graph f)) (number_of_nodes (m_node_based_graph f)) f' E'.
Proof.
  intros Hrep H2 Hgeo HA Hn Hp Htot Hsz. set (n := number_of_nodes (m_node_based_graph f)) in *.
  assert (compressing f (edges_of (m_node_based_graph f)) 0 f (edges_of (m_node_based_graph f))) as H0.
  { constructor; [done|done|eexists ∅, _; split; [done|apply segmented_start]|done|done|lia|lia]. }
  unfold CompressGeometry, GetNumberOfNodes. fold n.
  destruct (fold_m_irange compress_node (fun k f1 => exists E1, compressing f (edges_of (m_node_based_graph f)) k f1 E1) 0 n f) as (f' & Hf' & E' & HE');
    [lia|lia|by eexists| |by exists f', E'].
  intros k f1 Hk [E1 H1]. destruct (compress_node_ok f _ Hp (proj1 Hn) Htot Hsz k f1 E1 H1) as (f2 & E2 & H2' & Hf2); [fold n; lia|]. exists f2. split; [done|]. by exists E2.
Qed.

(** ** Properties *)

(** C5: the compression of the geometry ends without an error, and it loses no
    road. Every edge of the compressed graph stands for a chain of edges of the
    input graph with the same name, directions and travel mode: the nodes that
    the geometry compressor keeps for it are the nodes of the chain, none of
    the inner ones is a barrier or the via node of a restriction, and its
    distance is the length of the chain with the penalties of the traffic
    lights inside. Every edge of the input graph lies on exactly one chain. *)
Theorem compression_chains f A : let g := m_node_based_graph f in let p := traffic_signal_penalty (speed_profile f) in
  graph_wf g -> two_way (edges_of g) -> geometry_inv (m_geometry_compressor f) ∅ -> restriction_rep (fa_restriction_map f) A ->
  (number_of_nodes g <= vsize (node_list g) < 4294967296)%N -> (0 <= p)%Z ->
  (total (edges_of g) + 2 * p * Z.of_N (number_of_nodes g) <= INT_MAX)%Z ->
  (vsize (m_compressed_geometries (fst (m_geometry_compressor f))) + 200 * number_of_nodes g < 2147483648)%N ->
  exists f' G (C : gmap N (list N)), CompressGeometry f = Some f' /\
    graph_wf (m_node_based_graph f') /\ two_way (edges_of (m_node_based_graph f')) /\ geometry_inv (m_geometry_compressor f') G /\
    (forall e u t d, slot (m_node_based_graph f') u e t d -> exists es ns, C !! e = Some es /\ NoDup es /\
      chain (edges_of g) (m_barrier_nodes f) (m_no_turn_via_node_set (fa_restriction_map f)) (m_traffic_lights f) p d u es ns (nd_distance d) /\
      last ns = Some t /\ ns = nodes_at G e t) /\
    (forall e0 u t d, slot g u e0 t d -> exists e u' t' d' es, slot (m_node_based_graph f') u' e t' d' /\ C !! e = Some es /\ e0 ∈ es /\
      forall e' es', C !! e' = Some es' -> e0 ∈ es' -> e' = e).
Proof.
  intros g p Hwf H2 Hgeo HA Hn Hp Htot Hsz. subst g p. set (g := m_node_based_graph f) in *. assert (edges_rep g (edges_of g)) as Hrep by (apply edges_of_rep; [done|lia]).
  destruct (compress_nodes_ok f Hrep H2 Hgeo (ex_intro _ A HA) Hn Hp Htot Hsz) as (f' & E' & Hf' & [Hrep' H2' (G & C & Hgeo' & Hseg) _ Hfr _ _]).
  unfold frame_of in Hfr. injection Hfr as _ _ _ _ _ _ _ _ _ Hvs _.
  assert (E' = edges_of (m_node_based_graph f')) as -> by (eapply rep_unique; [done|apply edges_of_rep; [apply Hrep'|rewrite Hvs; fold g; lia]]).
  exists f', G, C. split; [done|]. split; [apply Hrep'|]. split; [done|]. split; [done|]. split.
  - intros e u t d Hs. apply (proj2 Hrep') in Hs. destruct (sg_chain _ _ _ _ _ _ _ _ Hseg _ _ _ _ Hs) as (es & ns & HC & Hch & Hl & Hns).
    exists es, ns. split; [done|]. split; [apply (sg_edge _ _ _ _ _ _ _ _ Hseg _ _ HC)|]. done.
  - intros e0 u t d Hs. apply (proj2 Hrep) in Hs. destruct (sg_all _ _ _ _ _ _ _ _ Hseg e0) as (e & es & HC & Hin); [by eexists|].
    destruct (sg_edge _ _ _ _ _ _ _ _ Hseg _ _ HC) as [[[u' t' d'] He] _]. exists e, u', t', d', es. split; [by apply (proj2 Hrep')|].
    split; [done|]. split; [done|]. intros e' es' HC' Hin'. by apply (sg_once _ _ _ _ _ _ _ _ Hseg _ _ _ _ e0 HC' HC).
Qed.

(** *** A road with a traffic light in the middle *)

Definition lit_road : option EdgeBasedGraphFactory :=
  g ← DynamicGraph_from corner_junk 3 corner_edges;
  m ← RestrictionMap_make [];
  EdgeBasedGraphFactory_make g m [] [1%N] [MkNodeInfo 0 0 0; MkNodeInfo 0 1 1; MkNodeInfo 1 1 2] (MkSpeedProfile 3 5 false) 0.

Definition lit_edges : list (N * half_edge) :=
  [(0, MkHalfEdge 0 1 (road 7 0)); (1, MkHalfEdge 1 0 (road 7 1)); (2, MkHalfEdge 1 2 (road 9 2)); (3, MkHalfEdge 2 1 (road 9 3))]%N.

Lemma lit_values : (fun f => edges_of (m_node_based_graph f)) <$> lit_road = Some (list_to_map lit_edges) /\
  total (list_to_map lit_edges) = 32%Z /\
  (f ← lit_road; f' ← CompressGeometry f; Some (edges_of (m_node_based_graph f'), vsize (node_list (m_node_based_graph f')))) =
    Some (list_to_map [(0%N, MkHalfEdge 0 2 (road 19 0)); (3%N, MkHalfEdge 2 0 (road 19 3))], 4%N).
Proof. split; [|split]; vm_compute; reflexivity. Qed.

Lemma lit_two_way : two_way (list_to_map lit_edges).
Proof.
  assert (forall e h, (list_to_map lit_edges : edge_map) !! e = Some h -> (e, h) ∈ lit_edges) as Hin by (intros e h; apply elem_of_list_to_map_2).
  constructor.
  - intros e h H%Hin. repeat (apply elem_of_cons in H as [[= -> ->]|H]; [done|]). by apply elem_of_nil in H.
  - intros e e' u t d d' H%Hin H'%Hin _. repeat (apply elem_of_cons in H as [[= -> -> -> ->]|H]); [..|by apply elem_of_nil in H];
      repeat (apply elem_of_cons in H' as [H'|H']; [by simplify_eq|]); by apply elem_of_nil in H'.
  - intros e u t d H%Hin. repeat (apply elem_of_cons in H as [[= -> -> -> ->]|H]); [exists 1%N|exists 0%N|exists 3%N|exists 2%N|by apply elem_of_nil in H];
      eexists; split; try (vm_compute; reflexivity); done.
  - intros e h H%Hin. repeat (apply elem_of_cons in H as [[= -> ->]|H]; [done|]). by apply elem_of_nil in H.
Qed.

Lemma compression_chains_witness : exists f f' es, lit_road = Some f /\ CompressGeometry f = Some f' /\
  exists ns, chain (edges_of (m_node_based_graph f)) ∅ ∅ {[1%N]} 3 (road 19 0) 0 es ns 19 /\ last ns = Some 2%N.
Proof.
  destruct (from_ok corner_junk 3 corner_edges) as (g & Hg & Hwf & Hn & _ & Hnl & _); [repeat constructor; discriminate|repeat constructor; done|done|done|].
  destruct (restriction_make_ok []) as (m & Hm & Hb & _); [done|]. destruct geometry_make_ok as (c & Hc & Hgeo & Hsz).
  destruct lit_values as (Hval & Htot & Hend). destruct lit_road as [f|] eqn:Hf; [|done]. pose proof Hf as Hf'.
  unfold lit_road in Hf'. rewrite Hg, Hm in Hf'. cbn [mbind option_bind] in Hf'. unfold EdgeBasedGraphFactory_make in Hf'. rewrite Hc in Hf'.
  cbn [mbind option_bind] in Hf'. cbn [fmap option_fmap option_map] in Hval. apply (inj Some) in Hval.
  assert (m_no_turn_via_node_set m = ∅) as Hvia by (vm_compute in Hm; injection Hm as <-; done).
  destruct (compression_chains f (foldl add_entry ∅ [])) as (f' & G & C & Hrun & Hwf' & _ & _ & Hch & _).
  - injection Hf' as <-. exact Hwf.
  - rewrite Hval. exact lit_two_way.
  - injection Hf' as <-. exact Hgeo.
  - injection Hf' as <-. exact (bt_rep _ _ Hb).
  - injection Hf' as <-. cbn [m_node_based_graph]. rewrite Hn, Hnl. lia.
  - injection Hf' as <-. discriminate.
  - rewrite Hval, Htot. injection Hf' as <-. cbn [m_node_based_graph]. rewrite Hn. discriminate.
  - injection Hf' as <-. cbn [m_node_based_graph m_geometry_compressor]. rewrite Hn, Hsz. lia.
  - cbn [mbind option_bind] in Hend. rewrite Hrun in Hend. cbn [mbind option_bind] in Hend. apply (inj Some), pair_equal_spec in Hend as [Hend Hend4].
    destruct (Hch 0%N 0%N 2%N (road 19 0)) as (es & ns & _ & _ & Hc1 & Hl & _).
    + assert (vsize (node_list (m_node_based_graph f')) < 4294967296)%N as Hlt by (rewrite Hend4; lia).
      apply (edges_of_rep _ Hwf' Hlt). rewrite Hend. vm_compute. reflexivity.
    + exists f, f', es. split; [done|]. split; [done|]. exists ns. split; [|done]. injection Hf' as <-. cbn in Hc1. rewrite Hvia in Hc1. exact Hc1.
Defined.
