(* ===== verification/RoadGraph.v ===== *)
(** * DataStructures/NodeBasedGraph.h: the graph of the roads

    [NodeBasedDynamicGraphFromImportEdges] sorts the half edges of the roads
    and merges the parallel ones in place. The merged edges are described by
    the least weights of the roads, and the graph has every road at both of
    its ends, which is what the compression of the geometry relies on. *)

From S2P Require Import Prelude Types Edges DynamicGraph NodeBasedGraph EdgeExpansion Turns Compression.

Abbreviation nedge := NodeBasedInputEdge.
Implicit Types g : NodeBasedDynamicGraph.

Section merged.
  Implicit Types (l out : list nedge) (k : N * N) (e x : nedge) (way : NodeBasedEdgeData -> bool).

Definition key e : N * N := (ie_source e, ie_target e).

(** The order that the edges are sorted by. *)
Definition key_le (a b : nedge) : Prop := InputEdge_lt b a = false.

Lemma key_le_spec a b : key_le a b <-> (ie_source a < ie_source b \/ ie_source a = ie_source b /\ ie_target a <= ie_target b)%N.
Proof.
  unfold key_le, InputEdge_lt. destruct (N.eqb_spec (ie_source b) (ie_source a)); cbn [negb]; rewrite N.ltb_ge; lia.
Qed.

(** The least distance of the edges that pass the test. *)
Definition least_distance (way : NodeBasedEdgeData -> bool) l : Z :=
  foldr (fun e z => if way (ie_data e) then Z.min (nd_distance (ie_data e)) z else z) INT_MAX l.

Definition with_key k l : list nedge := filter (fun e => key e = k) l.

Definition least_at way k l : Z := least_distance way (with_key k l).

(** The merged edges of a sorted list, group by group. *)
Fixpoint merged (fuel : nat) l : list nedge :=
  match fuel, l with
  | S fuel', e :: _ =>
      merged_group e (least_at nd_forward (key e) l) (least_at nd_backward (key e) l) ++ merged fuel' (filter (fun x => key x <> key e) l)
  | _, _ => []
  end.

(** *** The loops *)

Lemma least_min way l z : (z <= INT_MAX)%Z ->
  foldl (fun acc e => if way (ie_data e) then Z.min (nd_distance (ie_data e)) acc else acc) z l = Z.min z (least_distance way l).
Proof.
  revert z. induction l as [|e l IH]; intros z Hz; cbn [foldl least_distance foldr]; [lia|]. fold (least_distance way l).
  rewrite IH by (destruct (way _); lia). destruct (way _); lia.
Qed.

Lemma least_le way l : (least_distance way l <= INT_MAX)%Z.
Proof. induction l as [|e l IH]; cbn; [done|]. fold (least_distance way l). destruct (way _); lia. Qed.

Lemma scan_parallel_group fuel : forall edges s t i fd rd run rest, drop (N.to_nat i) edges = run ++ rest -> Forall (fun e => key e = (s, t)) run ->
  match rest with x :: _ => key x <> (s, t) | [] => True end -> (length run < fuel)%nat -> (vsize edges < 4294967295)%N ->
  (fd <= INT_MAX)%Z -> (rd <= INT_MAX)%Z ->
  scan_parallel_edges fuel edges s t i fd rd =
    Some (i + vsize run, Z.min fd (least_distance nd_forward run), Z.min rd (least_distance nd_backward run))%N.
Proof.
  induction fuel as [|fuel IH]; intros edges s t i fd rd run rest Hd Hrun Hrest Hfuel Hsz Hfd Hrd; [lia|]. cbn [scan_parallel_edges].
  assert (length (drop (N.to_nat i) edges) = length run + length rest)%nat as Hlen by (by rewrite Hd, length_app). rewrite length_drop in Hlen.
  destruct run as [|e run].
  - cbn [app] in Hd. change (vsize (@nil nedge)) with 0%N. cbn [least_distance foldr]. rewrite !Z.min_l, N.add_0_r by done.
    destruct (N.ltb_spec i (vsize edges)) as [Hi|]; [|done]. destruct rest as [|x rest]; [cbn in Hlen; unfold vsize in *; lia|].
    assert (vget edges i = Some x) as -> by (rewrite vget_lookup, <- (Nat.add_0_r (N.to_nat i)), <- lookup_drop, Hd; done).
    cbn [mbind option_bind]. unfold key in Hrest. destruct (N.eqb_spec (ie_source x) s), (N.eqb_spec (ie_target x) t); cbn [andb]; try done. congruence.
  - apply Forall_cons in Hrun as [He Hrun]. injection He as Hs Ht. cbn [length] in *.
    rewrite (proj2 (N.ltb_lt i (vsize edges))) by (unfold vsize; lia).
    assert (vget edges i = Some e) as -> by (rewrite vget_lookup, <- (Nat.add_0_r (N.to_nat i)), <- lookup_drop, Hd; done).
    cbn [mbind option_bind]. rewrite Hs, Ht, !N.eqb_refl. cbn [andb]. rewrite uadd_small by (unfold vsize in *; lia).
    rewrite (IH edges s t (i + 1)%N _ _ run rest); try done; [..|lia|destruct (nd_forward _); lia|destruct (nd_backward _); lia].
    2: { replace (N.to_nat (i + 1)) with (N.to_nat i + 1)%nat by lia. rewrite <- drop_drop, Hd. done. }
    cbn [least_distance foldr]. fold (least_distance nd_forward run) (least_distance nd_backward run).
    do 2 f_equal; [f_equal; [unfold vsize; cbn [length]; lia|]|]; [destruct (nd_forward _)|destruct (nd_backward _)]; lia.
Qed.

Lemma store_edges_ok out : forall edges count, (count + vsize out <= vsize edges < 4294967295)%N ->
  exists edges', store_edges out edges count = Some (edges', (count + vsize out)%N) /\ vsize edges' = vsize edges /\
    take (N.to_nat (count + vsize out)) edges' = take (N.to_nat count) edges ++ out /\
    (forall i, (count + vsize out <= i)%N -> drop (N.to_nat i) edges' = drop (N.to_nat i) edges).
Proof.
  induction out as [|x out IH]; intros edges count Hsz; cbn [store_edges].
  { exists edges. change (vsize []) with 0%N. rewrite N.add_0_r, app_nil_r. done. }
  assert (vsize (x :: out) = vsize out + 1)%N as Hx by (unfold vsize; simpl; lia). rewrite Hx in *.
  rewrite vset_lt by lia. cbn [mbind option_bind]. rewrite (uadd_small count 1) by lia.
  destruct (IH (<[N.to_nat count := x]> edges) (count + 1)%N) as (edges' & -> & Hl & Ht & Hd); [rewrite vsize_insert; lia|].
  exists edges'. replace (count + 1 + vsize out)%N with (count + (vsize out + 1))%N in * by lia.
  rewrite vsize_insert in Hl. split_and!; try done.
  - rewrite Ht. replace (N.to_nat (count + 1)) with (S (N.to_nat count)) by lia.
    rewrite (take_S_r _ _ x) by (apply list_lookup_insert_eq; unfold vsize in *; lia). rewrite take_insert_ge by lia. by rewrite <- app_assoc.
  - intros i Hi. rewrite Hd by lia. apply drop_insert_lt. lia.
Qed.

Lemma least_none way l : least_distance way l <> INT_MAX -> exists e, e ∈ l /\ way (ie_data e) = true.
Proof.
  induction l as [|e l IH]; cbn; [done|]. fold (least_distance way l). destruct (way (ie_data e)) eqn:Hw; [exists e; split; [by left|done]|].
  intros (x & Hx & Hwx)%IH. exists x. split; [by right|done].
Qed.

Lemma group_size e run : run <> [] ->
  (length (merged_group e (least_distance nd_forward run) (least_distance nd_backward run)) <= length run)%nat.
Proof.
  intros Hne. unfold merged_group. destruct (Z.eqb_spec (least_distance nd_forward run) (least_distance nd_backward run)) as [|Hneq].
  { destruct run; [done|]. destruct (negb _); cbn; lia. }
  destruct run as [|x [|y run]]; [done| |rewrite length_app; destruct (negb _), (negb _); cbn; lia].
  cbn [least_distance foldr] in *. rewrite length_app. destruct (nd_forward (ie_data x)), (nd_backward (ie_data x)); try done; cbn; destruct (negb _); cbn; lia.
Qed.

(** A group at the head of a sorted list is a prefix. *)
Lemma sorted_group k l : StronglySorted key_le l -> Forall (fun x => key_le (MkInputEdge (fst k) (snd k) NodeBasedEdgeData_default) x) l ->
  l = with_key k l ++ filter (fun x => key x <> k) l.
Proof.
  intros Hs. induction Hs as [|x l Hs IH Hx]; intros HF; [done|]. apply Forall_cons in HF as [Hkx HF]. unfold with_key in *.
  destruct (decide (key x = k)) as [Hk|Hk].
  - rewrite (filter_cons_True _ x l Hk), (filter_cons_False (fun x => key x <> k)) by tauto. cbn [app]. f_equal. by apply IH.
  - rewrite (filter_cons_False (fun x => key x = k)), (filter_cons_True (fun x => key x <> k)) by done.
    assert (filter (fun e => key e = k) l = []) as Hnil.
    { destruct (filter (fun e => key e = k) l) as [|y m] eqn:Hf; [done|]. exfalso. assert (y ∈ filter (fun e => key e = k) l) as Hy by (rewrite Hf; by left).
      apply list_elem_of_filter in Hy as [Hyk Hy]. rewrite Forall_forall in Hx. specialize (Hx y Hy). apply key_le_spec in Hx, Hkx. subst k. unfold key in *.
      cbn in Hkx. apply Hk. f_equal; lia. }
    rewrite Hnil. cbn [app]. f_equal. specialize (IH HF). by rewrite Hnil in IH.
Qed.

Lemma head_group e l : StronglySorted key_le (e :: l) ->
  e :: l = with_key (key e) (e :: l) ++ filter (fun x => key x <> key e) (e :: l) /\ with_key (key e) (e :: l) <> [].
Proof.
  intros Hs. split; [|unfold with_key; by rewrite filter_cons_True]. apply sorted_group; [done|]. apply StronglySorted_inv in Hs as [_ HF].
  constructor; [apply key_le_spec; cbn; lia|]. eapply Forall_impl; [exact HF|]. intros x. rewrite !key_le_spec. done.
Qed.

Lemma filter_sorted (P : nedge -> Prop) `{!forall x, Decision (P x)} l : StronglySorted key_le l -> StronglySorted key_le (filter P l).
Proof.
  intros Hs. induction Hs as [|x l Hs IH HF]; [constructor|]. destruct (decide (P x)); [rewrite filter_cons_True by done|by rewrite filter_cons_False].
  constructor; [done|]. rewrite Forall_forall in *. intros y [_ Hy]%list_elem_of_filter. by apply HF.
Qed.

Lemma merge_parallel_ok fuel : forall edges i count l, drop (N.to_nat i) edges = l -> (count <= i <= vsize edges)%N -> (vsize edges < 4294967295)%N ->
  StronglySorted key_le l -> Forall (fun e => ie_source e <> ie_target e) l -> (length l < fuel)%nat ->
  exists edges' count', merge_parallel fuel edges i count = Some (edges', count') /\
    take (N.to_nat count') edges' = take (N.to_nat count) edges ++ merged (length l) l.
Proof.
  enough (forall m edges i count l, (length l <= m)%nat -> drop (N.to_nat i) edges = l -> (count <= i <= vsize edges)%N -> (vsize edges < 4294967295)%N ->
    StronglySorted key_le l -> Forall (fun e => ie_source e <> ie_target e) l -> (length l < fuel)%nat ->
    exists edges' count', merge_parallel fuel edges i count = Some (edges', count') /\
      take (N.to_nat count') edges' = take (N.to_nat count) edges ++ merged m l) as H by (intros; by eapply H).
  induction fuel as [|fuel IH]; intros m edges i count l Hm Hd Hc Hsz Hs Hne Hfuel; [lia|]. cbn [merge_parallel].
  assert (length (drop (N.to_nat i) edges) = length l) as Hlen by (by rewrite Hd). rewrite length_drop in Hlen.
  destruct (N.ltb_spec i (vsize edges)) as [Hi|Hi].
  2: { exists edges, count. destruct l; [|cbn in Hlen; unfold vsize in *; lia]. split; [done|]. by destruct m; rewrite app_nil_r. }
  destruct l as [|e l]; [cbn in Hlen; unfold vsize in *; lia|].
  assert (vget edges i = Some e) as -> by (rewrite vget_lookup, <- (Nat.add_0_r (N.to_nat i)), <- lookup_drop, Hd; done). cbn [mbind option_bind].
  pose proof Hne as Hne'. apply Forall_cons in Hne' as [He _]. rewrite (proj2 (N.eqb_neq _ _) He).
  destruct (head_group e l Hs) as [Hsplit Hrun]. set (run := with_key (key e) (e :: l)) in *. set (rest := filter (fun x => key x <> key e) (e :: l)) in *.
  assert (length (e :: l) = length run + length rest)%nat as Hlr by (by rewrite Hsplit at 1; rewrite length_app).
  assert (0 < length run)%nat as Hrl by (destruct run; [done|cbn; lia]).
  rewrite (scan_parallel_group (S (length edges)) edges _ _ i INT_MAX INT_MAX run rest); try done; [..|by rewrite <- Hsplit| | |unfold vsize in *; lia].
  2: { apply Forall_forall. intros x [Hx _]%list_elem_of_filter. exact Hx. }
  2: { destruct rest as [|x rest'] eqn:Hr; [done|]. assert (x ∈ rest) as Hx by (rewrite Hr; by left). unfold rest in Hx. by apply list_elem_of_filter in Hx as [Hx _]. }
  cbn [mbind option_bind]. rewrite !Z.min_r by apply least_le. pose proof (group_size e run Hrun) as Hgs.
  destruct (store_edges_ok (merged_group e (least_distance nd_forward run) (least_distance nd_backward run)) edges count) as (edges' & -> & Hsz' & Htk & Hdr);
    [unfold vsize in *; cbn [length] in *; lia|]. cbn [mbind option_bind]. destruct m as [|m]; [cbn in Hm; lia|]. cbn [length] in *.
  destruct (IH m edges' (i + vsize run)%N (count + vsize (merged_group e (least_distance nd_forward run) (least_distance nd_backward run)))%N rest) as (e2 & c2 & H2 & H3).
  - lia.
  - rewrite Hdr by (unfold vsize; lia). replace (N.to_nat (i + vsize run)) with (N.to_nat i + length run)%nat by (unfold vsize; lia).
    rewrite <- drop_drop, Hd, Hsplit. by apply drop_app_length.
  - unfold vsize in *. lia.
  - lia.
  - by apply filter_sorted.
  - rewrite Forall_forall in *. intros x [_ Hx]%list_elem_of_filter. by apply Hne.
  - lia.
  - exists e2, c2. split; [done|]. rewrite H3, Htk, <- app_assoc. done.
Qed.

(** *** The merged edges *)

(** Which edges a group with the least distances [a] and [b] has. *)
Definition shape (a b : Z) (forward backward : bool) : Prop :=
  match forward, backward with
  | true, true => a = b /\ a <> INT_MAX
  | true, false => a <> b /\ a <> INT_MAX
  | false, true => a <> b /\ b <> INT_MAX
  | false, false => False
  end.

Definition leader l e : Prop := head (with_key (key e) l) = Some e.

Lemma elem_of_group e a b x : x ∈ merged_group e a b <-> exists F B, shape a b F B /\ x = directed_copy e (if F : bool then a else b) F B.
Proof.
  unfold merged_group. destruct (Z.eqb_spec a b) as [->|Hab].
  - destruct (Z.eqb_spec b INT_MAX) as [Hb|Hb]; cbn [negb].
    + split; [by intros ?%elem_of_nil|]. intros (F & B & Hs & _). destruct F, B; cbn in Hs; tauto.
    + rewrite list_elem_of_singleton. split; [intros ->; by exists true, true|]. intros (F & B & Hs & ->). destruct F, B; cbn in Hs; tauto.
  - rewrite elem_of_app. split.
    + intros [Hx|Hx]; [destruct (Z.eqb_spec a INT_MAX)|destruct (Z.eqb_spec b INT_MAX)]; cbn [negb] in Hx; try (by apply elem_of_nil in Hx);
        apply list_elem_of_singleton in Hx as ->; [exists true, false|exists false, true]; done.
    + intros (F & B & Hs & ->). destruct F, B; cbn in Hs; try tauto; [left|right]; rewrite (proj2 (Z.eqb_neq _ _)) by tauto; cbn [negb]; by left.
Qed.

Lemma with_key_other k k' l : k <> k' -> with_key k (filter (fun x => key x <> k') l) = with_key k l.
Proof. intros Hne. unfold with_key. rewrite list_filter_filter. apply list_filter_iff. intros x. split; [tauto|]. intros ->. done. Qed.

Lemma leader_other l k e : leader (filter (fun x => key x <> k) l) e <-> leader l e /\ key e <> k.
Proof.
  unfold leader. destruct (decide (key e = k)) as [<-|Hne].
  - split; [|tauto]. intros He. exfalso. assert (e ∈ with_key (key e) (filter (fun x => key x <> key e) l)) as Hin by (destruct (with_key _ _); [done|injection He as ->; by left]).
    apply list_elem_of_filter in Hin as [_ [Hin _]%list_elem_of_filter]. done.
  - rewrite with_key_other by done. tauto.
Qed.

Lemma elem_of_merged m : forall l x, (length l <= m)%nat -> x ∈ merged m l <->
  exists e F B, leader l e /\ shape (least_at nd_forward (key e) l) (least_at nd_backward (key e) l) F B /\
    x = directed_copy e (if F : bool then least_at nd_forward (key e) l else least_at nd_backward (key e) l) F B.
Proof.
  induction m as [|m IH]; intros l x Hm; destruct l as [|e0 l]; cbn [length] in Hm; try lia; cbn [merged].
  1, 2: split; [by intros ?%elem_of_nil|]; intros (e & F & B & He & _); done.
  set (L := e0 :: l) in *. rewrite elem_of_app, elem_of_group, IH.
  2: { cbn [length]. unfold L. rewrite filter_cons_False by tauto. etransitivity; [apply length_filter|]. lia. }
  split.
  - intros [(F & B & Hs & ->)|(e & F & B & [He Hne]%leader_other & Hs & ->)].
    + exists e0, F, B. split; [|done]. unfold leader, with_key, L. by rewrite filter_cons_True.
    + exists e, F, B. unfold least_at in *. rewrite !with_key_other in * by done. done.
  - intros (e & F & B & He & Hs & ->). destruct (decide (key e = key e0)) as [Hk|Hk].
    + left. assert (e = e0) as ->; [|by exists F, B]. unfold leader, with_key, L in He. rewrite filter_cons_True in He by done. by injection He.
    + right. exists e, F, B. split; [by apply leader_other|]. unfold least_at in *. rewrite !with_key_other by done. done.
Qed.

Definition kind e : N * N * (bool * bool) := (key e, (nd_forward (ie_data e), nd_backward (ie_data e))).

Lemma group_kinds e a b : NoDup (kind <$> merged_group e a b).
Proof.
  unfold merged_group. repeat case_match; cbn [app fmap list_fmap]; try constructor; try apply NoDup_singleton; try constructor; try apply not_elem_of_nil.
  rewrite list_elem_of_singleton. done.
Qed.

Lemma merged_kinds m : forall l, (length l <= m)%nat -> NoDup (kind <$> merged m l).
Proof.
  induction m as [|m IH]; intros l Hm; destruct l as [|e0 l]; cbn [length] in Hm; try lia; cbn [merged]; [apply NoDup_nil_2..|].
  assert (length (filter (fun x => key x <> key e0) (e0 :: l)) <= m)%nat as Hm'.
  { rewrite filter_cons_False by tauto. etransitivity; [apply length_filter|]. lia. }
  rewrite fmap_app. apply NoDup_app. split; [apply group_kinds|]. split; [|by apply IH].
  intros k (x & -> & Hx)%list_elem_of_fmap (y & Hxy & Hy)%list_elem_of_fmap. apply elem_of_group in Hx as (F & B & _ & ->).
  apply elem_of_merged in Hy as (e & F' & B' & [_ Hne]%leader_other & _ & ->); [|done]. apply Hne. unfold kind, key in *. cbn in Hxy. congruence.
Qed.

Lemma leader_in l e : leader l e -> e ∈ l.
Proof. unfold leader. intros He. assert (e ∈ with_key (key e) l) as [_ Hin]%list_elem_of_filter; [|done]. destruct (with_key _ _); [done|]. injection He as ->. by left. Qed.

Lemma merged_sorted m : forall l, (length l <= m)%nat -> StronglySorted key_le l -> StronglySorted (fun a b => ie_source a <= ie_source b)%N (merged m l).
Proof.
  induction m as [|m IH]; intros l Hm Hs; destruct l as [|e0 l]; cbn [length] in Hm; try lia; cbn [merged]; [constructor..|].
  assert (length (filter (fun x => key x <> key e0) (e0 :: l)) <= m)%nat as Hm'.
  { rewrite filter_cons_False by tauto. etransitivity; [apply length_filter|]. lia. }
  assert (forall a b x, x ∈ merged_group e0 a b -> ie_source x = ie_source e0) as Hg by (intros a b x (F & B & _ & ->)%elem_of_group; done).
  apply StronglySorted_app. split; [|split; [|apply IH; [done|by apply filter_sorted]]].
  - intros x y Hx Hy. rewrite (Hg _ _ _ Hx). apply elem_of_merged in Hy as (e & F' & B' & He%leader_in & _ & ->); [|done]. cbn.
    apply list_elem_of_filter in He as [_ He]. apply StronglySorted_inv in Hs as [_ HF]. apply elem_of_cons in He as [->|He]; [done|].
    rewrite Forall_forall in HF. specialize (HF e He). apply key_le_spec in HF. lia.
  - generalize (Hg (least_at nd_forward (key e0) (e0 :: l)) (least_at nd_backward (key e0) (e0 :: l))).
    generalize (merged_group e0 (least_at nd_forward (key e0) (e0 :: l)) (least_at nd_backward (key e0) (e0 :: l))). intros out Hout.
    induction out as [|x out IHo]; [constructor|]. constructor; [apply IHo; intros; apply Hout; by right|].
    apply Forall_forall. intros y Hy. rewrite (Hout x), (Hout y); [done|by right|by left].
Qed.

Lemma least_lower way l e : e ∈ l -> way (ie_data e) = true -> (least_distance way l <= nd_distance (ie_data e))%Z.
Proof.
  intros Hin Hw. induction l as [|x l IH]; [by apply elem_of_nil in Hin|]. cbn. fold (least_distance way l).
  apply elem_of_cons in Hin as [->|Hin]; [rewrite Hw; lia|]. specialize (IH Hin). destruct (way (ie_data x)); lia.
Qed.

Lemma least_distance_attained way l : least_distance way l <> INT_MAX -> exists e, e ∈ l /\ way (ie_data e) = true /\ nd_distance (ie_data e) = least_distance way l.
Proof.
  induction l as [|x l IH]; cbn; [done|]. fold (least_distance way l). pose proof (least_le way l). intros Hne. destruct (way (ie_data x)) eqn:Hw.
  - destruct (Z.le_gt_cases (nd_distance (ie_data x)) (least_distance way l)) as [Hle|Hgt].
    + exists x. split; [by left|]. split; [done|]. lia.
    + destruct IH as (e & He & Hwe & Hd); [lia|]. exists e. split; [by right|]. split; [done|]. lia.
  - destruct (IH Hne) as (e & He & Hwe & Hd). exists e. split; [by right|]. done.
Qed.

(** The least distance is the one of an edge, which no other undercuts. *)
Lemma least_at_spec way k l w : Forall (fun e => nd_distance (ie_data e) < INT_MAX)%Z l ->
  least_at way k l = w /\ w <> INT_MAX <->
  (exists e, e ∈ l /\ key e = k /\ way (ie_data e) = true /\ nd_distance (ie_data e) = w) /\
  forall e, e ∈ l -> key e = k -> way (ie_data e) = true -> (w <= nd_distance (ie_data e))%Z.
Proof.
  intros HF. rewrite Forall_forall in HF. unfold least_at. split.
  - intros [<- Hne]. split.
    + destruct (least_distance_attained _ _ Hne) as (e & [Hk He]%list_elem_of_filter & Hw & Hd). by exists e.
    + intros e He Hk Hw. apply least_lower; [by apply list_elem_of_filter|done].
  - intros [(e & He & Hk & Hw & Hd) Hmin]. assert (w <> INT_MAX) as Hne by (specialize (HF e He); cbn in HF; lia). split; [|done].
    assert (least_distance way (with_key k l) <= w)%Z as Hle by (rewrite <- Hd; apply least_lower; [by apply list_elem_of_filter|done]).
    specialize (HF e He). cbn in HF. destruct (least_distance_attained way (with_key k l)) as (x & [Hkx Hx]%list_elem_of_filter & Hwx & Hdx); [lia|].
    specialize (Hmin x Hx Hkx Hwx). lia.
Qed.
End merged.

(** ** The roads *)

Definition allows (r : NodeBasedEdge) (u t : N) : Prop :=
  nb_source r = u /\ nb_target r = t /\ nb_forward r = true \/ nb_target r = u /\ nb_source r = t /\ nb_backward r = true.

Definition road_weight (r : NodeBasedEdge) : Z := Z.max (nb_weight r) 1.

(** [w] is the weight of the lightest road from [u] to [t]. *)
Definition lightest_road (input : list NodeBasedEdge) (u t : N) (w : Z) : Prop :=
  (exists r, r ∈ input /\ allows r u t /\ road_weight r = w) /\ forall r, r ∈ input -> allows r u t -> (w <= road_weight r)%Z.

Definition roads_ok (nodes : N) (input : list NodeBasedEdge) : Prop :=
  Forall (fun r => nb_source r < nodes /\ nb_target r < nodes /\ (nb_weight r < INT_MAX)%Z /\ nb_is_split r = false)%N input /\
  (2 * vsize input < 2147483648)%N /\ (nodes < 2147483648)%N.

Section roads.
  Context (nodes : N) (input : list NodeBasedEdge).
  Hypothesis input_roads : roads_ok nodes input.
#[local] Set Default Proof Using "All".

Definition halves : list nedge := input ≫= import_half_edges.

Lemma elem_of_halves x : x ∈ halves <-> exists r, r ∈ input /\ x ∈ import_half_edges r.
Proof. unfold halves. rewrite list_elem_of_bind. naive_solver. Qed.

Lemma halves_ok : Forall (fun x => ie_source x < nodes /\ ie_target x < nodes /\ ie_source x <> ie_target x /\ (0 < nd_distance (ie_data x) < INT_MAX)%Z)%N halves.
Proof.
  destruct input_roads as [Hin _]. rewrite Forall_forall in Hin. apply Forall_forall. intros x (r & Hr & Hx)%elem_of_halves. specialize (Hin r Hr) as (H1 & H2 & H3 & H4).
  unfold import_half_edges in Hx. rewrite H4 in Hx. unfold INT_MAX in *.
  destruct (nb_forward r); [destruct (N.eqb_spec (nb_source r) (nb_target r))|destruct (N.eqb_spec (nb_target r) (nb_source r))];
    try (by apply elem_of_nil in Hx); cbn [negb] in Hx; apply elem_of_cons in Hx as [->|Hx%list_elem_of_singleton]; subst; cbn; split_and!; lia.
Qed.

Lemma halves_size : (vsize halves <= 2 * vsize input)%N.
Proof.
  unfold halves. clear input_roads. induction input as [|r l IH]; [done|]. rewrite bind_cons, vsize_app.
  assert (vsize (import_half_edges r) <= 2)%N by (unfold import_half_edges; destruct (nb_forward r), (_ =? _)%N, (nb_is_split r); done).
  change (vsize (r :: l)) with (N.of_nat (S (length l))). unfold vsize in *. lia.
Qed.

(** The half edges that can be driven along are the directions of the roads. *)
Lemma forward_halves u t w : u <> t ->
  (exists x, x ∈ halves /\ key x = (u, t) /\ nd_forward (ie_data x) = true /\ nd_distance (ie_data x) = w) <->
  exists r, r ∈ input /\ allows r u t /\ road_weight r = w.
Proof.
  intros Hut. destruct input_roads as [Hin _]. rewrite Forall_forall in Hin. unfold key, allows, road_weight. split.
  - intros (x & (r & Hr & Hx)%elem_of_halves & [= <- <-] & Hf & <-). exists r. split; [done|]. destruct (Hin r Hr) as (_ & _ & _ & Hs).
    unfold import_half_edges in Hx. rewrite Hs in Hx. destruct (nb_forward r) eqn:Ef;
      [destruct (N.eqb_spec (nb_source r) (nb_target r))|destruct (N.eqb_spec (nb_target r) (nb_source r))];
      try (by apply elem_of_nil in Hx); cbn [negb] in Hx; apply elem_of_cons in Hx as [->|Hx%list_elem_of_singleton]; subst; cbn in *; try tauto; congruence.
  - intros (r & Hr & Ha & <-). destruct (Hin r Hr) as (_ & _ & _ & Hs).
    assert (forall x, x ∈ import_half_edges r -> x ∈ halves) as Hh by (intros x Hx; apply elem_of_halves; by exists r).
    unfold import_half_edges in Hh. rewrite Hs in Hh. destruct (nb_forward r) eqn:Ef.
    + destruct Ha as [(<- & <- & _)|(<- & <- & Hb)]; (rewrite (proj2 (N.eqb_neq _ _)) in Hh by congruence); cbn [negb] in Hh.
      * eexists. split; [apply Hh; by left|]. done.
      * eexists. split; [apply Hh; right; by left|]. done.
    + destruct Ha as [(_ & _ & ?)|(<- & <- & Hb)]; [done|]. rewrite (proj2 (N.eqb_neq _ _)) in Hh by congruence. cbn [negb] in Hh.
      eexists. split; [apply Hh; by left|]. done.
Qed.

(** The other half edge of a road. *)
Lemma mirror x : x ∈ halves -> MkInputEdge (ie_target x) (ie_source x) (SwapDirectionFlags (ie_data x)) ∈ halves.
Proof.
  intros (r & Hr & Hx)%elem_of_halves. apply elem_of_halves. exists r. split; [done|]. destruct input_roads as [Hin _]. rewrite Forall_forall in Hin.
  destruct (Hin r Hr) as (_ & _ & _ & Hs). unfold import_half_edges in *. rewrite Hs in *.
  destruct (nb_forward r); destruct (_ =? _)%N; try (by apply elem_of_nil in Hx); cbn [negb] in *; apply elem_of_cons in Hx as [->|Hx%list_elem_of_singleton]; subst;
    cbn; try (right; left; done); left; done.
Qed.
End roads.

Section import.
  Context (sort_edges : list nedge -> list nedge) (junk : N -> Edge NodeBasedEdgeData).
  Hypothesis sort_perm : forall l, sort_edges l ≡ₚ l.
  Hypothesis sort_sorted : forall l, StronglySorted key_le (sort_edges l).
  Context (nodes : N) (input : list NodeBasedEdge).
  Hypothesis input_roads : roads_ok nodes input.
#[local] Set Default Proof Using "All".

Definition sorted_halves : list nedge := sort_edges (halves input).

Definition ahead (u t : N) : Z := least_at nd_forward (u, t) sorted_halves.

Definition back (u t : N) : Z := least_at nd_backward (u, t) sorted_halves.

Definition merged_roads : list nedge := merged (length sorted_halves) sorted_halves.

Lemma elem_of_sorted x : x ∈ sorted_halves <-> x ∈ halves input.
Proof. unfold sorted_halves. by rewrite sort_perm. Qed.

Lemma sorted_ok : Forall (fun x => ie_source x < nodes /\ ie_target x < nodes /\ ie_source x <> ie_target x /\ (0 < nd_distance (ie_data x) < INT_MAX)%Z)%N sorted_halves.
Proof.
  pose proof (halves_ok nodes input input_roads) as HF. rewrite Forall_forall in HF. apply Forall_forall. intros x Hx%elem_of_sorted. by apply HF.
Qed.

Lemma sorted_weights : Forall (fun x => nd_distance (ie_data x) < INT_MAX)%Z sorted_halves.
Proof. eapply Forall_impl; [exact sorted_ok|]. intros x. cbn. lia. Qed.

Lemma ahead_road u t w : u <> t -> ahead u t = w /\ w <> INT_MAX <-> lightest_road input u t w.
Proof.
  intros Hut. unfold ahead. rewrite (least_at_spec nd_forward (u, t) sorted_halves w sorted_weights). unfold lightest_road.
  setoid_rewrite elem_of_sorted. rewrite (forward_halves nodes input input_roads u t w Hut).
  split; intros [Hex Hmin]; (split; [done|]).
  - intros r Hr Ha. destruct (proj2 (forward_halves nodes input input_roads u t (road_weight r) Hut)) as (x & Hx & Hk & Hf & <-); [by exists r|]. by apply Hmin.
  - intros x Hx Hk Hf. destruct (proj1 (forward_halves nodes input input_roads u t (nd_distance (ie_data x)) Hut)) as (r & Hr & Ha & <-); [by exists x|]. by apply Hmin.
Qed.

Lemma mirror_least u t w : ahead u t = w /\ w <> INT_MAX <-> back t u = w /\ w <> INT_MAX.
Proof.
  unfold ahead, back. rewrite !(least_at_spec _ _ sorted_halves w sorted_weights). setoid_rewrite elem_of_sorted.
  pose proof (mirror nodes input input_roads) as Hm. unfold key.
  split; intros [(e & He & [= Hs Ht] & Hw & Hd) Hmin]; (split; [exists (MkInputEdge (ie_target e) (ie_source e) (SwapDirectionFlags (ie_data e)));
    split; [by apply Hm|]; cbn; rewrite Hs, Ht; done|]); intros x Hx [= Hxs Hxt] Hwx;
    apply (Hmin (MkInputEdge (ie_target x) (ie_source x) (SwapDirectionFlags (ie_data x)))); [by apply Hm|cbn; by rewrite Hxs, Hxt|done|by apply Hm|cbn; by rewrite Hxs, Hxt|done].
Qed.

Lemma ahead_back u t : ahead u t = back t u.
Proof.
  destruct (decide (ahead u t = INT_MAX)) as [Ha|Ha].
  - destruct (decide (back t u = INT_MAX)) as [Hb|Hb]; [congruence|]. destruct (proj2 (mirror_least u t (back t u))) as [Hx _]; done.
  - destruct (proj1 (mirror_least u t (ahead u t))) as [Hx _]; done.
Qed.

Lemma shape_mirror u t F B : shape (ahead u t) (back u t) F B -> shape (ahead t u) (back t u) B F.
Proof. rewrite (ahead_back t u), <- (ahead_back u t). destruct F, B; cbn; intuition congruence. Qed.

(** The merged edges from [u] to [t]. *)
Lemma elem_of_roads x : x ∈ merged_roads ->
  let F := nd_forward (ie_data x) in let B := nd_backward (ie_data x) in let u := ie_source x in let t := ie_target x in
  (u < nodes)%N /\ (t < nodes)%N /\ u <> t /\ shape (ahead u t) (back u t) F B /\ nd_distance (ie_data x) = if F then ahead u t else back u t.
Proof.
  unfold merged_roads. rewrite elem_of_merged by done. intros (e & F & B & He & Hs & ->). cbn. pose proof sorted_ok as HF. rewrite Forall_forall in HF.
  destruct (HF e (leader_in _ _ He)) as (H1 & H2 & H3 & _). done.
Qed.

Lemma roads_exist u t F B : shape (ahead u t) (back u t) F B -> exists x, x ∈ merged_roads /\ kind x = ((u, t), (F, B)).
Proof.
  intros Hs. assert (exists e, leader sorted_halves e /\ key e = (u, t)) as (e & He & Hk).
  { assert (with_key (u, t) sorted_halves <> []) as Hne.
    { unfold ahead, back, least_at in Hs. intros Hnil. rewrite Hnil in Hs. cbn in Hs. destruct F, B; cbn in Hs; tauto. }
    destruct (with_key (u, t) sorted_halves) as [|e m] eqn:Hw; [done|]. exists e.
    assert (e ∈ with_key (u, t) sorted_halves) as [Hk _]%list_elem_of_filter by (rewrite Hw; by left). split; [|done]. unfold leader. by rewrite Hk, Hw. }
  eexists. split; [apply elem_of_merged; [done|]; exists e, F, B; split; [done|]; split; [by rewrite Hk|done]|]. unfold kind, key in *. cbn. congruence.
Qed.

Lemma import_ok : exists g, NodeBasedDynamicGraphFromImportEdges sort_edges junk (Z.of_N nodes) input = Some g /\ graph_wf g /\
  number_of_nodes g = nodes /\ vsize (node_list g) = (nodes + 1)%N /\
  (forall u, (u < nodes)%N -> adj g u = to_edge <$> filter (fun e => ie_source e = u) merged_roads) /\ (forall u, (nodes <= u)%N -> adj g u = []).
Proof.
  destruct input_roads as (_ & Hsz & Hn). pose proof (halves_size nodes input input_roads) as Hhs. pose proof sorted_ok as Hok.
  assert (vsize sorted_halves = vsize (halves input)) as Hvs by (unfold sorted_halves; by rewrite sort_perm).
  unfold NodeBasedDynamicGraphFromImportEdges. fold (halves input). fold sorted_halves.
  destruct (merge_parallel_ok (S (length sorted_halves)) sorted_halves 0 0 sorted_halves) as (edges' & count & -> & Htk); [done|lia|lia|apply sort_sorted| |lia|].
  { eapply Forall_impl; [exact Hok|]. cbn. tauto. }
  cbn [mbind option_bind]. rewrite Htk. change (take (N.to_nat 0) sorted_halves) with (@nil nedge). cbn [app]. fold merged_roads.
  rewrite of_int_nonneg, N2Z.id by lia.
  assert (vsize merged_roads <= vsize sorted_halves)%N as Hms.
  { unfold merged_roads. generalize (length sorted_halves). intros m. generalize sorted_halves. induction m as [|m IH]; intros [|e l]; cbn [merged]; try done.
    rewrite vsize_app. specialize (IH (filter (fun x => key x <> key e) (e :: l))). pose proof (group_size e (with_key (key e) (e :: l))) as Hgs.
    assert (with_key (key e) (e :: l) <> []) as Hne by (unfold with_key; by rewrite filter_cons_True). specialize (Hgs Hne). unfold least_at.
    assert (length (with_key (key e) (e :: l)) + length (filter (fun x => key x <> key e) (e :: l)) = length (e :: l))%nat; [|unfold vsize in *; lia].
    unfold with_key. generalize (e :: l). intros l0. induction l0 as [|x l0 IH0]; [done|].
    destruct (decide (key x = key e)); [rewrite filter_cons_True, (filter_cons_False (fun x => key x <> key e)) by tauto|rewrite filter_cons_False, (filter_cons_True (fun x => key x <> key e)) by tauto];
      cbn [length]; lia. }
  destruct (from_ok junk nodes merged_roads) as (g & Hg & Hwf & Hnn & _ & Hnl & _ & Hadj & Hend).
  - apply merged_sorted; [done|apply sort_sorted].
  - apply Forall_forall. intros x Hx. destruct (elem_of_roads x Hx) as (H1 & H2 & _). split; [done|]. unfold UINT_MAX. lia.
  - lia.
  - lia.
  - exists g. done.
Qed.
End import.

(** ** The slots of a node *)

Lemma slot_lookup g u e t d : slot g u e t d -> exists b, (b <= e)%N /\ adj g u !! N.to_nat (e - b) = Some (MkEdge t d) /\ exists k, vget (node_list g) u = Some (MkNode b k).
Proof.
  intros ([b k] & Hnd & Hr & He). unfold in_range in Hr. cbn in Hr. exists b. split; [lia|]. split; [|by exists k]. unfold adj. rewrite Hnd.
  rewrite <- vget_lookup, vget_slice. cbn. rewrite decide_True by lia. by replace (b + (e - b))%N with e by lia.
Qed.

Lemma adj_slot g u t d : graph_wf g -> MkEdge t d ∈ adj g u -> exists e, slot g u e t d.
Proof.
  intros Hwf Hin. unfold adj in Hin. destruct (vget (node_list g) u) as [nd|] eqn:Hnd; [|by apply elem_of_nil in Hin].
  apply list_elem_of_lookup in Hin as [i Hi]. pose proof (vget_slice (edge_list g) nd (N.of_nat i)) as Hs. rewrite vget_lookup, Nat2N.id, Hi in Hs.
  case_decide as Hlt; [|done]. exists (firstEdge nd + N.of_nat i)%N, nd. split; [done|]. unfold in_range. split; [lia|done].
Qed.

Lemma filter_kinds (P : nedge -> Prop) `{!forall x, Decision (P x)} l : NoDup (kind <$> l) -> NoDup (kind <$> filter P l).
Proof.
  induction l as [|x l IH]; [done|]. rewrite fmap_cons. intros [Hx Hl]%NoDup_cons. destruct (decide (P x)); [rewrite filter_cons_True by done|rewrite filter_cons_False by done; by apply IH].
  rewrite fmap_cons. apply NoDup_cons. split; [|by apply IH]. intros (y & Hy & [_ Hin]%list_elem_of_filter)%list_elem_of_fmap. apply Hx.
  apply list_elem_of_fmap. by exists y.
Qed.

(** ** The graph *)

Section graph.
  Context (sort_edges : list nedge -> list nedge) (junk : N -> Edge NodeBasedEdgeData).
  Hypothesis sort_perm : forall l, sort_edges l ≡ₚ l.
  Hypothesis sort_sorted : forall l, StronglySorted key_le (sort_edges l).
  Context (nodes : N) (input : list NodeBasedEdge).
  Hypothesis input_roads : roads_ok nodes input.
  Context (g : NodeBasedDynamicGraph).
  Hypothesis g_wf : graph_wf g.
  Hypothesis g_nodes : vsize (node_list g) = (nodes + 1)%N.
  Hypothesis g_adj : forall u, (u < nodes)%N -> adj g u = to_edge <$> filter (fun e => ie_source e = u) (merged_roads sort_edges input).
  Hypothesis g_end : forall u, (nodes <= u)%N -> adj g u = [].
#[local] Set Default Proof Using "All".

Lemma slot_road u e t d : slot g u e t d -> MkInputEdge u t d ∈ merged_roads sort_edges input.
Proof.
  intros Hs. pose proof (slot_adj g u e t d Hs) as Hin. destruct (N.lt_ge_cases u nodes) as [Hu|Hu]; [|rewrite g_end in Hin by done; by apply elem_of_nil in Hin].
  rewrite g_adj in Hin by done. apply list_elem_of_fmap in Hin as ([a b c] & [= -> ->] & [Ha Hin]%list_elem_of_filter). cbn in Ha. by subst a.
Qed.

Lemma road_slot x : x ∈ merged_roads sort_edges input -> exists e, slot g (ie_source x) e (ie_target x) (ie_data x).
Proof.
  intros Hx. destruct (elem_of_roads sort_edges junk sort_perm sort_sorted nodes input input_roads x Hx) as (Hu & _). apply adj_slot; [done|].
  rewrite g_adj by done. apply list_elem_of_fmap. exists x. split; [done|]. by apply list_elem_of_filter.
Qed.

Lemma slots_kinds u e e' t d d' : slot g u e t d -> slot g u e' t d' -> same_way d d' -> e = e'.
Proof.
  intros Hs Hs' [Hf Hb]. destruct (slot_lookup g u e t d Hs) as (b & Hbe & Hl & k & Hnd). destruct (slot_lookup g u e' t d' Hs') as (b' & Hbe' & Hl' & k' & Hnd').
  rewrite Hnd in Hnd'. injection Hnd' as <- <-. destruct (N.lt_ge_cases u nodes) as [Hu|Hu]; [|by rewrite g_end in Hl].
  rewrite g_adj, list_lookup_fmap in Hl, Hl' by done. set (l := filter _ _) in *.
  assert (NoDup (kind <$> l)) as Hnd' by (apply filter_kinds, merged_kinds; done).
  destruct (l !! N.to_nat (e - b)) as [x|] eqn:Hx; [|done]. destruct (l !! N.to_nat (e' - b)) as [x'|] eqn:Hx'; [|done].
  cbn in Hl, Hl'. injection Hl as Ht Hd. injection Hl' as Ht' Hd'.
  assert (ie_source x = u /\ ie_source x' = u) as [Hxu Hxu'].
  { apply list_elem_of_lookup_2 in Hx, Hx'. apply list_elem_of_filter in Hx, Hx'. tauto. }
  assert (N.to_nat (e - b) = N.to_nat (e' - b)) as Heq; [|lia].
  apply (NoDup_lookup _ _ _ (kind x) Hnd'); rewrite list_lookup_fmap; [by rewrite Hx|]. rewrite Hx'. cbn. unfold kind, key. congruence.
Qed.

Lemma road_edges_rep : edges_rep g (edges_of g).
Proof. apply edges_of_rep; [done|]. destruct input_roads as (_ & _ & Hn). lia. Qed.

Lemma roads_two_way : two_way (edges_of g).
Proof.
  pose proof road_edges_rep as [_ Hrep].
  assert (forall e u t d, edges_of g !! e = Some (MkHalfEdge u t d) -> MkInputEdge u t d ∈ merged_roads sort_edges input) as Hin
    by (intros e u t d He; by eapply slot_road, Hrep).
  pose proof (elem_of_roads sort_edges junk sort_perm sort_sorted nodes input input_roads) as Hroads. constructor.
  - intros e [u t d] He%Hin. destruct (Hroads _ He) as (_ & _ & Hne & _). exact Hne.
  - intros e e' u t d d' He%Hrep He'%Hrep Hw. by eapply slots_kinds.
  - intros e u t d He%Hin. destruct (Hroads _ He) as (_ & _ & _ & Hs & _). cbn in Hs.
    apply (shape_mirror sort_edges junk sort_perm sort_sorted nodes input input_roads) in Hs.
    apply (roads_exist sort_edges junk sort_perm sort_sorted nodes input input_roads) in Hs as (x & Hx & [= Hxu Hxt Hf Hb]).
    destruct (road_slot x Hx) as (e' & He'). exists e', (ie_data x). rewrite Hxu, Hxt in He'. split; [by apply Hrep|]. unfold opposite. split; congruence.
  - intros e [u t d] He%Hin. destruct (Hroads _ He) as (_ & _ & Hne & Hs & Hd). cbn in *. rewrite Hd.
    assert (forall way k, 0 <= least_at way k (sorted_halves sort_edges input))%Z as Hnn; [|destruct (nd_forward d); apply Hnn].
    intros way k. unfold least_at. destruct (decide (least_distance way (with_key k (sorted_halves sort_edges input)) = INT_MAX)) as [->|Hm]; [done|].
    destruct (least_distance_attained _ _ Hm) as (x & [_ Hx]%list_elem_of_filter & _ & <-).
    pose proof (sorted_ok sort_edges junk sort_perm sort_sorted nodes input input_roads) as HF. rewrite Forall_forall in HF. specialize (HF x Hx). cbn in HF. lia.
Qed.

Lemma slots_lightest u t w : u <> t -> (exists e d, slot g u e t d /\ nd_forward d = true /\ nd_distance d = w) <-> lightest_road input u t w.
Proof.
  intros Hut. rewrite <- (ahead_road sort_edges junk sort_perm sort_sorted nodes input input_roads u t w Hut). split.
  - intros (e & d & Hs%slot_road & Hf & <-).
    destruct (elem_of_roads sort_edges junk sort_perm sort_sorted nodes input input_roads _ Hs) as (_ & _ & _ & Hsh & Hd). cbn in *. rewrite Hf in *. split; [done|].
    rewrite Hd. destruct (nd_backward d); cbn in Hsh; tauto.
  - intros [Ha Hne]. set (B := bool_decide (ahead sort_edges input u t = back sort_edges input u t)).
    destruct (roads_exist sort_edges junk sort_perm sort_sorted nodes input input_roads u t true B) as (x & Hx & [= Hxu Hxt Hf Hb]).
    { unfold B. destruct (bool_decide _) eqn:Hb; [apply bool_decide_eq_true in Hb|apply bool_decide_eq_false in Hb]; cbn; split; congruence. }
    destruct (road_slot x Hx) as (e & He). rewrite Hxu, Hxt in He. exists e, (ie_data x). split; [done|]. split; [done|].
    destruct (elem_of_roads sort_edges junk sort_perm sort_sorted nodes input input_roads _ Hx) as (_ & _ & _ & _ & Hd). rewrite Hf, Hxu, Hxt in Hd. congruence.
Qed.
End graph.

(** ** Properties *)


#[global] Instance key_le_dec a b : Decision (key_le a b).
Proof. unfold key_le. apply _. Defined.

#[global] Instance key_le_total : Total key_le.
Proof. intros a b. rewrite !key_le_spec. lia. Qed.

#[global] Instance key_le_trans : Transitive key_le.
Proof. intros a b c. rewrite !key_le_spec. lia. Qed.

(** Two parallel roads, one of them one-way, and a third road. *)
Definition sample_roads : list NodeBasedEdge :=
  [MkNodeBasedEdge 0 1 4 7 true true false false false false 1; MkNodeBasedEdge 1 0 5 3 true false false false false false 1;
   MkNodeBasedEdge 1 2 4 9 true true false false false false 1].

