(* ===== verification/Names.v ===== *)
(** * DataStructures/RangeTable.h and the street names

    The offsets of the street names are stored in blocks: an absolute offset
    and a block of one-byte lengths. The extractor writes the table and the
    characters of the names to a file ([ExtractionContainers::PrepareData]),
    the server loads it ([LoadStreetNames]) and looks up names ([GetName]). *)

From S2P Require Import Prelude Types DynamicGraph Hsgr.

(** ** RangeTable *)

Record RangeTable := MkRangeTable { block_offsets : list N; diff_blocks : list (list N); sum_lengths : N }.

Section table.
  Context (BLOCK_SIZE : N).

Record range_build := MkRangeBuild {
  rb_offsets : list N; rb_blocks : list (list N); last_length : N; lengths_prefix_sum : N; block_idx : N; block : list N }.

(** One length: the length before it goes into the block, or a block begins. *)
Definition add_length (s : range_build) (l : N) : option range_build :=
  '(offsets, b) ← (if (block_idx s =? 0)%N then Some (rb_offsets s ++ [lengths_prefix_sum s], block s)
                   else b ← vset (block s) (usub (block_idx s) 1) (u8 (last_length s)); Some (rb_offsets s, b));
  let blocks := if (BLOCK_SIZE =? block_idx s)%N then rb_blocks s ++ [b] else rb_blocks s in
  Some (MkRangeBuild offsets blocks l (uadd (lengths_prefix_sum s) l) (uadd (block_idx s) 1 mod uadd BLOCK_SIZE 1)%N b).

(** The rest of the last block. *)
Fixpoint fill_block (fuel : nat) (idx last : N) (b : list N) : option (list N) :=
  match fuel with
  | O => None
  | S fuel' =>
      if (idx =? 0)%N then Some b
      else b' ← vset b (usub idx 1) (u8 last); fill_block fuel' (uadd idx 1 mod uadd BLOCK_SIZE 1)%N 0 b'
  end.

(** The constructor; [junk] is the uninitialised block. *)
Definition RangeTable_make (junk : list N) (lengths : list N) : option RangeTable :=
  s ← fold_m add_length (MkRangeBuild [] [] 0 0 0 junk) lengths;
  let '(offsets, idx, last) :=
    if (block_idx s =? 0)%N then (rb_offsets s ++ [lengths_prefix_sum s], 1, 0)%N
    else (rb_offsets s, block_idx s, last_length s) in
  b ← fill_block (S (N.to_nat BLOCK_SIZE + 1)) idx last (block s);
  Some (MkRangeTable offsets (rb_blocks s ++ [b]) (lengths_prefix_sum s)).

Definition PrefixSumAtIndex (index : N) (b : list N) : option N :=
  fold_m (fun sum i => x ← vget b i; Some (uadd sum x)) 0%N (irange 0 (index + 1)).

(** The begin and the end of a range. *)
Definition GetRange (id : N) (t : RangeTable) : option (N * N) :=
  let internal_idx := (id mod uadd BLOCK_SIZE 1)%N in
  let block_idx := (id / uadd BLOCK_SIZE 1)%N in
  offset ← vget (block_offsets t) block_idx;
  b ← vget (diff_blocks t) block_idx;
  begin_idx ← (if (0 <? internal_idx)%N then sum ← PrefixSumAtIndex (internal_idx - 1) b; Some (uadd offset sum) else Some offset);
  end_idx ← (if (internal_idx <? BLOCK_SIZE)%N then x ← vget b internal_idx; Some (uadd begin_idx x)
             else vget (block_offsets t) (uadd block_idx 1));
  Some (begin_idx, end_idx).

(** [operator<<] and [operator>>]. *)
Definition write_table (t : RangeTable) : list N :=
  le32 (u32 (vsize (diff_blocks t))) ++ le32 (sum_lengths t) ++ (block_offsets t ≫= le32) ++ concat (diff_blocks t).

Definition read_table (s : list N) : option (RangeTable * list N) :=
  '(number_of_blocks, s) ← read_word s;
  '(sum, s) ← read_word s;
  '(offsets, s) ← read_many read_word (N.to_nat number_of_blocks) s;
  '(blocks, s) ← read_many (read_chars (N.to_nat BLOCK_SIZE)) (N.to_nat number_of_blocks) s;
  Some (MkRangeTable offsets blocks sum, s).
End table.

(** ** The names *)

Definition NAME_BLOCK_SIZE : N := 16.

Definition name_length (name : list N) : N := N.min (u32 (vsize name)) 255.

(** The file of the names. *)
Definition write_names (junk : list N) (name_list : list (list N)) : option (list N) :=
  let name_lengths := name_length <$> name_list in
  let total_length := foldl uadd 0%N name_lengths in
  table ← RangeTable_make NAME_BLOCK_SIZE junk name_lengths;
  Some (write_table table ++ le32 total_length ++ concat ((fun name => take (N.to_nat (name_length name)) name) <$> name_list)).

(** The two fields of the facade that hold the names. *)
Record street_names := MkStreetNames { m_name_table : RangeTable; m_names_char_list : list N }.

(** The characters are followed by a zero; the size of their list must not wrap. *)
Definition LoadStreetNames (names_file : list N) : option street_names :=
  '(table, s) ← read_table NAME_BLOCK_SIZE names_file;
  '(number_of_chars, s) ← read_word s;
  if (number_of_chars =? UINT_MAX)%N then None
  else
  '(chars, _) ← read_chars (N.to_nat number_of_chars) s;
  Some (MkStreetNames table (chars ++ [0%N])).

Definition GetName (name_id : N) (f : street_names) : option (list N) :=
  if (UINT_MAX =? name_id)%N then Some []
  else
    '(b, e) ← GetRange NAME_BLOCK_SIZE name_id (m_name_table f);
    if (b =? e)%N then Some []
    else if ((b <? e) && (e <=? vsize (m_names_char_list f)))%N
    then Some (take (N.to_nat (e - b)) (drop (N.to_nat b) (m_names_char_list f)))
    else None.

(** ** The table *)

Definition total_of (ls : list N) : N := foldr N.add 0%N ls.

(** The sum of the first [i] lengths. *)
Definition offset_at (ls : list N) (i : N) : N := total_of (take (N.to_nat i) ls).

Definition length_at (ls : list N) (i : N) : N := default 0%N (vget ls i).

Lemma total_app l1 l2 : total_of (l1 ++ l2) = (total_of l1 + total_of l2)%N.
Proof. unfold total_of. induction l1 as [|x l1 IH]; cbn [app foldr]; lia. Qed.

Lemma offset_snoc ls l i : (i <= vsize ls)%N -> offset_at (ls ++ [l]) i = offset_at ls i.
Proof. intros Hi. unfold offset_at. rewrite take_app_le; [done|]. unfold vsize in Hi. lia. Qed.

Lemma offset_all ls i : (vsize ls <= i)%N -> offset_at ls i = total_of ls.
Proof. intros Hi. unfold offset_at. rewrite take_ge; [done|]. unfold vsize in Hi. lia. Qed.

Lemma offset_next ls i : offset_at ls (i + 1) = (offset_at ls i + length_at ls i)%N.
Proof.
  unfold offset_at, length_at. rewrite vget_lookup. replace (N.to_nat (i + 1)) with (S (N.to_nat i)) by lia.
  destruct (ls !! N.to_nat i) as [x|] eqn:Hx.
  - rewrite (take_S_r _ _ x) by done. rewrite total_app. cbn. lia.
  - apply lookup_ge_None in Hx. rewrite !take_ge by lia. cbn. lia.
Qed.

Lemma offset_le ls i : (offset_at ls i <= total_of ls)%N.
Proof. unfold offset_at. rewrite <- (take_drop (N.to_nat i) ls) at 2. rewrite total_app. lia. Qed.

Lemma length_snoc ls l i : length_at (ls ++ [l]) i = if decide (i = vsize ls) then l else length_at ls i.
Proof. unfold length_at. rewrite vget_snoc. repeat case_decide; try done. Qed.

Lemma offset_mono ls i j : (i <= j)%N -> (offset_at ls i <= offset_at ls j)%N.
Proof.
  intros Hij. unfold offset_at. rewrite <- (take_drop (N.to_nat i) (take (N.to_nat j) ls)). rewrite total_app, take_take.
  replace (Nat.min (N.to_nat i) (N.to_nat j)) with (N.to_nat i) by lia. lia.
Qed.

Lemma length_past ls i : (vsize ls <= i)%N -> length_at ls i = 0%N.
Proof. intros Hi. unfold length_at. by rewrite (vget_None ls i Hi). Qed.

Lemma u8_small x : (x <= 255)%N -> u8 x = x.
Proof. intros. unfold u8. apply N.mod_small. lia. Qed.

Section build.
  Context (B : N).
  Hypothesis B_ok : (0 < B < 4294967295)%N.
#[local] Set Default Proof Using "All".

(** The block of the lengths from [base] on. *)
Definition block_from (ls : list N) (base : N) (b : list N) : Prop :=
  vsize b = B /\ forall k, (k < B)%N -> vget b k = Some (length_at ls (base + k)).

Record built_from (ls : list N) (q r : N) (s : range_build) : Prop := {
  bf_size : vsize ls = (q * (B + 1) + r)%N;
  bf_idx : block_idx s = r;
  bf_small : (r <= B)%N;
  bf_sum : lengths_prefix_sum s = total_of ls;
  bf_last : (0 < r)%N -> last_length s = length_at ls (vsize ls - 1);
  bf_offsets : vsize (rb_offsets s) = (if (r =? 0) then q else q + 1)%N;
  bf_offset j : (j < vsize (rb_offsets s))%N -> vget (rb_offsets s) j = Some (offset_at ls (j * (B + 1)));
  bf_blocks : vsize (rb_blocks s) = q;
  bf_block j : (j < q)%N -> exists b, vget (rb_blocks s) j = Some b /\ block_from ls (j * (B + 1)) b;
  bf_current : vsize (block s) = B;
  bf_entries k : (k + 1 < r)%N -> vget (block s) k = Some (length_at ls (q * (B + 1) + k));
}.

Lemma block_from_snoc ls l base b : (base + B <= vsize ls)%N -> block_from ls base b -> block_from (ls ++ [l]) base b.
Proof. intros Hb [Hs Hk]. split; [done|]. intros k Hk'. rewrite Hk, length_snoc, decide_False by lia. done. Qed.

(** A length that is not yet in the block. *)
Lemma built_snoc ls q r s l s' : built_from ls q r s -> (l <= 255)%N -> (r < B)%N -> rb_blocks s' = rb_blocks s ->
  block_idx s' = (r + 1)%N -> lengths_prefix_sum s' = (total_of ls + l)%N -> last_length s' = l ->
  rb_offsets s' = (if (r =? 0)%N then rb_offsets s ++ [total_of ls] else rb_offsets s) -> vsize (block s') = B ->
  (forall k, (k < r)%N -> vget (block s') k = Some (length_at ls (q * (B + 1) + k))) -> built_from (ls ++ [l]) q (r + 1) s'.
Proof.
  intros [Hsz Hidx Hsm Hsum Hlast Hoff Hoffs Hbl Hbls Hcur Hent] Hl Hr E1 E2 E3 E4 E5 E6 E7.
  assert (vsize (ls ++ [l]) = vsize ls + 1)%N as Hv by (rewrite vsize_app; done).
  constructor; rewrite ?Hv; try lia.
  - rewrite E3, total_app. cbn. lia.
  - intros _. rewrite E4, length_snoc, decide_True by lia. done.
  - rewrite E5. destruct (N.eqb_spec r 0) as [->|]; rewrite (proj2 (N.eqb_neq _ _)) by lia; [rewrite vsize_app, Hoff; change (vsize [total_of ls]) with 1%N; cbn [N.eqb]; lia|done].
  - intros j. rewrite E5. destruct (N.eqb_spec r 0) as [->|Hr0].
    + rewrite vsize_app, vget_snoc. change (vsize [total_of ls]) with 1%N. case_decide as Hj; intros Hlt.
      * subst j. rewrite Hoff. cbn. rewrite offset_snoc by lia. rewrite offset_all by lia. done.
      * assert (j < q)%N by (cbn in Hoff; lia). rewrite Hoffs by lia. rewrite offset_snoc; [done|]. nia.
    + intros Hlt. rewrite Hoffs by done. rewrite offset_snoc; [done|]. nia.
  - rewrite E1. done.
  - intros j Hj. rewrite E1. destruct (Hbls j Hj) as (b & Hb & Hf). exists b. split; [done|]. apply block_from_snoc; [nia|done].
  - intros k Hk. rewrite E7 by lia. rewrite length_snoc, decide_False by lia. done.
Qed.

Lemma uadd_B : uadd B 1 = (B + 1)%N.
Proof. apply uadd_small. lia. Qed.

Lemma add_length_ok ls q r s l : built_from ls q r s -> Forall (fun x => x <= 255)%N ls -> (l <= 255)%N -> (total_of ls + l < 4294967296)%N ->
  exists s' q' r', add_length B s l = Some s' /\ built_from (ls ++ [l]) q' r' s'.
Proof.
  intros H HF Hl Htot. pose proof H as [Hsz Hidx Hsm Hsum Hlast Hoff Hoffs Hbl Hbls Hcur Hent]. unfold add_length. rewrite uadd_B, Hidx, Hsum.
  assert (forall i, length_at ls i <= 255)%N as Hle.
  { intros i. unfold length_at. destruct (vget ls i) as [x|] eqn:Hx; cbn; [|lia]. rewrite Forall_forall in HF. apply HF.
    rewrite vget_lookup in Hx. by eapply list_elem_of_lookup_2. }
  rewrite (uadd_small (total_of ls)) by done. rewrite (uadd_small r) by lia.
  destruct (N.eqb_spec r 0) as [->|Hr0].
  - cbn [mbind option_bind]. rewrite (proj2 (N.eqb_neq B 0)) by lia. rewrite N.mod_small by lia. eexists _, q, (0 + 1)%N. split; [done|].
    apply (built_snoc ls q 0 s l _ H Hl); try done; [lia|]. intros. lia.
  - rewrite usub_small by lia. rewrite vset_lt by lia. cbn [mbind option_bind].
    assert (length_at ls (vsize ls - 1) = length_at ls (q * (B + 1) + (r - 1)))%N as Hlen by (f_equal; lia).
    assert (forall k, (k < r)%N -> vget (<[N.to_nat (r - 1) := u8 (last_length s)]> (block s)) k = Some (length_at ls (q * (B + 1) + k))) as Hset.
    { intros k Hk. rewrite vget_insert. case_decide as Hd.
      - destruct Hd as [<- _]. rewrite Hlast, Hlen, u8_small by (try lia; apply Hle). done.
      - apply Hent. destruct (decide (k + 1 < r)%N); [done|]. exfalso. apply Hd. split; lia. }
    destruct (N.eqb_spec B r) as [HBr|HBr].
    + clear Hidx. subst r. replace ((B + 1) mod (B + 1))%N with 0%N by (symmetry; apply N.Div0.mod_same). eexists _, (q + 1)%N, 0%N. split; [done|]. assert (vsize (ls ++ [l]) = vsize ls + 1)%N as Hv by (rewrite vsize_app; done).
      constructor; cbn [rb_offsets rb_blocks last_length lengths_prefix_sum block_idx block]; rewrite ?Hv; try lia.
      * rewrite total_app. cbn. lia.
      * done.
      * intros j Hj. rewrite Hoffs by done. rewrite Hoff in Hj. rewrite offset_snoc; [done|]. nia.
      * rewrite vsize_app. change (vsize [<[N.to_nat (B - 1) := u8 (last_length s)]> (block s)]) with 1%N. lia.
      * intros j Hj. rewrite vget_snoc. case_decide as Hjq.
        -- eexists. split; [done|]. split; [by rewrite vsize_insert|]. intros k Hk. rewrite Hset by done. rewrite length_snoc, decide_False by lia.
           do 3 f_equal. lia.
        -- destruct (Hbls j) as (b & Hb & Hf); [lia|]. exists b. split; [done|]. apply block_from_snoc; [nia|done].
      * by rewrite vsize_insert.
    + rewrite N.mod_small by lia. eexists _, q, (r + 1)%N. split; [done|].
      apply (built_snoc ls q r s l _ H Hl); try done; [lia|by rewrite (proj2 (N.eqb_neq r 0))|cbn [block]; by rewrite vsize_insert].
Qed.

Lemma add_lengths_ok junk lengths : vsize junk = B -> Forall (fun x => x <= 255)%N lengths -> (total_of lengths < 4294967296)%N ->
  exists s q r, fold_m (add_length B) (MkRangeBuild [] [] 0 0 0 junk) lengths = Some s /\ built_from lengths q r s.
Proof.
  intros Hj HF Htot. destruct (fold_m_ind (add_length B) (fun ls s => exists q r, built_from ls q r s) lengths (MkRangeBuild [] [] 0 0 0 junk)) as (s & Hs & q & r & H).
  - exists 0%N, 0%N. constructor; cbn [rb_offsets rb_blocks last_length lengths_prefix_sum block_idx block]; try done; try lia; intros; change (vsize (@nil N)) with 0%N in *; lia.
  - intros pre x post s -> (q & r & H). apply Forall_app in HF as [HF1 HF2]. apply Forall_cons in HF2 as [Hx _]. rewrite total_app in Htot.
    change (total_of (x :: post)) with (x + total_of post)%N in Htot.
    destruct (add_length_ok pre q r s x H HF1 Hx ltac:(lia)) as (s' & q' & r' & Hs' & H'). exists s'. split; [done|]. by exists q', r'.
  - by exists s, q, r.
Qed.

(** The rest of the block is zero. *)
Lemma fill_block_ok fuel : forall idx last b, (1 <= idx <= B)%N -> (last <= 255)%N -> vsize b = B -> (N.to_nat (B - idx) + 2 <= fuel)%nat ->
  exists b', fill_block B fuel idx last b = Some b' /\ vsize b' = B /\
    forall k, (k < B)%N -> vget b' k = if (k + 1 <? idx)%N then vget b k else Some (if (k + 1 =? idx)%N then last else 0%N).
Proof.
  induction fuel as [|fuel IH]; intros idx last b Hi Hl Hb Hf; [lia|]. cbn [fill_block]. rewrite (proj2 (N.eqb_neq idx 0)) by lia.
  rewrite usub_small, vset_lt by lia. cbn [mbind option_bind]. rewrite uadd_B, uadd_small, u8_small by lia.
  assert (vsize (<[N.to_nat (idx - 1) := last]> b) = B) as Hsz by (by rewrite vsize_insert).
  assert (forall k, vget (<[N.to_nat (idx - 1) := last]> b) k = if (k + 1 =? idx)%N then Some last else vget b k) as Hget.
  { intros k. rewrite vget_insert. destruct (N.eqb_spec (k + 1) idx); [rewrite decide_True by lia|rewrite decide_False by lia]; done. }
  destruct (decide (idx = B)) as [->|Hne].
  - replace ((B + 1) mod (B + 1))%N with 0%N by (symmetry; apply N.Div0.mod_same). destruct fuel as [|fuel]; [lia|]. cbn [fill_block N.eqb].
    eexists. split; [done|]. split; [done|]. intros k Hk. rewrite Hget. destruct (N.eqb_spec (k + 1) B), (N.ltb_spec (k + 1) B); try lia; done.
  - rewrite N.mod_small by lia. destruct (IH (idx + 1)%N 0%N _ ltac:(lia) ltac:(lia) Hsz ltac:(lia)) as (b' & -> & Hb' & Hk').
    exists b'. split; [done|]. split; [done|]. intros k Hk. rewrite (Hk' k Hk), Hget.
    destruct (N.ltb_spec (k + 1) (idx + 1)), (N.eqb_spec (k + 1) (idx + 1)), (N.eqb_spec (k + 1) idx), (N.ltb_spec (k + 1) idx); try lia; done.
Qed.

Record table_ok (ls : list N) (t : RangeTable) : Prop := {
  to_offsets : vsize (block_offsets t) = (vsize ls / (B + 1) + 1)%N;
  to_blocks : vsize (diff_blocks t) = (vsize ls / (B + 1) + 1)%N;
  to_offset j : (j <= vsize ls / (B + 1))%N -> vget (block_offsets t) j = Some (offset_at ls (j * (B + 1)));
  to_block j : (j <= vsize ls / (B + 1))%N -> exists b, vget (diff_blocks t) j = Some b /\ block_from ls (j * (B + 1)) b;
  to_sum : sum_lengths t = total_of ls;
}.

Lemma table_make_ok junk ls : vsize junk = B -> Forall (fun x => x <= 255)%N ls -> (total_of ls < 4294967296)%N ->
  exists t, RangeTable_make B junk ls = Some t /\ table_ok ls t.
Proof.
  intros Hj HF Htot. destruct (add_lengths_ok junk ls Hj HF Htot) as (s & q & r & Hs & [Hsz Hidx Hsm Hsum Hlast Hoff Hoffs Hbl Hbls Hcur Hent]).
  unfold RangeTable_make. rewrite Hs. cbn [mbind option_bind]. rewrite Hidx.
  assert (vsize ls / (B + 1) = q)%N as Hq by (rewrite Hsz, N.add_comm, N.div_add, N.div_small by lia; lia).
  set (offsets := if (r =? 0)%N then rb_offsets s ++ [lengths_prefix_sum s] else rb_offsets s). set (idx := if (r =? 0)%N then 1%N else r).
  set (lst := if (r =? 0)%N then 0%N else last_length s).
  assert ((if (r =? 0)%N then (rb_offsets s ++ [lengths_prefix_sum s], 1, 0)%N else (rb_offsets s, r, last_length s)) = (offsets, idx, lst)) as ->
    by (unfold offsets, idx, lst; by destruct (r =? 0)%N).
  assert (lst <= 255)%N as Hl.
  { unfold lst. destruct (N.eqb_spec r 0); [lia|]. rewrite Hlast by lia. unfold length_at. destruct (vget ls (vsize ls - 1)) as [x|] eqn:Hx; cbn; [|lia].
    rewrite Forall_forall in HF. apply HF. rewrite vget_lookup in Hx. by eapply list_elem_of_lookup_2. }
  destruct (fill_block_ok (S (N.to_nat B + 1)) idx lst (block s)) as (b & -> & Hb & Hbk); [unfold idx; destruct (N.eqb_spec r 0); lia|done|done|unfold idx; destruct (N.eqb_spec r 0); lia|].
  cbn [mbind option_bind]. eexists. split; [done|]. constructor; cbn [block_offsets diff_blocks sum_lengths]; rewrite ?Hq, ?Hsum.
  - unfold offsets. destruct (N.eqb_spec r 0); [|done]. rewrite vsize_app, Hoff. done.
  - rewrite vsize_app, Hbl. done.
  - intros j Hjq. unfold offsets. destruct (N.eqb_spec r 0) as [Hr|]; [|apply Hoffs; lia]. rewrite vget_snoc. case_decide as Hd; [|apply Hoffs; lia].
    rewrite Hd, Hoff, Hsum, offset_all by lia. done.
  - intros j Hjq. rewrite vget_snoc. case_decide as Hd; [|apply Hbls; lia]. exists b. split; [done|]. split; [done|]. intros k Hk. rewrite Hbk by done.
    rewrite Hbl in Hd. subst j. unfold idx, lst. destruct (N.eqb_spec r 0) as [->|Hr].
    + rewrite (proj2 (N.ltb_ge (k + 1) 1)) by lia. rewrite length_past by lia. by destruct (_ =? _)%N.
    + destruct (N.ltb_spec (k + 1) r); [by apply Hent|]. destruct (N.eqb_spec (k + 1) r); [|by rewrite length_past by lia].
      rewrite Hlast by lia. do 2 f_equal. lia.
  - done.
Qed.

Lemma prefix_sum_ok ls base b n : block_from ls base b -> (n < B)%N -> (total_of ls < 4294967296)%N ->
  PrefixSumAtIndex n b = Some (offset_at ls (base + n + 1) - offset_at ls base)%N.
Proof.
  intros [Hb Hk] Hn Htot. unfold PrefixSumAtIndex.
  destruct (fold_m_irange (fun sum i => x ← vget b i; Some (uadd sum x)) (fun i sum => offset_at ls (base + i) = offset_at ls base + sum)%N 0 (n + 1) 0%N)
    as (sum & Hs & Hsum); [lia|lia|by rewrite !N.add_0_r| |].
  - intros i sum Hi Hsum. rewrite Hk by lia. cbn [mbind option_bind]. pose proof (offset_next ls (base + i)) as Hnext. pose proof (offset_le ls (base + i + 1)).
    eexists. split; [done|]. rewrite uadd_small by lia. rewrite N.add_assoc. lia.
  - rewrite Hs. f_equal. rewrite N.add_assoc in Hsum. lia.
Qed.

(** A range goes from one offset to the next. *)
Lemma get_range_ok ls t id : table_ok ls t -> (id < vsize ls)%N -> (vsize ls < 4294967296)%N -> (total_of ls < 4294967296)%N ->
  GetRange B id t = Some (offset_at ls id, offset_at ls (id + 1)).
Proof.
  intros [H1 H2 H3 H4 H5] Hid Hsz Htot. unfold GetRange. rewrite uadd_B. set (r := (id mod (B + 1))%N). set (q := (id / (B + 1))%N).
  assert (id = q * (B + 1) + r)%N as Hqr by (unfold q, r; pose proof (N.div_mod id (B + 1)); lia).
  assert (r < B + 1)%N as Hr by (unfold r; apply N.mod_lt; lia).
  assert (q <= vsize ls / (B + 1))%N as Hq by (apply N.Div0.div_le_mono; lia).
  rewrite (H3 q Hq). destruct (H4 q Hq) as (b & Hb & Hbf). rewrite Hb. cbn [mbind option_bind].
  assert ((if (0 <? r)%N then sum ← PrefixSumAtIndex (r - 1) b; Some (uadd (offset_at ls (q * (B + 1))) sum) else Some (offset_at ls (q * (B + 1)))) =
    Some (offset_at ls id)) as ->.
  { destruct (N.ltb_spec 0 r) as [Hr0|Hr0]; [|f_equal; f_equal; lia]. rewrite (prefix_sum_ok ls (q * (B + 1)) b (r - 1)) by (done || lia). cbn [mbind option_bind].
    replace (q * (B + 1) + (r - 1) + 1)%N with id by lia. pose proof (offset_mono ls (q * (B + 1)) id ltac:(lia)). pose proof (offset_le ls id).
    rewrite uadd_small by lia. f_equal. lia. }
  cbn [mbind option_bind]. destruct (N.ltb_spec r B) as [HrB|HrB].
  - destruct Hbf as [_ Hk]. rewrite Hk by done. cbn [mbind option_bind]. rewrite <- Hqr. pose proof (offset_le ls (id + 1)) as Hle.
    rewrite offset_next in Hle |- *. rewrite uadd_small by lia. done.
  - assert (r = B) as HrB' by lia. assert (id + 1 = (q + 1) * (B + 1))%N as Hid1 by lia.
    assert (q + 1 <= vsize ls / (B + 1))%N as Hq1 by (apply N.div_le_lower_bound; lia).
    rewrite uadd_small by (pose proof (N.Div0.div_le_upper_bound (vsize ls) (B + 1) (vsize ls) ltac:(nia)); lia). rewrite H3 by done. cbn [mbind option_bind]. by rewrite Hid1.
Qed.
End build.

(** ** The file *)

Lemma concat_bind {A} (l : list (list A)) : concat l = l ≫= (fun b => b).
Proof. induction l as [|b l IH]; [done|]. rewrite bind_cons. cbn [concat]. by rewrite IH. Qed.

Lemma read_table_ok B t s : vsize (block_offsets t) = vsize (diff_blocks t) -> (vsize (diff_blocks t) < 4294967296)%N -> (sum_lengths t < 4294967296)%N ->
  Forall (fun x => x < 4294967296)%N (block_offsets t) -> Forall (fun b => vsize b = B) (diff_blocks t) ->
  read_table B (write_table t ++ s) = Some (t, s).
Proof.
  intros Hsz Hb Hs Ho HB. rewrite Forall_forall in Ho. rewrite Forall_forall in HB. unfold read_table, write_table. rewrite <- !app_assoc, u32_small by done.
  do 2 (rewrite read_le32 by done; cbn [mbind option_bind]).
  replace (N.to_nat (vsize (diff_blocks t))) with (length (block_offsets t)) at 1 by (unfold vsize in *; lia).
  rewrite (read_many_ok read_word le32 id) by (intros x s' Hx; by apply read_le32, Ho). cbn [mbind option_bind]. rewrite list_fmap_id.
  replace (N.to_nat (vsize (diff_blocks t))) with (length (diff_blocks t)) by (unfold vsize; lia). rewrite concat_bind.
  assert (forall b s', b ∈ diff_blocks t -> read_chars (N.to_nat B) (b ++ s') = Some (b, s')) as Hrd.
  { intros b s' Hx. apply read_chars_ok. pose proof (HB b Hx) as Hv. cbv beta in Hv. unfold vsize in Hv. lia. }
  rewrite (read_many_ok (read_chars (N.to_nat B)) (fun b => b) id) by (intros; by apply Hrd).
  cbn [mbind option_bind]. rewrite list_fmap_id. by destruct t.
Qed.

Definition short_name (name : list N) : list N := take (N.to_nat (name_length name)) name.

Lemma short_length name : (vsize name < 4294967296)%N -> vsize (short_name name) = name_length name.
Proof. intros Hn. unfold short_name, name_length. rewrite u32_small by done. unfold vsize in *. rewrite length_take. lia. Qed.

Lemma total_lengths L : Forall (fun name => vsize name < 4294967296)%N L -> vsize (concat (short_name <$> L)) = total_of (name_length <$> L).
Proof.
  intros HF. induction HF as [|name L Hn HF IH]; [done|]. cbn [fmap list_fmap concat]. rewrite vsize_app, short_length, IH by done. done.
Qed.

(** The characters of a name are between its offsets. *)
Lemma name_chars L i name rest : Forall (fun name => vsize name < 4294967296)%N L -> L !! i = Some name ->
  let ls := name_length <$> L in
  take (N.to_nat (offset_at ls (N.of_nat i + 1) - offset_at ls (N.of_nat i))) (drop (N.to_nat (offset_at ls (N.of_nat i))) (concat (short_name <$> L) ++ rest)) = short_name name.
Proof.
  intros HF Hi ls. pose proof (Forall_lookup_1 _ _ _ _ HF Hi) as Hn. cbn in Hn.
  assert (length_at ls (N.of_nat i) = name_length name) as Hlen.
  { unfold length_at, ls. rewrite vget_lookup, Nat2N.id, list_lookup_fmap, Hi. done. }
  rewrite offset_next, Hlen. replace (offset_at ls (N.of_nat i) + name_length name - offset_at ls (N.of_nat i))%N with (name_length name) by lia.
  assert (N.to_nat (offset_at ls (N.of_nat i)) = length (concat (short_name <$> take i L))) as ->.
  { unfold offset_at, ls. rewrite Nat2N.id, <- fmap_take, <- total_lengths by (by apply Forall_take). unfold vsize. lia. }
  rewrite <- (take_drop_middle L i name Hi) at 2. rewrite fmap_app, concat_app, <- app_assoc, drop_app_length. cbn [fmap list_fmap concat]. rewrite <- app_assoc.
  rewrite <- short_length by done. unfold vsize. rewrite Nat2N.id. apply take_app_length.
Qed.

Lemma foldl_total ls : forall a, (a + total_of ls < 4294967296)%N -> foldl uadd a ls = (a + total_of ls)%N.
Proof.
  induction ls as [|x ls IH]; intros a Ha; cbn [foldl]; [cbn; lia|]. change (total_of (x :: ls)) with (x + total_of ls)%N in *.
  rewrite uadd_small, IH by lia. lia.
Qed.

Lemma names_table_ok junk names : vsize junk = NAME_BLOCK_SIZE -> (total_of (name_length <$> names) < 4294967296)%N ->
  exists t, RangeTable_make NAME_BLOCK_SIZE junk (name_length <$> names) = Some t /\ table_ok NAME_BLOCK_SIZE (name_length <$> names) t.
Proof.
  intros Hj Htot. apply table_make_ok; try done. apply Forall_forall. intros x (y & -> & _)%list_elem_of_fmap. unfold name_length. lia.
Qed.

Lemma write_names_total junk names : vsize junk = NAME_BLOCK_SIZE -> (total_of (name_length <$> names) < 4294967296)%N ->
  is_Some (write_names junk names).
Proof. intros Hj Htot. destruct (names_table_ok junk names Hj Htot) as (t & Ht & _). unfold write_names. rewrite Ht. by eexists. Qed.

(** ** Properties *)


Definition sample_names : list (list N) := [[]; [72; 97]; [66; 101; 114; 103]]%N.

