(* ===== verification/Extraction.v ===== *)
(** * Extractor/ExtractorCallbacks.cpp and Extractor/ExtractionContainers.cpp

    The parsers hand nodes, ways and restrictions to the callbacks, which
    collect them in containers. [PrepareData] joins the containers by sorting
    and scanning them, and writes the files of roads, restrictions and names.
    The C math library, which the distances are computed with, and the sorting
    routines are arguments. *)

From Stdlib Require Import Floats.SpecFloat.
From S2P Require Import Prelude Types Float32 Edges DynamicGraph Text Geometry Hsgr Restrictions NodeBasedGraph EdgeExpansion Names.

(** ** Records *)

Record ExternalMemoryNode := MkMemoryNode { mn_lat : Z; mn_lon : Z; mn_node_id : N; bollard : bool; trafficLight : bool }.

Record WayIDStartAndEndEdge := MkWayEnds { wayID : N; firstStart : N; firstTarget : N; lastStart : N; lastTarget : N }.

(** [ExtractionWay::Directions]; the edges keep the direction as a [short]. *)
Definition notSure : Z := 0.
Definition oneway : Z := 1.
Definition bidirectional : Z := 2.
Definition opposite_way : Z := 3.

Record InternalExtractorEdge := MkExtractorEdge {
  xe_start : N; xe_target : N; xe_direction : Z; xe_speed : double; xe_name_id : N; xe_is_roundabout : bool; xe_is_in_tiny_cc : bool;
  xe_is_duration_set : bool; xe_is_access_restricted : bool; xe_travel_mode : N; xe_is_split : bool;
  xe_source_coordinate : FixedPointCoordinate; xe_target_coordinate : FixedPointCoordinate }.

(** The constructor leaves the coordinates unset. *)
Definition InternalExtractorEdge_make (start target : N) (direction : Z) (speed : double) (name_id : N)
    (is_roundabout is_in_tiny_cc is_duration_set is_access_restricted : bool) (travel_mode : N) (is_split : bool) : InternalExtractorEdge :=
  MkExtractorEdge start target direction speed name_id is_roundabout is_in_tiny_cc is_duration_set is_access_restricted
    (ubits 4 travel_mode) is_split coordinate_default coordinate_default.

Record ExtractionWay := MkExtractionWay {
  ew_id : N; ew_nameID : N; ew_forward_speed : double; ew_backward_speed : double; ew_duration : double; ew_name : str;
  ew_roundabout : bool; ew_isAccessRestricted : bool; ew_ignoreInGrid : bool; ew_path : list N;
  ew_forward_travel_mode : N; ew_backward_travel_mode : N }.

(** [Clear]; the tags and the [access] flag are read by the profile only. *)
Definition ExtractionWay_Clear (name : str) : ExtractionWay :=
  let unset := double_of_int (-1) in
  MkExtractionWay SPECIAL_NODEID INVALID_NAMEID unset unset unset name false false false [] TRAVEL_MODE_DEFAULT TRAVEL_MODE_DEFAULT.

Definition with_modes (forward backward : N) (w : ExtractionWay) : ExtractionWay :=
  MkExtractionWay (ew_id w) (ew_nameID w) (ew_forward_speed w) (ew_backward_speed w) (ew_duration w) (ew_name w) (ew_roundabout w)
    (ew_isAccessRestricted w) (ew_ignoreInGrid w) (ew_path w) forward backward.

Definition set_direction (m : Z) (w : ExtractionWay) : ExtractionWay :=
  if (oneway =? m)%Z then with_modes TRAVEL_MODE_DEFAULT TRAVEL_MODE_INACCESSIBLE w
  else if (opposite_way =? m)%Z then with_modes TRAVEL_MODE_INACCESSIBLE TRAVEL_MODE_DEFAULT w
  else if (bidirectional =? m)%Z then with_modes TRAVEL_MODE_DEFAULT TRAVEL_MODE_DEFAULT w
  else w.

Definition get_direction (w : ExtractionWay) : Z :=
  let forward := negb (TRAVEL_MODE_INACCESSIBLE =? ew_forward_travel_mode w)%N in
  let backward := negb (TRAVEL_MODE_INACCESSIBLE =? ew_backward_travel_mode w)%N in
  if forward && backward then bidirectional
  else if forward then oneway
  else if backward then opposite_way
  else notSure.

Record ExtractionContainers := MkContainers {
  used_node_id_list : list N; all_nodes_list : list ExternalMemoryNode; all_edges_list : list InternalExtractorEdge;
  name_list : list str; restrictions_list : list InputRestrictionContainer; way_start_end_id_list : list WayIDStartAndEndEdge }.

Definition ExtractionContainers_make : ExtractionContainers := MkContainers [] [] [] [[]] [] [].

(** ** Callbacks *)

(** The limits are [float]s, and so are both sides of the comparisons. *)
Definition ProcessNode (n : ExternalMemoryNode) (c : ExtractionContainers) : ExtractionContainers :=
  let limit z := fmul (float_of_int z) (float_of_int COORDINATE_PRECISION) in
  if SFleb (float_of_int (mn_lat n)) (limit 85%Z) && SFleb (limit (-85)%Z) (float_of_int (mn_lat n))
  then MkContainers (used_node_id_list c) (all_nodes_list c ++ [n]) (all_edges_list c) (name_list c) (restrictions_list c) (way_start_end_id_list c)
  else c.

Definition ProcessRestriction (r : InputRestrictionContainer) (c : ExtractionContainers) : ExtractionContainers :=
  MkContainers (used_node_id_list c) (all_nodes_list c) (all_edges_list c) (name_list c) (restrictions_list c ++ [r]) (way_start_end_id_list c).

(** The id of a name; a new name is added to the list and the map. *)
Definition name_id_of (name : str) (string_map : gmap str N) (names : list str) : N * gmap str N * list str :=
  match string_map !! name with
  | None => let id := u32 (vsize names) in (id, <[name := id]> string_map, names ++ [name])
  | Some id => (id, string_map, names)
  end.

(** An edge for every two nodes that follow each other on the path. *)
Fixpoint path_edges (edge : N -> N -> InternalExtractorEdge) (path : list N) : list InternalExtractorEdge :=
  match path with
  | a :: ((b :: _) as path') => edge a b :: path_edges edge path'
  | _ => []
  end.

Definition way_ends (id : N) (path : list N) : option WayIDStartAndEndEdge :=
  a ← vget path 0; b ← vget path 1; c ← vget path (vsize path - 2); d ← vback path;
  Some (MkWayEnds id a b c d).

(** The way is a reference argument; its changes are returned. *)
Definition ProcessWay (w : ExtractionWay) (string_map : gmap str N) (c : ExtractionContainers)
    : option (ExtractionWay * gmap str N * ExtractionContainers) :=
  let unusable speed mode := SFleb speed dzero || (TRAVEL_MODE_INACCESSIBLE =? mode)%N in
  if unusable (ew_forward_speed w) (ew_forward_travel_mode w) && unusable (ew_backward_speed w) (ew_backward_travel_mode w) &&
     SFleb (ew_duration w) dzero then Some (w, string_map, c)
  else if (vsize (ew_path w) <=? 1)%N then Some (w, string_map, c)
  else if (UINT_MAX =? ew_id w)%N then Some (w, string_map, c)
  else
    let per_segment := ddiv (ew_duration w) (double_of_int (Z.of_N (vsize (ew_path w) - 1))) in
    let '(forward_speed, backward_speed) :=
      if SFltb dzero (ew_duration w) then (per_segment, per_segment) else (ew_forward_speed w, ew_backward_speed w) in
    let with_speeds name_id path forward_mode backward_mode :=
      MkExtractionWay (ew_id w) name_id forward_speed backward_speed (ew_duration w) (ew_name w) (ew_roundabout w) (ew_isAccessRestricted w)
        (ew_ignoreInGrid w) path forward_mode backward_mode in
    if SFleb (SFabs (dsub (double_of_int (-1)) forward_speed)) double_epsilon
    then Some (with_speeds (ew_nameID w) (ew_path w) (ew_forward_travel_mode w) (ew_backward_travel_mode w), string_map, c)
    else
      let '(name_id, string_map', names) := name_id_of (ew_name w) string_map (name_list c) in
      let '(path, forward_mode, backward_mode) :=
        if (TRAVEL_MODE_INACCESSIBLE =? ew_forward_travel_mode w)%N
        then (rev (ew_path w), ew_backward_travel_mode w, TRAVEL_MODE_INACCESSIBLE)
        else (ew_path w, ew_forward_travel_mode w, ew_backward_travel_mode w) in
      let split_edge :=
        SFltb dzero forward_speed && negb (TRAVEL_MODE_INACCESSIBLE =? forward_mode)%N &&
        SFltb dzero backward_speed && negb (TRAVEL_MODE_INACCESSIBLE =? backward_mode)%N &&
        (negb (SFeqb forward_speed backward_speed) || negb (forward_mode =? backward_mode)%N) in
      let edge direction speed mode a b :=
        InternalExtractorEdge_make a b direction speed name_id (ew_roundabout w) (ew_ignoreInGrid w) (SFltb dzero (ew_duration w))
          (ew_isAccessRestricted w) mode split_edge in
      let edges := path_edges (edge (if split_edge || (TRAVEL_MODE_INACCESSIBLE =? backward_mode)%N then oneway else bidirectional)
        forward_speed forward_mode) path in
      ends ← way_ends (ew_id w) path;
      if split_edge then
        let back := rev path in
        ends_back ← way_ends (ew_id w) back;
        Some (with_speeds name_id back forward_mode backward_mode, string_map',
          MkContainers (used_node_id_list c ++ path) (all_nodes_list c)
            (all_edges_list c ++ edges ++ path_edges (edge oneway backward_speed backward_mode) back) names (restrictions_list c)
            (way_start_end_id_list c ++ [ends; ends_back]))
      else
        Some (with_speeds name_id path forward_mode backward_mode, string_map',
          MkContainers (used_node_id_list c ++ path) (all_nodes_list c) (all_edges_list c ++ edges) names (restrictions_list c)
            (way_start_end_id_list c ++ [ends])).

(** ** PrepareData *)

(** Both lists are scanned in the order of their keys; an element of the second
    one is changed if the first one has an element with its key. *)
Definition merge_scan {A B} (key_a : A -> N) (key_b : B -> N) (change : A -> B -> B) : list A -> list B -> list B :=
  fix scan (la : list A) : list B -> list B :=
    match la with
    | [] => fun lb => lb
    | a :: la' =>
        fix scan_b (lb : list B) : list B :=
          match lb with
          | [] => []
          | b :: lb' =>
              if (key_a a <? key_b b)%N then scan la' (b :: lb')
              else if (key_b b <? key_a a)%N then b :: scan_b lb'
              else change a b :: scan_b lb'
          end
    end.

Definition set_from_node (x : N) (r : InputRestrictionContainer) : InputRestrictionContainer :=
  let t := ir_restriction r in
  MkInputRestriction (fromWay r) (toWay r) (ir_viaNode r) (MkTurnRestriction (viaNode t) x (toNode t) (isOnly t)).

Definition set_to_node (x : N) (r : InputRestrictionContainer) : InputRestrictionContainer :=
  let t := ir_restriction r in
  MkInputRestriction (fromWay r) (toWay r) (ir_viaNode r) (MkTurnRestriction (viaNode t) (fromNode t) x (isOnly t)).

Definition fix_start (w : WayIDStartAndEndEdge) (r : InputRestrictionContainer) : InputRestrictionContainer :=
  let via_node_id := viaNode (ir_restriction r) in
  if (firstStart w =? via_node_id)%N then set_from_node (firstTarget w) r
  else if (firstTarget w =? via_node_id)%N then set_from_node (firstStart w) r
  else if (lastStart w =? via_node_id)%N then set_from_node (lastTarget w) r
  else if (lastTarget w =? via_node_id)%N then set_from_node (lastStart w) r
  else r.

Definition fix_end (w : WayIDStartAndEndEdge) (r : InputRestrictionContainer) : InputRestrictionContainer :=
  let via_node_id := viaNode (ir_restriction r) in
  if (lastStart w =? via_node_id)%N then set_to_node (lastTarget w) r
  else if (lastTarget w =? via_node_id)%N then set_to_node (lastStart w) r
  else if (firstStart w =? via_node_id)%N then set_to_node (firstTarget w) r
  else if (firstTarget w =? via_node_id)%N then set_to_node (firstStart w) r
  else r.

Definition usable (r : InputRestrictionContainer) : bool :=
  negb (UINT_MAX =? fromNode (ir_restriction r))%N && negb (UINT_MAX =? toNode (ir_restriction r))%N.

(** The second scan counts the usable restrictions it visits. *)
Definition count_usable : list WayIDStartAndEndEdge -> list InputRestrictionContainer -> N :=
  fix scan (lw : list WayIDStartAndEndEdge) : list InputRestrictionContainer -> N :=
    match lw with
    | [] => fun _ => 0%N
    | w :: lw' =>
        fix scan_r (lr : list InputRestrictionContainer) : N :=
          match lr with
          | [] => 0%N
          | r :: lr' =>
              if (wayID w <? toWay r)%N then scan lw' (r :: lr')
              else if (toWay r <? wayID w)%N then scan_r lr'
              else if usable (fix_end w r) then uadd 1 (scan_r lr') else scan_r lr'
          end
    end.

(** [sizeof(TurnRestriction)] and [sizeof(ExternalMemoryNode)] are 16; their
    padding is taken to be zero. *)
Definition restriction_bytes (t : TurnRestriction) : list N :=
  le32 (viaNode t) ++ le32 (fromNode t) ++ le32 (toNode t) ++ [bit (isOnly t); 0; 0; 0]%N.

Definition node_bytes (n : ExternalMemoryNode) : list N :=
  le32 (of_int (mn_lat n)) ++ le32 (of_int (mn_lon n)) ++ le32 (mn_node_id n) ++ [bit (bollard n); bit (trafficLight n); 0; 0]%N.

(** The nodes whose id is used, by a scan of two sorted lists. *)
Definition used_nodes : list N -> list ExternalMemoryNode -> list ExternalMemoryNode :=
  fix scan (ids : list N) : list ExternalMemoryNode -> list ExternalMemoryNode :=
    match ids with
    | [] => fun _ => []
    | id :: ids' =>
        fix scan_n (nodes : list ExternalMemoryNode) : list ExternalMemoryNode :=
          match nodes with
          | [] => []
          | n :: nodes' =>
              if (id <? mn_node_id n)%N then scan ids' (n :: nodes')
              else if (mn_node_id n <? id)%N then scan_n nodes'
              else n :: scan ids' nodes'
          end
    end.

Definition set_source (n : ExternalMemoryNode) (e : InternalExtractorEdge) : InternalExtractorEdge :=
  MkExtractorEdge (xe_start e) (xe_target e) (xe_direction e) (xe_speed e) (xe_name_id e) (xe_is_roundabout e) (xe_is_in_tiny_cc e)
    (xe_is_duration_set e) (xe_is_access_restricted e) (xe_travel_mode e) (xe_is_split e) (MkCoordinate (mn_lat n) (mn_lon n)) (xe_target_coordinate e).

Section prepare.
  Context (math : c_math).

(** The length and the weight of an edge that ends at [n]. *)
Definition edge_length_weight (e : InternalExtractorEdge) (n : ExternalMemoryNode) : option (Z * Z) :=
  let distance := to_double (ApproximateEuclideanDistance math (lat (xe_source_coordinate e)) (lon (xe_source_coordinate e)) (mn_lat n) (mn_lon n)) in
  let weight := ddiv (dmul distance (double_of_int 10)) (ddiv (xe_speed e) (S754_finite false 8106479329266893 (-51))) in
  integer_weight ← floor_int (dadd (if xe_is_duration_set e then xe_speed e else weight) (S754_finite false 4503599627370496 (-53)));
  integer_distance ← truncate distance;
  Some (Z.max 1 integer_distance, Z.max 1 integer_weight).

(** The code for the direction; any other value throws an exception. *)
Definition direction_code (direction : Z) : option N :=
  if (direction =? notSure)%Z then Some 0%N
  else if (direction =? oneway)%Z then Some 1%N
  else if (direction =? bidirectional)%Z then Some 0%N
  else if (direction =? opposite_way)%Z then Some 1%N
  else None.

Definition le16 (x : N) : list N := [x mod 256; x / 256 mod 256]%N.

Definition road_bytes (e : InternalExtractorEdge) (integer_distance : Z) (dir : N) (integer_weight : Z) : list N :=
  le32 (xe_start e) ++ le32 (xe_target e) ++ le32 (of_int integer_distance) ++ le16 dir ++ le32 (of_int integer_weight) ++
  le32 (xe_name_id e) ++ [bit (xe_is_roundabout e); bit (xe_is_in_tiny_cc e); bit (xe_is_access_restricted e);
    xe_travel_mode e; bit (xe_is_split e)].

(** The bytes of an edge, if its start is known. *)
Definition write_road (n : ExternalMemoryNode) (e : InternalExtractorEdge) : option (option (list N)) :=
  if negb (lat (xe_source_coordinate e) =? INT_MIN)%Z && negb (lon (xe_source_coordinate e) =? INT_MIN)%Z then
    '(integer_distance, integer_weight) ← edge_length_weight e n;
    dir ← direction_code (xe_direction e);
    Some (Some (road_bytes e integer_distance dir integer_weight))
  else Some None.

(** The scan that writes the edges. The target coordinates that it sets are
    not read again. *)
Definition write_roads : list ExternalMemoryNode -> list InternalExtractorEdge -> option (list (list N)) :=
  fix scan (nodes : list ExternalMemoryNode) : list InternalExtractorEdge -> option (list (list N)) :=
    match nodes with
    | [] => fun _ => Some []
    | n :: nodes' =>
        fix scan_e (es : list InternalExtractorEdge) : option (list (list N)) :=
          match es with
          | [] => Some []
          | e :: es' =>
              if (xe_target e <? mn_node_id n)%N then scan_e es'
              else if (mn_node_id n <? xe_target e)%N then scan nodes' (e :: es')
              else
                written ← write_road n e;
                rest ← scan_e es';
                Some (match written with Some bytes => bytes :: rest | None => rest end)
          end
    end.

Context (sort_ids_disk : list N -> list N) (sort_nodes : list ExternalMemoryNode -> list ExternalMemoryNode)
  (sort_ways : list WayIDStartAndEndEdge -> list WayIDStartAndEndEdge)
  (sort_by_from sort_by_to : list InputRestrictionContainer -> list InputRestrictionContainer)
  (sort_by_start sort_by_target : list InternalExtractorEdge -> list InternalExtractorEdge).

(** The files of the roads, of the restrictions and of the names. An exception
    leaves the files incomplete and is not followed further. *)
Definition PrepareData (fingerprint : FingerPrint) (junk : list N) (c : ExtractionContainers) : option (list N * list N * list N) :=
  let used := unique (sort_ids_disk (used_node_id_list c)) in
  let nodes := sort_nodes (all_nodes_list c) in
  let ways := sort_ways (way_start_end_id_list c) in
  let by_from := merge_scan wayID fromWay fix_start ways (sort_by_from (restrictions_list c)) in
  let by_to := sort_by_to by_from in
  let number_of_useable_restrictions := count_usable ways by_to in
  let restrictions := merge_scan wayID toWay fix_end ways by_to in
  let restrictions_file := fingerprint_bytes fingerprint ++ le32 number_of_useable_restrictions ++
    (filter (fun r => usable r = true) restrictions ≫= fun r => restriction_bytes (ir_restriction r)) in
  let written_nodes := used_nodes used nodes in
  let es := merge_scan mn_node_id xe_start set_source nodes (sort_by_start (all_edges_list c)) in
  written_edges ← write_roads nodes (sort_by_target es);
  names_file ← write_names junk (name_list c);
  Some (fingerprint_bytes fingerprint ++ le32 (u32 (vsize written_nodes)) ++ (written_nodes ≫= node_bytes) ++
          le32 (u32 (vsize written_edges)) ++ concat written_edges,
        restrictions_file, names_file).
End prepare.

Lemma direction_roundtrip m w : m <> notSure -> (notSure <= m <= opposite_way)%Z -> get_direction (set_direction m w) = m.
Proof. intros Hm Hr. assert (m = 1 \/ m = 2 \/ m = 3)%Z as [->|[->| ->]] by (unfold notSure, opposite_way in *; lia); reflexivity. Qed.

(** ** The calls of the parsers *)

Inductive callback := NodeCall (n : ExternalMemoryNode) | WayCall (w : ExtractionWay) | RestrictionCall (r : InputRestrictionContainer).

Definition run_callback (s : gmap str N * ExtractionContainers) (call : callback) : option (gmap str N * ExtractionContainers) :=
  let '(string_map, c) := s in
  match call with
  | NodeCall n => Some (string_map, ProcessNode n c)
  | WayCall w => '(_, string_map', c') ← ProcessWay w string_map c; Some (string_map', c')
  | RestrictionCall r => Some (string_map, ProcessRestriction r c)
  end.

(** The empty name has the id 0 from the start. *)
Definition run_callbacks : list callback -> option (gmap str N * ExtractionContainers) :=
  fold_m run_callback ({[ [] := 0%N ]}, ExtractionContainers_make).

(** ** Scans of sorted lists *)

(** The first element with a key. *)
Definition with_id {A} (key : A -> N) (l : list A) (k : N) : option A := head (filter (fun a => key a = k) l).

Abbreviation sorted_by key := (StronglySorted (fun a b => (key a <= key b)%N)).

Section scans.
  Context {A : Type} (key : A -> N).
  Implicit Types (l : list A) (a : A) (k : N).

Lemma with_id_skip a l k : key a <> k -> with_id key (a :: l) k = with_id key l k.
Proof. intros Ha. unfold with_id. by rewrite filter_cons_False. Qed.

Lemma with_id_here a l : with_id key (a :: l) (key a) = Some a.
Proof. unfold with_id. by rewrite filter_cons_True. Qed.

Lemma with_id_less a l k : Forall (fun x => key a <= key x)%N l -> (k < key a)%N -> with_id key (a :: l) k = None.
Proof.
  intros HF Hk. rewrite with_id_skip by lia. unfold with_id. destruct (filter _ l) as [|x m] eqn:E; [done|].
  assert (x ∈ filter (fun a => key a = k) l) as [Hx Hin]%list_elem_of_filter by (rewrite E; by left).
  rewrite Forall_forall in HF. specialize (HF x Hin). cbn in HF. lia.
Qed.

Lemma with_id_Some l k a : with_id key l k = Some a -> a ∈ l /\ key a = k.
Proof.
  unfold with_id. intros H. apply head_Some_elem_of in H. apply list_elem_of_filter in H as [? ?]. done.
Qed.

Lemma with_id_None l k : with_id key l k = None <-> Forall (fun a => key a <> k) l.
Proof.
  unfold with_id. induction l as [|a l IH]; [done|]. rewrite Forall_cons. destruct (decide (key a = k)).
  - rewrite filter_cons_True by done. naive_solver.
  - rewrite filter_cons_False by done. naive_solver.
Qed.

(** With different keys the order of the list does not matter. *)
Lemma with_id_nodup l k a : NoDup (key <$> l) -> with_id key l k = Some a <-> a ∈ l /\ key a = k.
Proof.
  intros Hnd. split; [apply with_id_Some|]. intros [Hin <-]. induction l as [|x l IH]; [by apply elem_of_nil in Hin|].
  rewrite fmap_cons, NoDup_cons in Hnd. destruct Hnd as [Hx Hnd]. apply elem_of_cons in Hin as [->|Hin]; [apply with_id_here|].
  rewrite with_id_skip; [by apply IH|]. intros Heq. apply Hx. rewrite Heq. by apply list_elem_of_fmap_2.
Qed.
End scans.

Lemma merge_scan_cons {A B} (key_a : A -> N) (key_b : B -> N) change a la b lb : merge_scan key_a key_b change (a :: la) (b :: lb) =
  if (key_a a <? key_b b)%N then merge_scan key_a key_b change la (b :: lb)
  else (if (key_b b <? key_a a)%N then b else change a b) :: merge_scan key_a key_b change (a :: la) lb.
Proof. cbn. by destruct (_ <? _)%N, (key_b b <? key_a a)%N. Qed.

Lemma merge_scan_map {A B} (key_a : A -> N) (key_b : B -> N) change la lb : sorted_by key_a la -> sorted_by key_b lb ->
  merge_scan key_a key_b change la lb = (fun b => match with_id key_a la (key_b b) with Some a => change a b | None => b end) <$> lb.
Proof.
  intros Ha. revert lb. induction Ha as [|a la Ha IH HFa]; intros lb Hb; [symmetry; apply list_fmap_id|].
  induction Hb as [|b lb Hb IHb HFb]; [done|]. rewrite merge_scan_cons. destruct (N.ltb_spec (key_a a) (key_b b)) as [Hlt|Hge].
  - rewrite IH by (by constructor). apply list_fmap_ext. intros i x Hx%list_elem_of_lookup_2. rewrite with_id_skip; [done|].
    apply elem_of_cons in Hx as [->|Hx]; [lia|]. rewrite Forall_forall in HFb. specialize (HFb x Hx). cbn in HFb. lia.
  - rewrite fmap_cons, IHb.
    destruct (N.ltb_spec (key_b b) (key_a a)); f_equal; [by rewrite with_id_less|].
    replace (key_b b) with (key_a a) by lia. by rewrite with_id_here.
Qed.

Lemma used_nodes_cons id ids n nodes : used_nodes (id :: ids) (n :: nodes) =
  if (id <? mn_node_id n)%N then used_nodes ids (n :: nodes)
  else if (mn_node_id n <? id)%N then used_nodes (id :: ids) nodes
  else n :: used_nodes ids nodes.
Proof. cbn. by destruct (_ <? _)%N, (mn_node_id n <? id)%N. Qed.

Lemma omap_ext_elem {A B} (f g : A -> option B) (l : list A) : (forall x, x ∈ l -> f x = g x) -> omap f l = omap g l.
Proof.
  induction l as [|x l IH]; intros Hfg; [done|]. cbn [omap list_omap]. rewrite (Hfg x) by (by left). specialize (IH (fun y Hy => Hfg y (list_elem_of_further _ _ _ Hy))).
  change (list_omap A B f l) with (omap f l). change (list_omap A B g l) with (omap g l). by rewrite IH.
Qed.

Lemma used_nodes_omap ids nodes : StronglySorted N.lt ids -> sorted_by mn_node_id nodes ->
  used_nodes ids nodes = omap (with_id mn_node_id nodes) ids.
Proof.
  intros Hids. revert nodes. induction Hids as [|id ids Hids IH HFi]; intros nodes Hn; [done|].
  induction Hn as [|n nodes Hn IHn HFn]; [clear; cbn; by induction ids|].
  rewrite used_nodes_cons. cbn [omap list_omap]. destruct (N.ltb_spec id (mn_node_id n)) as [Hlt|Hge].
  { rewrite with_id_less by done. apply IH. by constructor. }
  assert (omap (with_id mn_node_id (n :: nodes)) ids = omap (with_id mn_node_id nodes) ids) as Heq.
  { apply omap_ext_elem. intros x Hx. apply with_id_skip. rewrite Forall_forall in HFi. specialize (HFi x Hx). lia. }
  destruct (N.ltb_spec (mn_node_id n) id).
  - rewrite IHn, with_id_skip by lia. cbn [omap list_omap]. by rewrite Heq.
  - replace id with (mn_node_id n) by lia. rewrite with_id_here, Heq. f_equal. by apply IH.
Qed.

Section written.
  Context (math : c_math).

Lemma write_roads_cons n nodes e es : write_roads math (n :: nodes) (e :: es) =
  if (xe_target e <? mn_node_id n)%N then write_roads math (n :: nodes) es
  else if (mn_node_id n <? xe_target e)%N then write_roads math nodes (e :: es)
  else
    written ← write_road math n e;
    rest ← write_roads math (n :: nodes) es;
    Some (match written with Some bytes => bytes :: rest | None => rest end).
Proof. cbn. by destruct (_ <? _)%N, (mn_node_id n <? xe_target e)%N. Qed.

Lemma write_roads_omap (road : InternalExtractorEdge -> option (list N)) nodes es : sorted_by mn_node_id nodes -> sorted_by xe_target es ->
  (forall e, e ∈ es -> match with_id mn_node_id nodes (xe_target e) with
                     | Some n => write_road math n e = Some (road e)
                     | None => road e = None
                     end) ->
  write_roads math nodes es = Some (omap road es).
Proof.
  intros Hn. revert es. induction Hn as [|n nodes Hn IH HFn]; intros es He Hroad.
  { cbn. f_equal. clear He. induction es as [|e es IHe]; [done|]. cbn [omap list_omap].
    rewrite (Hroad e (list_elem_of_here _ _)). apply IHe. intros x Hx. by apply (Hroad x), list_elem_of_further. }
  induction He as [|e es He IHe HFe]; [done|]. rewrite write_roads_cons. cbn [omap list_omap].
  assert (write_roads math (n :: nodes) es = Some (omap road es)) as Hes by (apply IHe; intros x Hx; by apply Hroad, list_elem_of_further).
  pose proof (Hroad e (list_elem_of_here _ _)) as Hhere. destruct (N.ltb_spec (xe_target e) (mn_node_id n)).
  { rewrite with_id_less in Hhere by done. by rewrite Hhere. }
  destruct (N.ltb_spec (mn_node_id n) (xe_target e)).
  - apply (IH (e :: es)); [by constructor|]. intros x Hx. specialize (Hroad x Hx). rewrite with_id_skip in Hroad; [done|].
    apply elem_of_cons in Hx as [->|Hx]; [lia|]. rewrite Forall_forall in HFe. specialize (HFe x Hx). cbn in HFe. lia.
  - replace (xe_target e) with (mn_node_id n) in Hhere by lia. rewrite with_id_here in Hhere. rewrite Hhere, Hes. cbn [mbind option_bind].
    by destruct (road e).
Qed.
End written.

(** ** The containers *)

(** [a] is followed by [b] on the path. *)
Definition adjacent (path : list N) (a b : N) : Prop := exists l1 l2, path = l1 ++ a :: b :: l2.

(** The tests that a way has to pass. *)
Definition accepted (w : ExtractionWay) : bool :=
  let unusable speed mode := SFleb speed dzero || (TRAVEL_MODE_INACCESSIBLE =? mode)%N in
  let speed := if SFltb dzero (ew_duration w) then ddiv (ew_duration w) (double_of_int (Z.of_N (vsize (ew_path w) - 1))) else ew_forward_speed w in
  negb (unusable (ew_forward_speed w) (ew_forward_travel_mode w) && unusable (ew_backward_speed w) (ew_backward_travel_mode w) &&
        SFleb (ew_duration w) dzero) &&
  (1 <? vsize (ew_path w))%N && negb (UINT_MAX =? ew_id w)%N && negb (SFleb (SFabs (dsub (double_of_int (-1)) speed)) double_epsilon).

(** The way can be driven from [a] to [b], which are next to each other. A way
    with no accessible direction has a duration and is open backwards. *)
Definition way_leads (w : ExtractionWay) (a b : N) : Prop :=
  adjacent (ew_path w) a b /\ ew_forward_travel_mode w <> TRAVEL_MODE_INACCESSIBLE \/
  adjacent (ew_path w) b a /\ (ew_backward_travel_mode w <> TRAVEL_MODE_INACCESSIBLE \/ ew_forward_travel_mode w = TRAVEL_MODE_INACCESSIBLE).

(** The edge can be driven from [a] to [b]. *)
Definition edge_leads (e : InternalExtractorEdge) (a b : N) : Prop :=
  xe_start e = a /\ xe_target e = b \/ xe_target e = a /\ xe_start e = b /\ xe_direction e <> oneway.

Record edge_wf (path : list N) (name_id : N) (e : InternalExtractorEdge) : Prop := {
  ee_start : xe_start e ∈ path;
  ee_target : xe_target e ∈ path;
  ee_direction : xe_direction e = oneway \/ xe_direction e = bidirectional;
  ee_mode : (xe_travel_mode e < 16)%N;
  ee_name : xe_name_id e = name_id;
  ee_unset : xe_source_coordinate e = coordinate_default;
}.

Lemma adjacent_rev path a b : adjacent (rev path) a b <-> adjacent path b a.
Proof.
  assert (forall p x y, adjacent p x y -> adjacent (rev p) y x) as Hrev.
  { intros p x y (l1 & l2 & ->). exists (rev l2), (rev l1). by rewrite rev_app_distr; cbn; rewrite <- !app_assoc. }
  split; [|apply Hrev]. intros H%Hrev. by rewrite rev_involutive in H.
Qed.

Lemma adjacent_cons x y path a b : adjacent (x :: y :: path) a b <-> (a = x /\ b = y) \/ adjacent (y :: path) a b.
Proof.
  split.
  - intros ([|z l1] & l2 & Heq); cbn in Heq; [left; by injection Heq as -> -> _|right]. injection Heq as -> Heq. by exists l1, l2.
  - intros [[-> ->]|(l1 & l2 & ->)]; [by exists [], path|by exists (x :: l1), l2].
Qed.

Lemma elem_of_path_edges edge path e : e ∈ path_edges edge path <-> exists a b, adjacent path a b /\ e = edge a b.
Proof.
  induction path as [|x [|y path] IH]; cbn [path_edges].
  - split; [by intros ?%elem_of_nil|]. by intros (a & b & ([|] & l2 & Heq) & _).
  - split; [by intros ?%elem_of_nil|]. by intros (a & b & ([|? [|]] & l2 & Heq) & _).
  - rewrite elem_of_cons, IH. setoid_rewrite adjacent_cons. naive_solver.
Qed.

Lemma adjacent_elem path a b : adjacent path a b -> a ∈ path /\ b ∈ path.
Proof. intros (l1 & l2 & ->). set_solver. Qed.

Lemma way_ends_total id path : (1 < vsize path)%N -> is_Some (way_ends id path).
Proof.
  intros Hp. unfold way_ends. destruct (vget_lt path 0 ltac:(lia)) as [a ->], (vget_lt path 1 ltac:(lia)) as [b ->],
    (vget_lt path (vsize path - 2) ltac:(lia)) as [c ->]. cbn [mbind option_bind]. unfold vback.
  destruct (last path) eqn:E; [by eexists|]. apply last_None in E. subst. done.
Qed.

(** *** Names *)

Definition names_ok (string_map : gmap str N) (names : list str) : Prop :=
  forall name i, string_map !! name = Some i <-> names !! N.to_nat i = Some name.

Lemma names_ok_nodup m names : names_ok m names -> NoDup names.
Proof.
  intros Hm. apply NoDup_alt. intros i j x Hi Hj. rewrite <- (Nat2N.id i) in Hi. rewrite <- (Nat2N.id j) in Hj.
  apply Hm in Hi, Hj. rewrite Hi in Hj. injection Hj as Hj. lia.
Qed.

Lemma name_id_of_ok name m names : names_ok m names -> (vsize names < 4294967296)%N ->
  exists id m' suffix, name_id_of name m names = (id, m', names ++ suffix) /\ names_ok m' (names ++ suffix) /\
    (names ++ suffix) !! N.to_nat id = Some name /\ (length suffix <= 1)%nat.
Proof.
  intros Hm Hsz. unfold name_id_of. destruct (m !! name) as [i|] eqn:Hi.
  - exists i, m, []. rewrite app_nil_r. split_and!; [done|done|by apply Hm|cbn; lia].
  - rewrite u32_small by done. exists (vsize names), (<[name := vsize names]> m), [name]. unfold vsize. rewrite Nat2N.id.
    assert (forall i s, names !! i = Some s -> s <> name) as Hnew.
    { intros i s Hs ->. rewrite <- (Nat2N.id i) in Hs. apply Hm in Hs. congruence. }
    split_and!; [done| |by apply list_lookup_middle|done]. intros s j. rewrite lookup_insert, lookup_snoc_Some.
    case_decide as Hd; [subst s|rewrite (Hm s j)]; [|split; [intros H; left; split; [by eapply lookup_lt_Some|done]|naive_solver]].
    split; [intros [= <-]; right; split; [lia|done]|]. intros [[_ H]|[H _]]; [by apply Hnew in H|f_equal; lia].
Qed.

(** *** Ways *)

(** The ends of the way, in one of the orders of its path. *)
Definition ends_of (w : ExtractionWay) (x : WayIDStartAndEndEdge) : Prop :=
  way_ends (ew_id w) (ew_path w) = Some x \/ way_ends (ew_id w) (rev (ew_path w)) = Some x.

(** What an accepted way adds to the containers. *)
Record way_added (w : ExtractionWay) (id : N) (used : list N) (es : list InternalExtractorEdge) : Prop := {
  wa_used : used ≡ₚ ew_path w;
  wa_edges : Forall (edge_wf (ew_path w) id) es;
  wa_leads a b : (exists e, e ∈ es /\ edge_leads e a b) <-> way_leads w a b;
}.

Lemma ubits_4 x : (ubits 4 x < 16)%N.
Proof. unfold ubits. apply N.mod_lt. done. Qed.

(** The edges of a way that is not split. *)
Lemma single_edges w id path direction speed mode duration split :
  path = ew_path w /\ ew_forward_travel_mode w <> TRAVEL_MODE_INACCESSIBLE /\
    direction = (if (TRAVEL_MODE_INACCESSIBLE =? ew_backward_travel_mode w)%N then oneway else bidirectional) \/
  path = rev (ew_path w) /\ ew_forward_travel_mode w = TRAVEL_MODE_INACCESSIBLE /\ direction = oneway ->
  way_added w id path (path_edges (fun a b => InternalExtractorEdge_make a b direction speed id (ew_roundabout w) (ew_ignoreInGrid w)
    duration (ew_isAccessRestricted w) mode split) path).
Proof.
  intros Hcase. assert (path ≡ₚ ew_path w) as Hp by (destruct Hcase as [[-> _]|[-> _]]; [done|symmetry; apply Permutation_rev]).
  split; [done| |].
  - apply Forall_forall. intros e (a & b & Hab & ->)%elem_of_path_edges. apply adjacent_elem in Hab as [Ha Hb]. rewrite Hp in Ha, Hb.
    split; cbn; try done; [|apply ubits_4]. destruct Hcase as [(_ & _ & ->)|(_ & _ & ->)]; [destruct (_ =? _)%N|]; auto.
  - intros a b. setoid_rewrite elem_of_path_edges. unfold edge_leads, way_leads.
    destruct Hcase as [(-> & Hf & ->)|(-> & Hf & ->)].
    + split.
      * intros (e & (x & y & Hxy & ->) & Hl). cbn in Hl. destruct Hl as [[<- <-]|(<- & <- & Hd)]; [by left|right]. split; [done|left]. revert Hd.
        by destruct (ew_backward_travel_mode w).
      * intros [[Hab _]|[Hab [Hb|Hb]]]; [|..|done]; [eexists; split; [by exists a, b|by left]|].
        eexists. split; [by exists b, a|right]. split_and!; [done|done|]. by destruct (ew_backward_travel_mode w).
    + setoid_rewrite adjacent_rev. split.
      * intros (e & (x & y & Hxy & ->) & Hl). cbn in Hl. destruct Hl as [[<- <-]|(_ & _ & Hd)]; [right; auto|done].
      * intros [[_ Hne]|[Hab _]]; [done|]. eexists. split; [by exists a, b|by left].
Qed.

(** The edges of a way with an edge for each direction. *)
Lemma split_edges w id speed back_speed mode back_mode duration split :
  ew_forward_travel_mode w <> TRAVEL_MODE_INACCESSIBLE -> ew_backward_travel_mode w <> TRAVEL_MODE_INACCESSIBLE ->
  let edge speed mode a b := InternalExtractorEdge_make a b oneway speed id (ew_roundabout w) (ew_ignoreInGrid w) duration (ew_isAccessRestricted w) mode split in
  way_added w id (ew_path w) (path_edges (edge speed mode) (ew_path w) ++ path_edges (edge back_speed back_mode) (rev (ew_path w))).
Proof.
  intros Hf Hb edge. split; [done| |].
  - apply Forall_app. split; apply Forall_forall; intros e (a & b & Hab & ->)%elem_of_path_edges; [|rewrite adjacent_rev in Hab];
      apply adjacent_elem in Hab as [Ha Hb']; split; cbn; auto; apply ubits_4.
  - intros a b. setoid_rewrite elem_of_app. setoid_rewrite elem_of_path_edges. setoid_rewrite adjacent_rev. unfold edge_leads, way_leads. split.
    + intros (e & [(x & y & Hxy & ->)|(x & y & Hxy & ->)] & Hl); cbn in Hl; destruct Hl as [[<- <-]|(_ & _ & Hd)]; try done; auto.
    + intros [[Hab _]|[Hab _]]; eexists.
      * split; [left; by exists a, b|by left].
      * split; [right; by exists a, b|by left].
Qed.

Lemma ProcessWay_ok w m c : names_ok m (name_list c) -> (vsize (name_list c) < 4294967296)%N ->
  exists w' m' c', ProcessWay w m c = Some (w', m', c') /\ all_nodes_list c' = all_nodes_list c /\ restrictions_list c' = restrictions_list c /\
    if accepted w then
      exists id suffix used es, name_list c' = name_list c ++ suffix /\ names_ok m' (name_list c') /\ (length suffix <= 1)%nat /\
        name_list c' !! N.to_nat id = Some (ew_name w) /\
        used_node_id_list c' = used_node_id_list c ++ used /\ all_edges_list c' = all_edges_list c ++ es /\ way_added w id used es /\
        exists ends, way_start_end_id_list c' = way_start_end_id_list c ++ ends /\ Forall (ends_of w) ends
    else m' = m /\ c' = c.
Proof.
  intros Hm Hsz. unfold ProcessWay, accepted. cbn zeta.
  destruct (_ && _ && SFleb _ _); cbn [negb andb]; [by eexists _, _, _|].
  rewrite (N.ltb_antisym (vsize (ew_path w)) 1). destruct (N.leb_spec (vsize (ew_path w)) 1) as [|Hp]; cbn [negb andb]; [by eexists _, _, _|].
  destruct (UINT_MAX =? ew_id w)%N; cbn [negb andb]; [by eexists _, _, _|].
  set (per := ddiv _ _). set (fs := if SFltb dzero (ew_duration w) then per else ew_forward_speed w).
  set (bs := if SFltb dzero (ew_duration w) then per else ew_backward_speed w).
  assert ((if SFltb dzero (ew_duration w) then (per, per) else (ew_forward_speed w, ew_backward_speed w)) = (fs, bs)) as -> by (unfold fs, bs; by destruct (SFltb _ _)).
  destruct (SFleb (SFabs _) _); cbn [negb andb]; [by eexists _, _, _|].
  destruct (name_id_of_ok (ew_name w) m (name_list c) Hm Hsz) as (id & m' & suffix & -> & Hok & Hname & Hsuf).
  destruct (N.eqb_spec TRAVEL_MODE_INACCESSIBLE (ew_forward_travel_mode w)) as [Hfm|Hfm].
  - rewrite N.eqb_refl. cbn [negb andb]. rewrite !andb_false_r. cbn [orb andb].
    destruct (way_ends_total (ew_id w) (rev (ew_path w))) as [ends Hends]; [unfold vsize in *; rewrite length_rev; lia|]. rewrite Hends. cbn [mbind option_bind].
    eexists _, m', _. split; [done|]. cbn [all_nodes_list restrictions_list name_list used_node_id_list all_edges_list way_start_end_id_list]. split; [done|]. split; [done|].
    eexists id, suffix, _, _. split_and!; try done; [apply single_edges; by right|]. exists [ends]. split; [done|]. constructor; [by right|constructor].
  - destruct (way_ends_total (ew_id w) (ew_path w) Hp) as [ends Hends]. rewrite Hends. cbn [mbind option_bind]. set (split := _ && _ && _ && _ && _).
    destruct split eqn:Hs; cbn [orb].
    + destruct (way_ends_total (ew_id w) (rev (ew_path w))) as [ends' Hends']; [unfold vsize in *; rewrite length_rev; lia|]. rewrite Hends'. cbn [mbind option_bind].
      eexists _, m', _. split; [done|]. cbn [all_nodes_list restrictions_list name_list used_node_id_list all_edges_list way_start_end_id_list]. split; [done|]. split; [done|].
      eexists id, suffix, _, _. split_and!; try done; [|exists [ends; ends']; split; [done|constructor; [by left|constructor; [by right|constructor]]]]. apply split_edges; [congruence|]. intros Hbm. unfold split in Hs. rewrite Hbm, N.eqb_refl in Hs.
      cbn [negb] in Hs. by rewrite !andb_false_r in Hs.
    + eexists _, m', _. split; [done|]. cbn [all_nodes_list restrictions_list name_list used_node_id_list all_edges_list way_start_end_id_list]. split; [done|]. split; [done|].
      eexists id, suffix, _, _. split_and!; try done; [|exists [ends]; split; [done|constructor; [by left|constructor]]]. apply single_edges. left. split; [done|]. split; [congruence|done].
Qed.

(** *** All calls *)

Record containers_wf (calls : list callback) (m : gmap str N) (c : ExtractionContainers) : Prop := {
  cw_names : names_ok m (name_list c);
  cw_count : (vsize (name_list c) <= 1 + vsize calls)%N;
  cw_nodes n : n ∈ all_nodes_list c -> NodeCall n ∈ calls /\ mn_lat n <> INT_MIN;
  cw_used id : id ∈ used_node_id_list c <-> exists w, WayCall w ∈ calls /\ accepted w = true /\ id ∈ ew_path w;
  cw_edges e : e ∈ all_edges_list c -> edge_wf (used_node_id_list c) (xe_name_id e) e /\ (xe_name_id e < vsize (name_list c))%N;
  cw_leads a b name : (exists e, e ∈ all_edges_list c /\ edge_leads e a b /\ name_list c !! N.to_nat (xe_name_id e) = Some name) <->
    exists w, WayCall w ∈ calls /\ accepted w = true /\ ew_name w = name /\ way_leads w a b;
  cw_ways x : x ∈ way_start_end_id_list c -> exists w, WayCall w ∈ calls /\ accepted w = true /\ ends_of w x;
  cw_restrictions r : r ∈ restrictions_list c <-> RestrictionCall r ∈ calls;
}.

(** A call that adds nothing but nodes or restrictions. *)
Lemma other_call calls call m c c' : containers_wf calls m c -> (forall w, call = WayCall w -> accepted w = false) ->
  used_node_id_list c' = used_node_id_list c -> all_edges_list c' = all_edges_list c -> name_list c' = name_list c ->
  way_start_end_id_list c' = way_start_end_id_list c -> (forall n, n ∈ all_nodes_list c' -> n ∈ all_nodes_list c \/ call = NodeCall n /\ mn_lat n <> INT_MIN) ->
  (forall r, r ∈ restrictions_list c' <-> r ∈ restrictions_list c \/ call = RestrictionCall r) -> containers_wf (calls ++ [call]) m c'.
Proof.
  intros [H1 H2 H3 H4 H5 H6 H8 H7] Hcall Hu He Hn Hws Hnodes Hr.
  assert (forall P : ExtractionWay -> Prop, (exists w, WayCall w ∈ calls ++ [call] /\ accepted w = true /\ P w) <->
    exists w, WayCall w ∈ calls /\ accepted w = true /\ P w) as Hw.
  { intros P. split; intros (w & Hin & Ha & HP); exists w; (split; [|done]); [|apply elem_of_app; by left].
    apply elem_of_app in Hin as [?|Hin%list_elem_of_singleton]; [done|]. symmetry in Hin. by rewrite (Hcall w Hin) in Ha. }
  split; rewrite ?Hu, ?He, ?Hn, ?Hws; try done.
  - rewrite vsize_app. lia.
  - intros n [Hin|[-> Hlat]]%Hnodes; [apply H3 in Hin as [? ?]|]; (split; [|done]); apply elem_of_app; [by left|right; by left].
  - intros id. by rewrite Hw.
  - intros a b name. by rewrite Hw.
  - intros x. rewrite Hw. apply H8.
  - intros r. rewrite Hr, H7, elem_of_app, list_elem_of_singleton. intuition congruence.
Qed.

Lemma way_call calls w m m' c c' id suffix used es : containers_wf calls m c -> accepted w = true ->
  all_nodes_list c' = all_nodes_list c -> restrictions_list c' = restrictions_list c ->
  name_list c' = name_list c ++ suffix -> names_ok m' (name_list c') -> (length suffix <= 1)%nat -> name_list c' !! N.to_nat id = Some (ew_name w) ->
  used_node_id_list c' = used_node_id_list c ++ used -> all_edges_list c' = all_edges_list c ++ es -> way_added w id used es ->
  (exists ends, way_start_end_id_list c' = way_start_end_id_list c ++ ends /\ Forall (ends_of w) ends) ->
  containers_wf (calls ++ [WayCall w]) m' c'.
Proof.
  intros [H1 H2 H3 H4 H5 H6 H8 H7] Hacc Hnd Hrs Hnm Hok Hsuf Hid Hu He [A1 A2 A3] (ends & Hends & HFe). rewrite Forall_forall in A2.
  assert (forall P : ExtractionWay -> Prop, (exists w', WayCall w' ∈ calls ++ [WayCall w] /\ accepted w' = true /\ P w') <->
    (exists w', WayCall w' ∈ calls /\ accepted w' = true /\ P w') \/ P w) as Hw.
  { intros P. setoid_rewrite elem_of_app. setoid_rewrite list_elem_of_singleton. naive_solver. }
  split; rewrite ?Hu, ?He; try done.
  - rewrite Hnm, !vsize_app. change (vsize [_]) with 1%N. unfold vsize in *. lia.
  - intros n Hn. rewrite Hnd in Hn. apply H3 in Hn as [? ?]. split; [apply elem_of_app; by left|done].
  - intros x. rewrite Hw, elem_of_app, H4, A1. done.
  - intros e [Hin|Hin]%elem_of_app.
    + destruct (H5 e Hin) as [[E1 E2 E3 E4 E5 E6] Hlt]. split; [|rewrite Hnm, vsize_app; lia]. split; try done; apply elem_of_app; by left.
    + destruct (A2 e Hin) as [E1 E2 E3 E4 E5 E6]. rewrite E5. split; [|apply lookup_lt_Some in Hid; unfold vsize; lia].
      split; try done; apply elem_of_app; right; by rewrite A1.
  - intros a b name. rewrite Hw, <- (H6 a b name), <- (A3 a b). setoid_rewrite elem_of_app. split.
    + intros (e & [Hin|Hin] & Hl & Hne).
      * left. exists e. split_and!; try done. destruct (H5 e Hin) as [_ Hlt]. rewrite Hnm in Hne. rewrite lookup_app_l in Hne by (unfold vsize in Hlt; lia). done.
      * right. destruct (A2 e Hin) as [_ _ _ _ E5 _]. rewrite E5, Hid in Hne. split; [congruence|by exists e].
    + intros [(e & Hin & Hl & Hne)|[Hne (e & Hin & Hl)]]; exists e; (split; [by auto|split; [done|]]).
      * rewrite Hnm. by apply lookup_app_l_Some.
      * destruct (A2 e Hin) as [_ _ _ _ E5 _]. rewrite E5, Hid. by f_equal.
  - intros x. rewrite Hw, Hends. intros [Hx|Hx]%elem_of_app; [left; by apply H8|right]. rewrite Forall_forall in HFe. by apply HFe.
  - intros r. rewrite Hrs, H7, elem_of_app, list_elem_of_singleton. naive_solver.
Qed.

Lemma run_callbacks_ok calls : (vsize calls < 4294967295)%N -> exists m c, run_callbacks calls = Some (m, c) /\ containers_wf calls m c.
Proof.
  intros Hsz. destruct (fold_m_ind run_callback (fun pre s => containers_wf pre (fst s) (snd s)) calls ({[ [] := 0%N ]}, ExtractionContainers_make))
    as ([m c] & Hrun & Hwf); [| |by exists m, c].
  - split; cbn; try set_solver. intros name i. cbn. rewrite lookup_singleton_Some.
    destruct (N.to_nat i) eqn:Hi; cbn; [|split; [intros [_ ?]; lia|done]].
    split; [intros [<- _]; done|intros [= <-]; split; [done|lia]].
  - intros pre call post [m c] Hpre Hwf. cbn [fst snd] in *. assert (vsize pre < 4294967295)%N as Hp by (rewrite Hpre, vsize_app in Hsz; lia).
    destruct call as [n|w|r]; cbn [run_callback].
    + eexists. split; [done|]. cbn [fst snd]. unfold ProcessNode. destruct (_ && _) eqn:Hlim; (eapply other_call; [exact Hwf|done|done|done|done|done|..]); cbn; auto.
      * intros x [Hx|Hx%list_elem_of_singleton]%elem_of_app; [by left|subst x]. right. split; [done|]. intros Hl. rewrite Hl in Hlim. by vm_compute in Hlim.
      * intros x. naive_solver.
      * intros x. naive_solver.
    + destruct (ProcessWay_ok w m c) as (w' & m' & c' & -> & Hn & Hr & Hcase); [apply (cw_names _ _ _ Hwf)|pose proof (cw_count _ _ _ Hwf); lia|].
      cbn [mbind option_bind]. eexists. split; [done|]. cbn [fst snd]. destruct (accepted w) eqn:Hacc.
      * destruct Hcase as (id & suffix & used & es & ? & ? & ? & ? & ? & ? & ? & ?). by eapply way_call.
      * destruct Hcase as [-> ->]. eapply other_call; [exact Hwf|..]; try done; [by intros ? [= <-]|by auto|naive_solver].
    + eexists. split; [done|]. cbn [fst snd]. eapply other_call; [exact Hwf|..]; try done; cbn; [by auto|].
      intros x. rewrite elem_of_app, list_elem_of_singleton. naive_solver.
Qed.

(** ** Properties *)


(** A road in both directions, a one-way road against its path and a way that is
    not accepted. *)
Definition sample_ways : list ExtractionWay :=
  let speed := double_of_int 50 in
  [MkExtractionWay 7 0 speed (double_of_int 30) dzero [65]%N false false false [4; 9; 2]%N 1 1;
   MkExtractionWay 8 0 speed speed dzero [66]%N false false false [9; 5]%N 0 1;
   MkExtractionWay 9 0 speed speed dzero [67]%N false false false [9; 6]%N 0 0].

