(* ===== verification/Import.v ===== *)
(** * Util/GraphLoader.h, Contractor/Prepare.cpp: the import of the roads

    [CheckRestrictionsFile] reads the restrictions and
    [readBinaryOSRMGraphFromStream] the nodes and roads that the extractor
    wrote, numbers the nodes from 0 on and drops some parallel roads.
    [BuildEdgeExpandedGraph] makes the edge-expanded graph of them, and
    [WriteNodeMapping] keeps the coordinates for the server. *)

From Stdlib Require Import Floats.SpecFloat.
From S2P Require Import Prelude Types Float32 Edges DynamicGraph StaticGraph Text Routing Hsgr.
From S2P Require Import Restrictions GeometryCompressor NodeBasedGraph EdgeExpansion Names Extraction.

(** ** Restrictions *)

(** A [TurnRestriction] as it is in memory: the lowest bit of the flags is set
    for an only-restriction. *)
Definition read_restriction (s : list N) : option (TurnRestriction * list N) :=
  '(via, s) ← read_word s; '(from, s) ← read_word s; '(to, s) ← read_word s;
  match s with
  | flags :: _ :: _ :: _ :: s' => Some (MkTurnRestriction via from to (N.testbit flags 0), s')
  | _ => None
  end.

(** [inl] is the exception of the test of the fingerprint. *)
Definition CheckRestrictionsFile (fingerprint_orig : FingerPrint) (file : list N) : option (unit + list TurnRestriction) :=
  '(fingerprint_loaded, s) ← read_fingerprint file;
  match TestPrepare fingerprint_loaded fingerprint_orig with
  | Throws => Some (inl tt)
  | Returns _ =>
      '(number_of_usable_restrictions, s) ← read_word s;
      '(l, _) ← read_many read_restriction (N.to_nat number_of_usable_restrictions) s;
      Some (inr l)
  end.

(** ** Nodes *)

Definition read_memory_node (s : list N) : option (ExternalMemoryNode * list N) :=
  '(la, s) ← read_word s; '(lo, s) ← read_word s; '(id, s) ← read_word s;
  match s with
  | b :: t :: _ :: _ :: s' => Some (MkMemoryNode (to_int la) (to_int lo) id (negb (b =? 0)%N) (negb (t =? 0)%N), s')
  | _ => None
  end.

Record node_import := MkNodeImport {
  int_to_ext_node_id_map : list NodeInfo; ext_to_int_id_map : gmap N N; barrier_node_list : list N; traffic_light_node_list : list N }.

(** The first node with an id gets the entry of the map. *)
Definition import_node (st : node_import) (n : ExternalMemoryNode) : node_import :=
  let i := u32 (vsize (int_to_ext_node_id_map st)) in
  MkNodeImport (int_to_ext_node_id_map st ++ [MkNodeInfo (mn_lat n) (mn_lon n) (mn_node_id n)])
    (if decide (ext_to_int_id_map st !! mn_node_id n = None) then <[mn_node_id n := i]> (ext_to_int_id_map st) else ext_to_int_id_map st)
    (if bollard n then barrier_node_list st ++ [i] else barrier_node_list st)
    (if trafficLight n then traffic_light_node_list st ++ [i] else traffic_light_node_list st).

(** A restriction with an unknown node is left as it is from this node on. *)
Definition translate_restriction (m : gmap N N) (t : TurnRestriction) : TurnRestriction :=
  match m !! fromNode t with
  | None => t
  | Some f =>
      match m !! viaNode t with
      | None => MkTurnRestriction (viaNode t) f (toNode t) (isOnly t)
      | Some v =>
          match m !! toNode t with
          | None => MkTurnRestriction v f (toNode t) (isOnly t)
          | Some w => MkTurnRestriction v f w (isOnly t)
          end
      end
  end.

(** ** Roads *)

Record raw_road := MkRawRoad {
  rr_source : N; rr_target : N; rr_length : Z; rr_dir : N; rr_weight : Z; rr_name : N; rr_roundabout : bool; rr_ignore : bool;
  rr_access : bool; rr_mode : N; rr_split : bool }.

Definition read_road (s : list N) : option (raw_road * list N) :=
  '(source, s) ← read_word s; '(target, s) ← read_word s; '(length, s) ← read_word s;
  match s with
  | d0 :: d1 :: s =>
      '(weight, s) ← read_word s; '(name, s) ← read_word s;
      match s with
      | r :: i :: a :: mode :: split :: s' =>
          let flag b := negb (b =? 0)%N in
          Some (MkRawRoad source target (to_int length) (d0 + 256 * d1)%N (to_int weight) name (flag r) (flag i) (flag a) mode (flag split), s')
      | _ => None
      end
  | _ => None
  end.

(** A road between unknown nodes is skipped. *)
Definition translate_road (m : gmap N N) (r : raw_road) : option NodeBasedEdge :=
  let forward := negb (2 =? rr_dir r)%N in
  let backward := negb (1 =? rr_dir r)%N in
  source ← m !! rr_source r;
  target ← m !! rr_target r;
  let '(source, target, forward, backward) :=
    if (target <? source)%N then (target, source, backward, forward) else (source, target, forward, backward) in
  Some (NodeBasedEdge_make source target (rr_name r) (rr_weight r) forward backward (rr_roundabout r) (rr_ignore r) (rr_access r)
    (rr_mode r) (rr_split r)).

Definition set_nb (source : N) (weight : Z) (forward backward : bool) (e : NodeBasedEdge) : NodeBasedEdge :=
  MkNodeBasedEdge source (nb_target e) (nb_name_id e) weight forward backward (nb_roundabout e) (nb_in_tiny_cc e)
    (nb_access_restricted e) (nb_is_split e) (nb_travel_mode e).

(** Two edges between the same nodes that follow each other. The tests for the
    supersets compare a flag with itself. *)
Definition merge_duplicate (p e : NodeBasedEdge) : NodeBasedEdge * NodeBasedEdge :=
  if negb ((nb_target p =? nb_target e) && (nb_source p =? nb_source e))%N then (p, e)
  else
    let edge_flags_equivalent := Bool.eqb (nb_forward p) (nb_forward e) && Bool.eqb (nb_backward p) (nb_backward e) in
    let superset1 := nb_forward p && nb_backward p && negb (Bool.eqb (nb_backward e) (nb_backward e)) in
    let superset2 := nb_forward e && nb_backward e && negb (Bool.eqb (nb_backward p) (nb_backward p)) in
    let removed x := set_nb UINT_MAX (nb_weight x) (nb_forward x) (nb_backward x) x in
    if edge_flags_equivalent then (removed p, set_nb (nb_source e) (Z.min (nb_weight p) (nb_weight e)) (nb_forward e) (nb_backward e) e)
    else if superset1 then
      if (nb_weight p <=? nb_weight e)%Z then (p, removed e)
      else (set_nb (nb_source p) (nb_weight p) (negb (nb_forward e)) (negb (nb_backward e)) p, e)
    else if superset2 then
      if (nb_weight p <=? nb_weight e)%Z then (p, set_nb (nb_source e) (nb_weight e) (negb (nb_forward p)) (negb (nb_backward p)) e)
      else (removed p, e)
    else (p, e).

Definition merge_duplicate_at (edges : list NodeBasedEdge) (i : N) : option (list NodeBasedEdge) :=
  p ← vget edges (usub i 1);
  e ← vget edges i;
  let '(p', e') := merge_duplicate p e in
  edges' ← vset edges (usub i 1) p';
  vset edges' i e'.

(** The number of nodes, the nodes, the roads and the translated restrictions;
    [inl] is the exception of the test of the fingerprint. *)
Definition readBinaryOSRMGraphFromStream (sort_edges : list NodeBasedEdge -> list NodeBasedEdge) (fingerprint_orig : FingerPrint)
    (input_stream : list N) (restriction_list : list TurnRestriction)
    : option (unit + N * node_import * list NodeBasedEdge * list TurnRestriction) :=
  '(fingerprint_loaded, s) ← read_fingerprint input_stream;
  match TestGraphUtil fingerprint_loaded fingerprint_orig with
  | Throws => Some (inl tt)
  | Returns _ =>
      '(n, s) ← read_word s;
      '(nodes, s) ← read_many read_memory_node (N.to_nat n) s;
      let st := foldl import_node (MkNodeImport [] ∅ [] []) nodes in
      '(m, s) ← read_word s;
      '(roads, _) ← read_many read_road (N.to_nat m) s;
      let edge_list := sort_edges (omap (translate_road (ext_to_int_id_map st)) roads) in
      edges' ← fold_m merge_duplicate_at edge_list (irange 1 (u32 (vsize edge_list)));
      Some (inr (n, st, filter (fun e => nb_source e <> SPECIAL_NODEID) edges', translate_restriction (ext_to_int_id_map st) <$> restriction_list))
  end.

(** ** The edge-expanded graph *)

(** The number of its nodes, the nodes, the edges and the files of turns and
    geometries. *)
Definition BuildEdgeExpandedGraph (sort_edges : list NodeBasedInputEdge -> list NodeBasedInputEdge) (junk : N -> Edge NodeBasedEdgeData)
    (turn_angle : NodeInfo -> NodeInfo -> NodeInfo -> double) (turn_function : double -> option Z)
    (number_of_node_based_nodes : N) (st : node_import) (edge_list : list NodeBasedEdge) (restriction_list : list TurnRestriction)
    (profile : SpeedProfileProperties) : option (N * list EdgeBasedNode * list EdgeBasedEdge * list N * list N) :=
  g ← NodeBasedDynamicGraphFromImportEdges sort_edges junk (to_int number_of_node_based_nodes) edge_list;
  m ← RestrictionMap_make restriction_list;
  f ← EdgeBasedGraphFactory_make g m (barrier_node_list st) (traffic_light_node_list st) (int_to_ext_node_id_map st) profile 0;
  '(f', edge_file, geometry_file) ← EdgeBasedGraphFactory_Run turn_angle turn_function f;
  let number_of_edge_based_nodes := GetNumberOfEdgeBasedNodes f' in
  let '(f'', edge_based_edge_list) := GetEdgeBasedEdges f' [] in
  let '(_, node_based_edge_list) := GetEdgeBasedNodes f'' [] in
  Some (number_of_edge_based_nodes, node_based_edge_list, edge_based_edge_list, edge_file, geometry_file).

(** ** The coordinates *)

Definition info_bytes (n : NodeInfo) : list N := le32 (of_int (ni_lat n)) ++ le32 (of_int (ni_lon n)) ++ le32 (ni_node_id n).

Definition WriteNodeMapping (internal_to_external_node_map : list NodeInfo) : list N :=
  le32 (u32 (vsize internal_to_external_node_map)) ++ (internal_to_external_node_map ≫= info_bytes).

Definition read_info (s : list N) : option (NodeInfo * list N) :=
  '(la, s) ← read_word s; '(lo, s) ← read_word s; '(id, s) ← read_word s;
  Some (MkNodeInfo (to_int la) (to_int lo) id, s).

(** The nodes part of [LoadNodeAndEdgeInformation]: the list of coordinates. *)
Definition LoadNodeInformation (nodes_file : list N) : option (list FixedPointCoordinate) :=
  '(number_of_coordinates, s) ← read_word nodes_file;
  '(l, _) ← read_many read_info (N.to_nat number_of_coordinates) s;
  Some (map (fun n => MkCoordinate (ni_lat n) (ni_lon n)) l).
