(* ===== verification/RoadImport.v ===== *)
(** * The roads from the extractor to the import

    What [PrepareData] writes is read back by [CheckRestrictionsFile] and
    [readBinaryOSRMGraphFromStream]: the restrictions between ways become
    restrictions between nodes, the nodes in use get the numbers from 0 on in
    the order of their ids, and for every pair of nodes the lightest road of
    the import is the lightest extracted edge. *)

From Stdlib Require Import Floats.SpecFloat.
From S2P Require Import Prelude Types Float32 Edges DynamicGraph Text Geometry Hsgr Restrictions NodeBasedGraph EdgeExpansion Turns.
From S2P Require Import Compression RoadGraph Names Extraction Import.

(** ** Bytes *)

Lemma flag_bit b : negb (bit b =? 0)%N = b.
Proof. by destruct b. Qed.

Lemma testbit_flag b : N.testbit (bit b) 0 = b.
Proof. by destruct b. Qed.

Lemma of_int_lt z : (of_int z < 4294967296)%N.
Proof. unfold of_int. pose proof (Z.mod_pos_bound z 4294967296). lia. Qed.

Lemma read_le16 x : (x < 65536)%N -> (x mod 256 + 256 * (x / 256 mod 256) = x)%N.
Proof.
  intros Hx. pose proof (N.div_mod x 256 ltac:(lia)). rewrite (N.mod_small (x / 256)) by (apply N.Div0.div_lt_upper_bound; lia). lia.
Qed.

Ltac read_words := repeat (rewrite <- ?app_assoc, read_le32 by (apply of_int_lt || done); cbn [mbind option_bind app]).

Definition restriction_fits (t : TurnRestriction) : Prop :=
  (viaNode t < 4294967296)%N /\ (fromNode t < 4294967296)%N /\ (toNode t < 4294967296)%N.

Lemma read_restriction_ok t s : restriction_fits t -> read_restriction (restriction_bytes t ++ s) = Some (t, s).
Proof.
  intros (H1 & H2 & H3). unfold read_restriction, restriction_bytes. read_words. rewrite testbit_flag. by destruct t.
Qed.

Definition in_int (z : Z) : Prop := (INT_MIN <= z <= INT_MAX)%Z.

Definition node_fits (n : ExternalMemoryNode) : Prop := in_int (mn_lat n) /\ in_int (mn_lon n) /\ (mn_node_id n < 4294967296)%N.

Lemma read_memory_node_ok n s : node_fits n -> read_memory_node (node_bytes n ++ s) = Some (n, s).
Proof.
  intros (H1 & H2 & H3). unfold read_memory_node, node_bytes. read_words. rewrite !to_int_of_int, !flag_bit by done. by destruct n.
Qed.

Definition raw_bytes (r : raw_road) : list N :=
  le32 (rr_source r) ++ le32 (rr_target r) ++ le32 (of_int (rr_length r)) ++ le16 (rr_dir r) ++ le32 (of_int (rr_weight r)) ++
  le32 (rr_name r) ++ [bit (rr_roundabout r); bit (rr_ignore r); bit (rr_access r); rr_mode r; bit (rr_split r)].

Definition raw_fits (r : raw_road) : Prop :=
  (rr_source r < 4294967296)%N /\ (rr_target r < 4294967296)%N /\ in_int (rr_length r) /\ (rr_dir r < 65536)%N /\ in_int (rr_weight r) /\
  (rr_name r < 4294967296)%N.

Lemma read_road_ok r s : raw_fits r -> read_road (raw_bytes r ++ s) = Some (r, s).
Proof.
  intros (H1 & H2 & H3 & H4 & H5 & H6). unfold read_road, raw_bytes, le16. read_words.
  rewrite read_le16, !to_int_of_int, !flag_bit by done. by destruct r.
Qed.

Lemma read_info_ok n s : in_int (ni_lat n) -> in_int (ni_lon n) -> (ni_node_id n < 4294967296)%N -> read_info (info_bytes n ++ s) = Some (n, s).
Proof.
  intros H1 H2 H3. unfold read_info, info_bytes. read_words. rewrite !to_int_of_int by done. by destruct n.
Qed.

(** ** Nodes *)

Definition info_of (n : ExternalMemoryNode) : NodeInfo := MkNodeInfo (mn_lat n) (mn_lon n) (mn_node_id n).

Record imported (nodes : list ExternalMemoryNode) (st : node_import) : Prop := {
  im_infos : int_to_ext_node_id_map st = info_of <$> nodes;
  im_ids id i : ext_to_int_id_map st !! id = Some i <-> (mn_node_id <$> nodes) !! N.to_nat i = Some id;
  im_barriers i : i ∈ barrier_node_list st <-> exists n, nodes !! N.to_nat i = Some n /\ bollard n = true;
  im_lights i : i ∈ traffic_light_node_list st <-> exists n, nodes !! N.to_nat i = Some n /\ trafficLight n = true;
}.

(** A list of the positions of the nodes with a flag. *)
Lemma flagged_snoc (flag : ExternalMemoryNode -> bool) nodes n l : (forall i, i ∈ l <-> exists x, nodes !! N.to_nat i = Some x /\ flag x = true) ->
  forall i, i ∈ (if flag n then l ++ [vsize nodes] else l) <-> exists x, (nodes ++ [n]) !! N.to_nat i = Some x /\ flag x = true.
Proof.
  intros Hl i. setoid_rewrite lookup_snoc_Some. assert (i ∈ (if flag n then l ++ [vsize nodes] else l) <-> i ∈ l \/ i = vsize nodes /\ flag n = true) as ->.
  { destruct (flag n); [rewrite elem_of_app, list_elem_of_singleton|]; naive_solver. }
  rewrite Hl. unfold vsize. split.
  - intros [(x & Hx & Hf)|[-> Hf]]; [|exists n; split; [right; split; [lia|done]|done]]. exists x. split; [left; split; [by eapply lookup_lt_Some|done]|done].
  - intros (x & [[_ Hx]|[Hi <-]] & Hf); [left; by exists x|right; split; [lia|done]].
Qed.

Lemma import_nodes_ok nodes : NoDup (mn_node_id <$> nodes) -> (vsize nodes < 4294967296)%N ->
  imported nodes (foldl import_node (MkNodeImport [] ∅ [] []) nodes).
Proof.
  induction nodes as [|n nodes IH] using rev_ind; intros Hnd Hsz.
  { split; cbn; [done|intros id i; by rewrite lookup_empty| |]; intros i; (split; [by intros ?%elem_of_nil|by intros (n & ? & _)]). }
  rewrite fmap_app, NoDup_app in Hnd. destruct Hnd as (Hnd & Hnew & _). rewrite vsize_app in Hsz. change (vsize [n]) with 1%N in Hsz.
  destruct (IH Hnd ltac:(lia)) as [H1 H2 H3 H4]. clear IH. rewrite foldl_snoc. set (st := foldl _ _ _) in *. unfold import_node.
  assert (vsize (int_to_ext_node_id_map st) = vsize nodes) as -> by (unfold vsize; rewrite H1, length_fmap; done). rewrite u32_small by lia.
  split; cbn [int_to_ext_node_id_map ext_to_int_id_map barrier_node_list traffic_light_node_list]; [by rewrite H1, fmap_app| | |].
  - assert (ext_to_int_id_map st !! mn_node_id n = None) as Hnone.
    { destruct (_ !! _) as [i|] eqn:Hi; [|done]. apply H2, list_elem_of_lookup_2 in Hi. exfalso. eapply Hnew; [exact Hi|]. by left. }
    rewrite decide_True by done. intros id i. rewrite fmap_app. cbn [fmap list_fmap]. rewrite lookup_insert, lookup_snoc_Some. unfold vsize. case_decide as Hd.
    + subst id. rewrite <- H2, Hnone, length_fmap. split; [intros [= <-]; right; split; [lia|done]|]. intros [[_ ?]|[? _]]; [done|f_equal; lia].
    + rewrite H2. split; [intros H; left; split; [by eapply lookup_lt_Some|done]|naive_solver].
  - by apply flagged_snoc.
  - by apply flagged_snoc.
Qed.

(** ** Parallel roads *)

(** Each road has one in the other list that is not heavier. *)
Definition covered (u t : N) (l l' : list NodeBasedEdge) : Prop :=
  forall r, r ∈ l -> allows r u t -> exists r', r' ∈ l' /\ allows r' u t /\ (road_weight r' <= road_weight r)%Z.

Lemma covered_lightest u t l l' w : covered u t l l' -> covered u t l' l -> lightest_road l u t w -> lightest_road l' u t w.
Proof.
  intros H1 H2 [(r & Hr & Ha & Hw) Hmin]. destruct (H1 r Hr Ha) as (r' & Hr' & Ha' & Hle). destruct (H2 r' Hr' Ha') as (r2 & Hr2 & Ha2 & Hle2).
  pose proof (Hmin r2 Hr2 Ha2). split; [exists r'; split_and!; [done|done|lia]|].
  intros x Hx Hax. destruct (H2 x Hx Hax) as (y & Hy & Hay & Hley). pose proof (Hmin y Hy Hay). lia.
Qed.

Lemma merge_duplicate_covered u t p e p' e' : (u < UINT_MAX)%N -> (t < UINT_MAX)%N -> merge_duplicate p e = (p', e') ->
  covered u t [p; e] [p'; e'] /\ covered u t [p'; e'] [p; e].
Proof.
  intros Hu Ht. unfold merge_duplicate. assert (forall l, covered u t l l) as Hrefl by (intros l r Hr Ha; exists r; auto with lia).
  destruct (N.eqb_spec (nb_target p) (nb_target e)) as [H1|], (N.eqb_spec (nb_source p) (nb_source e)) as [H2|]; cbn [andb negb]; try (intros [= <- <-]; by split).
  rewrite !Bool.eqb_reflx, !andb_false_r. destruct (Bool.eqb_spec (nb_forward p) (nb_forward e)) as [H3|], (Bool.eqb_spec (nb_backward p) (nb_backward e)) as [H4|];
    cbn [andb]; try (intros [= <- <-]; by split). intros [= <- <-].
  set (x := set_nb UINT_MAX _ _ _ p). set (y := set_nb _ _ _ _ e).
  assert (~ allows x u t) as Hx by (unfold allows, x; cbn; unfold UINT_MAX in *; intros [(? & _)|(_ & ? & _)]; lia).
  assert (allows p u t <-> allows y u t) as Hpy by (unfold allows, y; cbn; rewrite H1, H2, H3, H4; done).
  assert (allows e u t <-> allows y u t) as Hey by (unfold allows, y; done).
  assert (road_weight y = Z.min (road_weight p) (road_weight e)) as Hw by (unfold road_weight, y; cbn; lia).
  split; intros r Hr Ha; rewrite !elem_of_cons in Hr; destruct Hr as [->|[->|Hr%elem_of_nil]]; try done.
  - exists y. split; [right; by left|]. split; [by apply Hpy|lia].
  - exists y. split; [right; by left|]. split; [by apply Hey|lia].
  - destruct (Z.le_ge_cases (road_weight p) (road_weight e)); [exists p|exists e]; (split; [set_solver|]); (split; [tauto|lia]).
Qed.

Lemma covered_middle u t l1 l l' l2 : covered u t l l' -> covered u t (l1 ++ l ++ l2) (l1 ++ l' ++ l2).
Proof.
  intros H r Hr Ha. rewrite !elem_of_app in Hr. destruct Hr as [Hr|[Hr|Hr]]; [|destruct (H r Hr Ha) as (r' & ? & ? & ?)|];
    [exists r|exists r'|exists r]; rewrite !elem_of_app; auto with lia.
Qed.

Lemma merge_duplicate_fields p e p' e' : merge_duplicate p e = (p', e') ->
  (nb_source p' = nb_source p \/ nb_source p' = UINT_MAX) /\ nb_target p' = nb_target p /\ nb_is_split p' = nb_is_split p /\ nb_weight p' = nb_weight p /\
  nb_source e' = nb_source e /\ nb_target e' = nb_target e /\ nb_is_split e' = nb_is_split e /\ (nb_weight e' = nb_weight e \/ nb_weight e' = nb_weight p).
Proof.
  unfold merge_duplicate. rewrite !Bool.eqb_reflx, !andb_false_r. destruct (negb _); [intros [= <- <-]; tauto|]. destruct (_ && _); intros [= <- <-]; [|tauto].
  cbn. split_and!; auto. lia.
Qed.

(** The ends are below [n], unless the road is marked as removed. *)
Definition road_in (n : N) (K : bool -> Prop) (r : NodeBasedEdge) : Prop :=
  (nb_source r < n \/ nb_source r = UINT_MAX)%N /\ (nb_target r < n)%N /\ (nb_weight r < INT_MAX)%Z /\ K (nb_is_split r).

Lemma merge_duplicate_step n K l i : Forall (road_in n K) l -> (1 <= i < vsize l)%N -> (vsize l < 4294967296)%N ->
  exists l', merge_duplicate_at l i = Some l' /\ vsize l' = vsize l /\ Forall (road_in n K) l' /\
    forall u t, (u < UINT_MAX)%N -> (t < UINT_MAX)%N -> covered u t l l' /\ covered u t l' l.
Proof.
  intros HF Hi Hsz. unfold merge_duplicate_at. rewrite usub_small by lia.
  destruct (vget_lt l (i - 1) ltac:(lia)) as [p Hp], (vget_lt l i ltac:(lia)) as [e He]. rewrite Hp, He. cbn [mbind option_bind].
  destruct (merge_duplicate p e) as [p' e'] eqn:Hm. rewrite vset_lt by lia. cbn [mbind option_bind]. rewrite vset_lt by (rewrite vsize_insert; lia).
  rewrite vget_lookup in Hp, He. replace (N.to_nat i) with (S (N.to_nat (i - 1))) in * by lia. set (k := N.to_nat (i - 1)) in *.
  assert (l = take k l ++ [p; e] ++ drop (S (S k)) l) as Hl by (cbn [app]; rewrite <- (drop_S l e (S k)) by done; symmetry; by apply take_drop_middle).
  assert (length (take k l) = k) as Hk by (apply lookup_lt_Some in Hp; rewrite length_take; lia).
  eexists. split; [done|]. rewrite !vsize_insert. split; [done|].
  assert (<[S k := e']> (<[k := p']> l) = take k l ++ [p'; e'] ++ drop (S (S k)) l) as ->.
  { rewrite Hl at 1. rewrite insert_app_r_alt, Hk, Nat.sub_diag by lia. cbn. rewrite insert_app_r_alt, Hk by lia.
    by replace (S k - k)%nat with 1%nat by lia. }
  split.
  - rewrite Hl in HF. rewrite !Forall_app, !Forall_cons in *. destruct HF as (HF1 & (Hpi & Hei & _) & HF2). split; [done|split; [|done]].
    destruct (merge_duplicate_fields _ _ _ _ Hm) as (F1 & F2 & F3 & F4 & F5 & F6 & F7 & F8). unfold road_in in *. rewrite F2, F3, F4, F5, F6, F7.
    split_and!; try tauto; [destruct F1 as [->| ->]; tauto|destruct F8 as [->| ->]; tauto|constructor].
  - intros u t Hu Ht. destruct (merge_duplicate_covered u t _ _ _ _ Hu Ht Hm) as [C1 C2]. pose proof (covered_middle u t (take k l) _ _ (drop (S (S k)) l) C1) as D1.
    pose proof (covered_middle u t (take k l) _ _ (drop (S (S k)) l) C2) as D2. rewrite <- Hl in D1, D2. done.
Qed.

Lemma merge_duplicates_ok n K l : Forall (road_in n K) l -> (vsize l < 4294967296)%N ->
  exists l', fold_m merge_duplicate_at l (irange 1 (u32 (vsize l))) = Some l' /\ vsize l' = vsize l /\ Forall (road_in n K) l' /\
    forall u t w, (u < UINT_MAX)%N -> (t < UINT_MAX)%N -> lightest_road l' u t w <-> lightest_road l u t w.
Proof.
  intros HF Hsz. rewrite u32_small by done.
  destruct (fold_m_ind merge_duplicate_at (fun _ l' => vsize l' = vsize l /\ Forall (road_in n K) l' /\
    forall u t w, (u < UINT_MAX)%N -> (t < UINT_MAX)%N -> lightest_road l' u t w <-> lightest_road l u t w) (irange 1 (vsize l)) l) as (l' & Hl' & H);
    [done| |by exists l'].
  intros pre i post s Hsplit (Hs & HFs & Hls). assert (i ∈ irange 1 (vsize l)) as Hi%elem_of_irange by (rewrite Hsplit; set_solver); [|lia].
  destruct (merge_duplicate_step n K s i HFs ltac:(lia) ltac:(lia)) as (s' & -> & Hs' & HFs' & Hc). exists s'. split; [done|]. split; [lia|]. split; [done|].
  intros u t w Hu Ht. destruct (Hc u t Hu Ht). rewrite <- Hls by done. split; by apply covered_lightest.
Qed.

(** Removing the marked roads. *)
Lemma lightest_filter l u t w : (u < UINT_MAX)%N -> (t < UINT_MAX)%N ->
  lightest_road (filter (fun e => nb_source e <> SPECIAL_NODEID) l) u t w <-> lightest_road l u t w.
Proof.
  intros Hu Ht. assert (covered u t (filter (fun e => nb_source e <> SPECIAL_NODEID) l) l) as H1.
  { intros r [_ Hr]%list_elem_of_filter Ha. exists r. auto with lia. }
  assert (covered u t l (filter (fun e => nb_source e <> SPECIAL_NODEID) l)) as H2.
  { intros r Hr Ha. exists r. split; [|auto with lia]. apply list_elem_of_filter. split; [|done]. unfold SPECIAL_NODEID, UINT_MAX in *.
    destruct Ha as [(? & _)|(_ & ? & _)]; lia. }
  split; by apply covered_lightest.
Qed.

(** ** What the extractor writes *)

Definition sorts {A} (key : A -> N) (sort : list A -> list A) : Prop := (forall l, sort l ≡ₚ l) /\ forall l, sorted_by key (sort l).

Lemma unique_sorted l : StronglySorted N.le l -> StronglySorted N.lt (unique l).
Proof.
  induction 1 as [|x l Hl IH HF]; [constructor|]. destruct l as [|y l]; [by repeat constructor|].
  change (unique (x :: y :: l)) with (if (x =? y)%N then unique (y :: l) else x :: unique (y :: l)).
  destruct (N.eqb_spec x y) as [->|Hne]; [done|]. constructor; [done|]. apply Forall_forall. intros z Hz. rewrite elem_of_unique in Hz.
  apply Forall_cons in HF as [Hxy _]. apply StronglySorted_inv in Hl as [_ Hl]. apply elem_of_cons in Hz as [->|Hz]; [lia|].
  rewrite Forall_forall in Hl. specialize (Hl z Hz). lia.
Qed.

Lemma sorted_filter {A} (R : A -> A -> Prop) (P : A -> Prop) `{!forall x, Decision (P x)} l : StronglySorted R l -> StronglySorted R (filter P l).
Proof.
  induction 1 as [|x l Hl IH HF]; [constructor|]. destruct (decide (P x)); [rewrite filter_cons_True by done|by rewrite filter_cons_False].
  constructor; [done|]. apply Forall_forall. intros y [_ Hy]%list_elem_of_filter. rewrite Forall_forall in HF. auto.
Qed.

Lemma length_omap_le {A B} (f : A -> option B) (l : list A) : (length (omap f l) <= length l)%nat.
Proof. induction l as [|x l IH]; cbn [omap list_omap]; [done|]. destruct (f x); cbn [length]; lia. Qed.

Lemma sorted_nodup (l : list N) : StronglySorted N.lt l -> NoDup l.
Proof.
  induction 1 as [|x l Hl IH HF]; constructor; [|done]. intros Hx. rewrite Forall_forall in HF. specialize (HF x Hx). lia.
Qed.

Lemma omap_ids nodes (ids : list N) : mn_node_id <$> omap (with_id mn_node_id nodes) ids = filter (fun id => is_Some (with_id mn_node_id nodes id)) ids.
Proof.
  induction ids as [|id ids IH]; [done|]. cbn [omap list_omap]. destruct (with_id mn_node_id nodes id) as [n|] eqn:Hn.
  - rewrite filter_cons_True by (rewrite Hn; done). rewrite fmap_cons. f_equal; [by apply with_id_Some in Hn as [_ <-]|done].
  - rewrite filter_cons_False by (rewrite Hn; by intros [? ?]). done.
Qed.

(** An extracted edge of weight [w] that leads from [u] to [t]. *)
Definition extracted (math : c_math) (c : ExtractionContainers) (u t : N) (w : Z) : Prop :=
  exists e source target len, e ∈ all_edges_list c /\ source ∈ all_nodes_list c /\ target ∈ all_nodes_list c /\
    mn_node_id source = xe_start e /\ mn_node_id target = xe_target e /\
    edge_length_weight math (set_source source e) target = Some (len, w) /\ edge_leads e u t.

Definition lightest_edge (math : c_math) (c : ExtractionContainers) (u t : N) (w : Z) : Prop :=
  extracted math c u t w /\ forall w', extracted math c u t w' -> (w <= w')%Z.

(** No end of the restriction has been found yet. *)
Definition unresolved (r : InputRestrictionContainer) : Prop := fromNode (ir_restriction r) = UINT_MAX /\ toNode (ir_restriction r) = UINT_MAX.

(** The values of a call fit their types; a node is not at the coordinate that
    stands for an unknown one. *)
Definition call_fits (call : callback) : Prop :=
  match call with
  | NodeCall n => node_fits n /\ mn_lon n <> INT_MIN
  | WayCall w => Forall (fun id => id < 4294967296)%N (ew_path w)
  | RestrictionCall r => unresolved r /\ (viaNode (ir_restriction r) < 4294967296)%N
  end.

Section prepared.
  Context (math : c_math) (calls : list callback) (m : gmap str N) (c : ExtractionContainers).
  Context (sort_ids_disk : list N -> list N) (sort_nodes : list ExternalMemoryNode -> list ExternalMemoryNode)
    (sort_by_start sort_by_target : list InternalExtractorEdge -> list InternalExtractorEdge).
  Hypothesis sort_ids_ok : sorts (fun id => id) sort_ids_disk.
  Hypothesis sort_nodes_ok : sorts mn_node_id sort_nodes.
  Hypothesis sort_by_start_ok : sorts xe_start sort_by_start.
  Hypothesis sort_by_target_ok : sorts xe_target sort_by_target.
  Hypothesis c_wf : containers_wf calls m c.
  Hypothesis calls_fit : Forall call_fits calls.
  Hypothesis node_ids : NoDup (mn_node_id <$> all_nodes_list c).
  Hypothesis edge_count : (vsize (all_edges_list c) < 1073741824)%N.
  Hypothesis node_count : (vsize (all_nodes_list c) < 2147483648)%N.
  Hypothesis name_count : (vsize (name_list c) < 4294967296)%N.
  Hypothesis weights_fit : forall e source target, e ∈ all_edges_list c -> source ∈ all_nodes_list c -> target ∈ all_nodes_list c ->
    mn_node_id source = xe_start e -> mn_node_id target = xe_target e ->
    exists len w, edge_length_weight math (set_source source e) target = Some (len, w) /\ (w < INT_MAX)%Z.
#[local] Set Default Proof Using "All".

Definition nodes_sorted : list ExternalMemoryNode := sort_nodes (all_nodes_list c).
Definition ids_used : list N := unique (sort_ids_disk (used_node_id_list c)).
Definition nodes_written : list ExternalMemoryNode := used_nodes ids_used nodes_sorted.

Lemma node_of_id id n : with_id mn_node_id nodes_sorted id = Some n <-> n ∈ all_nodes_list c /\ mn_node_id n = id.
Proof.
  unfold nodes_sorted. rewrite with_id_nodup; [|by rewrite (proj1 sort_nodes_ok)]. by rewrite (proj1 sort_nodes_ok).
Qed.

Lemma written_omap : nodes_written = omap (with_id mn_node_id nodes_sorted) ids_used.
Proof. apply used_nodes_omap; [apply unique_sorted, sort_ids_ok|apply sort_nodes_ok]. Qed.

Lemma written_sorted : StronglySorted N.lt (mn_node_id <$> nodes_written).
Proof. rewrite written_omap, omap_ids. apply sorted_filter, unique_sorted, sort_ids_ok. Qed.

Lemma elem_of_ids_used id : id ∈ ids_used <-> id ∈ used_node_id_list c.
Proof. unfold ids_used. by rewrite elem_of_unique, (proj1 sort_ids_ok). Qed.

Lemma elem_of_written n : n ∈ nodes_written <-> n ∈ all_nodes_list c /\ mn_node_id n ∈ used_node_id_list c.
Proof.
  rewrite written_omap, list_elem_of_omap. setoid_rewrite elem_of_ids_used. setoid_rewrite node_of_id. naive_solver.
Qed.

Lemma written_count : (vsize nodes_written < 2147483648)%N.
Proof.
  assert (mn_node_id <$> nodes_written ⊆+ mn_node_id <$> all_nodes_list c) as H.
  { apply NoDup_submseteq; [apply sorted_nodup, written_sorted|]. intros id (n & -> & Hn)%list_elem_of_fmap. apply elem_of_written in Hn as [Hn _].
    by apply list_elem_of_fmap_2. }
  apply submseteq_length in H. rewrite !length_fmap in H. unfold vsize in *. lia.
Qed.

Lemma node_facts n : n ∈ all_nodes_list c -> node_fits n /\ mn_lat n <> INT_MIN /\ mn_lon n <> INT_MIN.
Proof.
  intros [Hcall Hlat]%(cw_nodes _ _ _ c_wf). rewrite Forall_forall in calls_fit. destruct (calls_fit _ Hcall). done.
Qed.

(** *** Edges *)

(** The edge with the coordinate of its start. *)
Definition located (e : InternalExtractorEdge) : InternalExtractorEdge :=
  match with_id mn_node_id nodes_sorted (xe_start e) with Some n => set_source n e | None => e end.

Definition edges_located : list InternalExtractorEdge := sort_by_target (merge_scan mn_node_id xe_start set_source nodes_sorted (sort_by_start (all_edges_list c))).

Lemma located_perm : edges_located ≡ₚ located <$> all_edges_list c.
Proof.
  unfold edges_located. rewrite (proj1 sort_by_target_ok), merge_scan_map by (apply sort_nodes_ok || apply sort_by_start_ok).
  by rewrite (proj1 sort_by_start_ok).
Qed.

Definition raw_road_of (e : InternalExtractorEdge) (lw : Z * Z) : raw_road :=
  MkRawRoad (xe_start e) (xe_target e) (fst lw) (default 0%N (direction_code (xe_direction e))) (snd lw) (xe_name_id e) (xe_is_roundabout e)
    (xe_is_in_tiny_cc e) (xe_is_access_restricted e) (xe_travel_mode e) (xe_is_split e).

(** The road that is written for an edge. *)
Definition raw_of (e : InternalExtractorEdge) : option raw_road :=
  if negb (lat (xe_source_coordinate e) =? INT_MIN)%Z && negb (lon (xe_source_coordinate e) =? INT_MIN)%Z then
    n ← with_id mn_node_id nodes_sorted (xe_target e);
    raw_road_of e <$> edge_length_weight math e n
  else None.

Lemma raw_of_unknown e : e ∈ all_edges_list c -> with_id mn_node_id nodes_sorted (xe_start e) = None -> raw_of (located e) = None.
Proof.
  intros He Hnone. unfold located. rewrite Hnone. unfold raw_of. destruct (cw_edges _ _ _ c_wf e He) as [[_ _ _ _ _ ->] _]. done.
Qed.

Lemma located_known e n : with_id mn_node_id nodes_sorted (xe_start e) = Some n ->
  located e = set_source n e /\ (negb (lat (xe_source_coordinate (located e)) =? INT_MIN)%Z && negb (lon (xe_source_coordinate (located e)) =? INT_MIN)%Z) = true.
Proof.
  intros Hn. unfold located. rewrite Hn. split; [done|]. cbn. apply node_of_id in Hn as [Hn _]. apply node_facts in Hn as (_ & ? & ?).
  destruct (Z.eqb_spec (mn_lat n) INT_MIN), (Z.eqb_spec (mn_lon n) INT_MIN); done.
Qed.

Lemma located_fields e : xe_start (located e) = xe_start e /\ xe_target (located e) = xe_target e /\ xe_direction (located e) = xe_direction e.
Proof. unfold located. by destruct (with_id _ _ _). Qed.

Lemma write_road_located e : e ∈ all_edges_list c ->
  match with_id mn_node_id nodes_sorted (xe_target (located e)) with
  | Some n => write_road math n (located e) = Some (raw_bytes <$> raw_of (located e))
  | None => raw_bytes <$> raw_of (located e) = None
  end.
Proof.
  intros He. destruct (with_id mn_node_id nodes_sorted (xe_start e)) as [s|] eqn:Hs.
  - destruct (located_known e s Hs) as [Hloc Hset]. unfold write_road, raw_of. rewrite Hset. destruct (located_fields e) as (_ & Ht & Hd). rewrite Ht.
    destruct (with_id mn_node_id nodes_sorted (xe_target e)) as [t|] eqn:Hn; [|done]. cbn [mbind option_bind]. rewrite Hloc.
    apply node_of_id in Hs as [Hs Hse], Hn as [Hn Hne]. destruct (weights_fit e s t He Hs Hn Hse Hne) as (len & w & -> & _). cbn [mbind option_bind fmap option_fmap option_map].
    rewrite <- Hloc. unfold raw_road_of. destruct (cw_edges _ _ _ c_wf e He) as [[_ _ Hdir _ _ _] _]. rewrite Hd. by destruct Hdir as [-> | ->].
  - rewrite raw_of_unknown by done. destruct (with_id mn_node_id nodes_sorted (xe_target (located e))); [|done]. unfold write_road, located. rewrite Hs.
    destruct (cw_edges _ _ _ c_wf e He) as [[_ _ _ _ _ ->] _]. done.
Qed.

Lemma roads_written : write_roads math nodes_sorted edges_located = Some (raw_bytes <$> omap raw_of edges_located).
Proof.
  rewrite (write_roads_omap math (fun e => raw_bytes <$> raw_of e)).
  - f_equal. induction edges_located as [|e l IH]; [done|]. cbn [omap list_omap]. destruct (raw_of e); cbn [fmap option_fmap option_map]; [rewrite fmap_cons|]; by rewrite IH.
  - apply sort_nodes_ok.
  - apply sort_by_target_ok.
  - intros e. rewrite located_perm, list_elem_of_fmap. intros (x & -> & Hx). by apply write_road_located.
Qed.

(** The roads of the file are the edges between known nodes. *)
Lemma elem_of_raws r : r ∈ omap raw_of edges_located <-> exists e source target len w, e ∈ all_edges_list c /\ source ∈ all_nodes_list c /\
  target ∈ all_nodes_list c /\ mn_node_id source = xe_start e /\ mn_node_id target = xe_target e /\
  edge_length_weight math (set_source source e) target = Some (len, w) /\ r = raw_road_of (set_source source e) (len, w).
Proof.
  rewrite list_elem_of_omap. setoid_rewrite located_perm. setoid_rewrite list_elem_of_fmap. split.
  - intros (x & (e & -> & He) & Hr). destruct (with_id mn_node_id nodes_sorted (xe_start e)) as [s|] eqn:Hs; [|by rewrite raw_of_unknown in Hr].
    destruct (located_known e s Hs) as [Hloc Hset]. unfold raw_of in Hr. rewrite Hset, Hloc in Hr. cbn [xe_target set_source] in Hr.
    destruct (with_id mn_node_id nodes_sorted (xe_target e)) as [t|] eqn:Ht; [|done]. cbn [mbind option_bind] in Hr.
    apply node_of_id in Hs as [Hs Hse], Ht as [Ht Hte]. destruct (edge_length_weight _ _ t) as [[len w]|] eqn:Hw; [|done]. injection Hr as <-.
    by exists e, s, t, len, w.
  - intros (e & s & t & len & w & He & Hs & Ht & Hse & Hte & Hw & ->). exists (located e). split; [by exists e|].
    assert (with_id mn_node_id nodes_sorted (xe_start e) = Some s) as Hs' by (by apply node_of_id).
    destruct (located_known e s Hs') as [Hloc Hset]. unfold raw_of. rewrite Hset, Hloc. cbn [xe_target set_source].
    rewrite (proj2 (node_of_id (xe_target e) t)) by done. cbn [mbind option_bind]. by rewrite Hw.
Qed.

Lemma weight_bounds e n len w : edge_length_weight math e n = Some (len, w) -> (1 <= len <= INT_MAX)%Z /\ (1 <= w <= INT_MAX)%Z.
Proof.
  assert (forall x y, floor_int x = Some y \/ truncate x = Some y -> (y <= INT_MAX)%Z) as Hi.
  { intros [] y [H|H]; cbn in H; try discriminate; try (injection H as <-; unfold INT_MAX; lia); apply i32_inv in H as [-> [_ ?]]; done. }
  unfold edge_length_weight. generalize (to_double (ApproximateEuclideanDistance math (lat (xe_source_coordinate e)) (lon (xe_source_coordinate e)) (mn_lat n) (mn_lon n))).
  intros d H. destruct (floor_int _) as [x|] eqn:E; [|discriminate H]. cbn [mbind option_bind] in H.
  destruct (truncate d) as [y|] eqn:E0; [|discriminate H]. cbn [mbind option_bind] in H. injection H as <- <-. pose proof (Hi _ _ (or_introl E)). pose proof (Hi _ _ (or_intror E0)). unfold INT_MAX in *. lia.
Qed.

Lemma raws_fit r : r ∈ omap raw_of edges_located -> raw_fits r.
Proof.
  rewrite elem_of_raws. intros (e & s & t & len & w & He & Hs & Ht & Hse & Hte & Hw & ->). apply weight_bounds in Hw as [Hl Hw].
  apply node_facts in Hs as [(_ & _ & Hs) _], Ht as [(_ & _ & Ht) _]. destruct (cw_edges _ _ _ c_wf e He) as [[_ _ Hd _ _ _] Hn].
  unfold raw_fits, raw_road_of, in_int, INT_MIN, INT_MAX in *. cbn. split_and!; try lia. by destruct Hd as [-> | ->].
Qed.

(** *** The import *)

Definition external : list N := mn_node_id <$> nodes_written.

Section import.
  Context (st : node_import).
  Hypothesis st_ok : imported nodes_written st.

Lemma internal_id id : id ∈ mn_node_id <$> all_nodes_list c -> id ∈ used_node_id_list c ->
  exists i, ext_to_int_id_map st !! id = Some i /\ external !! N.to_nat i = Some id /\ (i < vsize nodes_written)%N.
Proof.
  intros (n & -> & Hn)%list_elem_of_fmap Hu. assert (mn_node_id n ∈ external) as (k & Hk)%list_elem_of_lookup_1 by (by apply list_elem_of_fmap_2, elem_of_written).
  exists (N.of_nat k). rewrite Nat2N.id. split; [by apply (im_ids _ _ st_ok); rewrite Nat2N.id|]. split; [done|].
  apply lookup_lt_Some in Hk. unfold external in Hk. rewrite length_fmap in Hk. unfold vsize. lia.
Qed.

Lemma external_inj i j u : external !! N.to_nat i = Some u -> external !! N.to_nat j = Some u -> i = j.
Proof. intros Hi Hj. pose proof (NoDup_lookup _ _ _ _ (sorted_nodup _ written_sorted) Hi Hj). lia. Qed.

(** The road of the import for an extracted edge. *)
Lemma translate_road_ok r : r ∈ omap raw_of edges_located ->
  exists a b x, external !! N.to_nat a = Some (rr_source r) /\ external !! N.to_nat b = Some (rr_target r) /\ translate_road (ext_to_int_id_map st) r = Some x /\
    nb_weight x = rr_weight r /\ nb_is_split x = rr_split r /\ (nb_source x < vsize nodes_written)%N /\ (nb_target x < vsize nodes_written)%N /\
    forall i j, allows x i j <-> a = i /\ b = j /\ rr_dir r <> 2%N \/ b = i /\ a = j /\ rr_dir r <> 1%N.
Proof.
  rewrite elem_of_raws. intros (e & s & t & len & w & He & Hs & Ht & Hse & Hte & Hw & ->).
  destruct (cw_edges _ _ _ c_wf e He) as [[Hu Hu' _ _ _ _] _].
  destruct (internal_id (xe_start e)) as (a & Ha & Hea & Hla); [rewrite <- Hse; by apply list_elem_of_fmap_2|done|].
  destruct (internal_id (xe_target e)) as (b & Hb & Heb & Hlb); [rewrite <- Hte; by apply list_elem_of_fmap_2|done|].
  set (r := raw_road_of _ _). exists a, b. unfold translate_road. change (rr_source r) with (xe_start e). change (rr_target r) with (xe_target e).
  rewrite Ha, Hb. cbn [mbind option_bind]. unfold allows. generalize (rr_dir r). intros d.
  destruct (N.ltb_spec b a); eexists; (split_and!; [done|done|done|done|done|done|done|]); intros i j; cbn [nb_source nb_target nb_forward nb_backward NodeBasedEdge_make];
    rewrite !negb_true_iff, !N.eqb_neq; intuition congruence.
Qed.

Definition import_roads : list NodeBasedEdge := omap (translate_road (ext_to_int_id_map st)) (omap raw_of edges_located).

Lemma edge_direction e lw s : e ∈ all_edges_list c -> rr_dir (raw_road_of (set_source s e) lw) <> 2%N /\
  (rr_dir (raw_road_of (set_source s e) lw) <> 1%N <-> xe_direction e <> oneway).
Proof. intros He. destruct (cw_edges _ _ _ c_wf e He) as [[_ _ [Hd|Hd] _ _ _] _]; cbn; rewrite Hd; cbn; split; done. Qed.

Lemma import_roads_extracted i j u t w : external !! N.to_nat i = Some u -> external !! N.to_nat j = Some t ->
  (exists x, x ∈ import_roads /\ allows x i j /\ road_weight x = w) <-> extracted math c u t w.
Proof.
  intros Hi Hj. unfold import_roads. setoid_rewrite list_elem_of_omap. split.
  - intros (x & (r & Hr & Hx) & Hall & Hw). destruct (translate_road_ok r Hr) as (a & b & x' & Ha & Hb & Hx' & Hwx & _ & _ & _ & Hal).
    rewrite Hx in Hx'. injection Hx' as <-. rewrite Hal in Hall. apply elem_of_raws in Hr as (e & s & t' & len & w' & He & Hs & Ht & Hse & Hte & Hw' & ->).
    destruct (edge_direction e (len, w') s He) as [_ Hd]. pose proof (weight_bounds _ _ _ _ Hw') as [_ Hb']. unfold road_weight in Hw. rewrite Hwx in Hw. cbn in Hw, Ha, Hb.
    assert (w' = w) as -> by lia. exists e, s, t', len. split_and!; try done. unfold edge_leads.
    destruct Hall as [(-> & -> & _)|(-> & -> & H1)]; [left|right; rewrite <- Hd]; split_and?; try done; congruence.
  - intros (e & s & t' & len & He & Hs & Ht & Hse & Hte & Hw & Hl). set (r := raw_road_of (set_source s e) (len, w)).
    assert (r ∈ omap raw_of edges_located) as Hr by (apply elem_of_raws; by exists e, s, t', len, w).
    destruct (translate_road_ok r Hr) as (a & b & x & Ha & Hb & Hx & Hwx & _ & _ & _ & Hal). exists x. split; [by exists r|].
    pose proof (weight_bounds _ _ _ _ Hw) as [_ Hb']. split; [|unfold road_weight; rewrite Hwx; cbn; lia]. rewrite Hal.
    destruct (edge_direction e (len, w) s He) as [H2 Hd]. cbn in Ha, Hb. unfold edge_leads in Hl.
    destruct Hl as [[<- <-]|(<- & <- & H1)]; [left|right]; (split_and!; [by eapply external_inj|by eapply external_inj|tauto]).
Qed.

Lemma import_roads_in K : Forall (fun e => K (xe_is_split e)) (all_edges_list c) -> Forall (road_in (vsize nodes_written) K) import_roads.
Proof.
  intros HK. apply Forall_forall. intros x (r & Hr & Hx)%list_elem_of_omap. destruct (translate_road_ok r Hr) as (a & b & x' & _ & _ & Hx' & Hw & Hsp & Hsrc & Htgt & _).
  rewrite Hx in Hx'. injection Hx' as <-. apply elem_of_raws in Hr as (e & s & t & len & w & He & Hs & Ht & Hse & Hte & Hlw & ->).
  destruct (weights_fit e s t He Hs Ht Hse Hte) as (len' & w' & Hlw' & Hmax). rewrite Hlw in Hlw'. injection Hlw' as <- <-.
  unfold road_in. rewrite Hw, Hsp. cbn. rewrite Forall_forall in HK. split_and!; auto.
Qed.
End import.

Abbreviation raws := (omap raw_of edges_located).

Lemma raws_count : (vsize raws < 1073741824)%N.
Proof.
  pose proof (length_omap_le raw_of edges_located) as H. rewrite (Permutation_length located_perm) in H. rewrite length_fmap in H. unfold vsize in *. lia.
Qed.

Lemma prepare_data_ok sort_ways sort_by_from sort_by_to fingerprint junk : vsize junk = NAME_BLOCK_SIZE ->
  (total_of (name_length <$> name_list c) < 4294967296)%N ->
  exists restrictions_file names_file,
    PrepareData math sort_ids_disk sort_nodes sort_ways sort_by_from sort_by_to sort_by_start sort_by_target fingerprint junk c =
    Some (fingerprint_bytes fingerprint ++ le32 (vsize nodes_written) ++ (nodes_written ≫= node_bytes) ++ le32 (vsize raws) ++ (raws ≫= raw_bytes),
      restrictions_file, names_file).
Proof.
  intros Hj Htot. destruct (write_names_total junk (name_list c) Hj Htot) as [names Hnames]. eexists _, names. unfold PrepareData.
  pose proof roads_written as Hroads. unfold edges_located, nodes_sorted in Hroads. rewrite Hroads. cbn [mbind option_bind]. rewrite Hnames. cbn [mbind option_bind].
  fold nodes_sorted edges_located ids_used nodes_written. pose proof written_count. pose proof raws_count.
  assert (vsize (raw_bytes <$> raws) = vsize raws) as -> by (unfold vsize; by rewrite length_fmap). rewrite !u32_small by lia.
  assert (forall l, concat (raw_bytes <$> l) = l ≫= raw_bytes) as -> by (induction l as [|x l IH]; [done|]; by rewrite fmap_cons, bind_cons, <- IH). done.
Qed.

Lemma import_prepared sort_edges fingerprint own rl K : (forall l, sort_edges l ≡ₚ l) -> fingerprint_wf fingerprint -> IsMagicNumberOK own = true ->
  Forall (fun e => K (xe_is_split e)) (all_edges_list c) ->
  exists st roads, readBinaryOSRMGraphFromStream sort_edges own
      (fingerprint_bytes fingerprint ++ le32 (vsize nodes_written) ++ (nodes_written ≫= node_bytes) ++ le32 (vsize raws) ++ (raws ≫= raw_bytes)) rl =
      Some (inr (vsize nodes_written, st, roads, translate_restriction (ext_to_int_id_map st) <$> rl)) /\
    imported nodes_written st /\ (vsize roads < 1073741824)%N /\
    Forall (fun r => (nb_source r < vsize nodes_written)%N /\ (nb_target r < vsize nodes_written)%N /\ (nb_weight r < INT_MAX)%Z /\ K (nb_is_split r)) roads /\
    forall i j u t w, external !! N.to_nat i = Some u -> external !! N.to_nat j = Some t ->
      lightest_road roads i j w <-> lightest_edge math c u t w.
Proof.
  intros Hsort Hfp Hown HK. pose proof written_count as Hn. pose proof raws_count as Hm.
  pose proof (import_nodes_ok nodes_written (sorted_nodup _ written_sorted) ltac:(lia)) as Hst. set (st := foldl _ _ nodes_written) in Hst.
  pose proof (import_roads_in st Hst K HK) as Hin. rewrite <- (Hsort (import_roads st)) in Hin.
  assert (vsize (sort_edges (import_roads st)) < 1073741824)%N as Hsz.
  { unfold vsize. rewrite Hsort. pose proof (length_omap_le (translate_road (ext_to_int_id_map st)) raws). unfold vsize, import_roads in *. lia. }
  destruct (merge_duplicates_ok _ _ _ Hin ltac:(lia)) as (l' & Hl' & Hsz' & Hin' & Hlight).
  exists st, (filter (fun e => nb_source e <> SPECIAL_NODEID) l'). split; [|split; [done|split; [|split]]].
  - unfold readBinaryOSRMGraphFromStream. rewrite read_fingerprint_ok by done. cbn [mbind option_bind]. unfold TestGraphUtil, test_hash. rewrite Hown. cbn [negb].
    rewrite read_le32 by lia. cbn [mbind option_bind]. replace (N.to_nat (vsize nodes_written)) with (length nodes_written) by (unfold vsize; lia).
    rewrite (read_many_ok read_memory_node node_bytes id); [|intros x s Hx; apply elem_of_written in Hx as [Hx _]; by apply read_memory_node_ok, node_facts].
    rewrite list_fmap_id. cbn [mbind option_bind]. fold st. rewrite read_le32 by lia. cbn [mbind option_bind].
    replace (N.to_nat (vsize raws)) with (length raws) by (unfold vsize; lia). rewrite <- (app_nil_r (raws ≫= raw_bytes)).
    rewrite (read_many_ok read_road raw_bytes id); [|intros x s Hx; by apply read_road_ok, raws_fit]. rewrite list_fmap_id. cbn [mbind option_bind].
    fold (import_roads st). rewrite Hl'. done.
  - pose proof (length_filter (fun e => nb_source e <> SPECIAL_NODEID) l'). unfold vsize in *. lia.
  - apply Forall_forall. intros r [Hr Hx]%list_elem_of_filter. rewrite Forall_forall in Hin'. destruct (Hin' r Hx) as ([?|?] & ? & ? & ?); done.
  - intros i j u t w Hi Hj. pose proof (lookup_lt_Some _ _ _ Hi) as Hli. pose proof (lookup_lt_Some _ _ _ Hj) as Hlj.
    unfold external in Hli, Hlj. rewrite length_fmap in Hli, Hlj. unfold vsize, UINT_MAX in *.
    rewrite lightest_filter, Hlight by (unfold UINT_MAX; lia). pose proof (import_roads_extracted st Hst i j u t) as Hex. specialize (Hex) with (1 := Hi) (2 := Hj).
    unfold lightest_road, lightest_edge. setoid_rewrite Hsort. rewrite Hex. split; intros [Hw Hmin]; (split; [done|]).
    + intros w' (x & Hx & Ha & <-)%Hex. by apply Hmin.
    + intros r Hr Ha. apply Hmin, Hex. by exists r.
Qed.

(** Both together, in terms of the nodes of the import. *)
Lemma prepared_import sort_ways sort_by_from sort_by_to fingerprint junk sort_edges own rl K :
  vsize junk = NAME_BLOCK_SIZE -> (total_of (name_length <$> name_list c) < 4294967296)%N ->
  (forall l, sort_edges l ≡ₚ l) -> fingerprint_wf fingerprint -> IsMagicNumberOK own = true -> Forall (fun e => K (xe_is_split e)) (all_edges_list c) ->
  exists osrm_file restrictions_file names_file n st roads,
    PrepareData math sort_ids_disk sort_nodes sort_ways sort_by_from sort_by_to sort_by_start sort_by_target fingerprint junk c =
      Some (osrm_file, restrictions_file, names_file) /\
    readBinaryOSRMGraphFromStream sort_edges own osrm_file rl = Some (inr (n, st, roads, translate_restriction (ext_to_int_id_map st) <$> rl)) /\
    n = vsize (int_to_ext_node_id_map st) /\ (n < 2147483648)%N /\ (vsize roads < 1073741824)%N /\
    StronglySorted N.lt (ni_node_id <$> int_to_ext_node_id_map st) /\
    (forall id, id ∈ ni_node_id <$> int_to_ext_node_id_map st <-> id ∈ mn_node_id <$> all_nodes_list c /\ id ∈ used_node_id_list c) /\
    Forall (fun r => (nb_source r < n)%N /\ (nb_target r < n)%N /\ (nb_weight r < INT_MAX)%Z /\ K (nb_is_split r)) roads /\
    forall i j a b w, int_to_ext_node_id_map st !! N.to_nat i = Some a -> int_to_ext_node_id_map st !! N.to_nat j = Some b ->
      lightest_road roads i j w <-> lightest_edge math c (ni_node_id a) (ni_node_id b) w.
Proof.
  intros Hj Htot Hsort Hfp Hown HK. destruct (prepare_data_ok sort_ways sort_by_from sort_by_to fingerprint junk Hj Htot) as (rf & nf & Hprep).
  destruct (import_prepared sort_edges fingerprint own rl K Hsort Hfp Hown HK) as (st & roads & Hread & [I1 I2 I3 I4] & Hcount & Hroads & Hlight).
  assert (ni_node_id <$> int_to_ext_node_id_map st = external) as Hids by (by rewrite I1, <- list_fmap_compose).
  eexists _, rf, nf, (vsize nodes_written), st, roads. split; [exact Hprep|]. split; [exact Hread|].
  split; [rewrite I1; unfold vsize; by rewrite length_fmap|]. split; [apply written_count|]. split; [done|]. rewrite Hids.
  split; [apply written_sorted|]. split; [|split; [done|]].
  - intros id. unfold external. rewrite !list_elem_of_fmap. setoid_rewrite elem_of_written. naive_solver.
  - intros i j a b w Ha Hb. apply Hlight; rewrite <- Hids, list_lookup_fmap; [by rewrite Ha|by rewrite Hb].
Qed.
End prepared.

(** ** Properties *)

(** The sorting routines that [PrepareData] uses. *)
Record container_sorts := MkContainerSorts {
  cs_ids : list N -> list N; cs_nodes : list ExternalMemoryNode -> list ExternalMemoryNode;
  cs_ways : list WayIDStartAndEndEdge -> list WayIDStartAndEndEdge;
  cs_from : list InputRestrictionContainer -> list InputRestrictionContainer; cs_to : list InputRestrictionContainer -> list InputRestrictionContainer;
  cs_start : list InternalExtractorEdge -> list InternalExtractorEdge; cs_target : list InternalExtractorEdge -> list InternalExtractorEdge }.

Record container_sorts_ok (s : container_sorts) : Prop := {
  so_ids : sorts (fun id => id) (cs_ids s); so_nodes : sorts mn_node_id (cs_nodes s); so_ways : sorts wayID (cs_ways s);
  so_from : sorts fromWay (cs_from s); so_to : sorts toWay (cs_to s); so_start : sorts xe_start (cs_start s); so_target : sorts xe_target (cs_target s);
}.

Definition prepare_data (math : c_math) (s : container_sorts) : FingerPrint -> list N -> ExtractionContainers -> option (list N * list N * list N) :=
  PrepareData math (cs_ids s) (cs_nodes s) (cs_ways s) (cs_from s) (cs_to s) (cs_start s) (cs_target s).

(** The calls fit their types, no two nodes have the same id, the lists are not
    too long and the weights can be represented. *)
Record calls_ok (math : c_math) (calls : list callback) (c : ExtractionContainers) : Prop := {
  co_count : (vsize calls < 4294967295)%N;
  co_fit : Forall call_fits calls;
  co_ids : NoDup (mn_node_id <$> all_nodes_list c);
  co_edges : (vsize (all_edges_list c) < 1073741824)%N;
  co_nodes : (vsize (all_nodes_list c) < 2147483648)%N;
  co_names : (total_of (name_length <$> name_list c) < 4294967296)%N;
  co_weights e source target : e ∈ all_edges_list c -> source ∈ all_nodes_list c -> target ∈ all_nodes_list c ->
    mn_node_id source = xe_start e -> mn_node_id target = xe_target e ->
    exists len w, edge_length_weight math (set_source source e) target = Some (len, w) /\ (w < INT_MAX)%Z;
}.

(** The extraction and the import, with what the roads of the import satisfy. *)
Lemma extraction_import math s calls m c fingerprint own junk sort_edges rl K :
  container_sorts_ok s -> (forall l, sort_edges l ≡ₚ l) -> run_callbacks calls = Some (m, c) -> calls_ok math calls c ->
  fingerprint_wf fingerprint -> IsMagicNumberOK own = true -> vsize junk = NAME_BLOCK_SIZE -> Forall (fun e => K (xe_is_split e)) (all_edges_list c) ->
  exists osrm_file restrictions_file names_file n st roads, prepare_data math s fingerprint junk c = Some (osrm_file, restrictions_file, names_file) /\
    readBinaryOSRMGraphFromStream sort_edges own osrm_file rl = Some (inr (n, st, roads, translate_restriction (ext_to_int_id_map st) <$> rl)) /\
    n = vsize (int_to_ext_node_id_map st) /\ (n < 2147483648)%N /\ (vsize roads < 1073741824)%N /\
    StronglySorted N.lt (ni_node_id <$> int_to_ext_node_id_map st) /\
    (forall id, id ∈ ni_node_id <$> int_to_ext_node_id_map st <->
      id ∈ mn_node_id <$> all_nodes_list c /\ exists w, WayCall w ∈ calls /\ accepted w = true /\ id ∈ ew_path w) /\
    Forall (fun r => (nb_source r < n)%N /\ (nb_target r < n)%N /\ (nb_weight r < INT_MAX)%Z /\ K (nb_is_split r)) roads /\
    forall i j a b w, int_to_ext_node_id_map st !! N.to_nat i = Some a -> int_to_ext_node_id_map st !! N.to_nat j = Some b ->
      lightest_road roads i j w <-> lightest_edge math c (ni_node_id a) (ni_node_id b) w.
Proof.
  intros [Sids Snodes _ _ _ Sstart Star] Hsort Hrun [C1 C2 C3 C4 C5 C6 C7] Hfp Hown Hj HK.
  destruct (run_callbacks_ok calls C1) as (m' & c' & Hrun' & Hwf). rewrite Hrun in Hrun'. injection Hrun' as <- <-.
  assert (vsize (name_list c) < 4294967296)%N as Hnames by (pose proof (cw_count _ _ _ Hwf); lia).
  setoid_rewrite <- (cw_used _ _ _ Hwf). unfold prepare_data. eapply prepared_import; eassumption.
Qed.

(** C19: the roads survive the extraction and the import. For calls with
    representable values the extractor writes its files and the import reads
    the nodes and roads back: the nodes are the known nodes of accepted ways in
    the order of their ids, the roads lead to imported nodes, and for every
    two nodes the lightest road between them is the lightest edge that was
    extracted, whichever parallel roads the import drops. *)
Theorem extraction_imported math s calls m c fingerprint own junk sort_edges rl :
  container_sorts_ok s -> (forall l, sort_edges l ≡ₚ l) -> run_callbacks calls = Some (m, c) -> calls_ok math calls c ->
  fingerprint_wf fingerprint -> IsMagicNumberOK own = true -> vsize junk = NAME_BLOCK_SIZE ->
  exists osrm_file restrictions_file names_file n st roads, prepare_data math s fingerprint junk c = Some (osrm_file, restrictions_file, names_file) /\
    readBinaryOSRMGraphFromStream sort_edges own osrm_file rl = Some (inr (n, st, roads, translate_restriction (ext_to_int_id_map st) <$> rl)) /\
    n = vsize (int_to_ext_node_id_map st) /\ StronglySorted N.lt (ni_node_id <$> int_to_ext_node_id_map st) /\
    (forall id, id ∈ ni_node_id <$> int_to_ext_node_id_map st <->
      id ∈ mn_node_id <$> all_nodes_list c /\ exists w, WayCall w ∈ calls /\ accepted w = true /\ id ∈ ew_path w) /\
    Forall (fun r => (nb_source r < n)%N /\ (nb_target r < n)%N) roads /\
    forall i j a b w, int_to_ext_node_id_map st !! N.to_nat i = Some a -> int_to_ext_node_id_map st !! N.to_nat j = Some b ->
      lightest_road roads i j w <-> lightest_edge math c (ni_node_id a) (ni_node_id b) w.
Proof.
  intros Hs Hsort Hrun Hok Hfp Hown Hj. destruct (extraction_import math s calls m c fingerprint own junk sort_edges rl (fun _ => True)
    Hs Hsort Hrun Hok Hfp Hown Hj) as (osrm & rf & nf & n & st & roads & H1 & H2 & H3 & _ & _ & H4 & H5 & H6 & H7); [by apply Forall_true|].
  exists osrm, rf, nf, n, st, roads. split_and!; try done. eapply Forall_impl; [exact H6|]. by intros r (? & ? & _).
Qed.


(** *** A small network *)

Definition sort_by {A} (key : A -> N) (l : list A) : list A := @merge_sort A (fun a b => key a <= key b)%N (fun a b => N.le_dec (key a) (key b)) l.

Lemma sort_by_sorts {A} (key : A -> N) : sorts key (sort_by key).
Proof.
  split; intros l; [apply merge_sort_Permutation|]. apply StronglySorted_merge_sort; [intros a b c; cbn; lia|intros a b; cbn; lia].
Qed.

Definition sample_sorts : container_sorts :=
  MkContainerSorts (sort_by (fun id => id)) (sort_by mn_node_id) (sort_by wayID) (sort_by fromWay) (sort_by toWay) (sort_by xe_start) (sort_by xe_target).

Lemma sample_sorts_ok : container_sorts_ok sample_sorts.
Proof. split; apply sort_by_sorts. Qed.

(** A two-way road over three nodes and a one-way road that is parallel to it. *)
Definition sample_calls : list callback :=
  let speed := double_of_int 50 in
  [NodeCall (MkMemoryNode 52000000 13000000 9 false true); NodeCall (MkMemoryNode 52001000 13000000 4 false false);
   NodeCall (MkMemoryNode 52002000 13000000 7 true false); NodeCall (MkMemoryNode 52003000 13000000 5 false false);
   WayCall (MkExtractionWay 7 0 speed speed dzero [65]%N false false false [4; 9; 7]%N 1 1);
   WayCall (MkExtractionWay 8 0 (double_of_int 90) (double_of_int 90) dzero [66]%N false false false [9; 4]%N 1 0)].

Definition sample_result : gmap str N * ExtractionContainers := default (∅, ExtractionContainers_make) (run_callbacks sample_calls).

Definition weights_test (math : c_math) (c : ExtractionContainers) : bool :=
  forallb (fun e => forallb (fun s => forallb (fun t =>
    match edge_length_weight math (set_source s e) t with Some (_, w) => (w <? INT_MAX)%Z | None => false end)
    (all_nodes_list c)) (all_nodes_list c)) (all_edges_list c).

Lemma weights_test_ok math c : weights_test math c = true -> forall e source target, e ∈ all_edges_list c -> source ∈ all_nodes_list c -> target ∈ all_nodes_list c ->
  exists len w, edge_length_weight math (set_source source e) target = Some (len, w) /\ (w < INT_MAX)%Z.
Proof.
  unfold weights_test. rewrite forallb_forall. intros H e s t He Hs Ht. apply list_elem_of_In in He, Hs, Ht. specialize (H e He).
  rewrite forallb_forall in H. specialize (H s Hs). rewrite forallb_forall in H. specialize (H t Ht).
  destruct (edge_length_weight _ _ _) as [[len w]|]; [|done]. exists len, w. split; [done|lia].
Qed.

Lemma sample_calls_ok : calls_ok sample_math sample_calls (snd sample_result).
Proof.
  split.
  - reflexivity.
  - repeat constructor; vm_compute; congruence.
  - vm_compute. repeat (constructor; [by set_solver|]). constructor.
  - reflexivity.
  - reflexivity.
  - reflexivity.
  - intros e s t He Hs Ht _ _. apply (weights_test_ok sample_math (snd sample_result)); [vm_compute; reflexivity|exact He|exact Hs|exact Ht].
Qed.

Lemma extraction_imported_witness : exists osrm restrictions names n st roads rl,
  prepare_data sample_math sample_sorts sample_print (replicate 16 7%N) (snd sample_result) = Some (osrm, restrictions, names) /\
  readBinaryOSRMGraphFromStream id sample_print osrm [] = Some (inr (n, st, roads, rl)) /\
  (7 ∈ ni_node_id <$> int_to_ext_node_id_map st)%N.
Proof.
  destruct (extraction_imported sample_math sample_sorts sample_calls (fst sample_result) (snd sample_result) sample_print sample_print
    (replicate 16 7%N) id []) as (osrm & rf & nf & n & st & roads & H1 & H2 & H3 & H4 & H5 & H6 & H7).
  - apply sample_sorts_ok.
  - done.
  - vm_compute. reflexivity.
  - apply sample_calls_ok.
  - split; vm_compute; done.
  - reflexivity.
  - reflexivity.
  - eexists osrm, rf, nf, n, st, roads, _. split; [exact H1|]. split; [exact H2|]. rewrite H5.
    split; [apply (bool_decide_unpack _); vm_compute; exact I|]. eexists. split; [do 4 right; left|]. split; [vm_compute; reflexivity|right; right; left].
Defined.

