(* ===== verification/RestrictionImport.v ===== *)
(** * The restrictions from the extractor to the import

    A restriction names two ways and the node where they meet. [PrepareData]
    finds the neighbours of this node on both ways, writes the restrictions for
    which it has found both, and [CheckRestrictionsFile] reads them. *)

From Stdlib Require Import Floats.SpecFloat.
From S2P Require Import Prelude Types Float32 Edges DynamicGraph Text Geometry Hsgr Restrictions NodeBasedGraph EdgeExpansion Turns.
From S2P Require Import Compression RoadGraph Names Extraction Import RoadImport.

(** ** Reference *)

(** The neighbour of a node at the first or the last edge of a way. *)
Definition start_of (w : WayIDStartAndEndEdge) (via : N) : option N :=
  if (firstStart w =? via)%N then Some (firstTarget w)
  else if (firstTarget w =? via)%N then Some (firstStart w)
  else if (lastStart w =? via)%N then Some (lastTarget w)
  else if (lastTarget w =? via)%N then Some (lastStart w)
  else None.

Definition end_of (w : WayIDStartAndEndEdge) (via : N) : option N :=
  if (lastStart w =? via)%N then Some (lastTarget w)
  else if (lastTarget w =? via)%N then Some (lastStart w)
  else if (firstStart w =? via)%N then Some (firstTarget w)
  else if (firstTarget w =? via)%N then Some (firstStart w)
  else None.

(** The restriction between nodes, if both ways are known and touch the node. *)
Definition resolved (ways : list WayIDStartAndEndEdge) (r : InputRestrictionContainer) : option TurnRestriction :=
  let t := ir_restriction r in
  w ← with_id wayID ways (fromWay r);
  w' ← with_id wayID ways (toWay r);
  from ← start_of w (viaNode t);
  to ← end_of w' (viaNode t);
  if (UINT_MAX =? from)%N || (UINT_MAX =? to)%N then None else Some (MkTurnRestriction (viaNode t) from to (isOnly t)).

(** [x] is next to [via] on the first or the last edge of the path. *)
Definition at_end (path : list N) (via x : N) : Prop :=
  exists l, path = via :: x :: l \/ path = x :: via :: l \/ path = l ++ [via; x] \/ path = l ++ [x; via].

(** ** The scans *)

Definition with_start (ways : list WayIDStartAndEndEdge) (r : InputRestrictionContainer) : InputRestrictionContainer :=
  match with_id wayID ways (fromWay r) with Some w => fix_start w r | None => r end.

Definition with_end (ways : list WayIDStartAndEndEdge) (r : InputRestrictionContainer) : InputRestrictionContainer :=
  match with_id wayID ways (toWay r) with Some w => fix_end w r | None => r end.

Lemma fix_start_node w r : fix_start w r = match start_of w (viaNode (ir_restriction r)) with Some x => set_from_node x r | None => r end.
Proof. unfold fix_start, start_of. by repeat destruct (_ =? _)%N. Qed.

Lemma fix_end_node w r : fix_end w r = match end_of w (viaNode (ir_restriction r)) with Some x => set_to_node x r | None => r end.
Proof. unfold fix_end, end_of. by repeat destruct (_ =? _)%N. Qed.

Lemma with_start_fields ways r : toWay (with_start ways r) = toWay r /\ toNode (ir_restriction (with_start ways r)) = toNode (ir_restriction r) /\
  viaNode (ir_restriction (with_start ways r)) = viaNode (ir_restriction r) /\ isOnly (ir_restriction (with_start ways r)) = isOnly (ir_restriction r).
Proof. unfold with_start. destruct (with_id _ _ _) as [w|]; [|done]. rewrite fix_start_node. by destruct (start_of _ _). Qed.

(** The two scans together resolve a restriction. *)
Lemma scans_resolve ways r : unresolved r ->
  (if usable (with_end ways (with_start ways r)) then Some (ir_restriction (with_end ways (with_start ways r))) else None) = resolved ways r.
Proof.
  intros [Hf Ht]. unfold with_end. destruct (with_start_fields ways r) as (-> & Ht' & Hv & Ho). unfold resolved.
  assert (forall x, fromNode (ir_restriction x) = UINT_MAX -> usable x = false) as Uf by (intros x Hx; unfold usable; by rewrite Hx).
  assert (forall x, toNode (ir_restriction x) = UINT_MAX -> usable x = false) as Ut by (intros x Hx; unfold usable; rewrite Hx, N.eqb_refl; apply andb_false_r).
  assert (forall w x, fromNode (ir_restriction (fix_end w x)) = fromNode (ir_restriction x)) as Hfe by (intros w x; rewrite fix_end_node; by destruct (end_of _ _)).
  assert (with_start ways r = r -> (if usable (match with_id wayID ways (toWay r) with Some w => fix_end w (with_start ways r) | None => with_start ways r end)
    then Some (ir_restriction (match with_id wayID ways (toWay r) with Some w => fix_end w (with_start ways r) | None => with_start ways r end)) else None) = None) as Hsame.
  { intros ->. destruct (with_id wayID ways (toWay r)); rewrite Uf; rewrite ?Hfe; done. }
  destruct (with_id wayID ways (fromWay r)) as [w|] eqn:Hw; [|apply Hsame; unfold with_start; by rewrite Hw]. cbn [mbind option_bind].
  destruct (with_id wayID ways (toWay r)) as [w'|]; [|by rewrite Ut by congruence]. cbn [mbind option_bind].
  destruct (start_of w (viaNode (ir_restriction r))) as [x|] eqn:Hx; [|apply Hsame; unfold with_start; by rewrite Hw, fix_start_node, Hx]. cbn [mbind option_bind].
  rewrite fix_end_node, Hv. destruct (end_of w' _) as [y|]; [|by rewrite Ut by congruence]. cbn [mbind option_bind].
  unfold with_start. rewrite Hw, fix_start_node, Hx. unfold usable. cbn [fromNode toNode viaNode isOnly ir_restriction set_to_node set_from_node]. by destruct (UINT_MAX =? x)%N, (UINT_MAX =? y)%N.
Qed.

(** The counter of the second scan. *)
Lemma count_usable_cons w lw r lr : count_usable (w :: lw) (r :: lr) =
  if (wayID w <? toWay r)%N then count_usable lw (r :: lr)
  else if (toWay r <? wayID w)%N then count_usable (w :: lw) lr
  else if usable (fix_end w r) then uadd 1 (count_usable (w :: lw) lr) else count_usable (w :: lw) lr.
Proof. cbn. by destruct (_ <? _)%N, (toWay r <? wayID w)%N. Qed.

Lemma count_usable_ok ways rs : sorted_by wayID ways -> sorted_by toWay rs -> Forall (fun r => toNode (ir_restriction r) = UINT_MAX) rs ->
  (vsize rs < 4294967296)%N -> count_usable ways rs = vsize (filter (fun r => usable r = true) (with_end ways <$> rs)).
Proof.
  assert (forall r, toNode (ir_restriction r) = UINT_MAX -> usable r <> true) as Hun
    by (intros r Hr; unfold usable; rewrite Hr, N.eqb_refl, andb_false_r; done).
  intros Hw. revert rs. induction Hw as [|w ways Hw IH HFw]; intros rs Hr HF Hsz.
  { cbn [count_usable]. clear Hr Hsz. induction HF as [|r rs Hr HF IHr]; [done|]. rewrite fmap_cons, filter_cons_False; [done|by apply Hun]. }
  induction Hr as [|r rs Hr IHr HFr]; [done|]. apply Forall_cons in HF as [Hto HF]. rewrite count_usable_cons.
  assert (vsize (r :: rs) = vsize rs + 1)%N as Hs by (unfold vsize; cbn; lia). rewrite Hs in Hsz. specialize (IHr HF ltac:(lia)).
  destruct (N.ltb_spec (wayID w) (toWay r)) as [Hlt|Hge].
  - rewrite IH; [|by constructor|by constructor|lia]. do 2 f_equal. apply list_fmap_ext. intros i x Hx%list_elem_of_lookup_2. unfold with_end.
    rewrite with_id_skip; [done|]. apply elem_of_cons in Hx as [->|Hx]; [lia|]. rewrite Forall_forall in HFr. specialize (HFr x Hx). cbn in HFr. lia.
  - rewrite fmap_cons. unfold with_end at 1. destruct (N.ltb_spec (toWay r) (wayID w)).
    + rewrite with_id_less by done. rewrite filter_cons_False by (by apply Hun). done.
    + replace (toWay r) with (wayID w) by lia. rewrite with_id_here. pose proof (length_filter (fun r => usable r = true) (with_end (w :: ways) <$> rs)) as Hl.
      rewrite length_fmap in Hl. destruct (usable (fix_end w r)) eqn:Hu; [rewrite filter_cons_True by done|rewrite filter_cons_False by congruence; done].
      rewrite IHr, uadd_small; unfold vsize in *; cbn [length]; lia.
Qed.

(** ** The ends of the ways *)

Lemma way_ends_inv id path x : way_ends id path = Some x -> wayID x = id /\
  (exists l, path = firstStart x :: firstTarget x :: l) /\ exists l, path = l ++ [lastStart x; lastTarget x].
Proof.
  unfold way_ends. intros H. destruct (vget path 0) as [a|] eqn:Ha; [|done]. destruct (vget path 1) as [b|] eqn:Hb; [|done].
  destruct (vget path (vsize path - 2)) as [y|] eqn:Hc; [|done]. destruct (vback path) as [d|] eqn:Hd; [|done]. injection H as <-. cbn.
  rewrite vget_lookup in Ha, Hb, Hc. split; [done|]. destruct path as [|a' [|b' l]]; try done. change (Some a' = Some a) in Ha. change (Some b' = Some b) in Hb.
  injection Ha as ->. injection Hb as ->. split; [by exists l|].
  unfold vback in Hd. apply last_Some in Hd as (l' & Hl'). rewrite Hl' in Hc |- *. unfold vsize in Hc. rewrite length_app in Hc. cbn [length] in Hc.
  replace (N.to_nat (N.of_nat (length l' + 1) - 2)) with (length l' - 1)%nat in Hc by lia.
  destruct l' as [|z l'] using rev_ind; [done|]. rewrite length_app in Hc. cbn [length] in Hc. replace (length l' + 1 - 1)%nat with (length l') in Hc by lia.
  rewrite <- app_assoc in Hc |- *. cbn in Hc |- *. rewrite list_lookup_middle in Hc by done. injection Hc as ->. by exists l'.
Qed.

Lemma at_end_rev path via x : at_end (rev path) via x -> at_end path via x.
Proof.
  intros (l & H). exists (rev l). rewrite <- (rev_involutive path).
  destruct H as [->|[->|[->| ->]]]; rewrite ?rev_app_distr; cbn; rewrite <- ?app_assoc; cbn; auto.
Qed.

Lemma ends_at_end w x via y : ends_of w x -> start_of x via = Some y \/ end_of x via = Some y -> wayID x = ew_id w /\ at_end (ew_path w) via y.
Proof.
  intros Hends Hy. assert (forall path, way_ends (ew_id w) path = Some x -> wayID x = ew_id w /\ at_end path via y) as H.
  { intros path (Hid & (l & Hf) & (l' & Hl))%way_ends_inv. split; [done|]. unfold start_of, end_of in Hy.
    assert (firstStart x = via /\ y = firstTarget x \/ firstTarget x = via /\ y = firstStart x \/ lastStart x = via /\ y = lastTarget x \/
      lastTarget x = via /\ y = lastStart x) as Hcase.
    { destruct (N.eqb_spec (firstStart x) via), (N.eqb_spec (firstTarget x) via), (N.eqb_spec (lastStart x) via), (N.eqb_spec (lastTarget x) via);
        destruct Hy as [[= <-]|[= <-]]; tauto. }
    destruct Hcase as [[<- ->]|[[<- ->]|[[<- ->]|[<- ->]]]]; (exists l; tauto) || (exists l'; tauto). }
  destruct Hends as [He|He]; [by apply H|]. apply H in He as [? ?]. split; [done|by apply at_end_rev].
Qed.

Lemma at_end_elem path via x : at_end path via x -> x ∈ path.
Proof. intros (l & [->|[->|[->| ->]]]); set_solver. Qed.

Lemma filter_omap {A B} (f : A -> B) (test : A -> bool) (h : A -> A) (l : list A) :
  f <$> filter (fun x => test x = true) (h <$> l) = omap (fun x => if test (h x) then Some (f (h x)) else None) l.
Proof.
  induction l as [|x l IH]; [done|]. rewrite fmap_cons. cbn [omap list_omap]. destruct (test (h x)) eqn:Ht.
  - by rewrite filter_cons_True, fmap_cons, IH.
  - rewrite filter_cons_False by congruence. done.
Qed.

(** ** The file *)

Section file.
  Context (s : container_sorts) (ways : list WayIDStartAndEndEdge) (rs : list InputRestrictionContainer).
  Hypothesis sorts_ok : container_sorts_ok s.
  Hypothesis all_unresolved : Forall unresolved rs.
  Hypothesis rs_count : (vsize rs < 4294967296)%N.
#[local] Set Default Proof Using "All".

Abbreviation sorted_ways := (cs_ways s ways).

Definition by_to : list InputRestrictionContainer := cs_to s (merge_scan wayID fromWay fix_start sorted_ways (cs_from s rs)).

Lemma by_to_perm : by_to ≡ₚ with_start sorted_ways <$> rs.
Proof.
  unfold by_to. rewrite (proj1 (so_to _ sorts_ok)), merge_scan_map; [|apply (so_ways _ sorts_ok)|apply (so_from _ sorts_ok)].
  by rewrite (proj1 (so_from _ sorts_ok)).
Qed.

Definition written_restrictions : list InputRestrictionContainer := filter (fun r => usable r = true) (merge_scan wayID toWay fix_end sorted_ways by_to).

Lemma written_with_end : written_restrictions = filter (fun r => usable r = true) (with_end sorted_ways <$> by_to).
Proof. unfold written_restrictions. rewrite merge_scan_map; [done|apply (so_ways _ sorts_ok)|apply (so_to _ sorts_ok)]. Qed.

Lemma written_resolved : ir_restriction <$> written_restrictions ≡ₚ omap (resolved sorted_ways) rs.
Proof.
  rewrite written_with_end, by_to_perm, <- list_fmap_compose, (filter_omap ir_restriction usable).
  apply reflexive_eq, omap_ext_elem. intros r Hr. rewrite Forall_forall in all_unresolved. by apply scans_resolve, all_unresolved.
Qed.

Lemma written_counted : count_usable sorted_ways by_to = vsize written_restrictions /\ (vsize written_restrictions < 4294967296)%N.
Proof.
  pose proof (Permutation_length by_to_perm) as Hlen. rewrite length_fmap in Hlen. rewrite written_with_end. split.
  - apply count_usable_ok; [apply (so_ways _ sorts_ok)|apply (so_to _ sorts_ok)| |unfold vsize in *; lia].
    apply Forall_forall. intros r. rewrite by_to_perm. intros (x & -> & Hx)%list_elem_of_fmap. destruct (with_start_fields sorted_ways x) as (_ & -> & _).
    rewrite Forall_forall in all_unresolved. by apply all_unresolved.
  - pose proof (length_filter (fun r => usable r = true) (with_end sorted_ways <$> by_to)) as Hl. rewrite length_fmap in Hl. unfold vsize in *. lia.
Qed.

Lemma read_restrictions_file fingerprint own : fingerprint_wf fingerprint -> IsMagicNumberOK own = true ->
  Forall restriction_fits (omap (resolved sorted_ways) rs) ->
  CheckRestrictionsFile own (fingerprint_bytes fingerprint ++ le32 (count_usable sorted_ways by_to) ++
    (written_restrictions ≫= fun r => restriction_bytes (ir_restriction r))) = Some (inr (ir_restriction <$> written_restrictions)).
Proof.
  intros Hfp Hown HF. destruct written_counted as [-> Hlt]. unfold CheckRestrictionsFile. rewrite read_fingerprint_ok by done. cbn [mbind option_bind].
  unfold TestPrepare, test_hash. rewrite Hown. cbn [negb]. rewrite read_le32 by done. cbn [mbind option_bind].
  replace (N.to_nat (vsize written_restrictions)) with (length written_restrictions) by (unfold vsize; lia).
  rewrite <- (app_nil_r (written_restrictions ≫= _)), (read_many_ok read_restriction (fun r => restriction_bytes (ir_restriction r)) ir_restriction); [done|].
  intros r t Hr. apply read_restriction_ok. rewrite Forall_forall in HF. apply HF. rewrite <- written_resolved. by apply list_elem_of_fmap_2.
Qed.
End file.

(** A restriction between nodes stems from the ends of two ways. *)
Lemma resolved_ways calls m c ways r t : containers_wf calls m c -> (forall x, x ∈ ways -> x ∈ way_start_end_id_list c) -> resolved ways r = Some t ->
  viaNode t = viaNode (ir_restriction r) /\ isOnly t = isOnly (ir_restriction r) /\
  exists w w', WayCall w ∈ calls /\ WayCall w' ∈ calls /\ ew_id w = fromWay r /\ ew_id w' = toWay r /\
    at_end (ew_path w) (viaNode t) (fromNode t) /\ at_end (ew_path w') (viaNode t) (toNode t).
Proof.
  intros Hwf Hways. unfold resolved. destruct (with_id wayID ways (fromWay r)) as [x|] eqn:Hx; [|done]. cbn [mbind option_bind].
  destruct (with_id wayID ways (toWay r)) as [y|] eqn:Hy; [|done]. cbn [mbind option_bind].
  destruct (start_of x _) as [f|] eqn:Hf; [|done]. cbn [mbind option_bind]. destruct (end_of y _) as [e|] eqn:He; [|done]. cbn [mbind option_bind].
  destruct (_ || _); [done|]. intros [= <-]. cbn. split; [done|]. split; [done|].
  apply with_id_Some in Hx as [Hx Hxr], Hy as [Hy Hyr]. destruct (cw_ways _ _ _ Hwf x (Hways x Hx)) as (w & Hw & _ & Hwx), (cw_ways _ _ _ Hwf y (Hways y Hy)) as (w' & Hw' & _ & Hwy).
  destruct (ends_at_end _ _ _ _ Hwx (or_introl Hf)) as [? ?], (ends_at_end _ _ _ _ Hwy (or_intror He)) as [? ?]. exists w, w'. split_and!; try done; congruence.
Qed.

(** ** Properties *)

(** C20: the restrictions survive the extraction and the import. The file of the
    extractor is read without an error, and has exactly one restriction between
    nodes for every restriction whose two ways are known and touch its node.
    Each keeps its node and its kind, and goes from a neighbour of the node at
    an end of the first way to one at an end of the second way. *)
Theorem restrictions_imported math s calls m c fingerprint own junk osrm_file restrictions_file names_file : container_sorts_ok s ->
  run_callbacks calls = Some (m, c) -> (vsize calls < 4294967295)%N -> Forall call_fits calls -> (vsize (restrictions_list c) < 4294967296)%N ->
  fingerprint_wf fingerprint -> IsMagicNumberOK own = true ->
  prepare_data math s fingerprint junk c = Some (osrm_file, restrictions_file, names_file) ->
  exists l, CheckRestrictionsFile own restrictions_file = Some (inr l) /\
    l ≡ₚ omap (resolved (cs_ways s (way_start_end_id_list c))) (restrictions_list c) /\
    forall t, t ∈ l -> exists r w w', RestrictionCall r ∈ calls /\ WayCall w ∈ calls /\ WayCall w' ∈ calls /\ ew_id w = fromWay r /\ ew_id w' = toWay r /\
      viaNode t = viaNode (ir_restriction r) /\ isOnly t = isOnly (ir_restriction r) /\
      at_end (ew_path w) (viaNode t) (fromNode t) /\ at_end (ew_path w') (viaNode t) (toNode t).
Proof.
  intros Hs Hrun Hcalls Hfit Hcount Hfp Hown Hprep. destruct (run_callbacks_ok calls Hcalls) as (m' & c' & Hrun' & Hwf). rewrite Hrun in Hrun'. injection Hrun' as <- <-.
  rewrite Forall_forall in Hfit. assert (forall r, r ∈ restrictions_list c -> unresolved r /\ (viaNode (ir_restriction r) < 4294967296)%N) as Hrs
    by (intros r Hr%(cw_restrictions _ _ _ Hwf); exact (Hfit _ Hr)).
  assert (forall t, t ∈ omap (resolved (cs_ways s (way_start_end_id_list c))) (restrictions_list c) -> exists r w w', RestrictionCall r ∈ calls /\
    WayCall w ∈ calls /\ WayCall w' ∈ calls /\ ew_id w = fromWay r /\ ew_id w' = toWay r /\ viaNode t = viaNode (ir_restriction r) /\
    isOnly t = isOnly (ir_restriction r) /\ at_end (ew_path w) (viaNode t) (fromNode t) /\ at_end (ew_path w') (viaNode t) (toNode t)) as Hsound.
  { intros t (r & Hr & Ht)%list_elem_of_omap. eapply resolved_ways in Ht as (? & ? & w & w' & ?); [|done|intros x; by rewrite (proj1 (so_ways _ Hs))].
    exists r, w, w'. split; [by apply (cw_restrictions _ _ _ Hwf)|]. tauto. }
  unfold prepare_data, PrepareData in Hprep. destruct (write_roads _ _ _); [|done]. cbn [mbind option_bind] in Hprep.
  destruct (write_names _ _); [|done]. cbn [mbind option_bind] in Hprep. injection Hprep as _ <- _. assert (Forall unresolved (restrictions_list c)) as Hun.
  { apply Forall_forall. intros r Hr. by apply Hrs. }
  eexists. split; [|split; [by apply written_resolved|]].
  - apply (read_restrictions_file s (way_start_end_id_list c) (restrictions_list c) Hs Hun Hcount); [done|done|]. apply Forall_forall. intros t Ht.
    destruct (Hsound t Ht) as (r & w & w' & Hr & Hw & Hw' & _ & _ & Hv & _ & E1%at_end_elem & E2%at_end_elem).
    pose proof (Hfit _ Hw) as Fw. pose proof (Hfit _ Hw') as Fw'. cbn in Fw, Fw'. rewrite Forall_forall in Fw. rewrite Forall_forall in Fw'.
    unfold restriction_fits. rewrite Hv. split; [exact (proj2 (Hfit _ Hr))|]. split; [by apply Fw|by apply Fw'].
  - intros t. rewrite (written_resolved s (way_start_end_id_list c) (restrictions_list c) Hs Hun Hcount). apply Hsound.
Qed.

(** The sample network with a restriction from its second to its first way. *)
Definition sample_turns : list callback := sample_calls ++ [RestrictionCall (InputRestrictionContainer_ways 8 7 4 0)].

Definition sample_turn_result : gmap str N * ExtractionContainers := default (∅, ExtractionContainers_make) (run_callbacks sample_turns).

Definition sample_files : list N * list N * list N :=
  default ([], [], []) (prepare_data sample_math sample_sorts sample_print (replicate 16 7%N) (snd sample_turn_result)).

Lemma restrictions_imported_witness : exists l, CheckRestrictionsFile sample_print (snd (fst sample_files)) = Some (inr l) /\
  l ≡ₚ [MkTurnRestriction 4 9 9 false].
Proof.
  destruct (restrictions_imported sample_math sample_sorts sample_turns (fst sample_turn_result) (snd sample_turn_result) sample_print sample_print
    (replicate 16 7%N) (fst (fst sample_files)) (snd (fst sample_files)) (snd sample_files)) as (l & Hl & Hperm & _).
  - apply sample_sorts_ok.
  - vm_compute. reflexivity.
  - reflexivity.
  - repeat constructor; vm_compute; congruence.
  - reflexivity.
  - split; vm_compute; done.
  - reflexivity.
  - vm_compute. reflexivity.
  - exists l. split; [exact Hl|]. etransitivity; [exact Hperm|]. vm_compute. reflexivity.
Defined.
