(* ===== verification/RTree.v ===== *)
(** * DataStructures/StaticRTree.h: construction

    The packed R-tree over the segments of the road network. The segments are
    sorted by the Hilbert value of their centre, packed into leaves, and the
    leaves into the levels of a tree, which is reversed at the end so that its
    root is the first node. The leaf file is the list of its leaves; of the
    arrays of a leaf and of a node the entries that were written are kept. *)

From Stdlib Require Import Floats.SpecFloat.
From stdpp Require Import sorting.
From S2P Require Import Prelude Types Float32 Text Geometry Hilbert EdgeExpansion.

(** ** Rectangles *)

Record RectangleInt2D := MkRectangle { min_lon : Z; max_lon : Z; min_lat : Z; max_lat : Z }.

Definition RectangleInt2D_default : RectangleInt2D := MkRectangle INT_MAX INT_MIN INT_MAX INT_MIN.

(** A vertex without a coordinate raises [std::out_of_range]. *)
Definition InitializeMBRectangle (coordinate_list : list NodeInfo) (r : RectangleInt2D) (objects : list EdgeBasedNode)
    : option RectangleInt2D :=
  fold_m (fun r o =>
    u ← vget coordinate_list (en_u o); v ← vget coordinate_list (en_v o);
    Some (MkRectangle (Z.min (min_lon r) (Z.min (ni_lon u) (ni_lon v))) (Z.max (max_lon r) (Z.max (ni_lon u) (ni_lon v)))
                      (Z.min (min_lat r) (Z.min (ni_lat u) (ni_lat v))) (Z.max (max_lat r) (Z.max (ni_lat u) (ni_lat v))))) r objects.

Definition MergeBoundingBoxes (r other : RectangleInt2D) : RectangleInt2D :=
  MkRectangle (Z.min (min_lon r) (min_lon other)) (Z.max (max_lon r) (max_lon other))
              (Z.min (min_lat r) (min_lat other)) (Z.max (max_lat r) (max_lat other)).

Definition RectangleInt2D_Centroid (r : RectangleInt2D) : option FixedPointCoordinate :=
  lon_sum ← iadd (min_lon r) (max_lon r); lat_sum ← iadd (min_lat r) (max_lat r);
  Some (MkCoordinate (Z.quot lat_sum 2) (Z.quot lon_sum 2)).

Definition Contains (r : RectangleInt2D) (location : FixedPointCoordinate) : bool :=
  ((min_lat r <=? lat location) && (lat location <=? max_lat r) && ((min_lon r <=? lon location) && (lon location <=? max_lon r)))%Z.

Definition Intersects (r other : RectangleInt2D) : bool :=
  Contains r (MkCoordinate (max_lat other) (min_lon other)) || Contains r (MkCoordinate (max_lat other) (max_lon other)) ||
  Contains r (MkCoordinate (min_lat other) (max_lon other)) || Contains r (MkCoordinate (min_lat other) (min_lon other)).

Section rectangle_distances.
  Context (math : c_math).

(** The directions are NORTH 1, SOUTH 2, EAST 4 and WEST 8. *)
Definition GetMinDist (r : RectangleInt2D) (location : FixedPointCoordinate) : float :=
  if Contains r location then fzero
  else
    let d := if (max_lat r <? lat location)%Z then 1%N else if (lat location <? min_lat r)%Z then 2%N else 0%N in
    let d := if (max_lon r <? lon location)%Z then N.lor d 4 else if (lon location <? min_lon r)%Z then N.lor d 8 else d in
    let distance_to la lo := euclidean math location (MkCoordinate la lo) in
    match d with
    | 1%N => distance_to (max_lat r) (lon location)
    | 2%N => distance_to (min_lat r) (lon location)
    | 8%N => distance_to (lat location) (min_lon r)
    | 4%N => distance_to (lat location) (max_lon r)
    | 5%N => distance_to (max_lat r) (max_lon r)
    | 9%N => distance_to (max_lat r) (min_lon r)
    | 6%N => distance_to (min_lat r) (max_lon r)
    | 10%N => distance_to (min_lat r) (min_lon r)
    | _ => float_max
    end.

Definition GetMinMaxDist (r : RectangleInt2D) (location : FixedPointCoordinate) : float :=
  let upper_left := euclidean math location (MkCoordinate (max_lat r) (min_lon r)) in
  let upper_right := euclidean math location (MkCoordinate (max_lat r) (max_lon r)) in
  let lower_right := euclidean math location (MkCoordinate (min_lat r) (max_lon r)) in
  let lower_left := euclidean math location (MkCoordinate (min_lat r) (min_lon r)) in
  let min_max_dist := fmin float_max (fmax upper_left upper_right) in
  let min_max_dist := fmin min_max_dist (fmax upper_right lower_right) in
  let min_max_dist := fmin min_max_dist (fmax lower_right lower_left) in
  fmin min_max_dist (fmax lower_left upper_left).
End rectangle_distances.

(** ** Nodes *)

Record TreeNode := MkTreeNode {
  minimum_bounding_rectangle : RectangleInt2D; child_count : N; child_is_on_disk : bool; children : list N }.

Definition TreeNode_default : TreeNode := MkTreeNode RectangleInt2D_default 0 false [].

Record WrappedInputElement := MkWrapped { m_hilbert_value : N; m_array_index : N }.

(** [objects], of which [object_count] are used. *)
Abbreviation LeafNode := (list EdgeBasedNode).

(** The loop body of the first [parallel_for]; the elements are independent. *)
Definition wrap_element (math : c_math) (coordinate_list : list NodeInfo) (input_data_vector : list EdgeBasedNode) (element_counter : N)
    : option WrappedInputElement :=
  current_element ← vget input_data_vector element_counter;
  u ← vget coordinate_list (en_u current_element); v ← vget coordinate_list (en_v current_element);
  current_centroid ← Centroid (MkCoordinate (ni_lat u) (ni_lon u)) (MkCoordinate (ni_lat v) (ni_lon v));
  centroid_lat ← truncate (dmul (to_double (float_of_int COORDINATE_PRECISION)) (lat2y math (to_double (degrees (lat current_centroid)))));
  hilbert ← HilbertCode (MkCoordinate centroid_lat (lon current_centroid));
  Some (MkWrapped hilbert (u32 element_counter)).

Definition wrap_elements (math : c_math) (coordinate_list : list NodeInfo) (input_data_vector : list EdgeBasedNode) : option (list WrappedInputElement) :=
  mapM (wrap_element math coordinate_list input_data_vector) (N.of_nat <$> seq 0 (length input_data_vector)).

Section construction.
  Context (BRANCHING_FACTOR LEAF_NODE_SIZE : N).

(** The objects of the leaf that starts at [processed]. *)
Definition fill_leaf (input_data_vector : list EdgeBasedNode) (wrappers : list WrappedInputElement) (processed : N) : option LeafNode :=
  fold_m (fun objects current_element_index =>
    if (processed + current_element_index <? vsize input_data_vector)%N then
      w ← vget wrappers (processed + current_element_index);
      o ← vget input_data_vector (m_array_index w);
      Some (objects ++ [o])
    else Some objects) [] (irange 0 LEAF_NODE_SIZE).

Fixpoint pack_leaves (fuel : nat) (coordinate_list : list NodeInfo) (input_data_vector : list EdgeBasedNode)
    (wrappers : list WrappedInputElement) (processed : N) (nodes : list TreeNode) (leaves : list LeafNode)
    : option (list TreeNode * list LeafNode) :=
  match fuel with
  | O => None
  | S fuel' =>
      if (processed <? vsize input_data_vector)%N then
        current_leaf ← fill_leaf input_data_vector wrappers processed;
        mbr ← InitializeMBRectangle coordinate_list RectangleInt2D_default current_leaf;
        pack_leaves fuel' coordinate_list input_data_vector wrappers (processed + vsize current_leaf)
          (nodes ++ [MkTreeNode mbr 0 true [u32 (vsize nodes)]]) (leaves ++ [current_leaf])
      else Some (nodes, leaves)
  end.

(** One iteration of the loop over the children of a parent. *)
Definition add_child (tree_nodes_in_level : list TreeNode) (st : TreeNode * list TreeNode * N) (_ : N)
    : option (TreeNode * list TreeNode * N) :=
  let '(parent_node, m_search_tree, processed) := st in
  if (processed <? vsize tree_nodes_in_level)%N then
    current_child_node ← vget tree_nodes_in_level processed;
    Some (MkTreeNode (MergeBoundingBoxes (minimum_bounding_rectangle parent_node) (minimum_bounding_rectangle current_child_node))
            (child_count parent_node + 1) (child_is_on_disk parent_node) (children parent_node ++ [u32 (vsize m_search_tree)]),
          m_search_tree ++ [current_child_node], uadd processed 1)
  else Some st.

(** The next level and the search tree. *)
Fixpoint pack_level (fuel : nat) (tree_nodes_in_level : list TreeNode) (processed : N) (m_search_tree next_level : list TreeNode)
    : option (list TreeNode * list TreeNode) :=
  match fuel with
  | O => None
  | S fuel' =>
      if (processed <? vsize tree_nodes_in_level)%N then
        '(parent_node, m_search_tree, processed) ←
          fold_m (add_child tree_nodes_in_level) (TreeNode_default, m_search_tree, processed) (irange 0 BRANCHING_FACTOR);
        pack_level fuel' tree_nodes_in_level processed m_search_tree (next_level ++ [parent_node])
      else Some (m_search_tree, next_level)
  end.

Fixpoint pack_levels (fuel : nat) (tree_nodes_in_level m_search_tree : list TreeNode) : option (list TreeNode * list TreeNode) :=
  match fuel with
  | O => None
  | S fuel' =>
      if (1 <? vsize tree_nodes_in_level)%N then
        '(m_search_tree, next_level) ← pack_level (S (length tree_nodes_in_level)) tree_nodes_in_level 0 m_search_tree [];
        pack_levels fuel' next_level m_search_tree
      else Some (m_search_tree, tree_nodes_in_level)
  end.

(** The loop body of the second [parallel_for]. *)
Definition renumber_children (search_tree_size : N) (current_tree_node : TreeNode) : option TreeNode :=
  ids ← fold_m (fun ids j => old_id ← vget ids j; vset ids j (usub (usub search_tree_size old_id) 1))
    (children current_tree_node) (irange 0 (child_count current_tree_node));
  Some (MkTreeNode (minimum_bounding_rectangle current_tree_node) (child_count current_tree_node) (child_is_on_disk current_tree_node) ids).

(** The tree and the leaf file. Without any segment there is no root. *)
Definition StaticRTree_make (math : c_math) (parallel_sort : list WrappedInputElement -> list WrappedInputElement) (input_data_vector : list EdgeBasedNode) (coordinate_list : list NodeInfo)
    : option (list TreeNode * list LeafNode) :=
  wrappers ← wrap_elements math coordinate_list input_data_vector;
  '(nodes, leaves) ← pack_leaves (S (length input_data_vector)) coordinate_list input_data_vector (parallel_sort wrappers) 0 [] [];
  '(m_search_tree, tree_nodes_in_level) ← pack_levels (S (length nodes)) nodes [];
  root ← vget tree_nodes_in_level 0;
  let m_search_tree := reverse (m_search_tree ++ [root]) in
  m_search_tree ← mapM (renumber_children (vsize m_search_tree)) m_search_tree;
  Some (m_search_tree, leaves).

(** ** What a node covers *)

Definition coordinate_of (n : NodeInfo) : FixedPointCoordinate := MkCoordinate (ni_lat n) (ni_lon n).

(** Both ends of a segment lie in the rectangle. *)
Definition inside (coordinates : list FixedPointCoordinate) (r : RectangleInt2D) (e : EdgeBasedNode) : Prop :=
  exists a b, vget coordinates (en_u e) = Some a /\ vget coordinates (en_v e) = Some b /\ Contains r a = true /\ Contains r b = true.

(** A node [d] levels above the leaves and the segments below it, in order. *)
Fixpoint covers (coordinates : list FixedPointCoordinate) (tree : list TreeNode) (leaves : list LeafNode) (d : nat) (node : TreeNode)
    (es : list EdgeBasedNode) : Prop :=
  Forall (inside coordinates (minimum_bounding_rectangle node)) es /\
  match d with
  | O => child_is_on_disk node = true /\ child_count node = 0%N /\ (0 < vsize es <= LEAF_NODE_SIZE)%N /\
      exists id, children node = [id] /\ vget leaves id = Some es
  | S d' => child_is_on_disk node = false /\ child_count node = vsize (children node) /\ (0 < vsize (children node) <= BRANCHING_FACTOR)%N /\
      exists parts, es = concat parts /\
        Forall2 (fun id part => exists child, vget tree id = Some child /\ covers coordinates tree leaves d' child part) (children node) parts
  end.

(** The Hilbert value a segment is sorted by. *)
Definition hilbert_value (math : c_math) (coordinate_list : list NodeInfo) (e : EdgeBasedNode) : option N :=
  m_hilbert_value <$> wrap_element math coordinate_list [e] 0.

Definition sorts_by_value (parallel_sort : list WrappedInputElement -> list WrappedInputElement) : Prop :=
  forall l, parallel_sort l ≡ₚ l /\ StronglySorted (fun a b => m_hilbert_value a <= m_hilbert_value b)%N (parallel_sort l).

(** ** Rectangles *)

Definition rect_within (r r' : RectangleInt2D) : Prop :=
  (min_lon r' <= min_lon r /\ max_lon r <= max_lon r' /\ min_lat r' <= min_lat r /\ max_lat r <= max_lat r')%Z.

Lemma Contains_spec r c : Contains r c = true <-> (min_lat r <= lat c <= max_lat r /\ min_lon r <= lon c <= max_lon r)%Z.
Proof. unfold Contains. rewrite !andb_true_iff, !Z.leb_le. tauto. Qed.

Lemma inside_within coords r r' e : rect_within r r' -> inside coords r e -> inside coords r' e.
Proof.
  intros (? & ? & ? & ?) (a & b & Ha & Hb & [? ?]%Contains_spec & [? ?]%Contains_spec). exists a, b.
  repeat split; try done; apply Contains_spec; lia.
Qed.

Lemma rect_within_refl r : rect_within r r.
Proof. unfold rect_within. lia. Qed.

Lemma rect_within_trans r1 r2 r3 : rect_within r1 r2 -> rect_within r2 r3 -> rect_within r1 r3.
Proof. unfold rect_within. lia. Qed.

Lemma rect_within_merge_l r other : rect_within r (MergeBoundingBoxes r other).
Proof. unfold rect_within, MergeBoundingBoxes. cbn. lia. Qed.

Lemma rect_within_merge_r r other : rect_within other (MergeBoundingBoxes r other).
Proof. unfold rect_within, MergeBoundingBoxes. cbn. lia. Qed.

(** Every vertex of the segments has a coordinate. *)
Definition has_ends (coordinate_list : list NodeInfo) (e : EdgeBasedNode) : Prop :=
  is_Some (vget coordinate_list (en_u e)) /\ is_Some (vget coordinate_list (en_v e)).

Lemma mbr_ok coordinate_list es r : Forall (has_ends coordinate_list) es ->
  exists r', InitializeMBRectangle coordinate_list r es = Some r' /\ rect_within r r' /\ Forall (inside (coordinate_of <$> coordinate_list) r') es.
Proof.
  intros Hl. revert r. induction Hl as [|e es [[u Hu] [v Hv]] Hl IH]; intros r; [exists r; auto using rect_within_refl|].
  unfold InitializeMBRectangle. cbn [fold_m]. rewrite Hu, Hv. cbn [mbind option_bind].
  match goal with |- context [fold_m _ ?r1 es] => destruct (IH r1) as (r' & Hr' & Hw & HF); exists r'; assert (rect_within r r1) by (unfold rect_within; cbn; lia);
    assert (inside (coordinate_of <$> coordinate_list) r1 e) end.
  { exists (coordinate_of u), (coordinate_of v). rewrite !vget_fmap, Hu, Hv. repeat split; apply Contains_spec; cbn; lia. }
  split; [done|]. split; [by eapply rect_within_trans|]. constructor; [by eapply inside_within|done].
Qed.

(** ** Growing trees *)

Lemma vget_prefix {A} (l l' : list A) i x : l `prefix_of` l' -> vget l i = Some x -> vget l' i = Some x.
Proof. rewrite !vget_lookup. intros [k ->] H. by apply lookup_app_l_Some. Qed.

Lemma covers_mono coords tree tree' leaves leaves' d node es : tree `prefix_of` tree' -> leaves `prefix_of` leaves' ->
  covers coords tree leaves d node es -> covers coords tree' leaves' d node es.
Proof.
  intros Ht Hl. revert node es. induction d as [|d IH]; intros node es [Hi H].
  - split; [done|]. destruct H as (? & ? & ? & id & ? & ?). repeat split; try done || lia. exists id. eauto using vget_prefix.
  - split; [done|]. destruct H as (? & ? & ? & parts & ? & HF). repeat split; try done || lia. exists parts. split; [done|].
    eapply Forall2_impl; [exact HF|]. intros id part (child & ? & ?). exists child. eauto using vget_prefix.
Qed.

Lemma covers_inside coords tree leaves d node es : covers coords tree leaves d node es -> Forall (inside coords (minimum_bounding_rectangle node)) es.
Proof. destruct d; by intros [H _]. Qed.

(** ** Packing the leaves *)

Section leaves.
  Context (coordinate_list : list NodeInfo) (input : list EdgeBasedNode) (wrappers : list WrappedInputElement) (sorted : list EdgeBasedNode).
  Hypothesis indexed : Forall2 (fun w e => vget input (m_array_index w) = Some e) wrappers sorted.
  Hypothesis sorted_length : length sorted = length input.
  Hypothesis input_small : (3 * vsize input < 4294967296)%N.
  Hypothesis input_ends : Forall (has_ends coordinate_list) sorted.
  Hypothesis leaf_size : (0 < LEAF_NODE_SIZE < 4294967296)%N.
#[local] Set Default Proof Using "All".

Lemma fill_leaf_ok processed : fill_leaf input wrappers processed = Some (take (N.to_nat LEAF_NODE_SIZE) (drop (N.to_nat processed) sorted)).
Proof.
  unfold fill_leaf. edestruct (fold_m_irange (fun objects k => if (processed + k <? vsize input)%N
    then w ← vget wrappers (processed + k); o ← vget input (m_array_index w); Some (objects ++ [o]) else Some objects)
    (fun k objects => objects = take (N.to_nat k) (drop (N.to_nat processed) sorted)) 0%N LEAF_NODE_SIZE []) as (s & Hs & ->); [lia|lia|by rewrite take_0| |exact Hs].
  intros k objects Hk ->. replace (N.to_nat (k + 1)) with (S (N.to_nat k)) by lia. case_ltb.
  - destruct (lookup_lt_is_Some_2 sorted (N.to_nat (processed + k))) as [e He]; [unfold vsize in *; lia|].
    destruct (Forall2_lookup_r _ _ _ _ _ indexed He) as (w & Hw & Hi). rewrite (vget_lookup wrappers), Hw. cbn [mbind option_bind]. rewrite Hi.
    cbn [mbind option_bind]. eexists. split; [done|]. symmetry. apply take_S_r. rewrite lookup_drop. by replace (N.to_nat processed + N.to_nat k)%nat with (N.to_nat (processed + k)) by lia.
  - eexists. split; [done|]. rewrite !take_ge; [done|rewrite length_drop; unfold vsize in *; lia..].
Qed.

Lemma pack_leaves_ok fuel processed nodes leaves tree : (length input < N.to_nat processed + fuel)%nat -> (processed <= vsize input)%N ->
  concat leaves = take (N.to_nat processed) sorted -> (vsize leaves <= processed)%N ->
  Forall2 (covers (coordinate_of <$> coordinate_list) tree leaves 0) nodes leaves ->
  exists nodes' leaves', pack_leaves fuel coordinate_list input wrappers processed nodes leaves = Some (nodes', leaves') /\
    concat leaves' = sorted /\ (vsize leaves' <= vsize input)%N /\ Forall2 (covers (coordinate_of <$> coordinate_list) tree leaves' 0) nodes' leaves'.
Proof.
  revert processed nodes leaves. induction fuel as [|fuel IH]; intros processed nodes leaves Hf Hp Hc Hn HF; [unfold vsize in *; lia|].
  cbn [pack_leaves]. case_ltb.
  2: { exists nodes, leaves. split; [done|]. rewrite Hc, take_ge by (unfold vsize in *; lia). split; [done|]. split; [lia|done]. }
  rewrite fill_leaf_ok. cbn [mbind option_bind]. set (leaf := take _ (drop _ _)).
  assert (Forall (has_ends coordinate_list) leaf) as Hends by (by apply Forall_take, Forall_drop).
  assert (length leaf = Nat.min (N.to_nat LEAF_NODE_SIZE) (length input - N.to_nat processed)) as Hlen
    by (unfold leaf; rewrite length_take, length_drop; lia).
  destruct (mbr_ok coordinate_list leaf RectangleInt2D_default Hends) as (r & -> & _ & Hin). cbn [mbind option_bind].
  assert (length nodes = length leaves) as Hnl by (by eapply Forall2_length).
  apply IH; rewrite ?vsize_app; unfold vsize in *; cbn [length]; try lia.
  - rewrite concat_app, Hc. cbn [concat]. rewrite app_nil_r, Hlen. unfold leaf. replace (N.to_nat (processed + _)) with
      (N.to_nat processed + Nat.min (N.to_nat LEAF_NODE_SIZE) (length input - N.to_nat processed))%nat by lia.
    rewrite <- take_take_drop. f_equal. destruct (decide (N.to_nat LEAF_NODE_SIZE <= length input - N.to_nat processed)%nat).
    + by rewrite Nat.min_l.
    + rewrite Nat.min_r by lia. rewrite !take_ge; rewrite ?length_drop; [done|lia..].
  - apply Forall2_app; [eapply Forall2_impl; [exact HF|intros; eapply covers_mono; [done|by apply prefix_app_r|done]]|].
    constructor; [|constructor]. split; [done|]. repeat split; [unfold vsize; lia..|]. eexists. split; [done|].
    rewrite vget_lookup, lookup_app_r; rewrite u32_small, Hnl by lia; rewrite Nat2N.id; [|done]. by rewrite Nat.sub_diag.
Qed.
End leaves.

(** ** Packing a level *)

Section level.
  Context (coords : list FixedPointCoordinate) (leaves : list LeafNode) (d : nat) (tree0 nodes : list TreeNode) (parts : list (list EdgeBasedNode)).
  Hypothesis level_covers : Forall2 (covers coords tree0 leaves d) nodes parts.
  Hypothesis branching : (1 < BRANCHING_FACTOR < 4294967296)%N.
  Hypothesis small : (vsize tree0 + vsize nodes < 4294967296)%N.
#[local] Set Default Proof Using "All".

(** The parent of [c] nodes of the level from [p] on. *)
Definition parent_of (p c : nat) (parent : TreeNode) (tree : list TreeNode) : Prop :=
  child_is_on_disk parent = false /\ child_count parent = N.of_nat c /\ length (children parent) = c /\
  Forall2 (fun id part => exists child, vget tree id = Some child /\ covers coords tree leaves d child part)
    (children parent) (take c (drop p parts)) /\
  Forall (inside coords (minimum_bounding_rectangle parent)) (concat (take c (drop p parts))).

Lemma parent_of_step p c parent node part : nodes !! (p + c)%nat = Some node -> parts !! (p + c)%nat = Some part ->
  parent_of p c parent (tree0 ++ take (p + c) nodes) ->
  parent_of p (S c) (MkTreeNode (MergeBoundingBoxes (minimum_bounding_rectangle parent) (minimum_bounding_rectangle node))
    (child_count parent + 1) (child_is_on_disk parent) (children parent ++ [u32 (vsize (tree0 ++ take (p + c) nodes))]))
    (tree0 ++ take (p + S c) nodes).
Proof.
  intros Hn Hpt (H1 & H2 & H3 & H4 & H5).
  assert (covers coords tree0 leaves d node part) as Hc by (by eapply (Forall2_lookup_lr _ nodes parts)).
  assert (take (p + S c) nodes = take (p + c) nodes ++ [node]) as Ht by (rewrite Nat.add_succ_r; by apply take_S_r).
  assert (take (S c) (drop p parts) = take c (drop p parts) ++ [part]) as Hp by (apply take_S_r; by rewrite lookup_drop).
  pose proof (lookup_lt_Some _ _ _ Hn) as Hlt.
  repeat split; cbn [child_is_on_disk child_count children minimum_bounding_rectangle]; [done|lia|rewrite length_app; cbn; lia| |].
  - rewrite Hp. apply Forall2_app.
    + eapply Forall2_impl; [exact H4|]. intros id q (child & Hg & Hq). exists child.
      split; [eapply vget_prefix; [|exact Hg]|eapply covers_mono; [|done|exact Hq]]; apply prefix_app; exists [node]; exact Ht.
    + constructor; [|constructor]. exists node. split; [|eapply covers_mono; [by apply prefix_app_r|done|done]].
      unfold vsize in *. rewrite length_app, length_take, u32_small, vget_lookup, Nat2N.id, lookup_app_r, Ht by lia.
      rewrite lookup_app_r; rewrite length_take; [|lia]. by replace (_ - _)%nat with 0%nat by lia.
  - rewrite Hp, concat_app. apply Forall_app. split.
    + eapply Forall_impl; [exact H5|]. intros e. apply inside_within, rect_within_merge_l.
    + cbn [concat]. rewrite app_nil_r. eapply Forall_impl; [eapply covers_inside, Hc|]. intros e. apply inside_within, rect_within_merge_r.
Qed.

Lemma add_children_ok p : (p < length nodes)%nat -> exists parent,
  let c := Nat.min (N.to_nat BRANCHING_FACTOR) (length nodes - p) in
  fold_m (add_child nodes) (TreeNode_default, tree0 ++ take p nodes, N.of_nat p) (irange 0 BRANCHING_FACTOR) =
    Some (parent, tree0 ++ take (p + c) nodes, N.of_nat (p + c)) /\
  parent_of p c parent (tree0 ++ take (p + c) nodes).
Proof.
  intros Hp. assert (length nodes = length parts) as Hlen by (by eapply Forall2_length).
  destruct (fold_m_irange (add_child nodes) (fun k st => let c := Nat.min (N.to_nat k) (length nodes - p) in
    exists parent, st = (parent, tree0 ++ take (p + c) nodes, N.of_nat (p + c)) /\ parent_of p c parent (tree0 ++ take (p + c) nodes))
    0%N BRANCHING_FACTOR (TreeNode_default, tree0 ++ take p nodes, N.of_nat p)) as (st & Hst & parent & -> & Hpar); [lia|lia| | |by exists parent].
  - exists TreeNode_default. cbn [N.to_nat Nat.min]. rewrite Nat.add_0_r. split; [done|]. repeat split; constructor.
  - intros k st Hk (parent & -> & Hpar). unfold add_child. case_ltb; unfold vsize in *.
    + assert (Nat.min (N.to_nat k) (length nodes - p) = N.to_nat k) as Hmin by lia. rewrite Hmin in *.
      destruct (lookup_lt_is_Some_2 nodes (p + N.to_nat k)) as [node Hn]; [lia|]. destruct (lookup_lt_is_Some_2 parts (p + N.to_nat k)) as [part Hpt]; [lia|].
      rewrite vget_lookup, Nat2N.id, Hn. cbn [mbind option_bind]. eexists. split; [done|].
      assert (Nat.min (N.to_nat (k + 1)) (length nodes - p) = S (N.to_nat k)) as -> by lia.
      eexists. split; [|by eapply parent_of_step]. f_equal; [f_equal|].
      * rewrite <- app_assoc. f_equal. rewrite Nat.add_succ_r. symmetry. by apply take_S_r.
      * rewrite uadd_small by lia. lia.
    + eexists. split; [done|]. exists parent. assert (Nat.min (N.to_nat (k + 1)) (length nodes - p) = Nat.min (N.to_nat k) (length nodes - p)) as -> by lia. done.
Qed.

Lemma parent_covers p c parent tree : (0 < c <= N.to_nat BRANCHING_FACTOR)%nat -> parent_of p c parent tree ->
  covers coords tree leaves (S d) parent (concat (take c (drop p parts))).
Proof.
  intros Hc (H1 & H2 & H3 & H4 & H5). split; [done|]. unfold vsize. rewrite H3. repeat split; [done|done|lia|lia|]. by eexists.
Qed.

Lemma pack_level_ok fuel p next nparts : (length nodes < p + fuel)%nat -> (p <= length nodes)%nat ->
  Forall2 (covers coords (tree0 ++ take p nodes) leaves (S d)) next nparts -> concat nparts = concat (take p parts) ->
  (2 * length next <= p + 1)%nat -> ((p < length nodes)%nat -> (2 * length next <= p)%nat) -> ((0 < p)%nat -> next <> []) ->
  exists next' nparts', pack_level fuel nodes (N.of_nat p) (tree0 ++ take p nodes) next = Some (tree0 ++ nodes, next') /\
    Forall2 (covers coords (tree0 ++ nodes) leaves (S d)) next' nparts' /\ concat nparts' = concat parts /\
    (2 * length next' <= length nodes + 1)%nat /\ ((0 < length nodes)%nat -> next' <> []).
Proof.
  revert p next nparts. induction fuel as [|fuel IH]; intros p next nparts Hf Hp HF Hc H1 H2 H3; [lia|].
  assert (length nodes = length parts) as Hlen by (by eapply Forall2_length). cbn [pack_level]. case_ltb; unfold vsize in *.
  2: { assert (p = length nodes) as -> by lia. rewrite firstn_all in *. exists next, nparts. rewrite (take_ge parts) in Hc by lia. auto. }
  destruct (add_children_ok p) as (parent & Hfold & Hpar); [lia|]. rewrite Hfold. cbn [mbind option_bind].
  set (c := Nat.min (N.to_nat BRANCHING_FACTOR) (length nodes - p)) in *.
  apply (IH (p + c)%nat _ (nparts ++ [concat (take c (drop p parts))])); try (rewrite ?length_app; cbn [length]; lia).
  - apply Forall2_app; [eapply Forall2_impl; [exact HF|]; intros; eapply covers_mono; [|done|done]|].
    + apply prefix_app. rewrite <- take_take_drop. by apply prefix_app_r.
    + constructor; [|constructor]. apply parent_covers; [lia|done].
  - rewrite concat_app, Hc, <- take_take_drop, concat_app. cbn [concat]. by rewrite app_nil_r.
  - intros _ Hnil. by destruct next.
Qed.
End level.

(** ** The levels *)

(** The fields of a node fit together. *)
Definition shaped (node : TreeNode) : Prop := child_count node = 0%N \/ child_count node = vsize (children node) /\ (vsize (children node) <= BRANCHING_FACTOR)%N.

Lemma covers_shaped coords tree leaves d node es : covers coords tree leaves d node es -> shaped node.
Proof. destruct d; intros [_ H]; [left; apply H|right]. destruct H as (_ & ? & ? & _). split; [done|lia]. Qed.

Lemma pack_levels_ok coords leaves (Hb : (1 < BRANCHING_FACTOR < 4294967296)%N) fuel d nodes parts tree :
  Forall2 (covers coords tree leaves d) nodes parts -> (0 < length nodes <= fuel)%nat -> (vsize tree + 3 * vsize nodes < 4294967296)%N ->
  Forall shaped tree -> exists tree' root d', pack_levels fuel nodes tree = Some (tree', [root]) /\
    covers coords tree' leaves d' root (concat parts) /\ Forall shaped tree' /\ (vsize tree' + 1 <= vsize tree + 3 * vsize nodes)%N.
Proof.
  revert d nodes parts tree. induction fuel as [|fuel IH]; intros d nodes parts tree HF Hf Hs Ht; [lia|]. cbn [pack_levels]. case_ltb.
  2: { destruct HF as [|root part nodes parts Hr HF]; [cbn in Hf; lia|]. destruct HF as [|]; [|unfold vsize in *; cbn in *; lia].
    exists tree, root, d. cbn [concat]. rewrite app_nil_r. repeat split; [done|done|]. unfold vsize in *. cbn in *. lia. }
  destruct (pack_level_ok coords leaves d tree nodes parts HF Hb ltac:(lia) (S (length nodes)) 0 [] []) as (next & nparts & Hn & HF' & Hc & Hl & Hne);
    [cbn; lia|lia|constructor|done|cbn; lia|cbn; lia|lia|].
  rewrite take_0, app_nil_r in Hn. change (N.of_nat 0) with 0%N in Hn. rewrite Hn. cbn [mbind option_bind].
  assert (0 < length next)%nat by (destruct next; [exfalso; apply Hne; [lia|done]|cbn; lia]).
  rewrite <- Hc. destruct (IH (S d) next nparts (tree ++ nodes)) as (tree' & root & d' & ? & ? & ? & Hsz); [done| | | |].
  - unfold vsize in *. lia.
  - rewrite vsize_app. unfold vsize in *. lia.
  - apply Forall_app. split; [done|]. apply Forall_lookup. intros i node Hi. destruct (Forall2_lookup_l _ _ _ _ _ HF Hi) as (part & _ & Hp). by eapply covers_shaped.
  - exists tree', root, d'. repeat split; try done. rewrite vsize_app in Hsz. unfold vsize in *. lia.
Qed.

(** ** Reversing *)

Definition renumbered (size : N) (node : TreeNode) : TreeNode :=
  if (child_count node =? 0)%N then node
  else MkTreeNode (minimum_bounding_rectangle node) (child_count node) (child_is_on_disk node) ((fun id => usub (usub size id) 1) <$> children node).

Lemma renumber_children_ok size node : (BRANCHING_FACTOR < 4294967296)%N -> shaped node -> renumber_children size node = Some (renumbered size node).
Proof.
  intros Hlt Hs. unfold renumber_children, renumbered. destruct node as [r n disk ids]. cbn [child_count children minimum_bounding_rectangle child_is_on_disk] in *.
  destruct (N.eqb_spec n 0) as [->|Hn]; [done|]. destruct Hs as [Hs|[Hs Hle]]; cbn in Hs; [done|]. cbn in Hle. subst n.
  set (f := fun id => usub (usub size id) 1).
  destruct (fold_m_irange (fun ids j => old_id ← vget ids j; vset ids j (f old_id)) (fun k ids' => ids' = (f <$> take (N.to_nat k) ids) ++ drop (N.to_nat k) ids)
    0 (vsize ids) ids) as (ids' & Hf & ->); [lia|lia|done| |].
  - intros k ids' Hk ->. destruct (vget_lt ids k) as [x Hx]; [lia|]. rewrite vget_lookup in Hx. pose proof (lookup_lt_Some _ _ _ Hx).
    assert (length (f <$> take (N.to_nat k) ids) = N.to_nat k) as Hlen by (rewrite length_fmap, length_take; lia).
    assert (drop (N.to_nat k) ids = x :: drop (S (N.to_nat k)) ids) as Hd by (by apply drop_S).
    rewrite vget_lookup, lookup_app_r, Hlen, Nat.sub_diag, Hd by lia. cbn [lookup list_lookup mbind option_bind].
    rewrite vset_lt by (rewrite vsize_app; unfold vsize in *; cbn; lia). eexists. split; [done|].
    rewrite insert_app_r_alt, Hlen, Nat.sub_diag by lia. cbn. replace (N.to_nat (k + 1)) with (S (N.to_nat k)) by lia.
    rewrite (take_S_r _ _ x Hx), fmap_app, <- app_assoc. done.
  - unfold f in Hf. cbv beta in Hf. rewrite Hf. cbn [mbind option_bind]. unfold vsize. rewrite Nat2N.id, firstn_all, drop_all, app_nil_r. done.
Qed.

Lemma covers_renumbered coords tree leaves d node es : (vsize tree < 4294967296)%N -> covers coords tree leaves d node es ->
  covers coords (renumbered (vsize tree) <$> reverse tree) leaves d (renumbered (vsize tree) node) es.
Proof.
  intros Hs. revert node es. induction d as [|d IH]; intros node es [Hi H]; unfold renumbered at 2.
  - destruct H as (? & Hc & ? & ?). rewrite Hc. cbn. auto.
  - destruct H as (? & Hc & Hl & parts & ? & HF). destruct (N.eqb_spec (child_count node) 0) as [Hz|]; [lia|].
    split; [done|]. cbn [child_is_on_disk child_count children]. unfold vsize in *. rewrite length_fmap. repeat split; [done|done|lia|lia|].
    exists parts. split; [done|]. apply Forall2_fmap_l. eapply Forall2_impl; [exact HF|]. intros id part (child & Hg & Hp). exists (renumbered (N.of_nat (length tree)) child).
    pose proof (vget_Some_lt _ _ _ Hg) as Hlt. unfold vsize in Hlt. split; [|by apply IH].
    rewrite !usub_small; rewrite ?usub_small; [|lia..]. rewrite vget_fmap, vget_lookup.
    rewrite reverse_lookup by lia. rewrite vget_lookup in Hg. replace (_ - S _)%nat with (N.to_nat id) by lia. by rewrite Hg.
Qed.

(** ** The whole construction *)

Section whole.
  Context (math : c_math) (coordinate_list : list NodeInfo).

Definition value_le (a b : EdgeBasedNode) : Prop :=
  exists x y, hilbert_value math coordinate_list a = Some x /\ hilbert_value math coordinate_list b = Some y /\ (x <= y)%N.

(** What a wrapper stands for. *)
Definition wraps (input : list EdgeBasedNode) (w : WrappedInputElement) (e : EdgeBasedNode) : Prop :=
  vget input (m_array_index w) = Some e /\ hilbert_value math coordinate_list e = Some (m_hilbert_value w) /\ has_ends coordinate_list e.

Lemma wrap_element_inv input i e w : vget input i = Some e -> (i < 4294967296)%N -> wrap_element math coordinate_list input i = Some w -> wraps input w e.
Proof.
  intros He Hi. unfold wraps, hilbert_value, wrap_element. rewrite He. replace (vget [e] 0) with (Some e) by done. cbn [mbind option_bind].
  destruct (vget coordinate_list (en_u e)) as [u|] eqn:Hu; cbn [mbind option_bind]; [|done]. destruct (vget coordinate_list (en_v e)) as [v|] eqn:Hv; cbn [mbind option_bind]; [|done].
  destruct (Centroid _ _) as [c|]; cbn [mbind option_bind]; [|done]. destruct (truncate _) as [la|]; cbn [mbind option_bind]; [|done].
  destruct (HilbertCode _) as [h|]; cbn [mbind option_bind]; [|done]. intros [= <-]. cbn [m_array_index m_hilbert_value]. rewrite u32_small by lia.
  split; [done|]. split; [done|]. split; by eexists.
Qed.

Lemma wrap_elements_inv input ws : (vsize input < 4294967296)%N -> wrap_elements math coordinate_list input = Some ws -> Forall2 (wraps input) ws input.
Proof.
  intros Hs Hw%mapM_Some_1. apply Forall2_fmap_l in Hw. apply Forall2_same_length_lookup_2.
  - pose proof (Forall2_length _ _ _ Hw) as Hl. rewrite length_seq in Hl. done.
  - intros i w e Hwi Hei. destruct (Forall2_lookup_r _ _ _ _ _ Hw Hwi) as (j & [-> Hj]%lookup_seq & Hwrap). cbn in Hwrap.
    eapply wrap_element_inv; [|unfold vsize in *|exact Hwrap]; [by rewrite vget_lookup, Nat2N.id|lia].
Qed.

Lemma Forall2_permuted {A C} (R : A -> C -> Prop) l1 l2 k : l1 ≡ₚ l2 -> Forall2 R l2 k -> exists k', Forall2 R l1 k' /\ k' ≡ₚ k.
Proof.
  intros Hp. revert k. induction Hp as [|x l l' Hp IH|x y l|l l' l'' _ IH1 _ IH2]; intros k Hk.
  - by exists k.
  - apply Forall2_cons_inv_l in Hk as (b & k2 & Hb & Hk & ->). destruct (IH _ Hk) as (k' & Hk' & Hpk). exists (b :: k'). split; [by constructor|by rewrite Hpk].
  - apply Forall2_cons_inv_l in Hk as (b & k2 & Hb & Hk & ->). apply Forall2_cons_inv_l in Hk as (c & k3 & Hc & Hk & ->).
    exists (c :: b :: k3). split; [by repeat constructor|constructor].
  - destruct (IH2 _ Hk) as (k1 & Hk1 & Hp1). destruct (IH1 _ Hk1) as (k2 & Hk2 & Hp2). exists k2. split; [done|by rewrite Hp2].
Qed.

Lemma values_sorted input ws es : Forall2 (wraps input) ws es -> StronglySorted (fun a b => m_hilbert_value a <= m_hilbert_value b)%N ws ->
  StronglySorted value_le es.
Proof.
  intros HF. induction HF as [|w e ws es Hw HF IH]; intros Hs; [constructor|]. apply StronglySorted_inv in Hs as [Hs Hall]. constructor; [by apply IH|].
  apply Forall_lookup. intros i e' He'. destruct (Forall2_lookup_r _ _ _ _ _ HF He') as (w' & Hw' & Hwr). eapply Forall_lookup_1 in Hall; [|exact Hw'].
  exists (m_hilbert_value w), (m_hilbert_value w'). split; [apply Hw|]. split; [apply Hwr|done].
Qed.

Lemma rtree_make_ok parallel_sort input : sorts_by_value parallel_sort -> (1 < BRANCHING_FACTOR < 4294967296)%N -> (0 < LEAF_NODE_SIZE < 4294967296)%N ->
  input <> [] -> (3 * vsize input <= 2147483648)%N -> is_Some (wrap_elements math coordinate_list input) ->
  exists tree leaves root d, StaticRTree_make math parallel_sort input coordinate_list = Some (tree, leaves) /\ vget tree 0 = Some root /\
    covers (coordinate_of <$> coordinate_list) tree leaves d root (concat leaves) /\ concat leaves ≡ₚ input /\ StronglySorted value_le (concat leaves) /\ (vsize tree <= 2147483648)%N.
Proof.
  intros Hsort HB HL Hne Hs [ws Hws]. destruct (Hsort ws) as [Hp Hord]. pose proof (wrap_elements_inv input ws ltac:(lia) Hws) as HF.
  destruct (Forall2_permuted _ _ _ _ Hp HF) as (sorted & HF' & Hperm). unfold StaticRTree_make. rewrite Hws. cbn [mbind option_bind].
  destruct (pack_leaves_ok coordinate_list input (parallel_sort ws) sorted) with (fuel := S (length input)) (processed := 0%N) (nodes := @nil TreeNode) (leaves := @nil LeafNode)
    (tree := @nil TreeNode) as (nodes & leaves & -> & Hc & Hlen & Hnodes); [|by apply Permutation_length|lia| |done|lia|lia|done|done|constructor|].
  { eapply Forall2_impl; [exact HF'|]. by intros w e [H _]. }
  { apply Forall_lookup. intros i e He. destruct (Forall2_lookup_r _ _ _ _ _ HF' He) as (w & _ & Hw). apply Hw. }
  cbn [mbind option_bind]. pose proof (Forall2_length _ _ _ Hnodes) as Hnl.
  destruct (pack_levels_ok (coordinate_of <$> coordinate_list) leaves HB (S (length nodes)) 0 nodes leaves []) as (tree & root & d & -> & Hroot & Hshape & Hsize);
    [done| |unfold vsize in *; cbn; lia|constructor|].
  { destruct leaves; [|cbn in Hnl; lia]. cbn in Hc. subst sorted. by apply Permutation_nil_l in Hperm. }
  cbn [mbind option_bind]. replace (vget [root] 0) with (Some root) by done. cbn [mbind option_bind].
  set (full := tree ++ [root]). assert (vsize full <= 2147483648)%N as Hfull by (unfold full; rewrite vsize_app; unfold vsize in *; cbn; cbn in Hsize; lia).
  assert (covers (coordinate_of <$> coordinate_list) full leaves d root sorted) as Hcov by (rewrite <- Hc; eapply covers_mono; [by apply prefix_app_r|done|done]).
  assert (mapM (renumber_children (vsize (reverse full))) (reverse full) = Some (renumbered (vsize full) <$> reverse full)) as ->.
  { replace (vsize (reverse full)) with (vsize full) by (unfold vsize; by rewrite length_reverse). apply mapM_Some_2, Forall2_fmap_r, Forall_Forall2_diag.
    apply Forall_reverse, Forall_app. split; [eapply Forall_impl; [exact Hshape|]|]; [intros node; apply renumber_children_ok; lia|].
    constructor; [|constructor]. apply renumber_children_ok; [lia|]. by eapply covers_shaped. }
  cbn [mbind option_bind]. exists (renumbered (vsize full) <$> reverse full), leaves, (renumbered (vsize full) root), d. split; [done|]. split.
  - rewrite vget_fmap. unfold full. by rewrite reverse_app.
  - rewrite Hc. split; [apply covers_renumbered; [lia|done]|]. split; [done|]. split; [by eapply values_sorted|]. unfold vsize in *. rewrite length_fmap, length_reverse. lia.
Qed.
End whole.
End construction.

(** ** Properties *)

(** C18: The R-tree holds every segment. For any number of segments whose
    vertices have coordinates and whose Hilbert values are defined, the
    construction ends. The leaves hold the segments, each as often as the input
    does, in the order of their Hilbert values. The first node of the tree is a
    root over all of them: every leaf is at the same depth and holds between
    one segment and the leaf size, an inner node has between one child and the
    branching factor, the renumbered ids lead to the children, and the
    rectangle of a node contains both ends of every segment below it. *)
Theorem rtree_packed math BRANCHING_FACTOR LEAF_NODE_SIZE parallel_sort input coordinate_list :
  sorts_by_value parallel_sort -> (1 < BRANCHING_FACTOR < 4294967296)%N -> (0 < LEAF_NODE_SIZE < 4294967296)%N -> input <> [] ->
  (3 * vsize input <= 2147483648)%N -> is_Some (wrap_elements math coordinate_list input) -> exists tree leaves root d,
  StaticRTree_make BRANCHING_FACTOR LEAF_NODE_SIZE math parallel_sort input coordinate_list = Some (tree, leaves) /\ vget tree 0 = Some root /\
  covers BRANCHING_FACTOR LEAF_NODE_SIZE (coordinate_of <$> coordinate_list) tree leaves d root (concat leaves) /\ concat leaves ≡ₚ input /\
  StronglySorted (value_le math coordinate_list) (concat leaves).
Proof.
  intros Hs HB HL Hne Hsm Hw. destruct (rtree_make_ok BRANCHING_FACTOR LEAF_NODE_SIZE math coordinate_list parallel_sort input Hs HB HL Hne Hsm Hw)
    as (tree & leaves & root & d & H1 & H2 & H3 & H4 & H5 & _). by exists tree, leaves, root, d.
Qed.

(** ** Witnesses *)

Definition value_order (a b : WrappedInputElement) : Prop := (m_hilbert_value a <= m_hilbert_value b)%N.

#[export] Instance value_order_dec a b : Decision (value_order a b).
Proof. unfold value_order. apply _. Defined.

Definition sample_value_sort : list WrappedInputElement -> list WrappedInputElement := merge_sort value_order.

Lemma sample_value_sort_ok : sorts_by_value sample_value_sort.
Proof.
  intros l. split; [apply merge_sort_Permutation|]. assert (Transitive value_order) by (intros x y z; unfold value_order; lia).
  assert (Total value_order) by (intros x y; unfold value_order; lia). apply (StronglySorted_merge_sort value_order).
Qed.

Definition sample_segment (id u v : N) (tiny : bool) : EdgeBasedNode := EdgeBasedNode_make id SPECIAL_NODEID u v 0 100 100 0 0 SPECIAL_EDGEID 0 tiny 1 0.

Definition sample_segments : list EdgeBasedNode :=
  [sample_segment 0 0 1 false; sample_segment 1 1 2 true; sample_segment 2 2 3 false; sample_segment 3 3 4 false; sample_segment 4 4 5 false].

Definition sample_vertices : list NodeInfo :=
  [MkNodeInfo 52000000 13000000 0; MkNodeInfo 52001000 13000500 1; MkNodeInfo 52002000 13003000 2; MkNodeInfo 52010000 13010000 3;
   MkNodeInfo 52011000 13010000 4; MkNodeInfo 52012000 13015000 5].

Lemma rtree_packed_witness : exists tree leaves root d,
  StaticRTree_make 2 2 sample_math sample_value_sort sample_segments sample_vertices = Some (tree, leaves) /\ vget tree 0 = Some root /\
  covers 2 2 (coordinate_of <$> sample_vertices) tree leaves d root (concat leaves) /\ length leaves = 3%nat.
Proof.
  destruct (rtree_packed sample_math 2 2 sample_value_sort sample_segments sample_vertices) as (tree & leaves & root & d & H1 & H2 & H3 & _).
  - apply sample_value_sort_ok.
  - lia.
  - lia.
  - done.
  - vm_compute. done.
  - exists (default [] (wrap_elements sample_math sample_vertices sample_segments)). vm_compute. reflexivity.
  - exists tree, leaves, root, d. split; [exact H1|]. split; [exact H2|]. split; [exact H3|]. revert H1. vm_compute. intros [= <- <-]. reflexivity.
Defined.
