(* ===== verification/RTreeSearch.v ===== *)
(** * DataStructures/StaticRTree.h: queries

    The searches for the roads near a coordinate. The traversal queue is a
    [std::priority_queue], which pops one of the candidates with the least
    distance: which one of several is left open. *)

From Stdlib Require Import Floats.SpecFloat.
From S2P Require Import Prelude Types Float32 Text Geometry EdgeExpansion Routing RTree.

Record QueryCandidate := MkQueryCandidate { qc_min_dist : float; qc_node_id : N }.

Record IncrementalQueryCandidate := MkIncrementalCandidate { ic_min_dist : float; ic_node : TreeNode + EdgeBasedNode }.

Definition EdgeBasedNode_default : EdgeBasedNode :=
  EdgeBasedNode_make SPECIAL_NODEID SPECIAL_NODEID SPECIAL_NODEID SPECIAL_NODEID 0 (Z.shiftr INVALID_EDGE_WEIGHT 1) (Z.shiftr INVALID_EDGE_WEIGHT 1) 0 0
    SPECIAL_EDGEID 65535 false 0 0.

(** The variables of the incremental query. *)
Record incremental_state := MkIncrementalState {
  is_queue : list IncrementalQueryCandidate; is_results : list PhantomNode; found_in_big_cc : N; found_in_tiny_cc : N;
  inspected_segments : N; min_found_distances : list float }.

(** The variables of the other two queries, which keep a result of type [R]. *)
Record nearest_state (R : Type) := MkNearestState { ns_queue : list QueryCandidate; ns_min_dist : float; ns_min_max_dist : float; ns_result : R }.
Arguments MkNearestState {R}.
Arguments ns_queue {R}.
Arguments ns_min_dist {R}.
Arguments ns_min_max_dist {R}.
Arguments ns_result {R}.

Section queries.
  Context (math : c_math) (m_search_tree : list TreeNode) (leaf_file : list LeafNode) (m_coordinate_list : list FixedPointCoordinate).

Definition LoadLeafFromDisk (leaf_id : N) : option LeafNode := vget leaf_file leaf_id.

(** The id of a child is converted to [int32_t] before it is used. *)
Definition child_node (node : TreeNode) (i : N) : option (N * TreeNode) :=
  child_id ← vget (children node) i;
  if (to_int child_id <? 0)%Z then None else child_tree_node ← vget m_search_tree child_id; Some (child_id, child_tree_node).

(** ** Phantom nodes *)

Definition set_weights (p : PhantomNode) (forward reverse : Z) : PhantomNode :=
  MkPhantomNode (forward_node_id p) (reverse_node_id p) (ph_name_id p) forward reverse (forward_offset p) (reverse_offset p)
    (packed_geometry_id p) (location p) (fwd_segment_position p) (forward_travel_mode p) (backward_travel_mode p).

Definition set_location (p : PhantomNode) (l : FixedPointCoordinate) : PhantomNode :=
  MkPhantomNode (forward_node_id p) (reverse_node_id p) (ph_name_id p) (forward_weight p) (reverse_weight p) (forward_offset p) (reverse_offset p)
    (packed_geometry_id p) l (fwd_segment_position p) (forward_travel_mode p) (backward_travel_mode p).

(** A product of an [int] and a [float] is a [float], which is converted back. *)
Definition SetForwardAndReverseWeightsOnPhantomNode (nearest_edge : EdgeBasedNode) (p : PhantomNode) : option PhantomNode :=
  u ← vget m_coordinate_list (en_u nearest_edge); v ← vget m_coordinate_list (en_v nearest_edge);
  let distance_1 := euclidean math u (location p) in
  let distance_2 := euclidean math u v in
  let ratio := fmin fone (fdiv distance_1 distance_2) in
  forward ← (if negb (SPECIAL_NODEID =? forward_node_id p)%N then truncate (fmul (float_of_int (forward_weight p)) ratio) else Some (forward_weight p));
  reverse ← (if negb (SPECIAL_NODEID =? reverse_node_id p)%N then truncate (fmul (float_of_int (reverse_weight p)) (fsub fone ratio)) else Some (reverse_weight p));
  Some (set_weights p forward reverse).

Definition FixUpRoundingIssue (input_coordinate : FixedPointCoordinate) (p : PhantomNode) : option PhantomNode :=
  dlon ← isub (lon input_coordinate) (lon (location p)); dlat ← isub (lat input_coordinate) (lat (location p));
  alon ← i32 (Z.abs dlon); alat ← i32 (Z.abs dlat);
  let new_lon := if (alon =? 1)%Z then lon input_coordinate else lon (location p) in
  let new_lat := if (alat =? 1)%Z then lat input_coordinate else lat (location p) in
  Some (set_location p (MkCoordinate new_lat new_lon)).

(** The phantom node of a segment at a foot point. *)
Definition phantom_of_segment (e : EdgeBasedNode) (foot_point : FixedPointCoordinate) : PhantomNode :=
  MkPhantomNode (forward_edge_based_node_id e) (reverse_edge_based_node_id e) (en_name_id e) (en_forward_weight e) (en_reverse_weight e)
    (en_forward_offset e) (en_reverse_offset e) (en_packed_geometry_id e) foot_point (en_fwd_segment_position e)
    (en_forward_travel_mode e) (en_backward_travel_mode e).

(** ** Incremental search *)

Section incremental.
  Context (pop_least : list IncrementalQueryCandidate -> option (IncrementalQueryCandidate * list IncrementalQueryCandidate)).
  Context (input_coordinate : FixedPointCoordinate) (number_of_results max_checked_segments : N).

(** The perpendicular distance of a segment, which the queue is sorted by. *)
Definition segment_distance (e : EdgeBasedNode) : option float :=
  u ← vget m_coordinate_list (en_u e); v ← vget m_coordinate_list (en_v e);
  ComputePerpendicularDistance math u v input_coordinate.

Definition push_segments (current_min_dist : float) (queue : list IncrementalQueryCandidate) (leaf : LeafNode) : option (list IncrementalQueryCandidate) :=
  fold_m (fun queue e =>
    current_perpendicular_distance ← segment_distance e;
    Some (if SFltb current_perpendicular_distance current_min_dist then MkIncrementalCandidate current_perpendicular_distance (inr e) :: queue else queue)) queue leaf.

Definition push_children (current_min_dist : float) (queue : list IncrementalQueryCandidate) (node : TreeNode) : option (list IncrementalQueryCandidate) :=
  fold_m (fun queue i =>
    '(_, child_tree_node) ← child_node node i;
    let lower_bound_to_element := GetMinDist math (minimum_bounding_rectangle child_tree_node) input_coordinate in
    Some (if SFltb lower_bound_to_element current_min_dist then MkIncrementalCandidate lower_bound_to_element (inl child_tree_node) :: queue else queue))
    queue (irange 0 (child_count node)).

Definition set_queue (st : incremental_state) (queue : list IncrementalQueryCandidate) : incremental_state :=
  MkIncrementalState queue (is_results st) (found_in_big_cc st) (found_in_tiny_cc st) (inspected_segments st) (min_found_distances st).

(** The branch for a node of the tree. *)
Definition visit_node (current_min_dist : float) (st : incremental_state) (node : TreeNode) : option incremental_state :=
  if child_is_on_disk node then
    leaf_id ← vget (children node) 0; leaf ← LoadLeafFromDisk leaf_id;
    queue ← push_segments current_min_dist (is_queue st) leaf;
    Some (set_queue st queue)
  else
    queue ← push_children current_min_dist (is_queue st) node;
    Some (set_queue st queue).

(** The distance and the phantom node of a segment that is close enough. *)
Definition segment_result (current_min_dist : float) (e : EdgeBasedNode) : option (option (float * PhantomNode)) :=
  u ← vget m_coordinate_list (en_u e); v ← vget m_coordinate_list (en_v e);
  '(current_perpendicular_distance, foot_point, _) ← PerpendicularDistance math u v input_coordinate;
  if SFltb current_perpendicular_distance current_min_dist && negb (epsilon_compare current_perpendicular_distance current_min_dist) then
    p ← FixUpRoundingIssue input_coordinate (phantom_of_segment e foot_point);
    p ← SetForwardAndReverseWeightsOnPhantomNode e p;
    Some (Some (current_perpendicular_distance, p))
  else Some None.

(** The branch for a segment, after the two tests that skip it. *)
Definition store_segment (current_min_dist : float) (st : incremental_state) (e : EdgeBasedNode) : option incremental_state :=
  found ← segment_result current_min_dist e;
  match found with
  | None => Some st
  | Some (current_perpendicular_distance, p) =>
      if is_in_tiny_cc e then
        Some (MkIncrementalState (is_queue st) (is_results st ++ [p]) (found_in_big_cc st) (uadd (found_in_tiny_cc st) 1)
                (inspected_segments st) (min_found_distances st))
      else
        distances ← vset (min_found_distances st) (found_in_big_cc st) current_perpendicular_distance;
        Some (MkIncrementalState (is_queue st) (is_results st ++ [p]) (uadd (found_in_big_cc st) 1) (found_in_tiny_cc st)
                (inspected_segments st) distances)
  end.

Definition flush_queue (st : incremental_state) : incremental_state :=
  if (number_of_results =? found_in_big_cc st)%N || (max_checked_segments <=? inspected_segments st)%N then set_queue st [] else st.

(** One iteration for a candidate that was popped; [continue] skips the
    flushing of the queue. *)
Definition visit_candidate (st : incremental_state) (c : IncrementalQueryCandidate) : option incremental_state :=
  current_min_dist ← vget (min_found_distances st) (usub number_of_results 1);
  if SFltb current_min_dist (ic_min_dist c) then Some st
  else
    match ic_node c with
    | inl node => st ← visit_node current_min_dist st node; Some (flush_queue st)
    | inr e =>
        let st := MkIncrementalState (is_queue st) (is_results st) (found_in_big_cc st) (found_in_tiny_cc st)
                    (uadd (inspected_segments st) 1) (min_found_distances st) in
        if (found_in_big_cc st =? number_of_results)%N && negb (is_in_tiny_cc e) then Some st
        else if (found_in_tiny_cc st =? number_of_results)%N && is_in_tiny_cc e then Some st
        else st ← store_segment current_min_dist st e; Some (flush_queue st)
    end.

Fixpoint incremental_search (fuel : nat) (st : incremental_state) : option incremental_state :=
  match fuel with
  | O => None
  | S fuel' =>
      match pop_least (is_queue st) with
      | None => Some st
      | Some (c, queue) => st ← visit_candidate (set_queue st queue) c; incremental_search fuel' st
      end
  end.

Definition IncrementalFindPhantomNodeForCoordinate (fuel : nat) (result_phantom_node_vector : list PhantomNode) : option (bool * list PhantomNode) :=
  root ← vget m_search_tree 0;
  st ← incremental_search fuel (MkIncrementalState [MkIncrementalCandidate fzero (inl root)] result_phantom_node_vector 0 0 0
         (replicate (N.to_nat number_of_results) float_max));
  Some (negb (bool_decide (is_results st = [])), is_results st).
End incremental.

(** ** Search with pruning *)

Section nearest.
  Context (pop_least : list QueryCandidate -> option (QueryCandidate * list QueryCandidate)).
  Context (input_coordinate : FixedPointCoordinate) (zoom_level : N).

(** The new value of [min_max_dist] and the queue. *)
Definition ExploreTreeNode (parent : TreeNode) (min_dist min_max_dist : float) (queue : list QueryCandidate) : option (float * list QueryCandidate) :=
  fold_m (fun '(new_min_max_dist, queue) i =>
    '(child_id, child_tree_node) ← child_node parent i;
    let lower_bound_to_element := GetMinDist math (minimum_bounding_rectangle child_tree_node) input_coordinate in
    let upper_bound_to_element := GetMinMaxDist math (minimum_bounding_rectangle child_tree_node) input_coordinate in
    let new_min_max_dist := fmin new_min_max_dist upper_bound_to_element in
    if SFltb new_min_max_dist lower_bound_to_element then Some (new_min_max_dist, queue)
    else if SFltb min_dist lower_bound_to_element then Some (new_min_max_dist, queue)
    else Some (new_min_max_dist, MkQueryCandidate lower_bound_to_element child_id :: queue))
    (min_max_dist, queue) (irange 0 (child_count parent)).

(** The loop of both queries: [pruned] are the comparisons that discard a
    candidate, [inspect] handles one segment of a leaf. *)
Section loop.
  Context {R : Type} (pruned : float -> float -> bool) (inspect : float * R -> EdgeBasedNode -> option (float * R)).

Definition visit_query_node (st : nearest_state R) (c : QueryCandidate) : option (nearest_state R) :=
  if negb (pruned (qc_min_dist c) (ns_min_max_dist st)) && negb (pruned (qc_min_dist c) (ns_min_dist st)) then
    current_tree_node ← vget m_search_tree (qc_node_id c);
    if child_is_on_disk current_tree_node then
      leaf_id ← vget (children current_tree_node) 0; leaf ← LoadLeafFromDisk leaf_id;
      '(min_dist, result) ← fold_m (fun st e =>
        if (zoom_level <=? 14)%N && is_in_tiny_cc e then Some st else inspect st e) (ns_min_dist st, ns_result st) leaf;
      Some (MkNearestState (ns_queue st) min_dist (ns_min_max_dist st) result)
    else
      '(min_max_dist, queue) ← ExploreTreeNode current_tree_node (ns_min_dist st) (ns_min_max_dist st) (ns_queue st);
      Some (MkNearestState queue (ns_min_dist st) min_max_dist (ns_result st))
  else Some st.

Fixpoint nearest_search (fuel : nat) (st : nearest_state R) : option (nearest_state R) :=
  match fuel with
  | O => None
  | S fuel' =>
      match pop_least (ns_queue st) with
      | None => Some st
      | Some (c, queue) => st ← visit_query_node (MkNearestState queue (ns_min_dist st) (ns_min_max_dist st) (ns_result st)) c; nearest_search fuel' st
      end
  end.
End loop.

Definition nearest_start {R} (result : R) : nearest_state R := MkNearestState [MkQueryCandidate fzero 0] float_max float_max result.

(** Both ends of a segment. *)
Definition inspect_ends (st : float * FixedPointCoordinate) (e : EdgeBasedNode) : option (float * FixedPointCoordinate) :=
  let inspect_end '(min_dist, result_coordinate) vertex :=
    c ← vget m_coordinate_list vertex;
    let current_minimum_distance := euclidean math input_coordinate c in
    Some (if SFltb current_minimum_distance min_dist then (current_minimum_distance, c) else (min_dist, result_coordinate)) in
  st ← inspect_end st (en_u e); inspect_end st (en_v e).

Definition LocateClosestEndPointForCoordinate (fuel : nat) (result_coordinate : FixedPointCoordinate) : option (bool * FixedPointCoordinate) :=
  st ← nearest_search (fun dist bound => SFleb bound dist) inspect_ends fuel (nearest_start result_coordinate);
  Some (coordinate_isValid (ns_result st), ns_result st).

Definition inspect_segment (st : float * (PhantomNode * EdgeBasedNode)) (e : EdgeBasedNode) : option (float * (PhantomNode * EdgeBasedNode)) :=
  let '(min_dist, result) := st in
  u ← vget m_coordinate_list (en_u e); v ← vget m_coordinate_list (en_v e);
  '(current_perpendicular_distance, nearest, _) ← PerpendicularDistance math u v input_coordinate;
  Some (if SFltb current_perpendicular_distance min_dist && negb (epsilon_compare current_perpendicular_distance min_dist)
        then (current_perpendicular_distance, (phantom_of_segment e nearest, e)) else (min_dist, result)).

Definition FindPhantomNodeForCoordinate (fuel : nat) (result_phantom_node : PhantomNode) : option (bool * PhantomNode) :=
  st ← nearest_search (fun dist bound => SFltb bound dist) inspect_segment fuel (nearest_start (result_phantom_node, EdgeBasedNode_default));
  let '(p, nearest_edge) := ns_result st in
  p ← (if coordinate_isValid (location p) then
         p ← FixUpRoundingIssue input_coordinate p; SetForwardAndReverseWeightsOnPhantomNode nearest_edge p
       else Some p);
  Some (coordinate_isValid (location p), p).
End nearest.
End queries.
