(* ===== verification/NearestRoads.v ===== *)
(** * The roads near a coordinate

    The incremental query on a packed R-tree inspects the segments in the order
    of their distance. *)

From Stdlib Require Import Floats.SpecFloat.
From stdpp Require Import sorting.
From S2P Require Import Prelude Types Float32 Text Geometry EdgeExpansion Routing RTree RTreeSearch.

(** [top] and [pop] of a [std::priority_queue]. *)
Definition pops_least {A} (dist : A -> float) (pop : list A -> option (A * list A)) : Prop :=
  pop [] = None /\
  forall l, l <> [] -> exists c rest, pop l = Some (c, rest) /\ l ≡ₚ c :: rest /\ forall x, x ∈ rest -> SFltb (dist x) (dist c) = false.

Section search.
  Context (math : c_math) (B L : N) (tree : list TreeNode) (leaves : list LeafNode) (coords : list FixedPointCoordinate).
  Context (pop : list IncrementalQueryCandidate -> option (IncrementalQueryCandidate * list IncrementalQueryCandidate)).
  Context (p : FixedPointCoordinate) (n limit : N) (segments : list EdgeBasedNode).

Abbreviation key := (segment_distance math coords p).
Abbreviation result := (segment_result math coords p float_max).

(** ** The specification *)

(** The results for segments in the given order, when [big] and [tiny] results
    were found before and [k] segments inspected. [checked] says that the limit
    was compared with [k]. The search stops with [n] results in big
    components; once there are [n] results in tiny ones, these are skipped. *)
Inductive selects : N -> N -> N -> bool -> list EdgeBasedNode -> list PhantomNode -> Prop :=
| selects_end big tiny k checked : selects big tiny k checked [] []
| selects_enough tiny k checked es : selects n tiny k checked es []
| selects_limit big tiny k checked es : (limit <= k)%N -> selects big tiny k checked es []
| selects_skip big k (checked : bool) e es ps : (big < n)%N -> (checked -> k < limit)%N -> is_in_tiny_cc e = true ->
    selects big n (k + 1) false es ps -> selects big n k checked (e :: es) ps
| selects_miss big tiny k (checked : bool) e es ps : (big < n)%N -> (checked -> k < limit)%N -> (is_in_tiny_cc e = true -> tiny <> n) ->
    result e = Some None ->
    selects big tiny (k + 1) true es ps -> selects big tiny k checked (e :: es) ps
| selects_tiny big tiny k (checked : bool) e d ph es ps : (big < n)%N -> (checked -> k < limit)%N -> is_in_tiny_cc e = true -> tiny <> n ->
    result e = Some (Some (d, ph)) ->
    selects big (tiny + 1) (k + 1) true es ps -> selects big tiny k checked (e :: es) (ph :: ps)
| selects_big big tiny k (checked : bool) e d ph es ps : (big < n)%N -> (checked -> k < limit)%N -> is_in_tiny_cc e = false ->
    result e = Some (Some (d, ph)) ->
    selects (big + 1) tiny (k + 1) true es ps -> selects big tiny k checked (e :: es) (ph :: ps).

(** Segments that the queue accepts. *)
Definition near (e : EdgeBasedNode) : bool := match key e with Some k => SFltb k float_max | None => false end.

Abbreviation near_of := (filter (fun e => near e = true)).

Definition closer (a b : EdgeBasedNode) : Prop := exists x y, key a = Some x /\ key b = Some y /\ SFleb x y = true.

(** The distances are computed, and the rectangle of a node is not farther away
    than the segments in it. *)
Record distances_ok : Prop := {
  dist_known : forall e, e ∈ segments -> exists k, key e = Some k /\ SFleb fzero k = true;
  dist_bound : forall id node e k, vget tree id = Some node -> e ∈ segments -> inside coords (minimum_bounding_rectangle node) e -> key e = Some k ->
    SFleb (GetMinDist math (minimum_bounding_rectangle node) p) k = true;
  dist_result : forall e, e ∈ segments -> is_Some (result e) }.

Hypothesis distances : distances_ok.
Hypothesis pop_ok : pops_least ic_min_dist pop.
Hypothesis tree_small : (vsize tree <= 2147483648)%N.
Hypothesis branching_small : (B < 4294967296)%N.
Hypothesis results_wanted : (0 < n < 4294967296)%N.
#[local] Set Default Proof Using "All".

(** ** Candidates *)

Definition key_of (e : EdgeBasedNode) : float := default fzero (key e).

Definition key_le (a b : EdgeBasedNode) : Prop := rank_le (key_of a) (key_of b).

(** The segments below a candidate and a bound on the steps they take. *)
Definition below (c : IncrementalQueryCandidate) (cov : list EdgeBasedNode * nat) : Prop :=
  is_nan (ic_min_dist c) = false /\ SFltb float_max (ic_min_dist c) = false /\ Forall (fun e => rank_le (ic_min_dist c) (key_of e)) cov.1 /\
  match ic_node c with
  | inl node => exists d all, covers B L coords tree leaves d node all /\ all ⊆ segments /\ cov.1 = near_of all /\ cov.2 = ((d + 2) * length all)%nat
  | inr e => cov = ([e], 1%nat) /\ e ∈ segments /\ key e = Some (ic_min_dist c) /\ near e = true
  end.

Definition steps (covs : list (list EdgeBasedNode * nat)) : nat := sum_list covs.*2.

Lemma steps_app covs1 covs2 : steps (covs1 ++ covs2) = (steps covs1 + steps covs2)%nat.
Proof. unfold steps. by rewrite fmap_app, sum_list_with_app. Qed.

Lemma steps_perm covs1 covs2 : covs1 ≡ₚ covs2 -> steps covs1 = steps covs2.
Proof. unfold steps. induction 1; cbn in *; lia. Qed.

Lemma near_key e : near e = true -> exists k, key e = Some k /\ key_of e = k /\ is_nan k = false /\ ~ rank_le float_max k.
Proof.
  unfold near, key_of. destruct (key e) as [k|]; [|done]. intros (H1 & _ & H2)%SFltb_rank. by exists k.
Qed.

Lemma covers_nonempty d node es : covers B L coords tree leaves d node es -> (0 < length es)%nat.
Proof.
  revert node es. induction d as [|d IH]; intros node es [_ H].
  - destruct H as (_ & _ & Hl & _). unfold vsize in *. lia.
  - destruct H as (_ & _ & Hl & parts & -> & HF). destruct HF as [|id part ids parts (child & _ & Hc) HF]; [unfold vsize in *; cbn in *; lia|].
    cbn [concat]. rewrite length_app. apply IH in Hc. lia.
Qed.

(** ** Pushing *)

Lemma push_segments_ok queue leaf : leaf ⊆ segments -> exists q covs,
  push_segments math coords p float_max queue leaf = Some (q ++ queue) /\ Forall2 below q covs /\ covs ≫= fst ≡ₚ near_of leaf /\
  (steps covs <= length leaf)%nat.
Proof.
  revert queue. induction leaf as [|e leaf IH]; intros queue Hl; [exists [], []; by repeat constructor|].
  destruct (dist_known distances e) as (k & Hk & H0); [set_solver|]. unfold push_segments. cbn [fold_m]. rewrite Hk. cbn [mbind option_bind].
  assert (near e = SFltb k float_max) as Hn by (unfold near; by rewrite Hk). rewrite <- Hn. rewrite filter_cons. destruct (near e) eqn:Hne.
  - destruct (IH (MkIncrementalCandidate k (inr e) :: queue)) as (q & covs & Hq & HF & Hp & Ht); [set_solver|].
    exists (q ++ [MkIncrementalCandidate k (inr e)]), (covs ++ [([e], 1%nat)]). rewrite <- app_assoc. split; [exact Hq|].
    split; [apply Forall2_app; [done|]; constructor; [|constructor]|].
    + symmetry in Hn. apply SFltb_rank in Hn as (Hnan & _ & Hr). repeat split; cbn; [done| | |set_solver|done|done].
      * destruct (SFltb float_max k) eqn:E; [|done]. apply SFltb_rank in E as (_ & _ & E). destruct (total rank_le k float_max); contradiction.
      * constructor; [|constructor]. unfold key_of. rewrite Hk. cbn. destruct (total rank_le k k); done.
    + rewrite bind_app, steps_app, decide_True by done. cbn. split; [rewrite Hp; symmetry; apply Permutation_cons_append|lia].
  - destruct (IH queue) as (q & covs & Hq & HF & Hp & Ht); [set_solver|]. exists q, covs. rewrite decide_False by done. cbn [length]. auto with lia.
Qed.

(** A child that is pushed, or too far away to have a near segment below it. *)
Lemma push_child_ok d id child part : vget tree id = Some child -> covers B L coords tree leaves d child part -> part ⊆ segments ->
  let lower := GetMinDist math (minimum_bounding_rectangle child) p in
  if SFltb lower float_max then below (MkIncrementalCandidate lower (inl child)) (near_of part, ((d + 2) * length part)%nat) else near_of part = [].
Proof.
  intros Hg Hc Hp lower.
  assert (forall e, e ∈ near_of part -> is_nan lower = false /\ rank_le lower (key_of e) /\ ~ rank_le float_max (key_of e)) as Hlow.
  { intros e [Hn He]%list_elem_of_filter. destruct (near_key e Hn) as (k & Hk & Hk' & _ & Hm). rewrite Hk'.
    pose proof (proj1 (Forall_forall _ _) (covers_inside B L _ _ _ _ _ _ Hc) e He) as Hin.
    pose proof (dist_bound distances id child e k Hg (Hp e He) Hin Hk) as (H1 & _ & H2)%SFleb_rank. done. }
  destruct (SFltb lower float_max) eqn:E.
  - apply SFltb_rank in E as (H1 & _ & H2). repeat split; cbn [ic_min_dist ic_node fst snd]; [done| | |].
    + destruct (SFltb float_max lower) eqn:E; [|done]. apply SFltb_rank in E as (_ & _ & E). destruct (total rank_le lower float_max); contradiction.
    + apply Forall_forall. intros e He. by destruct (Hlow e He) as (_ & ? & _).
    + by exists d, part.
  - destruct (near_of part) as [|e es]; [done|]. destruct (Hlow e) as (H1 & H2 & H3); [set_solver|]. exfalso. apply H3. transitivity lower; [|done].
    destruct (decide (rank_le float_max lower)) as [|Hr]; [done|]. assert (SFltb lower float_max = true) by (by apply SFltb_rank). congruence.
Qed.

Lemma push_children_ok d node parts queue : child_count node = vsize (children node) -> (vsize (children node) <= B)%N ->
  Forall2 (fun id part => exists child, vget tree id = Some child /\ covers B L coords tree leaves d child part) (children node) parts ->
  concat parts ⊆ segments -> exists q covs,
  push_children math tree p float_max queue node = Some (q ++ queue) /\ Forall2 below q covs /\ covs ≫= fst ≡ₚ near_of (concat parts) /\
  (steps covs <= (d + 2) * length (concat parts))%nat.
Proof.
  intros Hcount HB HF Hs. pose proof (Forall2_length _ _ _ HF) as Hlen. unfold push_children.
  match goal with |- context [fold_m ?f queue _] => destruct (fold_m_irange f (fun k queue' => exists q covs, queue' = q ++ queue /\ Forall2 below q covs /\
    covs ≫= fst ≡ₚ near_of (concat (take (N.to_nat k) parts)) /\ (steps covs <= (d + 2) * length (concat (take (N.to_nat k) parts)))%nat) 0%N (child_count node) queue)
    as (queue' & Hq & q & covs & -> & H1 & H2 & H3) end; [lia|lia|exists [], []; split; [done|]; split; [constructor|]; split; [done|cbn; lia]| |].
  2: { exists q, covs. rewrite (take_ge parts) in H2, H3 by (unfold vsize in *; lia). auto. }
  intros k queue' Hk (q & covs & -> & H1 & H2 & H3). destruct (vget_lt (children node) k) as [id Hid]; [lia|].
  pose proof Hid as Hid'. rewrite vget_lookup in Hid'. destruct (Forall2_lookup_l _ _ _ _ _ HF Hid') as (part & Hpart & child & Hg & Hc).
  unfold child_node. rewrite Hid. cbn [mbind option_bind]. pose proof (vget_Some_lt _ _ _ Hg). rewrite to_int_small by lia.
  destruct (Z.ltb_spec (Z.of_N id) 0); [lia|]. rewrite Hg. cbn [mbind option_bind].
  assert (part ⊆ segments) as Hps. { intros e He. apply Hs. apply list_elem_of_In, in_concat. exists part. split; apply list_elem_of_In; [by eapply list_elem_of_lookup_2|done]. }
  pose proof (push_child_ok d id child part Hg Hc Hps) as Hpush. cbv zeta in Hpush.
  assert (near_of (concat (take (N.to_nat (k + 1)) parts)) ≡ₚ near_of (concat (take (N.to_nat k) parts)) ++ near_of part) as Hnear.
  { replace (N.to_nat (k + 1)) with (S (N.to_nat k)) by lia. rewrite (take_S_r _ _ part Hpart), concat_app, filter_app. cbn [concat]. by rewrite app_nil_r. }
  assert (length (concat (take (N.to_nat (k + 1)) parts)) = length (concat (take (N.to_nat k) parts)) + length part)%nat as Hlc.
  { replace (N.to_nat (k + 1)) with (S (N.to_nat k)) by lia. rewrite (take_S_r _ _ part Hpart), concat_app, length_app. cbn [concat]. by rewrite app_nil_r. }
  destruct (SFltb _ float_max).
  - eexists. split; [done|]. eexists (_ :: q), (_ :: covs). split; [done|]. split; [by constructor|]. cbn [mbind list_bind fst]. rewrite Hnear, <- H2, Hlc.
    split; [apply Permutation_app_comm|]. unfold steps in *. cbn. lia.
  - eexists. split; [done|]. exists q, covs. split; [done|]. split; [done|]. rewrite Hnear, Hpush, app_nil_r, Hlc. split; [done|lia].
Qed.

Lemma visit_node_ok st d node all : covers B L coords tree leaves d node all -> all ⊆ segments -> exists q covs,
  visit_node math tree leaves coords p float_max st node = Some (set_queue st (q ++ is_queue st)) /\ Forall2 below q covs /\
  covs ≫= fst ≡ₚ near_of all /\ (steps covs < (d + 2) * length all)%nat.
Proof.
  intros Hc Hs. pose proof (covers_nonempty d node all Hc) as Hne. unfold visit_node. destruct d as [|d], Hc as [_ H].
  - destruct H as (-> & _ & _ & id & -> & Hl). replace (vget [id] 0) with (Some id) by done. unfold LoadLeafFromDisk. cbn [mbind option_bind]. rewrite Hl.
    cbn [mbind option_bind]. destruct (push_segments_ok (is_queue st) all Hs) as (q & covs & -> & H1 & H2 & H3). exists q, covs. cbn [mbind option_bind]. auto with lia.
  - destruct H as (-> & Hcount & Hle & parts & -> & HF).
    destruct (push_children_ok d node parts (is_queue st)) as (q & covs & -> & H1 & H2 & H3); [done|lia|done|done|].
    exists q, covs. cbn [mbind option_bind]. split; [done|]. split; [done|]. split; [done|lia].
Qed.

(** ** The loop *)

Record searching (st : incremental_state) (covs : list (list EdgeBasedNode * nat)) : Prop := {
  s_queue : Forall2 below (is_queue st) covs;
  s_big : (found_in_big_cc st < n)%N;
  s_tiny : (found_in_tiny_cc st <= n)%N;
  s_size : vsize (min_found_distances st) = n;
  s_last : vget (min_found_distances st) (n - 1) = Some float_max;
  s_inspected : (inspected_segments st + vsize (covs ≫= fst) < 4294967296)%N }.

(** The outcome of the search from a state: an order of the segments below the
    queue and the results for it. *)
Definition finds (fuel : nat) (st : incremental_state) (checked : bool) (left : list EdgeBasedNode) : Prop :=
  exists order ps st', order ≡ₚ left /\ StronglySorted key_le order /\
    incremental_search math tree leaves coords pop p n limit fuel st = Some st' /\ is_results st' = is_results st ++ ps /\
    selects (found_in_big_cc st) (found_in_tiny_cc st) (inspected_segments st) checked order ps.

#[local] Instance key_le_trans : Transitive key_le.
Proof. intros x y z. unfold key_le. apply rank_le_trans. Qed.

#[local] Instance key_le_total : Total key_le.
Proof. intros x y. unfold key_le. apply rank_le_total. Qed.

#[local] Instance key_le_dec x y : Decision (key_le x y).
Proof. unfold key_le. apply _. Defined.

Lemma sorted_left left : exists order, order ≡ₚ left /\ StronglySorted key_le order.
Proof. exists (merge_sort key_le left). split; [apply merge_sort_Permutation|apply (StronglySorted_merge_sort key_le)]. Qed.

(** An empty queue ends the search. *)
Lemma finds_flushed fuel st checked left : (found_in_big_cc st = n \/ (limit <= inspected_segments st)%N) -> finds (S fuel) (set_queue st []) checked left.
Proof.
  intros Hstop. destruct (sorted_left left) as (order & Hp & Hs). exists order, [], (set_queue st []). split; [done|]. split; [done|]. cbn [incremental_search is_queue set_queue].
  rewrite (proj1 pop_ok). split; [done|]. split; [by rewrite app_nil_r|]. cbn [found_in_big_cc found_in_tiny_cc inspected_segments set_queue].
  destruct Hstop as [->|]; [constructor|by constructor].
Qed.

Lemma popped st covs : searching st covs -> is_queue st <> [] -> exists c queue cov rest,
  pop (is_queue st) = Some (c, queue) /\ below c cov /\ Forall2 below queue rest /\ covs ≫= fst ≡ₚ cov.1 ++ (rest ≫= fst) /\
  steps covs = (cov.2 + steps rest)%nat /\ Forall (fun e => rank_le (ic_min_dist c) (key_of e)) (rest ≫= fst).
Proof.
  intros Hst Hne. destruct (proj2 pop_ok _ Hne) as (c & queue & Hpop & Hperm & Hleast).
  destruct (Forall2_permuted below (c :: queue) (is_queue st) covs) as (covs' & HF & Hp); [by symmetry|apply Hst|].
  apply Forall2_cons_inv_l in HF as (cov & rest & Hc & Hrest & ->). exists c, queue, cov, rest. split; [done|]. split; [done|]. split; [done|].
  split; [by rewrite <- Hp|]. split; [by rewrite <- (steps_perm _ _ Hp)|].
  apply Forall_forall. intros e (cov' & He & Hin)%list_elem_of_bind. apply list_elem_of_lookup in Hin as [i Hi].
  destruct (Forall2_lookup_r _ _ _ _ _ Hrest Hi) as (c' & Hc' & Hb). transitivity (ic_min_dist c').
  - assert (SFltb (ic_min_dist c') (ic_min_dist c) = false) as Hlt by (apply Hleast; by eapply list_elem_of_lookup_2).
    destruct (decide (rank_le (ic_min_dist c) (ic_min_dist c'))) as [|Hr]; [done|].
    assert (SFltb (ic_min_dist c') (ic_min_dist c) = true) by (apply SFltb_rank; split; [apply Hb|split; [apply Hc|done]]). congruence.
  - destruct Hb as (_ & _ & Hb & _). rewrite Forall_forall in Hb. auto.
Qed.

Abbreviation visit := (visit_candidate math tree leaves coords p n limit).

Lemma finds_node fuel st c queue st' checked left left' : pop (is_queue st) = Some (c, queue) -> visit (set_queue st queue) c = Some st' ->
  is_results st' = is_results st -> found_in_big_cc st' = found_in_big_cc st -> found_in_tiny_cc st' = found_in_tiny_cc st ->
  inspected_segments st' = inspected_segments st -> left' ≡ₚ left -> finds fuel st' checked left' -> finds (S fuel) st checked left.
Proof.
  intros Hpop Hv H1 H2 H3 H4 Hp (order & ps & st2 & Ho & Hs & Hrun & Hres & Hsel). exists order, ps, st2. split; [by rewrite Ho|]. split; [done|].
  cbn [incremental_search]. rewrite Hpop, Hv. cbn [mbind option_bind]. rewrite H1 in Hres. rewrite H2, H3, H4 in Hsel. done.
Qed.

Lemma finds_segment fuel st c queue st' checked checked' e ps0 left left' : pop (is_queue st) = Some (c, queue) -> visit (set_queue st queue) c = Some st' ->
  is_results st' = is_results st ++ ps0 -> left ≡ₚ e :: left' -> Forall (key_le e) left' ->
  (forall order ps, selects (found_in_big_cc st') (found_in_tiny_cc st') (inspected_segments st') checked' order ps ->
     selects (found_in_big_cc st) (found_in_tiny_cc st) (inspected_segments st) checked (e :: order) (ps0 ++ ps)) ->
  finds fuel st' checked' left' -> finds (S fuel) st checked left.
Proof.
  intros Hpop Hv H1 Hp Hle Hsel (order & ps & st2 & Ho & Hs & Hrun & Hres & Hsel'). exists (e :: order), (ps0 ++ ps), st2.
  split; [by rewrite Hp, Ho|]. split; [constructor; [done|by rewrite Ho]|]. cbn [incremental_search]. rewrite Hpop, Hv. cbn [mbind option_bind].
  split; [done|]. split; [by rewrite Hres, H1, app_assoc|auto].
Qed.

(** The branch of a candidate, as long as the bound is not lowered. *)
Lemma visit_unfold st covs c cov queue : searching st covs -> below c cov -> (inspected_segments st + vsize cov.1 < 4294967296)%N ->
  visit (set_queue st queue) c =
  match ic_node c with
  | inl node => st' ← visit_node math tree leaves coords p float_max (set_queue st queue) node; Some (flush_queue n limit st')
  | inr e =>
      let st1 := MkIncrementalState queue (is_results st) (found_in_big_cc st) (found_in_tiny_cc st) (inspected_segments st + 1) (min_found_distances st) in
      if (found_in_tiny_cc st =? n)%N && is_in_tiny_cc e then Some st1
      else st' ← store_segment math coords p float_max st1 e; Some (flush_queue n limit st')
  end.
Proof.
  intros Hst Hb Hins. destruct Hst as [_ Hbig _ _ Hlast _], Hb as (_ & Hmax & _ & Hnode). unfold visit_candidate. cbn [min_found_distances set_queue].
  rewrite usub_small, Hlast by lia. cbn [mbind option_bind]. rewrite Hmax. destruct (ic_node c) as [node|e]; [done|]. destruct Hnode as (-> & _).
  cbn [is_queue is_results found_in_big_cc found_in_tiny_cc inspected_segments set_queue fst] in *. rewrite uadd_small by (unfold vsize in *; cbn in *; lia).
  destruct (N.eqb_spec (found_in_big_cc st) n); [lia|]. done.
Qed.

Section step.
  Context (fuel : nat).
  Hypothesis IH : forall st covs (checked : bool), searching st covs -> (steps covs < fuel)%nat -> (checked -> inspected_segments st < limit)%N ->
    finds fuel st checked (covs ≫= fst).

(** After a segment was stored: the queue is flushed or the search goes on. *)
Lemma finds_stored st rest : (0 < fuel)%nat -> (steps rest < fuel)%nat -> (found_in_big_cc st <> n -> searching st rest) ->
  finds fuel (flush_queue n limit st) true (rest ≫= fst).
Proof.
  intros H0 Hst Hs. unfold flush_queue. destruct ((n =? found_in_big_cc st)%N || _) eqn:E.
  - destruct fuel as [|fuel']; [lia|]. apply finds_flushed. apply orb_true_iff in E as [E%N.eqb_eq|E%N.leb_le]; [by left|by right].
  - apply orb_false_iff in E as [E1%N.eqb_neq E2%N.leb_gt]. apply IH; [apply Hs; congruence|done|lia].
Qed.

Lemma finds_node_step st covs c queue node cov rest (checked : bool) : searching st covs -> pop (is_queue st) = Some (c, queue) -> ic_node c = inl node ->
  below c cov -> Forall2 below queue rest -> covs ≫= fst ≡ₚ cov.1 ++ (rest ≫= fst) -> (cov.2 + steps rest < S fuel)%nat ->
  (checked -> inspected_segments st < limit)%N -> finds (S fuel) st checked (covs ≫= fst).
Proof.
  intros Hst Hpop Hn Hb Hq Hcov Hf Hch. pose proof Hst as [Hsq Hbig Htiny Hsize Hlast Hins].
  assert (vsize (covs ≫= fst) = vsize cov.1 + vsize (rest ≫= fst))%N as Hvs by (unfold vsize; rewrite (Permutation_length Hcov), length_app; lia).
  pose proof (visit_unfold st covs c cov queue Hst Hb ltac:(lia)) as Hv. rewrite Hn in Hv. pose proof Hb as (_ & _ & _ & Hnode). rewrite Hn in Hnode.
  destruct Hnode as (d & all & Hc & Hsub & Hnear & Hw).
  destruct (visit_node_ok (set_queue st queue) d node all Hc Hsub) as (q & covs2 & Hvis & HF2 & Hp2 & Hst2). rewrite Hvis in Hv. cbn [mbind option_bind] in Hv.
  cbn [is_queue set_queue] in Hv. set (st1 := set_queue (set_queue st queue) (q ++ queue)) in Hv.
  assert ((covs2 ++ rest) ≫= fst ≡ₚ covs ≫= fst) as Hp by (rewrite bind_app, Hcov, Hnear, Hp2; done).
  assert (searching st1 (covs2 ++ rest)) as Hs1.
  { split; cbn; try done; [by apply Forall2_app|]. unfold vsize in *. by rewrite (Permutation_length Hp). }
  assert (steps (covs2 ++ rest) < fuel)%nat as Hlt by (rewrite steps_app; lia).
  unfold flush_queue in Hv. destruct ((n =? found_in_big_cc st1)%N || _) eqn:E.
  - eapply (finds_node fuel st c queue _ checked _ _ Hpop Hv); [done|done|done|done|exact Hp|]. destruct fuel as [|fuel']; [lia|]. apply finds_flushed.
    apply orb_true_iff in E as [E%N.eqb_eq|E%N.leb_le]; [by left|by right].
  - eapply (finds_node fuel st c queue _ checked _ _ Hpop Hv); [done|done|done|done|exact Hp|]. by apply IH.
Qed.

Lemma flush_fields st : is_results (flush_queue n limit st) = is_results st /\ found_in_big_cc (flush_queue n limit st) = found_in_big_cc st /\
  found_in_tiny_cc (flush_queue n limit st) = found_in_tiny_cc st /\ inspected_segments (flush_queue n limit st) = inspected_segments st.
Proof. unfold flush_queue. by destruct (_ || _). Qed.

(** A segment that is not skipped. *)
Lemma finds_inspected st covs c queue e rest (checked : bool) : searching st covs -> pop (is_queue st) = Some (c, queue) -> ic_node c = inr e ->
  below c ([e], 1%nat) -> Forall2 below queue rest -> covs ≫= fst ≡ₚ e :: (rest ≫= fst) -> Forall (key_le e) (rest ≫= fst) ->
  (0 < fuel)%nat -> (steps rest < fuel)%nat -> (checked -> inspected_segments st < limit)%N -> (found_in_tiny_cc st =? n)%N && is_in_tiny_cc e = false ->
  finds (S fuel) st checked (covs ≫= fst).
Proof.
  intros Hst Hpop Hn Hb Hq Hcov Hle Hf Hf' Hch Hskip. pose proof Hst as [Hsq Hbig Htiny Hsize Hlast Hins].
  assert (vsize (covs ≫= fst) = 1 + vsize (rest ≫= fst))%N as Hvs by (unfold vsize; rewrite (Permutation_length Hcov); cbn [length]; lia).
  pose proof (visit_unfold st covs c ([e], 1%nat) queue Hst Hb ltac:(unfold vsize in *; cbn [length fst] in *; lia)) as Hv. rewrite Hn in Hv. cbv zeta in Hv.
  pose proof Hb as (_ & _ & _ & Hnode). rewrite Hn in Hnode. destruct Hnode as (_ & Hin & _ & _). destruct (dist_result distances e Hin) as [found Hres].
  rewrite Hskip in Hv. unfold store_segment in Hv. rewrite Hres in Hv. cbn [mbind option_bind] in Hv.
  assert (is_in_tiny_cc e = true -> found_in_tiny_cc st <> n) as Hnt by (intros Ht; rewrite Ht, andb_true_r in Hskip; by apply N.eqb_neq).
  destruct found as [[d ph]|]; [destruct (is_in_tiny_cc e) eqn:Htc|].
  - cbn [mbind option_bind is_queue is_results found_in_big_cc found_in_tiny_cc inspected_segments min_found_distances] in Hv. specialize (Hnt eq_refl). rewrite uadd_small in Hv by lia.
    match type of Hv with _ = Some (flush_queue _ _ ?st2) => destruct (flush_fields st2) as (F1 & F2 & F3 & F4);
      eapply (finds_segment fuel st c queue _ checked true e [ph] _ _ Hpop Hv); [exact F1|exact Hcov|done| |apply finds_stored; [done|done|]] end.
    + intros order ps. rewrite F2, F3, F4. cbn. eapply selects_tiny; eassumption.
    + intros _. split; cbn; try done || lia.
  - cbn [mbind option_bind is_queue is_results found_in_big_cc found_in_tiny_cc inspected_segments min_found_distances] in Hv. rewrite vset_lt in Hv by lia. cbn [mbind option_bind] in Hv. rewrite uadd_small in Hv by lia.
    match type of Hv with _ = Some (flush_queue _ _ ?st2) => destruct (flush_fields st2) as (F1 & F2 & F3 & F4);
      eapply (finds_segment fuel st c queue _ checked true e [ph] _ _ Hpop Hv); [exact F1|exact Hcov|done| |apply finds_stored; [done|done|]] end.
    + intros order ps. rewrite F2, F3, F4. cbn. eapply selects_big; eassumption.
    + cbn [found_in_big_cc]. intros Hne. split; cbn [is_queue is_results found_in_big_cc found_in_tiny_cc inspected_segments min_found_distances]; try done || lia.
      * by rewrite vsize_insert.
      * rewrite vget_insert. case_decide; [lia|done].
  - cbn [mbind option_bind] in Hv. match type of Hv with _ = Some (flush_queue _ _ ?st2) => destruct (flush_fields st2) as (F1 & F2 & F3 & F4);
      eapply (finds_segment fuel st c queue _ checked true e [] _ _ Hpop Hv); [by rewrite F1, app_nil_r|exact Hcov|done| |apply finds_stored; [done|done|]] end.
    + intros order ps. rewrite F2, F3, F4. cbn. by apply selects_miss.
    + intros _. split; cbn; try done || lia.
Qed.
End step.

Lemma search_finds fuel st covs (checked : bool) : searching st covs -> (steps covs < fuel)%nat -> (checked -> inspected_segments st < limit)%N ->
  finds fuel st checked (covs ≫= fst).
Proof.
  revert st covs checked. induction fuel as [|fuel IH]; intros st covs checked Hst Hf Hch; [lia|].
  destruct (decide (is_queue st = [])) as [He|Hne].
  - pose proof (s_queue _ _ Hst) as HF. rewrite He in HF. apply Forall2_nil_inv_l in HF as ->. exists [], [], st.
    cbn [incremental_search]. rewrite He, (proj1 pop_ok), app_nil_r. repeat split; constructor.
  - destruct (popped st covs Hst Hne) as (c & queue & cov & rest & Hpop & Hb & Hq & Hcov & Hsteps & Hleast).
    destruct (ic_node c) as [node|e] eqn:Hn; [eapply finds_node_step; try done; lia|].
    pose proof Hb as (_ & _ & _ & Hnode). rewrite Hn in Hnode. destruct Hnode as (-> & Hin & Hk & Hnear). cbn [fst snd app] in Hcov, Hsteps.
    assert (Forall (key_le e) (rest ≫= fst)) as Hle. { eapply Forall_impl; [exact Hleast|]. intros x. unfold key_le, key_of at 2. rewrite Hk. done. }
    destruct ((found_in_tiny_cc st =? n)%N && is_in_tiny_cc e) eqn:Hskip; [|eapply finds_inspected; try done; lia].
    pose proof Hst as [Hsq Hbig Htiny Hsize Hlast Hins].
    assert (vsize (covs ≫= fst) = 1 + vsize (rest ≫= fst))%N as Hvs by (unfold vsize; rewrite (Permutation_length Hcov); cbn [length]; lia).
    pose proof (visit_unfold st covs c ([e], 1%nat) queue Hst Hb ltac:(unfold vsize in *; cbn [length fst] in *; lia)) as Hv. rewrite Hn in Hv. cbv zeta in Hv.
    rewrite Hskip in Hv. apply andb_true_iff in Hskip as [Ht%N.eqb_eq Htc].
    eapply (finds_segment fuel st c queue _ checked false e [] _ _ Hpop Hv); [by rewrite app_nil_r|exact Hcov|done| |].
    + intros order ps. cbn. rewrite Ht. by apply selects_skip.
    + apply IH; [|lia|done]. split; cbn; try done || lia.
Qed.
End search.

Lemma more_fuel math tree leaves coords pop p n limit fuel fuel' st st' : (fuel <= fuel')%nat ->
  incremental_search math tree leaves coords pop p n limit fuel st = Some st' -> incremental_search math tree leaves coords pop p n limit fuel' st = Some st'.
Proof.
  intros Hf. revert fuel' Hf st. induction fuel as [|fuel IH]; intros [|fuel'] Hf st H; [done|done|lia|]. cbn [incremental_search] in *.
  destruct (pop (is_queue st)) as [[c queue]|]; [|done]. destruct (visit_candidate _ _ _ _ _ _ _ _ c) as [st1|]; [|done]. cbn [mbind option_bind] in *.
  apply IH; [lia|done].
Qed.

Lemma near_closer math coords p a b : near math coords p a = true -> near math coords p b = true -> key_le math coords p a b -> closer math coords p a b.
Proof.
  unfold near, key_le, key_of, closer. destruct (segment_distance math coords p a) as [x|]; [|done]. destruct (segment_distance math coords p b) as [y|]; [|done].
  intros (Hx & _ & _)%SFltb_rank (Hy & _ & _)%SFltb_rank Hle. exists x, y. split; [done|]. split; [done|]. by apply SFleb_rank.
Qed.

Lemma sorted_closer math coords p order : Forall (fun e => near math coords p e = true) order ->
  StronglySorted (key_le math coords p) order -> StronglySorted (closer math coords p) order.
Proof.
  intros HF Hs. induction Hs as [|e order Hs IH Hle]; [constructor|]. apply Forall_cons_1 in HF as [He HF]. constructor; [auto|].
  rewrite Forall_forall in HF. rewrite Forall_forall in Hle. apply Forall_forall. intros x Hx. apply near_closer; auto.
Qed.

(** The query on a tree that covers the segments. *)
Lemma query_ok math B L tree leaves coords pop p n limit segments root d results :
  distances_ok math tree coords p segments -> pops_least ic_min_dist pop -> (vsize tree <= 2147483648)%N -> (B < 4294967296)%N -> (0 < n < 4294967296)%N ->
  (vsize segments < 4294967296)%N -> vget tree 0 = Some root -> covers B L coords tree leaves d root segments ->
  exists order ps, order ≡ₚ filter (fun e => near math coords p e = true) segments /\ StronglySorted (key_le math coords p) order /\
    selects math coords p n limit 0 0 0 false order ps /\
    exists fuel0, forall fuel, (fuel0 <= fuel)%nat -> IncrementalFindPhantomNodeForCoordinate math tree leaves coords pop p n limit fuel results =
      Some (negb (bool_decide (results ++ ps = [])), results ++ ps).
Proof.
  intros Hd Hpop Ht HB Hn Hs Hroot Hc. set (st := MkIncrementalState [MkIncrementalCandidate fzero (inl root)] results 0 0 0 (replicate (N.to_nat n) float_max)).
  set (cov := (filter (fun e => near math coords p e = true) segments, ((d + 2) * length segments)%nat)).
  destruct (search_finds math B L tree leaves coords pop p n limit segments Hd Hpop Ht HB Hn (S (steps [cov])) st [cov] false) as (order & ps & st' & Ho & Hsort & Hrun & Hres & Hsel).
  - split; cbn [is_queue found_in_big_cc found_in_tiny_cc min_found_distances inspected_segments st].
    + constructor; [|constructor]. repeat split; cbn [ic_min_dist ic_node cov fst snd]; [|by exists d, segments].
      apply Forall_forall. intros e [_ He]%list_elem_of_filter. destruct (dist_known _ _ _ _ _ Hd e He) as (k & Hk & (_ & _ & Hle)%SFleb_rank). unfold key_of. by rewrite Hk.
    + lia.
    + lia.
    + unfold vsize. rewrite length_replicate. lia.
    + rewrite vget_lookup. apply lookup_replicate_2. lia.
    + cbn [mbind list_bind cov fst]. rewrite app_nil_r. unfold vsize in *. pose proof (length_filter (fun e => near math coords p e = true) segments). lia.
  - lia.
  - done.
  - cbn [mbind list_bind cov fst] in Ho. rewrite app_nil_r in Ho. exists order, ps. split; [done|]. split; [done|]. split; [done|].
    exists (S (steps [cov])). intros fuel Hf. unfold IncrementalFindPhantomNodeForCoordinate. rewrite Hroot. cbn [mbind option_bind].
    pose proof (more_fuel _ _ _ _ _ _ _ _ _ _ _ _ Hf Hrun) as Hrun'. unfold st in Hrun'. rewrite Hrun'. cbn [mbind option_bind]. rewrite Hres. done.
Qed.

(** ** Properties *)

Lemma made_inputs math B L parallel_sort input coordinate_list tree leaves : StaticRTree_make B L math parallel_sort input coordinate_list = Some (tree, leaves) ->
  (forall l, parallel_sort l ≡ₚ l) -> input <> [] /\ is_Some (wrap_elements math coordinate_list input).
Proof.
  intros H Hp. unfold StaticRTree_make in H. destruct (wrap_elements math coordinate_list input) as [ws|] eqn:Hw; [|done]. split; [|done].
  intros ->. cbn in Hw. injection Hw as <-. cbn [mbind option_bind] in H. cbn in H. done.
Qed.


(** ** Witnesses *)

Definition dist_order (a b : IncrementalQueryCandidate) : Prop := rank_le (ic_min_dist a) (ic_min_dist b).

#[export] Instance dist_order_dec a b : Decision (dist_order a b).
Proof. unfold dist_order. apply _. Defined.

#[export] Instance dist_order_trans : Transitive dist_order.
Proof. intros x y z. unfold dist_order. apply rank_le_trans. Qed.

#[export] Instance dist_order_total : Total dist_order.
Proof. intros x y. unfold dist_order. apply rank_le_total. Qed.

Definition sample_pop (l : list IncrementalQueryCandidate) : option (IncrementalQueryCandidate * list IncrementalQueryCandidate) :=
  match merge_sort dist_order l with [] => None | c :: rest => Some (c, rest) end.

Lemma sample_pop_ok : pops_least ic_min_dist sample_pop.
Proof.
  split; [done|]. intros l Hne. unfold sample_pop. pose proof (merge_sort_Permutation dist_order l) as Hp. pose proof (StronglySorted_merge_sort dist_order l) as Hs.
  destruct (merge_sort dist_order l) as [|c rest]; [by apply Permutation_nil_l in Hp|]. exists c, rest. split; [done|]. split; [by rewrite Hp|].
  intros x Hx. apply StronglySorted_inv in Hs as [_ Hs]. rewrite Forall_forall in Hs. specialize (Hs x Hx). destruct (SFltb _ _) eqn:E; [|done].
  apply SFltb_rank in E as (_ & _ & E). contradiction.
Qed.

(** A test for the hypotheses on the distances. *)
Definition insideb (coords : list FixedPointCoordinate) (r : RectangleInt2D) (e : EdgeBasedNode) : bool :=
  match vget coords (en_u e), vget coords (en_v e) with Some a, Some b => Contains r a && Contains r b | _, _ => false end.

Definition distances_test (math : c_math) (tree : list TreeNode) (coords : list FixedPointCoordinate) (p : FixedPointCoordinate) (segments : list EdgeBasedNode) : bool :=
  forallb (fun e =>
    match segment_distance math coords p e, segment_result math coords p float_max e with
    | Some k, Some _ => SFleb fzero k &&
        forallb (fun node => negb (insideb coords (minimum_bounding_rectangle node) e) || SFleb (GetMinDist math (minimum_bounding_rectangle node) p) k) tree
    | _, _ => false
    end) segments.

Lemma distances_test_ok math tree coords p segments : distances_test math tree coords p segments = true -> distances_ok math tree coords p segments.
Proof.
  unfold distances_test. rewrite forallb_forall. intros H. assert (forall e, e ∈ segments -> exists k r, segment_distance math coords p e = Some k /\
    segment_result math coords p float_max e = Some r /\ SFleb fzero k = true /\
    forall node, node ∈ tree -> insideb coords (minimum_bounding_rectangle node) e = true -> SFleb (GetMinDist math (minimum_bounding_rectangle node) p) k = true) as H'.
  { intros e He. specialize (H e (proj1 (list_elem_of_In _ _) He)). destruct (segment_distance math coords p e) as [k|]; [|done].
    destruct (segment_result math coords p float_max e) as [r|]; [|done]. apply andb_true_iff in H as [H0 H]. rewrite forallb_forall in H.
    exists k, r. repeat split; [done|]. intros node Hn Hi. specialize (H node (proj1 (list_elem_of_In _ _) Hn)). rewrite Hi in H. exact H. }
  split; intros.
  - destruct (H' e) as (k & r & H1 & H2 & H3 & H4); eauto.
  - destruct (H' e) as (k' & r & Hk & _ & _ & H4); [done|]. assert (k' = k) as -> by congruence. apply H4; [rewrite vget_lookup in H0; by eapply list_elem_of_lookup_2|].
    destruct H2 as (a & b & Ha & Hb & Hia & Hib). unfold insideb. by rewrite Ha, Hb, Hia, Hib.
  - destruct (H' e) as (k & r & _ & H2 & _); eauto.
Qed.

Definition sample_tree : list TreeNode * list LeafNode :=
  default ([], []) (StaticRTree_make 2 2 sample_math sample_value_sort sample_segments sample_vertices).


Definition query_order (a b : QueryCandidate) : Prop := rank_le (qc_min_dist a) (qc_min_dist b).

#[export] Instance query_order_dec a b : Decision (query_order a b).
Proof. unfold query_order. apply _. Defined.

Definition sample_query_pop (l : list QueryCandidate) : option (QueryCandidate * list QueryCandidate) :=
  match merge_sort query_order l with [] => None | c :: rest => Some (c, rest) end.

(** Two roads of a tiny component, and two roads of a big one farther away. *)
Definition town : list EdgeBasedNode := [sample_segment 0 0 1 true; sample_segment 1 1 2 true; sample_segment 2 3 4 false; sample_segment 3 4 5 false].

Definition town_vertices : list NodeInfo :=
  [MkNodeInfo 52000000 13000000 0; MkNodeInfo 52000100 13000100 1; MkNodeInfo 52000200 13000300 2; MkNodeInfo 52010000 13010000 3;
   MkNodeInfo 52010100 13010200 4; MkNodeInfo 52010300 13010300 5].

(** The same where the nearer roads run along a parallel. *)
Definition straight_vertices : list NodeInfo :=
  [MkNodeInfo 52000000 13000000 0; MkNodeInfo 52000000 13000100 1; MkNodeInfo 52000000 13000300 2; MkNodeInfo 52010000 13010000 3;
   MkNodeInfo 52010100 13010200 4; MkNodeInfo 52010300 13010300 5].

Definition town_tree (vertices : list NodeInfo) : list TreeNode * list LeafNode :=
  default ([], []) (StaticRTree_make 2 2 sample_math sample_value_sort town vertices).

