(* ===== verification/RouteGeometry.v ===== *)
(** * Algorithms/PolylineCompressor.cpp, Algorithms/DouglasPeucker.cpp

    The geometry of a route: the points that are kept at a zoom level, and the
    text the kept points are encoded as. *)

From Stdlib Require Import Floats.SpecFloat.
From S2P Require Import Prelude Types Float32 Text Json Geometry Unpacking.

(** ** SegmentInformation.h *)

Record SegmentInformation := MkSegment {
  seg_location : FixedPointCoordinate; seg_name_id : N; seg_duration : Z; seg_length : float; seg_bearing : Z;
  seg_turn_instruction : N; seg_travel_mode : N; necessary : bool; is_via_location : bool }.

Definition SegmentInformation_make (location : FixedPointCoordinate) (name_id : N) (duration : Z) (length : float) (turn_instruction : N)
    (necessary is_via_location : bool) (travel_mode : N) : SegmentInformation :=
  MkSegment location name_id duration length 0 turn_instruction travel_mode necessary is_via_location.

(** The overload without flags. *)
Definition SegmentInformation_turn (location : FixedPointCoordinate) (name_id : N) (duration : Z) (length : float) (turn_instruction : N)
    (travel_mode : N) : SegmentInformation :=
  MkSegment location name_id duration length 0 turn_instruction travel_mode (negb (turn_instruction =? NoTurn)%N) false.

Definition set_necessary (s : SegmentInformation) : SegmentInformation :=
  MkSegment (seg_location s) (seg_name_id s) (seg_duration s) (seg_length s) (seg_bearing s) (seg_turn_instruction s) (seg_travel_mode s) true (is_via_location s).

(** ** PolylineCompressor.cpp *)

(** A backslash is written twice. *)
Definition append_char (output : str) (value : Z) : str :=
  output ++ (if (92 =? value)%Z then [Z.to_N value; Z.to_N value] else [Z.to_N value]).

Fixpoint encodeNumber (fuel : nat) (number_to_encode : Z) (output : str) : option str :=
  match fuel with
  | O => None
  | S fuel' =>
      if (32 <=? number_to_encode)%Z then
        let next_value := (Z.lor 32 (Z.land number_to_encode 31) + 63)%Z in
        encodeNumber fuel' (Z.shiftr number_to_encode 5) (append_char output next_value)
      else Some (append_char output (number_to_encode + 63))
  end.

(** The shift of a number that does not fit is undefined. *)
Definition sign_to_bit (number : Z) : option Z :=
  shifted ← i32 (number * 2); Some (if (shifted <? 0)%Z then Z.lnot shifted else shifted).

Definition encodeVectorSignedNumber (numbers : list Z) (output : str) : option str :=
  numbers ← mapM sign_to_bit numbers;
  fold_m (fun output number => encodeNumber 7 number output) output numbers.

(** The differences to the last coordinate, for the necessary segments. *)
Definition delta_numbers (polyline : list SegmentInformation) : option (list Z) :=
  '(deltas, _) ← fold_m (fun '(deltas, last_coordinate) segment =>
    if necessary segment then
      lat_diff ← isub (lat (seg_location segment)) (lat last_coordinate);
      lon_diff ← isub (lon (seg_location segment)) (lon last_coordinate);
      Some (deltas ++ [lat_diff; lon_diff], seg_location segment)
    else Some (deltas, last_coordinate)) ([], MkCoordinate 0 0) polyline;
  Some deltas.

Definition printEncodedString (polyline : list SegmentInformation) : option (Value double) :=
  output ← (if bool_decide (polyline = []) then Some [] else deltas ← delta_numbers polyline; encodeVectorSignedNumber deltas []);
  Some (JString output).

Definition printUnencodedString (polyline : list SegmentInformation) : Value double :=
  JArray (omap (fun segment =>
    if necessary segment then
      Some (JArray [JNumber (to_double (degrees (lat (seg_location segment)))); JNumber (to_double (degrees (lon (seg_location segment))))])
    else None) polyline).

(** ** DouglasPeucker.cpp *)

Definition douglas_peucker_thresholds : list Z :=
  [512440; 256720; 122560; 56780; 28800; 14400; 7200; 3200; 2400; 1000; 600; 120; 60; 45; 36; 20; 8; 6; 4]%Z.

Section douglas_peucker.
  Context (math : c_math).

(** [CoordinatePairCalculator]: the distance to the nearer one of two
    coordinates in metres. *)
Definition pair_distance (coordinate_a coordinate_b other : FixedPointCoordinate) : option Z :=
  let RAD := S754_finite false 9370165 (-29) in
  let earth_radius := S754_finite false 12745595 (-1) in
  let float_lat1 := fmul (degrees (lat other)) RAD in
  let float_lon1 := fmul (degrees (lon other)) RAD in
  let distance_to c :=
    let c_lat := fmul (degrees (lat c)) RAD in
    let c_lon := fmul (degrees (lon c)) RAD in
    let x_value := to_float (dmul (to_double (fsub c_lon float_lon1)) (m_cos math (to_double (fdiv (fadd float_lat1 c_lat) (float_of_int 2))))) in
    let y_value := fsub c_lat float_lat1 in
    let square v := m_pow math (to_double v) (double_of_int 2) in
    to_float (dmul (dsqrt (dadd (square x_value) (square y_value))) (to_double earth_radius)) in
  truncate (fmin (distance_to coordinate_a) (distance_to coordinate_b)).

(** The ranges between necessary segments; the stack has its top in front. *)
Fixpoint initial_ranges (fuel : nat) (input_geometry : list SegmentInformation) (left_border right_border : N) (recursion_stack : list (N * N))
    : option (list (N * N)) :=
  match fuel with
  | O => None
  | S fuel' =>
      s ← vget input_geometry right_border;
      let '(recursion_stack, left_border) :=
        if necessary s then ((left_border, right_border) :: recursion_stack, right_border) else (recursion_stack, left_border) in
      let right_border := uadd right_border 1 in
      if (right_border <? vsize input_geometry)%N then initial_ranges fuel' input_geometry left_border right_border recursion_stack
      else Some recursion_stack
  end.

(** The farthest point of a range and its distance, if it exceeds the threshold. *)
Definition farthest_entry (input_geometry : list SegmentInformation) (threshold : Z) (first second : N) : option (Z * N) :=
  a ← vget input_geometry first; b ← vget input_geometry second;
  fold_m (fun '(max_int_distance, farthest_entry_index) i =>
    s ← vget input_geometry i;
    distance ← pair_distance (seg_location a) (seg_location b) (seg_location s);
    Some (if (max_int_distance <? distance)%Z && (threshold <? distance)%Z then (distance, i) else (max_int_distance, farthest_entry_index)))
    (0%Z, second) (irange (first + 1) second).

Fixpoint mark_necessary (fuel : nat) (threshold : Z) (input_geometry : list SegmentInformation) (recursion_stack : list (N * N))
    : option (list SegmentInformation) :=
  match fuel with
  | O => None
  | S fuel' =>
      match recursion_stack with
      | [] => Some input_geometry
      | (first, second) :: recursion_stack =>
          '(max_int_distance, farthest) ← farthest_entry input_geometry threshold first second;
          if (threshold <? max_int_distance)%Z then
            input_geometry ← vupd input_geometry farthest set_necessary;
            let recursion_stack := if (1 <? usub farthest first)%N then (first, farthest) :: recursion_stack else recursion_stack in
            let recursion_stack := if (1 <? usub second farthest)%N then (farthest, second) :: recursion_stack else recursion_stack in
            mark_necessary fuel' threshold input_geometry recursion_stack
          else mark_necessary fuel' threshold input_geometry recursion_stack
      end
  end.

Definition DouglasPeucker_Run (fuel : nat) (input_geometry : list SegmentInformation) (zoom_level : N) : option (list SegmentInformation) :=
  if (vsize input_geometry <? 2)%N then Some input_geometry
  else
    input_geometry ← vupd input_geometry 0 set_necessary;
    input_geometry ← vupd input_geometry (vsize input_geometry - 1) set_necessary;
    recursion_stack ← initial_ranges fuel input_geometry 0 1 [];
    threshold ← vget douglas_peucker_thresholds zoom_level;
    mark_necessary fuel threshold input_geometry recursion_stack.
End douglas_peucker.

(** ** Reading a polyline *)

(** Groups of five bits, the lowest group first; all but the last one have the
    sixth bit set. *)
Fixpoint decode_number (s : str) : option (Z * str) :=
  match s with
  | [] => None
  | c :: s =>
      let v := (Z.of_N c - 63)%Z in
      if (v <? 32)%Z then Some (v, s) else '(high, s) ← decode_number s; Some (v - 32 + 32 * high, s)%Z
  end.

Definition bit_to_sign (n : Z) : Z := if Z.odd n then Z.lnot (Z.div2 n) else Z.div2 n.

(** The coordinates of a polyline that goes on from [last]. *)
Fixpoint decode_polyline (fuel : nat) (last : FixedPointCoordinate) (s : str) : option (list FixedPointCoordinate) :=
  match s, fuel with
  | [], _ => Some []
  | _, O => None
  | _, S fuel' =>
      '(dlat, s) ← decode_number s; '(dlon, s) ← decode_number s;
      let c := MkCoordinate (lat last + bit_to_sign dlat) (lon last + bit_to_sign dlon) in
      rest ← decode_polyline fuel' c s; Some (c :: rest)
  end.

(** The characters of a number before they are escaped. *)
Fixpoint digits (fuel : nat) (n : Z) : str :=
  match fuel with
  | O => []
  | S fuel' => if (32 <=? n)%Z then Z.to_N (n mod 32 + 95) :: digits fuel' (n / 32) else [Z.to_N (n + 63)]
  end.

Lemma escape_printable c : (63 <= c <= 126)%N -> escape_char c = if (92 =? c)%N then [c; c] else [c].
Proof. intros Hc. unfold escape_char. rewrite (N.eqb_sym 92 c). destruct (N.eqb_spec c 92) as [->|]; [done|]. repeat (case_ltb; [lia|]). done. Qed.

Lemma append_char_ok output v : (63 <= v <= 126)%Z -> append_char output v = output ++ escape_char (Z.to_N v).
Proof.
  intros Hv. unfold append_char. rewrite escape_printable by lia. destruct (Z.eqb_spec 92 v), (N.eqb_spec 92 (Z.to_N v)); try lia; done.
Qed.

Lemma low_bits n : (0 <= n)%Z -> (Z.lor 32 (Z.land n 31) + 63 = n mod 32 + 95)%Z.
Proof.
  intros Hn. change 31%Z with (Z.ones 5). rewrite Z.land_ones by lia. change (2 ^ 5)%Z with 32%Z. pose proof (Z.mod_pos_bound n 32 ltac:(lia)).
  assert (Z.land 32 (n mod 32) = 0)%Z as Hl.
  { change 32%Z with (2 ^ 5)%Z at 1. apply Z.bits_inj'. intros k Hk. rewrite Z.land_spec, Z.bits_0, Z.pow2_bits_eqb by lia.
    destruct (Z.eqb_spec 5 k) as [<-|]; [|done]. cbn [andb]. change 32%Z with (2 ^ 5)%Z. by rewrite Z.mod_pow2_bits_high by lia. }
  pose proof (Z.add_lor_land 32 (n mod 32)). lia.
Qed.

Lemma encodeNumber_ok fuel n output : (0 < fuel)%nat -> (0 <= n < 32 ^ Z.of_nat fuel)%Z -> encodeNumber fuel n output = Some (output ++ EscapeJSONString (digits fuel n)).
Proof.
  revert n output. induction fuel as [|fuel IH]; intros n output Hf Hn; [lia|]. cbn [encodeNumber digits]. rewrite Nat2Z.inj_succ, Z.pow_succ_r in Hn by lia.
  destruct (Z.leb_spec 32 n).
  - rewrite low_bits by lia. pose proof (Z.mod_pos_bound n 32 ltac:(lia)). rewrite Z.shiftr_div_pow2 by lia. change (2 ^ 5)%Z with 32%Z. rewrite IH.
    + rewrite append_char_ok by lia. rewrite !escape_string_concat. cbn [fmap list_fmap concat]. by rewrite <- app_assoc.
    + destruct fuel; [cbn in Hn; lia|lia].
    + split; [apply Z.div_pos; lia|]. apply Z.div_lt_upper_bound; lia.
  - rewrite append_char_ok by lia. rewrite escape_string_concat. cbn [fmap list_fmap concat]. by rewrite app_nil_r.
Qed.

Lemma decode_digits fuel n rest : (0 < fuel)%nat -> (0 <= n < 32 ^ Z.of_nat fuel)%Z -> decode_number (digits fuel n ++ rest) = Some (n, rest).
Proof.
  revert n. induction fuel as [|fuel IH]; intros n Hf Hn; [lia|]. rewrite Nat2Z.inj_succ, Z.pow_succ_r in Hn by lia. cbn [digits].
  destruct (Z.leb_spec 32 n) as [Hle|Hlt]; cbn [app decode_number]; rewrite Z2N.id by (pose proof (Z.mod_pos_bound n 32 ltac:(lia)); lia).
  - pose proof (Z.mod_pos_bound n 32 ltac:(lia)). destruct (Z.ltb_spec (n mod 32 + 95 - 63) 32); [lia|]. rewrite IH.
    + cbn [mbind option_bind]. do 2 f_equal. pose proof (Z.div_mod n 32 ltac:(lia)). lia.
    + destruct fuel; [cbn in Hn; lia|lia].
    + split; [apply Z.div_pos; lia|]. apply Z.div_lt_upper_bound; lia.
  - destruct (Z.ltb_spec (n + 63 - 63) 32); [|lia]. do 2 f_equal. lia.
Qed.

Lemma sign_to_bit_ok n : (- 1073741824 <= n <= 1073741823)%Z -> exists m, sign_to_bit n = Some m /\ (0 <= m < 32 ^ Z.of_nat 7)%Z /\ bit_to_sign m = n.
Proof.
  intros Hn. unfold sign_to_bit. rewrite i32_Some by (unfold INT_MIN, INT_MAX; lia). cbn [mbind option_bind]. eexists. split; [done|].
  change (32 ^ Z.of_nat 7)%Z with 34359738368%Z. destruct (Z.ltb_spec (n * 2) 0).
  - rewrite Z.lnot_eq_pred_opp. split; [lia|]. unfold bit_to_sign. replace (- (n * 2) - 1)%Z with (1 + 2 * (- n - 1))%Z by lia.
    rewrite Z.odd_add_mul_2, Z.div2_div. replace ((1 + 2 * (- n - 1)) / 2)%Z with (- n - 1)%Z by (apply Z.div_unique with 1%Z; lia). 
    change (Z.odd 1) with true. cbv iota. rewrite Z.lnot_eq_pred_opp. lia.
  - split; [lia|]. unfold bit_to_sign. replace (n * 2)%Z with (0 + 2 * n)%Z by lia. rewrite Z.odd_add_mul_2, Z.div2_div.
    replace ((0 + 2 * n) / 2)%Z with n by (apply Z.div_unique with 0%Z; lia). done.
Qed.

(** ** Writing a polyline *)

Definition kept (polyline : list SegmentInformation) : list FixedPointCoordinate := seg_location <$> filter (fun s => necessary s = true) polyline.

(** Twice the range of the coordinates on earth and more. *)
Definition in_reach (c : FixedPointCoordinate) : Prop := (- 536870912 <= lat c < 536870912 /\ - 536870912 <= lon c < 536870912)%Z.

Fixpoint differences (last : FixedPointCoordinate) (cs : list FixedPointCoordinate) : list Z :=
  match cs with [] => [] | c :: cs => (lat c - lat last)%Z :: (lon c - lon last)%Z :: differences c cs end.

Lemma isub_reach x y : (- 536870912 <= x < 536870912)%Z -> (- 536870912 <= y < 536870912)%Z -> isub x y = Some (x - y)%Z.
Proof. intros. apply i32_Some. unfold INT_MIN, INT_MAX. lia. Qed.

Lemma delta_step_ok polyline last acc : in_reach last -> Forall in_reach (kept polyline) -> exists last',
  fold_m (fun '(deltas, last_coordinate) segment =>
    if necessary segment then
      lat_diff ← isub (lat (seg_location segment)) (lat last_coordinate);
      lon_diff ← isub (lon (seg_location segment)) (lon last_coordinate);
      Some (deltas ++ [lat_diff; lon_diff], seg_location segment)
    else Some (deltas, last_coordinate)) (acc, last) polyline = Some (acc ++ differences last (kept polyline), last').
Proof.
  revert last acc. induction polyline as [|s polyline IH]; intros last acc H0 HF; [exists last; cbn; by rewrite app_nil_r|].
  unfold kept in *. rewrite filter_cons in *. cbn [fold_m]. destruct (necessary s); cbn [mbind option_bind].
  - rewrite decide_True in * by done. rewrite fmap_cons in *. apply Forall_cons_1 in HF as [Hs HF]. rewrite !isub_reach by (destruct Hs, H0; lia). cbn [mbind option_bind].
    destruct (IH (seg_location s) (acc ++ [lat (seg_location s) - lat last; lon (seg_location s) - lon last]%Z)) as [last' Hl]; [done|done|].
    exists last'. rewrite Hl, <- app_assoc. done.
  - rewrite decide_False in * by done. by apply IH.
Qed.

Lemma delta_numbers_ok polyline : Forall in_reach (kept polyline) -> delta_numbers polyline = Some (differences (MkCoordinate 0 0) (kept polyline)).
Proof.
  intros HF. unfold delta_numbers. destruct (delta_step_ok polyline (MkCoordinate 0 0) []) as [last' ->]; [unfold in_reach; cbn; lia|done|done].
Qed.

Lemma escape_app a b : EscapeJSONString (a ++ b) = EscapeJSONString a ++ EscapeJSONString b.
Proof. by rewrite !escape_string_concat, fmap_app, concat_app. Qed.

Definition codable (m : Z) : Prop := (0 <= m < 32 ^ Z.of_nat 7)%Z.

Lemma encode_numbers_ok ms output : Forall codable ms ->
  fold_m (fun output number => encodeNumber 7 number output) output ms = Some (output ++ EscapeJSONString (concat (digits 7 <$> ms))).
Proof.
  intros HF. revert output. induction HF as [|m ms Hm HF IH]; intros output; [cbn; by rewrite app_nil_r|]. cbn [fold_m].
  rewrite encodeNumber_ok by (lia || done). cbn [mbind option_bind]. rewrite IH. cbn [fmap list_fmap concat]. by rewrite escape_app, <- app_assoc.
Qed.

(** The numbers that stand for the differences. *)
Definition coded (ms ds : list Z) : Prop := Forall2 (fun m d => codable m /\ bit_to_sign m = d) ms ds.

Lemma signs_ok ds : Forall (fun d => - 1073741824 <= d <= 1073741823)%Z ds -> exists ms, mapM sign_to_bit ds = Some ms /\ coded ms ds.
Proof.
  induction 1 as [|d ds Hd HF (ms & Hm & Hc)]; [exists []; by repeat constructor|]. destruct (sign_to_bit_ok d Hd) as (m & Hs & Hr & Hb).
  exists (m :: ms). cbn [mapM]. rewrite Hs. cbn [mbind option_bind]. rewrite Hm. split; [done|]. by constructor.
Qed.

Lemma differences_small cs last : in_reach last -> Forall in_reach cs -> Forall (fun d => - 1073741824 <= d <= 1073741823)%Z (differences last cs).
Proof.
  intros Hl HF. revert last Hl. induction HF as [|c cs Hc HF IH]; intros last Hl; [constructor|]. cbn [differences]. destruct Hc, Hl.
  constructor; [lia|]. constructor; [lia|]. by apply IH.
Qed.

Lemma decode_ok cs last ms fuel : (length cs <= fuel)%nat -> coded ms (differences last cs) -> decode_polyline fuel last (concat (digits 7 <$> ms)) = Some cs.
Proof.
  revert last ms fuel. induction cs as [|c cs IH]; intros last ms fuel Hf HF; cbn [differences] in HF.
  - apply Forall2_nil_inv_r in HF as ->. by destruct fuel.
  - apply Forall2_cons_inv_r in HF as (m1 & ms1 & [Hm1 H1] & HF & ->). apply Forall2_cons_inv_r in HF as (m2 & ms2 & [Hm2 H2] & HF & ->).
    destruct fuel as [|fuel]; [cbn in Hf; lia|]. cbn [fmap list_fmap concat].
    assert (exists x rest, digits 7 m1 ++ digits 7 m2 ++ concat (digits 7 <$> ms2) = x :: rest) as (x & rest & Hx) by (cbn [digits]; destruct (32 <=? m1)%Z; by eexists _, _).
    change (list_fmap _ _ (digits 7) ms2) with (digits 7 <$> ms2). rewrite Hx. cbn [decode_polyline]. rewrite <- Hx. rewrite decode_digits by (lia || done). cbn [mbind option_bind].
    rewrite decode_digits by (lia || done). cbn [mbind option_bind]. rewrite H1, H2.
    replace (MkCoordinate _ _) with c by (destruct c; cbn; f_equal; lia). rewrite IH; [done|cbn in Hf; lia|done].
Qed.

Lemma printEncodedString_ok polyline : Forall in_reach (kept polyline) -> exists ms, coded ms (differences (MkCoordinate 0 0) (kept polyline)) /\
  printEncodedString polyline = Some (JString (EscapeJSONString (concat (digits 7 <$> ms)))).
Proof.
  intros HF. destruct (signs_ok (differences (MkCoordinate 0 0) (kept polyline))) as (ms & Hm & Hc); [apply differences_small; [unfold in_reach; cbn; lia|done]|].
  exists ms. split; [done|]. unfold printEncodedString. case_bool_decide as He.
  - subst polyline. cbn in Hm. by injection Hm as <-.
  - rewrite delta_numbers_ok by done. cbn [mbind option_bind]. unfold encodeVectorSignedNumber. rewrite Hm. cbn [mbind option_bind].
    rewrite encode_numbers_ok; [done|]. apply Forall_lookup. intros i m Hi. destruct (Forall2_lookup_l _ _ _ _ _ Hc Hi) as (d & _ & H & _). done.
Qed.

(** ** Simplification *)

Definition flag (g : list SegmentInformation) (i : N) : Prop := exists s, vget g i = Some s /\ necessary s = true.

(** Two necessary points without one in between. *)
Definition adjacent (g : list SegmentInformation) (l r : N) : Prop := (l < r)%N /\ flag g l /\ flag g r /\ forall i, (l < i < r)%N -> ~ flag g i.

(** The result differs in flags that were set. *)
Definition marked (g g' : list SegmentInformation) : Prop := Forall2 (fun s s' => s' = s \/ s' = set_necessary s) g g'.

Section simplification.
  Context (math : c_math) (threshold : Z) (points : list FixedPointCoordinate).
  Hypothesis threshold_pos : (0 <= threshold)%Z.
  Hypothesis points_small : (vsize points < 4294967296)%N.
  Hypothesis distance_known : forall a b c, a ∈ points -> b ∈ points -> c ∈ points -> is_Some (pair_distance math a b c).
#[local] Set Default Proof Using "All".

Implicit Types (g : list SegmentInformation).

(** The distance of a point from the nearer one of two others. *)
Definition distance_in g (l r i : N) (d : Z) : Prop :=
  exists a b s, vget g l = Some a /\ vget g r = Some b /\ vget g i = Some s /\ pair_distance math (seg_location a) (seg_location b) (seg_location s) = Some d.

(** No point between two others is far from them. *)
Definition close g (l r : N) : Prop := forall i, (l < i < r)%N -> exists d, distance_in g l r i d /\ (d <= threshold)%Z.

Definition located_at g : Prop := seg_location <$> g = points.

Lemma vsize_located g : located_at g -> vsize g = vsize points.
Proof. intros <-. unfold vsize. by rewrite length_fmap. Qed.

Lemma location_in g i s : located_at g -> vget g i = Some s -> seg_location s ∈ points.
Proof. intros <- Hs. rewrite vget_lookup in Hs. apply list_elem_of_fmap. exists s. split; [done|]. by eapply list_elem_of_lookup_2. Qed.

Lemma distance_total g l r i : located_at g -> (l < vsize g)%N -> (r < vsize g)%N -> (i < vsize g)%N -> exists d, distance_in g l r i d.
Proof.
  intros Hg [a Ha]%vget_lt [b Hb]%vget_lt [s Hs]%vget_lt. destruct (distance_known (seg_location a) (seg_location b) (seg_location s)) as [d Hd];
    [by eapply location_in..|]. by exists d, a, b, s.
Qed.

Lemma distance_agree g l r i d d' : distance_in g l r i d -> distance_in g l r i d' -> d = d'.
Proof. intros (a & b & s & ? & ? & ? & ?) (a' & b' & s' & ? & ? & ? & ?). congruence. Qed.

(** The sweep over a range finds a farthest point. *)
Lemma farthest_entry_ok g l r : located_at g -> (l < r < vsize g)%N -> exists m f, farthest_entry math g threshold l r = Some (m, f) /\
  ((m <= threshold)%Z /\ close g l r \/ (threshold < m)%Z /\ (l < f < r)%N /\ distance_in g l r f m).
Proof.
  intros Hg Hlr. pose proof (vsize_located g Hg). unfold farthest_entry. destruct (vget_lt g l) as [a Ha]; [lia|]. destruct (vget_lt g r) as [b Hb]; [lia|].
  rewrite Ha, Hb. cbn [mbind option_bind].
  match goal with |- context [fold_m ?step _ _] => destruct (fold_m_irange step (fun k st =>
    ((st.1 <= threshold)%Z /\ forall i, (l < i < k)%N -> exists d, distance_in g l r i d /\ (d <= threshold)%Z) \/
    ((threshold < st.1)%Z /\ (l < st.2 < r)%N /\ distance_in g l r st.2 st.1)) (l + 1)%N r (0%Z, r)) as ([m f] & Hf & HP) end; [lia|lia| | |].
  - left. split; [cbn; lia|]. intros i Hi. lia.
  - intros k [m f] Hk HP. cbn [fst snd] in HP. destruct (distance_total g l r k Hg) as (d & Hd); [lia..|]. pose proof Hd as (a' & b' & s & Ha' & Hb' & Hs & Hpd).
    rewrite Hs. cbn [mbind option_bind]. assert (a' = a) as -> by congruence. assert (b' = b) as -> by congruence. rewrite Hpd. cbn [mbind option_bind].
    eexists. split; [done|]. destruct (Z.ltb_spec m d), (Z.ltb_spec threshold d); cbn [andb fst snd].
    + right. split; [lia|]. split; [lia|done].
    + destruct HP as [[? HP]|HP]; [left|by right]. split; [done|]. intros i Hi. destruct (decide (i = k)) as [->|]; [by exists d|apply HP; lia].
    + destruct HP as [[? HP]|HP]; [lia|by right].
    + destruct HP as [[? HP]|HP]; [left|by right]. split; [done|]. intros i Hi. destruct (decide (i = k)) as [->|]; [by exists d|apply HP; lia].
  - exists m, f. split; [exact Hf|]. destruct HP as [[H1 H2]|H1]; [left|by right]. split; [done|]. exact H2.
Qed.

(** ** Setting a flag *)

Abbreviation mark g f := (alter set_necessary (N.to_nat f) g).

Lemma vget_mark g f i : vget (mark g f) i = if decide (f = i) then set_necessary <$> vget g i else vget g i.
Proof. apply vget_alter. Qed.

Lemma located_mark g f : located_at g -> located_at (mark g f).
Proof.
  intros Hg. unfold located_at. rewrite <- Hg. apply list_eq. intros i. rewrite !list_lookup_fmap. destruct (decide (N.to_nat f = i)) as [<-|Hne].
  - rewrite list_lookup_alter_eq. by destruct (g !! N.to_nat f).
  - by rewrite list_lookup_alter_ne.
Qed.

Lemma flag_mark g f i : (f < vsize g)%N -> flag (mark g f) i <-> i = f \/ flag g i.
Proof.
  intros Hf. unfold flag. rewrite vget_mark. destruct (decide (f = i)) as [->|Hne].
  - destruct (vget_lt g i Hf) as [s ->]. split; [by left|]. intros _. by exists (set_necessary s).
  - split; [by right|]. by intros [->|?].
Qed.

Lemma distance_moved g g' l r i d : located_at g -> located_at g' -> distance_in g l r i d -> distance_in g' l r i d.
Proof.
  intros Hg Hg' (a & b & s & Ha & Hb & Hs & Hd).
  assert (forall j x, vget g j = Some x -> exists y, vget g' j = Some y /\ seg_location y = seg_location x) as Hmove.
  { intros j x Hx. assert (seg_location <$> vget g' j = seg_location <$> vget g j) as H.
    { rewrite !vget_lookup, <- !list_lookup_fmap. by rewrite Hg, Hg'. }
    rewrite Hx in H. destruct (vget g' j) as [y|]; [|done]. exists y. split; [done|]. cbn in H. congruence. }
  apply Hmove in Ha as (a' & Ha & Ea). apply Hmove in Hb as (b' & Hb & Eb). apply Hmove in Hs as (s' & Hs & Es).
  exists a', b', s'. by rewrite Ea, Eb, Es.
Qed.

Lemma close_moved g g' l r : located_at g -> located_at g' -> close g l r -> close g' l r.
Proof. intros Hg Hg' Hc i Hi. destruct (Hc i Hi) as (d & Hd & Hle). exists d. split; [by apply (distance_moved g g')|done]. Qed.

Lemma marked_mark g0 g f : marked g0 g -> marked g0 (mark g f).
Proof.
  intros H. unfold marked. apply Forall2_same_length_lookup_2; [rewrite length_alter; by eapply Forall2_length|].
  intros i x y Hx Hy. destruct (decide (N.to_nat f = i)) as [<-|Hne].
  - rewrite list_lookup_alter_eq in Hy. destruct (g !! N.to_nat f) as [z|] eqn:Hz; [|done]. injection Hy as <-.
    destruct (Forall2_lookup_lr _ _ _ _ _ _ H Hx Hz) as [->| ->]; by right.
  - rewrite list_lookup_alter_ne in Hy by done. exact (Forall2_lookup_lr _ _ _ _ _ _ H Hx Hy).
Qed.

(** The points that may still be marked. *)
Definition open_points g : nat := length (filter (fun s => necessary s = false) g).

Lemma open_mark g f : (f < vsize g)%N -> ~ flag g f -> S (open_points (mark g f)) = open_points g.
Proof.
  intros [s Hs]%vget_lt Hn. rewrite vget_lookup in Hs. assert (necessary s = false) as Hf.
  { destruct (necessary s) eqn:E; [|done]. exfalso. apply Hn. exists s. by rewrite vget_lookup. }
  pose proof (take_drop_middle g (N.to_nat f) s Hs) as Hg. pose proof (lookup_lt_Some _ _ _ Hs). unfold open_points.
  assert (mark g f = take (N.to_nat f) g ++ set_necessary s :: drop (S (N.to_nat f)) g) as ->.
  { rewrite <- Hg at 1. rewrite alter_app_r_alt by (rewrite length_take; lia). rewrite length_take, Nat.min_l, Nat.sub_diag by lia. done. }
  rewrite <- Hg at 3. rewrite !filter_app, !filter_cons, !length_app. rewrite decide_False by done. rewrite decide_True by done. cbn [length]. lia.
Qed.

(** ** The loop *)

Record simplifying g0 g (stack : list (N * N)) : Prop := {
  sp_located : located_at g;
  sp_marked : marked g0 g;
  sp_nodup : NoDup stack;
  sp_adjacent : forall l r, (l, r) ∈ stack -> adjacent g l r;
  sp_close : forall l r, adjacent g l r -> (l, r) ∈ stack \/ close g l r;
  sp_far : forall i, flag g i -> flag g0 i \/ exists l r d, (l < i < r)%N /\ flag g l /\ flag g r /\ distance_in g l r i d /\ (threshold < d)%Z }.

Lemma adjacent_lt g l r : adjacent g l r -> (l < r < vsize g)%N.
Proof. intros (? & _ & (s & Hs & _) & _). apply vget_Some_lt in Hs. lia. Qed.

(** The pairs after a point between two others was marked. *)
Lemma adjacent_mark g l r f a b : adjacent g l r -> (l < f < r)%N -> adjacent (mark g f) a b ->
  (a, b) = (l, f) \/ (a, b) = (f, r) \/ adjacent g a b /\ (a, b) <> (l, r).
Proof.
  intros Hlr Hf (Hab & Ha & Hb & Hbetween). pose proof (adjacent_lt _ _ _ Hlr). destruct Hlr as (_ & Hl & Hr & Hnone).
  rewrite flag_mark in Ha, Hb by lia. assert (forall i, (a < i < b)%N -> i <> f /\ ~ flag g i) as Hbt.
  { intros i Hi. specialize (Hbetween i Hi). rewrite flag_mark in Hbetween by lia. tauto. }
  assert (forall i, flag g i -> (i <= l \/ r <= i)%N) as Hout.
  { intros i Hi. destruct (decide (l < i < r)%N); [|lia]. exfalso. by eapply Hnone. }
  destruct Ha as [->|Ha].
  - right. left. destruct Hb as [->|Hb]; [lia|]. f_equal. apply Hout in Hb as ?. destruct (decide (b = r)) as [|Hne]; [done|].
    exfalso. apply (Hbt r); [lia|done].
  - destruct Hb as [->|Hb].
    + left. f_equal. apply Hout in Ha as ?. destruct (decide (a = l)) as [|Hne]; [done|]. exfalso. apply (Hbt l); [lia|done].
    + right. right. split; [split; [done|]; split; [done|]; split; [done|]; intros i Hi; by apply Hbt|]. intros [= -> ->]. by destruct (Hbt f Hf).
Qed.

Lemma adjacent_kept g l r f a b : adjacent g l r -> (l < f < r)%N -> adjacent g a b -> (a, b) <> (l, r) -> adjacent (mark g f) a b.
Proof.
  intros Hlr Hf (Hab & Ha & Hb & Hbetween) Hne. pose proof (adjacent_lt _ _ _ Hlr). destruct Hlr as (_ & Hl & Hr & Hnone).
  split; [done|]. rewrite !flag_mark by lia. split; [by right|]. split; [by right|]. intros i Hi. rewrite flag_mark by lia. intros [->|Hfi]; [|by eapply Hbetween].
  assert (a <= l)%N by (destruct (decide (l < a)%N); [exfalso; apply (Hnone a); [lia|done]|lia]).
  assert (r <= b)%N by (destruct (decide (b < r)%N); [exfalso; apply (Hnone b); [lia|done]|lia]).
  destruct (decide (a = l)) as [->|]; [|by apply (Hbetween l); [lia|]]. destruct (decide (b = r)) as [->|]; [done|]. by apply (Hbetween r); [lia|].
Qed.

Definition push_range (l r : N) (stack : list (N * N)) : list (N * N) := if (1 <? r - l)%N then (l, r) :: stack else stack.

Lemma elem_of_push l r stack x : x ∈ push_range l r stack <-> x = (l, r) /\ (1 < r - l)%N \/ x ∈ stack.
Proof. unfold push_range. case_ltb; rewrite ?elem_of_cons; intuition lia. Qed.

Lemma split_range g0 g l r stack f m : simplifying g0 g ((l, r) :: stack) -> (l < f < r)%N -> distance_in g l r f m -> (threshold < m)%Z ->
  simplifying g0 (mark g f) (push_range f r (push_range l f stack)).
Proof.
  intros [H1 H2 [Hnin H3]%NoDup_cons H4 H5 H6] Hf Hd Hm. assert (adjacent g l r) as Hlr by (apply H4; set_solver). pose proof (adjacent_lt _ _ _ Hlr) as Hlt.
  assert (~ flag g f) as Hnf by (by apply Hlr). pose proof (located_mark g f H1) as H1'.
  assert (forall a b, (a, b) ∈ stack -> adjacent g a b /\ (a, b) <> (l, r)) as Hst.
  { intros a b Hab. split; [apply H4; set_solver|]. intros [= -> ->]. done. }
  assert (forall a b, (a, b) ∈ stack -> a <> f /\ b <> f) as Hnot.
  { intros a b Hab. destruct (Hst a b Hab) as [(_ & Ha & Hb & _) _]. split; intros ->; done. }
  split.
  - done.
  - by apply marked_mark.
  - unfold push_range. repeat case_ltb; try done; repeat (apply NoDup_cons; split); try done; rewrite ?elem_of_cons; intros Hin; naive_solver lia.
  - intros a b. rewrite !elem_of_push. intros [[[= -> ->] _]|[[[= -> ->] _]|Hab]].
    + destruct Hlr as (? & ? & ? & Hnone). split; [lia|]. rewrite !flag_mark by lia. split; [by left|]. split; [by right|]. intros i Hi. rewrite flag_mark by lia.
      intros [->|Hi']; [lia|]. apply (Hnone i); [lia|done].
    + destruct Hlr as (? & ? & ? & Hnone). split; [lia|]. rewrite !flag_mark by lia. split; [by right|]. split; [by left|]. intros i Hi. rewrite flag_mark by lia.
      intros [->|Hi']; [lia|]. apply (Hnone i); [lia|done].
    + destruct (Hst a b Hab). by apply (adjacent_kept g l r).
  - intros a b Hab. rewrite !elem_of_push. destruct (adjacent_mark g l r f a b Hlr Hf Hab) as [[= -> ->]|[[= -> ->]|[Hab' Hne]]].
    + destruct (decide (1 < f - l)%N); [by auto|]. right. intros i Hi. lia.
    + destruct (decide (1 < r - f)%N); [by auto|]. right. intros i Hi. lia.
    + destruct (H5 a b Hab') as [Hin|Hc]; [|right; by apply (close_moved g)]. left. right. right. set_solver.
  - intros i. rewrite flag_mark by lia. intros [->|Hi].
    + right. exists l, r, m. rewrite !flag_mark by lia. destruct Hlr as (_ & ? & ? & _). split; [done|]. split; [by right|]. split; [by right|].
      split; [by apply (distance_moved g)|done].
    + destruct (H6 i Hi) as [?|(a & b & d & Hab & Ha & Hb & Hdd & Hlt')]; [by left|]. right. exists a, b, d. rewrite !flag_mark by lia. split; [done|]. split; [by right|].
      split; [by right|]. split; [by apply (distance_moved g)|done].
Qed.

Lemma drop_range g0 g l r stack : simplifying g0 g ((l, r) :: stack) -> close g l r -> simplifying g0 g stack.
Proof.
  intros [H1 H2 [Hnin H3]%NoDup_cons H4 H5 H6] Hc. split; try done.
  - intros a b Hab. apply H4. set_solver.
  - intros a b Hab. destruct (H5 a b Hab) as [[[= -> ->]|?]%elem_of_cons|?]; auto.
Qed.

Lemma mark_necessary_ok fuel g0 g stack : simplifying g0 g stack -> (2 * open_points g + length stack < fuel)%nat -> exists g',
  mark_necessary math fuel threshold g stack = Some g' /\ simplifying g0 g' [].
Proof.
  revert g stack. induction fuel as [|fuel IH]; intros g stack Hs Hf; [lia|]. cbn [mark_necessary]. destruct stack as [|[l r] stack]; [by exists g|].
  assert (adjacent g l r) as Hlr by (apply (sp_adjacent _ _ _ Hs); set_solver). pose proof (adjacent_lt _ _ _ Hlr) as Hlt.
  pose proof (sp_located _ _ _ Hs) as Hg. pose proof (vsize_located g Hg) as Hsz.
  destruct (farthest_entry_ok g l r Hg Hlt) as (m & f & -> & [[Hm Hc]|(Hm & Hfr & Hd)]); cbn [mbind option_bind].
  - destruct (Z.ltb_spec threshold m); [lia|]. apply IH; [by eapply drop_range|cbn in Hf; lia].
  - destruct (Z.ltb_spec threshold m); [|lia]. rewrite vupd_lt by lia. cbn [mbind option_bind]. rewrite !usub_small by lia.
    change (if (1 <? f - l)%N then (l, f) :: stack else stack) with (push_range l f stack). change (if (1 <? r - f)%N then (f, r) :: push_range l f stack else push_range l f stack) with (push_range f r (push_range l f stack)).
    apply IH; [by eapply split_range|]. assert (~ flag g f) as Hnf by (by apply Hlr). pose proof (open_mark g f ltac:(lia) Hnf).
    assert (length (push_range f r (push_range l f stack)) <= 2 + length stack)%nat by (unfold push_range; repeat case_ltb; cbn; lia). cbn in Hf. lia.
Qed.
End simplification.

Lemma initial_ranges_ok fuel g left right stack : (vsize g < 4294967296)%N -> (left < right < vsize g)%N -> (N.to_nat (vsize g - right) <= fuel)%nat ->
  flag g left -> (forall i, (left < i < right)%N -> ~ flag g i) -> flag g (vsize g - 1) -> NoDup stack ->
  (forall a b, (a, b) ∈ stack <-> adjacent g a b /\ (b <= left)%N) -> exists stack',
  initial_ranges fuel g left right stack = Some stack' /\ NoDup stack' /\ (forall a b, (a, b) ∈ stack' <-> adjacent g a b) /\
  (length stack' <= length stack + N.to_nat (vsize g - right))%nat.
Proof.
  intros Hsz. revert left right stack. induction fuel as [|fuel IH]; intros left right stack Hlr Hf Hl Hnone Hlast Hnd Hst; [lia|].
  cbn [initial_ranges]. destruct (vget_lt g right) as [s Hs]; [lia|]. rewrite Hs. cbn [mbind option_bind]. rewrite uadd_small by lia.
  set (stack1 := if necessary s then (left, right) :: stack else stack). set (left1 := if necessary s then right else left).
  assert ((if necessary s then ((left, right) :: stack, right) else (stack, left)) = (stack1, left1)) as -> by (unfold stack1, left1; by destruct (necessary s)).
  assert (length stack1 <= S (length stack))%nat by (unfold stack1; destruct (necessary s); cbn; lia).
  assert (flag g left1) as Hl1. { unfold left1. destruct (necessary s) eqn:E; [|done]. by exists s. }
  assert (forall i, (left1 < i < right + 1)%N -> ~ flag g i) as Hnone1.
  { unfold left1. intros i Hi. destruct (necessary s) eqn:E; [lia|]. destruct (decide (i = right)) as [->|]; [|apply Hnone; lia].
    intros (s' & Hs' & Hn). congruence. }
  assert (NoDup stack1) as Hnd1.
  { unfold stack1. destruct (necessary s); [|done]. constructor; [|done]. rewrite Hst. intros [_ ?]. lia. }
  assert (forall a b, (a, b) ∈ stack1 <-> adjacent g a b /\ (b <= left1)%N) as Hst1.
  { unfold stack1, left1. destruct (necessary s) eqn:E; [|exact Hst]. intros a b. rewrite elem_of_cons, Hst. assert (adjacent g left right) as Hadj.
    { split; [lia|]. split; [done|]. split; [by exists s|done]. }
    split; [intros [[= -> ->]|[? ?]]; split; [done|lia|done|lia]|]. intros [Hab Hb]. destruct (decide (b <= left)%N); [by right|]. left.
    assert (b = right) as ->. { destruct (decide (b = right)); [done|]. exfalso. apply (Hnone b); [lia|]. apply Hab. }
    f_equal. destruct Hab as (? & Ha & _ & Hno). destruct (decide (a < left)%N); [exfalso; by apply (Hno left); [lia|]|].
    destruct (decide (a = left)); [done|]. exfalso. by apply (Hnone a); [lia|]. }
  case_ltb.
  - destruct (IH left1 (right + 1)%N stack1) as (stack' & Hr & ? & ? & ?); try done; [unfold left1; destruct (necessary s); lia|lia|].
    exists stack'. split; [done|]. split; [done|]. split; [done|lia].
  - exists stack1. split; [done|]. split; [done|]. split; [|lia]. intros a b. rewrite Hst1. split; [by intros [? _]|]. intros Hab. split; [done|].
    pose proof Hab as (_ & _ & (x & Hx & _) & _). apply vget_Some_lt in Hx. assert (vsize g - 1 = right)%N as Hr by lia. rewrite Hr in Hlast.
    unfold left1. destruct (necessary s) eqn:E; [lia|]. exfalso. apply (Hnone1 right); [unfold left1; rewrite ?E; lia|done].
Qed.

Lemma marked_trans g1 g2 g3 : marked g1 g2 -> marked g2 g3 -> marked g1 g3.
Proof.
  intros H1 H2. apply Forall2_same_length_lookup_2; [etransitivity; eapply Forall2_length; eassumption|]. intros i x z Hx Hz.
  destruct (Forall2_lookup_l _ _ _ _ _ H1 Hx) as (y & Hy & [->| ->]); destruct (Forall2_lookup_lr _ _ _ _ _ _ H2 Hy Hz) as [->| ->]; auto.
Qed.

Lemma flag_marked g g' i : marked g g' -> flag g i -> flag g' i.
Proof.
  intros Hm (s & Hs & Hn). rewrite vget_lookup in Hs. destruct (Forall2_lookup_l _ _ _ _ _ Hm Hs) as (s' & Hs' & H). exists s'.
  rewrite vget_lookup. split; [done|]. by destruct H as [->| ->].
Qed.

(** ** Properties *)

(** C30: An encoded polyline can be read back. The text has a backslash only in
    front of another character, so it can stand between the quotes of a JSON
    string, and reading the string as a polyline gives exactly the locations of
    the necessary segments, in order. *)
Theorem polyline_roundtrip polyline : Forall in_reach (kept polyline) -> exists text,
  printEncodedString polyline = Some (JString text) /\ clean text /\
  decode_polyline (length polyline) (MkCoordinate 0 0) (unescape text) = Some (kept polyline).
Proof.
  intros HF. destruct (printEncodedString_ok polyline HF) as (ms & Hc & Hp). eexists. split; [exact Hp|].
  destruct (json_escape_roundtrip (concat (digits 7 <$> ms))) as [H1 H2]. split; [done|]. rewrite H2. apply decode_ok; [|done].
  unfold kept. rewrite length_fmap. apply length_filter.
Qed.

Lemma polyline_roundtrip_witness :
  let segment la lo keep := SegmentInformation_make (MkCoordinate la lo) 0 0 fzero NoTurn keep false 1 in
  let polyline := [segment 52500000 13400000 true; segment 52500100 13400200 false; segment 52499000 13401024 true]%Z in
  exists text, printEncodedString polyline = Some (JString text) /\ clean text /\
    decode_polyline 3 (MkCoordinate 0 0) (unescape text) = Some [MkCoordinate 52500000 13400000; MkCoordinate 52499000 13401024].
Proof.
  cbv zeta. apply (polyline_roundtrip [SegmentInformation_make (MkCoordinate 52500000 13400000) 0 0 fzero NoTurn true false 1;
    SegmentInformation_make (MkCoordinate 52500100 13400200) 0 0 fzero NoTurn false false 1;
    SegmentInformation_make (MkCoordinate 52499000 13401024) 0 0 fzero NoTurn true false 1]).
  repeat constructor; cbn; lia.
Defined.

(** C31: The simplification of a geometry ends and is right. The points that are
    kept include both ends and all points that were necessary before; a point
    between two neighbouring kept points is at most the threshold of the zoom
    level away from the nearer one of them; and a point is only added because it
    is farther away than that from two kept points around it. Nothing but flags
    changes. *)
Theorem douglas_peucker_simplifies math g zoom_level fuel : (2 <= vsize g < 4294967296)%N -> (zoom_level < 19)%N -> (3 * length g < fuel)%nat ->
  (forall a b c, a ∈ seg_location <$> g -> b ∈ seg_location <$> g -> c ∈ seg_location <$> g -> is_Some (pair_distance math a b c)) ->
  exists threshold g', vget douglas_peucker_thresholds zoom_level = Some threshold /\ DouglasPeucker_Run math fuel g zoom_level = Some g' /\ marked g g' /\
    flag g' 0 /\ flag g' (vsize g - 1) /\ (forall l r, adjacent g' l r -> close math threshold g' l r) /\
    forall i, flag g' i -> i = 0%N \/ i = (vsize g - 1)%N \/ flag g i \/
      exists l r d, (l < i < r)%N /\ flag g' l /\ flag g' r /\ distance_in math g' l r i d /\ (threshold < d)%Z.
Proof.
  intros Hsz Hz Hf Hd. destruct (vget_lt douglas_peucker_thresholds zoom_level) as [threshold Ht]; [done|].
  assert (0 <= threshold)%Z as Hpos.
  { rewrite vget_lookup in Ht. apply list_elem_of_lookup_2 in Ht. revert threshold Ht. apply (proj1 (Forall_forall _ _)). unfold douglas_peucker_thresholds. repeat (constructor; [lia|]). constructor. }
  set (points := seg_location <$> g). assert (vsize points < 4294967296)%N as Hps by (unfold points, vsize in *; rewrite length_fmap; lia).
  set (g1 := alter set_necessary (N.to_nat 0) g). set (g0 := alter set_necessary (N.to_nat (vsize g - 1)) g1).
  assert (vsize g1 = vsize g) as Hs1 by apply vsize_alter. assert (vsize g0 = vsize g) as Hs0 by (unfold g0; by rewrite vsize_alter).
  assert (located_at points g0) as Hloc by (by repeat apply (located_mark math threshold points Hpos Hps Hd)).
  assert (marked g g0) as Hmark.
  { repeat apply (marked_mark math threshold points Hpos Hps Hd). apply Forall2_same_length_lookup_2; [done|]. intros i x y Hx Hy. left. congruence. }
  assert (forall i, flag g0 i <-> i = (vsize g - 1)%N \/ i = 0%N \/ flag g i) as Hflag.
  { intros i. unfold g0. rewrite (flag_mark math threshold points Hpos Hps Hd) by lia. unfold g1. by rewrite (flag_mark math threshold points Hpos Hps Hd) by lia. }
  destruct (initial_ranges_ok fuel g0 0 1 []) as (stack & Hst & Hnd & Hin & Hlen); [lia|lia|unfold vsize in *; lia|apply Hflag; auto|lia| |constructor| |].
  { apply Hflag. left. lia. }
  { intros a b. rewrite elem_of_nil. split; [done|]. intros [(? & _) ?]. lia. }
  destruct (mark_necessary_ok math threshold points Hpos Hps Hd fuel g0 g0 stack) as (g' & Hrun & [S1 S2 _ _ S5 S6]).
  { split; [done| |done|intros l r; by apply Hin|intros l r Hlr; left; by apply Hin|by left]. apply Forall2_same_length_lookup_2; [done|]. intros i x y Hx Hy. left. congruence. }
  { pose proof (length_filter (fun s => necessary s = false) g0). unfold open_points, vsize in *. cbn in Hlen. lia. }
  exists threshold, g'. split; [done|]. split.
  { unfold DouglasPeucker_Run. case_ltb; [lia|]. rewrite vupd_lt by lia. cbn [mbind option_bind]. fold g1. rewrite Hs1, vupd_lt by lia. cbn [mbind option_bind].
    fold g0. rewrite Hst. cbn [mbind option_bind]. rewrite Ht. exact Hrun. }
  split; [by eapply marked_trans|]. split; [eapply flag_marked; [exact S2|]; apply Hflag; auto|]. split; [eapply flag_marked; [exact S2|]; apply Hflag; auto|].
  split; [intros l r Hlr; destruct (S5 l r Hlr) as [H|H]; [by apply elem_of_nil in H|done]|].
  intros i Hi. destruct (S6 i Hi) as [H|H]; [|auto]. apply Hflag in H. tauto.
Qed.

Lemma douglas_peucker_simplifies_witness :
  let segment la lo := SegmentInformation_make (MkCoordinate la lo) 0 0 fzero NoTurn false false 1 in
  let g := [segment 52500000 13400000; segment 52500010 13400010; segment 52520000 13401000; segment 52500000 13402000]%Z in
  exists g', DouglasPeucker_Run sample_math 13 g 18 = Some g' /\ marked g g' /\ flag g' 0 /\ flag g' 3 /\ flag g' 2 /\ ~ flag g' 1.
Proof.
  cbv zeta. destruct (douglas_peucker_simplifies sample_math [SegmentInformation_make (MkCoordinate 52500000 13400000) 0 0 fzero NoTurn false false 1;
    SegmentInformation_make (MkCoordinate 52500010 13400010) 0 0 fzero NoTurn false false 1; SegmentInformation_make (MkCoordinate 52520000 13401000) 0 0 fzero NoTurn false false 1;
    SegmentInformation_make (MkCoordinate 52500000 13402000) 0 0 fzero NoTurn false false 1] 18 13) as (threshold & g' & _ & H1 & H2 & H3 & H4 & _).
  - vm_compute. done.
  - lia.
  - vm_compute. lia.
  - intros a b c Ha Hb Hc. repeat (apply elem_of_cons in Ha as [->|Ha] || apply elem_of_nil in Ha as []);
      repeat (apply elem_of_cons in Hb as [->|Hb] || apply elem_of_nil in Hb as []); repeat (apply elem_of_cons in Hc as [->|Hc] || apply elem_of_nil in Hc as []);
      vm_compute; by eexists.
  - exists g'. split; [exact H1|]. split; [exact H2|]. split; [exact H3|]. split; [exact H4|]. revert H1. vm_compute. intros [= <-].
    split; [by eexists|]. intros (s & [= <-] & Hs). discriminate Hs.
Defined.
