(* ===== verification/Descriptors.v ===== *)
(** * Descriptors/: the description of a route

    DescriptionFactory.cpp, JSONDescriptor.h, ExtractRouteNames.h and the
    descriptors for GPX, KML and plain text: the text of the reply for a route.
    The number of restricted areas, which is never changed, and the start and
    the name of a roundabout, which are never read, are left out. *)

From Stdlib Require Import Strings.String Floats.SpecFloat.
From S2P Require Import Prelude Types Float32 Text Edges Json RouteParameters Server Geometry Trigonometry EdgeExpansion Routing Unpacking ShortestPath RouteGeometry.

(** ** DescriptionFactory *)

Record RouteSummary := MkRouteSummary { rs_distance : N; rs_duration : Z; source_name_id : N; target_name_id : N }.

Record DescriptionFactory := MkDescriptionFactory {
  df_start_phantom : PhantomNode; df_target_phantom : PhantomNode; via_indices : list N; summary : RouteSummary; entireLength : double;
  path_description : list SegmentInformation }.

Definition DescriptionFactory_make : DescriptionFactory :=
  MkDescriptionFactory PhantomNode_default PhantomNode_default [0%N] (MkRouteSummary 0 0 0 0) dzero [].

Implicit Types (f : DescriptionFactory) (s : SegmentInformation).

Definition with_path f (path : list SegmentInformation) : DescriptionFactory :=
  MkDescriptionFactory (df_start_phantom f) (df_target_phantom f) (via_indices f) (summary f) (entireLength f) path.

Definition with_phantoms f (start target : PhantomNode) : DescriptionFactory :=
  MkDescriptionFactory start target (via_indices f) (summary f) (entireLength f) (path_description f).

Definition seg_set_name s (name_id : N) : SegmentInformation :=
  MkSegment (seg_location s) name_id (seg_duration s) (seg_length s) (seg_bearing s) (seg_turn_instruction s) (seg_travel_mode s) (necessary s) (is_via_location s).

Definition seg_set_mode s (mode : N) : SegmentInformation :=
  MkSegment (seg_location s) (seg_name_id s) (seg_duration s) (seg_length s) (seg_bearing s) (seg_turn_instruction s) mode (necessary s) (is_via_location s).

Definition seg_set_length s (length : float) : SegmentInformation :=
  MkSegment (seg_location s) (seg_name_id s) (seg_duration s) length (seg_bearing s) (seg_turn_instruction s) (seg_travel_mode s) (necessary s) (is_via_location s).

Definition seg_set_duration s (duration : Z) : SegmentInformation :=
  MkSegment (seg_location s) (seg_name_id s) duration (seg_length s) (seg_bearing s) (seg_turn_instruction s) (seg_travel_mode s) (necessary s) (is_via_location s).

(** The turn of a segment that becomes necessary. *)
Definition seg_set_turn s (turn : N) : SegmentInformation :=
  MkSegment (seg_location s) (seg_name_id s) (seg_duration s) (seg_length s) (seg_bearing s) turn (seg_travel_mode s) true (is_via_location s).

Definition seg_set_bearing s (bearing : Z) : SegmentInformation :=
  MkSegment (seg_location s) (seg_name_id s) (seg_duration s) (seg_length s) bearing (seg_turn_instruction s) (seg_travel_mode s) (necessary s) (is_via_location s).

(** The only segment so far is at the coordinate. *)
Definition at_start (coordinate : FixedPointCoordinate) f : bool :=
  match path_description f with [front] => coordinate_eqb (seg_location front) coordinate | _ => false end.

(** A mode is compared with that of the first segment. *)
Definition AppendSegment (coordinate : FixedPointCoordinate) (path_point : PathData) f : option DescriptionFactory :=
  if at_start coordinate f then
    Some (if (0 <? pd_segment_duration path_point)%Z
          then with_path f ((fun front => seg_set_mode (seg_set_name front (pd_name_id path_point)) (pd_travel_mode path_point)) <$> path_description f)
          else f)
  else
    turn ← (if (pd_turn_instruction path_point =? NoTurn)%N then
              front ← vget (path_description f) 0;
              Some (if negb (seg_travel_mode front =? pd_travel_mode path_point)%N && (0 <? pd_segment_duration path_point)%Z
                    then turn_code GoStraight else pd_turn_instruction path_point)
            else Some (pd_turn_instruction path_point));
    Some (with_path f (path_description f ++ [SegmentInformation_turn coordinate (pd_name_id path_point) (pd_segment_duration path_point) fzero turn
                                                (pd_travel_mode path_point)])).

Definition SetStartSegment (source : PhantomNode) (traversed_in_reverse : bool) f : option DescriptionFactory :=
  let segment_duration := if traversed_in_reverse then reverse_weight source else forward_weight source in
  let travel_mode := if traversed_in_reverse then backward_travel_mode source else forward_travel_mode source in
  AppendSegment (location source) (MkPathData 0 (ph_name_id source) segment_duration (turn_code HeadOn) (ubits 4 travel_mode))
    (with_phantoms f source (df_target_phantom f)).

Definition SetEndSegment (target : PhantomNode) (traversed_in_reverse is_via : bool) f : DescriptionFactory :=
  let segment_duration := if traversed_in_reverse then reverse_weight target else forward_weight target in
  let travel_mode := if traversed_in_reverse then backward_travel_mode target else forward_travel_mode target in
  let f := with_phantoms f (df_start_phantom f) target in
  with_path f (path_description f ++ [SegmentInformation_make (location target) (ph_name_id target) segment_duration fzero
                                        (if is_via then turn_code ReachViaLocation else NoTurn) true true travel_mode]).

Definition AppendGeometryString (return_encoded : bool) f : option (Value double) :=
  if return_encoded then printEncodedString (path_description f) else Some (printUnencodedString (path_description f)).

(** [BuildRouteSummary] with [BuildDurationAndLengthStrings]. *)
Definition BuildRouteSummary (distance : double) (time : N) f : option DescriptionFactory :=
  d ← to_unsigned (dround distance);
  t ← to_unsigned (dround (ddiv (double_of_int (Z.of_N time)) (double_of_int 10)));
  Some (MkDescriptionFactory (df_start_phantom f) (df_target_phantom f) (via_indices f)
          (MkRouteSummary d (to_int t) (ph_name_id (df_start_phantom f)) (ph_name_id (df_target_phantom f))) (entireLength f) (path_description f)).

(** *** The steps of [Run] *)

Section factory.
  Context (math : c_math).

(** Names move to the segment before, and the lengths are set. *)
Definition measure_segments (path : list SegmentInformation) : option (list SegmentInformation) :=
  path ← vupd path 0 (fun s => seg_set_length s fzero);
  fold_m (fun path i =>
    current ← vget path i;
    path ← vupd path (i - 1) (fun s => seg_set_name s (seg_name_id current));
    previous ← vget path (i - 1);
    vupd path i (fun s => seg_set_length s (euclidean math (seg_location previous) (seg_location s)))) path (irange 1 (vsize path)).

(** The variables of the loop that adds up the segments between two turns. *)
Record leg_sums := MkLegSums { ls_entire : double; ls_length : float; ls_duration : N; ls_start : N; ls_path : list SegmentInformation }.

Definition sum_segment (st : leg_sums) (i : N) : option leg_sums :=
  current ← vget (ls_path st) i;
  let entire := dadd (ls_entire st) (to_double (seg_length current)) in
  let segment_length := fadd (ls_length st) (seg_length current) in
  let segment_duration := uadd (ls_duration st) (of_int (seg_duration current)) in
  path ← vupd (ls_path st) (ls_start st) (fun s => seg_set_duration (seg_set_length s segment_length) (to_int segment_duration));
  Some (if negb (seg_turn_instruction current =? NoTurn)%N then MkLegSums entire fzero 0 i path
        else MkLegSums entire segment_length segment_duration (ls_start st) path).

Definition sum_segments (entire : double) (path : list SegmentInformation) : option leg_sums :=
  fold_m sum_segment (MkLegSums entire fzero 0 0 path) (irange 1 (vsize path)).

Definition nearly_empty s : bool := SFltb (to_double (seg_length s)) double_epsilon.

Definition phantom_set_name (p : PhantomNode) (name_id : N) : PhantomNode :=
  MkPhantomNode (forward_node_id p) (reverse_node_id p) name_id (forward_weight p) (reverse_weight p) (forward_offset p) (reverse_offset p)
    (packed_geometry_id p) (location p) (fwd_segment_position p) (forward_travel_mode p) (backward_travel_mode p).

(** An empty last segment is removed. *)
Definition trim_last f : option DescriptionFactory :=
  last_segment ← vback (path_description f);
  if nearly_empty last_segment && (2 <? vsize (path_description f))%N then
    let path := vpop (path_description f) in
    path ← vupd path (vsize path - 1) (fun s => seg_set_turn s NoTurn);
    before ← vget path (vsize path - 2);
    Some (with_path (with_phantoms f (df_start_phantom f) (phantom_set_name (df_target_phantom f) (seg_name_id before))) path)
  else Some f.

(** An empty first segment is removed. *)
Definition trim_first f : option DescriptionFactory :=
  first_segment ← vget (path_description f) 0;
  if nearly_empty first_segment && (2 <? vsize (path_description f))%N then
    path ← vupd (drop 1 (path_description f)) 0 (fun s => seg_set_turn s (turn_code HeadOn));
    front ← vget path 0;
    Some (with_path (with_phantoms f (phantom_set_name (df_start_phantom f) (seg_name_id front)) (df_target_phantom f)) path)
  else Some f.

(** The bearings of the necessary segments and the ends of the legs. The
    bearing is stored in a [short]. *)
Definition mark_leg (fuel : nat) (st : list SegmentInformation * list N * N) (i : N) : option (list SegmentInformation * list N * N) :=
  let '(path, via, necessary_pieces) := st in
  s ← vget path i;
  if necessary s then
    let necessary_pieces := uadd necessary_pieces 1 in
    let via := if is_via_location s then via ++ [necessary_pieces] else via in
    next ← vget path (i + 1);
    angle ← GetBearing_from math fuel (seg_location next) (seg_location s);
    bearing ← to_unsigned (dmul (to_double angle) (double_of_int 10));
    path ← vset path i (seg_set_bearing s (let b := u16 bearing in if (b <? 32768)%N then Z.of_N b else Z.of_N b - 65536)%Z);
    Some (path, via, necessary_pieces)
  else Some (path, via, necessary_pieces).

Definition DescriptionFactory_Run (fuel : nat) (zoom_level : N) f : option DescriptionFactory :=
  if bool_decide (path_description f = []) then Some f
  else
    path ← measure_segments (path_description f);
    sums ← sum_segments (entireLength f) path;
    let f := MkDescriptionFactory (df_start_phantom f) (df_target_phantom f) (via_indices f) (summary f) (ls_entire sums) (ls_path sums) in
    f ← trim_last f;
    f ← trim_first f;
    path ← DouglasPeucker_Run math fuel (path_description f) zoom_level;
    '(path, via, necessary_pieces) ← fold_m (mark_leg fuel) (path, via_indices f, 0%N) (irange 0 (vsize path - 1));
    Some (MkDescriptionFactory (df_start_phantom f) (df_target_phantom f) (via ++ [uadd necessary_pieces 1]) (summary f) (entireLength f) path).
End factory.

(** ** ExtractRouteNames.h *)

(** [Segment] of the JSON descriptor. *)
Record Segment := MkNamedSegment { sg_name_id : N; sg_length : Z; sg_position : N }.

Definition Segment_default : Segment := MkNamedSegment UINT_MAX (-1) 0.

Record RouteNames := MkRouteNames {
  shortest_path_name_1 : str; shortest_path_name_2 : str; alternative_path_name_1 : str; alternative_path_name_2 : str }.

Definition PickNextLongestSegment (segment_list : list Segment) (blocked_name_id : N) : Segment :=
  foldl (fun result_segment segment =>
    if negb (sg_name_id segment =? blocked_name_id)%N && (sg_length result_segment <? sg_length segment)%Z && negb (sg_name_id segment =? 0)%N
    then segment else result_segment) (MkNamedSegment UINT_MAX 0 0) segment_list.

(** [std::set_difference] by the name ids of two sorted ranges. *)
Fixpoint name_difference (l1 : list Segment) : list Segment -> list Segment :=
  fix go (l2 : list Segment) : list Segment :=
    match l1, l2 with
    | [], _ => []
    | _, [] => l1
    | a :: l1', b :: l2' =>
        if (sg_name_id a <? sg_name_id b)%N then a :: name_difference l1' l2
        else if (sg_name_id b <? sg_name_id a)%N then go l2'
        else name_difference l1' l2'
    end.

(** The range is written to the front of a vector of default segments. *)
Definition padded_difference (l1 l2 : list Segment) : list Segment :=
  let d := name_difference l1 l2 in d ++ replicate (length l1 - length d) Segment_default.

Section names.
  (** [std::sort] by the length, longest first, and by the name id. *)
  Context (sort_length sort_name : list Segment -> list Segment).
  Context (GetEscapedNameForNameID : N -> option str).

Definition by_position (a b : Segment) : Segment * Segment := if (sg_position b <? sg_position a)%N then (b, a) else (a, b).

Definition GenerateRouteNames (shortest_path_segments alternative_path_segments : list Segment) : option RouteNames :=
  if bool_decide (shortest_path_segments = []) then Some (MkRouteNames [] [] [] [])
  else
    let shortest := sort_length shortest_path_segments in
    shortest_segment_1 ← vget shortest 0;
    '(alternative, alternative_segment_1) ←
      (if bool_decide (alternative_path_segments = []) then Some ([], Segment_default)
       else let alternative := sort_length alternative_path_segments in s ← vget alternative 0; Some (alternative, s));
    let shortest := sort_name shortest in
    let alternative := sort_name alternative in
    let shortest_segment_2 := PickNextLongestSegment (sort_length (padded_difference shortest alternative)) (sg_name_id shortest_segment_1) in
    let alternative_difference := sort_length (padded_difference alternative shortest) in
    let alternative_segment_2 :=
      if bool_decide (alternative = []) then Segment_default else PickNextLongestSegment alternative_difference (sg_name_id alternative_segment_1) in
    let '(s1, s2) := by_position shortest_segment_1 shortest_segment_2 in
    let '(a1, a2) := by_position alternative_segment_1 alternative_segment_2 in
    n1 ← GetEscapedNameForNameID (sg_name_id s1); n2 ← GetEscapedNameForNameID (sg_name_id s2);
    n3 ← GetEscapedNameForNameID (sg_name_id a1); n4 ← GetEscapedNameForNameID (sg_name_id a2);
    Some (MkRouteNames n1 n2 n3 n4).
End names.

(** ** JSONDescriptor.h *)

Record DescriptorConfig := MkDescriptorConfig { cfg_instructions : bool; cfg_geometry : bool; cfg_encode_geometry : bool; cfg_zoom_level : N }.

Definition jint (z : Z) : Value double := JNumber (double_of_int z).

Definition junsigned (n : N) : Value double := JNumber (double_of_int (Z.of_N n)).

Definition coordinate_array (c : FixedPointCoordinate) : Value double := JArray [JNumber (to_double (degrees (lat c))); JNumber (to_double (degrees (lon c)))].

(** [TurnInstructionsClass::TurnIsNecessary] of a code. *)
Definition turn_is_announced (code : N) : bool := negb ((code =? NoTurn)%N || (code =? turn_code StayOnRoundAbout)%N).

Section json_descriptor.
  Context (math : c_math) (fuel : nat) (sort_length sort_name : list Segment -> list Segment).
  (** [GetCoordinateOfNode] and [GetEscapedNameForNameID] of the facade, the
      numbers and the order of objects of the rendering, and the hint of a
      phantom node, which Boost encodes. *)
  Context (GetCoordinateOfNode : N -> option FixedPointCoordinate) (GetEscapedNameForNameID : N -> option str).
  Context (integral_to_string : N -> str) (iteration : list (str * Value double) -> list (str * Value double)).
  Context (EncodeToBase64 : PhantomNode -> str).

Definition jobject (values : list (str * Value double)) : Value double := JObject (iteration values).

Definition append_nodes (route_leg : list PathData) (f : DescriptionFactory) : option DescriptionFactory :=
  fold_m (fun f path_data => c ← GetCoordinateOfNode (pd_node path_data); AppendSegment c path_data f) f route_leg.

Definition DescribeLeg (route_leg : list PathData) (leg_phantoms : PhantomNodes) (target_traversed_in_reverse is_via_leg : bool) (f : DescriptionFactory)
    : option DescriptionFactory :=
  f ← append_nodes route_leg f;
  Some (SetEndSegment (target_phantom leg_phantoms) target_traversed_in_reverse is_via_leg f).

(** The variables of [BuildTextualDescription]. *)
Record text_state := MkTextState { tx_index : N; leave_at_exit : Z; tx_rows : list (Value double); tx_segments : list Segment }.

(** One row: instruction, street, length, position, time, length in metres,
    direction, azimuth, mode. The time is divided as an [int]. *)
Definition instruction_row (index : N) (instruction : str) (segment : SegmentInformation) : option (Value double) :=
  name ← GetEscapedNameForNameID (seg_name_id segment);
  metres ← to_unsigned (seg_length segment);
  let bearing_value := ddiv (double_of_int (seg_bearing segment)) (double_of_int 10) in
  azimuth ← to_unsigned (dround bearing_value);
  Some (JArray [JString instruction; JString name; JNumber (to_double (fround (seg_length segment))); junsigned index;
                jint (Z.quot (seg_duration segment) 10); JString (integral_to_string metres ++ lit "m"); JString (Azimuth_Get bearing_value);
                junsigned azimuth; junsigned (seg_travel_mode segment)]).

Definition describe_segment (st : text_state) (segment : SegmentInformation) : option text_state :=
  let code := seg_turn_instruction segment in
  st ← (if turn_is_announced code then
          if (code =? turn_code EnterRoundAbout)%N then Some st
          else
            '(instruction, exit_number) ←
              (if (code =? turn_code LeaveRoundAbout)%N then
                 next_exit ← iadd (leave_at_exit st) 1;
                 Some (integral_to_string (turn_code EnterRoundAbout) ++ lit "-" ++ integral_to_string (of_int next_exit), 0%Z)
               else Some (integral_to_string code, leave_at_exit st));
            row ← instruction_row (tx_index st) instruction segment;
            metres ← truncate (seg_length segment);
            Some (MkTextState (tx_index st) exit_number (tx_rows st ++ [row])
                    (tx_segments st ++ [MkNamedSegment (seg_name_id segment) metres (u32 (vsize (tx_segments st)))]))
        else if (code =? turn_code StayOnRoundAbout)%N then
          next_exit ← iadd (leave_at_exit st) 1; Some (MkTextState (tx_index st) next_exit (tx_rows st) (tx_segments st))
        else Some st);
  Some (if necessary segment then MkTextState (uadd (tx_index st) 1) (leave_at_exit st) (tx_rows st) (tx_segments st) else st).

Definition BuildTextualDescription (path : list SegmentInformation) (segments : list Segment) : option (list (Value double) * list Segment) :=
  st ← fold_m describe_segment (MkTextState 0 0 [] segments) path;
  let last_row := JArray [JString (integral_to_string (turn_code ReachedYourDestination)); JString []; jint 0; junsigned (usub (tx_index st) 1); jint 0;
                          JString (lit "0m"); JString (Azimuth_Get dzero); JNumber dzero] in
  Some (tx_rows st ++ [last_row], tx_segments st).

Definition summary_object (f : DescriptionFactory) : option (Value double) :=
  start_point ← GetEscapedNameForNameID (source_name_id (summary f));
  end_point ← GetEscapedNameForNameID (target_name_id (summary f));
  Some (jobject [(lit "total_distance", junsigned (rs_distance (summary f))); (lit "total_time", jint (rs_duration (summary f)));
                 (lit "start_point", JString start_point); (lit "end_point", JString end_point)]).

(** The description of the route itself. *)
Definition describe_route (config : DescriptorConfig) (raw_route : RawRouteData) (first_leg : PhantomNodes)
    : option (list (str * Value double) * list Segment) :=
  reverse ← vget (source_traversed_in_reverse raw_route) 0;
  f ← SetStartSegment (source_phantom first_leg) reverse DescriptionFactory_make;
  f ← fold_m (fun f i =>
    leg ← vget (unpacked_path_segments raw_route) i;
    phantoms ← vget (segment_end_coordinates raw_route) i;
    target_reverse ← vget (target_traversed_in_reverse raw_route) i;
    DescribeLeg leg phantoms target_reverse (is_via_leg i raw_route) f) f (irange 0 (vsize (unpacked_path_segments raw_route)));
  f ← DescriptionFactory_Run math fuel (cfg_zoom_level config) f;
  geometry ← (if cfg_geometry config then g ← AppendGeometryString (cfg_encode_geometry config) f; Some [(lit "route_geometry", g)] else Some []);
  '(instructions, segments) ← (if cfg_instructions config then
      '(rows, segments) ← BuildTextualDescription (path_description f) []; Some ([(lit "route_instructions", JArray rows)], segments)
    else Some ([], []));
  f ← BuildRouteSummary (entireLength f) (of_int (shortest_path_length raw_route)) f;
  route_summary ← summary_object f;
  let via_points := coordinate_array (location (source_phantom first_leg)) ::
    ((fun nodes => coordinate_array (location (target_phantom nodes))) <$> segment_end_coordinates raw_route) in
  Some ([(lit "status", jint 0); (lit "status_message", JString (lit "Found route between points"))] ++ geometry ++ instructions ++
        [(lit "route_summary", route_summary); (lit "via_points", JArray via_points); (lit "via_indices", JArray (junsigned <$> via_indices f))], segments).

(** The description of the alternative. The direction at the target is that at
    the source. *)
Definition describe_alternative (config : DescriptorConfig) (raw_route : RawRouteData) (first_leg last_leg : PhantomNodes)
    : option (list (str * Value double) * list Segment) :=
  reverse ← vget (alt_source_traversed_in_reverse raw_route) 0;
  f ← SetStartSegment (source_phantom first_leg) reverse DescriptionFactory_make;
  f ← append_nodes (unpacked_alternative raw_route) f;
  target_reverse ← vback (alt_source_traversed_in_reverse raw_route);
  f ← DescriptionFactory_Run math fuel (cfg_zoom_level config) (SetEndSegment (target_phantom last_leg) target_reverse false f);
  geometry ← (if cfg_geometry config then g ← AppendGeometryString (cfg_encode_geometry config) f; Some [(lit "alternative_geometries", JArray [g])] else Some []);
  '(instructions, segments) ← (if cfg_instructions config then
      '(rows, segments) ← BuildTextualDescription (path_description f) []; Some ([(lit "alternative_instructions", JArray [JArray rows])], segments)
    else Some ([], []));
  f ← BuildRouteSummary (entireLength f) (of_int (alternative_path_length raw_route)) f;
  route_summary ← summary_object f;
  Some ([(lit "found_alternative", JTrue)] ++ geometry ++ instructions ++
        [(lit "alternative_summaries", JArray [route_summary]); (lit "alternative_indices", JArray (junsigned <$> via_indices f))], segments).

(** The members of the reply. *)
Definition JSONDescriptor_Run (config : DescriptorConfig) (raw_route : RawRouteData) : option (list (str * Value double)) :=
  if (shortest_path_length raw_route =? INVALID_EDGE_WEIGHT)%Z then
    Some [(lit "status", jint 207); (lit "status_message", JString (lit "Cannot find route between points"))]
  else
    first_leg ← vget (segment_end_coordinates raw_route) 0;
    last_leg ← vback (segment_end_coordinates raw_route);
    _ ← GetEscapedNameForNameID (ph_name_id (source_phantom first_leg));
    '(route, shortest_path_segments) ← describe_route config raw_route first_leg;
    '(alternative, alternative_path_segments) ←
      (if negb (alternative_path_length raw_route =? INVALID_EDGE_WEIGHT)%Z then describe_alternative config raw_route first_leg last_leg
       else Some ([(lit "found_alternative", JFalse)], []));
    names ← GenerateRouteNames sort_length sort_name GetEscapedNameForNameID shortest_path_segments alternative_path_segments;
    let alternative_names :=
      if negb (alternative_path_length raw_route =? INVALID_EDGE_WEIGHT)%Z
      then [(lit "alternative_names", JArray [JArray [JString (alternative_path_name_1 names); JString (alternative_path_name_2 names)]])] else [] in
    let hints := ((fun nodes => JString (EncodeToBase64 (source_phantom nodes))) <$> segment_end_coordinates raw_route) ++
      [JString (EncodeToBase64 (target_phantom last_leg))] in
    Some (route ++ alternative ++ [(lit "route_name", JArray [JString (shortest_path_name_1 names); JString (shortest_path_name_2 names)])] ++ alternative_names ++
          [(lit "hint_data", jobject [(lit "checksum", junsigned (raw_check_sum raw_route)); (lit "locations", JArray hints)])]).
End json_descriptor.

(** ** GPXDescriptor.h, KMLDescriptor.h, PlainDescriptor.h *)

Section text_descriptors.
  Context (junk : N -> N) (GetCoordinateOfNode : N -> option FixedPointCoordinate).

Definition quote : str := [34%N].

(** The string for the latitude is computed, but not inserted. *)
Definition GPX_AddRoutePoint (coordinate : FixedPointCoordinate) (output : str) : option str :=
  _ ← convertInternalLatLonToString junk (lat coordinate);
  tmp ← convertInternalLatLonToString junk (lon coordinate);
  Some (output ++ lit "<rtept lat=" ++ quote ++ quote ++ lit " lon=" ++ quote ++ tmp ++ quote ++ lit "></rtept>").

Definition KML_AddRoutePoint (coordinate : FixedPointCoordinate) (output : str) : option str :=
  lon_string ← convertInternalLatLonToString junk (lon coordinate);
  lat_string ← convertInternalLatLonToString junk (lat coordinate);
  Some (output ++ lit " " ++ lon_string ++ lit "," ++ lat_string ++ lit ",0").

Definition PLAIN_AddRoutePoint (coordinate : FixedPointCoordinate) (output : str) : option str :=
  lat_string ← convertInternalLatLonToString junk (lat coordinate);
  lon_string ← convertInternalLatLonToString junk (lon coordinate);
  Some (output ++ lit "{" ++ quote ++ lit "lat" ++ quote ++ lit ":" ++ lat_string ++ lit "," ++ quote ++ lit "lng" ++ quote ++ lit ":" ++ lon_string ++ lit "},").

(** [Run], which is the same for the three but for the strings. *)
Definition route_points (AddRoutePoint : FixedPointCoordinate -> str -> option str) (header footer : str) (raw_route : RawRouteData) (content : str)
    : option str :=
  let content := content ++ header in
  first_path ← (if negb (shortest_path_length raw_route =? INVALID_EDGE_WEIGHT)%Z then vget (unpacked_path_segments raw_route) 0 else Some []);
  content ← (if negb (shortest_path_length raw_route =? INVALID_EDGE_WEIGHT)%Z && negb (bool_decide (first_path = [])) then
      first_leg ← vget (segment_end_coordinates raw_route) 0;
      last_leg ← vback (segment_end_coordinates raw_route);
      content ← AddRoutePoint (location (source_phantom first_leg)) content;
      content ← fold_m (fun content path_data => c ← GetCoordinateOfNode (pd_node path_data); AddRoutePoint c content) content (concat (unpacked_path_segments raw_route));
      AddRoutePoint (location (target_phantom last_leg)) content
    else Some content);
  Some (content ++ footer).

Definition attribute (name value : string) : str := lit name ++ lit "=" ++ quote ++ lit value ++ quote.

Definition gpx_header : str :=
  lit "<?xml " ++ attribute "version" "1.0" ++ lit " " ++ attribute "encoding" "UTF-8" ++ lit "?><gpx " ++ attribute "creator" "OSRM Routing Engine" ++
  lit " " ++ attribute "version" "1.1" ++ lit " " ++ attribute "xmlns" "http://www.topografix.com/GPX/1/1" ++ lit " " ++
  attribute "xmlns:xsi" "http://www.w3.org/2001/XMLSchema-instance" ++ lit " " ++
  attribute "xsi:schemaLocation" "http://www.topografix.com/GPX/1/1 gpx.xsd" ++ lit "><metadata><copyright " ++ attribute "author" "Project OSRM" ++
  lit "><license>Data (c) OpenStreetMap contributors (ODbL)</license></copyright></metadata><rte>".

Definition GPXDescriptor_Run : RawRouteData -> str -> option str := route_points GPX_AddRoutePoint gpx_header (lit "</rte></gpx>").

Definition KMLDescriptor_Run : RawRouteData -> str -> option str := route_points KML_AddRoutePoint (lit "<coordinates>") (lit "</coordinates>").

Definition PLAINDescriptor_Run : RawRouteData -> str -> option str :=
  route_points PLAIN_AddRoutePoint (lit "{ " ++ quote ++ lit "route" ++ quote ++ lit " : [ ")
    (lit "{" ++ quote ++ lit "lat" ++ quote ++ lit ":0," ++ quote ++ lit "lng" ++ quote ++ lit ":0} ]}").
End text_descriptors.

(** ** Adding up the segments *)

Section sums.
  Context (path : list SegmentInformation).

(** The duration of the first segments. *)
Definition prefix_duration (k : N) : Z := foldr Z.add 0%Z (seg_duration <$> take (N.to_nat k) path).

Definition turns_at (i : N) : Prop := exists s, vget path i = Some s /\ seg_turn_instruction s <> NoTurn.

(** A segment with an instruction of its own, and the end of the stretch it
    describes. *)
Definition starts_at (i : N) : Prop := i = 0%N \/ turns_at i.

Definition stretch (a t : N) : Prop := starts_at a /\ (a < t)%N /\ forall i, (a < i < t)%N -> ~ turns_at i.

(** Equal but for length and duration. *)
Definition same_segment (s s' : SegmentInformation) : Prop :=
  s' = seg_set_duration (seg_set_length s (seg_length s')) (seg_duration s').

  Hypothesis path_small : (vsize path < 4294967296)%N.
  Hypothesis durations_pos : Forall (fun s => 0 <= seg_duration s)%Z path.
  Hypothesis durations_small : (prefix_duration (vsize path) <= INT_MAX)%Z.
#[local] Set Default Proof Using "All".

Lemma prefix_next k s : vget path k = Some s -> prefix_duration (k + 1) = (prefix_duration k + seg_duration s)%Z.
Proof.
  intros Hs. rewrite vget_lookup in Hs. unfold prefix_duration. replace (N.to_nat (k + 1)) with (S (N.to_nat k)) by lia. rewrite (take_S_r _ _ s Hs), fmap_app.
  generalize (seg_duration <$> take (N.to_nat k) path) as l. intros l. induction l as [|x l IH]; cbn in *; lia.
Qed.

Lemma prefix_mono a b : (a <= b <= vsize path)%N -> (prefix_duration a <= prefix_duration b)%Z.
Proof.
  intros Hab. replace b with (a + N.of_nat (N.to_nat (b - a)))%N by lia. assert (a + N.of_nat (N.to_nat (b - a)) <= vsize path)%N as Hle by lia. revert Hle.
  generalize (N.to_nat (b - a)) as n. induction n as [|n IH]; intros Hle; [by rewrite N.add_0_r|].
  replace (a + N.of_nat (S n))%N with (a + N.of_nat n + 1)%N by lia. destruct (vget_lt path (a + N.of_nat n)) as [s Hs]; [lia|]. rewrite (prefix_next _ s Hs).
  rewrite Forall_forall in durations_pos. assert (0 <= seg_duration s)%Z by (apply durations_pos; rewrite vget_lookup in Hs; by eapply list_elem_of_lookup_2).
  specialize (IH ltac:(lia)). lia.
Qed.

Definition summed (path' : list SegmentInformation) (a t : N) : Prop :=
  exists s, vget path' a = Some s /\ seg_duration s = (prefix_duration (t + 1) - prefix_duration (a + 1))%Z.

(** The loop after the segments before [k]. *)
Record summing (k : N) (st : leg_sums) : Prop := {
  sm_same : Forall2 same_segment path (ls_path st);
  sm_stretch : stretch (ls_start st) k;
  sm_duration : ls_duration st = Z.to_N (prefix_duration k - prefix_duration (ls_start st + 1));
  sm_rest : forall i, (ls_start st < i)%N -> vget (ls_path st) i = vget path i;
  sm_open : (ls_start st + 1 < k)%N -> summed (ls_path st) (ls_start st) (k - 1);
  sm_closed : forall a t, stretch a t -> turns_at t -> (t <= ls_start st)%N -> summed (ls_path st) a t }.

Lemma same_updated path' i (h : SegmentInformation -> SegmentInformation) : Forall2 same_segment path path' -> (forall s, same_segment s (h s)) -> Forall2 same_segment path (alter h i path').
Proof.
  intros HF Hh. apply Forall2_same_length_lookup_2; [rewrite length_alter; by eapply Forall2_length|]. intros j x y Hx Hy.
  destruct (decide (i = j)) as [<-|Hne].
  - rewrite list_lookup_alter_eq in Hy. destruct (path' !! i) as [z|] eqn:Hz; [|done]. injection Hy as <-.
    pose proof (Forall2_lookup_lr _ _ _ _ _ _ HF Hx Hz) as ->. rewrite (Hh _). done.
  - rewrite list_lookup_alter_ne in Hy by done. exact (Forall2_lookup_lr _ _ _ _ _ _ HF Hx Hy).
Qed.

Lemma stretch_unique a b t : stretch a t -> stretch b t -> a = b.
Proof.
  intros (Ha & Hat & Hna) (Hb & Hbt & Hnb). destruct (N.lt_trichotomy a b) as [Hlt|[->|Hlt]]; [|done|].
  - exfalso. apply (Hna b); [lia|]. destruct Hb as [->|?]; [lia|done].
  - exfalso. apply (Hnb a); [lia|]. destruct Ha as [->|?]; [lia|done].
Qed.

Lemma sum_step k st : (0 < k < vsize path)%N -> summing k st -> exists st', sum_segment st k = Some st' /\ summing (k + 1) st'.
Proof.
  intros Hk [H1 H2 H3 H4 H5 H6]. destruct (vget_lt path k) as [cur Hcur]; [lia|]. pose proof H2 as (Hst & Hsk & Hnone).
  assert (vsize (ls_path st) = vsize path) as Hsz by (unfold vsize; by rewrite <- (Forall2_length _ _ _ H1)).
  unfold sum_segment. rewrite H4, Hcur by lia. cbn [mbind option_bind]. rewrite vupd_lt by lia. cbn [mbind option_bind].
  set (p := ls_start st) in *. pose proof (prefix_next k cur Hcur) as Hnext. pose proof (prefix_mono (p + 1) k ltac:(lia)). pose proof (prefix_mono k (k + 1) ltac:(lia)).
  pose proof (prefix_mono (k + 1) (vsize path) ltac:(lia)). pose proof (prefix_mono 0 (p + 1) ltac:(lia)) as Hzero. change (prefix_duration 0) with 0%Z in Hzero. unfold INT_MAX in *.
  assert (uadd (ls_duration st) (of_int (seg_duration cur)) = Z.to_N (prefix_duration (k + 1) - prefix_duration (p + 1))) as Hdur.
  { rewrite H3, of_int_nonneg by lia. rewrite uadd_small by lia. lia. }
  rewrite Hdur. set (total := Z.to_N _) in *. rewrite to_int_small by lia. set (upd := fun s => seg_set_duration _ _).
  assert (summed (alter upd (N.to_nat p) (ls_path st)) p k) as Hsummed.
  { destruct (vget_lt (ls_path st) p) as [s Hs]; [lia|]. exists (upd s). rewrite vget_alter, decide_True, Hs by done. split; [done|]. cbn. lia. }
  assert (forall a t, stretch a t -> turns_at t -> (t <= p)%N -> summed (alter upd (N.to_nat p) (ls_path st)) a t) as Hclosed.
  { intros a t Ha Ht Htp. destruct (H6 a t Ha Ht Htp) as (s & Hs & Hd). exists s. destruct Ha as (_ & Hat & _). rewrite vget_alter, decide_False by lia. done. }
  assert (Forall2 same_segment path (alter upd (N.to_nat p) (ls_path st))) as Hsame by (by apply same_updated).
  assert (forall i, (p < i)%N -> vget (alter upd (N.to_nat p) (ls_path st)) i = vget path i) as Hrest.
  { intros i Hi. rewrite vget_alter, decide_False by lia. by apply H4. }
  eexists. split; [done|]. destruct (N.eqb_spec (seg_turn_instruction cur) NoTurn) as [Ht|Ht]; cbn [negb].
  - assert (~ turns_at k) as Hnt by (intros (s & Hs & Hn); congruence).
    split; cbn [ls_path ls_start ls_duration]; fold p; try done.
    + split; [done|]. split; [lia|]. intros i Hi. destruct (decide (i = k)) as [->|]; [done|]. apply Hnone. lia.
    + intros _. by replace (k + 1 - 1)%N with k by lia.
  - assert (turns_at k) as Hnt by (by exists cur).
    split; cbn [ls_path ls_start ls_duration]; try done.
    + split; [by right|]. split; [lia|]. intros i Hi. lia.
    + lia.
    + intros i Hi. apply Hrest. lia.
    + lia.
    + intros a t Ha Htt Htk. destruct (decide (t = k)) as [->|]; [by rewrite (stretch_unique a p k Ha H2)|]. apply Hclosed; [done|done|].
      destruct (decide (p < t)%N); [|lia]. exfalso. apply (Hnone t); [lia|done].
Qed.
End sums.

(** ** Properties *)

(** C32: The durations of the instructions cover the route. The loop that adds
    up the segments ends; the duration of an instruction becomes the sum of the
    durations of the segments after it, up to and including the next turn or
    the end of the route. Nothing but lengths and durations changes. *)
Theorem instruction_durations entire path : (0 < vsize path < 4294967296)%N -> Forall (fun s => 0 <= seg_duration s)%Z path ->
  (prefix_duration path (vsize path) <= INT_MAX)%Z -> exists sums, sum_segments entire path = Some sums /\ Forall2 same_segment path (ls_path sums) /\
  forall a t, stretch path a t -> (t < vsize path)%N -> (turns_at path t \/ t + 1 = vsize path)%N -> summed path (ls_path sums) a t.
Proof.
  intros Hsz Hpos Hmax. unfold sum_segments.
  destruct (fold_m_irange sum_segment (summing path) 1 (vsize path) (MkLegSums entire fzero 0 0 path)) as (sums & Hs & [H1 H2 H3 H4 H5 H6]); [lia|lia| | |].
  - split; cbn [ls_path ls_start ls_duration]; try done.
    + apply Forall2_same_length_lookup_2; [done|]. intros i x y Hx Hy. assert (y = x) as -> by congruence. by destruct x.
    + split; [by left|]. split; [lia|]. intros i Hi. lia.
    + by rewrite Z.sub_diag.
    + intros a t (_ & ? & _) _ Ht. lia.
  - intros k st Hk Hst. apply sum_step; try done; lia.
  - exists sums. split; [exact Hs|]. split; [done|]. pose proof H2 as (_ & Hlt & Hnone). intros a t Ha Ht Hend.
    destruct (vget_lt path t Ht) as [s Hvs]. destruct (N.eq_dec (seg_turn_instruction s) NoTurn) as [Heq|Hne].
    + assert (~ turns_at path t) as Hnt by (intros (s' & Hs' & Hn); congruence). destruct Hend as [?|Hend]; [done|].
      assert (stretch path a (vsize path)) as Ha'.
      { destruct Ha as (? & ? & Hno). split; [done|]. split; [lia|]. intros i Hi. destruct (decide (i = t)) as [->|]; [done|]. apply Hno. lia. }
      pose proof (stretch_unique path ltac:(lia) Hpos Hmax _ _ _ Ha' H2) as ->. destruct Ha as (_ & ? & _). replace t with (vsize path - 1)%N by lia. apply H5. lia.
    + assert (turns_at path t) as Htt by (by exists s). apply H6; [done|done|]. destruct (decide (ls_start sums < t)%N); [|lia]. exfalso. by apply (Hnone t).
Qed.

Definition sample_path : list SegmentInformation :=
  let segment d turn := SegmentInformation_turn (MkCoordinate 0 0) 0 d fzero turn 1 in [segment 0%Z 10%N; segment 5%Z 0%N; segment 7%Z 1%N; segment 2%Z 0%N].

Lemma instruction_durations_witness :
  exists sums, sum_segments dzero sample_path = Some sums /\ summed sample_path (ls_path sums) 0 2 /\ summed sample_path (ls_path sums) 2 3 /\
    (seg_duration <$> ls_path sums) = [12; 5; 2; 2]%Z.
Proof.
  destruct (instruction_durations dzero sample_path) as (sums & H1 & _ & H2).
  - vm_compute. done.
  - repeat constructor; cbn; lia.
  - vm_compute. done.
  - exists sums. split; [exact H1|].
    assert (forall i, turns_at sample_path i -> i = 0%N \/ i = 2%N) as Hturn.
    { intros i (s & Hs & Hn). pose proof (vget_Some_lt _ _ _ Hs) as Hlt. change (vsize sample_path) with 4%N in Hlt.
      assert (i = 0 \/ i = 1 \/ i = 2 \/ i = 3)%N as [->|[->|[->| ->]]] by lia; [by left| |by right|]; vm_compute in Hs; injection Hs as <-; by destruct Hn. }
    split; [|split].
    + apply H2; [|vm_compute; done|left; by eexists]. split; [by left|]. split; [lia|]. intros i Hi Ht. apply Hturn in Ht. lia.
    + apply H2; [|vm_compute; done|right; done]. split; [right; by eexists|]. split; [lia|]. intros i Hi Ht. apply Hturn in Ht. lia.
    + revert H1. vm_compute. intros [= <-]. reflexivity.
Defined.

(** A route on the equator. *)
Definition flat (c : FixedPointCoordinate) : FixedPointCoordinate := MkCoordinate 0 (lon c).

Definition flat_phantom (p : PhantomNode) : PhantomNode :=
  MkPhantomNode (forward_node_id p) (reverse_node_id p) (ph_name_id p) (forward_weight p) (reverse_weight p) (forward_offset p) (reverse_offset p)
    (packed_geometry_id p) (flat (location p)) (fwd_segment_position p) (forward_travel_mode p) (backward_travel_mode p).

Definition flat_route (r : RawRouteData) : RawRouteData :=
  MkRawRouteData (unpacked_path_segments r) (unpacked_alternative r)
    ((fun l => MkPhantomNodes (flat_phantom (source_phantom l)) (flat_phantom (target_phantom l))) <$> segment_end_coordinates r) (raw_via_node_coordinates r)
    (source_traversed_in_reverse r) (target_traversed_in_reverse r) (alt_source_traversed_in_reverse r) (alt_target_traversed_in_reverse r)
    (raw_check_sum r) (shortest_path_length r) (alternative_path_length r).

Definition printable (junk : N -> N) (c : FixedPointCoordinate) : Prop := is_Some (convertInternalLatLonToString junk (lat c)).

Lemma gpx_point_flat junk c output : printable junk c -> is_Some (convertInternalLatLonToString junk 0) ->
  GPX_AddRoutePoint junk (flat c) output = GPX_AddRoutePoint junk c output.
Proof. intros [x Hx] [y Hy]. unfold GPX_AddRoutePoint, flat. cbn [lat lon]. by rewrite Hx, Hy. Qed.

(** C40: A route in the GPX format has no latitudes: as long as every latitude
    can be printed, the document is the same as that of the route moved to the
    equator. *)
Theorem gpx_latitudes_lost junk coordinate_of_node r content : is_Some (convertInternalLatLonToString junk 0) ->
  (forall n c, coordinate_of_node n = Some c -> printable junk c) ->
  Forall (fun l => printable junk (location (source_phantom l)) /\ printable junk (location (target_phantom l))) (segment_end_coordinates r) ->
  GPXDescriptor_Run junk (fun n => flat <$> coordinate_of_node n) (flat_route r) content = GPXDescriptor_Run junk coordinate_of_node r content.
Proof.
  intros H0 Hnodes Hends. unfold GPXDescriptor_Run, route_points. cbn [shortest_path_length unpacked_path_segments segment_end_coordinates flat_route].
  assert (forall l c1, fold_m (fun c2 path_data => c ← flat <$> coordinate_of_node (pd_node path_data); GPX_AddRoutePoint junk c c2) c1 l =
    fold_m (fun c2 path_data => c ← coordinate_of_node (pd_node path_data); GPX_AddRoutePoint junk c c2) c1 l) as Hfold.
  { intros l. induction l as [|pd l IH]; intros c1; [done|]. cbn [fold_m]. destruct (coordinate_of_node (pd_node pd)) as [c|] eqn:Hc; [|done].
    cbn [fmap option_fmap option_map mbind option_bind]. rewrite (gpx_point_flat junk _ _ (Hnodes _ _ Hc) H0). destruct (GPX_AddRoutePoint junk c c1); [apply IH|done]. }
  destruct (if negb _ then _ else Some []) as [first_path|]; [|done]. cbn [mbind option_bind]. destruct (negb _ && negb _); [|done].
  rewrite vget_lookup, list_lookup_fmap, <- vget_lookup. unfold vback. rewrite fmap_last. destruct (vget (segment_end_coordinates r) 0) as [l0|] eqn:Hl0; [|done].
  destruct (last (segment_end_coordinates r)) as [l1|] eqn:Hl1; [|done]. cbn [fmap option_fmap option_map mbind option_bind source_phantom target_phantom location flat_phantom].
  rewrite Forall_forall in Hends. rewrite vget_lookup in Hl0. apply list_elem_of_lookup_2 in Hl0. apply last_Some_elem_of in Hl1.
  rewrite (gpx_point_flat junk _ _ (proj1 (Hends _ Hl0)) H0). destruct (GPX_AddRoutePoint junk _ (content ++ gpx_header)) as [c1|]; [|done]. cbn [mbind option_bind].
  rewrite Hfold. destruct (fold_m _ c1 _) as [c2|]; [|done]. cbn [mbind option_bind]. by rewrite (gpx_point_flat junk _ _ (proj2 (Hends _ Hl1)) H0).
Qed.

Definition sample_place (la lo : Z) : PhantomNode := MkPhantomNode 0 SPECIAL_NODEID 0 1 0 0 0 SPECIAL_EDGEID (MkCoordinate la lo) 0 1 1.

Definition sample_raw_route : RawRouteData :=
  MkRawRouteData [[MkPathData 0 0 5 0 1]] [] [MkPhantomNodes (sample_place 52500000 13400000) (sample_place 52510000 13400000)] [] [false] [false] [] [] 0 5
    INVALID_EDGE_WEIGHT.

Lemma gpx_latitudes_lost_witness :
  GPXDescriptor_Run (fun _ => 0%N) (fun n => flat <$> vget [MkCoordinate 52505000 13401000] n) (flat_route sample_raw_route) [] =
    GPXDescriptor_Run (fun _ => 0%N) (vget [MkCoordinate 52505000 13401000]) sample_raw_route [] /\
  GPXDescriptor_Run (fun _ => 0%N) (vget [MkCoordinate 52505000 13401000]) sample_raw_route [] <> None.
Proof.
  split; [|vm_compute; discriminate]. apply gpx_latitudes_lost.
  - vm_compute. by eexists.
  - intros n c Hc. rewrite vget_lookup in Hc. destruct (N.to_nat n) as [|[]]; [|discriminate Hc..]. injection Hc as <-. vm_compute. by eexists.
  - constructor; [|constructor]. split; vm_compute; by eexists.
Defined.
