(* ===== verification/Plugins.v ===== *)
(** * Plugins/: the services

    [HandleRequest] of every plugin: from the parameters of a request to the
    reply. The data facade is a record of the operations that the plugins call;
    the one of a server that holds its data in memory is built from the R-tree
    and the street names. *)

From Stdlib Require Import Strings.String Floats.SpecFloat.
From S2P Require Import Prelude Types Paths Edges Storage BinaryHeap DynamicGraph StaticGraph.
From S2P Require Import Float32 Text Json RouteParameters Server Geometry Names Routing QuerySearch DistanceTable Unpacking ShortestPath RTree RTreeSearch.
From S2P Require Import RouteGeometry Descriptors.

(** ** The facade *)

Record DataFacade := MkDataFacade {
  df_GetCheckSum : N;
  df_GetNumberOfNodes : N;
  df_GetTimestamp : str;
  df_FindPhantomNode : FixedPointCoordinate -> PhantomNode -> N -> option (bool * PhantomNode);
  df_IncrementalFindPhantomNode : FixedPointCoordinate -> list PhantomNode -> N -> option (bool * list PhantomNode);
  df_LocateClosestEndPoint : FixedPointCoordinate -> FixedPointCoordinate -> N -> option (bool * FixedPointCoordinate);
  df_GetCoordinateOfNode : N -> option FixedPointCoordinate;
  df_GetName : N -> option str }.

Definition GetEscapedNameForNameID (d : DataFacade) (name_id : N) : option str :=
  name ← df_GetName d name_id; Some (EscapeJSONString name).

(** The facade over the R-tree [tree], its leaves and the names. *)
Definition internal_facade (math : c_math) (fuel : nat) (pop : list QueryCandidate -> option (QueryCandidate * list QueryCandidate))
    (pop_incremental : list IncrementalQueryCandidate -> option (IncrementalQueryCandidate * list IncrementalQueryCandidate))
    (tree : list TreeNode) (leaves : list LeafNode) (coords : list FixedPointCoordinate) (names : street_names) (check_sum number_of_nodes : N)
    (timestamp : str) : DataFacade :=
  MkDataFacade check_sum number_of_nodes timestamp
    (fun c p zoom => FindPhantomNodeForCoordinate math tree leaves coords pop c zoom fuel p)
    (fun c results n => IncrementalFindPhantomNodeForCoordinate math tree leaves coords pop_incremental c n 4096 fuel results)
    (fun c result zoom => LocateClosestEndPointForCoordinate math tree leaves coords pop c zoom fuel result)
    (vget coords) (fun id => GetName id names).

Section plugins.
  Context (d : DataFacade) (integral_to_string : N -> str) (karma_real : double -> str).
  Context (iteration : list (str * Value double) -> list (str * Value double)).
  (** [ObjectEncoder]: the bytes of an object in the base64 encoding of Boost. *)
  Context (DecodeFromBase64 : str -> PhantomNode -> PhantomNode) (EncodeToBase64 : PhantomNode -> str).

Implicit Types (params : RouteParameters) (reply : Reply).

(** [JSON::render] into the reply. *)
Definition render_reply reply (values : list (str * Value double)) : Reply :=
  set_content (render karma_real (content reply) (iteration values)) reply.

Definition with_status reply : Reply := MkReply ok (headers reply) (content reply).

(** A parameter that is stored in a [short]. *)
Definition zoom params : N := of_int (zoom_level params).

(** ** HelloWorldPlugin.h, TimestampPlugin.h, LocatePlugin.h *)

Definition yes_no (b : bool) : Value double := JString (if b then lit "yes" else lit "no").

Definition HelloWorldPlugin_HandleRequest params reply : option Reply :=
  let locations := imap (fun counter c =>
    JObject (iteration [(integral_to_string (N.of_nat counter), coordinate_array c)])) (coordinates params) in
  Some (render_reply (with_status reply)
    [(lit "title", JString (lit "Hello World")); (lit "zoom_level", JString (integral_to_string (zoom params)));
     (lit "check_sum", JString (integral_to_string (check_sum params))); (lit "instructions", yes_no (print_instructions params));
     (lit "geometry", yes_no (geometry params)); (lit "compression", yes_no (compression params));
     (lit "output_format", yes_no (negb (bool_decide (output_format params = [])))); (lit "jsonp_parameter", yes_no (negb (bool_decide (jsonp_parameter params = []))));
     (lit "language", yes_no (negb (bool_decide (language params = [])))); (lit "location_count", JString (integral_to_string (vsize (coordinates params))));
     (lit "locations", JArray locations); (lit "hint_count", junsigned (vsize (hints params))); (lit "hints", JArray (JString <$> hints params))]).

Definition TimestampPlugin_HandleRequest params reply : option Reply :=
  Some (render_reply (with_status reply) [(lit "status", jint 0); (lit "timestamp", JString (df_GetTimestamp d))]).

(** The first coordinate, if it is valid. *)
Definition first_coordinate params : option FixedPointCoordinate :=
  c ← head (coordinates params); if coordinate_isValid c then Some c else None.

Definition LocatePlugin_HandleRequest params reply : option Reply :=
  match first_coordinate params with
  | None => Some (StockReply integral_to_string badRequest)
  | Some c =>
      '(found, result) ← df_LocateClosestEndPoint d c coordinate_default 18;
      Some (if negb found then render_reply reply [(lit "status", jint 207)]
            else render_reply (with_status reply) [(lit "status", jint 0); (lit "mapped_coordinate", coordinate_array result)])
  end.

(** ** NearestPlugin.h *)

(** The name of every result is that of the first one. *)
Definition nearest_result (front p : PhantomNode) : option (Value double) :=
  name ← df_GetName d (ph_name_id front);
  Some (JObject (iteration [(lit "mapped coordinate", coordinate_array (location p)); (lit "name", JString name)])).

Definition NearestPlugin_HandleRequest params reply : option Reply :=
  match first_coordinate params with
  | None => Some (StockReply integral_to_string badRequest)
  | Some c =>
      let number_of_results := of_int (num_results params) in
      '(_, phantom_node_vector) ← df_IncrementalFindPhantomNode d c [] number_of_results;
      match phantom_node_vector with
      | [] => Some (render_reply reply [(lit "status", jint 207)])
      | front :: _ =>
          if negb (phantom_isValid front) then Some (render_reply reply [(lit "status", jint 207)])
          else if (1 <? number_of_results)%N then
            results ← mapM (nearest_result front) (take (N.to_nat number_of_results) phantom_node_vector);
            Some (render_reply (with_status reply) [(lit "status", jint 0); (lit "results", JArray results)])
          else
            name ← df_GetName d (ph_name_id front);
            Some (render_reply (with_status reply) [(lit "status", jint 0); (lit "mapped_coordinate", coordinate_array (location front)); (lit "name", JString name)])
      end
  end.

(** ** Hints *)

(** The hint of a location, if it can be used. *)
Definition hinted params (i : nat) (p : PhantomNode) : option PhantomNode :=
  if (check_sum params =? df_GetCheckSum d)%N then
    hint ← hints params !! i;
    if bool_decide (hint = []) then None else Some (DecodeFromBase64 hint p)
  else None.

(** ** DistanceTablePlugin.h *)

Section table.
  Context (distance_table : list (list PhantomNode) -> option (list Z)).

Definition table_location params (i : nat) (c : FixedPointCoordinate) : option (list PhantomNode) :=
  match hinted params i PhantomNode_default with
  | Some p => if phantom_isValid_for (df_GetNumberOfNodes d) p then Some [p] else snd <$> df_IncrementalFindPhantomNode d c [] 1
  | None => snd <$> df_IncrementalFindPhantomNode d c [] 1
  end.

(** The rows of the table; a row past the end is undefined. *)
Definition table_row (result_table : list Z) (number_of_locations row : N) : option (Value double) :=
  if (vsize result_table <? (row + 1) * number_of_locations)%N then None
  else Some (JArray (jint <$> take (N.to_nat number_of_locations) (drop (N.to_nat (row * number_of_locations)) result_table))).

Definition DistanceTablePlugin_HandleRequest params reply : option Reply :=
  if (vsize (coordinates params) <? 2)%N || negb (forallb coordinate_isValid (coordinates params)) then Some (StockReply integral_to_string badRequest)
  else
    let max_locations := N.min 100 (u32 (vsize (coordinates params))) in
    phantom_node_vector ← mapM (fun '(i, c) => table_location params i c) (imap pair (take (N.to_nat max_locations) (coordinates params)));
    result_table ← distance_table phantom_node_vector;
    rows ← mapM (table_row result_table max_locations) (irange 0 max_locations);
    Some (render_reply reply [(lit "distance_table", JArray rows)]).
End table.

(** ** ViaRoutePlugin.h *)

Section via_route.
  (** The two searches, and the rest of what the descriptors use. *)
  Context (alternative_path : PhantomNodes -> RawRouteData -> option RawRouteData).
  Context (shortest_path : list PhantomNodes -> list bool -> RawRouteData -> option RawRouteData).
  Context (math : c_math) (fuel : nat) (sort_length sort_name : list Segment -> list Segment) (junk : N -> N).

Definition route_location params (i : nat) (c : FixedPointCoordinate) : option PhantomNode :=
  let p := default PhantomNode_default (hinted params i PhantomNode_default) in
  match hinted params i PhantomNode_default with
  | Some _ => if phantom_isValid_for (df_GetNumberOfNodes d) p then Some p else snd <$> df_FindPhantomNode d c p (zoom params)
  | None => snd <$> df_FindPhantomNode d c p (zoom params)
  end.

(** The pairs of neighbouring locations. *)
Definition route_pairs (phantoms : list PhantomNode) : list PhantomNodes := zip_with MkPhantomNodes phantoms (drop 1 phantoms).

Definition describe params (raw_route : RawRouteData) reply : option Reply :=
  if bool_decide (output_format params = lit "gpx") then
    c ← GPXDescriptor_Run junk (df_GetCoordinateOfNode d) raw_route (content reply); Some (set_content c reply)
  else if bool_decide (output_format params = lit "plain") then
    c ← PLAINDescriptor_Run junk (df_GetCoordinateOfNode d) raw_route (content reply); Some (set_content c reply)
  else if bool_decide (output_format params = lit "kml") then
    c ← KMLDescriptor_Run junk (df_GetCoordinateOfNode d) raw_route (content reply); Some (set_content c reply)
  else
    values ← JSONDescriptor_Run math fuel sort_length sort_name (df_GetCoordinateOfNode d) (GetEscapedNameForNameID d) integral_to_string iteration EncodeToBase64
      (MkDescriptorConfig (print_instructions params) (geometry params) (compression params) (u16 (zoom params))) raw_route;
    Some (render_reply reply values).

Definition ViaRoutePlugin_HandleRequest params reply : option Reply :=
  if (vsize (coordinates params) <? 2)%N || negb (forallb coordinate_isValid (coordinates params)) then Some (StockReply integral_to_string badRequest)
  else
    phantom_node_vector ← mapM (fun '(i, c) => route_location params i c) (imap pair (coordinates params));
    let segment_end_coordinates := route_pairs phantom_node_vector in
    let raw_route := MkRawRouteData [] [] segment_end_coordinates (coordinates params) [] [] [] [] (df_GetCheckSum d) INVALID_EDGE_WEIGHT INVALID_EDGE_WEIGHT in
    raw_route ← (if alternate_route params && (vsize segment_end_coordinates =? 1)%N then
                   first_leg ← vget segment_end_coordinates 0; alternative_path first_leg raw_route
                 else shortest_path segment_end_coordinates (uturns params) raw_route);
    describe params raw_route (with_status reply).
End via_route.
End plugins.

(** ** Properties *)

Lemma table_rows_ok table n : vsize table = (n * n)%N -> (n < 4294967296)%N -> exists rows, mapM (table_row table n) (irange 0 n) = Some rows /\ vsize rows = n /\
  forall i j x, (i < n)%N -> (j < n)%N -> vget table (i * n + j) = Some x -> exists row, vget rows i = Some (JArray row) /\ vget row j = Some (jint x).
Proof.
  intros Ht Hn. set (row_of i := JArray (jint <$> take (N.to_nat n) (drop (N.to_nat (i * n)) table))).
  exists (row_of <$> irange 0 n). split; [|split].
  - apply mapM_Some_2, Forall2_fmap_r, Forall_Forall2_diag, Forall_forall. intros i Hi%elem_of_irange; [|lia]. unfold table_row. case_ltb; [nia|done].
  - unfold vsize. rewrite length_fmap, length_irange by lia. lia.
  - intros i j x Hi Hj Hx. exists (jint <$> take (N.to_nat n) (drop (N.to_nat (i * n)) table)). rewrite !vget_fmap. split.
    + rewrite vget_lookup, irange_lookup by lia. case_decide; [|lia]. cbn [fmap option_fmap option_map]. by rewrite N.add_0_l, N2Nat.id.
    + rewrite vget_lookup, lookup_take_lt, lookup_drop by lia. rewrite vget_lookup in Hx. replace (N.to_nat (i * n) + N.to_nat j)%nat with (N.to_nat (i * n + j)) by lia. by rewrite Hx.
Qed.

(** C14: A request for a distance table is answered with shortest ways. For two
    to a hundred valid coordinates, for which the facade finds the locations
    [locs] on the hierarchy [g] of the network [E], the reply is a JSON object
    with a square table. Its entry for two locations is the length of the
    shortest way between them, or [INT_MAX] if there is none, provided that no
    such way is negative. *)
Theorem table_reply_shortest d integral_to_string karma_real iteration decode params reply g E W M B (query_heap : BinaryHeap HeapData map_storage) locs :
  (2 <= vsize (coordinates params) <= 100)%N -> Forall (fun c => coordinate_isValid c = true) (coordinates params) ->
  mapM (fun '(i, c) => table_location d decode params i c) (imap pair (coordinates params)) = Some locs ->
  static_wf g -> (sg_number_of_nodes g < 2147483647)%N -> weights_ok W g -> represents g E ->
  (forall dir, upward_bound dir g B) -> (0 <= M /\ 0 <= B /\ 0 <= W /\ M + 2 * B + W < INT_MAX)%Z ->
  Forall (location_ok (sg_number_of_nodes g) M) locs ->
  exists rows, DistanceTablePlugin_HandleRequest d integral_to_string karma_real iteration decode (ManyToManyRouting g query_heap) params reply =
    Some (render_reply karma_real iteration reply [(lit "distance_table", JArray rows)]) /\ vsize rows = vsize (coordinates params) /\
    forall i j from to, vget locs i = Some from -> vget locs j = Some to -> exists row x,
      vget rows i = Some (JArray row) /\ vget row j = Some (jint x) /\ ((forall s, way E from to s -> (0 <= s)%Z) -> shortest E from to x).
Proof.
  intros Hn Hvalid Hlocs Hwf Hg Hw Hrep Hb Hroom Hok. assert (vsize locs = vsize (coordinates params)) as Hsz.
  { apply mapM_Some, Forall2_length in Hlocs. unfold vsize. by rewrite <- Hlocs, length_imap. }
  destruct (distance_table_ok g E W M B query_heap locs Hwf Hg Hw Hrep Hb Hroom Hok) as (table & Ht & Hts & Hentry); [nia|].
  destruct (table_rows_ok table (vsize locs)) as (rows & Hrows & Hrs & Hrow); [done|lia|]. exists rows. split.
  - unfold DistanceTablePlugin_HandleRequest. case_ltb; [lia|]. cbn [orb].
    assert (forallb coordinate_isValid (coordinates params) = true) as -> by (apply forallb_forall; rewrite Forall_forall in Hvalid; intros c Hc; apply Hvalid, list_elem_of_In, Hc).
    cbn [negb]. rewrite u32_small, N.min_r by lia. rewrite take_ge by (unfold vsize; lia). rewrite Hlocs. cbn [mbind option_bind]. rewrite Ht. cbn [mbind option_bind].
    by rewrite <- Hsz, Hrows.
  - split; [lia|]. intros i j from to Hi Hj. destruct (Hentry i j from to Hi Hj) as (x & Hx & _ & Hshort). pose proof (vget_Some_lt _ _ _ Hi). pose proof (vget_Some_lt _ _ _ Hj).
    destruct (Hrow i j x) as (row & H1 & H2); [lia|lia|done|]. by exists row, x.
Qed.

(** With more than one result, the nearest service gives every road the
    name of the first one. For any facade that finds at least two roads, every
    entry of the reply has the location of its own road and the name of the
    first road. *)
Theorem nearest_repeats_first_name d integral_to_string karma_real iteration params reply c front p rest found name :
  first_coordinate params = Some c -> (1 < num_results params < 32768)%Z -> phantom_isValid front = true ->
  df_IncrementalFindPhantomNode d c [] (of_int (num_results params)) = Some (found, front :: p :: rest) -> df_GetName d (ph_name_id front) = Some name ->
  exists results, NearestPlugin_HandleRequest d integral_to_string karma_real iteration params reply =
    Some (render_reply karma_real iteration (with_status reply) [(lit "status", jint 0); (lit "results", JArray results)]) /\
    forall i q, vget (front :: p :: rest) i = Some q -> (i < of_int (num_results params))%N ->
      vget results i = Some (JObject (iteration [(lit "mapped coordinate", coordinate_array (location q)); (lit "name", JString name)])).
Proof.
  intros Hc Hn Hv Hf Hname. exists ((fun q => JObject (iteration [(lit "mapped coordinate", coordinate_array (location q)); (lit "name", JString name)])) <$>
    take (N.to_nat (of_int (num_results params))) (front :: p :: rest)).
  assert (of_int (num_results params) = Z.to_N (num_results params)) as Hnum by (apply of_int_nonneg; unfold INT_MAX; lia). split.
  - unfold NearestPlugin_HandleRequest. rewrite Hc, Hf. cbn [mbind option_bind]. rewrite Hv. cbn [negb]. case_ltb; [|lia].
    match goal with |- context [mapM ?h ?l] => assert (mapM h l = Some ((fun q => JObject (iteration [(lit "mapped coordinate", coordinate_array (location q)); (lit "name", JString name)])) <$> l)) as -> end; [|done].
    apply mapM_Some_2, Forall2_fmap_r, Forall_Forall2_diag, Forall_forall. intros q _. unfold nearest_result. by rewrite Hname.
  - intros i q Hi Hlt. rewrite vget_fmap, vget_lookup, lookup_take_lt by lia. rewrite vget_lookup in Hi. by rewrite Hi.
Qed.

(** ** Witnesses *)

(** Two places on a road, found by their latitudes. *)
Definition sample_facade : DataFacade :=
  MkDataFacade 7 2 [] (fun _ p _ => Some (true, p))
    (fun c results _ => Some (true, results ++ (if (lat c <? 52500000)%Z then [at_node 0 1] else [at_node 1 2])))
    (fun _ c _ => Some (true, c)) (fun _ => None) (fun _ => Some (lit "A")).

Definition sample_request (lats : list Z) : RouteParameters :=
  MkRouteParameters 18 false true true true false false (of_int (-1)) 2 (lit "table") [] [] [] [] [] ((fun la => MkCoordinate la 13400000) <$> lats).

Lemma table_reply_shortest_witness : exists rows row x,
  DistanceTablePlugin_HandleRequest sample_facade sample_decimal (fun _ => []) id (fun _ p => p) (ManyToManyRouting two_nodes (BinaryHeap_make UnorderedMapStorage_make))
    (sample_request [52400000; 52600000]%Z) Reply_default = Some (render_reply (fun _ => []) id Reply_default [(lit "distance_table", JArray rows)]) /\
  vget rows 1 = Some (JArray row) /\ vget row 0 = Some (jint x) /\ shortest two_arcs [at_node 1 2] [at_node 0 1] x.
Proof.
  destruct (table_reply_shortest sample_facade sample_decimal (fun _ => []) id (fun _ p => p) (sample_request [52400000; 52600000]%Z) Reply_default
    two_nodes two_arcs 5 2 5 (BinaryHeap_make UnorderedMapStorage_make) [[at_node 0 1]; [at_node 1 2]]) as (rows & H1 & _ & H2).
  - vm_compute. done.
  - repeat (constructor; [vm_compute; reflexivity|]). constructor.
  - vm_compute. reflexivity.
  - exact two_wf.
  - done.
  - intros u e Hu He. apply two_adj in He as [-> ->]; done.
  - exact two_represents.
  - intros dir. apply (potential_bound (fun u => if (u =? 0)%N then 0 else 5)%Z); [done|done| |done].
    intros u e Hu He. by apply two_adj in He as [-> ->].
  - done.
  - repeat constructor; simpl; try lia; by intros ?%elem_of_nil.
  - destruct (H2 1%N 0%N [at_node 1 2] [at_node 0 1]) as (row & x & Hr & Hx & Hs); [reflexivity|reflexivity|].
    exists rows, row, x. split; [exact H1|]. split; [exact Hr|]. split; [exact Hx|]. apply Hs. intros s (a & wa & b & wb & l & Ha & Hb & Hp & ->).
    apply list_elem_of_singleton in Ha as [= -> ->]. apply list_elem_of_singleton in Hb as [= -> ->].
    apply two_paths in Hp as [[=]|[_ Hl]]. lia.
Defined.

(** Two places with names of their own. *)
Definition named_facade : DataFacade :=
  let place name la := MkPhantomNode 0 SPECIAL_NODEID name 1 0 0 0 SPECIAL_EDGEID (MkCoordinate la 13400000) 0 1 1 in
  MkDataFacade 7 2 [] (fun _ p _ => Some (true, p)) (fun _ results _ => Some (true, results ++ [place 1%N 52400000%Z; place 2%N 52500000%Z]))
    (fun _ c _ => Some (true, c)) (fun _ => None) (fun id => if (id =? 1)%N then Some (lit "A") else Some (lit "B")).

Lemma nearest_repeats_first_name_witness : exists results,
  NearestPlugin_HandleRequest named_facade sample_decimal (fun _ => []) id (sample_request [52400000]%Z) Reply_default =
    Some (render_reply (fun _ => []) id (with_status Reply_default) [(lit "status", jint 0); (lit "results", JArray results)]) /\
  vget results 1 = Some (JObject [(lit "mapped coordinate", coordinate_array (MkCoordinate 52500000 13400000)); (lit "name", JString (lit "A"))]).
Proof.
  destruct (nearest_repeats_first_name named_facade sample_decimal (fun _ => []) id (sample_request [52400000]%Z) Reply_default (MkCoordinate 52400000 13400000)
    (MkPhantomNode 0 SPECIAL_NODEID 1 1 0 0 0 SPECIAL_EDGEID (MkCoordinate 52400000 13400000) 0 1 1)
    (MkPhantomNode 0 SPECIAL_NODEID 2 1 0 0 0 SPECIAL_EDGEID (MkCoordinate 52500000 13400000) 0 1 1) [] true (lit "A")) as (results & H1 & H2).
  - vm_compute. reflexivity.
  - cbn. lia.
  - vm_compute. reflexivity.
  - reflexivity.
  - reflexivity.
  - exists results. split; [exact H1|]. apply (H2 1%N (MkPhantomNode 0 SPECIAL_NODEID 2 1 0 0 0 SPECIAL_EDGEID (MkCoordinate 52500000 13400000) 0 1 1)); vm_compute; reflexivity.
Defined.
